(* ===== verification/_CoqProject ===== *)
-Q . S2P
Prelude.v
Tables.v
Rbac.v
Tiers.v
Encoding.v
Helpers.v
Links.v
Timeseries.v
Scrub.v
ScrubValues.v
ScrubEvents.v
ErrorFilter.v
Keys.v
StripeTypes.v
DeployPlan.v
AuthTypes.v
GithubTypes.v
CtrlTypes.v
Effects.v
Fixtures.v
DeployBilling.v
SubscriptionUtils.v
SlackText.v
Alerts.v
DeployCredits.v
BillingOps.v
Cookies.v
Sessions.v
AuthProvider.v
Workos.v
Trpc.v
AuthActions.v
AuthSafety.v
AuthFlows.v
Routes.v
Members.v
Local.v
ApiProxy.v
Store.v
Github.v
LinkSubscription.v
PaymentUtils.v
Webhook.v
Checkout.v
BillingQueries.v
BillingRouter.v
Claims.v
Authorization.v
GithubRouter.v
PolicySchema.v
Portal.v
PolicyForm.v
PolicyRouter.v
EnvVars.v
EnvVarSync.v
EnvFile.v
Deployments.v
LeakedKeys.v
RootKeys.v
Secrets.v
Resources.v
Match.v
Workspaces.v
DeployBudget.v
