(* ===== verification/Prelude.v ===== *)
(** * Verification of the TypeScript core of Unkey

    Unkey is an API platform. Its control plane, gateway and public API are Go
    services; the program written in TypeScript is the dashboard
    (web/apps/dashboard), which owns billing, sign-in, the customer portal
    (web/apps/portal), and the packages under web/internal they are built from. This
    development models the parts of that code that decide something: who may do what,
    who is signed in, what a key looks like, what a customer pays, what happens to a
    workspace when Stripe reports a change, what an error report may contain, and what
    is asked of GitHub and of the control plane.

    ** Parts of the program and the files that model them

    Packages without state (web/internal):
    - Rbac: [Queries] is rbac/src/queries.ts (permission queries, their schema, the
      [and]/[or] builders), [Eval] is rbac/src/rbac.ts (evaluation and the message
      of a refused query), [Permissions] is rbac/src/permissions.ts (root-key
      permission strings). [Spec] is the boolean formula a query denotes.
    - Tiers: billing/src/tiers.ts and billing/src/subscriptions.ts.
    - Encoding: encoding/src/base64.ts; the index loop of [encode] and a
      group-by-group reference definition.
    - Keys: keys/src/v1.ts and util.ts, hash/src, encryption/src.
    - Match: match/src/match.ts, patterns.ts and errors.ts, with the relation
      [Matches] between patterns and values as its specification.

    Billing of the dashboard (web/apps/dashboard):
    - StripeTypes: the fields of Stripe's objects that the code reads.
    - DeployPlan: lib/limits.ts, lib/stripe/deployPlan.ts, setWorkspaceLimits.ts
      (the values), productUtils.ts, webhookRouting.ts (team retention).
    - Effects: the database tables, the statements, the calls to other systems,
      and the monad of the server's computations.
    - DeployBilling: lib/stripe/deployBilling.ts with its cache.
    - SubscriptionUtils: lib/stripe/subscriptionUtils.ts.
    - SlackText and Alerts: lib/utils/slackAlerts.ts, lib/stripe/computeAlerts.ts
      and [formatPrice] of lib/fmt.ts.
    - DeployCredits: lib/stripe/deployCredits.ts.
    - BillingOps: lib/stripe/setWorkspaceLimits.ts and billingSubscriptions.ts,
      lib/audit.ts, lib/auth/deactivateNonCreatorMemberships.ts.
    - LinkSubscription: lib/stripe/linkDeploySubscription.ts and
      linkApiSubscription.ts.
    - PaymentUtils: lib/stripe/paymentUtils.ts.
    - Webhook: app/api/webhooks/stripe/route.ts, the composition of all of these.
    - Checkout: lib/stripe/createSubscriptionCheckout.ts, changeSubscriptionPrice.ts,
      cancelDeploySubscription.ts, scheduleApiPlanDowngrade.ts.

    Procedures of the dashboard (web/apps/dashboard/lib/trpc):
    - Trpc: context.ts and trpc.ts (the middleware that authenticates, finds the
      workspace, limits rates and asks for the admin role), lib/client-ip.ts.
    - BillingQueries and BillingRouter: routers/stripe and routers/utils/stripe.ts,
      the queries and the mutations.
    - Claims: concurrent runs of [subscribeDeploy] as a step relation.
    - Tables: the tables of web/internal/db/src/schema that the procedures below
      write, with their unique indexes; Store: the statements and invariants these
      procedures share, lib/projects/ensure-default-project-id.ts and
      lib/utils/db-errors.ts.
    - Authorization: routers/rbac, routers/rbac.ts, the writing procedures of
      routers/authorization.
    - RootKeys: the writing procedures of routers/key and
      routers/settings/root-keys.
    - Secrets: routers/share. Resources: the writing procedures of routers/api and
      routers/ratelimit.
    - GithubTypes, Github and GithubRouter: lib/github.ts and routers/github.ts.
    - PolicySchema, PolicyForm and PolicyRouter: lib/collections/deploy/policies.schema.ts,
      the form of the policies page, and routers/deploy/environment-settings/policies.
    - EnvVars: lib/schemas/env-var.ts (names) and routers/deploy/env-vars; EnvFile: the
      import of .env text of the page that adds variables; EnvVarSync:
      lib/collections/deploy/env-vars.ts and the edit form, over a class of operations of
      the API with its laws.
    - CtrlTypes and Deployments: lib/ctrl-client.ts, routers/deploy/custom-domains, and
      cancelling and authorizing in routers/deploy/deployment.
    - Workspaces: routers/workspace.
    - DeployBudget: routers/billing/deploy-budget.
    - Helpers: lib/auth/redirect-utils.ts, lib/duration.ts, lib/slugify.ts. Links:
      lib/navigation/url.ts, github-url.ts, deploy-ref.ts, shorten-id.ts. Timeseries:
      routers/utils/granularity.ts.

    Sign-in of the dashboard:
    - AuthTypes: lib/auth/types.ts and the objects of the WorkOS client.
    - Cookies: lib/auth/cookies.ts and cookie-security.ts. Sessions: sessions.ts and
      get-auth.ts.
    - AuthProvider: base-provider.ts, the operations of a provider as a class. Workos
      (workos.ts) and Local (local.ts) are its instances.
    - AuthActions: lib/auth.ts, lib/auth/utils.ts, cookies-actions.ts and
      app/auth/actions.ts, for any provider.
    - AuthSafety and AuthFlows: where session cookies come from, whose session a
      request has, invitations and challenges. [AuthSafety.SoundProvider] is what the
      actions need of a provider.
    - Routes: proxy.ts, lib/auth/middleware.ts, the routes around signing in and the
      webhook of WorkOS.
    - Members: routers/org and routers/user.
    - ApiProxy: app/proxy, the requests of the browser to the API. Its interface
      [SilentProvider] is met by both providers.

    Reports and other entry points:
    - Scrub, ScrubValues and ScrubEvents: lib/sentry/pii-scrubber.ts (text, values on a
      heap with sharing and cycles, reports).
    - ErrorFilter: error-classification.ts, structured-logger.ts, error-filter.ts and
      trace-sampler.ts.
    - LeakedKeys: app/api/v1/github/verify, with the cache of keys as a step relation.
    - Portal: web/apps/portal, sessions and calls of the API.

    Fixtures holds a concrete Stripe account, database and environment at which
    the theorems with hypotheses are instantiated. This file holds the model of
    the JavaScript built-ins the code uses ([Js], [Str], [Num]), the tactics and
    the facts about them that several components need.

    How they interact: Stripe delivers an event to [Webhook.POST], which verifies
    it and dispatches to a handler; a handler re-reads the live subscription,
    classifies the change (SubscriptionUtils, DeployBilling, PaymentUtils), writes
    the workspace in one transaction (BillingOps, LinkSubscription), asks the
    control plane for a teardown, grants credits (DeployCredits) and posts to
    Slack (Alerts). Checkout produces the sessions and schedules whose events come
    back through the webhook. A request of a browser passes the proxy of Routes, which
    validates or refreshes its session (Sessions) through the provider. A person who uses
    the dashboard reaches a procedure
    through the middleware of Trpc; the billing procedures call the same Stripe
    components as the webhook, the others write the tables of Tables, each through
    one transaction with its audit log (BillingOps).

    ** The model of effects

    A computation is a function [M A := Env -> World -> Outcome A * World]. The
    world holds the tables, the caches of DeployBilling and of getDeployCredit, the
    cookie jar of the request and the trace of the calls made so far. The environment answers each call, given the calls before it,
    with a result or an exception; nothing else is assumed of it unless a theorem
    says so. A statement about all environments therefore covers every answer of
    Stripe, WorkOS, GitHub, the vault, the API and the control plane, and every pattern of failures, a failure of the database driver
    included. A statement or a commit that fails has no effect: a connection that is lost after
    the server has applied it is not modelled, except for the commit of a reveal in Secrets.
    One call of another service changes these tables: [DeprovisionCompute], with which
    the Go control plane lifts a suspension and clears the plan, in two statements
    (svc/ctrl/services/deployment/deprovision_compute.go, [Effects.torn_down]); when it
    fails, the environment says how far it came. A transaction whose body throws or whose commit fails restores the
    tables; where the code opens a second connection inside a transaction
    ([RootKeys.transaction_around]) what that connection committed stays. A
    statement that would break a unique index is refused; columns are compared
    under the collation of the server, a parameter ([fold]), unless their schema
    says otherwise. [Promise.all] runs its members in order and reports the first error in
    order. Computations are classified by [ReadOnly], [NoThrow], [Atomic] and
    [Emits], whose instances follow the constructs of the monad, and the handlers
    of the webhook by [Answers].

    Conventions: a missing value is [None], and [null] is distinguished from
    [undefined] only where the code can tell them apart; amounts and times are
    integers; strings are sequences of code units below 256, except that SlackText
    works on lists of UTF-16 code units; [localeCompare] is applied to ISO 8601
    timestamps only and is the order of their code units; Stripe's identifiers are
    not empty. Console output is not modelled. Columns that only record when a row
    was written are left out. The input of a procedure is what its zod schema lets
    through; [DeployBudget.setDeployBudget] checks it in the model. One request runs at a time: another request shows through the shared
    promise of DeployBilling and through what Stripe answers; Claims interleaves
    the statements of concurrent subscribers, Secrets those of concurrent reveals, under
    the lock that SELECT ... FOR UPDATE takes, LeakedKeys the webhooks that share the
    cache of keys, and Authorization, Resources and GithubRouter speak of sequences of
    requests. The row locks of other transactions are not modelled. Scrub, ScrubEvents and Portal have no use for the monad: they are functions
    of the text, of the report, or of the rows.

    Packages outside the repository are parameters: the base58 codec, the digest,
    the cipher and the random bytes of Keys, the digest of Checkout, the number
    types of the price estimate of Tiers and of Match, Stripe's signature check in
    Webhook, the parser of URLs, decodeURIComponent and JSON where the text matters
    (Scrub, ScrubEvents, Workos, AuthActions, GithubRouter, ApiProxy), the keyed hash and the
    signatures of GithubRouter, Github and LeakedKeys, and the signer of ApiProxy.
    What the code relies on is a named hypothesis, instantiated in the witnesses.

    Fuel and bounds: [Num.print] has one unit of fuel per bit of its argument,
    enough by [NumFacts.print_fuel]; [encode_loop] has one unit per byte, enough
    by its equality with the reference definition; the retry loops of the checkout
    and that of [settle_subscription] make three attempts, as the source does;
    [redactStructured] has a level per object of the heap, enough by
    [ScrubValues.redaction_terminates]; the page loops of Github have a level per page,
    and their theorems say how many are enough; [EnvFile.parse_lines] has one unit per
    line, enough by [EnvFile.parse_fuel]; the listing of EnvVarSync has a level per page,
    enough by [EnvVarSync.pages_fuel], and its parts one per variable
    ([EnvVarSync.parts_from_concat]). Every other recursion is structural.

    ** What the theorems show

    - The webhook: every event is answered; an answer of 500, which makes Stripe
      deliver again, leaves the tables unchanged but for the teardown of the workspace
      and a committed mirror of its plan, and each subscription resolves as before; a
      deletion is processed completely or leaves at most the teardown, and is
      answered 200 only once teardown was accepted; a repeated deletion is silent; an
      unverified request has no effect; an API update writes what the live product
      says.
    - Linking: a checkout is written only when it is paid, live, of the workspace
      and recognized, and never over another live subscription; a second delivery
      changes nothing.
    - Credits: at most one grant per call, for the net of the plan-fee lines of the
      invoice at the prices in force and under its key; the net fee and the included credit are the sums they should be.
    - Checkout: a bounded number of sessions, and only destinations that Stripe, read
      again, reports as usable, or the session after three that are spent; a
      foreign schedule is never touched.
    - Subscribing to Compute: when the procedure throws, the tables are as before
      unless releasing the claim failed; without the claim nothing is bought; at
      most one of any number of concurrent requests holds the plan; a success
      leaves the plan, its limits and a subscription that was resumed or is active. Plan changes and
      cancellations touch only the recorded subscription and in the right order,
      and a checkout session of another workspace cannot be probed.
    - Permissions, roles, APIs and ratelimits: no request reaches a row of another
      workspace; unique indexes and references stay intact over any sequence of
      requests; deletions reach exactly what they should.
    - Root keys: created with the requested permissions or not at all; a rotation
      never prolongs the life of the old key; an update sets the permissions.
    - Secrets: revealed at most once per link by any number of concurrent reveals, and
      revealed correctly until the link expires.
    - Sign-in, with a provider that is not the local one of development: a session cookie,
      in the store or in a Set-Cookie line, only ever holds what the provider issued in
      the same run, with its attributes; a request acts as the user who was authenticated; a sign-in
      that a challenge interrupted can be finished; invitations are accepted for their
      addressee; no page is served without a session; no administrator reaches another
      organization.
    - The proxy to the API: the credential of a session is sent to the API and nowhere
      else, at most once and following no redirect, and plain paths are sent.
    - GitHub: an installation is bound only with a proof of ownership and a state that
      was signed for the same workspace and user; no request reaches another
      workspace; a leak report is believed only under a key GitHub served.
    - Policies: a stored policy is read back unchanged, a form opens as it was saved, and
      the procedures refine the operations of a list of policies.
    - Environment variables: their secrets never change and a writeonly variable stays
      so; .env text is read back; an edit cannot lose a variable, whatever requests fail.
      The control plane is asked only about what the workspace of the caller owns.
    - Budgets stay positive whole dollars, and workloads stop only at one; links to
      GitHub are understood when they are pasted back; charts have a readable number of
      buckets.
    - The portal: a page is shown for a live session and no other, errors are told
      apart by their message, and the periods on offer are within the retention.
    - Reports: what is sent has its personal data redacted, on every path, but for a part
      of the request that throws when it is touched; the redaction of a cyclic value ends.
    - Workspaces: created as a whole or not at all, but for the organization of a failed
      creation.
    - Classification: no plan change is skipped as a renewal, a payment failure, a
      card update or a schedule change; a recovery is announced only on evidence.
    - Slack: text of a customer cannot produce a link, a mention or a line break.
    - Permissions: the evaluator refines the boolean formula and is monotone; the
      strings accepted are exactly the documented ones.
    - Keys, base64, encryption keys: round trips; tiers: exact quantities;
      redirect targets stay on the site; durations and slugs are read and made
      as documented; pattern matching decides its specification, and the first
      arm that applies is the only one that runs.
    - Where the code departs from its intent, a theorem states the departure
      (for example [Rbac.empty_and_member_is_waived],
      [Webhook.override_lost_on_api_delete], [Webhook.limits_kept_on_retry],
      [Authorization.deletePermission_severs],
      [RootKeys.createRootKey_orphans]).

    ** Not modelled

    The React user interface of the dashboard and the portal, and the packages of
    components and icons; generated code (protobuf messages, the API client); SQL text
    sent to ClickHouse and the queries over it (logs, metrics, audit search), whose
    result is what the service returns; searches that ask a language model; the listing
    queries of the routers, which select and page rows; clients of services without
    decisions of their own (vault, e-mail); the remaining collections, which mirror
    procedures in the browser; estimates in floating point that are only displayed; and the Go services.
    They are left out because what they do is decided by a system outside the
    TypeScript code or is presentation. *)

From Stdlib Require Import ZArith Lia Bool Ascii String.
From stdpp Require Import base list strings gmap.

(** ** JavaScript values the code tests for truthiness

    [undefined] and [null] are both [None] wherever the source treats them
    alike ([?.], [??], a bare truth test); a definition that tells the two
    apart has its own type. *)

Module Js.

(** [Boolean(s)] for a string: only the empty string is falsy. *)
Definition truthy_string (s : string) : bool :=
  negb (String.eqb s EmptyString).

(** [Boolean(x)] for [x : string | null | undefined]. *)
Definition truthy (o : option string) : bool :=
  match o with Some s => truthy_string s | None => false end.

(** [Boolean(n)] for a number that is not NaN. *)
Definition truthy_Z (n : Z) : bool := negb (Z.eqb n 0).

(** [Boolean(n)] for [n : number | null | undefined]. *)
Definition truthy_oZ (o : option Z) : bool :=
  match o with Some n => truthy_Z n | None => false end.

(** [Boolean(x)] for an object reference or a missing one. *)
Definition truthy_obj {A} (o : option A) : bool :=
  match o with Some _ => true | None => false end.

(** [a ?? b]. *)
Definition coalesce {A} (a : option A) (b : A) : A :=
  match a with Some x => x | None => b end.

(** [a ?? b] where [b] may itself be missing. *)
Definition ocoalesce {A} (a b : option A) : option A :=
  match a with Some x => Some x | None => b end.

(** [a || b] for strings. *)
Definition or_string (a : option string) (b : string) : string :=
  match a with Some s => if truthy_string s then s else b | None => b end.

(** [===] between a possibly missing string and a string literal. *)
Definition eq_ostring (o : option string) (s : string) : bool :=
  match o with Some t => String.eqb t s | None => false end.

(** [Array.prototype.includes] on strings. *)
Definition includes (l : list string) (s : string) : bool :=
  existsb (String.eqb s) l.

End Js.

(** ** Strings as sequences of code units *)

Module Str.

Local Open Scope string_scope.

(** [s.split(sep)] for a one-character separator. *)
Fixpoint split_on (sep : ascii) (s : string) : list string :=
  match s with
  | EmptyString => [EmptyString]
  | String c s' =>
      if Ascii.eqb c sep then EmptyString :: split_on sep s'
      else match split_on sep s' with
           | [] => [String c EmptyString]
           | p :: ps => String c p :: ps
           end
  end.

(** [parts.join(sep)]. *)
Definition join (sep : string) (parts : list string) : string :=
  String.concat sep parts.

Fixpoint has_char (c : ascii) (s : string) : bool :=
  match s with
  | EmptyString => false
  | String d s' => Ascii.eqb d c || has_char c s'
  end.

Fixpoint all_chars (p : ascii -> bool) (s : string) : bool :=
  match s with
  | EmptyString => true
  | String c s' => p c && all_chars p s'
  end.

(** The whitespace [String.prototype.trim] removes, among code units below
    256: TAB, LF, VT, FF, CR, SPACE and NO-BREAK SPACE. *)
Definition is_space (c : ascii) : bool :=
  let n := nat_of_ascii c in
  ((9 <=? n) && (n <=? 13) || (n =? 32) || (n =? 160))%nat.

Fixpoint trim_start (s : string) : string :=
  match s with
  | EmptyString => EmptyString
  | String c s' => if is_space c then trim_start s' else s
  end.

(** Trailing whitespace only: a character is dropped when all that follows
    it, itself included, is whitespace. *)
Fixpoint trim_end (s : string) : string :=
  match s with
  | EmptyString => EmptyString
  | String c s' =>
      match trim_end s' with
      | EmptyString => if is_space c then EmptyString else String c EmptyString
      | t => String c t
      end
  end.

(** [s.trim()]. *)
Definition trim (s : string) : string := trim_end (trim_start s).

Definition to_upper_char (c : ascii) : ascii :=
  let n := nat_of_ascii c in
  if ((97 <=? n) && (n <=? 122))%nat then ascii_of_nat (n - 32) else c.

Definition to_lower_char (c : ascii) : ascii :=
  let n := nat_of_ascii c in
  if ((65 <=? n) && (n <=? 90))%nat then ascii_of_nat (n + 32) else c.

Fixpoint to_lower (s : string) : string :=
  match s with
  | EmptyString => EmptyString
  | String c s' => String (to_lower_char c) (to_lower s')
  end.

(** [s.charAt(0).toUpperCase() + s.slice(1)]. *)
Definition capitalize (s : string) : string :=
  match s with
  | EmptyString => EmptyString
  | String c s' => String (to_upper_char c) s'
  end.

(** [s.includes(t)]. *)
Fixpoint contains (t s : string) : bool :=
  String.prefix t s ||
  match s with
  | EmptyString => false
  | String _ s' => contains t s'
  end.

End Str.

(** ** Numbers as strings *)

Module Num.

Local Open Scope Z_scope.

Definition digit_char (d : Z) : ascii := ascii_of_nat (48 + Z.to_nat d).

(** Decimal digits of [n], prepended to [acc]. *)
Fixpoint print_digits (fuel : nat) (n : Z) (acc : string) : string :=
  match fuel with
  | O => acc
  | S fuel' =>
      if n <? 10 then String (digit_char n) acc
      else print_digits fuel' (n / 10) (String (digit_char (n mod 10)) acc)
  end.

Definition print (n : Z) : string := print_digits (S (Z.to_nat (Z.log2 n))) n EmptyString.

(** [String(z)] for an integer. *)
Definition string_of_Z (z : Z) : string :=
  if z <? 0 then String "-" (print (- z)) else print z.

(** The value of a digit in the radix. *)
Definition digit_val (radix : Z) (c : ascii) : option Z :=
  let n := Z.of_nat (nat_of_ascii c) in
  let d := if (48 <=? n) && (n <=? 57) then n - 48
           else if (97 <=? n) && (n <=? 102) then n - 87
           else if (65 <=? n) && (n <=? 70) then n - 55
           else radix in
  if d <? radix then Some d else None.

(** Digits up to the first other character. *)
Fixpoint parse_digits (radix v : Z) (s : string) : Z :=
  match s with
  | EmptyString => v
  | String c s' =>
      match digit_val radix c with
      | Some d => parse_digits radix (v * radix + d) s'
      | None => v
      end
  end.

(** At least one digit is required; [None] is NaN. *)
Definition parse_unsigned (radix : Z) (s : string) : option Z :=
  match s with
  | EmptyString => None
  | String c _ => match digit_val radix c with Some _ => Some (parse_digits radix 0 s) | None => None end
  end.

(** The radix a "0x" prefix selects. *)
Definition parse_prefixed (s : string) : option Z :=
  match s with
  | String "0" (String c s') =>
      if (Ascii.eqb c "x" || Ascii.eqb c "X")%bool then parse_unsigned 16 s' else parse_unsigned 10 s
  | _ => parse_unsigned 10 s
  end.

(** [Number.parseInt(s)], [None] for NaN. *)
Definition parseInt (s : string) : option Z :=
  match Str.trim_start s with
  | String "-" s' => option_map Z.opp (parse_prefixed s')
  | String "+" s' => parse_prefixed s'
  | s' => parse_prefixed s'
  end.

End Num.

(** ** Dates *)

Module Dates.

Local Open Scope Z_scope.

(** [padStart(width, "0")] of a number that is not negative. *)
Definition pad (width : nat) (n : Z) : string :=
  let s := Num.print n in
  List.fold_right String s (List.repeat "0"%char (width - String.length s)).

(** Year, month and day of a number of days since 1970-01-01, in the proleptic
    Gregorian calendar; a year is counted from March inside an era of 400 years. *)
Definition civil (days : Z) : Z * Z * Z :=
  let z := days + 719468 in
  let era := z / 146097 in
  let doe := z mod 146097 in
  let yoe := (doe - doe / 1460 + doe / 36524 - doe / 146096) / 365 in
  let doy := doe - (365 * yoe + yoe / 4 - yoe / 100) in
  let mp := (5 * doy + 2) / 153 in
  let d := doy - (153 * mp + 2) / 5 + 1 in
  let m := if mp <? 10 then mp + 3 else mp - 9 in
  let y := yoe + era * 400 + (if m <=? 2 then 1 else 0) in
  (y, m, d).

Definition print_year (y : Z) : string :=
  if (0 <=? y) && (y <=? 9999) then pad 4 y
  else if y <? 0 then String "-" (pad 6 (- y)) else String "+" (pad 6 y).

(** [new Date(ms).toISOString()]; [None] is a RangeError. *)
Definition toISOString (ms : Z) : option string :=
  if Z.abs ms <=? 8640000000000000 then
    let '(y, m, d) := civil (ms / 86400000) in
    let t := ms mod 86400000 in
    Some (print_year y +:+ "-" +:+ pad 2 m +:+ "-" +:+ pad 2 d +:+ "T" +:+ pad 2 (t / 3600000) +:+ ":"
          +:+ pad 2 (t / 60000 mod 60) +:+ ":" +:+ pad 2 (t / 1000 mod 60) +:+ "." +:+ pad 3 (t mod 1000) +:+ "Z")
  else None.

Example toISOString_leap : toISOString 1709210096789 = Some "2024-02-29T12:34:56.789Z"%string.
Proof. reflexivity. Qed.

Example toISOString_before_epoch : toISOString (-1) = Some "1969-12-31T23:59:59.999Z"%string.
Proof. reflexivity. Qed.

End Dates.

(** ** The development's tactics *)

(** Case analysis on the scrutinee of the outermost [match] or [if] of the goal. *)
Ltac case_goal :=
  match goal with
  | |- context [match ?x with _ => _ end] =>
      lazymatch x with
      | context [match _ with _ => _ end] => fail
      | _ => let E := fresh "E" in destruct x eqn:E
      end
  end.

(** The same in a hypothesis. *)
Ltac case_hyp H :=
  match type of H with
  | context [match ?x with _ => _ end] =>
      lazymatch x with
      | context [match _ with _ => _ end] => fail
      | _ => let E := fresh "E" in destruct x eqn:E
      end
  end.

(** Boolean connectives in hypotheses become propositions. *)
Ltac bool_hyps :=
  repeat match goal with
  | H : (_ && _)%bool = true |- _ => apply andb_prop in H; destruct H
  | H : (_ || _)%bool = false |- _ => apply orb_false_elim in H; destruct H
  | H : negb _ = true |- _ => apply negb_true_iff in H
  | H : negb _ = false |- _ => apply negb_false_iff in H
  | H : String.eqb _ _ = true |- _ => apply String.eqb_eq in H
  | H : String.eqb _ _ = false |- _ => apply String.eqb_neq in H
  | H : Z.eqb _ _ = true |- _ => apply Z.eqb_eq in H
  | H : Z.eqb _ _ = false |- _ => apply Z.eqb_neq in H
  end.

(** Case analysis on the integer comparisons of the goal; the cases arithmetic
    refutes are closed. *)
Ltac zcases :=
  repeat match goal with
  | |- context [Z.eqb ?a ?b] => destruct (Z.eqb_spec a b); try lia
  | |- context [Z.ltb ?a ?b] => destruct (Z.ltb_spec a b); try lia
  | |- context [Z.leb ?a ?b] => destruct (Z.leb_spec a b); try lia
  end.

(** ** Hint databases *)

Create HintDb unkey discriminated.

(** ** Generic lemmas *)

Module StrFacts.

Import Str.
Local Open Scope string_scope.

Lemma split_on_ne sep s : split_on sep s <> [].
Proof.
  destruct s as [|c s]; simpl; [done|].
  destruct (Ascii.eqb c sep); [done|]. by destruct (split_on sep s).
Qed.

(** [s.split(sep).join(sep) === s]. *)
Lemma join_split sep s : join (String sep EmptyString) (split_on sep s) = s.
Proof.
  unfold join. induction s as [|c s IH]; simpl; [done|].
  destruct (split_on sep s) as [|p ps] eqn:Es; [by destruct (split_on_ne sep s)|].
  destruct (Ascii.eqb_spec c sep) as [->|_].
  - change (String.concat (String sep "") ("" :: p :: ps))
      with (String sep (String.concat (String sep "") (p :: ps))).
    by rewrite IH.
  - destruct ps; simpl in *; by rewrite <- IH.
Qed.

(** A part without the separator is split off whole. *)
Lemma split_on_app sep p s :
  has_char sep p = false ->
  split_on sep (p ++ String sep s) = p :: split_on sep s.
Proof.
  induction p as [|c p IH]; simpl; intros H.
  - by rewrite Ascii.eqb_refl.
  - apply orb_false_elim in H as [Hc Hp]. by rewrite Hc, (IH Hp).
Qed.

Lemma split_on_none sep p : has_char sep p = false -> split_on sep p = [p].
Proof.
  induction p as [|c p IH]; simpl; intros H; [done|].
  apply orb_false_elim in H as [Hc Hp]. by rewrite Hc, (IH Hp).
Qed.

(** Joining parts that hold no separator and splitting gives the parts back. *)
Lemma split_join sep l :
  l <> [] -> List.Forall (fun p => has_char sep p = false) l ->
  split_on sep (join (String sep EmptyString) l) = l.
Proof.
  intros Hne Hl. induction Hl as [|p l Hp Hl IH]; [done|]. destruct l as [|q l]; [by apply split_on_none|].
  change (join (String sep EmptyString) (p :: q :: l))
    with (p ++ String sep (join (String sep EmptyString) (q :: l)))%string.
  rewrite split_on_app by done. by rewrite IH.
Qed.

(** No part of a split contains the separator. *)
Lemma split_on_parts sep s :
  List.Forall (fun p => has_char sep p = false) (split_on sep s).
Proof.
  induction s as [|c s IH]; simpl; [by repeat constructor|].
  destruct (Ascii.eqb c sep) eqn:E; [by constructor|].
  destruct (split_on sep s) as [|p ps]; inv IH; constructor; simpl; by rewrite ?E.
Qed.

Lemma all_chars_no p c s :
  p c = false -> all_chars p s = true -> has_char c s = false.
Proof.
  intros Hc. induction s as [|d s IH]; simpl; [done|].
  intros [Hd Hs]%andb_prop. rewrite (IH Hs), orb_false_r.
  destruct (Ascii.eqb_spec d c) as [->|]; congruence.
Qed.

(** [String.append] is not reduced by [simpl]. *)
Lemma string_app_cons c (a b : string) : String c a +:+ b = String c (a +:+ b).
Proof. done. Qed.

Lemma string_app_assoc (a b c : string) : (a +:+ b) +:+ c = a +:+ (b +:+ c).
Proof. induction a as [|x a IH]; [done|]. by rewrite !string_app_cons, IH. Qed.

Lemma length_app_string (a b : string) : String.length (a +:+ b) = (String.length a + String.length b)%nat.
Proof. induction a as [|c a IH]; [done|]. rewrite string_app_cons. simpl. by rewrite IH. Qed.

Lemma string_app_nil (a : string) : a +:+ EmptyString = a.
Proof. induction a as [|x a IH]; [done|]. by rewrite string_app_cons, IH. Qed.

Lemma has_char_app c a b : Str.has_char c (a +:+ b) = Str.has_char c a || Str.has_char c b.
Proof. induction a as [|e a IH]; [done|]. cbn. by rewrite <- orb_assoc, <- IH. Qed.

Lemma all_chars_app p a b : all_chars p (a +:+ b) = all_chars p a && all_chars p b.
Proof. induction a as [|c a IH]; [done|]. rewrite string_app_cons. cbn. by rewrite IH, andb_assoc. Qed.

Lemma includes_In l s : Js.includes l s = true <-> In s l.
Proof.
  unfold Js.includes. rewrite existsb_exists. split.
  - intros (x & Hx & ->%String.eqb_eq). done.
  - intros H. exists s. by rewrite String.eqb_refl.
Qed.

End StrFacts.

#[export] Hint Resolve StrFacts.split_on_ne : unkey.

Module NumFacts.

Import Num.
Local Open Scope Z_scope.

Lemma digit_val_char d : 0 <= d < 10 -> digit_val 10 (digit_char d) = Some d.
Proof.
  intros Hd. unfold digit_char. assert (Hn : (Z.to_nat d < 10)%nat) by lia.
  replace d with (Z.of_nat (Z.to_nat d)) at 2 by lia. revert Hn. generalize (Z.to_nat d). clear.
  intros n Hn. do 10 (destruct n as [|n]; [reflexivity|]). lia.
Qed.

(** Printing and reading digits are inverse, whatever follows. *)
Lemma parse_print_digits fuel n acc :
  0 <= n < 2 ^ Z.of_nat fuel -> (0 < fuel)%nat ->
  parse_digits 10 0 (print_digits fuel n acc) = parse_digits 10 n acc.
Proof.
  revert n acc. induction fuel as [|fuel IH]; intros n acc Hn Hf; [lia|]. cbn [print_digits].
  destruct (Z.ltb_spec n 10); cbn [parse_digits].
  - by rewrite digit_val_char by lia.
  - assert (Hf' : (0 < fuel)%nat) by (destruct fuel; [simpl in Hn; lia|lia]).
    rewrite Nat2Z.inj_succ, Z.pow_succ_r in Hn by lia.
    rewrite IH by (try done; Z.to_euclidean_division_equations; lia). cbn [parse_digits].
    rewrite digit_val_char by (Z.to_euclidean_division_equations; lia). f_equal.
    Z.to_euclidean_division_equations; lia.
Qed.

Lemma print_fuel n : 0 <= n -> 0 <= n < 2 ^ Z.of_nat (S (Z.to_nat (Z.log2 n))).
Proof.
  intros Hn. rewrite Nat2Z.inj_succ, Z2Nat.id by apply Z.log2_nonneg.
  destruct (Z.eq_dec n 0) as [->|]; [simpl; lia|]. split; [done|]. apply Z.log2_spec. lia.
Qed.

Definition is_digit (c : ascii) : bool :=
  let n := nat_of_ascii c in ((48 <=? n) && (n <=? 57))%nat.

Lemma is_digit_char d : 0 <= d < 10 -> is_digit (digit_char d) = true.
Proof.
  intros Hd. unfold digit_char. assert (Hn : (Z.to_nat d < 10)%nat) by lia.
  revert Hn. generalize (Z.to_nat d). clear.
  intros n Hn. do 10 (destruct n as [|n]; [reflexivity|]). lia.
Qed.

(** What a digit is not. *)
Lemma is_digit_cases c : is_digit c = true ->
  Str.is_space c = false /\ c <> "-"%char /\ c <> "+"%char /\ c <> "x"%char /\ c <> "X"%char /\
  is_Some (digit_val 10 c).
Proof. destruct c as [[] [] [] [] [] [] [] []]; intros H; vm_compute in H; try done; by repeat split; eauto. Qed.

(** Every character printed is a digit, and there is at least one. *)
Lemma print_digits_all fuel n acc :
  0 <= n -> Str.all_chars is_digit acc = true -> Str.all_chars is_digit (print_digits fuel n acc) = true.
Proof.
  revert n acc. induction fuel as [|fuel IH]; intros n acc Hn Ha; cbn [print_digits]; [done|].
  destruct (Z.ltb_spec n 10); cbn [Str.all_chars]; [by rewrite is_digit_char by lia|].
  apply IH; [Z.to_euclidean_division_equations; lia|]. cbn [Str.all_chars].
  by rewrite is_digit_char by (Z.to_euclidean_division_equations; lia).
Qed.

Lemma print_digits_length fuel n acc :
  (String.length acc <= String.length (print_digits fuel n acc))%nat.
Proof.
  revert n acc. induction fuel as [|fuel IH]; intros n acc; cbn [print_digits]; [lia|].
  destruct (n <? 10); [simpl; lia|]. etransitivity; [|apply IH]. simpl. lia.
Qed.

Lemma print_spec n : 0 <= n ->
  Str.all_chars is_digit (print n) = true /\ print n <> EmptyString /\ parse_digits 10 0 (print n) = n.
Proof.
  intros Hn. unfold print. repeat split.
  - by apply print_digits_all.
  - cbn [print_digits]. destruct (n <? 10); [done|]. intros E.
    pose proof (print_digits_length (Z.to_nat (Z.log2 n)) (n / 10) (String (digit_char (n mod 10)) EmptyString)) as H.
    rewrite E in H. simpl in H. lia.
  - exact (parse_print_digits _ n EmptyString (print_fuel n Hn) (Nat.lt_0_succ _)).
Qed.

Lemma parse_prefixed_digits s :
  Str.all_chars is_digit s = true -> s <> EmptyString -> parse_prefixed s = Some (parse_digits 10 0 s).
Proof.
  intros Ha Hs. assert (H10 : parse_unsigned 10 s = Some (parse_digits 10 0 s)).
  { destruct s as [|c s]; [done|]. cbn [Str.all_chars] in Ha. apply andb_prop in Ha as [Hc _].
    destruct (is_digit_cases c Hc) as (_ & _ & _ & _ & _ & [d Hd]). unfold parse_unsigned. by rewrite Hd. }
  destruct s as [|c [|c' s]]; [done|by destruct c as [[] [] [] [] [] [] [] []]|].
  cbn [Str.all_chars] in Ha. bool_hyps. destruct (is_digit_cases c' ltac:(done)) as (_ & _ & _ & Hx & HX & _).
  assert (E : (Ascii.eqb c' "x" || Ascii.eqb c' "X")%bool = false)
    by (apply orb_false_iff; split; by apply Ascii.eqb_neq).
  unfold parse_prefixed. rewrite E. by destruct c as [[] [] [] [] [] [] [] []].
Qed.

(** [Number.parseInt(String(z)) === z]. *)
Lemma parseInt_string_of_Z z : parseInt (string_of_Z z) = Some z.
Proof.
  unfold string_of_Z, parseInt. destruct (Z.ltb_spec z 0).
  - simpl. destruct (print_spec (- z) ltac:(lia)) as (Ha & Hne & Hv).
    rewrite parse_prefixed_digits, Hv by done. simpl. f_equal. lia.
  - destruct (print_spec z ltac:(lia)) as (Ha & Hne & Hv).
    assert (E : Str.trim_start (print z) = print z /\
      match print z with String "-" _ | String "+" _ => False | _ => True end).
    { destruct (print z) as [|c s]; [done|]. cbn [Str.all_chars Str.trim_start] in *. apply andb_prop in Ha as [Hc _].
      destruct (is_digit_cases c Hc) as (-> & ? & ? & _). split; [done|].
      by destruct c as [[] [] [] [] [] [] [] []]. }
    destruct E as [-> E]. transitivity (parse_prefixed (print z)); [|by rewrite parse_prefixed_digits, Hv].
    destruct (print z) as [|c s]; [done|]. by destruct c as [[] [] [] [] [] [] [] []].
Qed.

End NumFacts.
