(* ===== verification/Tables.v ===== *)
(** * The tables of keys, permissions and ratelimits

    web/internal/db/src/schema: rbac.ts, keys.ts, keyAuth.ts, apis.ts,
    ratelimit.ts, identity.ts, projects.ts, shared_secrets.ts, apps.ts,
    github_app.ts, environments.ts and app_runtime_settings.ts. A table is the list
    of its rows in the order of the primary key; [clash] states its unique indexes.
    Columns that only record when a row was written (created_at, updated_at,
    last_used_at) are left out.

    A statement is what the query builder sends: [Insert], [Update] and [Delete]
    with the predicate of their [where], and [Upsert] for
    [insert().onDuplicateKeyUpdate()]. A statement that would break a unique index
    is refused. Columns declared without a case-sensitive collation are compared
    under the collation of the server, a parameter. *)

From Stdlib Require Import ZArith Bool String.
From stdpp Require Import base list strings.
From S2P Require Import Prelude.

Local Open Scope Z_scope.

(** ** Rows *)

Record Project := {
  project_id : string;
  project_workspaceId : string;
  project_name : string;
  project_slug : string;
  project_deleteProtection : option bool;
}.

Record Permission := {
  perm_id : string;
  perm_workspaceId : string;
  perm_projectId : string;
  perm_name : string;
  perm_slug : string;
  perm_description : option string;
}.

Record Role := {
  role_id : string;
  role_workspaceId : string;
  role_projectId : string;
  role_name : string;
  role_description : option string;
}.

Record RolePermission := { rp_roleId : string; rp_permissionId : string; rp_workspaceId : string }.
Record KeyRole := { kr_keyId : string; kr_roleId : string; kr_workspaceId : string }.
Record KeyPermission := { kp_keyId : string; kp_permissionId : string; kp_workspaceId : string }.

Record Key := {
  key_id : string;
  key_keyAuthId : string;
  key_hash : string;
  key_start : string;
  key_workspaceId : string;
  key_forWorkspaceId : option string;
  key_name : option string;
  key_identityId : option string;
  key_meta : option string;
  key_expires : option Z;
  key_deletedAtM : option Z;
  key_refillDay : option Z;
  key_refillAmount : option Z;
  key_lastRefillAt : option Z;
  key_enabled : bool;
  key_remaining : option Z;
  key_environment : option string;
}.

Record KeyAuth := {
  ka_id : string;
  ka_workspaceId : string;
  ka_projectId : string;
  ka_deletedAtM : option Z;
  ka_storeEncryptedKeys : bool;
  ka_defaultPrefix : option string;
  ka_defaultBytes : option Z;
}.

Record Api := {
  api_id : string;
  api_name : string;
  api_workspaceId : string;
  api_projectId : string;
  api_authType : option string;
  api_keyAuthId : option string;
  api_deletedAtM : option Z;
  api_deleteProtection : option bool;
}.

Record EncryptedKey := {
  ek_workspaceId : string;
  ek_keyId : string;
  ek_encrypted : string;
  ek_encryptionKeyId : string;
}.

Record Ratelimit := {
  rl_id : string;
  rl_name : string;
  rl_workspaceId : string;
  rl_keyId : option string;
  rl_identityId : option string;
  rl_limit : Z;
  rl_duration : Z;
  rl_autoApply : bool;
}.

Record Identity := {
  identity_id : string;
  identity_externalId : string;
  identity_workspaceId : string;
  identity_deleted : bool;
}.

Record Namespace := {
  ns_id : string;
  ns_workspaceId : string;
  ns_projectId : string;
  ns_name : string;
  ns_deletedAtM : option Z;
}.

Record Override := {
  ov_id : string;
  ov_workspaceId : string;
  ov_namespaceId : string;
  ov_identifier : string;
  ov_limit : Z;
  ov_duration : Z;
  ov_deletedAtM : option Z;
}.

Record SharedSecret := {
  ss_id : string;
  ss_workspaceId : string;
  ss_expiresAt : Z;
  ss_encrypted : string;
  ss_encryptionKeyId : string;
}.

Record App := {
  app_id : string;
  app_workspaceId : string;
  app_projectId : string;
  app_name : string;
  app_slug : string;
  app_defaultBranch : string;
}.

Record Environment := {
  en_id : string;
  en_workspaceId : string;
  en_projectId : string;
  en_appId : string;
  en_slug : string;
}.

(** The columns of app_runtime_settings that policies are about; the blob is text. *)
Record RuntimeSettings := {
  rs_workspaceId : string;
  rs_appId : string;
  rs_environmentId : string;
  rs_sentinelConfig : string;
}.

Record EnvironmentVariable := {
  ev_id : string;
  ev_workspaceId : string;
  ev_appId : string;
  ev_environmentId : string;
  ev_key : string;
  (* ciphertext *)
  ev_value : string;
  (* recoverable or writeonly *)
  ev_type : string;
  ev_description : option string;
}.

Record CustomDomain := {
  cd_id : string;
  cd_workspaceId : string;
  cd_projectId : string;
  cd_appId : string;
  cd_environmentId : string;
  cd_domain : string;
  cd_verificationStatus : string;
  cd_verificationToken : string;
  cd_ownershipVerified : bool;
  cd_cnameVerified : bool;
  cd_targetCname : string;
  cd_checkAttempts : Z;
  cd_lastCheckedAt : option Z;
  cd_verificationError : option string;
  cd_domainConnectProvider : option string;
  cd_domainConnectUrl : option string;
  cd_createdAt : Z;
  cd_updatedAt : option Z;
}.

(** The columns of deployments that the procedures on one deployment read. *)
Record Deployment := {
  dep_id : string;
  dep_k8sName : string;
  dep_workspaceId : string;
  dep_projectId : string;
  dep_status : string;
}.

Record GithubInstallation := { gi_workspaceId : string; gi_installationId : Z }.

Record GithubRepoConnection := {
  gc_workspaceId : string;
  gc_projectId : string;
  gc_appId : string;
  gc_installationId : Z;
  gc_repositoryId : Z;
  gc_repositoryFullName : string;
}.

(** ** Tables *)

Inductive table :=
| schema_projects | schema_permissions | schema_roles | schema_rolesPermissions | schema_keysRoles
| schema_keysPermissions | schema_keys | schema_keyAuth | schema_apis | schema_encryptedKeys | schema_ratelimits
| schema_identities | schema_ratelimitNamespaces | schema_ratelimitOverrides | schema_sharedSecrets
| schema_apps | schema_githubAppInstallations | schema_githubRepoConnections | schema_environments
| schema_appRuntimeSettings | schema_appEnvironmentVariables | schema_customDomains | schema_deployments.

#[export] Instance table_eq_dec : EqDecision table.
Proof. solve_decision. Defined.

Definition row (t : table) : Type :=
  match t with
  | schema_projects => Project
  | schema_permissions => Permission
  | schema_roles => Role
  | schema_rolesPermissions => RolePermission
  | schema_keysRoles => KeyRole
  | schema_keysPermissions => KeyPermission
  | schema_keys => Key
  | schema_keyAuth => KeyAuth
  | schema_apis => Api
  | schema_encryptedKeys => EncryptedKey
  | schema_ratelimits => Ratelimit
  | schema_identities => Identity
  | schema_ratelimitNamespaces => Namespace
  | schema_ratelimitOverrides => Override
  | schema_sharedSecrets => SharedSecret
  | schema_apps => App
  | schema_githubAppInstallations => GithubInstallation
  | schema_githubRepoConnections => GithubRepoConnection
  | schema_environments => Environment
  | schema_appRuntimeSettings => RuntimeSettings
  | schema_appEnvironmentVariables => EnvironmentVariable
  | schema_customDomains => CustomDomain
  | schema_deployments => Deployment
  end.

Definition Tables := forall t, list (row t).

Definition put (t : table) (l : list (row t)) (s : Tables) : Tables := fun t' =>
  match decide (t = t') with
  | left e => eq_rect t (fun t => list (row t)) l t' e
  | right _ => s t'
  end.

(** Equality of nullable columns in a unique index: NULL clashes with nothing. *)
Definition same_value (a b : option string) : bool :=
  match a, b with Some x, Some y => String.eqb x y | _, _ => false end.

(** Whether two rows agree on a unique index; [fold] maps a string to its weight
    under the collation of the server. *)
Definition clash (fold : string -> string) (t : table) : row t -> row t -> bool :=
  let ci a b := String.eqb (fold a) (fold b) in
  match t return row t -> row t -> bool with
  | schema_projects => fun a b =>
      String.eqb (project_id a) (project_id b)
      || String.eqb (project_workspaceId a) (project_workspaceId b) && ci (project_slug a) (project_slug b)
  | schema_permissions => fun a b =>
      String.eqb (perm_id a) (perm_id b)
      || String.eqb (perm_workspaceId a) (perm_workspaceId b) && ci (perm_slug a) (perm_slug b)
  | schema_roles => fun a b =>
      String.eqb (role_id a) (role_id b)
      || String.eqb (role_workspaceId a) (role_workspaceId b) && ci (role_name a) (role_name b)
  | schema_rolesPermissions => fun a b =>
      String.eqb (rp_roleId a) (rp_roleId b) && String.eqb (rp_permissionId a) (rp_permissionId b)
  | schema_keysRoles => fun a b =>
      String.eqb (kr_keyId a) (kr_keyId b) && String.eqb (kr_roleId a) (kr_roleId b)
  | schema_keysPermissions => fun a b =>
      String.eqb (kp_keyId a) (kp_keyId b) && String.eqb (kp_permissionId a) (kp_permissionId b)
  | schema_keys => fun a b => String.eqb (key_id a) (key_id b) || String.eqb (key_hash a) (key_hash b)
  | schema_keyAuth => fun a b => String.eqb (ka_id a) (ka_id b)
  | schema_apis => fun a b => String.eqb (api_id a) (api_id b) || same_value (api_keyAuthId a) (api_keyAuthId b)
  | schema_encryptedKeys => fun a b => String.eqb (ek_keyId a) (ek_keyId b)
  | schema_ratelimits => fun a b =>
      String.eqb (rl_id a) (rl_id b)
      || String.eqb (rl_name a) (rl_name b)
         && (same_value (rl_keyId a) (rl_keyId b) || same_value (rl_identityId a) (rl_identityId b))
  | schema_identities => fun a b =>
      String.eqb (identity_id a) (identity_id b)
      || String.eqb (identity_workspaceId a) (identity_workspaceId b)
         && String.eqb (identity_externalId a) (identity_externalId b)
         && Bool.eqb (identity_deleted a) (identity_deleted b)
  | schema_ratelimitNamespaces => fun a b =>
      String.eqb (ns_id a) (ns_id b)
      || String.eqb (ns_workspaceId a) (ns_workspaceId b) && String.eqb (ns_name a) (ns_name b)
  | schema_ratelimitOverrides => fun a b =>
      String.eqb (ov_id a) (ov_id b)
      || String.eqb (ov_namespaceId a) (ov_namespaceId b) && String.eqb (ov_identifier a) (ov_identifier b)
  | schema_sharedSecrets => fun a b => String.eqb (ss_id a) (ss_id b)
  | schema_apps => fun a b =>
      String.eqb (app_id a) (app_id b)
      || String.eqb (app_projectId a) (app_projectId b) && ci (app_slug a) (app_slug b)
  | schema_githubAppInstallations => fun a b =>
      String.eqb (gi_workspaceId a) (gi_workspaceId b) && Z.eqb (gi_installationId a) (gi_installationId b)
  | schema_githubRepoConnections => fun a b => String.eqb (gc_appId a) (gc_appId b)
  | schema_environments => fun a b =>
      String.eqb (en_id a) (en_id b)
      || String.eqb (en_appId a) (en_appId b) && ci (en_slug a) (en_slug b)
  | schema_appRuntimeSettings => fun a b =>
      String.eqb (rs_appId a) (rs_appId b) && String.eqb (rs_environmentId a) (rs_environmentId b)
  | schema_appEnvironmentVariables => fun a b =>
      String.eqb (ev_id a) (ev_id b)
      || String.eqb (ev_appId a) (ev_appId b) && String.eqb (ev_environmentId a) (ev_environmentId b)
         && String.eqb (ev_key a) (ev_key b)
  | schema_customDomains => fun a b =>
      String.eqb (cd_id a) (cd_id b) || ci (cd_targetCname a) (cd_targetCname b)
      || String.eqb (cd_workspaceId a) (cd_workspaceId b) && ci (cd_domain a) (cd_domain b)
  | schema_deployments => fun a b => String.eqb (dep_id a) (dep_id b) || ci (dep_k8sName a) (dep_k8sName b)
  end.

(** ** Statements *)

Inductive Sql :=
| Insert (t : table) (rows : list (row t))
| Update (t : table) (where_ : row t -> bool) (set : row t -> row t)
| Delete (t : table) (where_ : row t -> bool)
| Upsert (t : table) (r : row t) (set : row t -> row t).

(** No two rows of the list clash. *)
Fixpoint unique {A} (clash : A -> A -> bool) (l : list A) : bool :=
  match l with
  | [] => true
  | x :: l' => negb (existsb (clash x) l') && unique clash l'
  end.

(** The rows after the statement, whether or not an index refuses them. *)
Definition affect (fold : string -> string) (s : Sql) : { t & list (row t) -> list (row t) } :=
  match s with
  | Insert t rows => existT t (fun l => l ++ rows)
  | Update t where_ set => existT t (List.map (fun r => if where_ r then set r else r))
  | Delete t where_ => existT t (List.filter (fun r => negb (where_ r)))
  | Upsert t r set => existT t (fun l =>
      if existsb (clash fold t r) l then List.map (fun x => if clash fold t r x then set x else x) l else l ++ [r])
  end.

(** The tables after the statement; [None] is a duplicate-key error. *)
Definition run_sql (fold : string -> string) (s : Sql) (d : Tables) : option Tables :=
  let '(existT t f) := affect fold s in
  let l := f (d t) in
  if unique (clash fold t) l then Some (put t l d) else None.

(** ** Facts *)

Lemma put_eq t l d : put t l d t = l.
Proof. by destruct t. Qed.

Lemma put_ne t t' l d : t <> t' -> put t l d t' = d t'.
Proof. intros Ht. unfold put. by destruct (decide (t = t')). Qed.

Section UniqueFacts.

Context {A : Type} (clash : A -> A -> bool).

Lemma unique_app l1 l2 :
  unique clash (l1 ++ l2) = true ->
  unique clash l1 = true /\ unique clash l2 = true
  /\ (forall x y, In x l1 -> In y l2 -> clash x y = false).
Proof.
  induction l1 as [|a l1 IH]; simpl; [by intros ->|]. intros [Ha H]%andb_prop.
  apply IH in H as (H1 & H2 & H3). apply negb_true_iff in Ha. rewrite existsb_app in Ha.
  apply orb_false_iff in Ha as [Ha1 Ha2]. rewrite Ha1, H1. repeat split; try done.
  intros x y [->|Hx] Hy; [|by apply H3]. destruct (clash x y) eqn:E; [|done].
  assert (existsb (clash x) l2 = true) by (apply existsb_exists; by exists y). congruence.
Qed.

Lemma unique_filter (p : A -> bool) l : unique clash l = true -> unique clash (List.filter p l) = true.
Proof.
  induction l as [|a l IH]; simpl; [done|]. intros [Ha H]%andb_prop. destruct (p a); [|by apply IH].
  simpl. rewrite (IH H), andb_true_r. apply negb_true_iff in Ha. apply negb_true_iff.
  destruct (existsb (clash a) (List.filter p l)) eqn:E; [|done].
  apply existsb_exists in E as (x & Hx & E). apply filter_In in Hx as [Hx _].
  assert (existsb (clash a) l = true) by (apply existsb_exists; by exists x). congruence.
Qed.

(** Rows that clash are the same row. *)
Lemma unique_same l x y :
  (forall a b, clash a b = clash b a) -> unique clash l = true -> In x l -> In y l -> clash x y = true -> x = y.
Proof.
  intros Hsym. induction l as [|a l IH]; simpl; [done|]. intros [Ha H]%andb_prop Hx Hy E.
  assert (Hno : forall z, In z l -> clash a z = false).
  { intros z Hz. destruct (clash a z) eqn:Ez; [|done]. apply negb_true_iff in Ha.
    assert (existsb (clash a) l = true) by (apply existsb_exists; by exists z). congruence. }
  destruct Hx as [->|Hx], Hy as [->|Hy]; [done| | |by apply IH].
  - rewrite (Hno _ Hy) in E. done.
  - rewrite Hsym, (Hno _ Hx) in E. done.
Qed.

End UniqueFacts.

Lemma clash_sym fold t a b : clash fold t a b = clash fold t b a.
Proof.
  assert (Hs : forall a b, same_value a b = same_value b a)
    by (intros [?|] [?|]; simpl; try done; apply String.eqb_sym).
  assert (Hb : forall x y, Bool.eqb x y = Bool.eqb y x) by (by intros [] []).
  destruct t; simpl; repeat match goal with
    | |- context [String.eqb ?x ?y] => rewrite (String.eqb_sym x y); generalize (String.eqb y x); intro
    | |- context [Z.eqb ?x ?y] => rewrite (Z.eqb_sym x y); generalize (Z.eqb y x); intro
    | |- context [same_value ?x ?y] => rewrite (Hs x y); generalize (same_value y x); intro
    | |- context [Bool.eqb ?x ?y] => rewrite (Hb x y); generalize (Bool.eqb y x); intro
    end; done.
Qed.

Lemma run_sql_rows fold s d d' :
  run_sql fold s d = Some d' ->
  forall t, d' t = d t \/ exists f, affect fold s = existT t f /\ d' t = f (d t).
Proof.
  unfold run_sql. destruct (affect fold s) as [t0 f]. destruct (unique _ _); [|done]. intros [= <-] t.
  destruct (decide (t0 = t)) as [->|Hne]; [right; exists f; by rewrite put_eq|left; by apply put_ne].
Qed.

(** A delete is never refused. *)
Lemma run_sql_delete fold t w d :
  unique (clash fold t) (d t) = true ->
  run_sql fold (Delete t w) d = Some (put t (List.filter (fun r => negb (w r)) (d t)) d).
Proof. intros Hu. unfold run_sql; simpl. by rewrite unique_filter. Qed.
