(* ===== verification/Rbac.v ===== *)
(** * Permission queries and root-key permissions (web/internal/rbac)

    [Queries] models src/queries.ts (the query type, its zod schema and the
    [and]/[or] builders), [Eval] models src/rbac.ts (the evaluator and the
    message formatter) and [Permissions] models src/permissions.ts (the
    validation of root-key permission strings). *)

From Stdlib Require Import ZArith Lia Bool Ascii String.
From stdpp Require Import base list strings gmap.
From S2P Require Import Prelude.

Local Open Scope string_scope.

Module Queries.

(** A query is a string, or an object whose [and] and [or] properties may be
    present. An array element may be [undefined] ([None]). The type of the
    source excludes an object with neither or both properties, yet [merge]
    builds the object with neither, so both are kept. *)
#[warnings="-register-all"]
Inductive PermissionQuery : Type :=
| PQString (s : string)
| PQObject (q_and q_or : option (list (option PermissionQuery))).

Inductive Rule := RAnd | ROr.

(** Induction that reaches the queries inside the arrays. *)
Section Induction.
Variable P : PermissionQuery -> Prop.
Definition POpt (o : option PermissionQuery) : Prop :=
  match o with Some q => P q | None => True end.
Definition PList (o : option (list (option PermissionQuery))) : Prop :=
  match o with Some qs => List.Forall POpt qs | None => True end.
Hypothesis Hstring : forall s, P (PQString s).
Hypothesis Hobject : forall a o, PList a -> PList o -> P (PQObject a o).

Fixpoint PermissionQuery_nested_ind (q : PermissionQuery) : P q :=
  let fix all (qs : list (option PermissionQuery)) : List.Forall POpt qs :=
    match qs with
    | [] => List.Forall_nil _
    | o :: qs' =>
        @List.Forall_cons _ POpt o qs'
          (match o as o' return POpt o' with
           | Some q' => PermissionQuery_nested_ind q'
           | None => I
           end) (all qs')
    end in
  match q with
  | PQString s => Hstring s
  | PQObject a o =>
      Hobject a o
        (match a as a' return PList a' with Some qs => all qs | None => I end)
        (match o as o' return PList o' with Some qs => all qs | None => I end)
  end.
End Induction.

(** Parse every element of an array; [undefined] never parses. *)
Definition parse_all (f : PermissionQuery -> option PermissionQuery) :
    list (option PermissionQuery) -> option (list (option PermissionQuery)) :=
  fix go l :=
    match l with
    | [] => Some []
    | None :: _ => None
    | Some q :: l' =>
        match f q, go l' with
        | Some q', Some l'' => Some (Some q' :: l'')
        | _, _ => None
        end
    end.

(** [.min(1)]. *)
Definition non_empty {A} (l : list A) : bool :=
  match l with [] => false | _ => true end.

(** [z.array(z.lazy(...)).min(1)] on a property that may be absent. *)
Definition array_schema (f : PermissionQuery -> option PermissionQuery)
    (o : option (list (option PermissionQuery))) : option (list (option PermissionQuery)) :=
  match o with
  | Some qs => if non_empty qs then parse_all f qs else None
  | None => None
  end.

(** [permissionQuerySchema.safeParse(q)]: the union tries the string, then
    the [and] object, then the [or] object; an object schema keeps only its
    own property. *)
Fixpoint permissionQuerySchema (q : PermissionQuery) : option PermissionQuery :=
  match q with
  | PQString s => Some (PQString s)
  | PQObject a o =>
      match array_schema permissionQuerySchema a with
      | Some qs => Some (PQObject (Some qs) None)
      | None =>
          match array_schema permissionQuerySchema o with
          | Some qs => Some (PQObject None (Some qs))
          | None => None
          end
      end
  end.

(** [Boolean(q)] for an array element: [undefined] and [""] are falsy. *)
Definition truthy_query (o : option PermissionQuery) : bool :=
  match o with
  | None => false
  | Some (PQString s) => Js.truthy_string s
  | Some (PQObject _ _) => true
  end.

(** One step of the reduction in [merge]; [None] is the thrown
    "Cannot merge into a string". *)
Definition merge_step (rule : Rule) (acc : option PermissionQuery)
    (arg : option PermissionQuery) : option PermissionQuery :=
  match acc with
  | None | Some (PQString _) => None
  | Some (PQObject a o) =>
      match rule with
      | RAnd => Some (PQObject (Some (Js.coalesce a [] ++ [arg])%list) o)
      | ROr => Some (PQObject a (Some (Js.coalesce o [] ++ [arg])%list))
      end
  end.

Definition merge (rule : Rule) (args : list (option PermissionQuery)) : option PermissionQuery :=
  fold_left (merge_step rule) (List.filter truthy_query args) (Some (PQObject None None)).

Definition or_ (args : list (option PermissionQuery)) : option PermissionQuery := merge ROr args.
Definition and_ (args : list (option PermissionQuery)) : option PermissionQuery := merge RAnd args.

End Queries.

Module Eval.

Import Queries.

(** [{ valid: true }] or [{ valid: false, message }]. *)
Inductive Verdict := Valid | Invalid (message : string).

(** A [Result], or the TypeError that reading a property of [undefined]
    throws. *)
Inductive EvalResult :=
| EOk (v : Verdict)
| EErr (message : string)
| EThrow.

Definition isPermissionQuery (o : option PermissionQuery) : bool :=
  match o with Some _ => true | None => false end.

(** The elements that pass [filter(isPermissionQuery)], mapped by [f]. *)
Definition map_defined {B} (f : PermissionQuery -> B) (qs : list (option PermissionQuery)) : list B :=
  List.flat_map (fun o => match o with Some q => [f q] | None => [] end) qs.

Fixpoint formatPermissionQuery (query : PermissionQuery) : string :=
  match query with
  | PQString s => s
  | PQObject (Some qs) _ => Str.join " and " (map_defined formatPermissionQuery qs)
  | PQObject None (Some qs) => Str.join " or " (map_defined formatPermissionQuery qs)
  | PQObject None None => "invalid permission query"
  end.

(** The [for] loop over the results of the [and] branch. *)
Fixpoint first_failure (results : list EvalResult) : EvalResult :=
  match results with
  | [] => EOk Valid
  | EOk Valid :: rs => first_failure rs
  | r :: _ => r
  end.

Definition is_throw (r : EvalResult) : bool :=
  match r with EThrow => true | _ => false end.

(** [results] is computed in full by [map] before the loop runs, so an
    element that throws does so whatever the others evaluate to. *)
Definition eval_and (results : list EvalResult) : EvalResult :=
  if existsb is_throw results then EThrow else first_failure results.

(** The elements that pass [filter(Boolean)], mapped by [f]. *)
Definition map_truthy {B} (f : PermissionQuery -> B) (qs : list (option PermissionQuery)) : list B :=
  List.flat_map
    (fun o => match o with
              | Some q => if truthy_query (Some q) then [f q] else []
              | None => []
              end) qs.

(** The [for] loop of the [or] branch: evaluates one element at a time and
    stops at the first error or the first valid one. *)
Definition eval_or (eval : PermissionQuery -> EvalResult) (missing : string) :
    list (option PermissionQuery) -> EvalResult :=
  fix go qs :=
    match qs with
    | [] => EOk (Invalid missing)
    | None :: _ => EThrow
    | Some q :: qs' =>
        match eval q with
        | EOk (Invalid _) => go qs'
        | r => r
        end
    end.

Fixpoint evaluateQueryV1 (query : PermissionQuery) (permissions : list string) : EvalResult :=
  match query with
  | PQString s =>
      if Js.includes permissions s then EOk Valid
      else EOk (Invalid ("Missing permission: '" +:+ s +:+ "'"))
  | PQObject (Some qs) _ =>
      eval_and (map_truthy (fun q => evaluateQueryV1 q permissions) qs)
  | PQObject None (Some qs) =>
      eval_or (fun q => evaluateQueryV1 q permissions)
        ("Missing one of these permissions: " +:+
           Str.join " or " (map_defined formatPermissionQuery qs)) qs
  | PQObject None None => EErr "reached end of evaluate and no match"
  end.

Definition evaluatePermissions (q : PermissionQuery) (permissions : list string) : EvalResult :=
  evaluateQueryV1 q permissions.

(** [validateQuery]: the parsed query, or the schema error. *)
Definition validateQuery (q : PermissionQuery) : option PermissionQuery :=
  permissionQuerySchema q.

End Eval.

Module Permissions.

Definition is_alnum (c : ascii) : bool :=
  let n := nat_of_ascii c in
  ((48 <=? n) && (n <=? 57) || (65 <=? n) && (n <=? 90) || (97 <=? n) && (n <=? 122))%nat.

(** The rest of [s] after the prefix [p]. *)
Fixpoint strip_prefix (p s : string) : option string :=
  match p, s with
  | EmptyString, _ => Some s
  | String c p', String d s' => if Ascii.eqb c d then strip_prefix p' s' else None
  | String _ _, EmptyString => None
  end.

(** [buildIdSchema(prefix)]: "*", or the prefix, an underscore and 8 to 32
    alphanumeric characters. *)
Definition buildIdSchema (prefix s : string) : bool :=
  String.eqb s "*" ||
  match strip_prefix (prefix +:+ "_") s with
  | Some r =>
      Str.all_chars is_alnum r && (8 <=? String.length r)%nat && (String.length r <=? 32)%nat
  | None => false
  end.

Inductive IdSchema := PrefixedId (prefix : string) | AnyString.

Definition idSchema_ok (i : IdSchema) (s : string) : bool :=
  match i with PrefixedId p => buildIdSchema p s | AnyString => true end.

Definition apiActions : list string :=
  ["read_api"; "create_api"; "delete_api"; "update_api"; "create_key"; "update_key";
   "delete_key"; "encrypt_key"; "decrypt_key"; "read_key"; "verify_key"; "read_analytics"].
Definition ratelimitActions : list string :=
  ["limit"; "read_analytics"; "create_namespace"; "read_namespace"; "update_namespace";
   "delete_namespace"; "set_override"; "read_override"; "delete_override"].
Definition rbacActions : list string :=
  ["create_permission"; "update_permission"; "delete_permission"; "read_permission";
   "create_role"; "update_role"; "delete_role"; "read_role"; "add_permission_to_key";
   "remove_permission_from_key"; "add_role_to_key"; "remove_role_from_key";
   "add_permission_to_role"; "remove_permission_from_role"].
Definition identityActions : list string :=
  ["create_identity"; "read_identity"; "update_identity"; "delete_identity"].
Definition projectActions : list string :=
  ["create_project"; "read_project"; "update_project"; "delete_project"; "create_app";
   "create_deployment"; "read_deployment"; "generate_upload_url"; "read_gateway_requests";
   "read_runtime_logs"].
Definition appActions : list string :=
  ["read_app"; "update_app"; "delete_app"; "connect_repository"].
Definition workspaceActions : list string := ["install_github"].
Definition portalActions : list string :=
  ["create_portal"; "read_portal"; "update_portal"; "delete_portal"; "create_portal_session"].
Definition environmentActions : list string :=
  ["read_environment"; "update_environment"; "set_environment_variables";
   "remove_environment_variables"; "read_environment_variables"; "create_deployment";
   "read_deployment"; "stop_deployment"; "start_deployment"; "promote_deployment";
   "rollback_deployment"; "set_policies"; "update_policy"; "read_policies"; "create_domain";
   "read_domain"; "delete_domain"; "verify_domain"].

Record ResourceConfig := { idSchema : IdSchema; actionsSchema : list string }.

(** The own properties of the [scopedResources] object. *)
Definition scopedResources : list (string * ResourceConfig) :=
  [("api", {| idSchema := PrefixedId "api"; actionsSchema := apiActions |});
   ("ratelimit", {| idSchema := PrefixedId "rlns"; actionsSchema := ratelimitActions |});
   ("rbac", {| idSchema := PrefixedId "rbac"; actionsSchema := rbacActions |});
   ("identity", {| idSchema := AnyString; actionsSchema := identityActions |});
   ("project", {| idSchema := PrefixedId "proj"; actionsSchema := projectActions |});
   ("app", {| idSchema := PrefixedId "app"; actionsSchema := appActions |});
   ("environment", {| idSchema := PrefixedId "env"; actionsSchema := environmentActions |});
   ("workspace", {| idSchema := PrefixedId "ws"; actionsSchema := workspaceActions |});
   ("portal", {| idSchema := PrefixedId "pc"; actionsSchema := portalActions |})].

Fixpoint assoc (k : string) (l : list (string * ResourceConfig)) : option ResourceConfig :=
  match l with
  | [] => None
  | (k', v) :: l' => if String.eqb k k' then Some v else assoc k l'
  end.

(** The properties every object literal inherits from [Object.prototype]:
    an index expression reads those too, and each is truthy. *)
Definition objectPrototypeKeys : list string :=
  ["constructor"; "__defineGetter__"; "__defineSetter__"; "hasOwnProperty";
   "__lookupGetter__"; "__lookupSetter__"; "isPrototypeOf"; "propertyIsEnumerable";
   "toString"; "valueOf"; "__proto__"; "toLocaleString"].

(** [scopedResources[resource]]. *)
Inductive Lookup := Own (c : ResourceConfig) | Inherited | Undefined.

Definition lookupResource (resource : string) : Lookup :=
  match assoc resource scopedResources with
  | Some c => Own c
  | None => if Js.includes objectPrototypeKeys resource then Inherited else Undefined
  end.

(** The value given to the validation: a string or anything else. *)
Inductive Input := IString (s : string) | INotString.

(** The refinement accepts, rejects or throws. *)
Inductive Check := Accept | Reject | Raise.

Definition check_of (b : bool) : Check := if b then Accept else Reject.

Definition unkeyPermissionValidation (input : Input) : Check :=
  match input with
  | INotString => Raise
  | IString s =>
      if String.eqb s "*" then Accept
      else match Str.split_on "." s with
           | [resource; id; action] =>
               match lookupResource resource with
               | Own c =>
                   check_of (idSchema_ok (idSchema c) id && Js.includes (actionsSchema c) action)
               | Inherited => Raise
               | Undefined => Reject
               end
           | _ => Reject
           end
  end.

End Permissions.

(** The abstract meaning of a query: a monotone boolean formula over the set
    of granted permissions. *)
Module Spec.

Import Queries Eval.

Fixpoint sat (q : PermissionQuery) (permissions : list string) : bool :=
  match q with
  | PQString s => Js.includes permissions s
  | PQObject (Some qs) _ => forallb (fun o => match o with Some q' => sat q' permissions | None => true end) qs
  | PQObject None (Some qs) => existsb (fun o => match o with Some q' => sat q' permissions | None => false end) qs
  | PQObject None None => false
  end.

(** The same formula with the falsy elements of [and] arrays left out, which
    is how the evaluator reads it. *)
Fixpoint sat_skip (q : PermissionQuery) (permissions : list string) : bool :=
  match q with
  | PQString s => Js.includes permissions s
  | PQObject (Some qs) _ =>
      forallb (fun o => match o with
                        | Some q' => negb (truthy_query (Some q')) || sat_skip q' permissions
                        | None => true
                        end) qs
  | PQObject None (Some qs) => existsb (fun o => match o with Some q' => sat_skip q' permissions | None => false end) qs
  | PQObject None None => false
  end.

(** No element of an [and] array is the empty string, which the evaluator
    skips. *)
Fixpoint no_empty_and (q : PermissionQuery) : bool :=
  match q with
  | PQString _ => true
  | PQObject (Some qs) _ =>
      forallb (fun o => match o with Some q' => truthy_query (Some q') && no_empty_and q' | None => true end) qs
  | PQObject None (Some qs) =>
      forallb (fun o => match o with Some q' => no_empty_and q' | None => true end) qs
  | PQObject None None => true
  end.

(** What [validateQuery] returns: every array has an element and no
    [undefined], and an object has one property. *)
Definition validated (q : PermissionQuery) : Prop := permissionQuerySchema q = Some q.

(** The verdict as a boolean. *)
Definition verdict_of (b : bool) (r : EvalResult) : Prop :=
  if b then r = EOk Valid else exists m, r = EOk (Invalid m).

End Spec.

Module Facts.

Import Queries Eval Spec.

(** Parsing an array yields only defined elements, each a parse of the one
    at its position. *)
Lemma parse_all_Forall2 f qs qs' :
  parse_all f qs = Some qs' ->
  List.Forall2 (fun o o' => exists q q', o = Some q /\ o' = Some q' /\ f q = Some q') qs qs'.
Proof.
  revert qs'. induction qs as [|[q|] qs IH]; simpl; intros qs' H; try done.
  - injection H as <-. constructor.
  - destruct (f q) eqn:Ef, (parse_all f qs) eqn:Ep; simplify_eq.
    constructor; eauto 6.
Qed.

Lemma parse_all_self f qs :
  List.Forall (fun o => exists q, o = Some q /\ f q = Some q) qs -> parse_all f qs = Some qs.
Proof.
  induction 1 as [|o qs (q & -> & Hq) _ IH]; simpl; [done|]. by rewrite Hq, IH.
Qed.

Lemma parse_all_fixed f qs :
  parse_all f qs = Some qs ->
  List.Forall (fun o => exists q, o = Some q /\ f q = Some q) qs.
Proof.
  induction qs as [|[q|] qs IH]; simpl; intros H; try done.
  destruct (f q) eqn:Ef, (parse_all f qs); simplify_eq. constructor; eauto.
Qed.

Lemma array_schema_self f qs :
  array_schema f (Some qs) = Some qs ->
  qs <> [] /\ List.Forall (fun o => exists q, o = Some q /\ f q = Some q) qs.
Proof.
  unfold array_schema. destruct (non_empty qs) eqn:E; [|done].
  intros H%parse_all_fixed. by destruct qs.
Qed.

(** Shape of a validated query. *)
Lemma validated_inv q :
  validated q ->
  (exists s, q = PQString s) \/
  exists qs, qs <> [] /\
    List.Forall (fun o => exists q', o = Some q' /\ validated q') qs /\
    (q = PQObject (Some qs) None \/ q = PQObject None (Some qs)).
Proof.
  unfold validated. destruct q as [s|a o]; [by eauto|]. simpl. intros H. right.
  destruct (array_schema permissionQuerySchema a) as [qa|] eqn:Ea.
  - injection H as <- <-. destruct (array_schema_self _ _ Ea). eauto.
  - destruct (array_schema permissionQuerySchema o) as [qo|] eqn:Eo; [|done].
    injection H as <- <-. destruct (array_schema_self _ _ Eo). eauto.
Qed.

(** [validateQuery] returns a validated query. *)
Lemma schema_validated q q' : permissionQuerySchema q = Some q' -> validated q'.
Proof.
  revert q'. induction q as [s|a o Ha Ho] using PermissionQuery_nested_ind; simpl; intros q' H.
  { by injection H as <-. }
  assert (Harr : forall l qs', PList (fun q => forall q', permissionQuerySchema q = Some q' -> validated q') l ->
            array_schema permissionQuerySchema l = Some qs' ->
            array_schema permissionQuerySchema (Some qs') = Some qs').
  { intros [qs|] qs' HP Hs; [|done]. simpl in *. destruct qs as [|x qs]; [done|].
    apply parse_all_Forall2 in Hs.
    destruct qs' as [|x' qs']; [by inv Hs|]. cbn [non_empty].
    apply parse_all_self. clear H. revert HP Hs. generalize (x :: qs), (x' :: qs'). clear.
    induction l as [|o l IH]; intros l' HP Hs; inv Hs; [constructor|].
    match goal with H : exists _ _, _ |- _ => destruct H as (q & q' & -> & -> & Hq) end.
    inv HP. unfold POpt, validated in *. constructor; by eauto. }
  unfold validated.
  destruct (array_schema permissionQuerySchema a) as [qa|] eqn:Ea; [injection H as <-|].
  - simpl. change (if non_empty qa then parse_all permissionQuerySchema qa else None)
      with (array_schema permissionQuerySchema (Some qa)). by rewrite (Harr a).
  - destruct (array_schema permissionQuerySchema o) as [qo|] eqn:Eo; [injection H as <-|done].
    simpl. change (if non_empty qo then parse_all permissionQuerySchema qo else None)
      with (array_schema permissionQuerySchema (Some qo)). by rewrite (Harr o).
Qed.

(** The [and] branch, when every element has a verdict. *)
Lemma eval_and_verdict (f : PermissionQuery -> EvalResult) (b : PermissionQuery -> bool) qs :
  List.Forall (fun o => exists q, o = Some q /\ verdict_of (b q) (f q)) qs ->
  verdict_of
    (forallb (fun o => match o with
                       | Some q => negb (truthy_query (Some q)) || b q
                       | None => true
                       end) qs)
    (eval_and (map_truthy f qs)).
Proof.
  unfold eval_and, map_truthy. induction 1 as [|o qs (q & -> & Hq) _ IH]; [done|].
  cbn [forallb flat_map]. destruct (truthy_query (Some q)); [|done]. simpl.
  destruct (b q); simpl in *; [by rewrite Hq|].
  destruct Hq as [m ->]. simpl. destruct (existsb is_throw _); [|by eexists].
  destruct (forallb _ qs); [done|]. by destruct IH.
Qed.

(** The [or] branch, when every element has a verdict. *)
Lemma eval_or_verdict (f : PermissionQuery -> EvalResult) (b : PermissionQuery -> bool) m qs :
  List.Forall (fun o => exists q, o = Some q /\ verdict_of (b q) (f q)) qs ->
  verdict_of
    (existsb (fun o => match o with Some q => b q | None => false end) qs)
    (eval_or f m qs).
Proof.
  induction 1 as [|o qs (q & -> & Hq) _ IH]; simpl; [by eexists|].
  destruct (b q); simpl in *; [by rewrite Hq|]. by destruct Hq as [m' ->].
Qed.

(** On validated queries the evaluator decides [sat_skip]. *)
Lemma evaluate_sat_skip q permissions :
  validated q -> verdict_of (sat_skip q permissions) (evaluateQueryV1 q permissions).
Proof.
  induction q as [s|a o Ha Ho] using PermissionQuery_nested_ind; intros Hv.
  { simpl. destruct (Js.includes permissions s); [done|by eexists]. }
  assert (Hall : forall qs, PList (fun q => validated q ->
              verdict_of (sat_skip q permissions) (evaluateQueryV1 q permissions)) (Some qs) ->
            List.Forall (fun o => exists q', o = Some q' /\ validated q') qs ->
            List.Forall (fun o => exists q, o = Some q /\
              verdict_of (sat_skip q permissions) (evaluateQueryV1 q permissions)) qs).
  { intros qs HP Hq. simpl in HP. induction Hq as [|o' qs (q & -> & Hq) _ IH]; [constructor|].
    inv HP. constructor; eauto. }
  apply validated_inv in Hv as [[s ?]|(qs & _ & Hqs & [H|H])]; [done| |]; simplify_eq.
  - simpl. apply eval_and_verdict. by apply Hall.
  - simpl. apply eval_or_verdict. by apply Hall.
Qed.

Lemma sat_skip_sat q permissions :
  no_empty_and q = true -> sat_skip q permissions = sat q permissions.
Proof.
  induction q as [s|a o Ha Ho] using PermissionQuery_nested_ind; intros H; [done|].
  destruct a as [qs|]; [|destruct o as [qs|]; [|done]]; simpl in *.
  - clear Ho. induction Ha as [|[q|] qs Hq _ IH]; simpl in *; [done| |by auto].
    bool_hyps. rewrite H, Hq by done. simpl. f_equal. by apply IH.
  - clear Ha. induction Ho as [|[q|] qs Hq _ IH]; simpl in *; [done| |by auto].
    bool_hyps. rewrite Hq by done. f_equal. by apply IH.
Qed.

Lemma sat_skip_mono q P P' :
  (forall s, In s P -> In s P') -> sat_skip q P = true -> sat_skip q P' = true.
Proof.
  intros Hincl. induction q as [s|a o Ha Ho] using PermissionQuery_nested_ind.
  { simpl. rewrite !StrFacts.includes_In. auto. }
  destruct a as [qs|]; [|destruct o as [qs|]; [|done]]; simpl in *.
  - rewrite !forallb_forall. intros H x Hx. specialize (H x Hx).
    rewrite List.Forall_forall in Ha. specialize (Ha x Hx).
    destruct x; [|done]. simpl in *. destruct (negb _); [done|]. by apply Ha.
  - rewrite !existsb_exists. intros (x & Hx & H). exists x. split; [done|].
    rewrite List.Forall_forall in Ho. specialize (Ho x Hx). destruct x; [|done]. by apply Ho.
Qed.

End Facts.

Module PermissionFacts.

Import Permissions.

Definition dotted (r i a : string) : string := Str.join "." [r; i; a].

Definition dotless (s : string) : Prop := Str.has_char "." s = false.

(** Splitting a string made of three dotless parts gives them back. *)
Lemma split_dotted r i a :
  dotless r -> dotless i -> dotless a -> Str.split_on "." (dotted r i a) = [r; i; a].
Proof.
  intros Hr Hi Ha. change (dotted r i a) with (r +:+ String "." (i +:+ String "." a)).
  rewrite !StrFacts.split_on_app by done. by rewrite StrFacts.split_on_none.
Qed.

Lemma dotted_not_star r i a : dotted r i a <> "*".
Proof.
  intros H. apply (f_equal (Str.has_char ".")) in H. revert H.
  change (dotted r i a) with (r +:+ String "." (i +:+ String "." a)). induction r as [|c r IH]; simpl; [done|].
  destruct (Ascii.eqb c "."); [done|]. exact IH.
Qed.

(** Every resource name and every action of the table is dotless. *)
Lemma assoc_dotless r c : assoc r scopedResources = Some c -> dotless r.
Proof.
  unfold scopedResources. cbn [assoc].
  repeat (match goal with |- context [String.eqb r ?k] => destruct (String.eqb_spec r k) as [->|_] end;
          [intros _; reflexivity|]). done.
Qed.

Lemma actions_dotless r c a :
  assoc r scopedResources = Some c -> In a (actionsSchema c) -> dotless a.
Proof.
  intros Hr. assert (Hall : forallb (fun a => negb (Str.has_char "." a)) (actionsSchema c) = true).
  { revert Hr. unfold scopedResources. cbn [assoc].
    repeat (destruct (String.eqb r _); [intros [= <-]; reflexivity|]). done. }
  intros Ha. rewrite forallb_forall in Hall. specialize (Hall a Ha). by bool_hyps.
Qed.

Lemma prototype_not_own r : In r objectPrototypeKeys -> lookupResource r = Inherited /\ dotless r.
Proof. simpl. intros H. repeat (destruct H as [<-|H]; [by vm_compute|]). done. Qed.

End PermissionFacts.

(** ** The properties of the component *)

Import Queries Eval Spec Facts Permissions PermissionFacts.

(** Claim C11. On a query that [validateQuery] returned and whose [and] arrays
    hold no empty string, the evaluator computes exactly the boolean formula
    the query denotes: it returns [valid: true] when the granted permissions
    satisfy the formula and [valid: false] with a message when they do not; it
    neither throws nor returns a schema error. *)
Theorem evaluate_refines_sat (q q' : PermissionQuery) (permissions : list string) :
  validateQuery q = Some q' -> no_empty_and q' = true ->
  verdict_of (sat q' permissions) (evaluatePermissions q' permissions).
Proof.
  intros Hq Hne. rewrite <- (sat_skip_sat q' permissions Hne).
  apply evaluate_sat_skip. by eapply schema_validated.
Qed.

Lemma evaluate_refines_sat_witness :
  verdict_of true
    (evaluatePermissions
       (PQObject None (Some [Some (PQString "a"); Some (PQObject (Some [Some (PQString "b"); Some (PQString "c")]) None)]))
       ["b"; "c"]).
Proof.
  exact (evaluate_refines_sat
    (PQObject None (Some [Some (PQString "a"); Some (PQObject (Some [Some (PQString "b"); Some (PQString "c")]) None)]))
    (PQObject None (Some [Some (PQString "a"); Some (PQObject (Some [Some (PQString "b"); Some (PQString "c")]) None)]))
    ["b"; "c"] eq_refl eq_refl).
Defined.

(** Granting more permissions never turns an accepted request into a
    refused one: on a validated query, a verdict of [valid: true] survives any
    extension of the permission list. (On queries that were not validated this
    fails: a permission can uncover the error of a later malformed element.) *)
Theorem evaluate_monotone (q : PermissionQuery) (permissions more : list string) :
  validated q -> (forall s, In s permissions -> In s more) ->
  evaluatePermissions q permissions = EOk Valid -> evaluatePermissions q more = EOk Valid.
Proof.
  intros Hv Hincl He. unfold evaluatePermissions in *.
  pose proof (evaluate_sat_skip q permissions Hv) as H1.
  pose proof (evaluate_sat_skip q more Hv) as H2.
  destruct (sat_skip q permissions) eqn:E.
  - by rewrite (sat_skip_mono _ _ _ Hincl E) in H2.
  - destruct H1 as [m H1]. congruence.
Qed.

Lemma evaluate_monotone_witness :
  evaluatePermissions (PQObject (Some [Some (PQString "a"); Some (PQString "b")]) None) ["b"; "z"; "a"] = EOk Valid.
Proof.
  apply (evaluate_monotone _ ["a"; "b"]); [reflexivity| |reflexivity].
  simpl. intros s [<-|[<-|[]]]; auto.
Defined.

(** An empty permission name is required when it is the whole query
    but waived inside an [and]: [filter(Boolean)] drops it, so the validated
    query [{and: [""]}] is satisfied by no permissions at all. *)
Theorem empty_and_member_is_waived (permissions : list string) :
  validated (PQObject (Some [Some (PQString "")]) None) /\
  evaluatePermissions (PQObject (Some [Some (PQString "")]) None) permissions = EOk Valid /\
  evaluatePermissions (PQString "") [] = EOk (Invalid "Missing permission: ''").
Proof. done. Qed.

(** The builders [and(...)] and [or(...)] never throw and collect the
    truthy arguments in order; with none they return the object that has
    neither property, and evaluating that is a schema error. *)
Theorem merge_collects (args : list (option PermissionQuery)) :
  (exists kept, kept = List.filter truthy_query args /\
    and_ args = Some (PQObject (if non_empty kept then Some kept else None) None) /\
    or_ args = Some (PQObject None (if non_empty kept then Some kept else None))) /\
  forall q permissions, List.filter truthy_query args = [] -> (and_ args = Some q \/ or_ args = Some q) ->
    evaluatePermissions q permissions = EErr "reached end of evaluate and no match".
Proof.
  assert (Hfold : forall kept l,
    fold_left (merge_step RAnd) kept (Some (PQObject (Some l) None)) = Some (PQObject (Some (l ++ kept)%list) None) /\
    fold_left (merge_step ROr) kept (Some (PQObject None (Some l))) = Some (PQObject None (Some (l ++ kept)%list))).
  { induction kept as [|x kept IH]; intros l; simpl; [by rewrite app_nil_r|].
    destruct (IH (l ++ [x])%list) as [-> ->]. by rewrite <- app_assoc. }
  split.
  - eexists; split; [done|]. unfold and_, or_, merge.
    destruct (List.filter truthy_query args) as [|x kept]; [done|]. simpl.
    destruct (Hfold kept [x]) as [-> ->]. done.
  - intros q permissions H. unfold and_, or_, merge. rewrite H. simpl. by intros [[= <-]|[= <-]].
Qed.

Lemma merge_collects_witness :
  evaluatePermissions (PQObject None None) ["a"] = EErr "reached end of evaluate and no match".
Proof.
  apply (proj2 (merge_collects [None; Some (PQString "")]) (PQObject None None) ["a"]).
  - reflexivity.
  - left. reflexivity.
Defined.

(** A string is accepted as a root-key permission exactly when it is
    "*" or it reads [resource.id.action] with a resource of the table, an id
    that the resource's id schema accepts and that holds no dot, and one of the
    resource's actions. *)
Theorem unkeyPermissionValidation_spec (s : string) :
  unkeyPermissionValidation (IString s) = Accept <->
  s = "*" \/
  exists resource id action c,
    assoc resource scopedResources = Some c /\ idSchema_ok (idSchema c) id = true /\
    In action (actionsSchema c) /\ dotless id /\ s = dotted resource id action.
Proof.
  unfold unkeyPermissionValidation. split.
  - destruct (String.eqb_spec s "*") as [->|_]; [by left|]. intros H. right.
    pose proof (StrFacts.split_on_parts "." s) as Hp. pose proof (StrFacts.join_split "." s) as Hj.
    destruct (Str.split_on "." s) as [|r [|i [|a [|? ?]]]]; try done.
    unfold lookupResource in H. destruct (assoc r scopedResources) as [c|] eqn:Er; [|by case_hyp H].
    unfold check_of in H. case_hyp H; [|done]. bool_hyps.
    exists r, i, a, c. repeat split; try done; [by apply StrFacts.includes_In|].
    by apply List.Forall_inv_tail, List.Forall_inv in Hp.
  - intros [->|(r & i & a & c & Hr & Hi & Ha & Hd & ->)]; [done|].
    destruct (String.eqb_spec (dotted r i a) "*") as [E|_]; [by destruct (dotted_not_star r i a)|].
    rewrite split_dotted by eauto using assoc_dotless, actions_dotless.
    unfold lookupResource. rewrite Hr, Hi. simpl.
    by rewrite (proj2 (StrFacts.includes_In _ _) Ha).
Qed.

(** A string whose resource is the name of a property inherited from
    [Object.prototype], for example "toString.x.y", is not rejected: the
    lookup finds the inherited value, reading its missing [idSchema] throws, and
    the validation raises a TypeError. *)
Theorem prototype_resource_raises (resource id action : string) :
  In resource objectPrototypeKeys -> dotless id -> dotless action ->
  unkeyPermissionValidation (IString (dotted resource id action)) = Raise.
Proof.
  intros [Hl Hd]%prototype_not_own Hi Ha. unfold unkeyPermissionValidation.
  destruct (String.eqb_spec (dotted resource id action) "*") as [E|_]; [by destruct (dotted_not_star resource id action)|].
  by rewrite split_dotted, Hl.
Qed.

Lemma prototype_resource_raises_witness :
  unkeyPermissionValidation (IString "toString.x.y") = Raise.
Proof. apply (prototype_resource_raises "toString" "x" "y"); [simpl; auto 12|reflexivity|reflexivity]. Defined.
