(* ===== verification/Tiers.v ===== *)
(** * Tiered prices (web/internal/billing)

    The billing-tier schema and [calculateTieredPrices] of src/tiers.ts and the
    default subscriptions of src/subscriptions.ts. Unit counts are integers,
    exact in the source as long as they stay below 2^53, which the schema
    requires of the tiers. The cents estimate is a sum of IEEE products, so the
    number operations it uses are parameters: the theorems hold whatever their
    rounding. *)

From Stdlib Require Import ZArith Lia Bool Ascii String.
From stdpp Require Import base list strings.
From S2P Require Import Prelude.

Local Open Scope Z_scope.

Record BillingTier := {
  firstUnit : Z;
  lastUnit : option Z;
  centsPerUnit : option string;
}.

(** [BillingTier & { quantity: number }]. *)
Record PricedTier := { quantity : Z; tier : BillingTier }.

Inductive SchemaError :=
| ZodError
| MissingLastUnit   (* "Every tier except the last one must have a lastUnit" *)
| TierGap           (* "There is a gap between tiers" *)
| TierOverlap.      (* "There is an overlap between tiers" *)

(** [z.int()]: a safe integer. *)
Definition is_safe_int (n : Z) : bool := (- (2 ^ 53) <? n) && (n <? 2 ^ 53).

Definition is_digit (c : ascii) : bool :=
  let n := nat_of_ascii c in ((48 <=? n) && (n <=? 57))%nat.

(** [\d{1,max}]. *)
Definition digits_upto (max : nat) (s : string) : bool :=
  Str.all_chars is_digit s && (1 <=? String.length s)%nat && (String.length s <=? max)%nat.

(** [/^\d{1,15}(\.\d{1,12})?$/]. *)
Definition is_cents (s : string) : bool :=
  match Str.split_on "." s with
  | [whole] => digits_upto 15 whole
  | [whole; fraction] => digits_upto 15 whole && digits_upto 12 fraction
  | _ => false
  end.

(** The [billingTier] schema. *)
Definition billingTier (t : BillingTier) : bool :=
  is_safe_int (firstUnit t) && (1 <=? firstUnit t) &&
  match lastUnit t with Some l => is_safe_int l && (1 <=? l) | None => true end &&
  match centsPerUnit t with Some s => is_cents s | None => true end.

(** The validation loop from the second tier on; [previous] is [tiers[i - 1]]. *)
Fixpoint checkContiguous (previous : BillingTier) (tiers : list BillingTier) : option SchemaError :=
  match tiers with
  | [] => None
  | current :: rest =>
      match lastUnit previous with
      | None => Some MissingLastUnit
      | Some previousLastUnit =>
          if previousLastUnit + 1 <? firstUnit current then Some TierGap
          else if firstUnit current <? previousLastUnit + 1 then Some TierOverlap
          else checkContiguous current rest
      end
  end.

(** Schema and loop together. *)
Definition validateTiers (rawTiers : list BillingTier) : option SchemaError :=
  match rawTiers with
  | [] => Some ZodError
  | first :: rest => if forallb billingTier rawTiers then checkContiguous first rest else Some ZodError
  end.

(** Number operations on estimates. *)
Record Arith := {
  num : Type;
  zero : num;
  add : num -> num -> num;
  mul : num -> num -> num;
  of_int : Z -> num;
  parseFloat : string -> num;
}.

Section Prices.

Context (A : Arith).

Record TieredPrice := { tiers : list PricedTier; totalCentsEstimate : num A }.

(** The calculation loop. [units <= 0] is tested on the parameter, which does
    not change, so it decides once whether any tier is priced. *)
Fixpoint price_loop (units remaining : Z) (ts : list BillingTier) (res : TieredPrice) : TieredPrice :=
  match ts with
  | [] => res
  | t :: rest =>
      if units <=? 0 then res
      else
        let q := match lastUnit t with
                 | None => remaining
                 | Some l => Z.min (l - firstUnit t + 1) remaining
                 end in
        let total :=
          match centsPerUnit t with
          | Some s => if Js.truthy_string s
                      then add A (totalCentsEstimate res) (mul A (of_int A q) (parseFloat A s))
                      else totalCentsEstimate res
          | None => totalCentsEstimate res
          end in
        price_loop units (remaining - q) rest
          {| tiers := (tiers res ++ [{| quantity := q; tier := t |}])%list; totalCentsEstimate := total |}
  end.

Definition calculateTieredPrices (rawTiers : list BillingTier) (units : Z) : SchemaError + TieredPrice :=
  match validateTiers rawTiers with
  | Some e => inl e
  | None => inr (price_loop units units rawTiers {| tiers := []; totalCentsEstimate := zero A |})
  end.

End Prices.

Arguments tiers {A} _.
Arguments totalCentsEstimate {A} _.

(** ** Default subscriptions *)

Record FixedSubscription := { fixed_productId : string; cents : string }.
Record TieredSubscription := { tiered_productId : string; sub_tiers : list BillingTier }.

Record Subscriptions := {
  verifications : option TieredSubscription;
  ratelimits : option TieredSubscription;
  plan : option FixedSubscription;
  support : option FixedSubscription;
}.

(** The variables of [process.env] the schema reads. *)
Record StripeProductEnv := {
  STRIPE_PRODUCT_ID_PRO_PLAN : option string;
  STRIPE_PRODUCT_ID_KEY_VERIFICATIONS : option string;
  STRIPE_PRODUCT_ID_RATELIMITS : option string;
  STRIPE_PRODUCT_ID_SUPPORT : option string;
}.

Definition tier_of (f : Z) (l : option Z) (c : option string) : BillingTier :=
  {| firstUnit := f; lastUnit := l; centsPerUnit := c |}.

Definition defaultProSubscriptions (env : StripeProductEnv) : option Subscriptions :=
  match STRIPE_PRODUCT_ID_PRO_PLAN env, STRIPE_PRODUCT_ID_KEY_VERIFICATIONS env,
        STRIPE_PRODUCT_ID_RATELIMITS env, STRIPE_PRODUCT_ID_SUPPORT env with
  | Some pro, Some key_verifications, Some _, Some _ =>
      Some {| plan := Some {| fixed_productId := pro; cents := "2500" |};
              verifications := Some {| tiered_productId := key_verifications;
                sub_tiers := [tier_of 1 (Some 150000) None; tier_of 150001 None (Some "0.01"%string)] |};
              ratelimits := Some {| tiered_productId := key_verifications;
                sub_tiers := [tier_of 1 (Some 2500000) None; tier_of 2500001 None (Some "0.001"%string)] |};
              support := None |}
  | _, _, _, _ => None
  end.

(** ** Reference definitions *)

(** How many of the units 1, 2, ..., [units] lie in the tier's range. *)
Definition units_in_tier (units : Z) (t : BillingTier) : Z :=
  Z.max 0 (match lastUnit t with Some l => Z.min l units | None => units end - firstUnit t + 1).

(** Ranges are not inverted: a tier ends at or after the unit before its first. *)
Definition ordered (t : BillingTier) : bool :=
  match lastUnit t with Some l => firstUnit t <=? l + 1 | None => true end.

Definition quantities {A} (p : TieredPrice A) : list Z := List.map quantity (tiers p).

Definition Zsum (l : list Z) : Z := fold_right Z.add 0 l.

(** The last unit a list of tiers covers, [None] when it is unbounded. *)
Definition covers (ts : list BillingTier) (units : Z) : Prop :=
  match last ts with Some t => match lastUnit t with Some l => units <= l | None => True end | None => False end.

Section Facts.

Context {A : Arith}.

Lemma price_loop_tiers units remaining ts (res : TieredPrice A) :
  0 < units ->
  List.map tier (tiers (price_loop A units remaining ts res)) = (List.map tier (tiers res) ++ ts)%list.
Proof.
  intros Hu. revert remaining res. induction ts as [|t ts IH]; intros r res; simpl.
  - by rewrite app_nil_r.
  - destruct (Z.leb_spec units 0); [lia|]. rewrite IH. simpl. by rewrite List.map_app, <- app_assoc.
Qed.

(** Before the tier that starts at [f], [f - 1] units have been spread. *)
Lemma price_loop_quantities units ts (res : TieredPrice A) f :
  0 < units -> 1 <= f ->
  match ts with
  | [] => True
  | t :: rest => firstUnit t = f /\ checkContiguous t rest = None
  end ->
  forallb ordered ts = true ->
  quantities (price_loop A units (Z.max 0 (units - f + 1)) ts res) =
    (quantities res ++ List.map (units_in_tier units) ts)%list.
Proof.
  intros Hu. revert f res. induction ts as [|t ts IH]; intros f res Hf Hts Ho.
  { simpl. by rewrite app_nil_r. }
  destruct Hts as [<- Hc]. cbn [forallb] in Ho. apply andb_prop in Ho as [Ht Ho]. cbn [price_loop].
  destruct (Z.leb_spec units 0) as [|_]; [lia|]. unfold ordered in Ht.
  set (q := match lastUnit t with
            | Some l => Z.min (l - firstUnit t + 1) (Z.max 0 (units - firstUnit t + 1))
            | None => Z.max 0 (units - firstUnit t + 1) end).
  assert (Hq : q = units_in_tier units t)
    by (unfold q, units_in_tier; destruct (lastUnit t); lia).
  destruct ts as [|t' ts]; cbn [checkContiguous] in Hc.
  { simpl. unfold quantities. simpl. by rewrite List.map_app, <- Hq. }
  destruct (lastUnit t) as [l|] eqn:El; [|done].
  destruct (Z.ltb_spec (l + 1) (firstUnit t')); [done|].
  destruct (Z.ltb_spec (firstUnit t') (l + 1)); [done|].
  replace (Z.max 0 (units - firstUnit t + 1) - q) with (Z.max 0 (units - (l + 1) + 1))
    by (rewrite Hq; unfold units_in_tier; rewrite El; lia).
  rewrite IH; [|lia|split; [lia|done]|done].
  unfold quantities. cbn [tiers]. rewrite List.map_app, <- app_assoc. simpl. by rewrite <- Hq.
Qed.

Lemma Zsum_app l1 l2 : Zsum (l1 ++ l2)%list = Zsum l1 + Zsum l2.
Proof. induction l1; simpl; unfold Zsum in *; lia. Qed.

(** Contiguous ordered tiers count every unit from the first one's start once. *)
Lemma units_in_tiers_sum units t ts :
  checkContiguous t ts = None -> forallb ordered (t :: ts) = true -> covers (t :: ts) units ->
  Zsum (List.map (units_in_tier units) (t :: ts)) = Z.max 0 (units - firstUnit t + 1).
Proof.
  revert t. induction ts as [|t' ts IH]; intros t Hc Ho Hl.
  - unfold covers in Hl. simpl in *. unfold units_in_tier. destruct (lastUnit t); lia.
  - cbn [checkContiguous] in Hc. destruct (lastUnit t) as [l|] eqn:El; [|done].
    destruct (Z.ltb_spec (l + 1) (firstUnit t')); [done|].
    destruct (Z.ltb_spec (firstUnit t') (l + 1)); [done|].
    cbn [forallb] in Ho. apply andb_prop in Ho as [Ht Ho]. unfold ordered in Ht. rewrite El in Ht.
    change (Zsum (List.map (units_in_tier units) (t :: t' :: ts)))
      with (units_in_tier units t + Zsum (List.map (units_in_tier units) (t' :: ts))).
    rewrite IH by done. unfold units_in_tier. rewrite El. lia.
Qed.

End Facts.

(** Exact integer arithmetic, at which the witnesses are evaluated. *)
Definition intArith : Arith :=
  {| num := Z; zero := 0; add := Z.add; mul := Z.mul; of_int := fun z => z; parseFloat := fun _ => 1 |}.

(** ** The properties of the component *)

(** Pricing distributes units as tiers mean it: for validated tiers
    that start at unit 1 and whose ranges are not inverted, the result lists
    every tier in order, and the quantity of each is the number of the units 1
    to [units] that lie in its range. *)
Theorem calculateTieredPrices_quantities (A : Arith) (t : BillingTier) (ts : list BillingTier) (units : Z) :
  validateTiers (t :: ts) = None -> firstUnit t = 1 -> forallb ordered (t :: ts) = true -> 0 < units ->
  exists p, calculateTieredPrices A (t :: ts) units = inr p /\
    List.map tier (tiers p) = t :: ts /\
    quantities p = List.map (units_in_tier units) (t :: ts).
Proof.
  intros Hv H1 Ho Hu. unfold calculateTieredPrices. rewrite Hv. eexists. split; [done|]. split.
  - by rewrite price_loop_tiers.
  - unfold validateTiers in Hv. case_hyp Hv; [|done].
    pose proof (price_loop_quantities units (t :: ts)
      (Build_TieredPrice A [] (zero A)) 1 Hu ltac:(lia) (conj H1 Hv) Ho) as Hq.
    replace (Z.max 0 (units - 1 + 1)) with units in Hq by lia. exact Hq.
Qed.

Lemma calculateTieredPrices_quantities_witness :
  exists p, calculateTieredPrices intArith
      [tier_of 1 (Some 10) (Some "100"%string); tier_of 11 (Some 20) (Some "50"%string); tier_of 21 None (Some "25"%string)] 25 = inr p /\
    List.map tier (tiers p) =
      [tier_of 1 (Some 10) (Some "100"%string); tier_of 11 (Some 20) (Some "50"%string); tier_of 21 None (Some "25"%string)] /\
    quantities p = [10; 10; 5].
Proof.
  exact (calculateTieredPrices_quantities intArith (tier_of 1 (Some 10) (Some "100"%string))
    [tier_of 11 (Some 20) (Some "50"%string); tier_of 21 None (Some "25"%string)] 25
    eq_refl eq_refl eq_refl eq_refl).
Defined.

(** No unit is lost and none is billed twice: when the tiers reach at
    least [units], the quantities add up to [units]. *)
Theorem calculateTieredPrices_total (A : Arith) (t : BillingTier) (ts : list BillingTier) (units : Z) :
  validateTiers (t :: ts) = None -> firstUnit t = 1 -> forallb ordered (t :: ts) = true -> 0 < units ->
  covers (t :: ts) units ->
  exists p, calculateTieredPrices A (t :: ts) units = inr p /\ Zsum (quantities p) = units.
Proof.
  intros Hv H1 Ho Hu Hc. unfold calculateTieredPrices. rewrite Hv. eexists. split; [done|].
  unfold validateTiers in Hv. case_hyp Hv; [|done].
  replace units with (Z.max 0 (units - 1 + 1)) at 2 by lia.
  rewrite price_loop_quantities by (simpl; auto with lia).
  rewrite Zsum_app, units_in_tiers_sum by done. change (Zsum (quantities _)) with 0. lia.
Qed.

Lemma calculateTieredPrices_total_witness :
  exists p, calculateTieredPrices intArith
      [tier_of 1 (Some 2500) None; tier_of 2501 (Some 100000) (Some "0.02"%string)] 99999 = inr p /\
    Zsum (quantities p) = 99999.
Proof.
  exact (calculateTieredPrices_total intArith (tier_of 1 (Some 2500) None)
    [tier_of 2501 (Some 100000) (Some "0.02"%string)] 99999 eq_refl eq_refl eq_refl eq_refl
    ltac:(unfold covers; simpl; lia)).
Defined.

(** [lastUnit] of each tier but the last is the unit before the next tier. *)
Fixpoint contiguous (t : BillingTier) (ts : list BillingTier) : Prop :=
  match ts with
  | [] => True
  | t' :: ts' => lastUnit t = Some (firstUnit t' - 1) /\ contiguous t' ts'
  end.

(** The validation accepts a list of tiers exactly when it is not
    empty, every tier passes the schema and each tier but the last ends just
    before the next begins. *)
Theorem validateTiers_spec (rawTiers : list BillingTier) :
  validateTiers rawTiers = None <->
  exists t ts, rawTiers = t :: ts /\ List.Forall (fun x => billingTier x = true) rawTiers /\ contiguous t ts.
Proof.
  assert (Hc : forall ts t, checkContiguous t ts = None <-> contiguous t ts).
  { induction ts as [|t' ts IH]; intros t; simpl; [done|].
    destruct (lastUnit t) as [l|]; [|by split; [|intros []]].
    destruct (Z.ltb_spec (l + 1) (firstUnit t')); [split; [done|intros [[= ->] _]; lia]|].
    destruct (Z.ltb_spec (firstUnit t') (l + 1)); [split; [done|intros [[= ->] _]; lia]|].
    rewrite IH. split; [intros; split; [f_equal; lia|done]|by intros []]. }
  unfold validateTiers. destruct rawTiers as [|t ts].
  { split; [done|by intros (? & ? & [=] & _)]. }
  split.
  - intros H. case_hyp H; [|done]. exists t, ts.
    rewrite List.Forall_forall, <- Hc. by rewrite forallb_forall in E.
  - intros (t' & ts' & [= <- <-] & Hf & Ht). rewrite List.Forall_forall in Hf. rewrite (proj2 (forallb_forall _ _) Hf). by apply Hc.
Qed.

(** The validation does not require a tier to end after it starts:
    tiers with an inverted range are accepted, and pricing them gives the
    inverted tier a negative quantity. *)
Theorem inverted_tier_negative_quantity (A : Arith) :
  exists ts, validateTiers ts = None /\
    exists p, calculateTieredPrices A ts 20 = inr p /\ quantities p = [10; -5; 15].
Proof.
  exists [tier_of 1 (Some 10) None; tier_of 11 (Some 5) (Some "100"%string); tier_of 6 None None].
  split; [reflexivity|]. eexists. split; reflexivity.
Qed.

(** The default Pro subscriptions are well formed: whenever the four
    product ids are set, both tier lists pass the validation, the first
    150,000 verifications and the first 2,500,000 ratelimits fall in the free
    tier and only the rest in the paid one. *)
Theorem defaultProSubscriptions_tiers (A : Arith) (env : StripeProductEnv) (s : Subscriptions) (units : Z) :
  defaultProSubscriptions env = Some s -> 0 < units ->
  exists v r pv pr, verifications s = Some v /\ ratelimits s = Some r /\
    calculateTieredPrices A (sub_tiers v) units = inr pv /\
    quantities pv = [Z.min 150000 units; Z.max 0 (units - 150000)] /\
    calculateTieredPrices A (sub_tiers r) units = inr pr /\
    quantities pr = [Z.min 2500000 units; Z.max 0 (units - 2500000)].
Proof.
  unfold defaultProSubscriptions. intros Hs Hu. repeat case_hyp Hs; simplify_eq.
  do 4 eexists. do 2 (split; [reflexivity|]).
  unfold calculateTieredPrices. cbn [sub_tiers].
  replace (validateTiers [_; _]) with (@None SchemaError) by reflexivity.
  replace (validateTiers [tier_of 1 (Some 2500000) None; _]) with (@None SchemaError) by reflexivity.
  split; [reflexivity|]. split; [|split; [reflexivity|]];
    cbn; destruct (Z.leb_spec units 0); try lia; cbn; repeat f_equal; lia.
Qed.

Lemma defaultProSubscriptions_tiers_witness :
  exists v r pv pr,
    verifications (Build_Subscriptions
      (Some (Build_TieredSubscription "v" [tier_of 1 (Some 150000) None; tier_of 150001 None (Some "0.01"%string)]))
      (Some (Build_TieredSubscription "v" [tier_of 1 (Some 2500000) None; tier_of 2500001 None (Some "0.001"%string)]))
      (Some (Build_FixedSubscription "p" "2500")) None) = Some v /\
    Some (Build_TieredSubscription "v" [tier_of 1 (Some 2500000) None; tier_of 2500001 None (Some "0.001"%string)]) = Some r /\
    calculateTieredPrices intArith (sub_tiers v) 150007 = inr pv /\ quantities pv = [150000; 7] /\
    calculateTieredPrices intArith (sub_tiers r) 150007 = inr pr /\ quantities pr = [150007; 0].
Proof.
  exact (defaultProSubscriptions_tiers intArith (Build_StripeProductEnv (Some "p"%string) (Some "v"%string) (Some "r"%string) (Some "s"%string))
    _ 150007 eq_refl eq_refl).
Defined.
