(* ===== verification/Encoding.v ===== *)
(** * Base64 (web/internal/encoding/src/base64.ts, copied in web/internal/hash)

    A byte is a [Z] in [0, 256). [encode] follows the source's index loop; it is
    shown equal to the recursive definition [encode_groups], from which the
    round trip with [decode] is proved. [decode] calls the platform's [atob],
    modelled by its standard ("forgiving-base64 decode"). *)

From Stdlib Require Import ZArith Lia Bool Ascii String Wf_nat.
From stdpp Require Import base list strings.
From S2P Require Import Prelude.

Local Open Scope Z_scope.

Definition base64abc : list ascii :=
  list_ascii_of_string "ABCDEFGHIJKLMNOPQRSTUVWXYZabcdefghijklmnopqrstuvwxyz0123456789+/".

(** [base64abc[i]] as it is appended to a string. *)
Definition abc (i : Z) : string :=
  match nth_error base64abc (Z.to_nat i) with
  | Some c => String c EmptyString
  | None => "undefined"
  end.

(** [uint8[i]]; every index the code reads is in range. *)
Definition at_ (uint8 : list Z) (i : Z) : Z := List.nth (Z.to_nat i) uint8 0.

(** The [for] loop from index [i] on: the index at which it stops and what it
    appended. *)
Fixpoint encode_loop (fuel : nat) (uint8 : list Z) (i : Z) (result : string) : Z * string :=
  match fuel with
  | O => (i, result)
  | S fuel' =>
      if i <? Z.of_nat (List.length uint8) then
        encode_loop fuel' uint8 (i + 3)
          (result
             +:+ abc (Z.shiftr (at_ uint8 (i - 2)) 2)
             +:+ abc (Z.lor (Z.shiftl (Z.land (at_ uint8 (i - 2)) 3) 4) (Z.shiftr (at_ uint8 (i - 1)) 4))
             +:+ abc (Z.lor (Z.shiftl (Z.land (at_ uint8 (i - 1)) 15) 2) (Z.shiftr (at_ uint8 i) 6))
             +:+ abc (Z.land (at_ uint8 i) 63))
      else (i, result)
  end.

(** [encode] on bytes. The loop advances by 3, so the length is fuel enough. *)
Definition encode (uint8 : list Z) : string :=
  let l := Z.of_nat (List.length uint8) in
  let '(i, result) := encode_loop (List.length uint8) uint8 2 EmptyString in
  let result :=
    if i =? l + 1 then
      result
        +:+ abc (Z.shiftr (at_ uint8 (i - 2)) 2)
        +:+ abc (Z.shiftl (Z.land (at_ uint8 (i - 2)) 3) 4)
        +:+ "=="
    else result in
  if i =? l then
    result
      +:+ abc (Z.shiftr (at_ uint8 (i - 2)) 2)
      +:+ abc (Z.lor (Z.shiftl (Z.land (at_ uint8 (i - 2)) 3) 4) (Z.shiftr (at_ uint8 (i - 1)) 4))
      +:+ abc (Z.shiftl (Z.land (at_ uint8 (i - 1)) 15) 2)
      +:+ "="
  else result.

(** [new TextEncoder().encode(s)] for code units below 256: one byte below
    128, two above. *)
Fixpoint utf8 (s : string) : list Z :=
  match s with
  | EmptyString => []
  | String c s' =>
      let n := Z.of_nat (nat_of_ascii c) in
      ((if n <? 128 then [n] else [192 + n / 64; 128 + n mod 64]) ++ utf8 s')%list
  end.

(** The argument of [encode] and [b64]: a string or a byte buffer. *)
Inductive Data := DString (s : string) | DBytes (b : list Z).

Definition bytes_of (d : Data) : list Z :=
  match d with DString s => utf8 s | DBytes b => b end.

Definition encode_data (d : Data) : string := encode (bytes_of d).

(** ** [atob] *)

Definition is_ascii_space (c : ascii) : bool :=
  let n := nat_of_ascii c in ((n =? 9) || (n =? 10) || (n =? 12) || (n =? 13) || (n =? 32))%nat.

(** The position of a character in the alphabet. *)
Fixpoint index_of (c : ascii) (l : list ascii) : option Z :=
  match l with
  | [] => None
  | d :: l' => if Ascii.eqb c d then Some 0 else option_map Z.succ (index_of c l')
  end.

(** Remove at most two "=" from the end. *)
Definition strip_padding (l : list ascii) : list ascii :=
  match rev l with
  | "="%char :: "="%char :: r => rev r
  | "="%char :: r => rev r
  | _ => l
  end.

(** Sextets of the characters; [None] on a character outside the alphabet. *)
Fixpoint sextets (l : list ascii) : option (list Z) :=
  match l with
  | [] => Some []
  | c :: l' => match index_of c base64abc, sextets l' with Some n, Some r => Some (n :: r) | _, _ => None end
  end.

(** Four sextets make three bytes; of a final two or three sextets the
    incomplete byte is dropped. *)
Fixpoint sextets_bytes (l : list Z) : list Z :=
  match l with
  | a :: b :: c :: d :: r =>
      Z.lor (Z.shiftl a 2) (Z.shiftr b 4)
        :: Z.lor (Z.shiftl (Z.land b 15) 4) (Z.shiftr c 2)
        :: Z.lor (Z.shiftl (Z.land c 3) 6) d :: sextets_bytes r
  | [a; b; c] => [Z.lor (Z.shiftl a 2) (Z.shiftr b 4); Z.lor (Z.shiftl (Z.land b 15) 4) (Z.shiftr c 2)]
  | [a; b] => [Z.lor (Z.shiftl a 2) (Z.shiftr b 4)]
  | _ => []
  end.

(** [atob]: the code units of the decoded string, [None] for the
    InvalidCharacterError. *)
Definition atob (s : string) : option (list Z) :=
  let data := List.filter (fun c => negb (is_ascii_space c)) (list_ascii_of_string s) in
  let data := if (List.length data mod 4 =? 0)%nat then strip_padding data else data in
  if (List.length data mod 4 =? 1)%nat then None
  else option_map sextets_bytes (sextets data).

(** [decode]: the code units of [atob]'s result, copied into the byte array. *)
Definition decode (b64 : string) : option (list Z) := atob b64.

(** ** Reference encoding *)

Definition is_byte (z : Z) : Prop := 0 <= z < 256.

Fixpoint encode_groups (l : list Z) : string :=
  match l with
  | a :: b :: c :: r =>
      abc (Z.shiftr a 2)
        +:+ abc (Z.lor (Z.shiftl (Z.land a 3) 4) (Z.shiftr b 4))
        +:+ abc (Z.lor (Z.shiftl (Z.land b 15) 2) (Z.shiftr c 6))
        +:+ abc (Z.land c 63) +:+ encode_groups r
  | [a; b] =>
      abc (Z.shiftr a 2)
        +:+ abc (Z.lor (Z.shiftl (Z.land a 3) 4) (Z.shiftr b 4))
        +:+ abc (Z.shiftl (Z.land b 15) 2) +:+ "="
  | [a] => abc (Z.shiftr a 2) +:+ abc (Z.shiftl (Z.land a 3) 4) +:+ "=="
  | [] => EmptyString
  end.

(** ** The index loop computes the groups *)

Section Loop.

Lemma at_app pre l k : at_ (pre ++ l)%list (Z.of_nat (List.length pre) + Z.of_nat k) = List.nth k l 0.
Proof. unfold at_. rewrite app_nth2; [f_equal; lia|lia]. Qed.

(** What [encode] does after the loop stopped at [i]. *)
Definition encode_tail (uint8 : list Z) (st : Z * string) : string :=
  let l := Z.of_nat (List.length uint8) in
  let '(i, result) := st in
  let result :=
    if i =? l + 1 then
      result +:+ abc (Z.shiftr (at_ uint8 (i - 2)) 2) +:+ abc (Z.shiftl (Z.land (at_ uint8 (i - 2)) 3) 4) +:+ "=="
    else result in
  if i =? l then
    result +:+ abc (Z.shiftr (at_ uint8 (i - 2)) 2)
      +:+ abc (Z.lor (Z.shiftl (Z.land (at_ uint8 (i - 2)) 3) 4) (Z.shiftr (at_ uint8 (i - 1)) 4))
      +:+ abc (Z.shiftl (Z.land (at_ uint8 (i - 1)) 15) 2) +:+ "="
  else result.

Lemma encode_unfold l : encode l = encode_tail l (encode_loop (List.length l) l 2 EmptyString).
Proof. done. Qed.

(** From the index two past a prefix the loop and its tail encode the rest. *)
Lemma encode_loop_groups l : forall fuel pre result,
  (List.length l <= fuel)%nat ->
  encode_tail (pre ++ l)%list (encode_loop fuel (pre ++ l)%list (Z.of_nat (List.length pre) + 2) result)
    = result +:+ encode_groups l.
Proof.
  induction l as [l IH] using (induction_ltof1 _ (@List.length Z)). unfold ltof in IH.
  intros fuel pre result Hf.
  assert (H0 := at_app pre l 0). assert (H1 := at_app pre l 1). assert (H2 := at_app pre l 2).
  rewrite Z.add_0_r in H0. change (Z.of_nat 1) with 1 in H1. change (Z.of_nat 2) with 2 in H2.
  set (n := Z.of_nat (List.length pre)) in *.
  assert (Hlen : Z.of_nat (List.length (pre ++ l)%list) = n + Z.of_nat (List.length l))
    by (rewrite length_app; lia).
  destruct l as [|a [|b [|c r]]]; cbn [List.length] in Hf, Hlen.
  - destruct fuel; cbn [encode_loop]; unfold encode_tail; rewrite ?Hlen; zcases;
      simpl; by rewrite StrFacts.string_app_nil.
  - destruct fuel as [|fuel]; [lia|]. cbn [encode_loop]. unfold encode_tail. rewrite Hlen. zcases.
    replace (n + 2 - 2) with n by lia. rewrite H0. done.
  - destruct fuel as [|fuel]; [lia|]. cbn [encode_loop]. unfold encode_tail. rewrite Hlen. zcases.
    replace (n + 2 - 2) with n by lia. replace (n + 2 - 1) with (n + 1) by lia. rewrite H0, H1. done.
  - destruct fuel as [|fuel]; [lia|]. cbn [encode_loop]. rewrite Hlen. zcases.
    replace (n + 2 - 2) with n by lia. replace (n + 2 - 1) with (n + 1) by lia. rewrite H0, H1, H2.
    replace (pre ++ a :: b :: c :: r)%list with ((pre ++ [a; b; c]) ++ r)%list by (by rewrite <- app_assoc).
    replace (n + 2 + 3) with (Z.of_nat (List.length (pre ++ [a; b; c])%list) + 2)
      by (unfold n; rewrite length_app; cbn [List.length]; lia).
    rewrite IH by (cbn [List.length]; lia). cbn [encode_groups List.nth]. by rewrite !StrFacts.string_app_assoc.
Qed.

Lemma encode_eq_groups l : encode l = encode_groups l.
Proof. rewrite encode_unfold. by apply (encode_loop_groups l (List.length l) [] EmptyString). Qed.

End Loop.

(** ** Bits of sextets *)

Section Bits.

Lemma testbit_high k a n : 0 <= a < 2 ^ k -> k <= n -> Z.testbit a n = false.
Proof.
  intros Ha Hn. destruct (Z.eq_dec a 0) as [->|]; [apply Z.bits_0|].
  apply Z.bits_above_log2; [lia|]. assert (Z.log2 a < k) by (apply Z.log2_lt_pow2; lia). lia.
Qed.
Lemma lor_shiftl_add y k x : 0 <= k -> 0 <= x < 2 ^ k -> Z.lor (Z.shiftl y k) x = y * 2 ^ k + x.
Proof.
  intros Hk Hx. assert (Hl : Z.land (Z.shiftl y k) x = 0).
  { apply Z.bits_inj'. intros n Hn. rewrite Z.land_spec, Z.bits_0, Z.shiftl_spec by lia.
    destruct (Z.lt_ge_cases n k); [by rewrite Z.testbit_neg_r by lia|].
    rewrite (testbit_high k x n) by done. apply andb_false_r. }
  rewrite <- (Z.lxor_lor _ _ Hl), <- (Z.add_nocarry_lxor _ _ Hl), Z.shiftl_mul_pow2 by done. lia.
Qed.

Lemma land3 a : Z.land a 3 = a mod 4.
Proof. exact (Z.land_ones a 2 ltac:(lia)). Qed.

Lemma land15 a : Z.land a 15 = a mod 16.
Proof. exact (Z.land_ones a 4 ltac:(lia)). Qed.

Lemma land63 a : Z.land a 63 = a mod 64.
Proof. exact (Z.land_ones a 6 ltac:(lia)). Qed.

(** Constant powers of two as numerals, then Euclidean division. *)
Local Ltac euclid :=
  repeat match goal with
    |- context [2 ^ ?k] => let v := eval vm_compute in (2 ^ k) in change (2 ^ k) with v
  end;
  Z.to_euclidean_division_equations; lia.

Local Ltac bits_arith :=
  rewrite ?land3, ?land15, ?land63; rewrite ?Z.shiftr_div_pow2 by lia;
  rewrite ?lor_shiftl_add by first [lia | euclid];
  rewrite ?Z.shiftl_mul_pow2 by lia; euclid.

Lemma sextet1 a : is_byte a -> 0 <= Z.shiftr a 2 < 64.
Proof. unfold is_byte. intros. rewrite Z.shiftr_div_pow2 by lia. euclid. Qed.

Lemma sextet2 a b : is_byte b -> Z.lor (Z.shiftl (Z.land a 3) 4) (Z.shiftr b 4) = a mod 4 * 16 + b / 16.
Proof. unfold is_byte. intros. bits_arith. Qed.

Lemma sextet2_end a : Z.shiftl (Z.land a 3) 4 = a mod 4 * 16.
Proof. bits_arith. Qed.

Lemma sextet3 b c : is_byte c -> Z.lor (Z.shiftl (Z.land b 15) 2) (Z.shiftr c 6) = b mod 16 * 4 + c / 64.
Proof. unfold is_byte. intros. bits_arith. Qed.

Lemma sextet3_end b : Z.shiftl (Z.land b 15) 2 = b mod 16 * 4.
Proof. bits_arith. Qed.

Lemma sextet4 c : 0 <= Z.land c 63 < 64.
Proof. rewrite land63. euclid. Qed.

(** The three bytes back from the sextets; [r] is what the second byte, or the
    zero padding, left in the sextet. *)
Lemma byte1 a r : is_byte a -> 0 <= r < 16 ->
  Z.lor (Z.shiftl (Z.shiftr a 2) 2) (Z.shiftr (a mod 4 * 16 + r) 4) = a.
Proof. unfold is_byte. intros. bits_arith. Qed.

Lemma byte2 a b r : is_byte b -> 0 <= r < 4 ->
  Z.lor (Z.shiftl (Z.land (a mod 4 * 16 + b / 16) 15) 4) (Z.shiftr (b mod 16 * 4 + r) 2) = b.
Proof. unfold is_byte. intros. bits_arith. Qed.

Lemma byte3 b c : is_byte c ->
  Z.lor (Z.shiftl (Z.land (b mod 16 * 4 + c / 64) 3) 6) (Z.land c 63) = c.
Proof. unfold is_byte. intros. bits_arith. Qed.

End Bits.

(** ** Round trip *)

Section RoundTrip.

(** The sextets the groups of [l] consist of, and the number of "=" after
    them. *)
Fixpoint group_sextets (l : list Z) : list Z :=
  match l with
  | a :: b :: c :: r =>
      Z.shiftr a 2 :: (a mod 4 * 16 + b / 16) :: (b mod 16 * 4 + c / 64) :: Z.land c 63 :: group_sextets r
  | [a; b] => [Z.shiftr a 2; a mod 4 * 16 + b / 16; b mod 16 * 4]
  | [a] => [Z.shiftr a 2; a mod 4 * 16]
  | [] => []
  end.

Fixpoint group_padding (l : list Z) : nat :=
  match l with
  | _ :: _ :: _ :: r => group_padding r
  | [_; _] => 1
  | [_] => 2
  | [] => 0
  end.

(** The character of a sextet. *)
Definition sym (i : Z) : ascii := List.nth (Z.to_nat i) base64abc "A"%char.

(** The alphabet: 64 characters, none white space or "=", each at its index. *)
Lemma alphabet i : 0 <= i < 64 ->
  abc i = String (sym i) EmptyString /\ index_of (sym i) base64abc = Some i /\
  is_ascii_space (sym i) = false /\ sym i <> "="%char.
Proof.
  intros Hi. replace i with (Z.of_nat (Z.to_nat i)) by lia.
  assert (Hn : (Z.to_nat i < 64)%nat) by lia. revert Hn. generalize (Z.to_nat i). clear. intros n Hn.
  do 64 (destruct n as [|n]; [by repeat split|]). lia.
Qed.

Definition sextet_ok (i : Z) : Prop := 0 <= i < 64.

(** Induction in steps of three. *)
Lemma list_ind3 (P : list Z -> Prop) :
  P [] -> (forall a, P [a]) -> (forall a b, P [a; b]) ->
  (forall a b c r, P r -> P (a :: b :: c :: r)) -> forall l, P l.
Proof.
  intros H0 H1 H2 H3. fix IH 1. intros [|a [|b [|c r]]]; [exact H0|exact (H1 a)|exact (H2 a b)|exact (H3 a b c r (IH r))].
Qed.

Lemma group_sextets_ok l : List.Forall is_byte l -> List.Forall sextet_ok (group_sextets l).
Proof.
  assert (Hr1 : forall a, sextet_ok (a mod 4 * 16)) by (intros; unfold sextet_ok; Z.to_euclidean_division_equations; lia).
  assert (Hr2 : forall a b, is_byte b -> sextet_ok (a mod 4 * 16 + b / 16))
    by (unfold is_byte, sextet_ok; intros; Z.to_euclidean_division_equations; lia).
  assert (Hr3 : forall b, sextet_ok (b mod 16 * 4)) by (intros; unfold sextet_ok; Z.to_euclidean_division_equations; lia).
  assert (Hr4 : forall b c, is_byte c -> sextet_ok (b mod 16 * 4 + c / 64))
    by (unfold is_byte, sextet_ok; intros; Z.to_euclidean_division_equations; lia).
  induction l as [|a|a b|a b c r IH] using list_ind3; cbn [group_sextets]; rewrite ?List.Forall_cons_iff;
    intros H; decompose [and] H; repeat (simple apply conj); auto using List.Forall_nil;
    solve [by apply sextet1 | by apply sextet4].
Qed.

Lemma abc_sym i : sextet_ok i -> abc i = String (sym i) EmptyString.
Proof. intros Hi. apply (alphabet i Hi). Qed.

Lemma encode_groups_chars l : List.Forall is_byte l ->
  list_ascii_of_string (encode_groups l) =
    (List.map sym (group_sextets l) ++ List.repeat "="%char (group_padding l))%list.
Proof.
  intros Hl. pose proof (group_sextets_ok l Hl) as Hs. revert Hl Hs.
  induction l as [|a|a b|a b c r IH] using list_ind3; cbn [group_sextets encode_groups group_padding];
    rewrite ?List.Forall_cons_iff; intros Hl Hs; decompose [and] Hl; decompose [and] Hs;
    rewrite ?sextet2, ?sextet3, ?sextet2_end, ?sextet3_end by done;
    rewrite ?abc_sym by done; [reflexivity..|].
  cbn [List.map app]. rewrite <- IH by done. reflexivity.
Qed.

(** The length of the output is a multiple of four, and of the sextets alone
    never one more than a multiple. *)
Lemma group_lengths l :
  ((List.length (group_sextets l) + group_padding l) mod 4 = 0 /\ List.length (group_sextets l) mod 4 <> 1 /\
   List.length (group_sextets l) + group_padding l = 4 * ((List.length l + 2) / 3) /\
   group_padding l <= 2)%nat.
Proof.
  induction l as [|a|a b|a b c r (IH1 & IH2 & IH3 & IH4)] using list_ind3; [simpl; lia..|].
  cbn [group_sextets group_padding List.length].
  replace (S (S (S (S (List.length (group_sextets r))))) + group_padding r)%nat
    with ((List.length (group_sextets r) + group_padding r) + 1 * 4)%nat by lia.
  replace (S (S (S (S (List.length (group_sextets r))))))%nat
    with (List.length (group_sextets r) + 1 * 4)%nat by lia.
  replace (S (S (S (List.length r))) + 2)%nat with (List.length r + 2 + 1 * 3)%nat by lia.
  rewrite !Nat.Div0.mod_add, Nat.div_add by lia. repeat split; auto. lia.
Qed.

Lemma strip_padding_app l n :
  List.Forall sextet_ok l -> (n <= 2)%nat ->
  strip_padding (List.map sym l ++ List.repeat "="%char n)%list = List.map sym l.
Proof.
  intros Hl Hn. unfold strip_padding.
  rewrite List.rev_app_distr, <- List.map_rev. apply List.Forall_rev in Hl.
  assert (Hr : rev (rev l) = l) by apply List.rev_involutive. revert Hl Hr.
  generalize (rev l). intros rl Hl <-.
  assert (Hne : match List.map sym rl with "="%char :: _ => False | _ => True end).
  { destruct rl as [|x rl]; [done|]. inv Hl. destruct (alphabet x ltac:(done)) as (_ & _ & _ & Hx).
    simpl. destruct (sym x) as [[] [] [] [] [] [] [] []]; done. }
  rewrite !List.map_rev.
  destruct n as [|[|[|n]]]; [| | |lia]; simpl;
    destruct (List.map sym rl) as [|[[] [] [] [] [] [] [] []] m]; simpl; rewrite ?app_nil_r; done.
Qed.

Lemma sextets_map l : List.Forall sextet_ok l -> sextets (List.map sym l) = Some l.
Proof.
  induction 1 as [|x l Hx _ IH]; [done|]; cbn [List.map sextets].
  destruct (alphabet x Hx) as (_ & -> & _ & _). by rewrite IH.
Qed.

Lemma sextets_bytes_groups l : List.Forall is_byte l -> sextets_bytes (group_sextets l) = l.
Proof.
  induction l as [|a|a b|a b c r IH] using list_ind3; cbn [group_sextets sextets_bytes];
    rewrite ?List.Forall_cons_iff; intros H; decompose [and] H; [done| | |].
  - pose proof (byte1 a 0) as Hb. rewrite Z.add_0_r in Hb. by rewrite Hb by (auto; lia).
  - rewrite byte1 by (unfold is_byte in *; auto; Z.to_euclidean_division_equations; lia).
    pose proof (byte2 a b 0) as Hb. rewrite Z.add_0_r in Hb. by rewrite Hb by (auto; lia).
  - rewrite byte1, byte2, byte3, IH by (unfold is_byte in *; auto; Z.to_euclidean_division_equations; lia). done.
Qed.

Lemma filter_no_space l n : List.Forall sextet_ok l ->
  List.filter (fun c => negb (is_ascii_space c)) (List.map sym l ++ List.repeat "="%char n)%list
    = (List.map sym l ++ List.repeat "="%char n)%list.
Proof.
  induction 1 as [|x l Hx _ IH]; simpl.
  - induction n as [|n IHn]; simpl; [done|]. by rewrite IHn.
  - destruct (alphabet x Hx) as (_ & _ & -> & _). simpl. by rewrite IH.
Qed.

End RoundTrip.

(** ** The properties of the component *)

(** Claim C36. The index loop of [encode], with its two tail cases, computes the
    group-by-group base64 encoding of the bytes, for every input. *)
Theorem encode_is_groups (l : list Z) : encode l = encode_groups l.
Proof. apply encode_eq_groups. Qed.

(** Decoding what [encode] produced gives the bytes back: the encoder
    and the platform decoder agree on every byte string. *)
Theorem decode_encode (l : list Z) : List.Forall is_byte l -> decode (encode l) = Some l.
Proof.
  intros Hl. pose proof (group_sextets_ok l Hl) as Hs.
  destruct (group_lengths l) as (Hm & H1 & _ & Hp).
  unfold decode, atob. rewrite encode_eq_groups, encode_groups_chars, filter_no_space by done.
  rewrite length_app, List.length_map, List.repeat_length, (proj2 (Nat.eqb_eq _ _) Hm).
  rewrite strip_padding_app, List.length_map, (proj2 (Nat.eqb_neq _ _) H1) by done.
  rewrite sextets_map by done. simpl. by rewrite sextets_bytes_groups.
Qed.

Lemma decode_encode_witness : decode (encode [77; 97; 110; 255]) = Some [77; 97; 110; 255].
Proof. apply decode_encode. repeat (apply List.Forall_cons; [unfold is_byte; lia|]). apply List.Forall_nil. Defined.

(** The encoding of n bytes has 4 * ceil(n / 3) characters. *)
Theorem encode_length (l : list Z) :
  List.Forall is_byte l -> String.length (encode l) = (4 * ((List.length l + 2) / 3))%nat.
Proof.
  intros Hl. destruct (group_lengths l) as (_ & _ & <- & _).
  rewrite encode_eq_groups. pose proof (f_equal (@List.length _) (encode_groups_chars l Hl)) as H.
  rewrite length_app, List.length_map, List.repeat_length in H. rewrite <- H.
  clear. induction (encode_groups l) as [|c s IH]; simpl; [done|]. by rewrite IH.
Qed.

Lemma encode_length_witness : String.length (encode [1; 2; 3; 4]) = 8%nat.
Proof. apply (encode_length [1; 2; 3; 4]). repeat (apply List.Forall_cons; [unfold is_byte; lia|]). apply List.Forall_nil. Defined.
