(* ===== verification/Helpers.v ===== *)
(** * Redirects, durations and slugs

    web/apps/dashboard/lib/auth/redirect-utils.ts, lib/duration.ts and
    lib/slugify.ts: three helpers on text that comes from outside, with what a
    browser does with a redirect target as the specification of the first. *)

From Stdlib Require Import ZArith Bool Ascii String Lia.
From stdpp Require Import base list strings.
From S2P Require Import Prelude.

(** ** Redirect targets *)

Module Redirect.

Local Open Scope string_scope.

Definition is_alnum (c : ascii) : bool :=
  let n := nat_of_ascii c in
  ((48 <=? n) && (n <=? 57) || (65 <=? n) && (n <=? 90) || (97 <=? n) && (n <=? 122))%nat.

(** The character class of the segments. *)
Definition safe_char (c : ascii) : bool := is_alnum c || Str.has_char c "-._~!$&'()*+,;=@%".

(** The segments after the first: an empty one only at the end. *)
Fixpoint safe_segments (l : list string) : bool :=
  match l with
  | [] => true
  | [s] => String.eqb s "" || Str.all_chars safe_char s
  | s :: l' => negb (String.eqb s "") && Str.all_chars safe_char s && safe_segments l'
  end.

Definition first_part (sep : ascii) (s : string) : string := Js.coalesce (hd_error (Str.split_on sep s)) "".

Definition isSafeRedirectPath (url : string) : bool :=
  if negb (String.prefix "/" url) || String.prefix "//" url then false
  else
    let pathOnly := first_part "#" (first_part "?" url) in
    safe_segments (List.tl (Str.split_on "/" pathOnly)).

(** [url] is [None] when the value is not a string. *)
Definition sanitizeRedirectPath (url : option string) (fallback : string) : string :=
  match url with
  | Some u => if isSafeRedirectPath u then u else fallback
  | None => fallback
  end.

Definition default_fallback : string := "/apis".

(** What a browser does with the target before it resolves it: control characters
    and spaces are cut at both ends, tabs and line ends are dropped everywhere. *)
Definition is_c0_or_space (c : ascii) : bool := (nat_of_ascii c <=? 32)%nat.
Definition is_dropped (c : ascii) : bool :=
  let n := nat_of_ascii c in ((n =? 9) || (n =? 10) || (n =? 13))%nat.

Fixpoint cut_start (s : string) : string :=
  match s with "" => "" | String c r => if is_c0_or_space c then cut_start r else s end.

Fixpoint cut_end (s : string) : string :=
  match s with
  | "" => ""
  | String c r => match cut_end r with "" => if is_c0_or_space c then "" else String c "" | t => String c t end
  end.

Fixpoint drop_breaks (s : string) : string :=
  match s with "" => "" | String c r => if is_dropped c then drop_breaks r else String c (drop_breaks r) end.

Definition prepared (s : string) : string := drop_breaks (cut_end (cut_start s)).

(** The target is resolved as a path of the current origin: it starts with a slash
    that no slash or backslash follows, which would start an authority. *)
Definition same_origin (s : string) : bool :=
  match prepared s with
  | String "/" (String c _) => negb (Ascii.eqb c "/" || Nat.eqb (nat_of_ascii c) 92)
  | String "/" "" => true
  | _ => false
  end.

Lemma first_part_cons sep c s : c <> sep -> first_part sep (String c s) = String c (first_part sep s).
Proof.
  intros Hc. unfold first_part. cbn [Str.split_on]. destruct (Ascii.eqb_spec c sep); [done|].
  destruct (Str.split_on sep s) as [|p ps] eqn:E; [by apply StrFacts.split_on_ne in E|done].
Qed.

Lemma first_part_here sep s : first_part sep (String sep s) = "".
Proof. unfold first_part. cbn [Str.split_on]. by rewrite Ascii.eqb_refl. Qed.

(** A segment that starts with [c] accepts it only when it is safe. *)
Lemma safe_first c s rest : safe_segments (String c s :: rest) = true -> safe_char c = true.
Proof. destruct rest; cbn; intros H; by repeat (apply andb_prop in H as [H ?]). Qed.

(** The character after the leading slash. *)
Lemma second_char c r :
  isSafeRedirectPath (String "/" (String c r)) = true ->
  safe_char c = true \/ c = "?"%char \/ c = "#"%char.
Proof.
  unfold isSafeRedirectPath. destruct (Ascii.eqb_spec c "?") as [->|Hq]; [auto|]. destruct (Ascii.eqb_spec c "#") as [->|Hh]; [auto|].
  intros H. left. destruct (negb _ || _) eqn:Ep; [done|]. apply orb_false_iff in Ep as [_ Ep].
  assert (Hs : c <> "/"%char) by (intros ->; cbn in Ep; by destruct r).
  rewrite !first_part_cons in H by done. cbn [Str.split_on] in H. rewrite Ascii.eqb_refl in H.
  destruct (Ascii.eqb_spec c "/"); [done|]. cbn [List.tl] in H.
  destruct (Str.split_on "/" (first_part "#" (first_part "?" r))) as [|p ps]; by apply safe_first in H.
Qed.

(** Such a character is neither dropped nor starts an authority. *)
Lemma safe_char_plain c :
  safe_char c = true \/ c = "?"%char \/ c = "#"%char ->
  is_c0_or_space c = false /\ is_dropped c = false /\ Ascii.eqb c "/" = false /\ Nat.eqb (nat_of_ascii c) 92 = false.
Proof.
  intros [H|[->| ->]]; [|repeat split..]. revert H. destruct c as [[] [] [] [] [] [] [] []]; vm_compute; intros H; try discriminate H; repeat split.
Qed.

Lemma cut_end_cons c s : is_c0_or_space c = false -> exists t, cut_end (String c s) = String c t /\ (s = "" -> t = "").
Proof. intros Hc. cbn. destruct (cut_end s) eqn:E; [rewrite Hc; by exists ""|]. eexists. split; [done|]. intros ->. cbn in E. done. Qed.

(** A slash and such a character. *)
Lemma plain_same_origin c r :
  safe_char c = true \/ c = "?"%char \/ c = "#"%char -> same_origin (String "/" (String c r)) = true.
Proof.
  intros H. unfold same_origin, prepared. cbn [cut_start]. change (is_c0_or_space "/") with false. cbv iota.
  apply safe_char_plain in H as (H1 & H2 & H3 & H4).
  cbn [cut_end]. destruct (cut_end_cons c r H1) as (t & Et & _). cbn [cut_end] in Et. rewrite Et. cbn [drop_breaks].
  change (is_dropped "/") with false. rewrite H2, H3, H4. done.
Qed.

Lemma safe_starts_slash u : isSafeRedirectPath u = true -> exists r, u = String "/" r.
Proof.
  destruct u as [|a r]; [done|]. intros H. exists r. f_equal.
  unfold isSafeRedirectPath in H. destruct (negb _ || _) eqn:E; [done|]. apply orb_false_iff in E as [E _].
  apply negb_false_iff in E. cbn [String.prefix] in E. destruct (ascii_dec "/" a); [congruence|discriminate].
Qed.

Lemma safe_same_origin u : isSafeRedirectPath u = true -> same_origin u = true.
Proof.
  intros H. destruct (safe_starts_slash u H) as [[|c r] ->]; [done|]. by apply plain_same_origin, (second_char c r).
Qed.

Lemma sanitized_same_origin (url : option string) (fallback : string) :
  let target := sanitizeRedirectPath url fallback in same_origin target = true \/ target = fallback.
Proof.
  intros target. subst target. unfold sanitizeRedirectPath. destruct url as [u|]; [|by right].
  destruct (isSafeRedirectPath u) eqn:H; [left; by apply safe_same_origin|by right].
Qed.

(** A redirect target that passes the check stays on the site. Whatever the
    string, with whatever control characters, line ends or backslashes in it, when
    [isSafeRedirectPath] accepts it a browser resolves it as a path of the current
    origin; and what [sanitizeRedirectPath] returns is such a target, or the
    fallback. *)
Theorem safe_redirect_same_origin (url : option string) (fallback : string) :
  let target := sanitizeRedirectPath url fallback in same_origin target = true \/ target = fallback.
Proof. exact (sanitized_same_origin url fallback). Qed.

End Redirect.

(** ** Durations *)

Module Duration.

Local Open Scope Z_scope.

Definition s : Z := 1000.
Definition m : Z := s * 60.
Definition h : Z := m * 60.
Definition d : Z := h * 24.

Definition units : list (string * Z) :=
  [("ms"%string, 1); ("millisecond"%string, 1); ("milliseconds"%string, 1);
   ("s"%string, s); ("sec"%string, s); ("second"%string, s); ("seconds"%string, s);
   ("m"%string, m); ("min"%string, m); ("minute"%string, m); ("minutes"%string, m);
   ("h"%string, h); ("hr"%string, h); ("hour"%string, h); ("hours"%string, h);
   ("d"%string, d); ("day"%string, d); ("days"%string, d)].

(** What [units[name]] finds: an own entry, a property of Object.prototype, or
    nothing. *)
Inductive unit_value := OwnUnit (factor : Z) | Inherited | NoUnit.

(** The property names of Object.prototype. *)
Definition object_prototype : list string :=
  ["constructor"; "__defineGetter__"; "__defineSetter__"; "hasOwnProperty"; "__lookupGetter__"; "__lookupSetter__";
   "isPrototypeOf"; "propertyIsEnumerable"; "toString"; "valueOf"; "__proto__"; "toLocaleString"]%string.

Definition lookup_unit (name : string) : unit_value :=
  match List.find (fun u => String.eqb (fst u) name) units with
  | Some (_, f) => OwnUnit f
  | None => if Js.includes object_prototype name then Inherited else NoUnit
  end.

Definition is_letter (c : ascii) : bool :=
  let n := nat_of_ascii c in ((65 <=? n) && (n <=? 90) || (97 <=? n) && (n <=? 122))%nat.

(** The longest prefix of characters in the class, and the rest. *)
Fixpoint span (p : ascii -> bool) (t : string) : string * string :=
  match t with
  | EmptyString => (EmptyString, EmptyString)
  | String c r => if p c then let '(a, b) := span p r in (String c a, b) else (EmptyString, t)
  end.

(** [/^(\d+)\s*([a-z]+)$/i.exec(t)]. *)
Definition exec (t : string) : option (string * string) :=
  let '(digits, r) := span NumFacts.is_digit t in
  let '(_, unit) := span Str.is_space r in
  if String.eqb digits EmptyString || String.eqb unit EmptyString || negb (Str.all_chars is_letter unit) then None
  else Some (digits, unit).

(** The milliseconds; [None] is NaN. The product is the one of the code up to 2^53,
    where its numbers are exact. *)
Definition parseDuration (str : string) : option Z :=
  match exec (Str.trim str) with
  | None => Some 0
  | Some (digits, unit) =>
      match Num.parseInt digits, lookup_unit (Str.to_lower unit) with
      | Some n, OwnUnit f => if Js.truthy_Z f then Some (n * f) else Some 0
      | Some n, NoUnit => Some 0
      | _, _ => None
      end
  end.

Example duration_days : parseDuration " 7d " = Some 604800000.
Proof. reflexivity. Qed.

Lemma span_app p a b :
  Str.all_chars p a = true -> (forall c r, b = String c r -> p c = false) -> span p (a +:+ b) = (a, b).
Proof.
  intros Ha Hb. induction a as [|c a IH]; cbn in *.
  - change (EmptyString +:+ b) with b. destruct b as [|c r]; [done|]. cbn. by rewrite (Hb c r).
  - apply andb_prop in Ha as [Hc Ha]. rewrite StrFacts.string_app_cons. cbn. by rewrite Hc, IH.
Qed.

(** A unit is letters, starts with a lower-case one and is found under its own name. *)
Lemma unit_shape name f :
  In (name, f) units ->
  (exists c r, name = String c r /\ NumFacts.is_digit c = false /\ Str.is_space c = false) /\ Str.all_chars is_letter name = true
  /\ Str.to_lower name = name /\ lookup_unit name = OwnUnit f /\ 0 < f /\ Str.trim_end name = name.
Proof.
  intros H. repeat (destruct H as [H|H]; [injection H as <- <-; split; [by eexists _, _|by vm_compute]|]). done.
Qed.

Lemma trim_end_app a b : b <> EmptyString -> Str.trim_end b = b -> Str.trim_end (a +:+ b) = a +:+ b.
Proof.
  intros Hb E. induction a as [|c a IH]; [done|]. rewrite StrFacts.string_app_cons. cbn [Str.trim_end]. rewrite IH.
  destruct (a +:+ b) as [|x y] eqn:Ex; [|done]. exfalso. apply Hb. by destruct a; [|discriminate Ex].
Qed.

Lemma digit_not_space c : NumFacts.is_digit c = true -> Str.is_space c = false.
Proof. destruct c as [[] [] [] [] [] [] [] []]; vm_compute; intros H; try discriminate H; done. Qed.

Lemma space_not_digit c : Str.is_space c = true -> NumFacts.is_digit c = false.
Proof. destruct c as [[] [] [] [] [] [] [] []]; vm_compute; intros H; try discriminate H; done. Qed.

(** A duration is the number times its unit. A number of at least zero, any
    amount of white space and any of the unit names read as the number times the
    milliseconds of the unit, as long as the numbers are exact. *)
Theorem parseDuration_reads (n f : Z) (blank name : string) :
  0 <= n -> n * f <= 2 ^ 53 -> Str.all_chars Str.is_space blank = true -> In (name, f) units ->
  parseDuration (Num.string_of_Z n +:+ blank +:+ name) = Some (n * f).
Proof.
  intros Hn _ Hb Hu. destruct (unit_shape name f Hu) as ((c & r & Ename & Hcd & Hcs) & Hl & Hlow & Hlook & Hf & Htrim).
  assert (Ez : Num.string_of_Z n = Num.print n) by (unfold Num.string_of_Z; destruct (Z.ltb_spec n 0); [lia|done]).
  destruct (NumFacts.print_spec n Hn) as (Hd & Hne & _). rewrite Ez.
  assert (Et : Str.trim (Num.print n +:+ blank +:+ name) = Num.print n +:+ blank +:+ name).
  { unfold Str.trim. assert (Es : Str.trim_start (Num.print n +:+ blank +:+ name) = Num.print n +:+ blank +:+ name).
    { destruct (Num.print n) as [|x y]; [done|]. rewrite StrFacts.string_app_cons. cbn in *. apply andb_prop in Hd as [Hx _].
      by rewrite digit_not_space. }
    rewrite Es, <- StrFacts.string_app_assoc. apply trim_end_app; [by rewrite Ename|done]. }
  unfold parseDuration, exec. rewrite Et, span_app; [|done|].
  - rewrite span_app by (rewrite ?Ename; try done; by intros x y [= -> ->]).
    replace (String.eqb (Num.print n) EmptyString) with false by (symmetry; by apply String.eqb_neq).
    replace (String.eqb name EmptyString) with false by (by rewrite Ename). rewrite Hl. cbn [orb negb].
    rewrite <- Ez, NumFacts.parseInt_string_of_Z, Hlow, Hlook. replace (Js.truthy_Z f) with true; [done|].
    unfold Js.truthy_Z. destruct (Z.eqb_spec f 0); [lia|done].
  - intros x y E. destruct blank as [|b blank]; [change (EmptyString +:+ name) with name in E; rewrite Ename in E; by injection E as <- _|].
    rewrite StrFacts.string_app_cons in E. injection E as <- _. cbn in Hb. apply andb_prop in Hb as [Hb _]. by apply space_not_digit.
Qed.

Lemma parseDuration_reads_witness : parseDuration "24 hours" = Some 86400000.
Proof. exact (parseDuration_reads 24 h " " "hours" ltac:(lia) ltac:(vm_compute; discriminate) eq_refl ltac:(cbn; tauto)). Defined.

(** One unit name that is none is not rejected. Text that is not a duration
    reads as 0, but "constructor" is found on the prototype of the table of units,
    and the result is not a number. *)
Theorem parseDuration_inherited :
  parseDuration "5 constructor" = None /\ parseDuration "5 fortnights" = Some 0 /\ parseDuration "soon" = Some 0.
Proof. repeat split. Qed.

End Duration.

(** ** Slugs *)

Module Slug.

Definition is_dash (c : ascii) : bool := Ascii.eqb c "-".

(** [[a-z0-9]]. *)
Definition is_lower_alnum (c : ascii) : bool :=
  let n := nat_of_ascii c in ((48 <=? n) && (n <=? 57) || (97 <=? n) && (n <=? 122))%nat.

(** [.replace(/[^a-z0-9\s-]/g, "")]. *)
Fixpoint keep_allowed (t : string) : string :=
  match t with
  | EmptyString => EmptyString
  | String c r => if is_lower_alnum c || Str.is_space c || is_dash c then String c (keep_allowed r) else keep_allowed r
  end.

(** A run of characters of the class becomes one dash; [prev] tells whether the
    character before was in it. *)
Fixpoint dash_runs (p : ascii -> bool) (prev : bool) (t : string) : string :=
  match t with
  | EmptyString => EmptyString
  | String c r =>
      if p c then (if prev then dash_runs p true r else String "-" (dash_runs p true r)) else String c (dash_runs p false r)
  end.

(** [.replace(/^-|-$/g, "")]. *)
Definition strip_start (t : string) : string := match t with String c r => if is_dash c then r else t | EmptyString => t end.
Fixpoint strip_end (t : string) : string :=
  match t with
  | EmptyString => EmptyString
  | String c EmptyString => if is_dash c then EmptyString else t
  | String c r => String c (strip_end r)
  end.

Definition slugify (text : string) : string :=
  strip_end (strip_start (dash_runs is_dash false (dash_runs Str.is_space false (keep_allowed (Str.trim (Str.to_lower text)))))).

Example slug_words : slugify "  Hello,  World -- 2! " = "hello-world-2"%string.
Proof. reflexivity. Qed.

(** Lower-case letters, digits and single dashes between them. *)
Definition slug_char (c : ascii) : bool := is_lower_alnum c || is_dash c.

Fixpoint no_double (prev : bool) (t : string) : bool :=
  match t with EmptyString => true | String c r => negb (prev && is_dash c) && no_double (is_dash c) r end.

Fixpoint ends_dash (t : string) : bool :=
  match t with EmptyString => false | String c EmptyString => is_dash c | String _ r => ends_dash r end.

Definition is_slug (t : string) : bool := Str.all_chars slug_char t && no_double true t && negb (ends_dash t).

Lemma keep_chars t : Str.all_chars (fun c => slug_char c || Str.is_space c) (keep_allowed t) = true.
Proof.
  induction t as [|c r IH]; [done|]. cbn. destruct (is_lower_alnum c || Str.is_space c || is_dash c) eqn:E; [|done]. cbn. rewrite IH.
  unfold slug_char. destruct (is_lower_alnum c), (Str.is_space c), (is_dash c); done.
Qed.

Lemma blank_chars prev t :
  Str.all_chars (fun c => slug_char c || Str.is_space c) t = true -> Str.all_chars slug_char (dash_runs Str.is_space prev t) = true.
Proof.
  revert prev. induction t as [|c r IH]; intros prev H; [done|]. cbn in H. apply andb_prop in H as [Hc H]. cbn.
  destruct (Str.is_space c) eqn:E; [destruct prev; cbn; by apply IH|]. cbn. rewrite orb_false_r in Hc. by rewrite Hc, IH.
Qed.

Lemma dash_chars prev t : Str.all_chars slug_char t = true -> Str.all_chars slug_char (dash_runs is_dash prev t) = true.
Proof.
  revert prev. induction t as [|c r IH]; intros prev H; [done|]. cbn in H. apply andb_prop in H as [Hc H]. cbn.
  destruct (is_dash c) eqn:E; [destruct prev; cbn; by apply IH|]. cbn. by rewrite Hc, IH.
Qed.

Lemma dash_no_double prev t : no_double prev (dash_runs is_dash prev t) = true.
Proof.
  revert prev. induction t as [|c r IH]; intros prev; [done|]. cbn.
  destruct (is_dash c) eqn:E; [destruct prev; cbn; apply IH|]. cbn. rewrite E, andb_false_r. apply IH.
Qed.

Lemma strip_start_slug t :
  Str.all_chars slug_char t = true -> no_double false t = true ->
  Str.all_chars slug_char (strip_start t) = true /\ no_double true (strip_start t) = true.
Proof.
  destruct t as [|c r]; [done|]. cbn. intros [Hc H]%andb_prop Hd. destruct (is_dash c) eqn:E; [done|]. cbn. rewrite E, Hc, H. done.
Qed.

Lemma strip_end_slug prev t :
  Str.all_chars slug_char t = true -> no_double prev t = true ->
  Str.all_chars slug_char (strip_end t) = true /\ no_double prev (strip_end t) = true /\ ends_dash (strip_end t) = false.
Proof.
  revert prev. induction t as [|c r IH]; intros prev Ha Hd; [done|]. cbn in Ha, Hd. apply andb_prop in Ha as [Hc Ha]. apply andb_prop in Hd as [Hp Hd].
  destruct r as [|c' r].
  - cbn. destruct (is_dash c) eqn:E; [done|]. cbn. by rewrite Hc, E, andb_false_r.
  - destruct (IH (is_dash c) Ha Hd) as (H1 & H2 & H3). cbn [strip_end]. cbn [strip_end] in H1, H2, H3.
    cbn [Str.all_chars no_double]. rewrite Hc, Hp, H1, H2. split; [done|]. split; [done|].
    destruct r as [|c'' r]; cbn [strip_end] in *.
    + cbn in Hd. apply andb_prop in Hd as [Hd _]. destruct (is_dash c') eqn:E; [|cbn; by rewrite E].
      rewrite andb_true_r in Hd. cbn. by apply negb_true_iff.
    + exact H3.
Qed.

(** Each step leaves a slug alone. *)
Lemma slug_char_facts c : slug_char c = true -> Str.to_lower_char c = c /\ Str.is_space c = false.
Proof. destruct c as [[] [] [] [] [] [] [] []]; vm_compute; intros H; try discriminate H; done. Qed.

Lemma slug_steps t :
  Str.all_chars slug_char t = true ->
  Str.to_lower t = t /\ Str.trim_start t = t /\ Str.trim_end t = t /\ keep_allowed t = t /\ dash_runs Str.is_space false t = t.
Proof.
  induction t as [|c r IH]; [done|]. cbn. intros [Hc H]%andb_prop. destruct (slug_char_facts c Hc) as [Hl Hs].
  destruct (IH H) as (H1 & H2 & H3 & H4 & H5). rewrite Hl, Hs, H1, H3, H4, H5.
  replace (is_lower_alnum c || false || is_dash c) with true by (unfold slug_char in Hc; by rewrite orb_false_r).
  repeat split. by destruct r.
Qed.

Lemma dash_runs_slug prev t : no_double prev t = true -> dash_runs is_dash prev t = t.
Proof.
  revert prev. induction t as [|c r IH]; intros prev H; [done|]. cbn in H. apply andb_prop in H as [Hp H]. cbn.
  destruct (is_dash c) eqn:E; [|by rewrite IH]. rewrite andb_true_r in Hp. apply negb_true_iff in Hp. subst prev. rewrite IH by done.
  by apply Ascii.eqb_eq in E as ->.
Qed.

Lemma no_double_weaken t : no_double true t = true -> no_double false t = true /\ strip_start t = t.
Proof. destruct t as [|c r]; [done|]. cbn. intros [Hc H]%andb_prop. rewrite H. apply negb_true_iff in Hc. by rewrite Hc. Qed.

Lemma strip_end_slug_id t : ends_dash t = false -> strip_end t = t.
Proof. induction t as [|c r IH]; [done|]. intros H. destruct r as [|c' r]; cbn in *; [by rewrite H|]. by rewrite IH. Qed.

Lemma slugify_slug t : is_slug t = true -> slugify t = t.
Proof.
  unfold is_slug. intros [[Ha Hd]%andb_prop He]%andb_prop. apply negb_true_iff in He. unfold slugify, Str.trim.
  destruct (slug_steps t Ha) as (-> & -> & -> & -> & ->). destruct (no_double_weaken t Hd) as [Hd' Hs].
  by rewrite dash_runs_slug, Hs, strip_end_slug_id.
Qed.

Lemma is_slug_slugify t : is_slug (slugify t) = true.
Proof.
  unfold slugify, is_slug.
  assert (H := strip_start_slug _ (dash_chars false _ (blank_chars false _ (keep_chars (Str.trim (Str.to_lower t))))) (dash_no_double false _)).
  destruct H as [H1 H2]. destruct (strip_end_slug true _ H1 H2) as (-> & -> & ->). done.
Qed.

(** A slug is a slug. Whatever the text, [slugify] yields lower-case letters
    and digits with single dashes between them, none at an end, and it leaves
    exactly those strings alone; so making a slug of a slug changes nothing. *)
Theorem slugify_canonical (text : string) :
  is_slug (slugify text) = true /\ slugify (slugify text) = slugify text /\ (slugify text = text <-> is_slug text = true).
Proof.
  split; [apply is_slug_slugify|]. split; [apply slugify_slug, is_slug_slugify|]. split; [|apply slugify_slug].
  intros <-. apply is_slug_slugify.
Qed.

End Slug.
