(* ===== verification/Links.v ===== *)
(** * Links and references

    web/apps/dashboard/lib/navigation/url.ts, lib/github-url.ts, lib/deploy-ref.ts and
    lib/shorten-id.ts: the links the dashboard writes, what it makes of the text a user
    gives for a deployment, and how it shortens identifiers. A regular expression on a
    GitHub URL is a test of its parts between slashes. *)

From Stdlib Require Import ZArith Bool Ascii String Lia.
From stdpp Require Import base list strings.
From S2P Require Import Prelude.

Local Open Scope string_scope.

(** ** URLs *)

(** The properties of a query, in order; [None] is null or undefined. A value is its
    text. *)
Definition QueryParams : Type := list (string * option string).

Definition toQueryString (query : QueryParams) : string :=
  Str.join "&" (omap (fun '(k, v) => match v with Some v => Some (k +:+ "=" +:+ v) | None => None end) query).

Definition withQuery (base : string) (query : QueryParams) : string :=
  let qs := toQueryString query in if Js.truthy_string qs then base +:+ "?" +:+ qs else base.

Definition buildUrl (base : option string) (segments : option (list string)) (query : option QueryParams) : string :=
  let path := Str.join "/" (Js.coalesce segments []) in
  let base := Js.coalesce base EmptyString in
  let joined := if Js.truthy_string base && Js.truthy_string path then base +:+ "/" +:+ path else base +:+ path in
  match query with Some q => withQuery joined q | None => joined end.

(** ** Links to GitHub *)

Definition GITHUB_BASE : string := "https://github.com".

Definition github_repo (repoFullName : option string) : option string :=
  match repoFullName with
  | Some r => if Js.truthy_string r then Some (buildUrl (Some GITHUB_BASE) (Some [r]) None) else None
  | None => None
  end.

(** A link of a kind, when both parts are there. *)
Definition github_link (kind : string) (repoFullName part : option string) : option string :=
  match repoFullName, part with
  | Some r, Some x => if Js.truthy_string r && Js.truthy_string x then Some (buildUrl (Some GITHUB_BASE) (Some [r; kind; x]) None) else None
  | _, _ => None
  end.

Definition github_commit (repoFullName sha : option string) : option string := github_link "commit" repoFullName sha.
Definition github_branch (repoFullName branch : option string) : option string := github_link "tree" repoFullName branch.

Definition github_pull (repoFullName : option string) (prNumber : option Z) : option string :=
  github_link "pull" repoFullName (option_map Num.string_of_Z prNumber).

Definition github_deployment (repoFullName forkRepoFullName : option string) (prNumber : option Z) (sha : option string) : option string :=
  let sourceRepo := if Js.truthy forkRepoFullName then forkRepoFullName else repoFullName in
  Js.ocoalesce (github_pull repoFullName prNumber) (github_commit sourceRepo sha).

(** ** What to deploy *)

Record DeployGitSource := { src_branch : option string; src_commitSha : option string; src_repository : option string }.

Definition is_sha_char (c : ascii) : bool :=
  let n := nat_of_ascii (Str.to_lower_char c) in ((48 <=? n) && (n <=? 57) || (97 <=? n) && (n <=? 102))%nat.

(** [SHA_PATTERN] *)
Definition is_sha (s : string) : bool := Nat.eqb (String.length s) 40 && Str.all_chars is_sha_char s.

(** The parts behind https://github.com/; [exact] compares letters as they are. *)
Definition github_parts (exact : bool) (s : string) : option (list string) :=
  match Str.split_on "/" s with
  | scheme :: blank :: host :: parts =>
      let same (a b : string) := if exact then String.eqb a b else String.eqb (Str.to_lower a) b in
      if (same scheme "https:" || same scheme "http:") && String.eqb blank EmptyString && same host "github.com" then Some parts else None
  | _ => None
  end.

Definition is_number (s : string) : bool := Js.truthy_string s && Str.all_chars NumFacts.is_digit s.

(** [PR_URL] *)
Definition is_pr_url (s : string) : bool :=
  match github_parts true s with
  | Some (owner :: repo :: kind :: n :: tail) =>
      Js.truthy_string owner && Js.truthy_string repo && String.eqb kind "pull" && is_number n
      && match tail with [] => true | [slash] => String.eqb slash EmptyString | _ => false end
  | _ => false
  end.

(** [COMMIT_URL]: the repository and the commit. *)
Definition commit_url (s : string) : option (string * string) :=
  match github_parts false s with
  | Some [owner; repo; kind; sha] =>
      if Js.truthy_string owner && Js.truthy_string repo && String.eqb (Str.to_lower kind) "commit" && is_sha sha
      then Some (owner +:+ "/" +:+ repo, sha) else None
  | _ => None
  end.

(** A line break ends what [.+] matches. *)
Definition is_line_break (c : ascii) : bool := let n := nat_of_ascii c in ((n =? 10) || (n =? 13))%nat.

(** [TREE_URL] *)
Definition is_tree_url (s : string) : bool :=
  match github_parts true s with
  | Some (owner :: repo :: kind :: rest) =>
      let branch := Str.join "/" rest in
      Js.truthy_string owner && Js.truthy_string repo && String.eqb kind "tree" && negb (Nat.eqb (List.length rest) 0)
      && Js.truthy_string branch && Str.all_chars (fun c => negb (is_line_break c)) branch
  | _ => false
  end.

(** The text before and behind the first [c]. *)
Fixpoint split_first (c : ascii) (s : string) : option (string * string) :=
  match s with
  | EmptyString => None
  | String x r => if Ascii.eqb x c then Some (EmptyString, r) else option_map (fun '(a, b) => (String x a, b)) (split_first c r)
  end.

(** [owner:branch] *)
Definition is_fork_branch (s : string) : bool :=
  match split_first ":" s with
  | Some (owner, branch) =>
      negb (String.prefix "http" s) && Js.truthy_string owner && Js.truthy_string branch && negb (Str.has_char "/" owner)
  | None => false
  end.

Definition FORK_BRANCH_MESSAGE : string :=
  "Deploying a branch from another repository is not supported. Paste the commit SHA instead.".
Definition PR_MESSAGE : string := "Pull request URLs are not supported. Paste the commit SHA you want to deploy.".

(** [inl] is the message of the UnsupportedDeployRefError that is thrown. *)
Definition parseDeployRef (raw : string) : string + DeployGitSource :=
  let trimmed := Str.trim raw in
  if is_pr_url trimmed then inl PR_MESSAGE
  else
    match commit_url trimmed with
    | Some (repository, sha) => inr {| src_branch := None; src_commitSha := Some sha; src_repository := Some repository |}
    | None =>
        if is_tree_url trimmed || is_fork_branch trimmed then inl FORK_BRANCH_MESSAGE
        else if is_sha trimmed then inr {| src_branch := None; src_commitSha := Some trimmed; src_repository := None |}
        else inr {| src_branch := Some trimmed; src_commitSha := None; src_repository := None |}
    end.

(** ** Short identifiers *)

Definition take_chars (n : nat) (s : string) : string := String.substring 0 n s.
Definition last_chars (n : nat) (s : string) : string := String.substring (String.length s - n) n s.

(** The options with their defaults filled in; [inl] is the message of an error. *)
Definition shortenId (id : string) (startChars endChars : Z) (separator : string) (minLength : option Z) : string + string :=
  let minLength := Js.coalesce minLength (startChars + endChars + 3)%Z in
  let length := Z.of_nat (String.length id) in
  if ((startChars <? 0) || (endChars <? 0))%Z then inl "startChars and endChars must be non-negative"
  else if (startChars + endChars =? 0)%Z then inl "At least one of startChars or endChars must be greater than 0"
  else if (length <=? minLength)%Z then inr id
  else if (length <=? startChars + endChars)%Z then inr id
  else
    let short (rest : string) :=
      take_chars (Z.to_nat startChars) rest +:+ separator +:+ last_chars (Z.to_nat endChars) rest in
    inr (if Str.has_char "_" id then
           match Str.split_on "_" id with
           | prefix :: rest :: _ => (if Js.truthy_string prefix then prefix +:+ "_" else EmptyString) +:+ short rest
           | _ => short id
           end
         else short id).

(** ** Links are read back *)

(** The name of an owner or of a repository: not empty, no slash, no white space. *)
Definition name_ok (s : string) : bool := Js.truthy_string s && Str.all_chars (fun c => negb (Str.is_space c) && negb (Ascii.eqb c "/")) s.

Definition no_space (c : ascii) : bool := negb (Str.is_space c).

Lemma all_chars_impl (p q : ascii -> bool) s : (forall c, p c = true -> q c = true) -> Str.all_chars p s = true -> Str.all_chars q s = true.
Proof. intros H. induction s as [|c s IH]; cbn; [done|]. intros [Hc Hs]%andb_true_iff. by rewrite (H c Hc), IH. Qed.

Lemma trim_plain s : Str.all_chars no_space s = true -> Str.trim s = s.
Proof.
  unfold Str.trim. intros H. assert (Str.trim_start s = s) as ->.
  { destruct s as [|c s]; [done|]. cbn in *. apply andb_true_iff in H as [Hc _]. unfold no_space in Hc. by destruct (Str.is_space c). }
  induction s as [|c s IH]; cbn in *; [done|]. apply andb_true_iff in H as [Hc Hs]. rewrite (IH Hs). unfold no_space in Hc.
  destruct s; [|done]. by destruct (Str.is_space c).
Qed.

Lemma name_parts s : name_ok s = true -> Js.truthy_string s = true /\ Str.all_chars no_space s = true /\ Str.has_char "/" s = false.
Proof.
  intros [Ht Ha]%andb_true_iff. split; [done|]. split.
  - eapply all_chars_impl; [|exact Ha]. intros c Hc. by apply andb_true_iff in Hc as [Hc _].
  - eapply StrFacts.all_chars_no; [|exact Ha]. done.
Qed.

Lemma hex_plain c : is_sha_char c = true -> no_space c = true /\ Ascii.eqb c "/" = false /\ Ascii.eqb c ":" = false.
Proof. by destruct c as [[] [] [] [] [] [] [] []]; vm_compute. Qed.

Lemma sha_parts sha : is_sha sha = true -> Js.truthy_string sha = true /\ Str.all_chars no_space sha = true /\ Str.has_char "/" sha = false.
Proof.
  intros [Hl%Nat.eqb_eq Ha]%andb_true_iff. split; [by destruct sha|]. split.
  - eapply all_chars_impl; [|exact Ha]. intros c Hc. apply (hex_plain c Hc).
  - eapply StrFacts.all_chars_no; [|exact Ha]. done.
Qed.

(** A link of a kind as text, and its parts. *)
Definition link_text (owner repo kind x : string) : string := "https://github.com/" +:+ (owner +:+ "/" +:+ (repo +:+ "/" +:+ (kind +:+ "/" +:+ x))).

Lemma link_built owner repo kind x : Js.truthy_string owner = true -> Js.truthy_string x = true ->
  github_link kind (Some (owner +:+ "/" +:+ repo)) (Some x) = Some (link_text owner repo kind x).
Proof.
  intros Ho Hx. unfold github_link. destruct owner as [|o os]; [done|]. rewrite Hx. rewrite StrFacts.string_app_cons. cbn [Js.truthy_string andb].
  f_equal. unfold buildUrl, link_text, Str.join. cbn [Js.coalesce String.concat]. rewrite !StrFacts.string_app_cons.
  cbn [Js.truthy_string andb GITHUB_BASE]. by rewrite !StrFacts.string_app_assoc.
Qed.

Lemma split_slash a b : Str.has_char "/" a = false -> Str.split_on "/" (a +:+ "/" +:+ b) = a :: Str.split_on "/" b.
Proof. apply StrFacts.split_on_app. Qed.

Lemma link_split owner repo kind x : Str.has_char "/" owner = false -> Str.has_char "/" repo = false -> Str.has_char "/" kind = false ->
  Str.split_on "/" (link_text owner repo kind x) = "https:" :: "" :: "github.com" :: owner :: repo :: kind :: Str.split_on "/" x.
Proof.
  intros Ho Hr Hk. unfold link_text. change (Str.split_on "/" ("https://github.com/" +:+ ?s)) with ("https:" :: "" :: "github.com" :: Str.split_on "/" s).
  by rewrite !split_slash.
Qed.

Lemma link_parts exact owner repo kind x : Str.has_char "/" owner = false -> Str.has_char "/" repo = false -> Str.has_char "/" kind = false ->
  github_parts exact (link_text owner repo kind x) = Some (owner :: repo :: kind :: Str.split_on "/" x).
Proof. intros. unfold github_parts. rewrite link_split by done. by destruct exact. Qed.

Lemma link_plain owner repo kind x : Str.all_chars no_space owner = true -> Str.all_chars no_space repo = true -> Str.all_chars no_space kind = true ->
  Str.all_chars no_space x = true -> Str.trim (link_text owner repo kind x) = link_text owner repo kind x.
Proof. intros Ho Hr Hk Hx. apply trim_plain. unfold link_text. by rewrite !StrFacts.all_chars_app, Ho, Hr, Hk, Hx. Qed.

Lemma no_space_breaks s : Str.all_chars no_space s = true -> Str.all_chars (fun c => negb (is_line_break c)) s = true.
Proof. apply all_chars_impl. intros c. by destruct c as [[] [] [] [] [] [] [] []]. Qed.

Lemma sha_not_fork sha : is_sha sha = true -> is_fork_branch sha = false.
Proof.
  intros [_ Ha]%andb_true_iff. unfold is_fork_branch. assert (split_first ":" sha = None) as ->; [|done].
  induction sha as [|c s IH]; [done|]. cbn in *. apply andb_true_iff in Ha as [Hc Hs]. destruct (hex_plain c Hc) as (_ & _ & ->). by rewrite IH.
Qed.

Lemma one_part s : Str.has_char "/" s = false -> forall exact, github_parts exact s = None.
Proof. intros H exact. unfold github_parts. by rewrite StrFacts.split_on_none. Qed.

(** What the dashboard links to on GitHub, it understands when it is pasted
    back. For a repository with names that GitHub allows: the link to a commit is read as
    that commit of that repository, with its case; the link to a pull request and the link
    to a branch, also one with slashes in its name, are refused with the message
    that fits, and never taken for the name of a branch; and a commit alone, with white space around
    it or without, is read as a commit. *)
Theorem links_read_back (owner repo : string) :
  name_ok owner = true -> name_ok repo = true ->
  let full := owner +:+ "/" +:+ repo in
  (forall sha, is_sha sha = true -> exists url, github_commit (Some full) (Some sha) = Some url
     /\ parseDeployRef url = inr {| src_branch := None; src_commitSha := Some sha; src_repository := Some full |})
  /\ (forall n, (0 <= n)%Z -> exists url, github_pull (Some full) (Some n) = Some url /\ parseDeployRef url = inl PR_MESSAGE)
  /\ (forall branch, Js.truthy_string branch = true -> Str.all_chars no_space branch = true ->
       exists url, github_branch (Some full) (Some branch) = Some url /\ parseDeployRef url = inl FORK_BRANCH_MESSAGE)
  /\ (forall sha raw, is_sha sha = true -> Str.trim raw = sha ->
       parseDeployRef raw = inr {| src_branch := None; src_commitSha := Some sha; src_repository := None |}).
Proof.
  intros (Ho & Hos & Hoc)%name_parts (Hr & Hrs & Hrc)%name_parts full. subst full. split; [|split; [|split]].
  - intros sha Hsha. destruct (sha_parts sha Hsha) as (Ht & Hs & Hc). eexists. split; [by apply link_built|].
    unfold parseDeployRef. rewrite link_plain by done. unfold is_pr_url, commit_url.
    rewrite !link_parts, (StrFacts.split_on_none _ sha Hc), Ho, Hr, Hsha by done. reflexivity.
  - intros n Hn. destruct (NumFacts.print_spec n Hn) as (Hd & Hne & _). assert (Num.string_of_Z n = Num.print n) as E.
    { unfold Num.string_of_Z. destruct (Z.ltb_spec n 0); [lia|done]. }
    assert (Js.truthy_string (Num.print n) = true) as Ht by (by destruct (Num.print n)).
    assert (Str.has_char "/" (Num.print n) = false) as Hc by (by eapply StrFacts.all_chars_no; [|exact Hd]).
    eexists. split; [unfold github_pull; cbn [option_map]; rewrite E; by apply link_built|].
    unfold parseDeployRef. rewrite link_plain; try done.
    + unfold is_pr_url, is_number. by rewrite link_parts, (StrFacts.split_on_none _ _ Hc), Ho, Hr, Ht, Hd by done.
    + eapply all_chars_impl; [|exact Hd]. intros c. by destruct c as [[] [] [] [] [] [] [] []].
  - intros branch Ht Hs. eexists. split; [by apply link_built|]. unfold parseDeployRef. rewrite link_plain by done.
    unfold is_pr_url, commit_url, is_tree_url. rewrite !link_parts by done.
    destruct (Str.split_on "/" branch) as [|x rest] eqn:Eb; [by destruct (StrFacts.split_on_ne "/" branch)|].
    pose proof (StrFacts.join_split "/" branch) as Hj. rewrite Eb in Hj. rewrite Hj, Ho, Hr, Ht, (no_space_breaks _ Hs). by destruct rest.
  - intros sha raw Hsha Htrim. destruct (sha_parts sha Hsha) as (Ht & Hs & Hc). unfold parseDeployRef. rewrite Htrim.
    unfold is_pr_url, commit_url, is_tree_url. rewrite !one_part by done. by rewrite sha_not_fork, Hsha.
Qed.

Lemma links_read_back_witness :
  name_ok "unkeyed" = true /\ name_ok "unkey" = true
  /\ exists url, github_branch (Some "unkeyed/unkey") (Some "feat/x") = Some url /\ parseDeployRef url = inl FORK_BRANCH_MESSAGE.
Proof.
  destruct (links_read_back "unkeyed" "unkey" eq_refl eq_refl) as (_ & _ & H & _). split; [reflexivity|]. split; [reflexivity|].
  exact (H "feat/x" eq_refl eq_refl).
Defined.

(** An identifier with more than one underscore loses its end: the split keeps two parts
    only, so the characters shown last are not those of the identifier. *)
Theorem shortened_end_lost :
  shortenId "unkey_live_3ZbQk9aXw7R2mN5t" 4 4 "..." None = inr "unkey_live...live"
  /\ shortenId "key_3ZbQk9aXw7R2mN5t" 4 4 "..." None = inr "key_3ZbQ...mN5t".
Proof. split; vm_compute; reflexivity. Qed.
