(* ===== verification/Timeseries.v ===== *)
(** * Time series

    web/apps/dashboard/lib/trpc/routers/utils/granularity.ts and constants.ts: the width of
    the buckets a chart of a time range has. Times are in milliseconds. *)

From Stdlib Require Import ZArith Bool String Lia.
From stdpp Require Import base list strings.
From S2P Require Import Prelude.

Local Open Scope Z_scope.

Definition MINUTE_IN_MS : Z := 60 * 1000.
Definition HOUR_IN_MS : Z := 60 * MINUTE_IN_MS.
Definition DAY_IN_MS : Z := 24 * HOUR_IN_MS.
Definition WEEK_IN_MS : Z := 7 * DAY_IN_MS.
Definition MONTH_IN_MS : Z := 30 * DAY_IN_MS.
Definition QUARTER_IN_MS : Z := MONTH_IN_MS * 3.

Inductive TimeseriesGranularity :=
| perMinute | per5Minutes | per15Minutes | per30Minutes | perHour | per2Hours | per4Hours | per6Hours | per12Hours
| perDay | per3Days | perWeek | perMonth | perQuarter.

Inductive TimeseriesContext := forVerifications | forRegular.

Definition DEFAULT_GRANULARITY (context : TimeseriesContext) : TimeseriesGranularity :=
  match context with forVerifications => perHour | forRegular => perMinute end.

Record TimeseriesConfig := { tc_granularity : TimeseriesGranularity; tc_startTime : Z; tc_endTime : Z; tc_context : TimeseriesContext }.

(** The widths of [TIMESERIES_GRANULARITIES]. *)
Definition granularity_ms (g : TimeseriesGranularity) : Z :=
  match g with
  | perMinute => MINUTE_IN_MS
  | per5Minutes => 5 * MINUTE_IN_MS
  | per15Minutes => 15 * MINUTE_IN_MS
  | per30Minutes => 30 * MINUTE_IN_MS
  | perHour => HOUR_IN_MS
  | per2Hours => 2 * HOUR_IN_MS
  | per4Hours => 4 * HOUR_IN_MS
  | per6Hours => 6 * HOUR_IN_MS
  | per12Hours => 12 * HOUR_IN_MS
  | perDay => DAY_IN_MS
  | per3Days => 3 * DAY_IN_MS
  | perWeek => WEEK_IN_MS
  | perMonth => MONTH_IN_MS
  | perQuarter => QUARTER_IN_MS
  end.

(** The granularity of a range. *)
Definition granularity_of (timeRange : Z) : TimeseriesGranularity :=
  if QUARTER_IN_MS <=? timeRange then perMonth
  else if MONTH_IN_MS <=? timeRange then perWeek
  else if DAY_IN_MS * 3 + HOUR_IN_MS <=? timeRange then perDay
  else if DAY_IN_MS <=? timeRange then per2Hours
  else if HOUR_IN_MS * 12 <=? timeRange then per30Minutes
  else if HOUR_IN_MS * 4 <=? timeRange then per15Minutes
  else if HOUR_IN_MS * 2 <=? timeRange then per5Minutes
  else perMinute.

Definition default_duration (context : TimeseriesContext) : Z :=
  match context with forVerifications => DAY_IN_MS | forRegular => HOUR_IN_MS end.

Definition getTimeseriesGranularity (context : TimeseriesContext) (startTime endTime : option Z) (now : Z) : TimeseriesConfig :=
  if negb (Js.truthy_oZ startTime) && negb (Js.truthy_oZ endTime) then
    {| tc_granularity := DEFAULT_GRANULARITY context; tc_startTime := now - default_duration context; tc_endTime := now; tc_context := context |}
  else
    let effectiveEndTime := Js.coalesce endTime now in
    let effectiveStartTime := Js.coalesce startTime (effectiveEndTime - default_duration context) in
    {| tc_granularity := granularity_of (effectiveEndTime - effectiveStartTime); tc_startTime := effectiveStartTime; tc_endTime := effectiveEndTime;
       tc_context := context |}.

Definition getTimeBufferForGranularity (granularity : TimeseriesGranularity) : Z :=
  match granularity with
  | perMinute => MINUTE_IN_MS
  | per5Minutes => 5 * MINUTE_IN_MS
  | per15Minutes => 15 * MINUTE_IN_MS
  | per30Minutes => 30 * MINUTE_IN_MS
  | perHour => HOUR_IN_MS
  | per2Hours => 2 * HOUR_IN_MS
  | per4Hours => 4 * HOUR_IN_MS
  | per6Hours => 6 * HOUR_IN_MS
  | per12Hours => 12 * HOUR_IN_MS
  | perDay => DAY_IN_MS
  | per3Days => 3 * DAY_IN_MS
  | perWeek => WEEK_IN_MS
  | perMonth => MONTH_IN_MS
  | perQuarter => QUARTER_IN_MS
  end.

(** ** How many buckets a chart has *)

(** The buckets a range is divided into, the last one perhaps short. *)
Definition buckets (range : Z) (g : TimeseriesGranularity) : Z := (range + granularity_ms g - 1) / granularity_ms g.

Ltac compare_ranges :=
  unfold granularity_of;
  repeat match goal with |- context [Z.leb ?a ?b] => destruct (Z.leb_spec a b) end;
  unfold buckets, granularity_ms, QUARTER_IN_MS, MONTH_IN_MS, WEEK_IN_MS, DAY_IN_MS, HOUR_IN_MS, MINUTE_IN_MS in *; cbn [Z.mul Pos.mul Pos.add Z.add] in *.

(** A range below a quarter has at most 120 buckets, one per minute of two hours. *)
Lemma buckets_bounded range : 0 <= range -> range < QUARTER_IN_MS -> 0 <= buckets range (granularity_of range) <= 120.
Proof. compare_ranges; intros; split; try (apply Z.div_pos; lia); apply Z.lt_succ_r, Z.div_lt_upper_bound; lia. Qed.

Lemma granularity_coarser r r' : r <= r' -> granularity_ms (granularity_of r) <= granularity_ms (granularity_of r').
Proof. compare_ranges; lia. Qed.

(** From an hour on there are three buckets at least. *)
Lemma enough_buckets range : HOUR_IN_MS <= range -> 3 <= buckets range (granularity_of range).
Proof. compare_ranges; intros; apply Z.div_le_lower_bound; lia. Qed.

(** A chart is never too coarse and never too fine. For a range from its start
    to its end that is not negative, the width of the buckets divides it into at most 120
    when it is below a quarter, and into three or more when it is an hour or longer; a
    longer range never has narrower buckets. A chart without a range shows the last hour, or the
    last day for verifications, which is 60 or 24 buckets. The buffer around a selected point is
    the width of a bucket. *)
Theorem charts_readable (context : TimeseriesContext) (startTime endTime : option Z) (now : Z) :
  let c := getTimeseriesGranularity context startTime endTime now in
  let range := tc_endTime c - tc_startTime c in
  (0 <= range < QUARTER_IN_MS -> 0 <= buckets range (tc_granularity c) <= 120)
  /\ (HOUR_IN_MS <= range -> 3 <= buckets range (tc_granularity c))
  /\ (forall start' end_ , Js.truthy_oZ startTime = true -> Js.truthy_Z start' = true ->
       let c' := getTimeseriesGranularity context (Some start') end_ now in
       range <= tc_endTime c' - tc_startTime c' -> granularity_ms (tc_granularity c) <= granularity_ms (tc_granularity c'))
  /\ (startTime = None -> endTime = None -> range = default_duration context
       /\ buckets range (tc_granularity c) = match context with forVerifications => 24 | forRegular => 60 end)
  /\ getTimeBufferForGranularity (tc_granularity c) = granularity_ms (tc_granularity c).
Proof.
  cbv zeta. unfold getTimeseriesGranularity. split; [|split; [|split; [|split]]].
  - destruct (_ && _); cbn [tc_granularity tc_startTime tc_endTime]; [|intros []; by apply buckets_bounded].
    intros _. rewrite Z.sub_sub_distr, Z.sub_diag, Z.add_0_l. by destruct context; vm_compute.
  - destruct (_ && _); cbn [tc_granularity tc_startTime tc_endTime]; [|apply enough_buckets].
    intros _. rewrite Z.sub_sub_distr, Z.sub_diag, Z.add_0_l. by destruct context; vm_compute.
  - intros start' end_ -> Hs. cbn [Js.truthy_oZ negb andb]. rewrite Hs. cbn [negb andb tc_granularity tc_startTime tc_endTime].
    apply granularity_coarser.
  - intros -> ->. cbn [Js.truthy_oZ negb andb tc_granularity tc_startTime tc_endTime].
    rewrite Z.sub_sub_distr, Z.sub_diag, Z.add_0_l. split; [done|]. by destruct context; vm_compute.
  - by destruct (tc_granularity _).
Qed.
