(* ===== verification/Scrub.v ===== *)
(** * Redaction of text

    The text part of web/apps/dashboard/lib/sentry/pii-scrubber.ts: the patterns for
    e-mail addresses and tokens, the sensitive names, and the redaction of strings,
    paths, query parameters, URLs and SQL. A regular expression with the flag g is a scan
    that resumes behind each match. The parser of URLs and decodeURIComponent are
    parameters. *)

From Stdlib Require Import ZArith Bool Ascii String Lia.
From stdpp Require Import base list strings.
From S2P Require Import Prelude Helpers.

Local Open Scope string_scope.

Definition REDACTED : string := "[REDACTED]".

(** ** Patterns *)

(** [A-Za-z0-9_-] *)
Definition token_char (c : ascii) : bool := Redirect.is_alnum c || Str.has_char c "_-".

(** [A-Za-z0-9._%+-], [A-Za-z0-9.-] *)
Definition local_char (c : ascii) : bool := Redirect.is_alnum c || Str.has_char c "._%+-".
Definition domain_char (c : ascii) : bool := Redirect.is_alnum c || Str.has_char c ".-".

(** The domain: the last dot with a character before it and two letters behind it
    wins, and the letters run to their end. The result is the rest. *)
Fixpoint domain_match (seen : bool) (s : string) : option string :=
  match s with
  | "" => None
  | String c r =>
      if domain_char c then
        match domain_match true r with
        | Some rest => Some rest
        | None =>
            if seen && Ascii.eqb c "." then
              let '(t, rest) := Duration.span Duration.is_letter r in if (2 <=? String.length t)%nat then Some rest else None
            else None
        end
      else None
  end.

(** EMAIL_LIKE at the start of the string, with the rest behind the match. *)
Definition email_match (s : string) : option string :=
  match Duration.span local_char s with
  | (String _ _, String "@" r) => domain_match false r
  | _ => None
  end.

(** [s.replace(EMAIL_LIKE, REDACTED)]; [skip] characters belong to the last match. *)
Fixpoint replace_emails (skip : nat) (s : string) : string :=
  match s with
  | "" => ""
  | String c r =>
      match skip with
      | S k => replace_emails k r
      | O =>
          match email_match s with
          | Some rest => REDACTED +:+ replace_emails (String.length r - String.length rest) r
          | None => String c (replace_emails 0 r)
          end
      end
  end.

Definition redact_emails (s : string) : string := replace_emails 0 s.

(** A run of token characters, replaced when it has twenty. *)
Definition flush (f : string -> string) (run : string) : string := if (20 <=? String.length run)%nat then f run else run.

(** [s.replace(TOKEN_LIKE, f)], with the current run. *)
Fixpoint replace_tokens (f : string -> string) (run s : string) : string :=
  match s with
  | "" => flush f run
  | String c r =>
      if token_char c then replace_tokens f (run +:+ String c "") r
      else flush f run +:+ String c (replace_tokens f "" r)
  end.

Definition redactTokenLike (value : string) : string := replace_tokens (fun _ => REDACTED) "" (redact_emails value).

Fixpoint has_digit (s : string) : bool :=
  match s with "" => false | String c r => NumFacts.is_digit c || has_digit r end.

Definition redactDigitBearingTokens (text : string) : string :=
  replace_tokens (fun run => if has_digit run then REDACTED else run) "" text.

(** ** Names *)

Definition SENSITIVE_NAME_KEYS : list string :=
  ["key"; "apikey"; "api_key"; "rootkey"; "root_key"; "token"; "access_token"; "refresh_token"; "id_token"; "secret";
   "client_secret"; "password"; "pwd"; "code"; "state"; "jwt"; "authorization"; "auth"; "session"; "email"; "phone"].

Definition isSensitiveKey (name : string) : bool := Js.includes SENSITIVE_NAME_KEYS (Str.to_lower name).

Definition URL_ONLY_SENSITIVE_PARAM_KEYS : list string := ["input"].
Definition UI_STATE_PARAM_KEYS : list string := ["filters[state]"; "sort[key]"].

(** The segments between brackets. *)
Fixpoint bracket_segments (acc s : string) : list string :=
  match s with
  | "" => [acc]
  | String c r => if Ascii.eqb c "[" || Ascii.eqb c "]" then acc :: bracket_segments "" r else bracket_segments (acc +:+ String c "") r
  end.

Definition bracketLeafSegment (name : string) : option string :=
  if negb (Str.contains "[" name) then None
  else last (List.filter (fun s => (0 <? String.length s)%nat) (bracket_segments "" name)).

Definition isSensitiveParamKey (name : string) (allowUiStateParams : bool) : bool :=
  let lower := Str.to_lower name in
  if String.prefix "param_" lower then true
  else if isSensitiveKey lower || Js.includes URL_ONLY_SENSITIVE_PARAM_KEYS lower then true
  else if allowUiStateParams && Js.includes UI_STATE_PARAM_KEYS lower then false
  else match bracketLeafSegment lower with Some leaf => isSensitiveKey leaf | None => false end.

Definition scrubParamValue (name value : string) (allowUiStateParams : bool) : string :=
  if isSensitiveParamKey name allowUiStateParams then REDACTED else redactTokenLike value.

(** All entries are deleted and appended again, in their order. *)
Definition scrubSearchParams (params : list (string * string)) (allowUiStateParams : bool) : list (string * string) :=
  List.map (fun '(name, value) => (name, scrubParamValue name value allowUiStateParams)) params.

(** ** URLs *)

(** [new URL(url, base)] and the parts the code reads and sets; the text of a URL is
    without its credentials and its fragment. *)
Class UrlApi := {
  URL : Type;
  new_URL : string -> option URL;
  url_protocol : URL -> string;
  url_host : URL -> string;
  url_pathname : URL -> string;
  url_searchParams : URL -> list (string * string);
  set_searchParams : list (string * string) -> URL -> URL;
  set_pathname : string -> URL -> URL;
  url_search : URL -> string;
  url_toString : URL -> string;
  (* new URLSearchParams(text) and its toString() *)
  parse_params : string -> list (string * string);
  params_toString : list (string * string) -> string;
  (* None is a URIError *)
  decodeURIComponent : string -> option string;
}.

Definition prefix_ci (p s : string) : bool := String.prefix p (Str.to_lower s).

(** [/^[a-z][a-z0-9+.-]*:/i], with the rest behind the colon. *)
Definition scheme_rest (url : string) : option string :=
  match url with
  | String c r =>
      if Duration.is_letter c then
        match snd (Duration.span (fun c => Redirect.is_alnum c || Str.has_char c "+.-") r) with
        | String ":" rest => Some rest
        | _ => None
        end
      else None
  | "" => None
  end.

(** [/^(mailto|tel|blob|data):(?!\/\/)/i], with the scheme as it is written. *)
Definition opaque_scheme (url : string) : option string :=
  List.fold_left (fun acc name =>
    match acc with
    | Some s => Some s
    | None =>
        let n := String.length name in
        if prefix_ci (name +:+ ":") url && negb (String.prefix "//" (String.substring (S n) (String.length url) url))
        then Some (String.substring 0 n url) else None
    end) ["mailto"; "tel"; "blob"; "data"] None.

Section Urls.

Context `{UrlApi}.

Definition scrub_segment (segment : string) : string :=
  let decoded := Js.coalesce (decodeURIComponent segment) segment in
  if negb (String.eqb (redact_emails decoded) decoded) then REDACTED else segment.

Definition scrubUrlPath (path : string) : string :=
  redactDigitBearingTokens (Str.join "/" (List.map scrub_segment (Str.split_on "/" path))).

Definition scrubUrl (url : string) : string :=
  if (String.length url =? 0)%nat then url
  else
    match opaque_scheme url with
    | Some scheme => scheme +:+ ":" +:+ REDACTED
    | None =>
        match new_URL url with
        | None => redactTokenLike url
        | Some parsed =>
            let parsed := set_searchParams (scrubSearchParams (url_searchParams parsed) true) parsed in
            let hadScheme := match scheme_rest url with Some _ => true | None => false end in
            if hadScheme && String.eqb (url_host parsed) "" && negb (String.prefix "//" url) then
              url_protocol parsed +:+ scrubUrlPath (url_pathname parsed) +:+ url_search parsed
            else
              let parsed := if String.prefix "/_next/static/" (url_pathname parsed) then parsed
                            else set_pathname (scrubUrlPath (url_pathname parsed)) parsed in
              if String.prefix "//" url then "//" +:+ url_host parsed +:+ url_pathname parsed +:+ url_search parsed
              else
                let wasRelative := match scheme_rest url with Some rest => negb (String.prefix "//" rest) | None => true end in
                if wasRelative then url_pathname parsed +:+ url_search parsed else url_toString parsed
        end
    end.

Definition scrubQueryParamsString (queryString : string) (allowUiStateParams : bool) : string :=
  params_toString (scrubSearchParams (parse_params queryString) allowUiStateParams).

(** ** Text with URLs in it *)

(** [text.split(/(\s+)/)]: words and the white space between them, in turns. *)
Fixpoint split_words (in_space : bool) (acc s : string) : list string :=
  match s with
  | "" => [acc]
  | String c r =>
      if Bool.eqb (Str.is_space c) in_space then split_words in_space (acc +:+ String c "") r
      else acc :: split_words (negb in_space) (String c "") r
  end.

(** [https?:\/\/] or a slash without a star behind it. *)
Definition starts_url (s : string) : bool :=
  prefix_ci "http://" s || prefix_ci "https://" s
  || match s with String "/" (String "*" _) => false | String "/" _ => true | _ => false end.

(** The trailing parentheses, as far as the rest keeps [n] characters. *)
Fixpoint cut_parens (n : nat) (s : string) : string * string :=
  match s with
  | "" => ("", "")
  | String c r =>
      let '(a, b) := cut_parens (n - 1) r in
      if (n =? 0)%nat && String.eqb a "" && Ascii.eqb c ")" then ("", String c b) else (String c a, b)
  end.

Definition url_start_length (s : string) : nat :=
  if prefix_ci "http://" s then 7 else if prefix_ci "https://" s then 8 else 1.

(** EMBEDDED_URL: the shortest prefix that ends in [=] or an opening parenthesis before
    a URL, the URL and the trailing parentheses. *)
Fixpoint embedded_url (acc s : string) : option (string * string * string) :=
  match s with
  | "" => None
  | String c r =>
      if (Ascii.eqb c "=" || Ascii.eqb c "(") && starts_url r then
        let '(u, parens) := cut_parens (url_start_length r) r in Some (acc +:+ String c "", u, parens)
      else embedded_url (acc +:+ String c "") r
  end.

Definition map_token (scrubNonUrlToken : string -> string) (token : string) : string :=
  match token with
  | "" => token
  | String c _ =>
      if Str.is_space c then token
      else if String.prefix "/*" token then token
      else if String.prefix "/" token || prefix_ci "http://" token || prefix_ci "https://" token then scrubUrl token
      else match embedded_url "" token with
           | Some (a, u, parens) => a +:+ scrubUrl u +:+ parens
           | None => scrubNonUrlToken token
           end
  end.

Definition mapTextTokens (text : string) (scrubNonUrlToken : string -> string) : string :=
  String.concat "" (List.map (map_token scrubNonUrlToken) (split_words false "" text)).

Definition scrubUrlsInText (text : string) : string := mapTextTokens (redact_emails text) (fun token => token).

Definition scrubText (text : string) : string := mapTextTokens (redact_emails text) redactDigitBearingTokens.

End Urls.

(** ** SQL *)

(** The characters a dot does not match. *)
Definition line_break (c : ascii) : bool := let n := nat_of_ascii c in ((n =? 10) || (n =? 13))%nat.

(** The end of a literal that started with [q]: the rest, [None] without an end. *)
Fixpoint literal_end (q : ascii) (s : string) : option string :=
  match s with
  | "" => None
  | String c r =>
      if Ascii.eqb c q then Some r
      else if Nat.eqb (nat_of_ascii c) 92 then match r with "" => None | String d r' => if line_break d then None else literal_end q r' end
      else literal_end q r
  end.

Fixpoint mask_literals (q : ascii) (skip : nat) (s : string) : string :=
  match s with
  | "" => ""
  | String c r =>
      match skip with
      | S k => mask_literals q k r
      | O =>
          if Ascii.eqb c q then
            match literal_end q r with
            | Some rest => String "?" (mask_literals q (String.length r - String.length rest) r)
            | None => String c (mask_literals q 0 r)
            end
          else String c (mask_literals q 0 r)
      end
  end.

Definition word_char (c : ascii) : bool := Redirect.is_alnum c || Ascii.eqb c "_".
Definition is_hex (c : ascii) : bool :=
  NumFacts.is_digit c || let n := nat_of_ascii c in ((65 <=? n) && (n <=? 70) || (97 <=? n) && (n <=? 102))%nat.

Definition boundary (rest : string) : bool := match rest with String c _ => negb (word_char c) | "" => true end.

(** An exponent behind a number, with the rest. *)
Definition exponent (s : string) : option string :=
  match s with
  | String e r =>
      if Ascii.eqb e "e" || Ascii.eqb e "E" then
        let r' := match r with String c r' => if Ascii.eqb c "+" || Ascii.eqb c "-" then r' else r | "" => r end in
        match Duration.span NumFacts.is_digit r' with (String _ _, rest) => Some rest | _ => None end
      else None
  | "" => None
  end.

(** The rests the alternatives of the number can leave, in the order they are tried. *)
Definition number_rests (s : string) : list string :=
  match s with
  | String "0" (String "x" r) => match Duration.span is_hex r with (String _ _, rest) => [rest] | _ => [] end
  | _ => []
  end ++
  match Duration.span NumFacts.is_digit s with
  | (String _ _, r) =>
      match r with
      | String "." r' =>
          match Duration.span NumFacts.is_digit r' with
          | (String _ _, r2) => match exponent r2 with Some r3 => [r3] | None => [] end ++ [r2]
          | _ => []
          end
      | _ => match exponent r with Some r3 => [r3] | None => [] end
      end ++ [r]
  | _ => []
  end.

Definition number_match (s : string) : option string := List.find boundary (number_rests s).

(** Numbers at word boundaries; [prev] is whether the character before is part of a
    word. *)
Fixpoint mask_numbers (prev : bool) (skip : nat) (s : string) : string :=
  match s with
  | "" => ""
  | String c r =>
      match skip with
      | S k => mask_numbers (word_char c) k r
      | O =>
          match (if prev then None else number_match s) with
          | Some rest => String "?" (mask_numbers (word_char c) (String.length r - String.length rest) r)
          | None => String c (mask_numbers (word_char c) 0 r)
          end
      end
  end.

(** The last occurrence of [/*] splits the string. *)
Fixpoint last_comment (s : string) : option (string * string) :=
  match s with
  | "" => None
  | String c r =>
      match last_comment r with
      | Some (a, b) => Some (String c a, b)
      | None => if String.prefix "/*" s then Some ("", s) else None
      end
  end.

Definition ends_with (t s : string) : bool :=
  (String.length t <=? String.length s)%nat && String.eqb (String.substring (String.length s - String.length t) (String.length t) s) t.

Definition double_quote : ascii := ascii_of_nat 34.

Definition maskSqlLiterals (sql : string) : string :=
  let '(body, trailer) :=
    if ends_with "*/" (Str.trim_end sql) then match last_comment sql with Some bt => bt | None => (sql, "") end else (sql, "") in
  mask_numbers false 0 (mask_literals double_quote 0 (mask_literals "'" 0 body)) +:+ trailer.

Example mask_example :
  maskSqlLiterals "select * from k where a = 'x\'y' and n in (1, 2.5e3, 0x1F) and c3 = 12.5x /* route=1 */"
  = "select * from k where a = ? and n in (?, ?, ?) and c3 = ?.5x /* route=1 */".
Proof. reflexivity. Qed.

Example redact_example :
  redactTokenLike "key unkey_3ZGRv7KhHfGMZ4Sm3Sjs92 of ada@a.b.example.com-x, short_1"
  = "key [REDACTED] of [REDACTED]-x, short_1".
Proof. reflexivity. Qed.

(** ** What is left of a text *)

Import StrFacts.

Definition occurs (w s : string) : Prop := exists a b, s = a +:+ w +:+ b.

(** The language of EMAIL_LIKE. *)
Definition EmailLike (w : string) : Prop :=
  exists l d t, w = l +:+ "@" +:+ d +:+ "." +:+ t /\ l <> "" /\ d <> "" /\ (2 <= String.length t)%nat
  /\ Str.all_chars local_char l = true /\ Str.all_chars domain_char d = true /\ Str.all_chars Duration.is_letter t = true.

(** The language of TOKEN_LIKE. *)
Definition TokenLike (w : string) : Prop := Str.all_chars token_char w = true /\ (20 <= String.length w)%nat.

Lemma span_eq p s a b : Duration.span p s = (a, b) -> s = a +:+ b /\ Str.all_chars p a = true.
Proof.
  revert a b. induction s as [|c s IH]; intros a b; cbn; [by intros [= <- <-]|].
  destruct (p c) eqn:Hc; [|by intros [= <- <-]].
  destruct (Duration.span p s) as [a' b'] eqn:E. intros [= <- <-]. destruct (IH a' b' eq_refl) as [-> Ha].
  cbn. by rewrite Hc, Ha.
Qed.

Lemma span_length p t b a r :
  Str.all_chars p t = true -> Duration.span p (t +:+ b) = (a, r) -> (String.length t <= String.length a)%nat.
Proof.
  revert a. induction t as [|c t IH]; intros a; cbn; [lia|]. intros [Hc Ht]%andb_prop. rewrite string_app_cons. cbn.
  rewrite Hc. destruct (Duration.span p (t +:+ b)) as [a' b'] eqn:E. intros [= <- <-]. specialize (IH a' Ht eq_refl). cbn. lia.
Qed.

Lemma domain_match_sound seen s rest :
  domain_match seen s = Some rest ->
  exists d t, s = d +:+ "." +:+ t +:+ rest /\ (seen = false -> d <> "") /\ (2 <= String.length t)%nat
  /\ Str.all_chars domain_char d = true /\ Str.all_chars Duration.is_letter t = true.
Proof.
  revert seen. induction s as [|c s IH]; intros seen; cbn; [done|].
  destruct (domain_char c) eqn:Hc; [|done].
  destruct (domain_match true s) as [rest'|] eqn:E.
  - intros [= <-]. destruct (IH true E) as (d & t & -> & _ & Ht & Hd & Hl). exists (String c d), t. cbn. by rewrite Hc, Hd.
  - destruct seen; [|done]. cbn. destruct (Ascii.eqb_spec c ".") as [->|]; [|done].
    destruct (Duration.span Duration.is_letter s) as [t r] eqn:Es.
    destruct t as [|t1 [|t2 t]]; [done..|]. intros [= <-].
    apply span_eq in Es as [-> Ht]. exists "", (String t1 (String t2 t)). repeat split; try done. cbn. lia.
Qed.

Lemma domain_match_complete seen d t b :
  (seen = false -> d <> "") -> (2 <= String.length t)%nat -> Str.all_chars domain_char d = true ->
  Str.all_chars Duration.is_letter t = true -> domain_match seen (d +:+ "." +:+ t +:+ b) <> None.
Proof.
  revert seen. induction d as [|c d IH]; intros seen Hs Hl Hd Ht.
  - destruct seen; [|by destruct (Hs eq_refl)].
    change ("" +:+ "." +:+ t +:+ b) with (String "." (t +:+ b)). cbn.
    destruct (domain_match true (t +:+ b)); [done|].
    destruct (Duration.span Duration.is_letter (t +:+ b)) as [a r] eqn:E.
    pose proof (span_length _ _ _ _ _ Ht E). destruct a as [|a1 [|a2 a]]; cbn in *; [lia..|done].
  - cbn in Hd. apply andb_prop in Hd as [Hc Hd]. rewrite string_app_cons. cbn. rewrite Hc.
    assert (Hn : domain_match true (d +:+ "." +:+ t +:+ b) <> None) by by apply IH.
    by destruct (domain_match true (d +:+ "." +:+ t +:+ b)).
Qed.

(** The scan matches where a word of EMAIL_LIKE starts, and nowhere else. *)
Lemma email_match_sound s rest : email_match s = Some rest -> exists w, EmailLike w /\ s = w +:+ rest.
Proof.
  unfold email_match. destruct (Duration.span local_char s) as [l r] eqn:E. apply span_eq in E as [-> Hl].
  destruct l as [|c l]; [done|]. destruct r as [|a r]; [done|].
  intros H. assert (a = "@"%char) as ->.
  { revert H. by destruct a as [[] [] [] [] [] [] [] []]. }
  apply domain_match_sound in H as (d & t & -> & Hd & Ht & H1 & H2).
  exists (String c l +:+ "@" +:+ d +:+ "." +:+ t). split.
  - exists (String c l), d, t. specialize (Hd eq_refl). done.
  - by rewrite !string_app_assoc.
Qed.

Lemma email_match_complete w b : EmailLike w -> email_match (w +:+ b) <> None.
Proof.
  intros (l & d & t & -> & Hl & Hd & Ht & H1 & H2 & H3). rewrite !string_app_assoc. unfold email_match.
  rewrite (Duration.span_app local_char l) by (try done; intros c r E; injection E as <- _; done).
  destruct l as [|c l]; [done|]. change ("@" +:+ d +:+ "." +:+ t +:+ b) with (String "@" (d +:+ "." +:+ t +:+ b)).
  cbn. by apply domain_match_complete.
Qed.

(** [t] is [s] with some of its substrings replaced. *)
Inductive redacted : string -> string -> Prop :=
| redacted_nil : redacted "" ""
| redacted_keep c s t : redacted s t -> redacted (String c s) (String c t)
| redacted_cut w s t : redacted s t -> redacted (w +:+ s) (REDACTED +:+ t).

Lemma redacted_refl s : redacted s s.
Proof. induction s; by constructor. Qed.

Lemma redacted_keep_all a s t : redacted s t -> redacted (a +:+ s) (a +:+ t).
Proof. intros H. induction a as [|c a IH]; [done|]. rewrite !string_app_cons. by constructor. Qed.

Lemma app_eq_split (a x u y : string) :
  a +:+ x = u +:+ y -> (exists z, a = u +:+ z /\ y = z +:+ x) \/ (exists z, u = a +:+ z /\ z <> "" /\ x = z +:+ y).
Proof.
  revert u. induction a as [|c a IH]; intros u H.
  - destruct u as [|e u]; [left; by exists ""|right; by exists (String e u)].
  - destruct u as [|e u]; [left; by exists (String c a)|]. rewrite !string_app_cons in H. injection H as -> H.
    destruct (IH u H) as [(z & -> & ->)|(z & -> & Hz & ->)]; [left|right]; by exists z.
Qed.

Definition bracket_free (w : string) : Prop := Str.has_char "[" w = false /\ Str.has_char "]" w = false.

Lemma bracket_free_cons c w : bracket_free (String c w) -> c <> "["%char /\ c <> "]"%char /\ bracket_free w.
Proof.
  unfold bracket_free. cbn. intros [H1 H2]. apply orb_false_elim in H1 as [H1 H3], H2 as [H2 H4].
  by apply Ascii.eqb_neq in H1, H2.
Qed.

Lemma redacted_prefix w b s : bracket_free w -> redacted s (w +:+ b) -> exists b', s = w +:+ b'.
Proof.
  revert s. induction w as [|c w IH]; intros s Hw H; [by exists s|].
  apply bracket_free_cons in Hw as (H1 & _ & Hw). rewrite string_app_cons in H. inversion H as [|c' s' t' Hr|w' s' t' Hr]; subst.
  - destruct (IH s' Hw Hr) as [b' ->]. by exists b'.
  - done.
Qed.

(** A word of the mark is no address. *)
Lemma mark_prefix y w b t : bracket_free w -> Str.has_char "@" w = true -> Str.has_char "@" y = false -> w +:+ b <> y +:+ String "]" t.
Proof.
  revert y. induction w as [|c w IH]; intros y Hw Ha Hy E; [done|]. apply bracket_free_cons in Hw as (_ & H2 & Hw).
  destruct y as [|e y]; rewrite string_app_cons in E.
  - by injection E as -> _.
  - injection E as -> E. cbn in Ha, Hy. apply orb_false_elim in Hy as [H3 Hy]. rewrite H3 in Ha. by apply (IH y).
Qed.

Lemma mark_occurs w t : bracket_free w -> Str.has_char "@" w = true -> occurs w (REDACTED +:+ t) -> occurs w t.
Proof.
  intros Hw Ha (a & b & E). symmetry in E. apply app_eq_split in E as [(z & -> & ->)|(z & Ez & Hz & E)]; [by exists z, b|].
  exfalso. symmetry in Ez. change REDACTED with ("[REDACTED" +:+ "]") in Ez.
  apply app_eq_split in Ez as [(u & -> & Eu)|(u & Eu & Hu & ->)].
  - destruct u as [|e [|]]; [|by destruct z|done]. change ("" +:+ z) with z in Eu. subst z. by apply (mark_prefix "" w b t).
  - rewrite string_app_assoc in E. apply (mark_prefix u w b t); try done.
    assert (Hm : Str.has_char "@" (a +:+ u) = false) by by rewrite <- Eu.
    rewrite has_char_app in Hm. by apply orb_false_elim in Hm as [_ Hm].
Qed.

(** A word that starts at a kept character was in the text there. *)
Lemma kept_occurs c w s t :
  bracket_free w -> redacted s t -> occurs w (String c t) -> (exists b, String c s = w +:+ b) \/ occurs w t.
Proof.
  intros Hw H (a & b & E). destruct a as [|e a].
  - left. apply (redacted_prefix w b (String c s) Hw). change (String c t = w +:+ b) in E. rewrite <- E. by constructor.
  - right. rewrite string_app_cons in E. injection E as _ ->. by exists a, b.
Qed.

(** A word with an @ that is in the redacted text was in the text. *)
Lemma redacted_occurs w s t : bracket_free w -> Str.has_char "@" w = true -> redacted s t -> occurs w t -> occurs w s.
Proof.
  intros Hw Ha H. induction H as [|c s t H IH|x s t H IH]; [done|..].
  - intros [[b ->]|(a & b & ->)%IH]%(kept_occurs c w s t); [by exists "", b|by exists (String c a), b|done..].
  - intros (a & b & ->)%mark_occurs%IH; [|done..]. exists (x +:+ a), b. by rewrite string_app_assoc.
Qed.

Lemma all_bracket_free p w :
  p "["%char = false -> p "]"%char = false -> Str.all_chars p w = true -> bracket_free w.
Proof. intros H1 H2 Hw. split; by apply (all_chars_no p). Qed.

Lemma bracket_free_app a b : bracket_free a -> bracket_free b -> bracket_free (a +:+ b).
Proof. unfold bracket_free. rewrite !has_char_app. by intros [-> ->] [-> ->]. Qed.

Lemma email_plain w : EmailLike w -> bracket_free w /\ Str.has_char "@" w = true.
Proof.
  intros (l & d & t & -> & _ & _ & _ & Hl & Hd & Ht). split.
  - repeat apply bracket_free_app; try done;
      [by apply (all_bracket_free local_char)|by apply (all_bracket_free domain_char)|by apply (all_bracket_free Duration.is_letter)].
  - rewrite !has_char_app. apply orb_true_r.
Qed.

Lemma email_nonempty w : EmailLike w -> w <> "".
Proof. intros (l & d & t & -> & Hl & _) E. by destruct l. Qed.

(** A scan with the characters of the last match still to skip. *)
Lemma replace_emails_skip a s : replace_emails (String.length a) (a +:+ s) = replace_emails 0 s.
Proof. induction a as [|c a IH]; [done|]. rewrite string_app_cons. cbn. apply IH. Qed.

Lemma replace_emails_match w s rest :
  EmailLike w -> s = w +:+ rest -> email_match s = Some rest -> replace_emails 0 s = REDACTED +:+ replace_emails 0 rest.
Proof.
  intros Hw -> E. pose proof (email_nonempty w Hw). destruct w as [|c w]; [done|].
  rewrite string_app_cons in *. cbn [replace_emails]. rewrite E. rewrite length_app_string, Nat.add_sub.
  by rewrite replace_emails_skip.
Qed.

(** Induction along the scan for addresses. *)
Lemma email_scan_ind (Q : string -> Prop) :
  Q "" ->
  (forall w rest, EmailLike w -> email_match (w +:+ rest) = Some rest -> Q rest -> Q (w +:+ rest)) ->
  (forall c s, email_match (String c s) = None -> Q s -> Q (String c s)) ->
  forall s, Q s.
Proof.
  intros H0 H1 H2 s. induction s as [s IH] using (Wf_nat.induction_ltof1 _ String.length). unfold Wf_nat.ltof in IH.
  destruct s as [|c s]; [done|]. destruct (email_match (String c s)) as [rest|] eqn:E.
  - destruct (email_match_sound _ _ E) as (w & Hw & Es). rewrite Es in *. apply H1; [done..|]. apply IH.
    pose proof (email_nonempty w Hw). destruct w; [done|]. rewrite length_app_string. cbn. lia.
  - apply H2; [done|]. apply IH. cbn. lia.
Qed.

Lemma redact_emails_redacted s : redacted s (redact_emails s).
Proof.
  unfold redact_emails. induction s as [|w rest Hw E IH|c s E IH] using email_scan_ind.
  - constructor.
  - rewrite (replace_emails_match w _ rest Hw eq_refl E). by constructor.
  - cbn. rewrite E. by constructor.
Qed.

Lemma redact_emails_free w s : EmailLike w -> ~ occurs w (redact_emails s).
Proof.
  intros Hw. destruct (email_plain w Hw) as [Hb Ha]. unfold redact_emails.
  induction s as [|w' rest Hw' E IH|c s E IH] using email_scan_ind; intros Ho.
  - destruct Ho as ([|] & b & Eo); [|done]. by destruct (email_nonempty w Hw), w.
  - rewrite (replace_emails_match w' _ rest Hw' eq_refl E) in Ho. by apply IH, (mark_occurs w).
  - cbn in Ho. rewrite E in Ho. apply (kept_occurs c w s _ Hb (redact_emails_redacted s)) in Ho as [[b Eb]|Ho]; [|done].
    rewrite Eb in E. by apply (email_match_complete w b).
Qed.

(** Text without an address is kept. *)
Lemma redact_emails_id s : (forall w, EmailLike w -> ~ occurs w s) -> redact_emails s = s.
Proof.
  unfold redact_emails. induction s as [|c s IH]; [done|]. intros H. cbn. destruct (email_match (String c s)) as [rest|] eqn:E.
  - destruct (email_match_sound _ _ E) as (w & Hw & Es). destruct (H w Hw). by exists "", rest.
  - f_equal. apply IH. intros w Hw (a & b & ->). apply (H w Hw). by exists (String c a), b.
Qed.

(** Whether every run of token characters is shorter than twenty, [k] of them read. *)
Fixpoint short_runs (k : nat) (s : string) : bool :=
  match s with
  | "" => (k <? 20)%nat
  | String c r => if token_char c then short_runs (S k) r else (k <? 20)%nat && short_runs 0 r
  end.

Lemma short_runs_app k a s : Str.all_chars token_char a = true -> short_runs k (a +:+ s) = short_runs (k + String.length a) s.
Proof.
  revert k. induction a as [|c a IH]; intros k; [by rewrite Nat.add_0_r|]. cbn. intros [Hc Ha]%andb_prop.
  rewrite string_app_cons. cbn. rewrite Hc, (IH _ Ha). f_equal. lia.
Qed.

Lemma short_runs_below k s : short_runs k s = true -> (k < 20)%nat /\ short_runs 0 s = true.
Proof.
  assert (Hmono : forall s k j, (j <= k)%nat -> short_runs k s = true -> short_runs j s = true).
  { clear. induction s as [|c s IH]; intros k j Hj; cbn [short_runs].
    - rewrite !Nat.ltb_lt. lia.
    - destruct (token_char c); [apply IH; lia|]. rewrite !andb_true_iff, !Nat.ltb_lt. intros [? ->]. lia. }
  intros H. split; [|apply (Hmono s k 0); [lia|done]]. revert k H. induction s as [|c s IH]; intros k; cbn [short_runs].
  - apply Nat.ltb_lt.
  - destruct (token_char c); [intros H%IH; lia|]. intros [H _]%andb_prop. by apply Nat.ltb_lt.
Qed.

Lemma short_runs_occurs w s : short_runs 0 s = true -> occurs w s -> ~ TokenLike w.
Proof.
  intros H (a & b & ->) [Hw Hl]. revert H. assert (Ha : exists k, short_runs 0 (a +:+ w +:+ b) = true -> short_runs k (w +:+ b) = true).
  { generalize 0%nat. induction a as [|c a IH]; intros k; [by exists k|]. rewrite string_app_cons. cbn [short_runs].
    destruct (token_char c); [apply IH|]. destruct (IH 0%nat) as [j Hj]. exists j. intros [_ H]%andb_prop. by apply Hj. }
  destruct Ha as [k Ha]. intros H%Ha. rewrite (short_runs_app _ _ _ Hw) in H. apply short_runs_below in H as [H _]. lia.
Qed.

(** The scan for tokens: a run is cut or kept, and a long run is always cut. *)
Lemma replace_tokens_redacted f run s :
  Str.all_chars token_char run = true -> (forall w, f w = REDACTED \/ f w = w) -> redacted (run +:+ s) (replace_tokens f run s).
Proof.
  intros Hr Hf. revert run Hr.
  assert (Hflush : forall run x y, redacted x y -> redacted (run +:+ x) (flush f run +:+ y)).
  { intros run x y H. unfold flush. destruct (20 <=? String.length run)%nat; [|by apply redacted_keep_all].
    destruct (Hf run) as [->| ->]; [by constructor|by apply redacted_keep_all]. }
  induction s as [|c s IH]; intros run Hr; cbn [replace_tokens].
  - rewrite <- (string_app_nil (flush f run)). apply Hflush. constructor.
  - destruct (token_char c) eqn:Hc.
    + change (String c s) with (String c "" +:+ s). rewrite <- string_app_assoc. apply IH. rewrite all_chars_app, Hr. cbn. by rewrite Hc.
    + apply Hflush. constructor. by apply (IH "").
Qed.

Lemma flush_short f run : f run = REDACTED -> Str.all_chars token_char run = true ->
  forall s, (forall c r, s = String c r -> token_char c = false) -> short_runs 0 s = true -> short_runs 0 (flush f run +:+ s) = true.
Proof.
  intros Hf Hr s Hc Hs. unfold flush. destruct (Nat.leb_spec 20 (String.length run)).
  - rewrite Hf. by cbn.
  - rewrite (short_runs_app _ _ _ Hr). destruct s as [|c r]; cbn [short_runs] in *; [by apply Nat.ltb_lt|].
    rewrite (Hc c r eq_refl) in *. apply andb_true_iff. split; [by apply Nat.ltb_lt|]. by apply andb_prop in Hs as [_ Hs].
Qed.

Lemma replace_tokens_short run s :
  Str.all_chars token_char run = true -> short_runs 0 (replace_tokens (fun _ => REDACTED) run s) = true.
Proof.
  revert run. induction s as [|c s IH]; intros run Hr; cbn [replace_tokens].
  - rewrite <- (string_app_nil (flush _ run)). by apply flush_short.
  - destruct (token_char c) eqn:Hc.
    + apply IH. rewrite all_chars_app, Hr. cbn. by rewrite Hc.
    + apply flush_short; [done..| |]; [by intros ? ? [= <- _]|]. cbn [short_runs]. rewrite Hc. by apply (IH "").
Qed.

(** Text without a long run is kept. *)
Lemma replace_tokens_id f run s : Str.all_chars token_char run = true -> short_runs (String.length run) s = true -> replace_tokens f run s = run +:+ s.
Proof.
  assert (Hflush : forall run, (String.length run < 20)%nat -> flush f run = run).
  { intros r Hr. unfold flush. destruct (Nat.leb_spec 20 (String.length r)); [lia|done]. }
  revert run. induction s as [|c s IH]; intros run Hr; cbn [replace_tokens short_runs].
  - intros H%Nat.ltb_lt. by rewrite Hflush, string_app_nil.
  - destruct (token_char c) eqn:Hc; intros H.
    + rewrite IH; [by rewrite string_app_assoc|by rewrite all_chars_app, Hr; cbn; rewrite Hc|].
      rewrite length_app_string. cbn. by rewrite Nat.add_1_r.
    + apply andb_prop in H as [H%Nat.ltb_lt Hs]. rewrite (Hflush _ H). f_equal. f_equal. by apply (IH "").
Qed.

Lemma short_runs_complete s : (forall w, TokenLike w -> ~ occurs w s) -> short_runs 0 s = true.
Proof.
  intros H. assert (Hg : forall s run, Str.all_chars token_char run = true -> (forall w, TokenLike w -> ~ occurs w (run +:+ s)) -> short_runs (String.length run) s = true).
  { clear. intros s. assert (Hrun : forall run s, Str.all_chars token_char run = true -> (forall w, TokenLike w -> ~ occurs w (run +:+ s)) -> (String.length run <? 20)%nat = true).
    { intros run x Hr H. apply Nat.ltb_lt, Nat.lt_nge. intros Hl. apply (H run); [done|]. by exists "", x. }
    induction s as [|c s IH]; intros run Hr H; cbn [short_runs]; [by eapply Hrun|].
    destruct (token_char c) eqn:Hc.
    - specialize (IH (run +:+ String c "")). rewrite length_app_string, Nat.add_1_r in IH. apply IH.
      + rewrite all_chars_app, Hr. cbn. by rewrite Hc.
      + intros w Hw. rewrite string_app_assoc. by apply H.
    - rewrite (Hrun run (String c s) Hr H). apply (IH ""); [done|]. intros w Hw (a & b & E). apply (H w Hw).
      exists (run +:+ String c a), b. rewrite string_app_assoc, string_app_cons. by rewrite <- E. }
  by apply (Hg s "").
Qed.

(** Text without an address and without a token. *)
Definition safe_text (s : string) : Prop := forall w, occurs w s -> ~ EmailLike w /\ ~ TokenLike w.

Lemma redactTokenLike_safe value : safe_text (redactTokenLike value).
Proof.
  intros w Ho. split; [|by eapply short_runs_occurs; [apply (replace_tokens_short ""); done|apply Ho]].
  intros Hw. destruct (email_plain w Hw) as [Hb Ha]. apply (redact_emails_free w value Hw).
  eapply redacted_occurs; [done..| |apply Ho]. apply (replace_tokens_redacted _ ""); [done|by left].
Qed.

Lemma redactTokenLike_id value : safe_text value -> redactTokenLike value = value.
Proof.
  intros H. unfold redactTokenLike. rewrite redact_emails_id; [|intros w Hw Ho; by destruct (H w Ho)].
  apply (replace_tokens_id _ ""); [done|]. apply short_runs_complete. intros w Hw Ho. by destruct (H w Ho).
Qed.

(** What redactTokenLike returns contains no e-mail address and no run of
    twenty characters of a token, whatever the text: the mark that replaces one match
    never joins with the text around it to another. A text without either is returned as
    it is, so redacting twice is redacting once. *)
Theorem redacted_text_clean (value : string) :
  (forall w, occurs w (redactTokenLike value) -> ~ EmailLike w /\ ~ TokenLike w)
  /\ ((forall w, occurs w value -> ~ EmailLike w /\ ~ TokenLike w) -> redactTokenLike value = value)
  /\ redactTokenLike (redactTokenLike value) = redactTokenLike value.
Proof.
  split; [apply redactTokenLike_safe|]. split; [apply redactTokenLike_id|]. apply redactTokenLike_id, redactTokenLike_safe.
Qed.
