(* ===== verification/ScrubValues.v ===== *)
(** * Redaction of values

    The walk of web/apps/dashboard/lib/sentry/pii-scrubber.ts over arbitrary values:
    redactStructured, redactStructuredRecord, redactError and scrubErrorStack. The
    objects the program holds are in a heap, so a value can be shared and can reach
    itself; an object the code builds is a tree. *)

From Stdlib Require Import ZArith Bool Ascii String Lia.
From stdpp Require Import base list gmap strings.
From S2P Require Import Prelude Helpers Scrub.

Local Open Scope string_scope.

Set Warnings "-register-all".

(** ** Values *)

Abbreviation loc := nat.

(** A value of the type unknown. [JPrim] are the other primitives, with what
    typeof gives and their text,
    [JArr] and [JRec] arrays and objects nothing else refers to. *)
Inductive unknown : Type :=
| JUndefined
| JNull
| JPrim (type text : string)
| JStr (s : string)
| JRef (l : loc)
| JArr (items : list unknown)
| JRec (fields : list (string * unknown)).

Abbreviation fields := (list (string * unknown)).

(** An error: what the code reads of it, the name of its constructor ([er_class]), and
    its own enumerable properties. [er_errors] is there for an AggregateError with an array. *)
Record ErrorObj := {
  er_class : string;
  er_name : unknown;
  er_message : unknown;
  er_stack : unknown;
  er_cause : option unknown;
  er_errors : option (list unknown);
  er_own : fields;
}.

Inductive Obj :=
| OArray (items : list unknown)
| ORecord (own : fields)
| OMap (entries : list (unknown * unknown))
| OError (error : ErrorObj)
(* a String object, as in a parameterized message *)
| OBoxed (s : string)
(* an instance of another class *)
| OInstance
(* an object whose properties throw when they are read *)
| OThrowing.

Abbreviation Heap := (gmap loc Obj).

(** The result of a computation that can throw; [Spent] is out of fuel. *)
Inductive Res (A : Type) := Ok (a : A) | Throws | Spent.
Arguments Ok {A} a.
Arguments Throws {A}.
Arguments Spent {A}.

Definition rbind {A B} (r : Res A) (f : A -> Res B) : Res B :=
  match r with Ok a => f a | Throws => Throws | Spent => Spent end.

Declare Scope res_scope.
Delimit Scope res_scope with res.
Notation "'let*' x := r 'in' k" := (rbind r (fun x => k)) (at level 10, x pattern, r at level 100, k at level 200) : res_scope.
Local Open Scope res_scope.

(** ** Properties of an object *)

Fixpoint get (k : string) (r : fields) : unknown :=
  match r with [] => JUndefined | (k', v) :: r => if String.eqb k' k then v else get k r end.

(** [r[k] = v] of a property the object has, or a new one at the end. *)
Fixpoint put (k : string) (v : unknown) (r : fields) : fields :=
  match r with
  | [] => [(k, v)]
  | (k', v') :: r => if String.eqb k' k then (k, v) :: r else (k', v') :: put k v r
  end.

(** [result[k] = v] on an object literal: the name __proto__ sets no property. *)
Definition assign (k : string) (v : unknown) (r : fields) : fields := if String.eqb k "__proto__" then r else put k v r.

Definition remove (k : string) (r : fields) : fields := List.filter (fun '(k', _) => negb (String.eqb k' k)) r.

(** ** Structured values *)

Definition SENSITIVE_INPUT_KEYS : list string := ["value"].

Definition isSensitiveInputKey (key : string) : bool := Js.includes SENSITIVE_INPUT_KEYS (Str.to_lower key) || isSensitiveKey key.

Definition newline : ascii := ascii_of_nat 10.

(** [/^\s+at\s/] *)
Definition is_frame (line : string) : bool :=
  match Duration.span Str.is_space line with
  | (String _ _, String "a" (String "t" (String c _))) => Str.is_space c
  | _ => false
  end.

Fixpoint scrub_header (scrubString : string -> string) (lines : list string) : list string :=
  match lines with
  | [] => []
  | line :: rest => if is_frame line then lines else scrubString line :: scrub_header scrubString rest
  end.

Definition scrubErrorStack (stack : string) (scrubString : string -> string) : string :=
  Str.join (String newline "") (scrub_header scrubString (Str.split_on newline stack)).

Section Walk.

Variable scrubString : string -> string.

(** The loops over items and properties, with the recursive call as an argument. *)
Section Call.

Variable call : unknown -> Res unknown.

Fixpoint redact_items (items : list unknown) : Res (list unknown) :=
  match items with
  | [] => Ok []
  | v :: r => let* v' := call v in let* r' := redact_items r in Ok (v' :: r')
  end.

Definition redact_field (key : string) (nested : unknown) : Res unknown :=
  if isSensitiveInputKey key then Ok (JStr REDACTED) else call nested.

Fixpoint redact_fields (record result : fields) : Res fields :=
  match record with
  | [] => Ok result
  | (key, nested) :: r => let* v := redact_field key nested in redact_fields r (assign key v result)
  end.

Definition redactStructuredRecord (record : fields) : Res fields := redact_fields record [].

(** The properties of an error the last loop leaves out. *)
Definition error_key (key : string) : bool := Js.includes ["name"; "message"; "stack"; "cause"] key.

Definition redactError (error : ErrorObj) : Res fields :=
  let result := [("name", er_name error)] in
  let result := match er_message error with JStr m => put "message" (JStr (scrubString m)) result | _ => result end in
  let result := match er_stack error with JStr s => put "stack" (JStr (scrubErrorStack s scrubString)) result | _ => result end in
  let* result := match er_cause error with
                 | None | Some JUndefined => Ok result
                 | Some cause => let* v := call cause in Ok (put "cause" v result)
                 end in
  let* result := match er_errors error with
                 | Some errors => let* vs := redact_items errors in Ok (put "errors" (JArr vs) result)
                 | None => Ok result
                 end in
  redact_fields (List.filter (fun '(key, _) => negb (error_key key)) (er_own error)) result.

End Call.

Fixpoint string_keys (entries : list (unknown * unknown)) : option fields :=
  match entries with
  | [] => Some []
  | (JStr k, v) :: r => match string_keys r with Some f => Some ((k, v) :: f) | None => None end
  | _ => None
  end.

Definition redact_object (call : unknown -> Res unknown) (l : loc) (obj : option Obj) : Res unknown :=
  match obj with
  | Some (OError error) => let* r := redactError call error in Ok (JRec r)
  | Some (OMap entries) =>
      match string_keys entries with
      | Some record => let* r := redactStructuredRecord call record in Ok (JRec r)
      | None => Ok (JRef l)
      end
  | Some (OArray items) => let* vs := redact_items call items in Ok (JArr vs)
  | Some (ORecord record) => let* r := redactStructuredRecord call record in Ok (JRec r)
  | Some OThrowing => Throws
  | Some (OBoxed _) | Some OInstance | None => Ok (JRef l)
  end.

(** The set of ancestors is the path the call is on: each level removes what it added,
    also when it throws. *)
Fixpoint redactStructured (fuel : nat) (heap : Heap) (ancestors : list loc) (value : unknown) : Res unknown :=
  match fuel with
  | O => Spent
  | S fuel =>
      (fix visit (value : unknown) : Res unknown :=
         match value with
         | JStr s => Ok (JStr (scrubString s))
         | JUndefined | JNull | JPrim _ _ => Ok value
         | JArr items => let* vs := redact_items visit items in Ok (JArr vs)
         | JRec record => let* r := redactStructuredRecord visit record in Ok (JRec r)
         | JRef l =>
             if bool_decide (l ∈ ancestors) then Ok (JStr REDACTED)
             else redact_object (redactStructured fuel heap (l :: ancestors)) l (heap !! l)
         end) value
  end.

End Walk.

(** ** The walk ends *)

(** Induction on a value, with the values inside it. *)
Section Induction.

Variable Q : unknown -> Prop.
Hypothesis HUndefined : Q JUndefined.
Hypothesis HNull : Q JNull.
Hypothesis HPrim : forall type text, Q (JPrim type text).
Hypothesis HStr : forall s, Q (JStr s).
Hypothesis HRef : forall l, Q (JRef l).
Hypothesis HArr : forall items, List.Forall Q items -> Q (JArr items).
Hypothesis HRec : forall record, List.Forall (fun kv => Q kv.2) record -> Q (JRec record).

Lemma unknown_tree_ind (v : unknown) : Q v.
Proof.
  revert v. fix IH 1. intros [| | | | |items|record]; [done|done|apply HPrim|apply HStr|apply HRef|apply HArr|apply HRec].
  - induction items as [|x r Hr]; constructor; [apply IH|apply Hr].
  - induction record as [|[k y] r Hr]; constructor; [apply IH|apply Hr].
Qed.

End Induction.

(** The calls [f] and [g] agree on a value, and [f] returns or throws. *)
Definition settled (f g : unknown -> Res unknown) (v : unknown) : Prop := f v = g v /\ f v <> Spent.

Definition ended {A} (r r' : Res A) : Prop := r = r' /\ r <> Spent.

Lemma ended_bind {A B} (r r' : Res A) (k k' : A -> Res B) :
  ended r r' -> (forall a, r = Ok a -> ended (k a) (k' a)) -> ended (rbind r k) (rbind r' k').
Proof. intros [<- H] Hk. destruct r; [by apply Hk|done..]. Qed.

Lemma ended_ok {A} (a : A) : ended (Ok a) (Ok a).
Proof. done. Qed.

Lemma redact_items_ended f g items : List.Forall (settled f g) items -> ended (redact_items f items) (redact_items g items).
Proof.
  induction 1 as [|v r Hv _ IH]; cbn; [done|]. apply ended_bind; [done|]. intros ? _. apply ended_bind; [done|]. done.
Qed.

Lemma redact_fields_ended f g record result :
  List.Forall (fun kv => settled f g kv.2) record -> ended (redact_fields f record result) (redact_fields g record result).
Proof.
  intros H. revert result. induction H as [|[k v] r Hv _ IH]; intros result; cbn; [done|].
  apply ended_bind; [|done]. unfold redact_field. by destruct (isSensitiveInputKey k).
Qed.

Lemma redactError_ended scrub f g e : (forall v, settled f g v) -> ended (redactError scrub f e) (redactError scrub g e).
Proof.
  intros H. unfold redactError. apply ended_bind.
  { destruct (er_cause e) as [c|]; [|done]. destruct c; try done; (apply ended_bind; [apply H|done]). }
  intros result _. apply ended_bind.
  { destruct (er_errors e) as [l|]; [|done]. apply ended_bind; [|done].
    apply redact_items_ended, List.Forall_forall. auto. }
  intros result' _. apply redact_fields_ended, List.Forall_forall. auto.
Qed.

Lemma redact_object_ended scrub f g l obj :
  (obj <> None -> forall v, settled f g v) -> ended (redact_object scrub f l obj) (redact_object scrub g l obj).
Proof.
  intros H. destruct obj as [obj|]; [|done]. specialize (H ltac:(done)).
  destruct obj as [items|own|entries|e| | |]; cbn; try done.
  - apply ended_bind; [|done]. apply redact_items_ended, List.Forall_forall. auto.
  - apply ended_bind; [|done]. apply redact_fields_ended, List.Forall_forall. auto.
  - destruct (string_keys entries); [|done]. apply ended_bind; [|done]. apply redact_fields_ended, List.Forall_forall. auto.
  - apply ended_bind; [|done]. by apply redactError_ended.
Qed.

(** The objects the walk has not entered. *)
Definition ahead (heap : Heap) (ancestors : list loc) : nat := size (dom heap ∖ list_to_set ancestors).

Lemma ahead_enter heap l ancestors : heap !! l <> None -> l ∉ ancestors -> (S (ahead heap (l :: ancestors)) <= ahead heap ancestors)%nat.
Proof.
  intros H Hl. unfold ahead. apply subset_size.
  assert (Hd : l ∈ dom heap) by (apply elem_of_dom; destruct (heap !! l) eqn:E; [by eexists|done]).
  split; [set_solver|]. intros Hs. assert (Hin : l ∈ dom heap ∖ list_to_set ancestors) by set_solver.
  apply Hs in Hin. set_solver.
Qed.

Lemma redactStructured_settled scrub heap fuel k ancestors v :
  (ahead heap ancestors < fuel)%nat ->
  settled (redactStructured scrub fuel heap ancestors) (redactStructured scrub (fuel + k) heap ancestors) v.
Proof.
  revert ancestors v. induction fuel as [|fuel IH]; intros ancestors v Hf; [lia|].
  induction v as [| | | |l|items Hi|record Hr] using unknown_tree_ind; try done.
  - unfold settled. cbn. case_bool_decide as Hl; [done|]. apply redact_object_ended. intros Ho v. apply IH.
    pose proof (ahead_enter heap l ancestors Ho Hl). lia.
  - change (ended (let* vs := redact_items (redactStructured scrub (S fuel) heap ancestors) items in Ok (JArr vs))
                  (let* vs := redact_items (redactStructured scrub (S fuel + k) heap ancestors) items in Ok (JArr vs))).
    apply ended_bind; [by apply redact_items_ended|done].
  - change (ended (let* r := redactStructuredRecord (redactStructured scrub (S fuel) heap ancestors) record in Ok (JRec r))
                  (let* r := redactStructuredRecord (redactStructured scrub (S fuel + k) heap ancestors) record in Ok (JRec r))).
    apply ended_bind; [by apply redact_fields_ended|done].
Qed.

Definition nothing_throws (heap : Heap) : Prop := forall l, heap !! l <> Some OThrowing.

Definition returns {A} (r : Res A) : Prop := r <> Throws.

Lemma returns_bind {A B} (r : Res A) (k : A -> Res B) : returns r -> (forall a, returns (k a)) -> returns (rbind r k).
Proof. intros H Hk. destruct r; cbn; [apply Hk|done..]. Qed.

Lemma returns_ok {A} (a : A) : returns (Ok a).
Proof. done. Qed.

#[local] Hint Resolve returns_bind returns_ok : core.

Lemma redact_items_returns f items : List.Forall (fun v => returns (f v)) items -> returns (redact_items f items).
Proof. induction 1 as [|v r Hv _ IH]; cbn; auto. Qed.

Lemma redact_fields_returns f record result :
  List.Forall (fun kv => returns (f kv.2)) record -> returns (redact_fields f record result).
Proof.
  intros H. revert result. induction H as [|[k v] r Hv _ IH]; intros result; cbn; [done|].
  apply returns_bind; [|auto]. unfold redact_field. by destruct (isSensitiveInputKey k).
Qed.

Lemma redact_object_returns scrub f l obj : obj <> Some OThrowing -> (forall v, returns (f v)) -> returns (redact_object scrub f l obj).
Proof.
  intros Ht H. assert (Hi : forall items, returns (redact_items f items)) by (intros; apply redact_items_returns, List.Forall_forall; auto).
  assert (Hr : forall record result, returns (redact_fields f record result)) by (intros; apply redact_fields_returns, List.Forall_forall; auto).
  destruct obj as [[items|own|entries|e| | |]|]; cbn; unfold redactStructuredRecord; try done; auto.
  - destruct (string_keys entries); auto.
  - apply returns_bind; [|auto]. unfold redactError. apply returns_bind.
    { destruct (er_cause e) as [c|]; [|done]. by destruct c; auto. }
    intros r. apply returns_bind; [by destruct (er_errors e); auto|auto].
Qed.

Lemma redactStructured_returns scrub heap fuel ancestors v : nothing_throws heap -> returns (redactStructured scrub fuel heap ancestors v).
Proof.
  intros Hn. revert ancestors v. induction fuel as [|fuel IH]; intros ancestors v; [done|].
  induction v as [| | | |l|items Hi|record Hr] using unknown_tree_ind; try done.
  - cbn. case_bool_decide; [done|]. apply redact_object_returns; [apply Hn|auto].
  - apply (returns_bind (redact_items (redactStructured scrub (S fuel) heap ancestors) items)); [by apply redact_items_returns|auto].
  - apply (returns_bind (redactStructuredRecord (redactStructured scrub (S fuel) heap ancestors) record)); [by apply redact_fields_returns|auto].
Qed.

(** [new WeakSet()]: no object has been entered, and the walk is given a level for each
    object of the heap. *)
Definition redact_from (scrubString : string -> string) (heap : Heap) (value : unknown) : Res unknown :=
  redactStructured scrubString (S (size heap)) heap [] value.

Definition redactSensitiveValues : Heap -> unknown -> Res unknown := redact_from redactTokenLike.

Lemma redact_from_settled scrubString heap value k :
  settled (redactStructured scrubString (S (size heap)) heap []) (redactStructured scrubString (S (size heap) + k) heap []) value.
Proof.
  apply redactStructured_settled. unfold ahead. rewrite <- (size_dom heap).
  pose proof (subseteq_size (dom heap ∖ list_to_set []) (dom heap)). set_solver by lia.
Qed.

Lemma redact_from_ends scrubString heap value : redact_from scrubString heap value <> Spent.
Proof. apply (redact_from_settled scrubString heap value 0). Qed.

(** Claim C32. The redaction of a value ends, also when objects are shared or reach
    themselves: a level for each object of the heap is enough, every larger number of
    levels gives the same result, and the result is a value unless an object throws while
    it is read. *)
Theorem redaction_terminates (scrubString : string -> string) (heap : Heap) (value : unknown) :
  (forall k, redactStructured scrubString (S (size heap) + k) heap [] value = redact_from scrubString heap value)
  /\ redact_from scrubString heap value <> Spent
  /\ (nothing_throws heap -> exists r, redact_from scrubString heap value = Ok r).
Proof.
  split; [|split].
  - intros k. symmetry. apply redact_from_settled.
  - apply redact_from_ends.
  - intros Hn. pose proof (redactStructured_returns scrubString heap (S (size heap)) [] value Hn) as Hr.
    pose proof (redact_from_ends scrubString heap value) as Hf. unfold redact_from in *. destruct (redactStructured _ _ _ _ _); [by eexists|done..].
Qed.

(** A record whose property is the record, in a map beside an error. *)
Example cyclic_heap : Heap :=
  list_to_map [(0%nat, ORecord [("self", JRef 0); ("Token", JStr "abc"); ("more", JRef 1); ("__proto__", JStr "x")]);
               (1%nat, OMap [(JStr "e", JRef 2); (JStr "who", JStr "ada@example.com")]);
               (2%nat, OError {| er_class := "TypeError"; er_name := JStr "TypeError"; er_message := JStr "no unkey_3ZGRv7KhHfGMZ4Sm3Sjs92"; er_stack := JUndefined;
                                 er_cause := Some (JRef 0); er_errors := None; er_own := [("name", JStr "x"); ("value", JPrim "number" "1")] |})].

Example cyclic_redacted :
  redactSensitiveValues cyclic_heap (JArr [JRef 0; JRef 0]) =
  let r := JRec [("self", JStr REDACTED); ("Token", JStr REDACTED);
                 ("more", JRec [("e", JRec [("name", JStr "TypeError"); ("message", JStr "no [REDACTED]"); ("cause", JStr REDACTED);
                                            ("value", JStr REDACTED)]);
                                ("who", JStr REDACTED)])] in
  Ok (JArr [r; r]).
Proof. vm_compute. reflexivity. Qed.

(** ** The result is clean *)

(** Every string in a value satisfies [Q], and a property with a sensitive name holds
    the mark. *)
Fixpoint clean (Q : string -> Prop) (v : unknown) : Prop :=
  match v with
  | JStr s => Q s
  | JArr items => fold_right and True (List.map (clean Q) items)
  | JRec record =>
      fold_right and True (List.map (fun '(k, x) => (isSensitiveInputKey k = true -> x = JStr REDACTED) /\ clean Q x) record)
  | _ => True
  end.

Definition clean_field (Q : string -> Prop) (kv : string * unknown) : Prop :=
  (isSensitiveInputKey kv.1 = true -> kv.2 = JStr REDACTED) /\ clean Q kv.2.

Lemma clean_arr Q items : clean Q (JArr items) <-> List.Forall (clean Q) items.
Proof. cbn. induction items as [|x r IH]; cbn; [done|]. rewrite List.Forall_cons_iff. tauto. Qed.

Lemma clean_rec Q record : clean Q (JRec record) <-> List.Forall (clean_field Q) record.
Proof. cbn. induction record as [|[k x] r IH]; cbn; [done|]. rewrite List.Forall_cons_iff. unfold clean_field at 1. cbn. tauto. Qed.

Lemma clean_put Q k v r :
  clean_field Q (k, v) -> List.Forall (clean_field Q) r -> List.Forall (clean_field Q) (put k v r).
Proof.
  intros Hv H. induction H as [|[k' v'] r Hx Hr IH]; cbn; [by apply List.Forall_cons|].
  destruct (String.eqb k' k); by apply List.Forall_cons.
Qed.

(** The parts of an error that are kept: its name, and the lines of its stack from the
    first frame on. *)
Definition from_error (scrubString : string -> string) (heap : Heap) (s : string) : Prop :=
  exists l e, heap !! l = Some (OError e)
  /\ (er_name e = JStr s \/ exists stack, er_stack e = JStr stack /\ s = scrubErrorStack stack scrubString).

(** [error.name] is a string. *)
Definition named_errors (heap : Heap) : Prop := forall l e, heap !! l = Some (OError e) -> exists s, er_name e = JStr s.

Section Clean.

Variable scrubString : string -> string.
Variable heap : Heap.
Hypothesis Hnames : named_errors heap.

Let Q (s : string) : Prop := s = REDACTED \/ (exists t, s = scrubString t) \/ from_error scrubString heap s.

Definition cleans (f : unknown -> Res unknown) : Prop := forall v r, f v = Ok r -> clean Q r.

Lemma redact_items_clean f items rs : List.Forall (fun v => forall r, f v = Ok r -> clean Q r) items -> redact_items f items = Ok rs -> List.Forall (clean Q) rs.
Proof.
  intros H. revert rs. induction H as [|v l Hv _ IH]; intros rs; cbn; [by intros [= <-]|].
  destruct (f v) as [x| |] eqn:Ev; try done. cbn. destruct (redact_items f l); try done. cbn. intros [= <-]. constructor; auto.
Qed.

Lemma redact_fields_clean f record result rs :
  List.Forall (fun kv => forall r, f kv.2 = Ok r -> clean Q r) record -> List.Forall (clean_field Q) result ->
  redact_fields f record result = Ok rs -> List.Forall (clean_field Q) rs.
Proof.
  intros H. revert result. induction H as [|[k v] l Hv _ IH]; intros result Hr; cbn; [by intros [= <-]|].
  destruct (redact_field f k v) as [x| |] eqn:Ev; try done. cbn. apply IH. unfold assign.
  destruct (String.eqb k "__proto__"); [done|]. apply clean_put; [|done]. unfold redact_field in Ev. unfold clean_field. cbn.
  destruct (isSensitiveInputKey k); [injection Ev as <-; cbn; unfold Q; auto|]. split; [done|by apply Hv].
Qed.

Lemma redactError_clean f l e rs : heap !! l = Some (OError e) -> cleans f -> redactError scrubString f e = Ok rs -> List.Forall (clean_field Q) rs.
Proof.
  intros He Hf. unfold redactError. destruct (Hnames l e He) as [name Hname]. rewrite Hname.
  set (r0 := [("name", JStr name)]). assert (H0 : List.Forall (clean_field Q) r0).
  { apply List.Forall_cons; [|done]. split; [done|]. right; right. exists l, e. auto. }
  set (r1 := match er_message e with JStr m => _ | _ => _ end). assert (H1 : List.Forall (clean_field Q) r1).
  { unfold r1. destruct (er_message e); try done. apply clean_put; [|done]. split; [done|]. right; left. by eexists. }
  clearbody r1. set (r2 := match er_stack e with JStr m => _ | _ => _ end). assert (H2 : List.Forall (clean_field Q) r2).
  { unfold r2. destruct (er_stack e) eqn:Es; try done. apply clean_put; [|done]. split; [done|]. right; right. exists l, e. eauto. }
  clearbody r2. set (c := match er_cause e with None => _ | _ => _ end). intros H.
  destruct c as [r3| |] eqn:Ec; try done. cbn in H. assert (H3 : List.Forall (clean_field Q) r3).
  { unfold c in Ec. destruct (er_cause e) as [u|]; [|by injection Ec as <-].
    assert (Hu : (let* v := f u in Ok (put "cause" v r2)) = Ok r3 \/ Ok r2 = Ok r3) by (destruct u; auto).
    destruct Hu as [Hu|[= <-]]; [|done]. destruct (f u) eqn:Eu; try done. injection Hu as <-. apply clean_put; [|done]. split; [done|by apply (Hf u)]. }
  clear Ec c. destruct (er_errors e) as [es|].
  - destruct (redact_items f es) as [vs| |] eqn:Ei; try done. cbn in H. revert H. apply redact_fields_clean; [apply List.Forall_forall; intros; by eapply Hf|].
    apply clean_put; [|done]. split; [done|]. apply clean_arr. revert Ei. apply redact_items_clean, List.Forall_forall. intros; by eapply Hf.
  - revert H. apply redact_fields_clean; [apply List.Forall_forall; intros; by eapply Hf|done].
Qed.

Lemma redact_object_clean f l r : cleans f -> redact_object scrubString f l (heap !! l) = Ok r -> clean Q r.
Proof.
  intros Hf. destruct (heap !! l) as [[items|own|entries|e| | |]|] eqn:El; cbn; try (by intros [= <-]).
  - destruct (redact_items f items) eqn:E; try done. intros [= <-]. apply clean_arr. revert E. apply redact_items_clean, List.Forall_forall. intros; by eapply Hf.
  - destruct (redactStructuredRecord f own) eqn:E; try done. intros [= <-]. apply clean_rec. revert E. apply redact_fields_clean; [|done].
    apply List.Forall_forall. intros; by eapply Hf.
  - destruct (string_keys entries); [|by intros [= <-]]. destruct (redactStructuredRecord f _) eqn:E; try done. intros [= <-]. apply clean_rec.
    revert E. apply redact_fields_clean; [|done]. apply List.Forall_forall. intros; by eapply Hf.
  - destruct (redactError scrubString f e) eqn:E; try done. intros [= <-]. apply clean_rec. by eapply redactError_clean.
Qed.

Lemma redactStructured_clean fuel ancestors : cleans (redactStructured scrubString fuel heap ancestors).
Proof.
  revert ancestors. induction fuel as [|fuel IH]; intros ancestors v r; [done|]. revert r.
  induction v as [| | |s|l|items Hi|record Hr] using unknown_tree_ind; intros r; try by intros [= <-].
  - intros [= <-]. right; left. by eexists.
  - cbn. case_bool_decide; [intros [= <-]; by left|]. by apply redact_object_clean.
  - change ((let* vs := redact_items (redactStructured scrubString (S fuel) heap ancestors) items in Ok (JArr vs)) = Ok r -> clean Q r).
    destruct (redact_items _ items) eqn:E; try done. intros [= <-]. apply clean_arr. revert E. by apply redact_items_clean.
  - change ((let* vs := redactStructuredRecord (redactStructured scrubString (S fuel) heap ancestors) record in Ok (JRec vs)) = Ok r -> clean Q r).
    destruct (redactStructuredRecord _ record) eqn:E; try done. intros [= <-]. apply clean_rec. revert E. by apply redact_fields_clean.
Qed.

End Clean.

Lemma clean_mono (Q Q' : string -> Prop) v : (forall s, Q s -> Q' s) -> clean Q v -> clean Q' v.
Proof.
  intros H. induction v as [| | | | |items Hi|record Hr] using unknown_tree_ind; [done..|by apply H|done| |].
  - rewrite !clean_arr, !List.Forall_forall. rewrite List.Forall_forall in Hi. auto.
  - rewrite !clean_rec, !List.Forall_forall. rewrite List.Forall_forall in Hr. intros Hc kv Hin. destruct (Hc kv Hin). split; auto.
Qed.

Lemma REDACTED_safe : safe_text REDACTED.
Proof. change REDACTED with (redactTokenLike REDACTED). apply redactTokenLike_safe. Qed.

Lemma redactSensitiveValues_clean (heap : Heap) (value r : unknown) :
  named_errors heap -> redactSensitiveValues heap value = Ok r ->
  clean (fun s => safe_text s \/ from_error redactTokenLike heap s) r.
Proof.
  intros Hn H. apply (redactStructured_clean _ _ Hn) in H. revert H. apply clean_mono.
  intros s [->|[[t ->]|Hs]]; [left; apply REDACTED_safe|left; apply redactTokenLike_safe|by right].
Qed.

(** In the value redactSensitiveValues returns, at every depth, a property with
    a sensitive name holds the mark and nothing else, and no string contains an e-mail
    address or a token, except the name of an error and the frames of its stack. *)
Theorem redacted_value_clean (heap : Heap) (value r : unknown) :
  named_errors heap -> redactSensitiveValues heap value = Ok r ->
  clean (fun s => safe_text s \/ from_error redactTokenLike heap s) r.
Proof. apply redactSensitiveValues_clean. Qed.

Lemma cyclic_names : named_errors cyclic_heap.
Proof.
  intros l e H. assert (Hl : (l = 0 \/ l = 1 \/ l = 2)%nat).
  { apply elem_of_dom_2 in H. change (dom cyclic_heap) with (dom cyclic_heap : gset nat) in H.
    unfold cyclic_heap in H. rewrite dom_list_to_map_L in H. set_solver. }
  destruct Hl as [->|[->| ->]]; vm_compute in H; [done|done|]. injection H as <-. by eexists.
Qed.

Lemma redacted_value_clean_witness :
  named_errors cyclic_heap /\ exists r, redactSensitiveValues cyclic_heap (JRef 0) = Ok r
  /\ clean (fun s => safe_text s \/ from_error redactTokenLike cyclic_heap s) r.
Proof.
  split; [apply cyclic_names|]. eexists. split; [vm_compute; reflexivity|].
  apply (redacted_value_clean cyclic_heap (JRef 0)); [apply cyclic_names|vm_compute; reflexivity].
Defined.
