(* ===== verification/ScrubEvents.v ===== *)
(** * Redaction of reports

    The part of web/apps/dashboard/lib/sentry/pii-scrubber.ts that rewrites what is
    reported before it is sent: events, transactions, spans, logs and replay frames. A
    report is changed in place, so a step that throws leaves what it changed before: a
    step gives the changed report and its outcome. JSON is a parameter, like URLs. *)

From Stdlib Require Import ZArith Bool Ascii String Lia.
From stdpp Require Import base list gmap strings.
From S2P Require Import Prelude Helpers Scrub ScrubValues.

Local Open Scope string_scope.

(** ** Steps *)

Inductive Outcome := Done | Thrown | OutOfFuel.

Definition Step (A : Type) : Type := A -> A * Outcome.

Definition seq {A} (s t : Step A) : Step A := fun a => let '(a', o) := s a in match o with Done => t a' | _ => (a', o) end.

Definition isolate {A} (s : Step A) : Step A := fun a => let '(a', o) := s a in match o with Thrown => (a', Done) | _ => (a', o) end.

Definition propagate {A} (s : Step A) : Step A := s.

(** A StepRunner, at every type. *)
Abbreviation StepRunner := (forall A, Step A -> Step A).

Definition pure_step {A} (f : A -> A) : Step A := fun a => (f a, Done).

(** [x = f(x)]: the assignment happens when the right side returns. *)
Definition assign_res {A B} (r : Res B) (set : B -> A -> A) : Step A := fun a =>
  match r with Ok b => (set b a, Done) | Throws => (a, Thrown) | Spent => (a, OutOfFuel) end.

(** A step for each item, in order. *)
Fixpoint for_each {A} (s : Step A) (items : list A) : list A * Outcome :=
  match items with
  | [] => ([], Done)
  | a :: r =>
      let '(a', o) := s a in
      match o with Done => let '(r', o') := for_each s r in (a' :: r', o') | _ => (a' :: r, o) end
  end.

(** A step on a part of the report, when it is there. *)
Definition on_part {A B} (part : A -> option B) (set : B -> A -> A) (s : Step B) : Step A := fun a =>
  match part a with Some b => let '(b', o) := s b in (set b' a, o) | None => (a, Done) end.

Definition map_str (f : string -> string) (v : unknown) : unknown := match v with JStr s => JStr (f s) | _ => v end.

(** [JSON.parse] with [None] for a SyntaxError, and [JSON.stringify]. *)
Class JsonApi := { JSON_parse : string -> option unknown; JSON_stringify : unknown -> string }.

(** ** Reports *)

Record TrpcContext := { tp_procedure_path : unknown; tp_input : option unknown }.
Record TraceContext := { tc_op : option string; tc_data : option fields }.
Record LogEntry := { le_message : unknown; le_params : option (list unknown) }.
Record Breadcrumb := { bc_category : option string; bc_message : unknown; bc_data : option fields }.
Record Span := { sp_op : option string; sp_description : unknown; sp_data : option fields }.

Inductive QueryString :=
| QueryMissing
| QueryText (text : string)
| QueryPairs (pairs : list (string * string))
| QueryRecord (record : list (string * string)).

Inductive RequestPart := UrlPart | QueryPart | DataPart | CookiesPart | HeadersPart.

(** [rq_faults] says of a part that reading or assigning a property of it throws, as an
    accessor or a frozen object does, and how many of its entries come before. *)
Record Request := {
  rq_url : unknown;
  rq_query_string : QueryString;
  rq_data : unknown;
  rq_cookies : option fields;
  rq_headers : option fields;
  rq_faults : RequestPart -> option nat;
}.

(** An ErrorEvent or a TransactionEvent: the spans are those of the second. *)
Record Event := {
  ev_trpc : option TrpcContext;
  ev_trace : option TraceContext;
  ev_extra : option fields;
  ev_exceptions : list unknown;
  ev_message : unknown;
  ev_logentry : option LogEntry;
  ev_transaction : unknown;
  ev_request : option Request;
  ev_breadcrumbs : option (list Breadcrumb);
  ev_spans : list Span;
}.

Definition set_tp_input (v : unknown) (c : TrpcContext) : TrpcContext := {| tp_procedure_path := tp_procedure_path c; tp_input := Some v |}.
Definition set_tc_data (d : option fields) (c : TraceContext) : TraceContext := {| tc_op := tc_op c; tc_data := d |}.
Definition set_le_message (v : unknown) (l : LogEntry) : LogEntry := {| le_message := v; le_params := le_params l |}.
Definition set_le_params (p : list unknown) (l : LogEntry) : LogEntry := {| le_message := le_message l; le_params := Some p |}.
Definition set_bc_message (v : unknown) (b : Breadcrumb) : Breadcrumb := {| bc_category := bc_category b; bc_message := v; bc_data := bc_data b |}.
Definition set_bc_data (d : fields) (b : Breadcrumb) : Breadcrumb := {| bc_category := bc_category b; bc_message := bc_message b; bc_data := Some d |}.
Definition set_sp_description (v : unknown) (s : Span) : Span := {| sp_op := sp_op s; sp_description := v; sp_data := sp_data s |}.
Definition set_sp_data (d : option fields) (s : Span) : Span := {| sp_op := sp_op s; sp_description := sp_description s; sp_data := d |}.

Definition set_rq_url (v : unknown) (r : Request) : Request :=
  {| rq_url := v; rq_query_string := rq_query_string r; rq_data := rq_data r; rq_cookies := rq_cookies r; rq_headers := rq_headers r;
     rq_faults := rq_faults r |}.
Definition set_rq_query (q : QueryString) (r : Request) : Request :=
  {| rq_url := rq_url r; rq_query_string := q; rq_data := rq_data r; rq_cookies := rq_cookies r; rq_headers := rq_headers r;
     rq_faults := rq_faults r |}.
Definition set_rq_data (v : unknown) (r : Request) : Request :=
  {| rq_url := rq_url r; rq_query_string := rq_query_string r; rq_data := v; rq_cookies := rq_cookies r; rq_headers := rq_headers r;
     rq_faults := rq_faults r |}.
Definition set_rq_cookies (c : fields) (r : Request) : Request :=
  {| rq_url := rq_url r; rq_query_string := rq_query_string r; rq_data := rq_data r; rq_cookies := Some c; rq_headers := rq_headers r;
     rq_faults := rq_faults r |}.
Definition set_rq_headers (h : fields) (r : Request) : Request :=
  {| rq_url := rq_url r; rq_query_string := rq_query_string r; rq_data := rq_data r; rq_cookies := rq_cookies r; rq_headers := Some h;
     rq_faults := rq_faults r |}.

Definition set_trpc (c : TrpcContext) (e : Event) : Event :=
  {| ev_trpc := Some c; ev_trace := ev_trace e; ev_extra := ev_extra e; ev_exceptions := ev_exceptions e; ev_message := ev_message e;
     ev_logentry := ev_logentry e; ev_transaction := ev_transaction e; ev_request := ev_request e; ev_breadcrumbs := ev_breadcrumbs e; ev_spans := ev_spans e |}.
Definition set_trace (c : TraceContext) (e : Event) : Event :=
  {| ev_trpc := ev_trpc e; ev_trace := Some c; ev_extra := ev_extra e; ev_exceptions := ev_exceptions e; ev_message := ev_message e;
     ev_logentry := ev_logentry e; ev_transaction := ev_transaction e; ev_request := ev_request e; ev_breadcrumbs := ev_breadcrumbs e; ev_spans := ev_spans e |}.
Definition set_extra (x : option fields) (e : Event) : Event :=
  {| ev_trpc := ev_trpc e; ev_trace := ev_trace e; ev_extra := x; ev_exceptions := ev_exceptions e; ev_message := ev_message e;
     ev_logentry := ev_logentry e; ev_transaction := ev_transaction e; ev_request := ev_request e; ev_breadcrumbs := ev_breadcrumbs e; ev_spans := ev_spans e |}.
Definition set_exceptions (x : list unknown) (e : Event) : Event :=
  {| ev_trpc := ev_trpc e; ev_trace := ev_trace e; ev_extra := ev_extra e; ev_exceptions := x; ev_message := ev_message e;
     ev_logentry := ev_logentry e; ev_transaction := ev_transaction e; ev_request := ev_request e; ev_breadcrumbs := ev_breadcrumbs e; ev_spans := ev_spans e |}.
Definition set_message (v : unknown) (e : Event) : Event :=
  {| ev_trpc := ev_trpc e; ev_trace := ev_trace e; ev_extra := ev_extra e; ev_exceptions := ev_exceptions e; ev_message := v;
     ev_logentry := ev_logentry e; ev_transaction := ev_transaction e; ev_request := ev_request e; ev_breadcrumbs := ev_breadcrumbs e; ev_spans := ev_spans e |}.
Definition set_logentry (l : LogEntry) (e : Event) : Event :=
  {| ev_trpc := ev_trpc e; ev_trace := ev_trace e; ev_extra := ev_extra e; ev_exceptions := ev_exceptions e; ev_message := ev_message e;
     ev_logentry := Some l; ev_transaction := ev_transaction e; ev_request := ev_request e; ev_breadcrumbs := ev_breadcrumbs e; ev_spans := ev_spans e |}.
Definition set_transaction (v : unknown) (e : Event) : Event :=
  {| ev_trpc := ev_trpc e; ev_trace := ev_trace e; ev_extra := ev_extra e; ev_exceptions := ev_exceptions e; ev_message := ev_message e;
     ev_logentry := ev_logentry e; ev_transaction := v; ev_request := ev_request e; ev_breadcrumbs := ev_breadcrumbs e; ev_spans := ev_spans e |}.
Definition set_request (r : Request) (e : Event) : Event :=
  {| ev_trpc := ev_trpc e; ev_trace := ev_trace e; ev_extra := ev_extra e; ev_exceptions := ev_exceptions e; ev_message := ev_message e;
     ev_logentry := ev_logentry e; ev_transaction := ev_transaction e; ev_request := Some r; ev_breadcrumbs := ev_breadcrumbs e; ev_spans := ev_spans e |}.
Definition set_breadcrumbs (b : list Breadcrumb) (e : Event) : Event :=
  {| ev_trpc := ev_trpc e; ev_trace := ev_trace e; ev_extra := ev_extra e; ev_exceptions := ev_exceptions e; ev_message := ev_message e;
     ev_logentry := ev_logentry e; ev_transaction := ev_transaction e; ev_request := ev_request e; ev_breadcrumbs := Some b; ev_spans := ev_spans e |}.
Definition set_spans (s : list Span) (e : Event) : Event :=
  {| ev_trpc := ev_trpc e; ev_trace := ev_trace e; ev_extra := ev_extra e; ev_exceptions := ev_exceptions e; ev_message := ev_message e;
     ev_logentry := ev_logentry e; ev_transaction := ev_transaction e; ev_request := ev_request e; ev_breadcrumbs := ev_breadcrumbs e; ev_spans := s |}.

(** ** Names of headers and attributes *)

Definition URL_HEADERS : list string := ["referer"; "referrer"; "location"; ":path"].

Definition HEADER_SCRUB_EXEMPT : list string :=
  [":authority"; ":method"; ":scheme"; "host"; "x-request-id"; "x-correlation-id"; "x-amzn-trace-id"; "x-vercel-id"; "cf-ray";
   "traceparent"; "tracestate"; "sentry-trace"; "etag"; "if-none-match"; "if-match"].

Definition SENSITIVE_HEADERS : list string :=
  ["authorization"; "proxy-authorization"; "cookie"; "set-cookie"; "x-api-key"; "baggage"].

Definition SENSITIVE_HEADER_PATTERNS : list string := ["auth"; "token"; "secret"; "session"; "credential"; "key"].

Definition isSensitiveHeaderName (lowerName : string) : bool :=
  if Js.includes SENSITIVE_HEADERS lowerName then true
  else List.existsb (fun pattern => Str.contains pattern lowerName) SENSITIVE_HEADER_PATTERNS.

Definition CREDENTIAL_INPUT_PROCEDURES : list string := ["share.reveal"].

Definition URL_ATTRIBUTE_KEYS : list string := ["http.url"; "url.full"; "url"; "http.target"; "url.path"; "next.url"].
Definition QUERY_ATTRIBUTE_KEYS : list string := ["http.query"; "url.query"].
Definition FRAGMENT_ATTRIBUTE_KEYS : list string := ["http.fragment"; "url.fragment"].
Definition TEXT_ATTRIBUTE_KEYS : list string := ["transaction"].
Definition SQL_ATTRIBUTE_KEYS : list string := ["db.query.text"; "db.statement"].
Definition SCRUBBED_ATTRIBUTE_KEYS : list string :=
  (URL_ATTRIBUTE_KEYS ++ QUERY_ATTRIBUTE_KEYS ++ FRAGMENT_ATTRIBUTE_KEYS ++ TEXT_ATTRIBUTE_KEYS ++ SQL_ATTRIBUTE_KEYS)%list.
Definition HEADER_ATTRIBUTE_PREFIXES : list string := ["http.request.header."; "http.response.header."].
Definition CORRELATION_ATTRIBUTE_KEYS : list string :=
  ["version"; "user_id"; "workspace_id"; "request_id"; "resource_id"; "trpc_procedure"].
Definition REPLAY_URL_DATA_FIELDS : list string := ["url"; "from"; "to"; "previous"].

(** FORM_ENCODED: every part between ampersands is a name, an equals sign and a value. *)
Definition form_part (part : string) : bool :=
  match Duration.span (fun c => word_char c || Str.has_char c ".%+-[]") part with
  | (String _ _, String "=" _) => true
  | _ => false
  end.
Definition FORM_ENCODED (data : string) : bool := forallb form_part (Str.split_on "&" data).

(** CORRELATION_ID_VALUE_SHAPE *)
Definition correlation_id_shape (value : string) : bool :=
  let n := String.length value in
  (1 <=? n)%nat && (n <=? 64)%nat && Str.all_chars (fun c => Redirect.is_alnum c || Str.has_char c "_.-") value.

(** [op?.startsWith(p)] *)
Definition ostarts (p : string) (o : option string) : bool := match o with Some s => String.prefix p s | None => false end.

Definition is_str (v : unknown) : bool := match v with JStr _ => true | _ => false end.

(** [if (typeof r[key] === "string") r[key] = f(r[key])], for each of the keys. *)
Definition map_attr (f : string -> string) (key : string) (r : fields) : fields :=
  match get key r with JStr s => put key (JStr (f s)) r | _ => r end.
Definition map_attrs (f : string -> string) (keys : list string) (r : fields) : fields :=
  List.fold_left (fun r key => map_attr f key r) keys r.

Section Reports.

Context `{UrlApi} `{JsonApi} (heap : Heap).

(** ** Requests *)

Definition scrubQueryString (queryString : QueryString) : QueryString :=
  match queryString with
  | QueryText text => QueryText (scrubQueryParamsString text true)
  | QueryPairs pairs => QueryPairs (List.map (fun '(name, value) => (name, scrubParamValue name value true)) pairs)
  | QueryRecord record =>
      QueryRecord (List.filter (fun '(name, _) => negb (String.eqb name "__proto__"))
        (List.map (fun '(name, value) => (name, scrubParamValue name value true)) record))
  | QueryMissing => QueryMissing
  end.

Definition scrubRequestData (data : unknown) : Res unknown :=
  match data with
  | JStr text =>
      match JSON_parse text with
      | Some ((JArr _ | JRec _ | JRef _) as parsed) =>
          match redactSensitiveValues heap parsed with
          | Ok v => Ok (JStr (JSON_stringify v))
          | Throws => Throws
          | Spent => Spent
          end
      | _ => Ok (JStr (if FORM_ENCODED text then scrubQueryParamsString text false else redactTokenLike text))
      end
  | _ => redactSensitiveValues heap data
  end.

Definition scrub_header_value (name : string) (value : unknown) : unknown :=
  let lowerName := Str.to_lower name in
  if Js.includes HEADER_SCRUB_EXEMPT lowerName then value
  else if isSensitiveHeaderName lowerName then JStr REDACTED
  else match value with
       | JStr s => if Js.includes URL_HEADERS lowerName then JStr (scrubUrl s) else JStr (redactTokenLike s)
       | _ => value
       end.

Definition is_nullish (v : unknown) : bool := match v with JUndefined | JNull => true | _ => false end.

(** A step that reads or assigns a property of the part. *)
Definition part_step (p : RequestPart) (s : Step Request) : Step Request := fun r =>
  match rq_faults r p with Some _ => (r, Thrown) | None => s r end.

(** An assignment per entry, until one throws. *)
Definition each_entry (fault : option nat) (f : string * unknown -> string * unknown) (l : fields) : fields * Outcome :=
  match fault with None => (List.map f l, Done) | Some n => ((List.map f (take n l) ++ drop n l)%list, Thrown) end.

Definition entries_step (p : RequestPart) (part : Request -> option fields) (set : fields -> Request -> Request)
    (f : string * unknown -> string * unknown) : Step Request := fun r =>
  match part r with
  | Some l => let '(l', o) := each_entry (rq_faults r p) f l in (set l' r, o)
  | None => (r, Done)
  end.

(** The five steps on a request, each run by [run]. *)
Definition scrubRequest (run : StepRunner) : Step Request :=
  seq (run _ (part_step UrlPart (pure_step (fun r => set_rq_url (map_str scrubUrl (rq_url r)) r))))
  (seq (run _ (part_step QueryPart (pure_step (fun r => set_rq_query (scrubQueryString (rq_query_string r)) r))))
  (seq (run _ (part_step DataPart (fun r =>
         if is_nullish (rq_data r) then (r, Done)
         else match scrubRequestData (rq_data r) with
              | Ok v => (set_rq_data v r, Done)
              | Throws => (set_rq_data JUndefined r, Done)
              | Spent => (r, OutOfFuel)
              end)))
  (seq (run _ (entries_step CookiesPart rq_cookies set_rq_cookies (fun '(name, _) => (name, JStr REDACTED))))
       (run _ (entries_step HeadersPart rq_headers set_rq_headers (fun '(name, value) => (name, scrub_header_value name value))))))).

(** ** Breadcrumbs *)

Definition redactLogValue (value : unknown) : Res unknown := redact_from scrubText heap value.

Definition scrubBreadcrumbMessage (category : option string) (message : string) : string :=
  if ostarts "ui." category then redact_emails message else scrubText message.

(** The items of an array, [None] for anything else. *)
Definition array_items (v : unknown) : option (list unknown) :=
  match v with
  | JArr items => Some items
  | JRef l => match heap !! l with Some (OArray items) => Some items | _ => None end
  | _ => None
  end.

Definition scrubConsoleArguments (category : option string) : Step fields := fun data =>
  if negb (Js.eq_ostring category "console") then (data, Done)
  else match array_items (get "arguments" data) with
       | Some items => assign_res (redact_items redactLogValue items) (fun vs => put "arguments" (JArr vs)) data
       | None => (data, Done)
       end.

Definition scrubBreadcrumb : Step Breadcrumb := fun b =>
  let b := set_bc_message (map_str (scrubBreadcrumbMessage (bc_category b)) (bc_message b)) b in
  on_part bc_data set_bc_data
    (seq (scrubConsoleArguments (bc_category b)) (pure_step (map_attrs scrubUrl ["url"; "from"; "to"]))) b.

Definition scrubBreadcrumbs (run : StepRunner) : Step Event := on_part ev_breadcrumbs set_breadcrumbs (for_each (run _ scrubBreadcrumb)).

(** ** Contexts, messages and names *)

Definition scrubTrpcInput : Step Event :=
  on_part ev_trpc set_trpc (fun c =>
    match tp_input c with
    | None => (c, Done)
    | Some input =>
        let credential := match tp_procedure_path c with JStr p => Js.includes CREDENTIAL_INPUT_PROCEDURES p | _ => false end in
        if credential then (set_tp_input (JStr REDACTED) c, Done)
        else match redactSensitiveValues heap input with
             | Ok v => (set_tp_input v c, Done)
             | Throws => (set_tp_input (JStr REDACTED) c, Done)
             | Spent => (c, OutOfFuel)
             end
    end).

Definition redactSensitiveRecord (record : fields) : Res fields :=
  redactStructuredRecord (redactSensitiveValues heap) record.

Definition scrubExtra : Step Event := fun e =>
  match ev_extra e with
  | None => (e, Done)
  | Some extra =>
      match redactSensitiveRecord extra with
      | Ok r => (set_extra (Some r) e, Done)
      | Throws => (set_extra None e, Done)
      | Spent => (e, OutOfFuel)
      end
  end.

Definition scrubExceptions : Step Event := pure_step (fun e => set_exceptions (List.map (map_str scrubText) (ev_exceptions e)) e).

Definition scrubMessage : Step Event :=
  seq (pure_step (fun e => set_message (map_str scrubText (ev_message e)) e))
    (on_part ev_logentry set_logentry
      (seq (pure_step (fun l =>
              let hasParams := match le_params l with Some p => (0 <? List.length p)%nat | None => false end in
              if hasParams then l else set_le_message (map_str scrubText (le_message l)) l))
           (fun l => match le_params l with
                     | Some p => assign_res (redact_items redactLogValue p) set_le_params l
                     | None => (l, Done)
                     end))).

Definition isSqlSpan (op : option string) (data : option fields) : bool :=
  ostarts "db" op
  || match data with Some d => List.existsb (fun key => is_str (get key d)) SQL_ATTRIBUTE_KEYS | None => false end.

Definition scrub_name (op : option string) (data : option fields) (name : string) : string :=
  if isSqlSpan op data then maskSqlLiterals name else scrubUrlsInText name.

Definition scrubTransactionName : Step Event := pure_step (fun e =>
  let op := match ev_trace e with Some c => tc_op c | None => None end in
  let data := match ev_trace e with Some c => tc_data c | None => None end in
  set_transaction (map_str (scrub_name op data) (ev_transaction e)) e).

(** ** Spans *)

Definition strip_prefix (p s : string) : string := String.substring (String.length p) (String.length s) s.

Definition scrub_header_attribute (key : string) (value : unknown) : unknown :=
  match value, List.find (fun p => String.prefix p key) HEADER_ATTRIBUTE_PREFIXES with
  | JStr s, Some prefix => if Js.includes URL_HEADERS (strip_prefix prefix key) then JStr (scrubUrl s) else value
  | _, _ => value
  end.

Definition scrub_query_attribute (value : string) : string :=
  let scrubbed := scrubQueryParamsString value true in
  if String.prefix "?" value then "?" +:+ scrubbed else scrubbed.

Definition scrubSpanAttributes (attributes : fields) : fields :=
  let attributes := map_attrs scrubUrl URL_ATTRIBUTE_KEYS attributes in
  let attributes := map_attrs scrub_query_attribute QUERY_ATTRIBUTE_KEYS attributes in
  let attributes := List.fold_left (fun r key => remove key r) FRAGMENT_ATTRIBUTE_KEYS attributes in
  let attributes := map_attrs scrubUrlsInText TEXT_ATTRIBUTE_KEYS attributes in
  let attributes := map_attrs maskSqlLiterals SQL_ATTRIBUTE_KEYS attributes in
  List.map (fun '(key, value) => (key, scrub_header_attribute key value)) attributes.

Definition scrub_trace : Step Event :=
  on_part ev_trace set_trace (pure_step (fun c => set_tc_data (option_map scrubSpanAttributes (tc_data c)) c)).

Definition scrubSpanFields : Step Span := pure_step (fun s =>
  let s := set_sp_description (map_str (scrub_name (sp_op s) (sp_data s)) (sp_description s)) s in
  set_sp_data (option_map scrubSpanAttributes (sp_data s)) s).

(** ** What is sent *)

Definition scrubEventPii : Step Event :=
  seq (isolate scrubTrpcInput) (seq (isolate scrubExtra) (seq (isolate scrubExceptions) (seq (isolate scrubMessage)
  (seq (isolate scrubTransactionName) (seq (isolate scrub_trace)
  (seq (on_part ev_request set_request (scrubRequest (@isolate))) (scrubBreadcrumbs (@isolate)))))))).

(** [None] drops the transaction. *)
Definition scrubTransactionPii (e : Event) : Res (option Event) :=
  let '(e', o) :=
    seq scrubTransactionName (seq (on_part ev_request set_request (scrubRequest (@propagate))) (seq (scrubBreadcrumbs (@propagate))
    (seq scrubTrpcInput (seq scrubExtra (seq scrub_trace
      (fun e => let '(spans, o) := for_each scrubSpanFields (ev_spans e) in (set_spans spans e, o))))))) e in
  match o with Done => Ok (Some e') | Thrown => Ok None | OutOfFuel => Spent end.

(** The copy is scrubbed; when that throws, its scrubbed keys are deleted. *)
Definition scrubSpanPii (span : Span) : Span :=
  match scrubSpanFields span with
  | (copy, Thrown) =>
      let keep key := negb (Js.includes SCRUBBED_ATTRIBUTE_KEYS key) && negb (List.existsb (fun p => String.prefix p key) HEADER_ATTRIBUTE_PREFIXES) in
      set_sp_data (option_map (List.filter (fun '(key, _) => keep key)) (sp_data copy)) (set_sp_description JUndefined copy)
  | (copy, _) => copy
  end.

Record SentryLog := { lg_message : unknown; lg_attributes : option fields }.

Definition redact_log_field (key : string) (value : unknown) : Res unknown :=
  match value with
  | JStr s =>
      if (Js.includes CORRELATION_ATTRIBUTE_KEYS key && correlation_id_shape s) || String.eqb key "sentry.message.template" then Ok value
      else redact_field redactLogValue key value
  | _ => redact_field redactLogValue key value
  end.

Fixpoint redact_log_fields (record result : fields) : Res fields :=
  match record with
  | [] => Ok result
  | (key, value) :: r => rbind (redact_log_field key value) (fun v => redact_log_fields r (assign key v result))
  end.

Definition redactLogRecord (record : fields) : Res fields := redact_log_fields record [].

(** [None] drops the log. *)
Definition scrubLog (log : SentryLog) : Res (option SentryLog) :=
  let message := match lg_message log with
                 | JStr s => JStr (scrubText s)
                 | JRef l => match heap !! l with Some (OBoxed s) => JStr (scrubText s) | _ => JRef l end
                 | v => v
                 end in
  match lg_attributes log with
  | None => Ok (Some {| lg_message := message; lg_attributes := None |})
  | Some attributes =>
      match redactLogRecord attributes with
      | Ok r => Ok (Some {| lg_message := message; lg_attributes := Some r |})
      | Throws => Ok None
      | Spent => Spent
      end
  end.

(** ** Replay frames *)

Inductive ReplayFrame :=
| ReplayBreadcrumb (payload : Breadcrumb)
| ReplaySpan (description : unknown) (data : option fields)
| ReplayOther.

Definition scrubReplayUrlDataFields (record : fields) : fields :=
  List.map (fun '(key, value) =>
    (key, match value with JStr s => if Js.includes REPLAY_URL_DATA_FIELDS key then JStr (scrubUrl s) else value | _ => value end)) record.

Definition scrubReplayBreadcrumb : Step Breadcrumb := fun b =>
  let b := set_bc_message (map_str (scrubBreadcrumbMessage (bc_category b)) (bc_message b)) b in
  on_part bc_data set_bc_data (seq (scrubConsoleArguments (bc_category b)) (pure_step scrubReplayUrlDataFields)) b.

(** [None] drops the frame. *)
Definition scrubReplayFrame (frame : ReplayFrame) : Res (option ReplayFrame) :=
  match frame with
  | ReplayBreadcrumb payload =>
      match scrubReplayBreadcrumb payload with
      | (b, Done) => Ok (Some (ReplayBreadcrumb b))
      | (_, Thrown) => Ok None
      | (_, OutOfFuel) => Spent
      end
  | ReplaySpan description data => Ok (Some (ReplaySpan (map_str scrubUrlsInText description) (option_map scrubReplayUrlDataFields data)))
  | ReplayOther => Ok (Some ReplayOther)
  end.

End Reports.

(** ** Facts about steps *)

(** A step never throws; it never runs out of fuel; what it ends with; what it keeps,
    also when it throws. *)
Definition calm {A} (s : Step A) : Prop := forall a, (s a).2 <> Thrown.
Definition fueled {A} (s : Step A) : Prop := forall a, (s a).2 <> OutOfFuel.
Definition gives {A} (P : A -> Prop) (s : Step A) : Prop := forall a a', s a = (a', Done) -> P a'.
Definition keeps {A} (P : A -> Prop) (s : Step A) : Prop := forall a, P a -> P (s a).1.

Create HintDb steps discriminated.

Lemma calm_pure {A} (f : A -> A) : calm (pure_step f).
Proof. done. Qed.

Lemma calm_seq {A} (s t : Step A) : calm s -> calm t -> calm (seq s t).
Proof. intros Hs Ht a. unfold seq. specialize (Hs a). destruct (s a) as [a' []]; [apply Ht|done..]. Qed.

Lemma calm_isolate {A} (s : Step A) : calm (isolate s).
Proof. intros a. unfold isolate. by destruct (s a) as [a' []]. Qed.

Lemma calm_on_part {A B} (part : A -> option B) set (s : Step B) : calm s -> calm (on_part part set s).
Proof. intros Hs a. unfold on_part. destruct (part a) as [b|]; [|done]. specialize (Hs b). by destruct (s b). Qed.

Lemma calm_each {A} (s : Step A) : calm s -> calm (for_each s).
Proof.
  intros Hs l. induction l as [|a l IH]; cbn; [done|]. specialize (Hs a). destruct (s a) as [a' []]; [|done..].
  by destruct (for_each s l).
Qed.

Lemma fueled_pure {A} (f : A -> A) : fueled (pure_step f).
Proof. done. Qed.

Lemma fueled_seq {A} (s t : Step A) : fueled s -> fueled t -> fueled (seq s t).
Proof. intros Hs Ht a. unfold seq. specialize (Hs a). destruct (s a) as [a' []]; [apply Ht|done..]. Qed.

Lemma fueled_isolate {A} (s : Step A) : fueled s -> fueled (isolate s).
Proof. intros Hs a. unfold isolate. specialize (Hs a). by destruct (s a) as [a' []]. Qed.

Lemma fueled_on_part {A B} (part : A -> option B) set (s : Step B) : fueled s -> fueled (on_part part set s).
Proof. intros Hs a. unfold on_part. destruct (part a) as [b|]; [|done]. specialize (Hs b). by destruct (s b). Qed.

Lemma fueled_each {A} (s : Step A) : fueled s -> fueled (for_each s).
Proof.
  intros Hs l. induction l as [|a l IH]; cbn; [done|]. specialize (Hs a). destruct (s a) as [a' []]; [|done..].
  by destruct (for_each s l).
Qed.

#[local] Hint Resolve calm_pure calm_seq calm_isolate calm_on_part calm_each
  fueled_pure fueled_seq fueled_isolate fueled_on_part fueled_each : steps.

Lemma gives_left {A} (P : A -> Prop) (s t : Step A) : gives P s -> keeps P t -> gives P (seq s t).
Proof.
  intros Hs Ht a a'. unfold seq. destruct (s a) as [a1 []] eqn:E; [|done..]. intros Et.
  specialize (Ht a1 (Hs a a1 E)). by rewrite Et in Ht.
Qed.

Lemma gives_right {A} (P : A -> Prop) (s t : Step A) : gives P t -> gives P (seq s t).
Proof. intros Ht a a'. unfold seq. destruct (s a) as [a1 []]; [apply Ht|done..]. Qed.

Lemma gives_isolate {A} (P : A -> Prop) (s : Step A) : calm s -> gives P s -> gives P (isolate s).
Proof. intros Hc Hs a a'. unfold isolate. specialize (Hc a). destruct (s a) as [a1 []] eqn:E; [|done..]. intros [= <-]. by apply (Hs a). Qed.

Lemma keeps_seq {A} (P : A -> Prop) (s t : Step A) : keeps P s -> keeps P t -> keeps P (seq s t).
Proof. intros Hs Ht a Ha. unfold seq. specialize (Hs a Ha). destruct (s a) as [a1 []]; [by apply Ht|done..]. Qed.

Lemma keeps_isolate {A} (P : A -> Prop) (s : Step A) : keeps P s -> keeps P (isolate s).
Proof. intros Hs a Ha. unfold isolate. specialize (Hs a Ha). by destruct (s a) as [a1 []]. Qed.

Lemma keeps_pure {A} (P : A -> Prop) (f : A -> A) : (forall a, P a -> P (f a)) -> keeps P (pure_step f).
Proof. intros Hf a Ha. by apply Hf. Qed.

Lemma keeps_on_part {A B} (P : A -> Prop) (part : A -> option B) set (s : Step B) :
  (forall a b, P a -> P (set b a)) -> keeps P (on_part part set s).
Proof. intros Hs a Ha. unfold on_part. destruct (part a) as [b|]; [|done]. destruct (s b). cbn. by apply Hs. Qed.

Lemma gives_on_part {A B} (Q : B -> Prop) (part : A -> option B) set (s : Step B) :
  (forall a b, part (set b a) = Some b) -> gives Q s -> gives (fun a => forall b, part a = Some b -> Q b) (on_part part set s).
Proof.
  intros Hp Hs a a'. unfold on_part. destruct (part a) as [b|] eqn:E; [|by intros [= <-]; rewrite E].
  destruct (s b) as [b' o] eqn:Eb. intros [= <- ->] b''. rewrite Hp. intros [= <-]. by apply (Hs b).
Qed.

#[local] Hint Resolve keeps_seq keeps_isolate keeps_pure keeps_on_part : steps.

Section SentReports.

Context `{UrlApi} `{JsonApi} (heap : Heap).

(** ** Every report is finished *)

Lemma assign_res_fueled {A B} (r : A -> Res B) set : (forall a, r a <> Spent) -> fueled (fun a => assign_res (r a) set a).
Proof. intros Hr a. unfold assign_res. specialize (Hr a). by destruct (r a). Qed.

Lemma redact_items_ends items scrub : redact_items (redact_from scrub heap) items <> Spent.
Proof.
  apply (redact_items_ended (redact_from scrub heap) (redact_from scrub heap)). apply List.Forall_forall.
  intros v _. split; [done|apply redact_from_ends].
Qed.

Lemma redact_fields_ends record result scrub : redact_fields (redact_from scrub heap) record result <> Spent.
Proof.
  apply (redact_fields_ended (redact_from scrub heap) (redact_from scrub heap)). apply List.Forall_forall.
  intros v _. split; [done|apply redact_from_ends].
Qed.

Lemma scrubRequestData_ends data : scrubRequestData heap data <> Spent.
Proof.
  pose proof (redact_from_ends redactTokenLike heap) as He. unfold scrubRequestData, redactSensitiveValues.
  destruct data; try apply He. destruct (JSON_parse s) as [p|]; [|done].
  destruct p as [| | | |l|items|record]; try done; (specialize (He (JRef l)) || specialize (He (JArr items)) || specialize (He (JRec record)));
    by destruct (redact_from redactTokenLike heap _).
Qed.

(** The steps of [isolate] and of [propagate]. *)
Definition runner (isolated : bool) : StepRunner := fun A s => if isolated then isolate s else propagate s.

Lemma runner_fueled b {A} (s : Step A) : fueled s -> fueled (runner b A s).
Proof. destruct b; [apply fueled_isolate|done]. Qed.

Lemma runner_keeps b {A} (P : A -> Prop) (s : Step A) : keeps P s -> keeps P (runner b A s).
Proof. destruct b; [apply keeps_isolate|done]. Qed.

(** The step on the data of a request. *)
Definition data_step : Step Request := fun r =>
  if is_nullish (rq_data r) then (r, Done)
  else match scrubRequestData heap (rq_data r) with
       | Ok v => (set_rq_data v r, Done)
       | Throws => (set_rq_data JUndefined r, Done)
       | Spent => (r, OutOfFuel)
       end.

Lemma data_step_fueled : fueled data_step.
Proof.
  intros r. unfold data_step. destruct (is_nullish (rq_data r)); [done|].
  pose proof (scrubRequestData_ends (rq_data r)). by destruct (scrubRequestData heap (rq_data r)).
Qed.

Lemma part_step_fueled p s : fueled s -> fueled (part_step p s).
Proof. intros Hs r. unfold part_step. destruct (rq_faults r p); [done|apply Hs]. Qed.

Lemma part_step_keeps (P : Request -> Prop) p s : keeps P s -> keeps P (part_step p s).
Proof. intros Hs r Pr. unfold part_step. destruct (rq_faults r p); [done|by apply Hs]. Qed.

Lemma entries_step_fueled p part set f : fueled (entries_step p part set f).
Proof. intros r. unfold entries_step, each_entry. destruct (part r); [|done]. by destruct (rq_faults r p). Qed.

Lemma entries_step_keeps (P : Request -> Prop) p part set f : (forall r v, P r -> P (set v r)) -> keeps P (entries_step p part set f).
Proof. intros Hs r Pr. unfold entries_step, each_entry. destruct (part r); [|done]. destruct (rq_faults r p); cbn; auto. Qed.

Lemma scrubRequest_calm : calm (scrubRequest heap (@isolate)).
Proof. unfold scrubRequest. repeat apply calm_seq; apply calm_isolate. Qed.

Lemma scrubRequest_fueled b : fueled (scrubRequest heap (runner b)).
Proof.
  unfold scrubRequest. fold data_step.
  repeat apply fueled_seq; apply runner_fueled; auto using part_step_fueled, entries_step_fueled, data_step_fueled with steps.
Qed.

Lemma scrubTrpcInput_runs : calm (scrubTrpcInput heap) /\ fueled (scrubTrpcInput heap).
Proof.
  split; [apply calm_on_part|apply fueled_on_part]; intros c; destruct (tp_input c) as [v|]; try done;
    destruct (match tp_procedure_path c with JStr p => _ | _ => _ end); try done;
    pose proof (redact_from_ends redactTokenLike heap v); unfold redactSensitiveValues;
    by destruct (redact_from redactTokenLike heap v).
Qed.

Lemma scrubExtra_runs : calm (scrubExtra heap) /\ fueled (scrubExtra heap).
Proof.
  split; intros e; unfold scrubExtra; destruct (ev_extra e) as [x|]; try done;
    pose proof (redact_fields_ends x [] redactTokenLike); unfold redactSensitiveRecord, redactStructuredRecord, redactSensitiveValues;
    by destruct (redact_fields _ x []).
Qed.

Lemma scrubConsoleArguments_fueled category : fueled (scrubConsoleArguments heap category).
Proof.
  intros d. unfold scrubConsoleArguments. destruct (negb (Js.eq_ostring category "console")); [done|].
  destruct (array_items heap (get "arguments" d)) as [items|]; [|done].
  apply (assign_res_fueled (fun _ => redact_items (redactLogValue heap) items)). intros _. apply redact_items_ends.
Qed.

Lemma scrubBreadcrumb_fueled : fueled (scrubBreadcrumb heap).
Proof.
  intros b. unfold scrubBreadcrumb. apply fueled_on_part, fueled_seq; [apply scrubConsoleArguments_fueled|apply fueled_pure].
Qed.

Lemma scrubMessage_fueled : fueled (scrubMessage heap).
Proof.
  apply fueled_seq; [apply fueled_pure|]. apply fueled_on_part, fueled_seq; [apply fueled_pure|].
  intros l. destruct (le_params l) as [p|]; [|done].
  apply (assign_res_fueled (fun _ => redact_items (redactLogValue heap) p)). intros _. apply redact_items_ends.
Qed.

#[local] Hint Resolve scrubBreadcrumb_fueled scrubMessage_fueled scrubRequest_calm : steps.
#[local] Hint Extern 1 (fueled (scrubRequest _ (@isolate))) => exact (scrubRequest_fueled true) : steps.
#[local] Hint Extern 1 (fueled (scrubRequest _ (@propagate))) => exact (scrubRequest_fueled false) : steps.
#[local] Hint Extern 1 (fueled (scrubTrpcInput _)) => apply scrubTrpcInput_runs : steps.
#[local] Hint Extern 1 (fueled (scrubExtra _)) => apply scrubExtra_runs : steps.

Lemma scrubEventPii_done e : exists e', scrubEventPii heap e = (e', Done).
Proof.
  assert (Hc : calm (scrubEventPii heap)) by (unfold scrubEventPii, scrubBreadcrumbs; auto 20 with steps).
  assert (Hf : fueled (scrubEventPii heap)) by (unfold scrubEventPii, scrubBreadcrumbs, scrubExceptions, scrubTransactionName, scrub_trace; auto 20 with steps).
  specialize (Hc e). specialize (Hf e). destruct (scrubEventPii heap e) as [e' []]; [by eexists|done..].
Qed.

(** ** Every report is clean *)

(** What may be left in a string. *)
Abbreviation kept_text := (fun s => safe_text s \/ from_error redactTokenLike heap s).

(** A parameter of a query or of a form; a form has no parameters of the user interface. *)
Definition clean_param (allowUiStateParams : bool) (p : string * string) : Prop :=
  (isSensitiveParamKey p.1 allowUiStateParams = true -> p.2 = REDACTED) /\ safe_text p.2.

(** The text of clean parameters. *)
Definition clean_params_text (allowUiStateParams : bool) (text : string) : Prop :=
  exists l, List.Forall (clean_param allowUiStateParams) l /\ text = params_toString l.

Definition clean_query (q : QueryString) : Prop :=
  match q with
  | QueryMissing => True
  | QueryText text => clean_params_text true text
  | QueryPairs l | QueryRecord l => List.Forall (clean_param true) l
  end.

Definition clean_header (h : string * unknown) : Prop :=
  let name := Str.to_lower h.1 in
  Js.includes HEADER_SCRUB_EXEMPT name = false ->
  (isSensitiveHeaderName name = true -> h.2 = JStr REDACTED)
  /\ (Js.includes URL_HEADERS name = false -> forall s, h.2 = JStr s -> safe_text s).

(** The data. Text is the JSON of clean data, the text of a clean form, or free of addresses
    and tokens. *)
Definition clean_data (v : unknown) : Prop :=
  match v with
  | JStr s => kept_text s \/ (exists x, clean kept_text x /\ s = JSON_stringify x) \/ clean_params_text false s
  | _ => clean kept_text v
  end.

(** The entries before one that throws. *)
Definition entries_before {A} (fault : option nat) (l : list A) : list A := match fault with Some n => take n l | None => l end.

(** Each part is clean, as far as [faults] lets it be. *)
Definition clean_request (faults : RequestPart -> option nat) (r : Request) : Prop :=
  (faults QueryPart = None -> clean_query (rq_query_string r))
  /\ (faults DataPart = None -> clean_data (rq_data r))
  /\ (forall c, rq_cookies r = Some c -> List.Forall (fun cookie => cookie.2 = JStr REDACTED) (entries_before (faults CookiesPart) c))
  /\ (forall h, rq_headers r = Some h -> List.Forall clean_header (entries_before (faults HeadersPart) h)).

Definition clean_trpc (c : TrpcContext) : Prop :=
  forall v, tp_input c = Some v ->
  clean kept_text v /\ (forall p, tp_procedure_path c = JStr p -> In p CREDENTIAL_INPUT_PROCEDURES -> v = JStr REDACTED).

(** What is sent is clean. Where a property of the request throws, an error event is sent
    with that part as it was from there on; a transaction is not sent. *)
Definition clean_report (error_event : bool) (e : Event) : Prop :=
  (forall c, ev_trpc e = Some c -> clean_trpc c)
  /\ (forall x, ev_extra e = Some x -> List.Forall (clean_field kept_text) x)
  /\ (forall r, ev_request e = Some r -> clean_request (if error_event then rq_faults r else fun _ => None) r).

Hypothesis Hnames : named_errors heap.

Lemma mark_kept : kept_text REDACTED.
Proof. left. apply REDACTED_safe. Qed.

Lemma scrubParamValue_clean b name value : clean_param b (name, scrubParamValue name value b).
Proof.
  unfold clean_param, scrubParamValue. cbn. destruct (isSensitiveParamKey name b); split; try done; [apply REDACTED_safe|apply redactTokenLike_safe].
Qed.

Lemma scrubQueryParamsString_clean b text : clean_params_text b (scrubQueryParamsString text b).
Proof.
  eexists. split; [|reflexivity]. apply List.Forall_map, List.Forall_forall. intros [n v] _. apply scrubParamValue_clean.
Qed.

Lemma scrubQueryString_clean q : clean_query (scrubQueryString q).
Proof.
  destruct q as [|text|pairs|record]; cbn; [done|apply scrubQueryParamsString_clean|..].
  - apply List.Forall_map, List.Forall_forall. intros [n v] _. apply scrubParamValue_clean.
  - apply List.Forall_forall. intros p [Hp _]%List.filter_In. apply List.in_map_iff in Hp as ([n v] & <- & _). apply scrubParamValue_clean.
Qed.

Lemma scrub_header_clean name value : clean_header (name, scrub_header_value name value).
Proof.
  unfold clean_header, scrub_header_value. cbn. intros ->. destruct (isSensitiveHeaderName (Str.to_lower name)).
  - split; [done|]. intros _ s [= <-]. apply REDACTED_safe.
  - split; [done|]. intros ->. destruct value; try done. intros s' [= <-]. apply redactTokenLike_safe.
Qed.

Lemma clean_any v : clean kept_text v -> clean_data v.
Proof.
  destruct v; try done. intros Hs. by left.
Qed.

Lemma scrubRequestData_clean data v : scrubRequestData heap data = Ok v -> clean_data v.
Proof.
  unfold scrubRequestData. destruct data as [| | |text| | |]; try (intros Hr; apply clean_any; by apply (redactSensitiveValues_clean heap _ _ Hnames Hr)).
  assert (Hplain : forall v, Ok (JStr (if FORM_ENCODED text then scrubQueryParamsString text false else redactTokenLike text)) = Ok v -> clean_data v).
  { intros v0 [= <-]. destruct (FORM_ENCODED text); [right; right; apply scrubQueryParamsString_clean|left; left; apply redactTokenLike_safe]. }
  destruct (JSON_parse text) as [p|]; [|apply Hplain].
  destruct p as [| | | |l|items|record]; try apply Hplain; destruct (redactSensitiveValues heap _) as [x| |] eqn:Ex; try done; intros [= <-];
    right; left; exists x; split; [by apply (redactSensitiveValues_clean heap _ _ Hnames Ex)|done|by apply (redactSensitiveValues_clean heap _ _ Hnames Ex)|done|by apply (redactSensitiveValues_clean heap _ _ Hnames Ex)|done].
Qed.

Lemma data_step_gives : gives (fun r => clean_data (rq_data r)) data_step.
Proof.
  intros r r'. unfold data_step. destruct (is_nullish (rq_data r)) eqn:En.
  - intros [= <-]. by destruct (rq_data r).
  - destruct (scrubRequestData heap (rq_data r)) eqn:E; intros [= <-]; cbn; [by eapply scrubRequestData_clean|done].
Qed.

(** The faults that a runner gets past. *)
Abbreviation passed b r := (if b : bool then rq_faults r else fun _ => None).

(** A part is clean after its step, unless the step threw and the runner went on. *)
Lemma part_step_gives b p (P : Request -> Prop) s :
  calm s -> gives P s -> (forall r, rq_faults (s r).1 = rq_faults r) -> gives (fun r => passed b r p = None -> P r) (runner b _ (part_step p s)).
Proof.
  intros Hc Hs Hf r r'. unfold part_step. destruct b; cbn; unfold isolate, propagate.
  - destruct (rq_faults r p) eqn:E; [intros [= <-]; by rewrite E|]. specialize (Hc r). specialize (Hf r).
    destruct (s r) as [r1 []] eqn:Es; [|done..]. intros [= <-] _. by apply (Hs r).
  - destruct (rq_faults r p); [done|]. intros Hd _. by apply (Hs r).
Qed.

Lemma entries_step_gives b p part set f (Q : string * unknown -> Prop) :
  (forall x, Q (f x)) -> (forall r v, part (set v r) = Some v) -> (forall r v, rq_faults (set v r) = rq_faults r) ->
  gives (fun r => forall l, part r = Some l -> List.Forall Q (entries_before (passed b r p) l)) (runner b _ (entries_step p part set f)).
Proof.
  intros Hf Hp Hr r r'. assert (Hall : forall l, List.Forall Q (List.map f l)) by (intros l; apply List.Forall_map, List.Forall_forall; auto).
  unfold entries_step, each_entry. destruct b; cbn; unfold isolate, propagate; destruct (part r) as [l|] eqn:El;
    try (intros [= <-] l'; by rewrite El).
  - destruct (rq_faults r p) as [n|] eqn:E; intros [= <-] l'; rewrite Hp, Hr, E; intros [= <-]; cbn [entries_before]; [|apply Hall].
    rewrite take_app, length_map, length_take, (take_ge (List.map _ _)) by (rewrite length_map, length_take; lia).
    replace (take (n - n `min` List.length l) (drop n l)) with (@nil (string * unknown)); [rewrite app_nil_r; apply Hall|].
    destruct (Nat.le_ge_cases n (List.length l)); [replace (n - n `min` List.length l)%nat with 0%nat by lia; done|].
    rewrite drop_ge by lia. by rewrite take_nil.
  - destruct (rq_faults r p); [done|]. intros [= <-] l'. rewrite Hp. intros [= <-]. apply Hall.
Qed.

Lemma scrubRequest_gives b : gives (fun r => clean_request (passed b r) r) (scrubRequest heap (runner b)).
Proof.
  unfold scrubRequest. fold data_step.
  assert (Hd : forall P : Request -> Prop, (forall a v, P a -> P (set_rq_data v a)) -> keeps P (runner b _ (part_step DataPart data_step))).
  { intros P Hp. apply runner_keeps, part_step_keeps. intros r Pr. unfold data_step. destruct (is_nullish (rq_data r)); [done|].
    destruct (scrubRequestData heap (rq_data r)); cbn; auto. }
  assert (He : forall (P : Request -> Prop) p part set f, (forall r v, P r -> P (set v r)) -> keeps P (runner b _ (entries_step p part set f)))
    by (intros; by apply runner_keeps, entries_step_keeps).
  intros r r' E. unfold clean_request. split; [|split; [|split]]; revert r r' E.
  - apply (gives_right (fun r => passed b r QueryPart = None -> clean_query (rq_query_string r))), gives_left.
    + apply part_step_gives; [auto with steps| |done]. intros r r' [= <-]. apply scrubQueryString_clean.
    + repeat apply keeps_seq; [by apply Hd|by apply He..].
  - apply (gives_right (fun r => passed b r DataPart = None -> clean_data (rq_data r))), gives_right, gives_left.
    + apply part_step_gives; [|apply data_step_gives|].
      * intros r. unfold data_step. destruct (is_nullish (rq_data r)); [done|]. by destruct (scrubRequestData heap (rq_data r)).
      * intros r. unfold data_step. destruct (is_nullish (rq_data r)); [done|]. by destruct (scrubRequestData heap (rq_data r)).
    + apply keeps_seq; by apply He.
  - apply (gives_right (fun r => forall c, rq_cookies r = Some c -> List.Forall _ (entries_before (passed b r CookiesPart) c))).
    do 2 apply gives_right. apply gives_left; [apply entries_step_gives; [by intros []|done..]|by apply He].
  - apply (gives_right (fun r => forall h, rq_headers r = Some h -> List.Forall _ (entries_before (passed b r HeadersPart) h))).
    do 3 apply gives_right. apply entries_step_gives; [intros []; apply scrub_header_clean|done..].
Qed.

Abbreviation trpc_clean := (fun e => forall c, ev_trpc e = Some c -> clean_trpc c).
Abbreviation extra_clean := (fun e => forall x, ev_extra e = Some x -> List.Forall (clean_field kept_text) x).
Abbreviation request_clean b := (fun e => forall r, ev_request e = Some r -> clean_request (passed b r) r).

Lemma scrubTrpcInput_gives : gives trpc_clean (scrubTrpcInput heap).
Proof.
  apply gives_on_part; [done|]. intros c c'. destruct (tp_input c) as [input|] eqn:Ei; [|intros [= <-] v; by rewrite Ei].
  destruct (match tp_procedure_path c with JStr p => _ | _ => _ end) eqn:Ep.
  - intros [= <-] v [= <-]. split; [apply mark_kept|done].
  - assert (Hp : forall p, tp_procedure_path c = JStr p -> ~ In p CREDENTIAL_INPUT_PROCEDURES).
    { intros p E Hin. rewrite E in Ep. apply StrFacts.includes_In in Hin. congruence. }
    destruct (redactSensitiveValues heap input) as [x| |] eqn:Er; intros [= <-] v [= <-]; cbn.
    + split; [by eapply redactSensitiveValues_clean|]. intros p E Hin. by destruct (Hp p E).
    + split; [apply mark_kept|done].
Qed.

Lemma scrubExtra_gives : gives extra_clean (scrubExtra heap).
Proof.
  intros e e'. unfold scrubExtra. destruct (ev_extra e) as [x|] eqn:Ex; [|intros [= <-]; by rewrite Ex].
  destruct (redactSensitiveRecord heap x) as [r| |] eqn:Er; intros [= <-] x' [= <-].
  assert (Hc : clean kept_text (JRec r)); [|by apply clean_rec in Hc].
  apply (redactSensitiveValues_clean heap (JRec x)); [done|]. unfold redactSensitiveRecord in Er.
  change (rbind (redactStructuredRecord (redactSensitiveValues heap) x) (fun r => Ok (JRec r)) = Ok (JRec r)). by rewrite Er.
Qed.

(** Steps on other parts of the report. *)
Lemma frame_message (P : Event -> Prop) :
  (forall e v, P e -> P (set_message v e)) -> (forall e l, P e -> P (set_logentry l e)) -> keeps P (scrubMessage heap).
Proof. intros H1 H2. apply keeps_seq; [apply keeps_pure; auto|by apply keeps_on_part]. Qed.

#[local] Hint Resolve frame_message : steps.

Ltac frame := repeat first [apply keeps_seq | apply keeps_isolate | apply frame_message | apply keeps_on_part | apply keeps_pure]; try done.

Lemma extra_frame (P : Event -> Prop) : (forall e x, P e -> P (set_extra x e)) -> keeps P (scrubExtra heap).
Proof. intros Hp e Pe. unfold scrubExtra. destruct (ev_extra e); [|done]. destruct (redactSensitiveRecord heap l); cbn; auto. Qed.

Lemma spans_frame (P : Event -> Prop) :
  (forall e x, P e -> P (set_spans x e)) -> keeps P (fun e => let '(spans, o) := for_each scrubSpanFields (ev_spans e) in (set_spans spans e, o)).
Proof. intros Hp e Pe. destruct (for_each scrubSpanFields (ev_spans e)). cbn. auto. Qed.

Lemma event_clean e e' : scrubEventPii heap e = (e', Done) -> clean_report true e'.
Proof.
  intros E. split; [|split].
  - revert E. apply (gives_left trpc_clean); [apply gives_isolate; [apply scrubTrpcInput_runs|apply scrubTrpcInput_gives]|].
    apply keeps_seq; [apply keeps_isolate, extra_frame; done|]. unfold scrubBreadcrumbs. frame.
  - revert E. apply (gives_right extra_clean), gives_left; [apply gives_isolate; [apply scrubExtra_runs|apply scrubExtra_gives]|].
    unfold scrubBreadcrumbs. frame.
  - revert E. apply (gives_right (request_clean true)). do 5 apply gives_right. apply gives_left; [|unfold scrubBreadcrumbs; frame].
    apply gives_on_part; [done|]. exact (scrubRequest_gives true).
Qed.

Lemma transaction_clean e e' : scrubTransactionPii heap e = Ok (Some e') -> clean_report false e'.
Proof.
  unfold scrubTransactionPii. set (s := seq _ _). destruct (s e) as [e1 []] eqn:E; intros [= ->]. unfold s in E. split; [|split].
  - revert E. apply (gives_right trpc_clean). do 2 apply gives_right. apply gives_left; [apply scrubTrpcInput_gives|].
    apply keeps_seq; [apply extra_frame; done|]. apply keeps_seq; [frame|by apply spans_frame].
  - revert E. apply (gives_right extra_clean). do 3 apply gives_right. apply gives_left; [apply scrubExtra_gives|].
    apply keeps_seq; [frame|by apply spans_frame].
  - revert E. apply (gives_right (request_clean false)), gives_left; [apply gives_on_part; [done|]; exact (scrubRequest_gives false)|].
    apply keeps_seq; [unfold scrubBreadcrumbs; frame|]. apply keeps_seq; [by apply keeps_on_part|].
    apply keeps_seq; [by apply extra_frame|]. apply keeps_seq; [frame|by apply spans_frame].
Qed.

Lemma transaction_ends e : exists r, scrubTransactionPii heap e = Ok r.
Proof.
  unfold scrubTransactionPii. set (s := seq _ _). assert (Hf : fueled s).
  { unfold s. repeat apply fueled_seq; try (apply fueled_on_part; exact (scrubRequest_fueled false));
      unfold scrubBreadcrumbs, propagate, scrubTransactionName, scrub_trace; auto 10 with steps.
    intros e0. assert (Hs : fueled (for_each scrubSpanFields)) by (apply fueled_each; unfold scrubSpanFields; auto with steps).
    specialize (Hs (ev_spans e0)). by destruct (for_each scrubSpanFields (ev_spans e0)). }
  specialize (Hf e). destruct (s e) as [e1 []]; [by eexists..|done].
Qed.

End SentReports.


(** A parser of paths with a query, without escapes. *)
Definition demo_parse (text : string) : list (string * string) :=
  List.map (fun part => (Redirect.first_part "=" part, strip_prefix (Redirect.first_part "=" part +:+ "=") part)) (Str.split_on "&" text).
Definition demo_print (l : list (string * string)) : string := Str.join "&" (List.map (fun '(k, v) => k +:+ "=" +:+ v) l).

#[local] Instance demo_urls : UrlApi := {|
  URL := string * list (string * string);
  new_URL u := if String.prefix "/" u then
                 let path := Redirect.first_part "?" u in
                 let query := strip_prefix (path +:+ "?") u in
                 Some (path, if String.eqb query "" then [] else demo_parse query)
               else None;
  url_protocol _ := "http:";
  url_host _ := "scrub.local";
  url_pathname := fst;
  url_searchParams := snd;
  set_searchParams l u := (fst u, l);
  set_pathname p u := (p, snd u);
  url_search u := match snd u with [] => "" | l => "?" +:+ demo_print l end;
  url_toString u := "http://scrub.local" +:+ fst u;
  parse_params := demo_parse;
  params_toString := demo_print;
  decodeURIComponent := Some;
|}.

#[local] Instance demo_json : JsonApi := {| JSON_parse _ := None; JSON_stringify _ := "" |}.

Definition demo_event : Event := {|
  ev_trpc := Some {| tp_procedure_path := JStr "share.reveal"; tp_input := Some (JRec [("id", JStr "x")]) |};
  ev_trace := Some {| tc_op := Some "db.query"; tc_data := None |};
  ev_extra := Some [("password", JStr "p"); ("note", JRef 0)];
  ev_exceptions := [JStr "failed for ada@example.com at /keys?token=abc&page=2"];
  ev_message := JUndefined;
  ev_logentry := None;
  ev_transaction := JStr "select * from t where id = 'x'";
  ev_request := Some {| rq_url := JStr "/keys/unkey_3ZGRv7KhHfGMZ4Sm3Sjs92?q=1"; rq_query_string := QueryPairs [("code", "c")];
                        rq_data := JStr "a=1&email=ada@example.com"; rq_cookies := Some [("sid", JStr "s")];
                        rq_headers := Some [("Cookie", JStr "sid=s"); ("X-Request-Id", JStr "r"); ("Accept", JStr "text/html")]; rq_faults _ := None |};
  ev_breadcrumbs := Some [{| bc_category := Some "console"; bc_message := JStr "ok"; bc_data := Some [("arguments", JArr [JRef 3]); ("url", JStr "/a")] |}];
  ev_spans := [];
|}.

Definition demo_report : Event := {|
  ev_trpc := Some {| tp_procedure_path := JStr "share.reveal"; tp_input := Some (JStr REDACTED) |};
  ev_trace := Some {| tc_op := Some "db.query"; tc_data := None |};
  ev_extra := None;
  ev_exceptions := [JStr "failed for [REDACTED] at /keys?token=[REDACTED]&page=2"];
  ev_message := JUndefined;
  ev_logentry := None;
  ev_transaction := JStr "select * from t where id = ?";
  ev_request := Some {| rq_url := JStr "/keys/[REDACTED]?q=1"; rq_query_string := QueryPairs [("code", REDACTED)];
                        rq_data := JStr "a=1&email=[REDACTED]"; rq_cookies := Some [("sid", JStr REDACTED)];
                        rq_headers := Some [("Cookie", JStr REDACTED); ("X-Request-Id", JStr "r"); ("Accept", JStr "text/html")]; rq_faults _ := None |};
  ev_breadcrumbs := Some [{| bc_category := Some "console"; bc_message := JStr "ok"; bc_data := Some [("arguments", JArr [JRef 3]); ("url", JStr "/a")] |}];
  ev_spans := [];
|}.

(** The record in the extra data throws when it is read, so the extra data is dropped;
    the argument of the breadcrumb is no object of the heap. *)
Definition demo_heap : Heap := {[ 0%nat := OThrowing ]}.

Example demo_event_scrubbed : scrubEventPii demo_heap demo_event = (demo_report, Done).
Proof. vm_compute. reflexivity. Qed.

Lemma demo_names : named_errors demo_heap.
Proof. intros l e. unfold demo_heap. by intros [_ [=]]%lookup_singleton_Some. Qed.


(** An argument of console.error that throws when it is read leaves its breadcrumb as it
    was: the arguments and the URL behind them are sent unchanged in an error event. A
    transaction with the same breadcrumb is dropped. *)
Theorem throwing_argument_sent :
  let b := {| bc_category := Some "console"; bc_message := JUndefined;
              bc_data := Some [("arguments", JArr [JStr "ada@example.com"; JRef 0]); ("url", JStr "/cb?code=c")] |} in
  let e := {| ev_trpc := None; ev_trace := None; ev_extra := None; ev_exceptions := []; ev_message := JUndefined; ev_logentry := None;
              ev_transaction := JUndefined; ev_request := None; ev_breadcrumbs := Some [b]; ev_spans := [] |} in
  scrubEventPii demo_heap e = (e, Done) /\ scrubTransactionPii demo_heap e = Ok None.
Proof. vm_compute. done. Qed.

(** A header that throws when it is assigned stops the step: the headers behind it are sent
    as they were in an error event, and the other parts are still rewritten. *)
Example throwing_header_sent :
  let request cookie first := {| rq_url := JUndefined; rq_query_string := QueryMissing; rq_data := JUndefined; rq_cookies := Some [("sid", JStr cookie)];
      rq_headers := Some [("Cookie", JStr first); ("Authorization", JStr "Bearer t")];
      rq_faults p := match p with HeadersPart => Some 1%nat | _ => None end |} in
  let event r := {| ev_trpc := None; ev_trace := None; ev_extra := None; ev_exceptions := []; ev_message := JUndefined; ev_logentry := None;
              ev_transaction := JUndefined; ev_request := Some r; ev_breadcrumbs := None; ev_spans := [] |} in
  scrubEventPii demo_heap (event (request "s" "sid=s")) = (event (request REDACTED REDACTED), Done)
  /\ scrubTransactionPii demo_heap (event (request "s" "sid=s")) = Ok None.
Proof. vm_compute. done. Qed.
