(* ===== verification/ErrorFilter.v ===== *)
(** * Error filter

    web/apps/dashboard/lib/utils/error-classification.ts, logging/structured-logger.ts,
    sentry/error-filter.ts and sentry/trace-sampler.ts: which errors are reported, what is
    logged in place of the others, and how often a trace is kept. The logger of Sentry is
    a parameter: it is ready, missing, or throws. *)

From Stdlib Require Import ZArith Bool Ascii String Lia.
From stdpp Require Import base list gmap strings.
From S2P Require Import Prelude Helpers Scrub ScrubValues ScrubEvents.

Local Open Scope string_scope.

(** ** Classification *)

Definition EXPECTED_TRPC_CODES : list string :=
  ["UNAUTHORIZED"; "FORBIDDEN"; "NOT_FOUND"; "TOO_MANY_REQUESTS"; "BAD_REQUEST"; "CONFLICT"].

Inductive LogLevel := LTrace | LDebug | LInfo | LWarn | LError | LFatal.

Definition ERROR_SEVERITY_MAP : list (string * LogLevel) :=
  [("UNAUTHORIZED", LInfo); ("FORBIDDEN", LInfo); ("NOT_FOUND", LInfo); ("TOO_MANY_REQUESTS", LWarn); ("BAD_REQUEST", LWarn);
   ("CONFLICT", LWarn); ("INTERNAL_SERVER_ERROR", LError)].

Record TRPCErrorInfo := { ei_code : string; ei_message : unknown; ei_data : unknown; ei_path : unknown }.

Definition isExpectedErrorCode (code : string) : bool := Js.includes EXPECTED_TRPC_CODES code.

(** The properties of an object, [None] for a primitive. *)
Definition props (heap : Heap) (v : unknown) : option fields :=
  match v with
  | JRec r => Some r
  | JArr _ => Some []
  | JRef l =>
      match heap !! l with
      | Some (ORecord own) => Some own
      | Some (OError e) => Some (([("name", er_name e); ("message", er_message e); ("stack", er_stack e)]
                                  ++ match er_cause e with Some c => [("cause", c)] | None => [] end ++ er_own e)%list)
      | _ => Some []
      end
  | _ => None
  end.

Section Classify.

Context (heap : Heap).

Definition code_of (r : fields) : option string := match get "code" r with JStr c => Some c | _ => None end.

Definition isExpectedTRPCError (error : unknown) : bool :=
  match props heap error with
  | None => false
  | Some e =>
      let server := match code_of e with Some c => isExpectedErrorCode c | None => false end in
      match props heap (get "data" e) with
      | Some data => match code_of data with Some c => isExpectedErrorCode c | None => server end
      | None => server
      end
  end.

(** [a || b] on values. *)
Definition truthy_value (v : unknown) : bool :=
  match v with
  | JUndefined | JNull => false
  | JStr s => negb (String.eqb s "")
  | JPrim _ t => negb (Js.includes ["false"; "0"; "-0"; "NaN"] t)
  | _ => true
  end.
Definition or_value (a b : unknown) : unknown := if truthy_value a then a else b.

Definition extractTRPCErrorInfo (error : unknown) : option TRPCErrorInfo :=
  match props heap error with
  | None => None
  | Some e =>
      let server :=
        match code_of e with
        | Some c => Some {| ei_code := c; ei_message := or_value (get "message" e) (JStr "Unknown error"); ei_data := get "data" e; ei_path := get "path" e |}
        | None => None
        end in
      match props heap (get "data" e) with
      | Some data =>
          match code_of data with
          | Some c => Some {| ei_code := c; ei_message := or_value (or_value (get "message" e) (get "message" data)) (JStr "Unknown error");
                              ei_data := get "data" e; ei_path := get "path" data |}
          | None => server
          end
      | None => server
      end
  end.

(** A code that is a member of every object is found, and is no level. *)
Definition getErrorLogLevel (code : string) : option LogLevel :=
  match List.find (fun '(c, _) => String.eqb c code) ERROR_SEVERITY_MAP with
  | Some (_, level) => Some level
  | None => if Js.includes Duration.object_prototype code then None else Some LError
  end.

Definition shouldReportToSentry (error : unknown) : bool := negb (isExpectedTRPCError error).

Record ErrorClassification := {
  ec_isExpected : bool;
  ec_shouldReport : bool;
  ec_errorInfo : option TRPCErrorInfo;
  ec_logLevel : option LogLevel;
}.

Definition classifyError (error : unknown) : ErrorClassification :=
  let errorInfo := extractTRPCErrorInfo error in
  let isExpected := isExpectedTRPCError error in
  {| ec_isExpected := isExpected; ec_shouldReport := negb isExpected; ec_errorInfo := errorInfo;
     ec_logLevel := match errorInfo with Some i => getErrorLogLevel (ei_code i) | None => Some LError end |}.

Definition shouldReportError (error : unknown) : bool := ec_shouldReport (classifyError error).

End Classify.

(** ** Structured logs *)

(** [timestamp] is 0 when it is missing. *)
Record LogContext := { cx_userId : option string; cx_workspaceId : option string; cx_requestId : option string; cx_timestamp : Z }.

Record LogEnv := { NEXT_PUBLIC_APP_VERSION : option string; NODE_ENV : option string; now : Z }.

Inductive Logger := LoggerReady | LoggerMissing | LoggerThrows.

Inductive LogLine :=
| SentryLine (level : LogLevel) (message : string) (attributes : fields)
| ConsoleDebug (message : string) (attributes : fields)
| ConsoleError (message : string) (attributes : fields).

Definition opt_value (o : option string) : unknown := match o with Some s => JStr s | None => JUndefined end.
Definition num_value (n : Z) : unknown := JPrim "number" (Num.string_of_Z n).

(** [{ ...a, ...b }] *)
Definition spread (a b : fields) : fields := List.fold_left (fun r '(k, v) => put k v r) b a.

Definition createBaseAttributes (env : LogEnv) (context : option LogContext) : fields :=
  let field (f : LogContext -> option string) := opt_value (match context with Some c => f c | None => None end) in
  [("service", JStr "dashboard"); ("version", opt_value (NEXT_PUBLIC_APP_VERSION env)); ("environment", opt_value (NODE_ENV env));
   ("user_id", field cx_userId); ("workspace_id", field cx_workspaceId); ("request_id", field cx_requestId)].

Definition removeUndefinedValues (obj : fields) : fields :=
  List.filter (fun '(_, v) => match v with JUndefined => false | _ => true end) obj.

Definition send_log (logger : Logger) (level : LogLevel) (message : string) (attributes : fields) : list LogLine :=
  match logger with
  | LoggerReady => [SentryLine level message attributes]
  | LoggerMissing => []
  | LoggerThrows => [ConsoleError message attributes]
  end.

Definition level_name (l : LogLevel) : string :=
  match l with LTrace => "TRACE" | LDebug => "DEBUG" | LInfo => "INFO" | LWarn => "WARN" | LError => "ERROR" | LFatal => "FATAL" end.

Definition logTRPCError (env : LogEnv) (logger : Logger) (errorInfo : TRPCErrorInfo) (context : LogContext) : list LogLine :=
  let message := "tRPC operation completed with expected error" in
  let attributes := removeUndefinedValues (spread (createBaseAttributes env (Some context))
    [("trpc_procedure", or_value (ei_path errorInfo) (JStr "unknown")); ("trpc_error_code", JStr (ei_code errorInfo));
     ("trpc_error_message", ei_message errorInfo);
     ("response_time_ms", if Js.truthy_Z (cx_timestamp context) then num_value (now env - cx_timestamp context) else JUndefined)]) in
  match getErrorLogLevel (ei_code errorInfo), logger with
  | Some level, LoggerReady => [SentryLine level message attributes]
  | Some level, LoggerMissing => [ConsoleDebug ("[" +:+ level_name level +:+ "] " +:+ message) attributes]
  | _, _ => [ConsoleError message attributes]
  end.

Definition logTRPCSuccess (env : LogEnv) (logger : Logger) (procedure : string) (context : LogContext) (responseTimeMs : option Z) : list LogLine :=
  send_log logger LInfo "tRPC operation completed successfully"
    (removeUndefinedValues (spread (createBaseAttributes env (Some context))
      [("trpc_procedure", JStr procedure); ("response_time_ms", match responseTimeMs with Some n => num_value n | None => JUndefined end)])).

Definition logUserAction (env : LogEnv) (logger : Logger) (action userId : string) (attributes : fields) : list LogLine :=
  send_log logger LInfo "User action performed"
    (removeUndefinedValues (spread (spread
      (createBaseAttributes env (Some {| cx_userId := Some userId; cx_workspaceId := None; cx_requestId := None; cx_timestamp := 0 |}))
      (remove "user_id" attributes)) [("action_type", JStr action); ("user_id", JStr userId)])).

Definition logOperation (env : LogEnv) (logger : Logger) (level : LogLevel) (message : string) (attributes : fields) (context : option LogContext) : list LogLine :=
  send_log logger level message (removeUndefinedValues (spread (createBaseAttributes env context) attributes)).

Definition logRequestContext (env : LogEnv) (logger : Logger) (method url userAgent ip : option string) (context : LogContext) : list LogLine :=
  send_log logger LDebug "Request context"
    (removeUndefinedValues (spread (createBaseAttributes env (Some context))
      [("request_method", opt_value method); ("request_url", opt_value url); ("request_user_agent", opt_value userAgent); ("request_ip", opt_value ip)])).

Definition logPerformance (env : LogEnv) (logger : Logger) (operation : string) (durationMs : Z) (context : LogContext) (additionalMetrics : fields) : list LogLine :=
  send_log logger LInfo "Performance metric"
    (removeUndefinedValues (spread (spread (createBaseAttributes env (Some context))
      [("operation_name", JStr operation); ("duration_ms", num_value durationMs)]) additionalMetrics)).

(** ** The hook before an event is sent *)

Record ErrorFilterOptions := {
  logFilteredErrors : bool;
  additionalFilters : list (unknown -> bool);
  (* what contextProvider returns, completed by createLogContext *)
  filter_context : LogContext;
}.

Definition typeof (v : unknown) : string :=
  match v with JUndefined => "undefined" | JStr _ => "string" | JPrim type _ => type | _ => "object" end.

Definition error_summary (heap : Heap) (error : unknown) : fields :=
  match (match error with JRef l => heap !! l | _ => None end) with
  | Some (OError e) => [("error_type", JStr (er_class e)); ("error_message", er_message e)]
  | _ => [("error_type", JStr (typeof error)); ("error_message", JStr "Unknown error")]
  end.

Section Filter.

Context `{UrlApi} `{JsonApi} (heap : Heap) (env : LogEnv) (logger : Logger).

(** [None] drops the event; the lines are what is logged. *)
Definition createErrorFilter (options : ErrorFilterOptions) (event : Event) (originalException : unknown) : option Event * list LogLine :=
  let '(event, _) := scrubEventPii heap event in
  if negb (truthy_value originalException) then (Some event, [])
  else
    let classification := classifyError heap originalException in
    match ec_isExpected classification, ec_errorInfo classification with
    | true, Some info => (None, if logFilteredErrors options then logTRPCError env logger info (filter_context options) else [])
    | _, _ =>
        if List.existsb (fun filter => filter originalException) (additionalFilters options) then
          (None, if logFilteredErrors options
                 then logOperation env logger LInfo "Error filtered by custom filter" (error_summary heap originalException) (Some (filter_context options))
                 else [])
        else (Some event, [])
    end.

Definition logFilteredError (error : unknown) (context : LogContext) : list LogLine :=
  match ec_errorInfo (classifyError heap error) with
  | Some info => logTRPCError env logger info context
  | None => logOperation env logger LWarn "Unclassified error logged" (error_summary heap error) (Some context)
  end.

End Filter.

(** ** Traces *)

(** The rate in hundredths. [status] is [Number(attributes["http.status_code"])], [None]
    when the attribute is missing or no number. *)
Definition tracesSampler (name : option string) (status : option Z) : Z :=
  match name with
  | None => 10
  | Some name =>
      let has t := Str.contains t name in
      if has "error" || has "auth" || has "payment" || has "api/key" || has "trpc"
         || match status with Some n => (400 <=? n)%Z | None => false end then 100
      else if has "healthcheck" || has "health" || has "ping" || has "metrics" then 1
      else if has "_next/static" || has "favicon" || has "robots.txt" || has "sitemap" then 0
      else 10
  end%Z.

(** ** What is reported *)

(** The two readings of an error agree: it is expected exactly when the code that is
    logged is an expected one. *)
Lemma expected_reads_info heap error :
  isExpectedTRPCError heap error = match extractTRPCErrorInfo heap error with Some i => isExpectedErrorCode (ei_code i) | None => false end.
Proof.
  unfold isExpectedTRPCError, extractTRPCErrorInfo. destruct (props heap error) as [e|]; [|done].
  destruct (props heap (get "data" e)) as [d|]; [destruct (code_of d); [done|]|]; by destruct (code_of e).
Qed.

(** The hook sends nothing but the rewritten event, and it holds back exactly
    the errors with an expected code, wherever the code is found, and those of the
    additional filters. An error that is held back by its code is logged once, at the
    level of that code, never as an error, whether Sentry can log or not. *)
Theorem filter_sends_scrubbed `{UrlApi} `{JsonApi} heap env logger options event error :
  let '(sent, lines) := createErrorFilter heap env logger options event error in
  (forall e, sent = Some e -> e = (scrubEventPii heap event).1 /\ lines = [])
  /\ (sent = None <-> truthy_value error = true
      /\ ((exists i, extractTRPCErrorInfo heap error = Some i /\ In (ei_code i) EXPECTED_TRPC_CODES)
          \/ List.existsb (fun filter => filter error) (additionalFilters options) = true))
  /\ (forall i, truthy_value error = true -> extractTRPCErrorInfo heap error = Some i -> In (ei_code i) EXPECTED_TRPC_CODES ->
      logFilteredErrors options = true ->
      exists level attributes, getErrorLogLevel (ei_code i) = Some level /\ (level = LInfo \/ level = LWarn)
      /\ match logger with
         | LoggerReady => lines = [SentryLine level "tRPC operation completed with expected error" attributes]
         | LoggerMissing => lines = [ConsoleDebug ("[" +:+ level_name level +:+ "] tRPC operation completed with expected error") attributes]
         | LoggerThrows => lines = [ConsoleError "tRPC operation completed with expected error" attributes]
         end).
Proof.
  unfold createErrorFilter. destruct (scrubEventPii heap event) as [e1 o].
  destruct (truthy_value error); cbn [negb]; [|by repeat split; try intros [? _]; intros; simplify_eq].
  unfold classifyError. cbn [ec_isExpected ec_errorInfo]. rewrite expected_reads_info.
  destruct (extractTRPCErrorInfo heap error) as [i|].
  - unfold isExpectedErrorCode. destruct (Js.includes EXPECTED_TRPC_CODES (ei_code i)) eqn:Ei.
    + apply StrFacts.includes_In in Ei. repeat split; try done; eauto.
      intros i' _ [= <-] _ ->. unfold logTRPCError.
      assert (Hl : exists level, getErrorLogLevel (ei_code i) = Some level /\ (level = LInfo \/ level = LWarn)).
      { repeat (destruct Ei as [<-|Ei]; [eexists; split; [reflexivity|auto]|]). done. }
      destruct Hl as (level & -> & Hl). exists level. eexists. repeat split; [done|]. by destruct logger.
    + assert (Hn : ~ In (ei_code i) EXPECTED_TRPC_CODES) by (rewrite <- StrFacts.includes_In; congruence).
      destruct (List.existsb _ (additionalFilters options)); (split; [|split]); try by intros; simplify_eq.
      * split; auto.
      * split; [done|]. intros [_ [(i' & [= <-] & Hi)|]]; done.
  - destruct (List.existsb _ (additionalFilters options)); (split; [|split]); try by intros; simplify_eq.
    + split; auto.
    + split; [done|]. by intros [_ [(i' & ? & _)|]].
Qed.
