(* ===== verification/Keys.v ===== *)
(** * API keys, hashes and encryption keys

    [KeyV1] and [newKey] (web/internal/keys), [sha256] (web/internal/hash),
    [AesGCM] and [EncryptionKey] (web/internal/encryption). The base58 codec
    (package base-x), the SHA-256 digest, AES-GCM and the random source are
    parameters. *)

From Stdlib Require Import ZArith Lia Bool Ascii String.
From stdpp Require Import base list strings.
From S2P Require Import Prelude Encoding.

Local Open Scope Z_scope.

(** ** SHA-256 hashes *)

Module Hash.

(** sha256.ts carries its own copy of the base64 codec, statement for statement
    that of web/internal/encoding, so it has the same model. *)
Definition b64 (data : Data) : string := encode_data data.
Definition decodeBase64 (s : string) : option (list Z) := Encoding.decode s.

(** [sha256(source)]: the digest of the bytes, in base64. *)
Definition sha256 (digest : list Z -> list Z) (source : Data) : string :=
  b64 (DBytes (digest (bytes_of source))).

End Hash.

(** ** Version 1 keys *)

Module KeyV1.

Section WithCodec.

Context (base58_encode : list Z -> string) (base58_decode : string -> option (list Z)).

Record KeyV1 := { prefix : option string; random : list Z }.

Inductive KeyError :=
| DecodeError        (* thrown by base58.decode *)
| UnsupportedVersion (* "Only version 1 keys are supported" *)
| BadByteLength.     (* "v1 keys must be between 16 and 255 bytes long" *)

(** [buf.slice(2, 2 + len)]; an absent length byte gives NaN, hence nothing. *)
Definition slice_random (buf : list Z) : list Z :=
  match buf with
  | _ :: len :: rest => take (Z.to_nat len) rest
  | _ => []
  end.

(** The constructor called with a string. *)
Definition fromString (arg : string) : KeyError + KeyV1 :=
  let '(p, s) := match Str.split_on "_" arg with
                 | [p; s] => (Some p, s)
                 | _ => (None, arg)
                 end in
  match base58_decode s with
  | None => inl DecodeError
  | Some buf =>
      match buf with
      | 1 :: _ => inr {| prefix := p; random := slice_random buf |}
      | _ => inl UnsupportedVersion
      end
  end.

(** The constructor called with options; [bytes] is what the random source
    filled the array with. *)
Definition create (byteLength : Z) (p : option string) (bytes : list Z) : KeyError + KeyV1 :=
  if (byteLength <? 16) || (255 <? byteLength) then inl BadByteLength
  else inr {| prefix := p; random := bytes |}.

(** The encoded part: version, length (one byte) and random bytes. *)
Definition encoded (k : KeyV1) : string :=
  base58_encode (1 :: Z.of_nat (List.length (random k)) mod 256 :: random k).

Definition toString (k : KeyV1) : string :=
  match prefix k with
  | Some p => if Js.truthy_string p then Str.join "_" [p; encoded k] else encoded k
  | None => encoded k
  end.

(** [newKey(opts)]: the key, its hash and its start. *)
Definition newKey (digest : list Z -> list Z) (byteLength : Z) (p : option string) (bytes : list Z) :
    KeyError + (string * string * string) :=
  match create byteLength p bytes with
  | inl e => inl e
  | inr k =>
      let key := toString k in
      let start := String.substring 0 (match p with Some p => String.length p | None => 0 end + 5)%nat key in
      inr (key, Hash.sha256 digest (DString key), start)
  end.

End WithCodec.

End KeyV1.

(** ** AES-GCM *)

Module AesGCM.

Section WithCrypto.

(** [subtle_encrypt iv data] and [subtle_decrypt iv data] under one imported
    key; decryption fails on data that does not authenticate. *)
Context (subtle_encrypt : list Z -> list Z -> list Z)
        (subtle_decrypt : list Z -> list Z -> option (list Z))
        (textDecode : list Z -> string).

Record Ciphertext := { iv : string; ciphertext : string }.

(** [encrypt(secret)]; [nonce] is the random initialization vector. *)
Definition encrypt (nonce : list Z) (secret : string) : Ciphertext :=
  {| iv := encode nonce; ciphertext := encode (subtle_encrypt nonce (utf8 secret)) |}.

(** [decrypt(req)]; [None] when a base64 field or the decryption is refused. *)
Definition decrypt (req : Ciphertext) : option string :=
  match decode (iv req), decode (ciphertext req) with
  | Some nonce, Some data => option_map textDecode (subtle_decrypt nonce data)
  | _, _ => None
  end.

End WithCrypto.

End AesGCM.

(** ** Serialized encryption keys *)

Module EncryptionKey.

(** [algorithm] and [random] are whatever the split produced, possibly
    [undefined]; [keyVersion] is [None] when [parseInt] gave NaN. *)
Record EncryptionKey := {
  keyVersion : option Z;
  algorithm : option string;
  random : option string;
}.

Inductive SerializationError :=
| NoSchemaVersion (s : string)
| UnknownVersion (schemaVersion : string).

(** [EncryptionKey.new]; [bytes] are the 64 random bytes. *)
Definition new (version : Z) (bytes : list Z) : EncryptionKey :=
  {| keyVersion := Some version; algorithm := Some "AES-GCM"%string; random := Some (encode bytes) |}.

Definition fromString (s : string) : SerializationError + EncryptionKey :=
  let parts := Str.split_on "_" s in
  match parts with
  | [] => inl (NoSchemaVersion s)
  | schemaVersion :: rest =>
      if negb (Js.truthy_string schemaVersion) then inl (NoSchemaVersion s)
      else if String.eqb schemaVersion "v1" then
        (* parseInt(undefined) parses the text "undefined", which is NaN *)
        inr {| keyVersion := Num.parseInt (Js.coalesce (nth_error rest 0) "undefined"%string);
               algorithm := nth_error rest 1;
               random := nth_error rest 2 |}
      else inl (UnknownVersion schemaVersion)
  end.

(** [Array.prototype.join] renders [undefined] as the empty string. *)
Definition toString (k : EncryptionKey) : string :=
  Str.join "_" ["v1"%string;
                match keyVersion k with Some n => Num.string_of_Z n | None => "NaN"%string end;
                Js.coalesce (algorithm k) EmptyString; Js.coalesce (random k) EmptyString].

End EncryptionKey.

(** ** Facts *)

Section Facts.

Lemma no_underscore_join p s :
  Str.has_char "_" p = false -> Str.has_char "_" s = false ->
  Str.split_on "_" (Str.join "_" [p; s]) = [p; s].
Proof.
  intros Hp Hs. change (Str.join "_" [p; s]) with (p +:+ String "_" s).
  by rewrite StrFacts.split_on_app, StrFacts.split_on_none.
Qed.


(** A string with an underscore in its first part splits into three at least. *)
Lemma split_three p s :
  Str.has_char "_" p = true ->
  exists a b c l, Str.split_on "_" (p +:+ String "_" s) = a :: b :: c :: l.
Proof.
  assert (Hone : forall q, exists b c l, Str.split_on "_" (q +:+ String "_" s) = b :: c :: l).
  { induction q as [|x q (b & c & l & IH)].
    - change (EmptyString +:+ String "_" s) with (String "_" s). cbn [Str.split_on].
      destruct (Str.split_on "_" s) as [|c l] eqn:E; [by destruct (StrFacts.split_on_ne "_" s)|]. by eexists _, _, _.
    - rewrite StrFacts.string_app_cons. cbn [Str.split_on]. rewrite IH.
      destruct (Ascii.eqb x "_"); by eexists _, _, _. }
  induction p as [|x p IH]; [done|]. rewrite StrFacts.string_app_cons. cbn [Str.has_char Str.split_on].
  destruct (Ascii.eqb x "_") eqn:Ex.
  - intros _. destruct (Hone p) as (b & c & l & ->). by eexists _, _, _, _.
  - simpl. intros H. destruct (IH H) as (a & b & c & l & ->). by eexists _, _, _, _.
Qed.

Lemma print_no_underscore n : Str.has_char "_" (Num.string_of_Z n) = false.
Proof.
  assert (Hp : forall m, 0 <= m -> Str.has_char "_" (Num.print m) = false).
  { intros m Hm. destruct (NumFacts.print_spec m Hm) as (Ha & _).
    by apply (StrFacts.all_chars_no NumFacts.is_digit). }
  unfold Num.string_of_Z. destruct (Z.ltb_spec n 0); [|by apply Hp]. cbn [Str.has_char]. rewrite Hp by lia. done.
Qed.

Lemma encode_no_underscore l : List.Forall is_byte l -> Str.has_char "_" (encode l) = false.
Proof.
  intros Hl. rewrite encode_eq_groups.
  assert (H : forall s, Str.has_char "_" s = existsb (fun d => Ascii.eqb d "_") (list_ascii_of_string s)).
  { induction s as [|c s IH]; simpl; [done|]. by rewrite IH. }
  rewrite H, encode_groups_chars, existsb_app by done. apply orb_false_iff. split.
  - pose proof (group_sextets_ok l Hl) as Hs. induction Hs as [|x xs Hx _ IH]; [done|].
    cbn [List.map existsb]. rewrite IH, orb_false_r.
    destruct (alphabet x Hx) as (_ & Hi & _). destruct (Ascii.eqb_spec (sym x) "_") as [E|]; [|done].
    rewrite E in Hi. done.
  - induction (group_padding l); simpl; auto.
Qed.

Lemma substring_full n s : (String.length s <= n)%nat -> String.substring 0 n s = s.
Proof. revert s. induction n as [|n IH]; intros [|c s] H; simpl in *; try done; [lia|]. rewrite IH by lia. done. Qed.

Lemma substring_app p s n :
  String.substring 0 (String.length p + n) (p +:+ s) = p +:+ String.substring 0 n s.
Proof. induction p as [|c p IH]; [done|]. rewrite !StrFacts.string_app_cons. simpl. by rewrite IH. Qed.

End Facts.

(** ** A concrete codec, at which the witnesses are evaluated *)

Module NibbleCodec.

(** Two letters per byte, from "A" to "P". *)
Definition letter (n : Z) : ascii := ascii_of_nat (65 + Z.to_nat n).

Fixpoint enc (b : list Z) : string :=
  match b with
  | [] => EmptyString
  | x :: b' => String (letter (x / 16)) (String (letter (x mod 16)) (enc b'))
  end.

Definition value (c : ascii) : option Z :=
  let n := Z.of_nat (nat_of_ascii c) - 65 in if (0 <=? n) && (n <? 16) then Some n else None.

Fixpoint dec (s : string) : option (list Z) :=
  match s with
  | EmptyString => Some []
  | String c EmptyString => None
  | String c (String d s') =>
      match value c, value d, dec s' with
      | Some h, Some l, Some r => Some (h * 16 + l :: r)
      | _, _, _ => None
      end
  end.

Lemma value_letter n : 0 <= n < 16 -> value (letter n) = Some n /\ letter n <> "_"%char.
Proof.
  intros Hn. unfold letter. replace (Some n) with (Some (Z.of_nat (Z.to_nat n))) by (f_equal; lia).
  assert (H : (Z.to_nat n < 16)%nat) by lia. revert H. generalize (Z.to_nat n). clear.
  intros n Hn. do 16 (destruct n as [|n]; [by vm_compute|]). lia.
Qed.

Lemma dec_enc b : List.Forall is_byte b -> dec (enc b) = Some b.
Proof.
  induction 1 as [|x b Hx _ IH]; [done|]. unfold is_byte in Hx. cbn [enc dec].
  rewrite (proj1 (value_letter (x / 16) ltac:(Z.to_euclidean_division_equations; lia))).
  rewrite (proj1 (value_letter (x mod 16) ltac:(Z.to_euclidean_division_equations; lia))).
  rewrite IH. do 2 f_equal. Z.to_euclidean_division_equations; lia.
Qed.

Lemma enc_no_underscore b : List.Forall is_byte b -> Str.has_char "_" (enc b) = false.
Proof.
  induction 1 as [|x b Hx _ IH]; [done|]. unfold is_byte in Hx. cbn [enc Str.has_char]. rewrite IH, orb_false_r.
  destruct (value_letter (x / 16) ltac:(Z.to_euclidean_division_equations; lia)) as [_ ?%Ascii.eqb_neq].
  destruct (value_letter (x mod 16) ltac:(Z.to_euclidean_division_equations; lia)) as [_ ?%Ascii.eqb_neq].
  by apply orb_false_iff.
Qed.

Lemma dec_underscore s : Str.has_char "_" s = true -> dec s = None.
Proof.
  assert (H : forall n s, (String.length s <= n)%nat -> Str.has_char "_" s = true -> dec s = None).
  { induction n as [|n IH]; intros [|c [|d s']] Hl; simpl in Hl; try done; [lia|]. cbn [Str.has_char dec].
    destruct (Ascii.eqb_spec c "_") as [->|]; [done|].
    destruct (Ascii.eqb_spec d "_") as [->|]; [by destruct (value c)|]. simpl. intros Hs.
    rewrite (IH s') by (done || lia). by destruct (value c), (value d). }
  eauto.
Qed.

(** A toy cipher: every byte shifted by the first byte of the vector. *)
Definition shift (k : Z) (b : list Z) : list Z := List.map (fun x => (x + k) mod 256) b.

Lemma shift_shift k b : List.Forall is_byte b -> shift (- k) (shift k b) = b.
Proof.
  induction 1 as [|x b Hx _ IH]; [done|]. cbn [shift List.map]. unfold shift in IH. f_equal; [|exact IH].
  unfold is_byte in Hx. rewrite Zplus_mod_idemp_l. replace (x + k + - k) with x by lia. by apply Z.mod_small.
Qed.

Lemma shift_bytes k b : List.Forall is_byte (shift k b).
Proof.
  induction b as [|x b IH]; constructor; [|exact IH]. unfold is_byte. apply Z.mod_pos_bound. lia.
Qed.

End NibbleCodec.

(** ** The properties of the component *)

Import KeyV1.

(** A key survives printing and parsing: given a codec that inverts
    itself on bytes and never emits the separator, [KeyV1.fromString] returns
    the key [toString] printed, when the key has at most 255 random bytes and
    its prefix, if any, is not empty and holds no underscore. *)
Theorem keyV1_roundtrip (enc : list Z -> string) (dec : string -> option (list Z)) (k : KeyV1) :
  (forall b, List.Forall is_byte b -> dec (enc b) = Some b) ->
  (forall b, List.Forall is_byte b -> Str.has_char "_" (enc b) = false) ->
  List.Forall is_byte (random k) -> (List.length (random k) <= 255)%nat ->
  match prefix k with None => True | Some p => p <> EmptyString /\ Str.has_char "_" p = false end ->
  fromString dec (toString enc k) = inr k.
Proof.
  intros Hde Hu Hb Hl Hp. destruct k as [p r]. cbn [prefix random] in *. unfold toString, fromString, encoded.
  cbn [prefix random]. rewrite Z.mod_small by lia.
  assert (Hbuf : List.Forall is_byte (1 :: Z.of_nat (List.length r) :: r))
    by (repeat (apply List.Forall_cons; [unfold is_byte; lia|]); done).
  assert (Hdec : match dec (enc (1 :: Z.of_nat (List.length r) :: r)) with
                 | None => inl DecodeError
                 | Some buf => match buf with
                               | 1 :: _ => inr {| prefix := p; random := slice_random buf |}
                               | _ => inl UnsupportedVersion
                               end
                 end = inr {| prefix := p; random := r |}).
  { rewrite Hde by done. unfold slice_random. by rewrite Nat2Z.id, firstn_all. }
  destruct p as [p|].
  - destruct Hp as [Hne Hpu]. replace (Js.truthy_string p) with true
      by (symmetry; apply negb_true_iff; by apply String.eqb_neq).
    rewrite no_underscore_join by auto. exact Hdec.
  - rewrite StrFacts.split_on_none by auto. exact Hdec.
Qed.

Definition sample_random : list Z := [0; 1; 2; 3; 4; 5; 6; 7; 8; 9; 10; 11; 12; 13; 14; 255].

Lemma sample_bytes : List.Forall is_byte sample_random.
Proof. repeat (apply List.Forall_cons; [unfold is_byte; lia|]). apply List.Forall_nil. Qed.

Lemma keyV1_roundtrip_witness :
  fromString NibbleCodec.dec (toString NibbleCodec.enc {| prefix := Some "prod"%string; random := sample_random |})
    = inr {| prefix := Some "prod"%string; random := sample_random |}.
Proof.
  apply (keyV1_roundtrip NibbleCodec.enc NibbleCodec.dec).
  - exact NibbleCodec.dec_enc.
  - exact NibbleCodec.enc_no_underscore.
  - exact sample_bytes.
  - simpl; lia.
  - split; [discriminate|reflexivity].
Defined.

(** A key whose prefix contains an underscore cannot be parsed back:
    the printed key has more than two parts, so the constructor decodes the
    whole string, prefix included, and the codec refuses the separator. *)
Theorem keyV1_underscore_prefix_unparsable (enc : list Z -> string) (dec : string -> option (list Z))
    (p : string) (bytes : list Z) :
  (forall s, Str.has_char "_" s = true -> dec s = None) ->
  Str.has_char "_" p = true ->
  fromString dec (toString enc {| prefix := Some p; random := bytes |}) = inl DecodeError.
Proof.
  intros Hd Hp. unfold toString. cbn [prefix].
  replace (Js.truthy_string p) with true by (by destruct p).
  change (Str.join "_" [p; ?x]) with (p +:+ String "_" x). set (e := encoded _ _).
  unfold fromString. destruct (split_three p e Hp) as (a & b & c & l & ->).
  rewrite Hd; [done|]. by rewrite StrFacts.has_char_app, Hp.
Qed.

Lemma keyV1_underscore_prefix_unparsable_witness :
  fromString NibbleCodec.dec (toString NibbleCodec.enc {| prefix := Some "sk_live"%string; random := sample_random |})
    = inl DecodeError.
Proof. apply keyV1_underscore_prefix_unparsable; [exact NibbleCodec.dec_underscore|reflexivity]. Defined.

(** [newKey] refuses byte lengths outside 16..255 and otherwise
    returns the printed key, the base64 SHA-256 of the key, from which the
    digest is recovered by decoding, and a start that shows the prefix, the
    separator and four characters of the encoded part. *)
Theorem newKey_spec (enc digest : _) (byteLength : Z) (p : string) (bytes : list Z) :
  p <> EmptyString -> (forall b, List.Forall is_byte (digest b)) ->
  newKey enc digest byteLength (Some p) bytes =
    (if (16 <=? byteLength) && (byteLength <=? 255) then
       let k := {| prefix := Some p; random := bytes |} in
       inr (toString enc k, Hash.sha256 digest (DString (toString enc k)),
            p +:+ String "_" (String.substring 0 4 (encoded enc k)))
     else inl BadByteLength) /\
  forall key hash start, newKey enc digest byteLength (Some p) bytes = inr (key, hash, start) ->
    decode hash = Some (digest (utf8 key)).
Proof.
  intros Hp Hd. unfold newKey, create. split.
  - zcases; try done. simpl. repeat f_equal. unfold toString. cbn [prefix].
    replace (Js.truthy_string p) with true by (symmetry; apply negb_true_iff; by apply String.eqb_neq).
    change (Str.join "_" [p; ?x]) with (p +:+ String "_" x). by rewrite substring_app.
  - intros key hash start H. destruct ((byteLength <? 16) || (255 <? byteLength)); [done|]. simplify_eq.
    change (Hash.sha256 digest (DString (toString enc {| prefix := Some p; random := bytes |})))
      with (encode (digest (utf8 (toString enc {| prefix := Some p; random := bytes |})))).
    by rewrite decode_encode.
Qed.

Lemma newKey_spec_witness :
  newKey NibbleCodec.enc (fun b => [Z.of_nat (List.length b) mod 256]) 16 (Some "prod"%string) sample_random =
    inr (toString NibbleCodec.enc {| prefix := Some "prod"%string; random := sample_random |},
         Hash.sha256 (fun b => [Z.of_nat (List.length b) mod 256])
           (DString (toString NibbleCodec.enc {| prefix := Some "prod"%string; random := sample_random |})),
         "prod_ABBA"%string).
Proof.
  refine (proj1 (newKey_spec NibbleCodec.enc (fun b => [Z.of_nat (List.length b) mod 256]) 16 "prod"%string sample_random _ _)).
  - discriminate.
  - intros b. repeat constructor; unfold is_byte; apply Z.mod_pos_bound; reflexivity.
Defined.

(** What [encrypt] returns, [decrypt] opens: given a cipher that
    inverts itself under equal vectors, produces bytes, and a text decoder that
    inverts the UTF-8 of the secret, the secret comes back through both base64 fields. *)
Theorem aes_roundtrip (subtle_encrypt : list Z -> list Z -> list Z)
    (subtle_decrypt : list Z -> list Z -> option (list Z)) (textDecode : list Z -> string)
    (nonce : list Z) (secret : string) :
  (forall iv data, List.Forall is_byte data -> subtle_decrypt iv (subtle_encrypt iv data) = Some data) ->
  (forall iv data, List.Forall is_byte (subtle_encrypt iv data)) ->
  textDecode (utf8 secret) = secret -> List.Forall is_byte nonce ->
  AesGCM.decrypt subtle_decrypt textDecode (AesGCM.encrypt subtle_encrypt nonce secret) = Some secret.
Proof.
  intros Hinv Hbytes Htext Hn. unfold AesGCM.decrypt, AesGCM.encrypt. cbn [AesGCM.iv AesGCM.ciphertext].
  rewrite !decode_encode by auto. rewrite Hinv; [simpl; by rewrite Htext|]. clear Htext.
  induction secret as [|c s IH]; [constructor|]. cbn [utf8]. apply List.Forall_app. split; [|done].
  pose proof (nat_ascii_bounded c). zcases; repeat constructor; unfold is_byte; Z.to_euclidean_division_equations; lia.
Qed.

Lemma aes_roundtrip_witness :
  AesGCM.decrypt (fun iv data => Some (NibbleCodec.shift (- List.hd 0 iv) data))
    (fun b => string_of_list_ascii (List.map (fun x => ascii_of_nat (Z.to_nat x)) b))
    (AesGCM.encrypt (fun iv data => NibbleCodec.shift (List.hd 0 iv) data) [7; 200; 31] "hunter2"%string)
    = Some "hunter2"%string.
Proof.
  apply aes_roundtrip.
  - intros iv data H. by rewrite NibbleCodec.shift_shift.
  - intros iv data. exact (NibbleCodec.shift_bytes _ data).
  - reflexivity.
  - repeat (apply List.Forall_cons; [unfold is_byte; lia|]). apply List.Forall_nil.
Defined.

(** An encryption key survives printing and parsing, for every key
    version that prints as a decimal and every random array. *)
Theorem encryptionKey_roundtrip (version : Z) (bytes : list Z) :
  List.Forall is_byte bytes ->
  EncryptionKey.fromString (EncryptionKey.toString (EncryptionKey.new version bytes))
    = inr (EncryptionKey.new version bytes).
Proof.
  intros Hb. unfold EncryptionKey.toString, EncryptionKey.new.
  cbn [EncryptionKey.keyVersion EncryptionKey.algorithm EncryptionKey.random Js.coalesce].
  unfold EncryptionKey.fromString.
  rewrite StrFacts.split_join.
  - cbn [nth_error Js.coalesce]. change (Js.truthy_string "v1") with true. cbn [negb].
    change ("v1" =? "v1")%string with true. cbn iota. by rewrite NumFacts.parseInt_string_of_Z.
  - discriminate.
  - repeat constructor; [apply print_no_underscore|by apply encode_no_underscore].
Qed.

Lemma encryptionKey_roundtrip_witness :
  EncryptionKey.fromString (EncryptionKey.toString (EncryptionKey.new 3 [7; 200; 31; 0; 255]))
    = inr (EncryptionKey.new 3 [7; 200; 31; 0; 255]).
Proof.
  apply encryptionKey_roundtrip.
  repeat (apply List.Forall_cons; [unfold is_byte; lia|]). apply List.Forall_nil.
Defined.
