(* ===== verification/StripeTypes.v ===== *)
(** * The Stripe objects the dashboard reads

    The objects of package stripe, narrowed to the fields the code under
    web/apps/dashboard/lib/stripe and app/api/webhooks/stripe reads. A field
    that the API sends as null or omits is an [option]; [null] and [undefined]
    are kept apart only where the code can tell them apart. An expandable
    reference is an id or an object, and [ref_id] is the code's
    [typeof x === "string" ? x : x.id]. Stripe's ids are not empty, so a reference
    that is present is truthy. *)

From Stdlib Require Import ZArith Bool String.
From stdpp Require Import base gmap strings.
From S2P Require Import Prelude.

Local Open Scope Z_scope.

(** ** References and metadata *)

Definition Metadata := gmap string string.

(** [metadata?.key]. *)
Definition meta (m : option Metadata) (key : string) : option string :=
  match m with Some m => m !! key | None => None end.

Inductive Ref (A : Type) := RId (id : string) | RObj (obj : A).
Arguments RId {A} id.
Arguments RObj {A} obj.

(** What an expanded object offers to the code that only wants its id. *)
Class HasId (A : Type) := get_id : A -> string.

Definition ref_id {A} `{HasId A} (r : Ref A) : string :=
  match r with RId id => id | RObj o => get_id o end.

(** An expanded object of which only the id is read. *)
Record Expanded := { expanded_id : string }.
#[export] Instance Expanded_id : HasId Expanded := expanded_id.

(** ** Catalog *)

(** The expanded [default_price] of a product, whose own product is not read. *)
Record DefaultPrice := { dp_id : string; dp_unit_amount : option Z }.
#[export] Instance DefaultPrice_id : HasId DefaultPrice := dp_id.

(** [Stripe.Product | Stripe.DeletedProduct]; [product_metadata] is always sent. *)
Record Product := {
  product_id : string;
  product_name : string;
  default_price : option (Ref DefaultPrice);
  product_description : option string;
  product_deleted : bool;
  product_metadata : Metadata;
}.
#[export] Instance Product_id : HasId Product := product_id.

Record Price := {
  price_id : string;
  price_metadata : option Metadata;
  price_product : option (Ref Product);
  unit_amount : option Z;
  lookup_key : option string;
  price_currency : string;
  (* price.recurring?.interval *)
  recurring_interval : option string;
}.
#[export] Instance Price_id : HasId Price := price_id.

(** ** Customers *)

(** [Stripe.Customer | Stripe.DeletedCustomer]. *)
Record Customer := {
  customer_id : string;
  customer_deleted : bool;
  email : option string;
  customer_name : option string;
  livemode : bool;
  invoice_default_payment_method : option string;
  default_source : option string;
}.
#[export] Instance Customer_id : HasId Customer := customer_id.

(** ** Invoices *)

Record InvoiceLine := {
  (* line.pricing?.price_details?.price, when it is a string *)
  line_price : option string;
  line_amount : Z;
  (* (line.discount_amounts ?? []).map(d => d.amount) *)
  line_discounts : list Z;
  line_period_end : Z;
  (* line.parent?.type *)
  line_parent_type : option string;
  (* line.parent.subscription_item_details?.proration *)
  line_proration : bool;
  line_description : option string;
}.

(** An entry of [invoice.payments.data]. *)
Record InvoicePayment := {
  payment_type : string;
  payment_intent : option (Ref Expanded);
}.

Record Invoice := {
  invoice_id : string;
  invoice_customer : option (Ref Customer);
  invoice_currency : string;
  invoice_status : option string;
  (* status_transitions?.paid_at *)
  paid_at : option Z;
  amount_due : Z;
  amount_paid : Z;
  attempt_count : option Z;
  invoice_created : Z;
  hosted_invoice_url : option string;
  (* invoice.parent?.type and invoice.parent.subscription_details?.subscription *)
  invoice_parent_type : option string;
  invoice_subscription : option (Ref Expanded);
  (* invoice.lines.data and invoice.lines.has_more *)
  invoice_lines : list InvoiceLine;
  lines_has_more : bool;
  (* invoice.payments?.data *)
  invoice_payments : option (list InvoicePayment);
}.
#[export] Instance Invoice_id : HasId Invoice := invoice_id.

(** ** Subscription schedules *)

Record PhaseItem := { phase_price : Ref Price; phase_quantity : option Z }.
Record Phase := { start_date : Z; end_date : Z; phase_items : list PhaseItem }.

Record Schedule := {
  schedule_id : string;
  schedule_metadata : option Metadata;
  (* current_phase?.{start_date, end_date} *)
  current_phase : option (Z * Z);
  phases : list Phase;
}.
#[export] Instance Schedule_id : HasId Schedule := schedule_id.

(** ** Subscriptions *)

Record SubscriptionItem := {
  item_id : string;
  item_price : option Price;
  (* item.plan?.id *)
  item_plan : option string;
  item_quantity : option Z;
  current_period_start : option Z;
}.

Record Subscription := {
  sub_id : string;
  status : string;
  (* sub.items?.data *)
  items : option (list SubscriptionItem);
  sub_customer : option (Ref Customer);
  cancel_at_period_end : bool;
  cancel_at : option Z;
  sub_created : Z;
  sub_metadata : option Metadata;
  latest_invoice : option (Ref Invoice);
  default_payment_method : option (Ref Expanded);
  pending_update : bool;
  schedule : option (Ref Schedule);
}.
#[export] Instance Subscription_id : HasId Subscription := sub_id.

(** [sub.items?.data ?? []]. *)
Definition items_or_empty (sub : Subscription) : list SubscriptionItem :=
  match items sub with Some l => l | None => [] end.

(** [item.price?.id]. *)
Definition item_price_id (item : SubscriptionItem) : option string :=
  option_map price_id (item_price item).

(** [Boolean(sub.cancel_at_period_end) || Boolean(sub.cancel_at)]. *)
Definition is_cancelling (sub : Subscription) : bool :=
  cancel_at_period_end sub || Js.truthy_oZ (cancel_at sub).

(** ** Checkout sessions *)

Record Session := {
  session_id : string;
  mode : string;
  session_status : option string;
  payment_status : string;
  client_reference_id : option string;
  session_metadata : option Metadata;
  session_customer : option (Ref Customer);
  session_subscription : option (Ref Subscription);
  setup_intent : option (Ref Expanded);
  session_url : option string;
}.

Record SetupIntent := {
  setup_intent_id : string;
  setup_intent_customer : option (Ref Customer);
  setup_intent_payment_method : option (Ref Expanded);
  setup_intent_status : string;
  setup_intent_usage : string;
}.

(** An upcoming invoice, as [invoices.createPreview] returns it. *)
Record InvoicePreview := {
  period_start : Z;
  period_end : Z;
  preview_total : Z;
  preview_currency : string;
  preview_lines : list InvoiceLine;
}.

(** ** Credit grants *)

Record CreditGrant := {
  grant_id : string;
  (* applicability_config?.scope?.price_type *)
  grant_price_type : option string;
  expires_at : option Z;
  (* amount.monetary?.value *)
  grant_value : option Z;
  grant_metadata : option Metadata;
}.

(** ** Events *)

(** An entry of [previous_attributes.items.data], a [Partial<SubscriptionItem>]:
    the outer option is whether the key is present, the inner one the value
    ([price?.id], [plan?.id], [quantity]). *)
Record PreviousItem := {
  previous_price : option (option string);
  previous_plan : option (option string);
  previous_quantity : option (option Z);
}.

(** [item.price?.id]. *)
Definition previous_price_id (i : PreviousItem) : option string :=
  match previous_price i with Some v => v | None => None end.

(** The value of an attribute that changed; [AItems data] is [{ data }]. *)
Inductive AttrValue :=
| AString (s : string)
| AItems (data : option (list PreviousItem))
| AOther.

(** [event.data.previous_attributes], in key order. *)
Definition PreviousAttributes := list (string * AttrValue).

(** [Object.keys(previousAttributes)]. *)
Definition changed_keys (p : PreviousAttributes) : list string := List.map fst p.

Definition attr (p : PreviousAttributes) (key : string) : option AttrValue :=
  option_map snd (List.find (fun kv => String.eqb (fst kv) key) p).

(** [previousAttributes.status]. *)
Definition attr_status (p : PreviousAttributes) : option string :=
  match attr p "status" with Some (AString s) => Some s | _ => None end.

(** [previousAttributes.items?.data]. *)
Definition attr_items (p : PreviousAttributes) : option (list PreviousItem) :=
  match attr p "items" with Some (AItems d) => d | _ => None end.

(** [event.data.object] by the type of the event. *)
Inductive EventData :=
| SubscriptionUpdated (sub : Subscription) (previous : option PreviousAttributes)
| SubscriptionDeleted (sub : Subscription)
| SubscriptionCreated (sub : Subscription)
| CheckoutCompleted (session : Session)
| CheckoutAsyncPaymentSucceeded (session : Session)
| InvoicePaymentFailed (invoice : Invoice)
| InvoicePaid (invoice : Invoice)
| InvoicePaymentSucceeded (invoice : Invoice)
| OtherEvent (type : string).

Record Event := { event_id : string; event_created : Z; event_data : EventData }.

Definition event_type (e : Event) : string :=
  match event_data e with
  | SubscriptionUpdated _ _ => "customer.subscription.updated"
  | SubscriptionDeleted _ => "customer.subscription.deleted"
  | SubscriptionCreated _ => "customer.subscription.created"
  | CheckoutCompleted _ => "checkout.session.completed"
  | CheckoutAsyncPaymentSucceeded _ => "checkout.session.async_payment_succeeded"
  | InvoicePaymentFailed _ => "invoice.payment_failed"
  | InvoicePaid _ => "invoice.paid"
  | InvoicePaymentSucceeded _ => "invoice.payment_succeeded"
  | OtherEvent t => t
  end.
