(* ===== verification/DeployPlan.v ===== *)
(** * Compute plans and workspace limits

    web/apps/dashboard/lib/limits.ts, lib/stripe/deployPlan.ts, the values
    lib/stripe/setWorkspaceLimits.ts writes, lib/stripe/productUtils.ts and
    [keepsTeamAfterDelete] of lib/stripe/webhookRouting.ts. *)

From Stdlib Require Import ZArith Bool String Lia.
From stdpp Require Import base list gmap strings.
From S2P Require Import Prelude StripeTypes.

Local Open Scope Z_scope.

(** ** Plans *)

Inductive DeployPlan := starter | pro | business.

#[export] Instance DeployPlan_eq_dec : EqDecision DeployPlan.
Proof. solve_decision. Defined.

Definition DEPLOY_PLANS : list DeployPlan := [starter; pro; business].

(** The string a plan is in the code and in the plan column. *)
Definition plan_name (p : DeployPlan) : string :=
  match p with starter => "starter" | pro => "pro" | business => "business" end.

Definition isDeployPlan (value : string) : option DeployPlan :=
  List.find (fun p => String.eqb (plan_name p) value) DEPLOY_PLANS.

Definition parseDeployPlan (plan : option string) : option DeployPlan :=
  match plan with Some p => isDeployPlan p | None => None end.

Definition deployPlanGrantsTeam (plan : option string) : bool :=
  Js.eq_ostring plan "pro" || Js.eq_ostring plan "business".

(** The loop of [detectDeployPlan]: an absent, blank or unrecognized plan tag is
    passed over. *)
Fixpoint detect_in (l : list SubscriptionItem) : option DeployPlan :=
  match l with
  | [] => None
  | item :: l' =>
      let raw := option_map Str.trim
                   (match item_price item with Some p => meta (price_metadata p) "plan" | None => None end) in
      match raw with
      | Some raw => if negb (Js.truthy_string raw) then detect_in l'
                    else match isDeployPlan raw with Some p => Some p | None => detect_in l' end
      | None => detect_in l'
      end
  end.

Definition detectDeployPlan (sub : Subscription) : option DeployPlan := detect_in (items_or_empty sub).

(** ** Limits *)

(** A row of the limits table without its key. *)
Record PlanLimits := {
  apiBillableOperationsCountMaxPerMonth : Z;
  apiRequestsCountMaxPerMinute : option Z;
  logsRetentionDaysMax : Z;
  logsAuditRetentionDaysMax : Z;
  teamEnabled : bool;
  cpuCoresMax : Z;
  cpuCoresMaxPerInstance : Z;
  memoryMibMax : Z;
  memoryMibMaxPerInstance : Z;
  storageMibMax : Z;
  storageMibMaxPerInstance : Z;
  buildsConcurrentMax : Z;
  customDomainsMax : Z;
  autoscalingReplicasMax : Z;
}.

(** [Partial<PlanLimits>]: [Some] is a key that is present. *)
Record LimitUpdate := {
  u_apiBillableOperationsCountMaxPerMonth : option Z;
  u_apiRequestsCountMaxPerMinute : option (option Z);
  u_logsRetentionDaysMax : option Z;
  u_logsAuditRetentionDaysMax : option Z;
  u_teamEnabled : option bool;
  u_cpuCoresMax : option Z;
  u_cpuCoresMaxPerInstance : option Z;
  u_memoryMibMax : option Z;
  u_memoryMibMaxPerInstance : option Z;
  u_storageMibMax : option Z;
  u_storageMibMaxPerInstance : option Z;
  u_buildsConcurrentMax : option Z;
  u_customDomainsMax : option Z;
  u_autoscalingReplicasMax : option Z;
}.

Definition no_update : LimitUpdate :=
  {| u_apiBillableOperationsCountMaxPerMonth := None; u_apiRequestsCountMaxPerMinute := None;
     u_logsRetentionDaysMax := None; u_logsAuditRetentionDaysMax := None; u_teamEnabled := None;
     u_cpuCoresMax := None; u_cpuCoresMaxPerInstance := None; u_memoryMibMax := None;
     u_memoryMibMaxPerInstance := None; u_storageMibMax := None; u_storageMibMaxPerInstance := None;
     u_buildsConcurrentMax := None; u_customDomainsMax := None; u_autoscalingReplicasMax := None |}.

(** [{ ...a, ...b }]. *)
Definition spread (a b : LimitUpdate) : LimitUpdate :=
  {| u_apiBillableOperationsCountMaxPerMonth :=
       Js.ocoalesce (u_apiBillableOperationsCountMaxPerMonth b) (u_apiBillableOperationsCountMaxPerMonth a);
     u_apiRequestsCountMaxPerMinute :=
       Js.ocoalesce (u_apiRequestsCountMaxPerMinute b) (u_apiRequestsCountMaxPerMinute a);
     u_logsRetentionDaysMax := Js.ocoalesce (u_logsRetentionDaysMax b) (u_logsRetentionDaysMax a);
     u_logsAuditRetentionDaysMax := Js.ocoalesce (u_logsAuditRetentionDaysMax b) (u_logsAuditRetentionDaysMax a);
     u_teamEnabled := Js.ocoalesce (u_teamEnabled b) (u_teamEnabled a);
     u_cpuCoresMax := Js.ocoalesce (u_cpuCoresMax b) (u_cpuCoresMax a);
     u_cpuCoresMaxPerInstance := Js.ocoalesce (u_cpuCoresMaxPerInstance b) (u_cpuCoresMaxPerInstance a);
     u_memoryMibMax := Js.ocoalesce (u_memoryMibMax b) (u_memoryMibMax a);
     u_memoryMibMaxPerInstance := Js.ocoalesce (u_memoryMibMaxPerInstance b) (u_memoryMibMaxPerInstance a);
     u_storageMibMax := Js.ocoalesce (u_storageMibMax b) (u_storageMibMax a);
     u_storageMibMaxPerInstance := Js.ocoalesce (u_storageMibMaxPerInstance b) (u_storageMibMaxPerInstance a);
     u_buildsConcurrentMax := Js.ocoalesce (u_buildsConcurrentMax b) (u_buildsConcurrentMax a);
     u_customDomainsMax := Js.ocoalesce (u_customDomainsMax b) (u_customDomainsMax a);
     u_autoscalingReplicasMax := Js.ocoalesce (u_autoscalingReplicasMax b) (u_autoscalingReplicasMax a) |}.

Definition limitsByPlan_free : PlanLimits :=
  {| apiBillableOperationsCountMaxPerMonth := 150000; apiRequestsCountMaxPerMinute := None;
     logsRetentionDaysMax := 7; logsAuditRetentionDaysMax := 30; teamEnabled := false;
     cpuCoresMax := 10; cpuCoresMaxPerInstance := 2; memoryMibMax := 20480; memoryMibMaxPerInstance := 4096;
     storageMibMax := 51200; storageMibMaxPerInstance := 10240; buildsConcurrentMax := 1;
     customDomainsMax := 0; autoscalingReplicasMax := 0 |}.

Definition limitsByPlan_paid (p : DeployPlan) : PlanLimits :=
  match p with
  | starter =>
      {| apiBillableOperationsCountMaxPerMonth := 150000; apiRequestsCountMaxPerMinute := None;
         logsRetentionDaysMax := 3; logsAuditRetentionDaysMax := 7; teamEnabled := false;
         cpuCoresMax := 30; cpuCoresMaxPerInstance := 2; memoryMibMax := 61440; memoryMibMaxPerInstance := 2048;
         storageMibMax := 122880; storageMibMaxPerInstance := 10240; buildsConcurrentMax := 1;
         customDomainsMax := 1; autoscalingReplicasMax := 4 |}
  | pro =>
      {| apiBillableOperationsCountMaxPerMonth := 150000; apiRequestsCountMaxPerMinute := None;
         logsRetentionDaysMax := 7; logsAuditRetentionDaysMax := 14; teamEnabled := true;
         cpuCoresMax := 120; cpuCoresMaxPerInstance := 8; memoryMibMax := 245760; memoryMibMaxPerInstance := 8192;
         storageMibMax := 491520; storageMibMaxPerInstance := 10240; buildsConcurrentMax := 1;
         customDomainsMax := 1000000; autoscalingReplicasMax := 8 |}
  | business =>
      {| apiBillableOperationsCountMaxPerMonth := 150000; apiRequestsCountMaxPerMinute := None;
         logsRetentionDaysMax := 14; logsAuditRetentionDaysMax := 30; teamEnabled := true;
         cpuCoresMax := 240; cpuCoresMaxPerInstance := 16; memoryMibMax := 491520; memoryMibMaxPerInstance := 32768;
         storageMibMax := 983040; storageMibMaxPerInstance := 10240; buildsConcurrentMax := 1;
         customDomainsMax := 1000000; autoscalingReplicasMax := 16 |}
  end.

(** [limitsByPlan[plan ?? "free"]]. *)
Definition limitsByPlan (plan : option DeployPlan) : PlanLimits :=
  match plan with None => limitsByPlan_free | Some p => limitsByPlan_paid p end.

(** ** Limits of a Compute subscription *)

Definition computeLimitsFromPlan (l : PlanLimits) : LimitUpdate :=
  {| u_apiBillableOperationsCountMaxPerMonth := None; u_apiRequestsCountMaxPerMinute := None;
     u_logsRetentionDaysMax := Some (logsRetentionDaysMax l);
     u_logsAuditRetentionDaysMax := Some (logsAuditRetentionDaysMax l);
     u_teamEnabled := Some (teamEnabled l);
     u_cpuCoresMax := None;
     u_cpuCoresMaxPerInstance := Some (cpuCoresMaxPerInstance l);
     u_memoryMibMax := None;
     u_memoryMibMaxPerInstance := Some (memoryMibMaxPerInstance l);
     u_storageMibMax := None;
     u_storageMibMaxPerInstance := Some (storageMibMaxPerInstance l);
     u_buildsConcurrentMax := Some (buildsConcurrentMax l);
     u_customDomainsMax := None; u_autoscalingReplicasMax := None |}.

Definition computeLimitsForPlan (plan : option DeployPlan) : LimitUpdate :=
  computeLimitsFromPlan (limitsByPlan plan).

Definition computeLimitUpdateForPlan (plan : option DeployPlan) (preserveApiLimits : bool) : LimitUpdate :=
  let l := computeLimitsForPlan plan in
  if negb preserveApiLimits then l
  else
    {| u_apiBillableOperationsCountMaxPerMonth := None; u_apiRequestsCountMaxPerMinute := None;
       u_logsRetentionDaysMax := None; u_logsAuditRetentionDaysMax := None; u_teamEnabled := None;
       u_cpuCoresMax := None;
       u_cpuCoresMaxPerInstance := u_cpuCoresMaxPerInstance l;
       u_memoryMibMax := None;
       u_memoryMibMaxPerInstance := u_memoryMibMaxPerInstance l;
       u_storageMibMax := None;
       u_storageMibMaxPerInstance := u_storageMibMaxPerInstance l;
       u_buildsConcurrentMax := u_buildsConcurrentMax l;
       u_customDomainsMax := None; u_autoscalingReplicasMax := None |}.

(** ** The statement [setWorkspaceLimits] runs

    The values of a new row and the columns an existing row is updated with. *)

Section LimitRow.

Context (plan : option DeployPlan) (preserveApiLimits : bool) (limitUpdate : LimitUpdate).

Definition requestedLimits : LimitUpdate :=
  spread (computeLimitUpdateForPlan plan preserveApiLimits) limitUpdate.

(** [fromUpdate(key) ?? planLimits[key]] for a column that is never null. *)
Definition fromUpdate {A} (key : LimitUpdate -> option A) (planKey : PlanLimits -> A) : A :=
  Js.coalesce (key requestedLimits) (planKey (limitsByPlan plan)).

Definition limitValues : PlanLimits :=
  {| apiBillableOperationsCountMaxPerMonth :=
       fromUpdate u_apiBillableOperationsCountMaxPerMonth apiBillableOperationsCountMaxPerMonth;
     apiRequestsCountMaxPerMinute := fromUpdate u_apiRequestsCountMaxPerMinute apiRequestsCountMaxPerMinute;
     logsRetentionDaysMax := fromUpdate u_logsRetentionDaysMax logsRetentionDaysMax;
     logsAuditRetentionDaysMax := fromUpdate u_logsAuditRetentionDaysMax logsAuditRetentionDaysMax;
     teamEnabled := fromUpdate u_teamEnabled teamEnabled;
     cpuCoresMax := fromUpdate u_cpuCoresMax cpuCoresMax;
     cpuCoresMaxPerInstance := fromUpdate u_cpuCoresMaxPerInstance cpuCoresMaxPerInstance;
     memoryMibMax := fromUpdate u_memoryMibMax memoryMibMax;
     memoryMibMaxPerInstance := fromUpdate u_memoryMibMaxPerInstance memoryMibMaxPerInstance;
     storageMibMax := fromUpdate u_storageMibMax storageMibMax;
     storageMibMaxPerInstance := fromUpdate u_storageMibMaxPerInstance storageMibMaxPerInstance;
     buildsConcurrentMax := fromUpdate u_buildsConcurrentMax buildsConcurrentMax;
     customDomainsMax := fromUpdate u_customDomainsMax customDomainsMax;
     autoscalingReplicasMax := fromUpdate u_autoscalingReplicasMax autoscalingReplicasMax |}.

(** A shared column is set unless it is preserved and was not requested. *)
Definition shared_column {A B} (key : LimitUpdate -> option A) (v : B) : option B :=
  if negb preserveApiLimits || Js.truthy_obj (key requestedLimits) then Some v else None.

Definition limitColumns : LimitUpdate :=
  {| u_apiBillableOperationsCountMaxPerMonth :=
       shared_column u_apiBillableOperationsCountMaxPerMonth (apiBillableOperationsCountMaxPerMonth limitValues);
     u_apiRequestsCountMaxPerMinute :=
       shared_column u_apiRequestsCountMaxPerMinute (apiRequestsCountMaxPerMinute limitValues);
     u_logsRetentionDaysMax := shared_column u_logsRetentionDaysMax (logsRetentionDaysMax limitValues);
     u_logsAuditRetentionDaysMax :=
       shared_column u_logsAuditRetentionDaysMax (logsAuditRetentionDaysMax limitValues);
     u_teamEnabled := shared_column u_teamEnabled (teamEnabled limitValues);
     u_cpuCoresMax := Some (cpuCoresMax limitValues);
     u_cpuCoresMaxPerInstance := Some (cpuCoresMaxPerInstance limitValues);
     u_memoryMibMax := Some (memoryMibMax limitValues);
     u_memoryMibMaxPerInstance := Some (memoryMibMaxPerInstance limitValues);
     u_storageMibMax := Some (storageMibMax limitValues);
     u_storageMibMaxPerInstance := Some (storageMibMaxPerInstance limitValues);
     u_buildsConcurrentMax := Some (buildsConcurrentMax limitValues);
     u_customDomainsMax := Some (customDomainsMax limitValues);
     u_autoscalingReplicasMax := Some (autoscalingReplicasMax limitValues) |}.

End LimitRow.

(** [ON DUPLICATE KEY UPDATE]: the columns present replace those of the row. *)
Definition apply_update (u : LimitUpdate) (r : PlanLimits) : PlanLimits :=
  {| apiBillableOperationsCountMaxPerMonth :=
       Js.coalesce (u_apiBillableOperationsCountMaxPerMonth u) (apiBillableOperationsCountMaxPerMonth r);
     apiRequestsCountMaxPerMinute := Js.coalesce (u_apiRequestsCountMaxPerMinute u) (apiRequestsCountMaxPerMinute r);
     logsRetentionDaysMax := Js.coalesce (u_logsRetentionDaysMax u) (logsRetentionDaysMax r);
     logsAuditRetentionDaysMax := Js.coalesce (u_logsAuditRetentionDaysMax u) (logsAuditRetentionDaysMax r);
     teamEnabled := Js.coalesce (u_teamEnabled u) (teamEnabled r);
     cpuCoresMax := Js.coalesce (u_cpuCoresMax u) (cpuCoresMax r);
     cpuCoresMaxPerInstance := Js.coalesce (u_cpuCoresMaxPerInstance u) (cpuCoresMaxPerInstance r);
     memoryMibMax := Js.coalesce (u_memoryMibMax u) (memoryMibMax r);
     memoryMibMaxPerInstance := Js.coalesce (u_memoryMibMaxPerInstance u) (memoryMibMaxPerInstance r);
     storageMibMax := Js.coalesce (u_storageMibMax u) (storageMibMax r);
     storageMibMaxPerInstance := Js.coalesce (u_storageMibMaxPerInstance u) (storageMibMaxPerInstance r);
     buildsConcurrentMax := Js.coalesce (u_buildsConcurrentMax u) (buildsConcurrentMax r);
     customDomainsMax := Js.coalesce (u_customDomainsMax u) (customDomainsMax r);
     autoscalingReplicasMax := Js.coalesce (u_autoscalingReplicasMax u) (autoscalingReplicasMax r) |}.

(** ** Quota metadata of an API product *)

Record Quotas := { requestsPerMonth : Z; logsRetentionDays : Z; auditLogsRetentionDays : Z }.

(** [validateAndParseQuotas]; [None] is [{ valid: false }]. *)
Definition validateAndParseQuotas (product : Product) : option Quotas :=
  let field k := product_metadata product !! k in
  if forallb (fun k => Js.truthy (field k))
       ["quota_requests_per_month"; "quota_logs_retention_days"; "quota_audit_logs_retention_days"]%string
  then
    match Num.parseInt (Js.coalesce (field "quota_requests_per_month"%string) EmptyString),
          Num.parseInt (Js.coalesce (field "quota_logs_retention_days"%string) EmptyString),
          Num.parseInt (Js.coalesce (field "quota_audit_logs_retention_days"%string) EmptyString) with
    | Some r, Some l, Some a => Some {| requestsPerMonth := r; logsRetentionDays := l; auditLogsRetentionDays := a |}
    | _, _, _ => None
    end
  else None.

(** ** Products of a subscription *)

(** [SubscriptionProduct]. *)
Inductive SubscriptionProduct := api | compute.

#[export] Instance SubscriptionProduct_eq_dec : EqDecision SubscriptionProduct.
Proof. solve_decision. Defined.

(** [(tier ?? "Free") !== "Free"]. *)
Definition paid_tier (tier : option string) : bool := negb (String.eqb (Js.coalesce tier "Free"%string) "Free").

Definition keepsTeamAfterDelete (product : SubscriptionProduct) (tier plan : option string) : bool :=
  match product with api => deployPlanGrantsTeam plan | compute => paid_tier tier end.

(** ** Specification of a limits write

    The five columns a paid API plan owns come from [shared], the nine resource
    columns from [resources]. *)
Definition mix (shared resources : PlanLimits) : PlanLimits :=
  {| apiBillableOperationsCountMaxPerMonth := apiBillableOperationsCountMaxPerMonth shared;
     apiRequestsCountMaxPerMinute := apiRequestsCountMaxPerMinute shared;
     logsRetentionDaysMax := logsRetentionDaysMax shared;
     logsAuditRetentionDaysMax := logsAuditRetentionDaysMax shared;
     teamEnabled := teamEnabled shared;
     cpuCoresMax := cpuCoresMax resources; cpuCoresMaxPerInstance := cpuCoresMaxPerInstance resources;
     memoryMibMax := memoryMibMax resources; memoryMibMaxPerInstance := memoryMibMaxPerInstance resources;
     storageMibMax := storageMibMax resources; storageMibMaxPerInstance := storageMibMaxPerInstance resources;
     buildsConcurrentMax := buildsConcurrentMax resources; customDomainsMax := customDomainsMax resources;
     autoscalingReplicasMax := autoscalingReplicasMax resources |}.

(** The row of a workspace after [setWorkspaceLimits]: a preserved shared column
    keeps its value, every other column is the plan's, and the requested columns
    win over both. *)
Definition limits_after (plan : option DeployPlan) (preserveApiLimits : bool) (limitUpdate : LimitUpdate)
    (old : option PlanLimits) : PlanLimits :=
  apply_update limitUpdate
    (match old with
     | Some r => mix (if preserveApiLimits then r else limitsByPlan plan) (limitsByPlan plan)
     | None => limitsByPlan plan
     end).

(** The tag [detectDeployPlan] reads on an item. *)
Definition item_plan_tag (item : SubscriptionItem) : option DeployPlan :=
  match item_price item with
  | Some p => match meta (price_metadata p) "plan" with Some raw => isDeployPlan (Str.trim raw) | None => None end
  | None => None
  end.

(** ** Facts *)

Section PlanFacts.

(** Closes the equation of one limits column. *)
Ltac by_field := repeat match goal with |- context [match ?x with _ => _ end] => is_var x; destruct x end; reflexivity.

Lemma isDeployPlan_name s p : isDeployPlan s = Some p <-> s = plan_name p.
Proof.
  unfold isDeployPlan. split.
  - intros H. apply List.find_some in H as [_ H]. by apply String.eqb_eq in H.
  - intros ->. by destruct p.
Qed.

Lemma parse_plan_name p : parseDeployPlan (Some (plan_name p)) = Some p.
Proof. by destruct p. Qed.

Lemma plan_name_inj p q : plan_name p = plan_name q -> p = q.
Proof. by destruct p, q. Qed.

(** The team gate of the limits table agrees with the one on the plan column. *)
Lemma teamEnabled_grants plan : teamEnabled (limitsByPlan (parseDeployPlan plan)) = deployPlanGrantsTeam plan.
Proof.
  destruct plan as [s|]; [|done]. simpl.
  destruct (isDeployPlan s) as [p|] eqn:E.
  - apply isDeployPlan_name in E as ->. by destruct p.
  - unfold deployPlanGrantsTeam. simpl. symmetry. apply orb_false_iff.
    split; apply String.eqb_neq; intros ->; done.
Qed.

Lemma detect_in_find l : detect_in l = match List.find (fun i => Js.truthy_obj (item_plan_tag i)) l with
                                       | Some i => item_plan_tag i | None => None end.
Proof.
  induction l as [|i l IH]; [done|]. cbn [detect_in List.find].
  destruct (item_plan_tag i) as [d|] eqn:Ht; cbn [Js.truthy_obj]; unfold item_plan_tag in Ht.
  - destruct (item_price i) as [p|] eqn:Ep; [|done]. cbn [option_map].
    destruct (meta (price_metadata p) "plan") as [raw|] eqn:Em; [|done]. cbn [option_map].
    unfold item_plan_tag. rewrite Ep, Em, Ht. apply isDeployPlan_name in Ht as ->. by destruct d.
  - destruct (item_price i) as [p|]; [|exact IH]. cbn [option_map].
    destruct (meta (price_metadata p) "plan") as [raw|]; cbn [option_map]; [|exact IH].
    rewrite Ht. by destruct (negb _).
Qed.

Lemma setWorkspaceLimits_new plan preserve u :
  limitValues plan preserve u = limits_after plan preserve u None.
Proof.
  unfold limits_after, limitValues, fromUpdate, requestedLimits.
  destruct u, preserve; unfold apply_update, spread, computeLimitUpdateForPlan, Js.coalesce, Js.ocoalesce;
    cbn; f_equal; by_field.
Qed.

Lemma setWorkspaceLimits_row plan preserve u r :
  apply_update (limitColumns plan preserve u) r = limits_after plan preserve u (Some r).
Proof.
  unfold limits_after, limitColumns, limitValues, fromUpdate, shared_column, requestedLimits.
  destruct u, preserve; unfold apply_update, spread, mix, computeLimitUpdateForPlan, Js.coalesce, Js.ocoalesce, Js.truthy_obj;
    cbn; f_equal; by_field.
Qed.

End PlanFacts.
