(* ===== verification/AuthTypes.v ===== *)
(** * Data of the authentication code

    web/apps/dashboard/lib/auth/types.ts and the types of lib/auth/cookies.ts, with
    the objects, exceptions and calls of the WorkOS client that lib/auth/workos.ts
    uses. The client is not part of the repository: its calls are answered by the
    environment, and its exceptions carry the fields the code reads. *)

From Stdlib Require Import ZArith Bool String.
From stdpp Require Import base list strings.
From S2P Require Import Prelude.

Local Open Scope string_scope.

(** ** Cookies *)

Inductive SameSite := Strict | Lax | NoRestriction.

Record CookieOptions := {
  httpOnly : bool;
  secure : bool;
  sameSite : SameSite;
  cookie_path : option string;
  maxAge : option Z;
}.

Record Cookie := { cookie_name : string; cookie_value : string; cookie_options : CookieOptions }.

Definition UNKEY_SESSION_COOKIE : string := "unkey-session".
Definition UNKEY_LAST_ORG_COOKIE : string := "unkey_last_org_used".
Definition PENDING_SESSION_COOKIE : string := "sess-temp".
Definition AUTH_CHALLENGE_COOKIE : string := "auth-challenge".
Definition RADAR_ATTEMPT_COOKIE : string := "radar-attempt".
Definition SIGN_IN_URL : string := "/auth/sign-in".
Definition SIGN_UP_URL : string := "/auth/sign-up".
Definition LOCAL_USER_ID : string := "user_local_admin".
Definition LOCAL_ORG_ID : string := "org_localdefault".
Definition LOCAL_ORG_ROLE : string := "admin".
Definition LOCAL_AUTH_PERMISSIONS : list string := ["admin:*"].

(** ** Users, organizations, memberships, invitations *)

Record AuthUser := {
  au_id : string;
  au_email : string;
  au_firstName : option string;
  au_lastName : option string;
  au_avatarUrl : option string;
  au_fullName : option string;
}.

Record Impersonator := { impersonator_email : string; impersonator_reason : option string }.

Record Organization := {
  org_id : string;
  org_name : string;
  org_createdAt : option string;
  org_updatedAt : option string;
}.

Record Membership := {
  ms_id : string;
  ms_user : AuthUser;
  ms_organization : Organization;
  ms_role : string;
  ms_createdAt : string;
  ms_updatedAt : string;
  ms_status : string;
}.

Record OrgInvitation := {
  inv_id : string;
  inv_email : string;
  inv_state : string;
  inv_acceptedAt : option string;
  inv_revokedAt : option string;
  inv_expiresAt : string;
  inv_token : string;
  inv_organizationId : option string;
  inv_inviterUserId : option string;
  inv_createdAt : string;
  inv_updatedAt : string;
}.

Record MfaFactor := {
  factor_id : string;
  factor_type : string;
  factor_issuer : string;
  factor_user : string;
  factor_createdAt : string;
}.

Record MfaEnrollmentStart := {
  enroll_factorId : string;
  enroll_challengeId : string;
  enroll_qrCode : string;
  enroll_secret : string;
  enroll_uri : string;
}.

(** ** Errors *)

Inductive AuthErrorCode :=
| EMAIL_ALREADY_EXISTS | MISSING_REQUIRED_FIELDS | USER_CREATION_FAILED | INVALID_EMAIL | NETWORK_ERROR
| UNKNOWN_ERROR | RATE_ERROR | INVALID_CODE | ACCOUNT_NOT_FOUND | ORGANIZATION_SELECTION_REQUIRED
| EMAIL_VERIFICATION_REQUIRED | PENDING_SESSION_EXPIRED | AUTHENTICATION_BLOCKED | MFA_CHALLENGE_REQUIRED
| MFA_ENROLLMENT_REQUIRED | RADAR_EMAIL_CHALLENGE_REQUIRED | RADAR_SMS_CHALLENGE_REQUIRED.

(** The value of a code is its name. *)
Definition code_name (c : AuthErrorCode) : string :=
  match c with
  | EMAIL_ALREADY_EXISTS => "EMAIL_ALREADY_EXISTS"
  | MISSING_REQUIRED_FIELDS => "MISSING_REQUIRED_FIELDS"
  | USER_CREATION_FAILED => "USER_CREATION_FAILED"
  | INVALID_EMAIL => "INVALID_EMAIL"
  | NETWORK_ERROR => "NETWORK_ERROR"
  | UNKNOWN_ERROR => "UNKNOWN_ERROR"
  | RATE_ERROR => "RATE_ERROR"
  | INVALID_CODE => "INVALID_CODE"
  | ACCOUNT_NOT_FOUND => "ACCOUNT_NOT_FOUND"
  | ORGANIZATION_SELECTION_REQUIRED => "ORGANIZATION_SELECTION_REQUIRED"
  | EMAIL_VERIFICATION_REQUIRED => "EMAIL_VERIFICATION_REQUIRED"
  | PENDING_SESSION_EXPIRED => "PENDING_SESSION_EXPIRED"
  | AUTHENTICATION_BLOCKED => "AUTHENTICATION_BLOCKED"
  | MFA_CHALLENGE_REQUIRED => "MFA_CHALLENGE_REQUIRED"
  | MFA_ENROLLMENT_REQUIRED => "MFA_ENROLLMENT_REQUIRED"
  | RADAR_EMAIL_CHALLENGE_REQUIRED => "RADAR_EMAIL_CHALLENGE_REQUIRED"
  | RADAR_SMS_CHALLENGE_REQUIRED => "RADAR_SMS_CHALLENGE_REQUIRED"
  end.

Definition all_codes : list AuthErrorCode :=
  [EMAIL_ALREADY_EXISTS; MISSING_REQUIRED_FIELDS; USER_CREATION_FAILED; INVALID_EMAIL; NETWORK_ERROR; UNKNOWN_ERROR;
   RATE_ERROR; INVALID_CODE; ACCOUNT_NOT_FOUND; ORGANIZATION_SELECTION_REQUIRED; EMAIL_VERIFICATION_REQUIRED;
   PENDING_SESSION_EXPIRED; AUTHENTICATION_BLOCKED; MFA_CHALLENGE_REQUIRED; MFA_ENROLLMENT_REQUIRED;
   RADAR_EMAIL_CHALLENGE_REQUIRED; RADAR_SMS_CHALLENGE_REQUIRED].

Definition errorMessages (c : AuthErrorCode) : string :=
  match c with
  | EMAIL_ALREADY_EXISTS => "This email address is already registered. Please sign in instead."
  | MISSING_REQUIRED_FIELDS => "Please fill in all required fields."
  | USER_CREATION_FAILED => "Unable to create your account. Please try again later."
  | INVALID_EMAIL => "Please enter a valid email address."
  | NETWORK_ERROR => "Connection error. Please check your internet and try again."
  | UNKNOWN_ERROR => "Something went wrong. Please try again later, or contact support@unkey.com"
  | ACCOUNT_NOT_FOUND => "Account not found. Would you like to sign up?"
  | ORGANIZATION_SELECTION_REQUIRED => "Please choose a workspace to continue authentication."
  | EMAIL_VERIFICATION_REQUIRED => "Email address not verified. Please check your email for a verification code."
  | PENDING_SESSION_EXPIRED => "Your session has expired. Please sign in again."
  | AUTHENTICATION_BLOCKED =>
      "We couldn't sign you in because this attempt was flagged as suspicious. If you believe this is a mistake, contact support@unkey.com."
  | RATE_ERROR => "Too many incorrect attempts. Please return to sign in and start over."
  | INVALID_CODE => "That code is incorrect or has expired. Please try again."
  | MFA_CHALLENGE_REQUIRED => "Please enter the code from your authenticator app to continue."
  | MFA_ENROLLMENT_REQUIRED => "Please set up two-factor authentication to continue."
  | RADAR_EMAIL_CHALLENGE_REQUIRED => "Please enter the verification code sent to your email to continue."
  | RADAR_SMS_CHALLENGE_REQUIRED => "Please verify your phone number to continue."
  end.

(** ** Challenges *)

Inductive AuthChallengeType := Mfa | MfaEnroll | RadarEmail | RadarSms.

(** What AUTH_CHALLENGE_COOKIE holds. *)
Inductive AuthChallenge :=
| ChallengeMfa (challengeId : string)
| ChallengeMfaEnroll (userId email : string)
| ChallengeRadarEmail (radarChallengeId : string)
| ChallengeRadarSms (userId : string).

Definition challenge_type (c : AuthChallenge) : AuthChallengeType :=
  match c with
  | ChallengeMfa _ => Mfa
  | ChallengeMfaEnroll _ _ => MfaEnroll
  | ChallengeRadarEmail _ => RadarEmail
  | ChallengeRadarSms _ => RadarSms
  end.

#[export] Instance AuthChallengeType_eq_dec : EqDecision AuthChallengeType.
Proof. solve_decision. Defined.

(** ** Results *)

(** AuthErrorResponse and the pending responses that extend it. *)
Inductive Pending :=
| NotPending
| PendingOrgSelection (user : AuthUser) (organizations : list Organization)
| PendingEmailVerification (user : AuthUser)
| PendingChallenge (type : AuthChallengeType).

Record AuthErrorResponse := {
  err_code : AuthErrorCode;
  err_message : string;
  err_pending : Pending;
  (* undefined, or the list *)
  err_cookies : option (list Cookie);
}.

Inductive EmailAuthResult :=
| StateChange (cookies : option (list Cookie))
| EmailAuthError (e : AuthErrorResponse).

(** VerificationResult and OAuthResult. *)
Inductive VerificationResult :=
| Navigation (redirectTo : string) (cookies : list Cookie)
| VerificationError (e : AuthErrorResponse).

(** ** Sessions *)

Record SessionValidationResult := {
  isValid : bool;
  shouldRefresh : bool;
  sv_accessToken : option string;
  sv_permissions : option (list string);
  sv_userId : option string;
  sv_orgId : option string;
  sv_role : option string;
  sv_user : option AuthUser;
  sv_impersonator : option Impersonator;
}.

Record SessionData := {
  sd_userId : string;
  sd_orgId : option string;
  sd_accessToken : option string;
  sd_permissions : option (list string);
  sd_role : option string;
  sd_user : option AuthUser;
}.

Record SessionRefreshResult := {
  newToken : string;
  expiresAt : Z;
  refreshed_session : option SessionData;
  refreshed_impersonator : option Impersonator;
}.

(** ** The WorkOS client *)

Record WorkosUser := {
  wu_id : string;
  wu_email : string;
  wu_firstName : option string;
  wu_lastName : option string;
  wu_profilePictureUrl : option string;
  wu_emailVerified : bool;
}.

(** [rawData.user] of an AuthenticationException. *)
Record ProviderUser := {
  pu_id : string;
  pu_email : string;
  pu_first_name : option string;
  pu_last_name : option string;
  pu_profile_picture_url : option string;
}.

Record WorkosMembership := {
  wm_id : string;
  wm_userId : string;
  wm_organizationId : string;
  wm_organizationName : string;
  wm_role : string;
  wm_createdAt : string;
  wm_updatedAt : string;
  wm_status : string;
}.

Record WorkosOrganization := { wo_id : string; wo_name : string; wo_createdAt : string; wo_updatedAt : string }.

Record WorkosInvitation := {
  wi_id : string;
  wi_email : string;
  wi_state : string;
  wi_acceptedAt : option string;
  wi_revokedAt : option string;
  wi_expiresAt : string;
  wi_token : string;
  wi_organizationId : option string;
  wi_inviterUserId : option string;
  wi_createdAt : string;
  wi_updatedAt : string;
}.

(** [totp] is the issuer and the user of a factor that was verified. *)
Record WorkosFactor := {
  wf_id : string;
  wf_type : string;
  wf_totp : option (option string * option string);
  wf_createdAt : string;
}.

(** [session.authenticate()]. *)
Inductive SessionAuthentication :=
| Authenticated (sessionId accessToken : string) (user : WorkosUser) (organizationId role : option string)
    (impersonator : option Impersonator)
| NotAuthenticated (reason : string).

Definition INVALID_JWT : string := "invalid_jwt".

Record RefreshedSession := {
  rs_user : WorkosUser;
  rs_organizationId : option string;
  rs_accessToken : string;
  rs_impersonator : option Impersonator;
}.

(** [session.refresh()]. *)
Inductive SessionRefresh :=
| Refreshed (session : option RefreshedSession) (sealedSession role : option string)
| NotRefreshed (reason : string).

(** The address and the user agent that go to Radar. *)
Record RequestMetadata := { md_ipAddress : option string; md_userAgent : option string }.

(** The ways to authenticate, with the arguments of the call. *)
Inductive Authenticate :=
| WithMagicAuth (code email : string) (invitationToken radarAuthAttemptId signalsId : option string)
| WithEmailVerification (code pendingAuthToken : string)
| WithOrganizationSelection (pendingAuthToken organizationId : string)
| WithTotp (code challengeId pendingAuthToken : string)
| WithRadarEmail (code radarChallengeId pendingAuthToken : string)
| WithRadarSms (code verificationId phoneNumber pendingAuthToken : string)
| WithCode (code : string) (signalsId : option string).

Inductive WorkosCall :=
| SessionAuthenticate (sessionData : string)
| SessionRefreshCall (sessionData : string) (organizationId : option string)
| SessionGetLogoutUrl (sessionData : string)
| WorkosRevokeSession (sessionId : string)
| WorkosGetUser (userId : string)
| ListUsersByEmail (email : string)
| ListUsersOfOrganization (organizationId : string)
| CreateUser (firstName lastName email : string) (signalsId : option string) (metadata : RequestMetadata)
| CreateOrganization (name : string)
| GetOrganization (id : string)
| UpdateOrganization (id name : string)
| CreateOrganizationMembership (organizationId userId roleSlug : string)
| GetOrganizationMembership (id : string)
| UpdateOrganizationMembership (id roleSlug : string)
| DeleteOrganizationMembership (id : string)
| DeactivateOrganizationMembership (id : string)
| ListMembershipsOfUser (userId : string)
| ListMembershipsOfOrganization (organizationId : string)
| SendInvitation (email organizationId roleSlug inviterUserId : string)
| ListInvitations (organizationId : string)
| WorkosGetInvitation (id : string)
| FindInvitationByToken (token : string)
| RevokeInvitation (id : string)
| AcceptInvitation (id : string)
| CreateMagicAuth (email : string) (radarAuthAttemptId signalsId : option string) (metadata : RequestMetadata)
| AuthenticateWith (a : Authenticate) (metadata : RequestMetadata)
| ChallengeFactor (factorId : string)
| ListUserAuthFactors (userId : string)
| DeleteFactor (factorId : string)
| CreateUserAuthFactor (userId totpUser : string)
| VerifyChallenge (challengeId code : string)
| SendRadarSmsChallenge (userId phoneNumber pendingAuthToken : string) (metadata : RequestMetadata).

(** What a call returns: [AuthenticateWith] the sealed session, [CreateUser] and
    [CreateMagicAuth] the id of the Radar attempt, [ChallengeFactor] the id of the
    challenge, [SendRadarSmsChallenge] the verification and the phone number. *)
Definition WorkosResp (c : WorkosCall) : Type :=
  match c with
  | SessionAuthenticate _ => SessionAuthentication
  | SessionRefreshCall _ _ => SessionRefresh
  | SessionGetLogoutUrl _ => string
  | WorkosGetUser _ => option WorkosUser
  | ListUsersByEmail _ | ListUsersOfOrganization _ => list WorkosUser
  | CreateUser _ _ _ _ _ => option string
  | CreateOrganization _ | GetOrganization _ | UpdateOrganization _ _ => WorkosOrganization
  | CreateOrganizationMembership _ _ _ | GetOrganizationMembership _ | UpdateOrganizationMembership _ _ => WorkosMembership
  | ListMembershipsOfUser _ | ListMembershipsOfOrganization _ => list WorkosMembership
  | SendInvitation _ _ _ _ | WorkosGetInvitation _ | FindInvitationByToken _ | AcceptInvitation _ => WorkosInvitation
  | ListInvitations _ => list WorkosInvitation
  | CreateMagicAuth _ _ _ _ => option string
  | AuthenticateWith _ _ => option string
  | ChallengeFactor _ => string
  | ListUserAuthFactors _ => list WorkosFactor
  | CreateUserAuthFactor _ _ => MfaEnrollmentStart
  | VerifyChallenge _ _ => bool
  | SendRadarSmsChallenge _ _ _ _ => (string * string)%type
  | _ => unit
  end.

(** The fields of [rawData] of an AuthenticationException that the code reads;
    [raw_factors] are the id and the type of a factor. *)
Record AuthRawData := {
  raw_user : option ProviderUser;
  raw_organizations : option (list (string * string));
  raw_factors : option (list (string * string));
  raw_email : option string;
}.

(** The exceptions of the client. AuthenticationException and
    RateLimitExceededException extend GenericServerException. [raw_text] is the JSON
    text of [rawData]; [errors] are the codes of the details of an
    UnprocessableEntityException. *)
Inductive WorkosException :=
| AuthenticationException (code : string) (pendingAuthenticationToken radarChallengeId : option string)
    (rawData : AuthRawData) (message : string)
| RateLimitExceededException (message : string)
| OauthException (status : Z) (error errorDescription : option string) (raw_text message : string)
| GenericServerException (status : Z) (code : option string) (raw_text message : string)
| WorkosOtherException (status : option Z) (code : option string) (errors : option (list (option string)))
    (message : string).

Definition workos_message (e : WorkosException) : string :=
  match e with
  | AuthenticationException _ _ _ _ m | RateLimitExceededException m | OauthException _ _ _ _ m
  | GenericServerException _ _ _ m | WorkosOtherException _ _ _ m => m
  end.

(** The event of a webhook delivery, with the fields of a user. *)
Record WorkosEvent := { ev_event : string; ev_email : option string; ev_emailVerified : bool }.
