(* ===== verification/GithubTypes.v ===== *)
(** * Data of the GitHub integration

    The objects and endpoints of GitHub that web/apps/dashboard/lib/github.ts uses, and
    the credentials of lib/env.ts. GitHub answers a request with a status, or with data
    that matches the schema the code parses it with or does not. *)

From Stdlib Require Import ZArith Bool String.
From stdpp Require Import base list strings.
From S2P Require Import Prelude.

(** [githubAppSchema] and [githubOAuthSchema] *)
Record GithubAppEnv := { GITHUB_APP_ID : Z; UNKEY_GITHUB_PRIVATE_KEY_PEM : string }.
Record GithubOAuthEnv := { GITHUB_CLIENT_ID : string; GITHUB_CLIENT_SECRET : string }.

Record GitHubRepository := {
  repo_id : Z;
  repo_name : string;
  repo_full_name : string;
  repo_private : bool;
  repo_html_url : string;
  repo_default_branch : string;
  repo_pushed_at : option string;
  repo_language : option string;
}.

Record RepositoryEvent := {
  event_type : string;
  event_created_at : string;
  event_ref : option string;
  event_size : option Z;
}.

Record PullRequest := {
  pr_head_ref : string;
  pr_head_sha : string;
  pr_head_label : string;
  (* full_name and fork of the repository of the head *)
  pr_head_repo : option (string * bool);
  pr_base_full_name : string;
}.

(** [GhData None] is a response that the schema refuses. *)
Inductive GhReply (A : Type) := GhData (data : option A) | GhStatus (status : Z) (text : string).
Arguments GhData {A} data.
Arguments GhStatus {A} status text.

(** The requests, by endpoint; [token] and [jwt] are the bearer. *)
Inductive GithubCall :=
| GhExchangeCode (client_id client_secret code : string)
| GhAccessToken (jwt : string) (installationId : Z)
| GhUserInstallations (token : string) (per_page page : Z)
| GhInstallationRepositories (token : string) (per_page page : Z)
| GhTree (token owner repo branch : string)
| GhEvents (token owner repo : string) (page : Z)
| GhBranches (token owner repo : string) (per_page : Z)
| GhMatchingRefs (token owner repo prefix : string)
| GhRepo (token owner repo : string)
| GhRepoById (token : string) (repositoryId : Z)
| GhPull (token full_name : string) (number : Z)
| GhCommitPulls (token full_name sha : string).

(** The data that the schema of the endpoint accepts. *)
Definition gh_data (c : GithubCall) : Type :=
  match c with
  | GhExchangeCode _ _ _ | GhAccessToken _ _ => string
  | GhUserInstallations _ _ _ => list Z
  | GhInstallationRepositories _ _ _ => list GitHubRepository
  | GhTree _ _ _ _ => (list (string * string) * option bool)%type
  | GhEvents _ _ _ _ => list RepositoryEvent
  | GhBranches _ _ _ _ | GhMatchingRefs _ _ _ _ => list string
  | GhRepo _ _ _ | GhRepoById _ _ => GitHubRepository
  | GhPull _ _ _ => PullRequest
  | GhCommitPulls _ _ _ => list PullRequest
  end.
