(* ===== verification/CtrlTypes.v ===== *)
(** * Data of the control plane and of the API

    The requests of services ctrl.v1.CustomDomainService and ctrl.v1.DeployService that
    web/apps/dashboard sends through lib/ctrl-client.ts, and the response of the API that
    app/proxy passes on. *)

From Stdlib Require Import ZArith Bool String.
From stdpp Require Import base list strings.
From S2P Require Import Prelude.

(** The actor of a request; its type is [ActorType.USER]. *)
Record CtrlActor := { ca_id : string; ca_remoteIp : string; ca_userAgent : string }.

Record AddDomainRequest := {
  ad_workspaceId : string;
  ad_projectId : string;
  ad_appId : string;
  ad_environmentId : string;
  ad_domain : string;
  ad_actor : CtrlActor;
}.

Record AddDomainResponse := {
  dr_domainId : string;
  dr_targetCname : string;
  dr_status : string;
  dr_domainConnectProvider : string;
  dr_domainConnectUrl : string;
}.

Record DomainRequest := { dq_workspaceId : string; dq_projectId : string; dq_domain : string; dq_actor : CtrlActor }.

Inductive CtrlCall :=
| AddCustomDomain (r : AddDomainRequest)
| DeleteCustomDomain (r : DomainRequest)
| RetryVerification (r : DomainRequest)
| CancelDeployment (deploymentId : string)
| AuthorizeDeployment (deploymentId : string).

(** [RetryVerification] returns the status. *)
Definition CtrlResp (c : CtrlCall) : Type :=
  match c with
  | AddCustomDomain _ => AddDomainResponse
  | RetryVerification _ => string
  | _ => unit
  end.

(** The [redirect] mode of fetch. *)
Inductive RedirectMode := RedirectFollow | RedirectManual | RedirectError.

(** A request of fetch with method POST; the timeout is in milliseconds. *)
Record UpstreamRequest := {
  ur_url : string;
  ur_headers : list (string * string);
  ur_body : string;
  ur_redirect : RedirectMode;
  ur_timeout : Z;
}.

Record UpstreamResponse := { up_status : Z; up_statusText : string; up_headers : list (string * string); up_body : string }.
