(* ===== verification/Effects.v ===== *)
(** * Effects of the server

    A computation of the dashboard's server is a function of an environment and a
    world. The world holds the database, the module-level state of
    lib/stripe/deployBilling.ts, the cookies of the request and the calls made so far; the
    environment answers every call to Stripe, to the control plane, to the authentication
    provider, to GitHub, to the API, to Slack and to the database driver, from the calls made before it,
    with a result or an exception. Theorems quantify over all environments, so
    they hold for every pattern of failures and of answers. Console output is not
    modelled.

    The classes [ReadOnly], [NoThrow] and [Atomic] classify computations by
    their effect on the database and by the exceptions they let through, with an
    instance per construct, so that a handler's class is inferred from its text. *)

From Stdlib Require Import ZArith Bool String.
From stdpp Require Import base list gmap strings.
From S2P Require Import Prelude Tables StripeTypes DeployPlan AuthTypes GithubTypes CtrlTypes.

Local Open Scope Z_scope.

(** ** The database *)

Record Workspace := {
  ws_id : string;
  ws_name : string;
  orgId : string;
  ws_slug : string;
  ws_k8sNamespace : option string;
  ws_betaFeatures : list (string * bool);
  ws_enabled : bool;
  ws_deleteProtection : bool;
  ws_createdAtM : Z;
  ws_updatedAtM : option Z;
  deletedAtM : option Z;
}.

(** The spend-cap columns of workspace_billing: the monthly budget in cents, whether
    workloads stop at it, and whether they have been stopped. *)
Record SpendCap := { spendBudgetCents : option Z; spendBudgetStop : bool; spendSuspended : bool }.

Definition no_spend : SpendCap := {| spendBudgetCents := None; spendBudgetStop := false; spendSuspended := false |}.

(** A row of workspace_billing. *)
Record Billing := {
  tier : option string;
  stripeCustomerId : option string;
  plan : option string;
  planOverride : option string;
  spend : SpendCap;
}.

(** A row of billing_subscriptions: stripe_subscription_id is unique, and so is
    (workspace_id, product). *)
Record BillingSubscription := {
  bs_workspaceId : string;
  bs_product : SubscriptionProduct;
  stripeSubscriptionId : string;
}.

Inductive JsonScalar := JString (s : string) | JNumber (n : Z) | JBool (b : bool) | JNull.

Record Actor := {
  actor_type : string;
  actor_id : string;
  actor_name : option string;
  actor_meta : option (list (string * JsonScalar));
}.

Record Resource := {
  resource_type : string;
  resource_id : string;
  resource_name : option string;
  resource_meta : option (list (string * JsonScalar));
}.

(** [OutboxEventEnvelope]: a key that is omitted is [None]. *)
Record OutboxEventEnvelope := {
  envelope_event_id : string;
  envelope_time : Z;
  envelope_workspace_id : string;
  envelope_bucket : string;
  envelope_source : string;
  envelope_event : string;
  envelope_description : string;
  envelope_actor : Actor;
  envelope_remote_ip : option string;
  envelope_user_agent : option string;
  envelope_targets : option (list Resource);
  envelope_correlation_id : option string;
}.

(** A row of clickhouse_outbox. *)
Record OutboxRow := {
  outbox_version : string;
  outbox_workspaceId : string;
  outbox_eventId : string;
  outbox_payload : OutboxEventEnvelope;
  outbox_createdAt : Z;
}.

Record Db := {
  workspaces : gmap string Workspace;
  workspace_billing : gmap string Billing;
  billing_subscriptions : list BillingSubscription;
  limits : gmap string PlanLimits;
  clickhouse_outbox : list OutboxRow;
  tables : Tables;
}.

(** The columns [update(schema.workspaceBilling).set(...)] assigns. *)
Record BillingUpdate := {
  set_tier : option (option string);
  set_stripeCustomerId : option (option string);
  set_plan : option (option string);
  (* spendBudgetCents and spendBudgetStop *)
  set_budget : option (option Z * bool);
}.

(** The statements the code runs. *)
Inductive Stmt :=
| UpdateBilling (workspaceId : string) (u : BillingUpdate)
| UpsertSubscription (row : BillingSubscription)
| DeleteSubscription (workspaceId : string) (product : SubscriptionProduct)
| UpsertLimits (workspaceId : string) (values : PlanLimits) (columns : LimitUpdate)
| InsertOutbox (rows : list OutboxRow)
(* update workspace_billing set plan = p where workspace_id = ws and plan is null *)
| ClaimPlan (workspaceId p : string)
(* update workspace_billing set plan = null where workspace_id = ws and plan = p *)
| ReleasePlan (workspaceId p : string)
(* insert workspace_billing on duplicate key update stripe_customer_id *)
| UpsertCustomer (workspaceId customerId : string)
| RenameWorkspace (workspaceId name : string)
| InsertWorkspace (row : Workspace)
| InsertLimits (workspaceId : string) (values : PlanLimits)
| InsertBilling (workspaceId : string) (row : Billing)
| SqlStmt (s : Sql).

Definition update_billing (u : BillingUpdate) (b : Billing) : Billing :=
  {| tier := Js.coalesce (set_tier u) (tier b);
     stripeCustomerId := Js.coalesce (set_stripeCustomerId u) (stripeCustomerId b);
     plan := Js.coalesce (set_plan u) (plan b);
     planOverride := planOverride b;
     spend := match set_budget u with
              | Some (cents, stop) => {| spendBudgetCents := cents; spendBudgetStop := stop; spendSuspended := spendSuspended (spend b) |}
              | None => spend b
              end |}.

Definition plan_only (p : option string) : BillingUpdate :=
  {| set_tier := None; set_stripeCustomerId := None; set_plan := Some p; set_budget := None |}.

Definition customer_only (c : option string) : BillingUpdate :=
  {| set_tier := None; set_stripeCustomerId := Some c; set_plan := None; set_budget := None |}.

(** A billing row inserted with only a customer: the other columns take their
    defaults. *)
Definition new_billing (customerId : string) : Billing :=
  {| tier := Some "Free"%string; stripeCustomerId := Some customerId; plan := None; planOverride := None; spend := no_spend |}.

(** The rows a conditional update of the plan matches. *)
Definition claims (w p : string) (t : gmap string Billing) : bool :=
  match t !! w with Some b => bool_decide (plan b = None) | None => false end.

Definition releases (w p : string) (t : gmap string Billing) : bool :=
  match t !! w with Some b => bool_decide (plan b = Some p) | None => false end.

Definition same_key (row r : BillingSubscription) : bool :=
  String.eqb (bs_workspaceId r) (bs_workspaceId row) && bool_decide (bs_product r = bs_product row).

Definition set_sub_id (id : string) (r : BillingSubscription) : BillingSubscription :=
  {| bs_workspaceId := bs_workspaceId r; bs_product := bs_product r; stripeSubscriptionId := id |}.

(** [INSERT ... ON DUPLICATE KEY UPDATE stripe_subscription_id = ...]: MySQL checks
    the unique keys in order and updates the first row that conflicts; the row
    found by its subscription id is rewritten with the same id, which changes
    nothing. *)
Definition upsert_subscription (row : BillingSubscription) (t : list BillingSubscription) : list BillingSubscription :=
  if existsb (fun r => String.eqb (stripeSubscriptionId r) (stripeSubscriptionId row)) t then t
  else if existsb (same_key row) t then
    List.map (fun r => if same_key row r then set_sub_id (stripeSubscriptionId row) r else r) t
  else t ++ [row].

Definition with_billing (t : gmap string Billing) (d : Db) : Db :=
  {| workspaces := workspaces d; workspace_billing := t; billing_subscriptions := billing_subscriptions d;
     limits := limits d; clickhouse_outbox := clickhouse_outbox d; tables := tables d |}.

Definition with_tables (t : Tables) (d : Db) : Db :=
  {| workspaces := workspaces d; workspace_billing := workspace_billing d;
     billing_subscriptions := billing_subscriptions d; limits := limits d;
     clickhouse_outbox := clickhouse_outbox d; tables := t |}.

Definition rename (name : string) (ws : Workspace) : Workspace :=
  {| ws_id := ws_id ws; ws_name := name; orgId := orgId ws; ws_slug := ws_slug ws;
     ws_k8sNamespace := ws_k8sNamespace ws; ws_betaFeatures := ws_betaFeatures ws; ws_enabled := ws_enabled ws;
     ws_deleteProtection := ws_deleteProtection ws; ws_createdAtM := ws_createdAtM ws; ws_updatedAtM := ws_updatedAtM ws;
     deletedAtM := deletedAtM ws |}.

(** A unique index of the inserted row has an entry: workspaces are unique by id, by
    organization, by slug and by namespace, the latter two in the server's collation;
    limits and billing rows are unique by workspace. *)
Definition same_workspace (fold : string -> string) (row : Workspace) (ws : Workspace) : bool :=
  String.eqb (ws_id ws) (ws_id row) || String.eqb (orgId ws) (orgId row)
  || String.eqb (fold (ws_slug ws)) (fold (ws_slug row))
  || match ws_k8sNamespace ws, ws_k8sNamespace row with
     | Some a, Some b => String.eqb (fold a) (fold b) | _, _ => false end.

Definition refused (fold : string -> string) (s : Stmt) (d : Db) : bool :=
  match s with
  | InsertWorkspace row =>
      bool_decide (is_Some (workspaces d !! ws_id row))
      || existsb (same_workspace fold row) (List.map snd (map_to_list (workspaces d)))
  | InsertLimits ws _ => bool_decide (is_Some (limits d !! ws))
  | InsertBilling ws _ => bool_decide (is_Some (workspace_billing d !! ws))
  | _ => false
  end.

(** The database after a statement that no unique index refuses; a [SqlStmt] is
    run by [exec_sql]. *)
Definition apply_stmt (s : Stmt) (d : Db) : Db :=
  match s with
  | UpdateBilling ws u =>
      {| workspaces := workspaces d;
         workspace_billing := alter (update_billing u) ws (workspace_billing d);
         billing_subscriptions := billing_subscriptions d;
         limits := limits d; clickhouse_outbox := clickhouse_outbox d; tables := tables d |}
  | UpsertSubscription row =>
      {| workspaces := workspaces d; workspace_billing := workspace_billing d;
         billing_subscriptions := upsert_subscription row (billing_subscriptions d);
         limits := limits d; clickhouse_outbox := clickhouse_outbox d; tables := tables d |}
  | DeleteSubscription ws p =>
      {| workspaces := workspaces d; workspace_billing := workspace_billing d;
         billing_subscriptions :=
           List.filter (fun r => negb (String.eqb (bs_workspaceId r) ws && bool_decide (bs_product r = p)))
             (billing_subscriptions d);
         limits := limits d; clickhouse_outbox := clickhouse_outbox d; tables := tables d |}
  | UpsertLimits ws values columns =>
      {| workspaces := workspaces d; workspace_billing := workspace_billing d;
         billing_subscriptions := billing_subscriptions d;
         limits := <[ws := match limits d !! ws with
                           | Some r => apply_update columns r
                           | None => values end]> (limits d);
         clickhouse_outbox := clickhouse_outbox d; tables := tables d |}
  | InsertOutbox rows =>
      {| workspaces := workspaces d; workspace_billing := workspace_billing d;
         billing_subscriptions := billing_subscriptions d; limits := limits d;
         clickhouse_outbox := clickhouse_outbox d ++ rows; tables := tables d |}
  | ClaimPlan ws p =>
      if claims ws p (workspace_billing d)
      then with_billing (alter (update_billing (plan_only (Some p))) ws (workspace_billing d)) d else d
  | ReleasePlan ws p =>
      if releases ws p (workspace_billing d)
      then with_billing (alter (update_billing (plan_only None)) ws (workspace_billing d)) d else d
  | UpsertCustomer ws c =>
      with_billing (<[ws := match workspace_billing d !! ws with
                            | Some b => update_billing (customer_only (Some c)) b
                            | None => new_billing c end]> (workspace_billing d)) d
  | RenameWorkspace ws name =>
      {| workspaces := alter (rename name) ws (workspaces d); workspace_billing := workspace_billing d;
         billing_subscriptions := billing_subscriptions d; limits := limits d;
         clickhouse_outbox := clickhouse_outbox d; tables := tables d |}
  | InsertWorkspace row =>
      {| workspaces := <[ws_id row := row]> (workspaces d); workspace_billing := workspace_billing d;
         billing_subscriptions := billing_subscriptions d; limits := limits d;
         clickhouse_outbox := clickhouse_outbox d; tables := tables d |}
  | InsertLimits ws values =>
      {| workspaces := workspaces d; workspace_billing := workspace_billing d;
         billing_subscriptions := billing_subscriptions d; limits := <[ws := values]> (limits d);
         clickhouse_outbox := clickhouse_outbox d; tables := tables d |}
  | InsertBilling ws row => with_billing (<[ws := row]> (workspace_billing d)) d
  | SqlStmt _ => d
  end.

(** ** The teardown of a workspace's Compute *)

(** The writes of ctrl's [DeprovisionCompute], in their order: the suspension by the
    spend cap is lifted, then the plan is cleared. *)
Inductive TeardownProgress := NothingDone | Unsuspended | PlanCleared.

Definition unsuspend (b : Billing) : Billing :=
  {| tier := tier b; stripeCustomerId := stripeCustomerId b; plan := plan b; planOverride := planOverride b;
     spend := {| spendBudgetCents := spendBudgetCents (spend b); spendBudgetStop := spendBudgetStop (spend b);
                 spendSuspended := false |} |}.

(** A row without a plan is left as it is: it is the guard of the service. *)
Definition torn_row (p : TeardownProgress) (b : Billing) : Billing :=
  if negb (Js.truthy (plan b)) then b
  else match p with
       | NothingDone => b
       | Unsuspended => unsuspend b
       | PlanCleared => update_billing (plan_only None) (unsuspend b)
       end.

Definition torn_down (p : TeardownProgress) (workspaceId : string) (d : Db) : Db :=
  with_billing (alter (torn_row p) workspaceId (workspace_billing d)) d.

(** ** Calls *)

(** The classes of package stripe's errors that the code tells apart. *)
Inductive StripeErrorKind :=
| CardError | AuthenticationError | RateLimitError | InvalidRequestError | PermissionError | OtherStripeError.

Inductive Exn :=
| StripeError (kind : StripeErrorKind) (code : option string) (statusCode : option Z) (message : string)
| TRPCError (code message : string)
(* a DrizzleQueryError, with the code of the driver error on its cause *)
| QueryError (code : option string)
| SubscriptionScheduleConflictError
| OrganizationScopeError
(* an exception of the WorkOS client *)
| WorkosError (e : WorkosException)
(* an AuthErrorResponse that is thrown; it is not an Error *)
| AuthErrorThrown (e : AuthErrorResponse)
(* redirect() of next/navigation *)
| NextRedirect (url : string)
(* an error of the control plane client, with its code *)
| ConnectError (code message : string)
| OtherError (message : string).

(** [err instanceof Stripe.errors.StripeError && err.code === "resource_missing"]. *)
Definition resource_missing (e : Exn) : bool :=
  match e with StripeError _ code _ _ => Js.eq_ostring code "resource_missing" | _ => false end.

(** The error of a violated unique index. *)
Definition DuplicateEntry : Exn := QueryError (Some "ER_DUP_ENTRY"%string).

Record CreditGrantParams := {
  grant_name : string;
  grant_customer : string;
  grant_currency : string;
  grant_amount : Z;
  grant_scope : string;
  grant_expires_at : Z;
  grant_invoice_id : string;
  grant_deploy_plan : option string;
}.

(** [subscriptions.update]: a price change, a cancellation at period end, or its
    withdrawal. *)
Inductive SubscriptionUpdateParams :=
| ChangePrice (itemId priceId prorationBehavior : string)
| CancelAtPeriodEnd
(* cancel_at_period_end: false *)
| Uncancel
(* the same, without proration and refusing an incomplete payment *)
| Resume.

(** [subscriptions.create] of the Compute items: the parameters that vary. *)
Record SubscriptionCreateParams := {
  sc_customer : string;
  sc_items : list (string * option Z);
  sc_default_payment_method : option string;
}.

(** [checkout.sessions.create]: the parameters that vary. *)
Record SessionParams := {
  sp_client_reference_id : string;
  sp_product : SubscriptionProduct;
  sp_line_items : list (string * option Z);
  sp_customer : option string;
  sp_custom_text : option string;
  sp_success_url : string;
}.

Record SchedulePhaseParams := {
  pp_items : list (string * option Z);
  (* start_date and end_date, or a duration of one month *)
  pp_dates : option (Z * Z);
}.

Record ScheduleUpdateParams := {
  su_metadata : Metadata;
  su_phases : list SchedulePhaseParams;
}.

Record Member := { member_id : string; createdAt : string }.
Record Invitation := { invitation_id : string; invitation_state : string }.

(** A Block Kit message, as the blocks the alerts build. *)
Inductive SlackBlock :=
| Header (text : list Z)
| SectionText (verbatim : bool) (text : list Z)
| SectionFields (fields : list (list Z))
| LinkButton (label : list Z) (url : string).

Inductive Call :=
| SubscriptionsRetrieve (id : string)
| SubscriptionsUpdate (id : string) (params : SubscriptionUpdateParams)
| SubscriptionsCreate (params : SubscriptionCreateParams) (idempotencyKey : string)
| SubscriptionsCancel (id : string)
| SubscriptionsListCanceled (customer : string)
| CustomersRetrieve (id : string)
| CustomersSetDefaultPaymentMethod (id paymentMethod : string)
| CustomersListPaymentMethods (id : string)
| CustomersCreate (email : option string) (workspaceId : string)
| PaymentMethodsAttach (paymentMethod customer : string)
| SetupIntentsRetrieve (id : string)
| PricesRetrieve (id : string)
| PricesList (lookup_keys : list string)
| ProductsRetrieve (id : string)
| ProductsList (ids : list string)
| SessionsRetrieve (id : string)
| SessionsCreate (params : SessionParams) (idempotencyKey : option string)
| InvoicesRetrieve (id : string)
| InvoicesListLineItems (id : string)
| InvoicesCreatePreview (customer subscription : string)
| CreditGrantsList (customer : string)
| CreditGrantsCreate (params : CreditGrantParams) (idempotencyKey : string)
| EventsListPaymentFailed (gte lte limit : Z)
| ChargesList (paymentIntent : string)
| SchedulesRetrieve (id : string)
| SchedulesCreate (from_subscription : string)
| SchedulesUpdate (id : string) (params : ScheduleUpdateParams)
| SchedulesRelease (id : string)
| DeprovisionCompute (workspaceId : string)
| GetOrganizationMemberList (org : string)
| GetInvitationList (org : string)
| DeactivateMembership (id org : string)
| RevokeOrgInvitation (id org : string)
| RatelimitLimit (namespace identifier : string)
| VaultEncrypt (keyring data : string)
| VaultDecrypt (keyring encrypted : string)
| RandomBytes (n : Z)
| SlackPost (url : string) (blocks : list SlackBlock)
| WorkOS (c : WorkosCall)
| GitHub (c : GithubCall)
| Ctrl (c : CtrlCall)
| UpstreamPost (r : UpstreamRequest)
| ConstructEvent (payload sigHeader : string)
| ContactsGet (email : string)
| ContactsCreate (email : string)
| EmailsSend (to_ subject : string) (scheduledAt : option Z)
| ReadCookies
| SetCookie (c : Cookie)
| DeleteCookie (name : string)
| ReadHeaders
| DateNow
| NewId (prefix : string)
| DbQuery
| DbExec (s : Stmt)
| TxBegin
| TxCommit.

(** What a successful call returns. [EventsListPaymentFailed] returns the invoices
    of the events, [ChargesList] the statuses of the charges, [SlackPost]
    [response.ok], [CustomersListPaymentMethods] the ids of the methods,
    [CustomersCreate], [CustomersSetDefaultPaymentMethod] and
    [PaymentMethodsAttach] the id of the object,
    [RatelimitLimit] [response.success], [ContactsGet] whether there is data and the
    name and message of the error, [ContactsCreate] and [EmailsSend] the error, [VaultEncrypt] the ciphertext and the id
    of its key. A list that the code reads page by page is one call. *)
Definition Resp (c : Call) : Type :=
  match c with
  | SubscriptionsRetrieve _ | SubscriptionsUpdate _ _ | SubscriptionsCreate _ _ | SubscriptionsCancel _ => Subscription
  | SubscriptionsListCanceled _ => list Subscription
  | CustomersListPaymentMethods _ => list string
  | CustomersCreate _ _ => string
  | CustomersSetDefaultPaymentMethod _ _ => string
  | PaymentMethodsAttach _ _ => string
  | SetupIntentsRetrieve _ => SetupIntent
  | InvoicesCreatePreview _ _ => InvoicePreview
  | ProductsList _ => list Product
  | CustomersRetrieve _ => Customer
  | PricesRetrieve _ => Price
  | PricesList _ => list Price
  | ProductsRetrieve _ => Product
  | SessionsRetrieve _ | SessionsCreate _ _ => Session
  | InvoicesRetrieve _ => Invoice
  | InvoicesListLineItems _ => list InvoiceLine
  | CreditGrantsList _ => list CreditGrant
  | CreditGrantsCreate _ _ => string
  | EventsListPaymentFailed _ _ _ => list Invoice
  | ChargesList _ => list string
  | SchedulesRetrieve _ | SchedulesCreate _ => Schedule
  | GetOrganizationMemberList _ => list Member
  | GetInvitationList _ => list Invitation
  | RatelimitLimit _ _ => bool
  | VaultEncrypt _ _ => (string * string)%type
  | VaultDecrypt _ _ => string
  | RandomBytes _ => list Z
  | SlackPost _ _ => bool
  | WorkOS c => WorkosResp c
  | GitHub c => GhReply (gh_data c)
  | Ctrl c => CtrlResp c
  | UpstreamPost _ => UpstreamResponse
  | ConstructEvent _ _ => WorkosEvent
  | ContactsGet _ => (bool * option (string * string))%type
  | ContactsCreate _ | EmailsSend _ _ _ => option string
  | DateNow => Z
  | NewId _ => string
  | _ => unit
  end.

(** The Stripe variables of the process, as [stripeEnv()] parses them. *)
Record StripeEnv := {
  STRIPE_SECRET_KEY : string;
  STRIPE_PRODUCT_IDS_PRO : list string;
  STRIPE_PRODUCT_IDS_ENTERPRISE : list string;
  STRIPE_WEBHOOK_SECRET : string;
  STRIPE_LOOKUP_DEPLOY_STARTER : option string;
  STRIPE_LOOKUP_DEPLOY_PRO : option string;
  STRIPE_LOOKUP_DEPLOY_BUSINESS : option string;
  STRIPE_LOOKUP_DEPLOY_METER_CPU : option string;
  STRIPE_LOOKUP_DEPLOY_METER_MEMORY : option string;
  STRIPE_LOOKUP_DEPLOY_METER_EGRESS : option string;
  STRIPE_LOOKUP_DEPLOY_METER_DISK : option string;
  STRIPE_LOOKUP_DEPLOY_METER_ACTIVE_KEYS : option string;
}.

(** The other variables of the process; [baseUrl] is [getBaseUrl()]. *)
Record AppEnv := {
  UNKEY_ROOT_KEY : option string;
  UNKEY_WORKSPACE_ID : string;
  UNKEY_API_ID : string;
  AUTH_PROVIDER : string;
  NODE_ENV : string;
  VERCEL_ENV : string;
  NEXT_PUBLIC_WORKOS_REDIRECT_URI : option string;
  baseUrl : string;
  WORKOS_API_KEY : option string;
  WORKOS_WEBHOOK_SECRET : option string;
  RESEND_API_KEY : option string;
  RESEND_AUDIENCE_ID : option string;
  (* githubAppEnv() and githubOAuthEnv() *)
  github_app_env : option GithubAppEnv;
  github_oauth_env : option GithubOAuthEnv;
  CTRL_URL : option string;
  CTRL_API_KEY : option string;
  UNKEY_API_URL : string;
  UNKEY_JWT_SECRET : option string;
}.

(** The environment answers a call from the calls made before it; the clock and
    the id generator do not fail. *)
Record Env := {
  stripe_env : option StripeEnv;
  app_env : AppEnv;
  (* the headers of the request *)
  request_headers : string -> option string;
  collation : string -> string;
  SLACK_WEBHOOK_CUSTOMERS : option string;
  ask : list Call -> forall c, Exn + Resp c;
  (* how far a teardown came that did not answer with success *)
  teardown_done : list Call -> TeardownProgress;
  clock : list Call -> Z;
  fresh : list Call -> string -> string;
}.

(** ** The world *)

(** [DeployBillingConfig]; the set of all Deploy prices is derived. *)
Record DeployBillingConfig := {
  planFeePriceIds : DeployPlan -> string;
  meteredPriceIds : list string;
}.

Record CacheEntry := { cache_key : string; cache_expiresAt : Z; cache_config : DeployBillingConfig }.

Record World := {
  db : Db;
  trace : list Call;
  cache : option CacheEntry;
  (* the in-flight resolution of another request and what its promise settles to *)
  pending : option (string * (Exn + option DeployBillingConfig));
  (* the cache of getDeployCredit: the expiry and the cents of a customer *)
  credits : gmap string (Z * Z);
  (* the cookies that the request sees *)
  jar : gmap string string;
  (* name and updatedAt of the organization of the local provider, once changed *)
  local_org : option (string * string);
}.

Inductive Outcome (A : Type) := Ret (a : A) | Throw (e : Exn).
Arguments Ret {A} a.
Arguments Throw {A} e.

Definition M (A : Type) := Env -> World -> Outcome A * World.

Definition ret {A} (a : A) : M A := fun _ w => (Ret a, w).
Definition throw {A} (e : Exn) : M A := fun _ w => (Throw e, w).

Definition bind {A B} (m : M A) (k : A -> M B) : M B := fun env w =>
  match m env w with
  | (Ret a, w') => k a env w'
  | (Throw e, w') => (Throw e, w')
  end.

(** [try { m } catch (e) { h(e) }], also [m.catch(h)]. *)
Definition catch {A} (m : M A) (h : Exn -> M A) : M A := fun env w =>
  match m env w with
  | (Ret a, w') => (Ret a, w')
  | (Throw e, w') => h e env w'
  end.

(** The outcome of [m] as a value: a settled promise. *)
Definition settle {A} (m : M A) : M (Exn + A) := catch (bind m (fun a => ret (inr a))) (fun e => ret (inl e)).

Declare Scope m_scope.
Delimit Scope m_scope with m.
Notation "x <- m ;; k" := (bind m (fun x => k)) (at level 100, m at next level, right associativity) : m_scope.
Notation "m ;; k" := (bind m (fun _ => k)) (at level 100, right associativity) : m_scope.
Open Scope m_scope.

Definition with_db (d : Db) (w : World) : World :=
  {| db := d; trace := trace w; cache := cache w; pending := pending w; credits := credits w;
     jar := jar w; local_org := local_org w |}.

Definition log_call (c : Call) (w : World) : World :=
  {| db := db w; trace := trace w ++ [c]; cache := cache w; pending := pending w; credits := credits w;
     jar := jar w; local_org := local_org w |}.

(** A call to the environment. *)
Definition call (c : Call) : M (Resp c) := fun env w =>
  match ask env (trace w) c with
  | inr r => (Ret r, log_call c w)
  | inl e => (Throw e, log_call c w)
  end.

(** [ctrl.deprovisionCompute({ workspaceId })]: ctrl writes the billing row before it
    answers; a call that fails may have come any part of the way. *)
Definition deprovisionCompute (workspaceId : string) : M unit := fun env w =>
  let done p := with_db (torn_down p workspaceId (db w)) (log_call (DeprovisionCompute workspaceId) w) in
  match ask env (trace w) (DeprovisionCompute workspaceId) with
  | inr _ => (Ret tt, done PlanCleared)
  | inl e => (Throw e, done (teardown_done env (trace w)))
  end.

Definition date_now : M Z := fun env w => (Ret (clock env (trace w)), log_call DateNow w).
Definition new_id (prefix : string) : M string :=
  fun env w => (Ret (fresh env (trace w) prefix), log_call (NewId prefix) w).

(** [stripeEnv()] and [process.env.SLACK_WEBHOOK_CUSTOMERS]. *)
Definition stripeEnv : M (option StripeEnv) := fun env w => (Ret (stripe_env env), w).
Definition slack_webhook : M (option string) := fun env w => (Ret (SLACK_WEBHOOK_CUSTOMERS env), w).

(** A query of the database: it may fail, and otherwise reads the tables. *)
Definition query {A} (f : Db -> A) : M A := call DbQuery ;; fun _ w => (Ret (f (db w)), w).

(** A statement: it may fail without effect, and otherwise is applied. (That a statement is
    applied and its answer lost is left out.) *)
Definition exec (s : Stmt) : M unit :=
  call (DbExec s) ;; fun _ w => (Ret tt, with_db (apply_stmt s (db w)) w).

(** A plain insert: it may fail, a unique index may refuse it. *)
Definition exec_insert (s : Stmt) : M unit :=
  call (DbExec s) ;;
  fun env w => if refused (collation env) s (db w) then (Throw DuplicateEntry, w)
               else (Ret tt, with_db (apply_stmt s (db w)) w).

Definition appEnv : M AppEnv := fun env w => (Ret (app_env env), w).

(** A conditional update, with its number of affected rows. *)
Definition exec_claim (workspaceId p : string) : M Z :=
  call (DbExec (ClaimPlan workspaceId p)) ;;
  fun _ w => (Ret (if claims workspaceId p (workspace_billing (db w)) then 1 else 0),
              with_db (apply_stmt (ClaimPlan workspaceId p) (db w)) w).

(** A query of the tables; [fold] is the collation of the server. *)
Definition select {A} (f : (string -> string) -> Tables -> A) : M A :=
  call DbQuery ;; fun env w => (Ret (f (collation env) (tables (db w))), w).

(** A statement on the tables: it may fail, a unique index may refuse it. *)
Definition exec_sql (s : Sql) : M unit :=
  call (DbExec (SqlStmt s)) ;;
  fun env w => match run_sql (collation env) s (tables (db w)) with
               | Some t => (Ret tt, with_db (with_tables t (db w)) w)
               | None => (Throw DuplicateEntry, w)
               end.

(** [db.transaction(body)]: when the body throws or the commit fails, the
    database is as it was before. *)
Definition transaction {A} (body : M A) : M A := fun env w =>
  match (call TxBegin ;; a <- body ;; call TxCommit ;; ret a) env w with
  | (Ret a, w') => (Ret a, w')
  | (Throw e, w') => (Throw e, with_db (db w) w')
  end.

(** [Promise.all] of two computations: both run, the first error in order is
    thrown. *)
Definition both {A B} (a : M A) (b : M B) : M (A * B) :=
  ra <- settle a ;; rb <- settle b ;;
  match ra, rb with
  | inl e, _ => throw e
  | _, inl e => throw e
  | inr x, inr y => ret (x, y)
  end.

(** [Promise.all(l.map(f))] with results that are not used. *)
Fixpoint each {A} (f : A -> M unit) (l : list A) : M unit :=
  match l with
  | [] => ret tt
  | x :: l' => bind (both (f x) (each f l')) (fun _ => ret tt)
  end.

(** [Promise.all(l.map(f))]. *)
Fixpoint map_all {A B} (f : A -> M B) (l : list A) : M (list B) :=
  match l with
  | [] => ret []
  | x :: l' => bind (both (f x) (map_all f l')) (fun '(y, ys) => ret (y :: ys))
  end.

(** ** Classes of computations *)

(** The database is left as it was. *)
Class ReadOnly {A} (m : M A) : Prop := read_only : forall env w, db (snd (m env w)) = db w.

(** No exception escapes. *)
Class NoThrow {A} (m : M A) : Prop := no_throw : forall env w, exists a w', m env w = (Ret a, w').

(** An exception leaves the database as it was. *)
Class Atomic {A} (m : M A) : Prop := atomic : forall env w e w', m env w = (Throw e, w') -> db w' = db w.

(** Every call that is made satisfies [P]. *)
Class Emits (P : Call -> Prop) {A} (m : M A) : Prop :=
  emits : forall env w, exists l, trace (snd (m env w)) = trace w ++ l /\ Forall P l.

Create HintDb effects.

Section ClassFacts.

Context {A B : Type}.

Lemma ReadOnly_ret (a : A) : ReadOnly (ret a).
Proof. done. Qed.

Lemma ReadOnly_throw e : ReadOnly (throw (A := A) e).
Proof. done. Qed.

Lemma ReadOnly_bind (m : M A) (k : A -> M B) : ReadOnly m -> (forall a, ReadOnly (k a)) -> ReadOnly (bind m k).
Proof.
  intros Hm Hk env w. unfold bind. specialize (Hm env w). destruct (m env w) as [[a|e] w']; [|done].
  simpl in Hm. by rewrite Hk.
Qed.

Lemma ReadOnly_catch (m : M A) h : ReadOnly m -> (forall e, ReadOnly (h e)) -> ReadOnly (catch m h).
Proof.
  intros Hm Hh env w. unfold catch. specialize (Hm env w). destruct (m env w) as [[a|e] w']; [done|].
  simpl in Hm. by rewrite Hh.
Qed.

Lemma NoThrow_ret (a : A) : NoThrow (ret a).
Proof. intros env w. by eexists _, _. Qed.

Lemma NoThrow_bind (m : M A) (k : A -> M B) : NoThrow m -> (forall a, NoThrow (k a)) -> NoThrow (bind m k).
Proof.
  intros Hm Hk env w. unfold bind. destruct (Hm env w) as (a & w' & ->). apply Hk.
Qed.

Lemma NoThrow_catch (m : M A) h : (forall e, NoThrow (h e)) -> NoThrow (catch m h).
Proof.
  intros Hh env w. unfold catch. destruct (m env w) as [[a|e] w']; [by eexists _, _|]. apply Hh.
Qed.

Lemma Atomic_ReadOnly (m : M A) : ReadOnly m -> Atomic m.
Proof. intros Hm env w e w' E. specialize (Hm env w). by rewrite E in Hm. Qed.

Lemma Atomic_NoThrow (m : M A) : NoThrow m -> Atomic m.
Proof. intros Hm env w e w' E. destruct (Hm env w) as (a & w'' & E'). congruence. Qed.

Lemma Atomic_bind_read (m : M A) (k : A -> M B) : ReadOnly m -> (forall a, Atomic (k a)) -> Atomic (bind m k).
Proof.
  intros Hm Hk env w e w'. unfold bind. specialize (Hm env w). destruct (m env w) as [[a|e1] w1]; simpl in Hm.
  - intros E. by rewrite (Hk a env w1 e w' E).
  - by intros [= <- <-].
Qed.

Lemma Atomic_bind_last (m : M A) (k : A -> M B) : Atomic m -> (forall a, NoThrow (k a)) -> Atomic (bind m k).
Proof.
  intros Hm Hk env w e w'. unfold bind. destruct (m env w) as [[a|e1] w1] eqn:E1.
  - destruct (Hk a env w1) as (b & w2 & ->). done.
  - intros [= -> ->]. eapply Hm, E1.
Qed.

(** A handler that rethrows what an atomic body threw. *)
Lemma Atomic_catch (m : M A) h : Atomic m -> (forall e, Atomic (h e)) -> Atomic (catch m h).
Proof.
  intros Hm Hh env w e w'. unfold catch. destruct (m env w) as [[a|e1] w1] eqn:E1; [done|].
  intros E. rewrite (Hh e1 env w1 e w' E). eapply Hm, E1.
Qed.

Lemma Atomic_transaction (m : M A) : Atomic (transaction m).
Proof.
  intros env w e w'. unfold transaction. destruct (bind _ _ env w) as [[a|e1] w1]; [done|]. by intros [= _ <-].
Qed.

Lemma Emits_ret P (a : A) : Emits P (ret a).
Proof. intros env w. exists []. by rewrite app_nil_r. Qed.

Lemma Emits_throw P e : Emits P (throw (A := A) e).
Proof. intros env w. exists []. by rewrite app_nil_r. Qed.

Lemma Emits_bind P (m : M A) (k : A -> M B) : Emits P m -> (forall a, Emits P (k a)) -> Emits P (bind m k).
Proof.
  intros Hm Hk env w. unfold bind. destruct (Hm env w) as (l & Hl & Hp).
  destruct (m env w) as [[a|e] w']; simpl in Hl; [|by exists l].
  destruct (Hk a env w') as (l' & Hl' & Hp'). exists (l ++ l'). rewrite Hl', Hl, app_assoc. split; [done|].
  by apply Forall_app.
Qed.

Lemma Emits_weaken (P Q : Call -> Prop) (m : M A) : (forall c, P c -> Q c) -> Emits P m -> Emits Q m.
Proof.
  intros HPQ Hm env w. destruct (Hm env w) as (l & Hl & Hp). exists l. split; [done|]. by eapply Forall_impl.
Qed.

Lemma Emits_catch P (m : M A) h : Emits P m -> (forall e, Emits P (h e)) -> Emits P (catch m h).
Proof.
  intros Hm Hh env w. unfold catch. destruct (Hm env w) as (l & Hl & Hp).
  destruct (m env w) as [[a|e] w']; simpl in Hl; [by exists l|].
  destruct (Hh e env w') as (l' & Hl' & Hp'). exists (l ++ l'). rewrite Hl', Hl, app_assoc. split; [done|].
  by apply Forall_app.
Qed.

End ClassFacts.

Section CallFacts.

Lemma ReadOnly_call c : ReadOnly (call c).
Proof. intros env w. unfold call. by destruct (ask env (trace w) c). Qed.

Lemma Emits_call (P : Call -> Prop) c : P c -> Emits P (call c).
Proof. intros Hc env w. unfold call. exists [c]. destruct (ask env (trace w) c); by repeat constructor. Qed.

Lemma ReadOnly_date_now : ReadOnly date_now.
Proof. done. Qed.

Lemma NoThrow_date_now : NoThrow date_now.
Proof. intros env w. by eexists _, _. Qed.

Lemma Emits_date_now (P : Call -> Prop) : P DateNow -> Emits P date_now.
Proof. intros HP env w. exists [DateNow]. by repeat constructor. Qed.

Lemma ReadOnly_new_id p : ReadOnly (new_id p).
Proof. done. Qed.

Lemma NoThrow_new_id p : NoThrow (new_id p).
Proof. intros env w. by eexists _, _. Qed.

Lemma Emits_new_id (P : Call -> Prop) p : P (NewId p) -> Emits P (new_id p).
Proof. intros HP env w. exists [NewId p]. by repeat constructor. Qed.

Lemma ReadOnly_stripeEnv : ReadOnly stripeEnv.
Proof. done. Qed.

Lemma NoThrow_stripeEnv : NoThrow stripeEnv.
Proof. intros env w. by eexists _, _. Qed.

Lemma Emits_stripeEnv P : Emits P stripeEnv.
Proof. intros env w. exists []. by rewrite app_nil_r. Qed.

Lemma ReadOnly_slack_webhook : ReadOnly slack_webhook.
Proof. done. Qed.

Lemma NoThrow_slack_webhook : NoThrow slack_webhook.
Proof. intros env w. by eexists _, _. Qed.

Lemma Emits_slack_webhook P : Emits P slack_webhook.
Proof. intros env w. exists []. by rewrite app_nil_r. Qed.

Lemma ReadOnly_query {A} (f : Db -> A) : ReadOnly (query f).
Proof. apply ReadOnly_bind; [apply ReadOnly_call|done]. Qed.

Lemma Emits_query {A} (P : Call -> Prop) (f : Db -> A) : P DbQuery -> Emits P (query f).
Proof.
  intros HP. apply Emits_bind; [by apply Emits_call|]. intros _ env w. exists []. by rewrite app_nil_r.
Qed.

Lemma Atomic_exec s : Atomic (exec s).
Proof. apply Atomic_bind_last; [apply Atomic_ReadOnly, ReadOnly_call|]. intros _ env w. by eexists _, _. Qed.

Lemma Emits_exec (P : Call -> Prop) s : P (DbExec s) -> Emits P (exec s).
Proof.
  intros HP. apply Emits_bind; [by apply Emits_call|]. intros _ env w. exists []. by rewrite app_nil_r.
Qed.

Lemma Atomic_exec_insert s : Atomic (exec_insert s).
Proof.
  intros env w e w'. unfold exec_insert, bind, call. cbn [Resp]. destruct (ask env (trace w) (DbExec s)); [by intros [= _ <-]|].
  cbn. destruct (refused _ _ _); [by intros [= _ <-]|done].
Qed.

Lemma Emits_exec_insert (P : Call -> Prop) s : P (DbExec s) -> Emits P (exec_insert s).
Proof.
  intros HP. apply Emits_bind; [by apply Emits_call|]. intros _ env w. exists []. rewrite app_nil_r.
  by destruct (refused _ _ _).
Qed.

Lemma Emits_deprovisionCompute (P : Call -> Prop) ws : P (DeprovisionCompute ws) -> Emits P (deprovisionCompute ws).
Proof.
  intros HP env w. exists [DeprovisionCompute ws]. unfold deprovisionCompute.
  destruct (ask env _ _); (split; [reflexivity|by constructor]).
Qed.

Lemma deprovisionCompute_ret ws env w u w' :
  deprovisionCompute ws env w = (Ret u, w') ->
  ask env (trace w) (DeprovisionCompute ws) = inr tt /\ db w' = torn_down PlanCleared ws (db w).
Proof.
  unfold deprovisionCompute. destruct (ask env _ _) as [e|[]]; [done|]. by intros [= _ <-].
Qed.

Lemma deprovisionCompute_throw ws env w e w' :
  deprovisionCompute ws env w = (Throw e, w') ->
  exists p, ask env (trace w) (DeprovisionCompute ws) = inl e /\ db w' = torn_down p ws (db w).
Proof.
  unfold deprovisionCompute. destruct (ask env _ _) as [e1|[]]; [|done]. intros [= -> <-]. by eexists.
Qed.

Lemma torn_down_nothing ws d : torn_down NothingDone ws d = d.
Proof.
  destruct d as [a b c l o t]. unfold torn_down, with_billing. simpl. f_equal.
  apply map_eq. intros k. destruct (decide (ws = k)) as [->|Hk]; [rewrite lookup_alter_eq|by rewrite lookup_alter_ne].
  destruct (b !! k) as [r|]; [|done]. simpl. unfold torn_row. by destruct (negb _).
Qed.

(** Without a plan there is nothing to tear down. *)
Lemma torn_down_planless p ws d b :
  workspace_billing d !! ws = Some b -> Js.truthy (plan b) = false -> torn_down p ws d = d.
Proof.
  intros Hb Hp. destruct d as [x t c l o tb]. unfold torn_down, with_billing. simpl in *. f_equal.
  apply map_eq. intros k. destruct (decide (ws = k)) as [->|Hk]; [rewrite lookup_alter_eq|by rewrite lookup_alter_ne].
  rewrite Hb. simpl. unfold torn_row. by rewrite Hp.
Qed.

Lemma ReadOnly_appEnv : ReadOnly appEnv.
Proof. done. Qed.

Lemma NoThrow_appEnv : NoThrow appEnv.
Proof. intros env w. by eexists _, _. Qed.

Lemma Emits_appEnv P : Emits P appEnv.
Proof. intros env w. exists []. by rewrite app_nil_r. Qed.

Lemma ReadOnly_select {A} (f : (string -> string) -> Tables -> A) : ReadOnly (select f).
Proof. apply ReadOnly_bind; [apply ReadOnly_call|done]. Qed.

Lemma Emits_select {A} (P : Call -> Prop) (f : (string -> string) -> Tables -> A) : P DbQuery -> Emits P (select f).
Proof.
  intros HP. apply Emits_bind; [by apply Emits_call|]. intros _ env w. exists []. by rewrite app_nil_r.
Qed.

Lemma Atomic_exec_sql s : Atomic (exec_sql s).
Proof.
  apply Atomic_bind_read; [apply ReadOnly_call|]. intros _ env w e w'.
  destruct (run_sql _ _ _); [done|]. by intros [= _ <-].
Qed.

Lemma Emits_exec_sql (P : Call -> Prop) s : P (DbExec (SqlStmt s)) -> Emits P (exec_sql s).
Proof.
  intros HP. apply Emits_bind; [by apply Emits_call|]. intros _ env w. exists []. rewrite app_nil_r.
  by destruct (run_sql _ _ _).
Qed.

Lemma Atomic_exec_claim ws p : Atomic (exec_claim ws p).
Proof. apply Atomic_bind_last; [apply Atomic_ReadOnly, ReadOnly_call|]. intros _ env w. by eexists _, _. Qed.

Lemma Emits_exec_claim (P : Call -> Prop) ws p : P (DbExec (ClaimPlan ws p)) -> Emits P (exec_claim ws p).
Proof.
  intros HP. apply Emits_bind; [by apply Emits_call|]. intros _ env w. exists []. by rewrite app_nil_r.
Qed.

Lemma Emits_transaction {A} (P : Call -> Prop) (m : M A) :
  P TxBegin -> P TxCommit -> Emits P m -> Emits P (transaction m).
Proof.
  intros Hb Hc Hm env w. unfold transaction.
  assert (He : Emits P (call TxBegin ;; a <- m ;; call TxCommit ;; ret a)).
  { repeat (apply Emits_bind; [first [exact Hm | by apply Emits_call]|intros]). apply Emits_ret. }
  destruct (He env w) as (l & Hl & Hp). exists l. by destruct (bind _ _ env w) as [[a|e] w'].
Qed.

Context {A B : Type}.

Lemma ReadOnly_settle (m : M A) : ReadOnly m -> ReadOnly (settle m).
Proof. intros Hm. apply ReadOnly_catch; [apply ReadOnly_bind|]; done. Qed.

Lemma NoThrow_settle (m : M A) : NoThrow (settle m).
Proof. apply NoThrow_catch. intros e. apply NoThrow_ret. Qed.

Lemma Emits_settle P (m : M A) : Emits P m -> Emits P (settle m).
Proof.
  intros Hm. apply Emits_catch; [apply Emits_bind; [done|]|]; intros; apply Emits_ret.
Qed.

Lemma settle_ok (a : M A) : NoThrow a -> forall env w, exists x w', settle a env w = (Ret (inr x), w').
Proof.
  intros Ha env w. unfold settle, catch, bind. destruct (Ha env w) as (x & w' & ->). by eexists _, _.
Qed.

End CallFacts.

Section ParallelFacts.

Context {A B : Type}.

Lemma ReadOnly_both (a : M A) (b : M B) : ReadOnly a -> ReadOnly b -> ReadOnly (both a b).
Proof.
  intros Ha Hb. unfold both. apply ReadOnly_bind; [by apply ReadOnly_settle|intros ra].
  apply ReadOnly_bind; [by apply ReadOnly_settle|intros rb].
  destruct ra, rb; first [apply ReadOnly_throw | apply ReadOnly_ret].
Qed.

Lemma NoThrow_both (a : M A) (b : M B) : NoThrow a -> NoThrow b -> NoThrow (both a b).
Proof.
  intros Ha Hb env w. unfold both, bind at 1. destruct (settle_ok a Ha env w) as (x & w1 & ->).
  unfold bind. destruct (NoThrow_settle b env w1) as (rb & w2 & E). rewrite E.
  unfold settle, catch, bind in E. destruct (Hb env w1) as (y & w3 & Ey). rewrite Ey in E.
  injection E as <- <-. by eexists _, _.
Qed.

Lemma Emits_both P (a : M A) (b : M B) : Emits P a -> Emits P b -> Emits P (both a b).
Proof.
  intros Ha Hb. unfold both. apply Emits_bind; [by apply Emits_settle|intros ra].
  apply Emits_bind; [by apply Emits_settle|intros rb].
  destruct ra, rb; first [apply Emits_throw | apply Emits_ret].
Qed.

End ParallelFacts.

Section EachFacts.

Context {A : Type}.

Lemma ReadOnly_each (f : A -> M unit) l : (forall x, ReadOnly (f x)) -> ReadOnly (each f l).
Proof.
  intros Hf. induction l as [|x l IH]; [done|]. apply ReadOnly_bind; [by apply ReadOnly_both|done].
Qed.

Lemma NoThrow_each (f : A -> M unit) l : (forall x, NoThrow (f x)) -> NoThrow (each f l).
Proof.
  intros Hf. induction l as [|x l IH]; [apply NoThrow_ret|].
  apply NoThrow_bind; [by apply NoThrow_both|intros; apply NoThrow_ret].
Qed.

Lemma Emits_each P (f : A -> M unit) l : (forall x, Emits P (f x)) -> Emits P (each f l).
Proof.
  intros Hf. induction l as [|x l IH]; [apply Emits_ret|].
  apply Emits_bind; [by apply Emits_both|intros; apply Emits_ret].
Qed.

Lemma ReadOnly_map_all {B} (f : A -> M B) l : (forall x, ReadOnly (f x)) -> ReadOnly (map_all f l).
Proof.
  intros Hf. induction l as [|x l IH]; [done|]. apply ReadOnly_bind; [by apply ReadOnly_both|by intros []].
Qed.

Lemma Emits_map_all {B} P (f : A -> M B) l : (forall x, Emits P (f x)) -> Emits P (map_all f l).
Proof.
  intros Hf. induction l as [|x l IH]; [apply Emits_ret|].
  apply Emits_bind; [by apply Emits_both|intros []; apply Emits_ret].
Qed.

End EachFacts.

#[export] Hint Resolve ReadOnly_ret ReadOnly_throw ReadOnly_bind ReadOnly_catch ReadOnly_call ReadOnly_date_now
  ReadOnly_new_id ReadOnly_query ReadOnly_settle ReadOnly_both ReadOnly_each ReadOnly_map_all
  NoThrow_ret NoThrow_bind NoThrow_catch NoThrow_date_now NoThrow_new_id NoThrow_settle NoThrow_both NoThrow_each
  Atomic_transaction Atomic_exec ReadOnly_stripeEnv NoThrow_stripeEnv Emits_stripeEnv ReadOnly_slack_webhook
  NoThrow_slack_webhook Emits_slack_webhook ReadOnly_appEnv NoThrow_appEnv Emits_appEnv ReadOnly_select Atomic_exec_sql
  Atomic_exec_claim : effects.

(** Classifies a computation by its text: applies the rule of its head construct,
    splits [if] and [match], and closes the leaves with database [effects]. *)
Ltac effect_step :=
  match goal with
  | |- forall _, _ => intro
  | |- ReadOnly (let _ := _ in _) => cbv zeta
  | |- NoThrow (let _ := _ in _) => cbv zeta
  | |- Atomic (let _ := _ in _) => cbv zeta
  | |- Emits _ (let _ := _ in _) => cbv zeta
  | |- ReadOnly (match ?x with _ => _ end) => destruct x
  | |- NoThrow (match ?x with _ => _ end) => destruct x
  | |- Atomic (match ?x with _ => _ end) => destruct x
  | |- Emits _ (match ?x with _ => _ end) => destruct x
  | |- ReadOnly (bind _ _) => apply ReadOnly_bind
  | |- ReadOnly (catch _ _) => apply ReadOnly_catch
  | |- NoThrow (bind _ _) => apply NoThrow_bind
  | |- NoThrow (catch _ _) => apply NoThrow_catch
  | |- Emits _ (bind _ _) => apply Emits_bind
  | |- Emits _ (catch _ _) => apply Emits_catch
  | |- Emits _ (ret _) => apply Emits_ret
  | |- Emits _ (throw _) => apply Emits_throw
  | |- Emits _ (call _) => apply Emits_call; exact I
  | |- Emits _ date_now => apply Emits_date_now; exact I
  | |- Emits _ (new_id _) => apply Emits_new_id; exact I
  | |- Emits _ (query _) => apply Emits_query; exact I
  | |- Emits _ (exec _) => apply Emits_exec; exact I
  | |- Emits _ (deprovisionCompute _) => apply Emits_deprovisionCompute; exact I
  | |- Emits _ (exec_insert _) => apply Emits_exec_insert; exact I
  | |- Emits _ (exec_sql _) => apply Emits_exec_sql; exact I
  | |- Emits _ (exec_claim _ _) => apply Emits_exec_claim; exact I
  | |- Emits _ (select _) => apply Emits_select; exact I
  | |- Emits _ (transaction _) => apply Emits_transaction; [exact I|exact I|]
  | |- Emits _ (both _ _) => apply Emits_both
  | |- Emits _ (each _ _) => apply Emits_each
  | |- Emits _ (map_all _ _) => apply Emits_map_all
  | |- Emits _ (settle _) => apply Emits_settle
  | |- _ => solve [eauto 3 with effects]
  end.

Ltac effects := repeat effect_step.

Ltac atomic_step :=
  match goal with
  | |- forall _, _ => intro
  | |- Atomic (let _ := _ in _) => cbv zeta
  | |- Atomic (match ?x with _ => _ end) => destruct x
  | |- Atomic (bind _ _) => apply Atomic_bind_read; [solve [effects]|]
  | |- Atomic (bind _ _) => apply Atomic_bind_last; [|solve [effects]]
  | |- Atomic (catch _ _) => apply Atomic_catch
  | |- Atomic (ret _) => apply Atomic_ReadOnly, ReadOnly_ret
  | |- Atomic (throw _) => apply Atomic_ReadOnly, ReadOnly_throw
  | |- Atomic (transaction _) => apply Atomic_transaction
  | |- Atomic (exec _) => apply Atomic_exec
  | |- Atomic (exec_insert _) => apply Atomic_exec_insert
  | |- Atomic (exec_sql _) => apply Atomic_exec_sql
  | |- Atomic _ => solve [eauto 3 with effects]
  | |- Atomic _ => solve [apply Atomic_ReadOnly; effects]
  | |- Atomic _ => solve [apply Atomic_NoThrow; effects]
  end.

Ltac atomics := repeat atomic_step.

(** ** Inversion of runs *)

Section Runs.

Context {A B : Type}.

Lemma bind_ret (m : M A) (k : A -> M B) env w b w' :
  bind m k env w = (Ret b, w') -> exists a w1, m env w = (Ret a, w1) /\ k a env w1 = (Ret b, w').
Proof. unfold bind. destruct (m env w) as [[a|e] w1]; [eauto|done]. Qed.

Lemma bind_throw (m : M A) (k : A -> M B) env w e w' :
  bind m k env w = (Throw e, w') ->
  m env w = (Throw e, w') \/ exists a w1, m env w = (Ret a, w1) /\ k a env w1 = (Throw e, w').
Proof. unfold bind. destruct (m env w) as [[a|e1] w1]; [eauto|]. intros [= -> ->]. by left. Qed.

Lemma catch_throw (m : M A) h env w e w' :
  catch m h env w = (Throw e, w') -> exists e1 w1, m env w = (Throw e1, w1) /\ h e1 env w1 = (Throw e, w').
Proof. unfold catch. destruct (m env w) as [[a|e1] w1]; [done|eauto]. Qed.

Lemma catch_ret (m : M A) h env w a w' :
  catch m h env w = (Ret a, w') ->
  m env w = (Ret a, w') \/ exists e w1, m env w = (Throw e, w1) /\ h e env w1 = (Ret a, w').
Proof. unfold catch. destruct (m env w) as [[a1|e] w1]; eauto. Qed.

Lemma transaction_ret (m : M A) env w a w' :
  transaction m env w = (Ret a, w') ->
  exists w1 w2, db w1 = db w /\ m env w1 = (Ret a, w2) /\ db w' = db w2.
Proof.
  unfold transaction, bind at 1 2 3, call. cbn [Resp].
  destruct (ask env (trace w) TxBegin) as [e|[]]; [done|]. destruct (m env (log_call TxBegin w)) as [[b|e] w2] eqn:E; [|done].
  destruct (ask env (trace w2) TxCommit) as [e|[]]; [done|]. intros [= <- <-]. by exists (log_call TxBegin w), w2.
Qed.

Lemma atomic_throw (m : M A) env w e w' : Atomic m -> m env w = (Throw e, w') -> db w' = db w.
Proof. intros Hm. apply Hm. Qed.

Lemma read_ret (m : M A) env w o w' : ReadOnly m -> m env w = (o, w') -> db w' = db w.
Proof. intros Hm E. specialize (Hm env w). by rewrite E in Hm. Qed.

End Runs.

(** Every call that is made in [env] satisfies [P]; the continuation may use what
    the first computation returned. *)
Definition EmitsIn {A} (env : Env) (P : Call -> Prop) (m : M A) : Prop :=
  forall w, exists l, trace (snd (m env w)) = trace w ++ l /\ Forall P l.

Lemma EmitsIn_Emits {A} env (P Q : Call -> Prop) (m : M A) : (forall c, Q c -> P c) -> Emits Q m -> EmitsIn env P m.
Proof. intros HPQ Hm w. by apply (Emits_weaken Q P m HPQ Hm env w). Qed.

Lemma EmitsIn_bind {A B} env P (m : M A) (k : A -> M B) :
  EmitsIn env P m -> (forall w a w1, m env w = (Ret a, w1) -> EmitsIn env P (k a)) -> EmitsIn env P (bind m k).
Proof.
  intros Hm Hk w. unfold bind. destruct (Hm w) as (l & Hl & Hp). specialize (Hk w).
  destruct (m env w) as [[a|e] w']; simpl in Hl; [|by exists l].
  destruct (Hk a w' eq_refl w') as (l' & Hl' & Hp'). exists (l ++ l'). rewrite Hl', Hl, app_assoc. split; [done|].
  by apply Forall_app.
Qed.

Lemma EmitsIn_catch {A} env P (m : M A) h : EmitsIn env P m -> (forall e, EmitsIn env P (h e)) -> EmitsIn env P (catch m h).
Proof.
  intros Hm Hh w. unfold catch. destruct (Hm w) as (l & Hl & Hp).
  destruct (m env w) as [[a|e] w']; simpl in Hl; [by exists l|].
  destruct (Hh e w') as (l' & Hl' & Hp'). exists (l ++ l'). rewrite Hl', Hl, app_assoc. split; [done|].
  by apply Forall_app.
Qed.

Lemma EmitsIn_call env (P : Call -> Prop) c : P c -> EmitsIn env P (call c).
Proof. intros HP w. by apply (Emits_call P c HP env w). Qed.

Lemma exec_ret s env w u w' : exec s env w = (Ret u, w') -> db w' = apply_stmt s (db w).
Proof.
  unfold exec, bind, call. cbn [Resp]. destruct (ask env (trace w) (DbExec s)) as [e|[]]; [done|]. by intros [= <- <-].
Qed.

Lemma exec_insert_ret s env w u w' :
  exec_insert s env w = (Ret u, w') -> refused (collation env) s (db w) = false /\ db w' = apply_stmt s (db w).
Proof.
  unfold exec_insert, bind, call. cbn [Resp]. destruct (ask env (trace w) (DbExec s)) as [e|[]]; [done|]. cbn.
  destruct (refused _ _ _); [done|]. by intros [= <- <-].
Qed.

Lemma call_ret c env w r w' :
  call c env w = (Ret r, w') -> ask env (trace w) c = inr r /\ db w' = db w.
Proof. unfold call. destruct (ask env (trace w) c) as [e|r']; [done|]. by intros [= -> <-]. Qed.

(** In the run whose calls took the trace from [from] to [upto], [c] was called and [r]
    answered. *)
Definition replied (env : Env) (from upto : list Call) (c : Call) (r : Resp c) : Prop :=
  exists l1 l2, upto = from ++ l1 ++ c :: l2 /\ ask env (from ++ l1) c = inr r.

Lemma replied_call c env w r w' from :
  call c env w = (Ret r, w') -> from `prefix_of` trace w ->
  replied env from (trace w') c r /\ trace w `prefix_of` trace w' /\ db w' = db w.
Proof.
  unfold call. destruct (ask env (trace w) c) as [e|r'] eqn:E; [done|]. intros [= -> <-] [l Hl]. cbn [log_call trace].
  split; [exists l, []; rewrite Hl in E |- *; by rewrite <- app_assoc|]. split; [by exists [c]|done].
Qed.

Lemma replied_more env from upto upto' c r : upto `prefix_of` upto' -> replied env from upto c r -> replied env from upto' c r.
Proof. intros [l ->] (l1 & l2 & -> & Ha). exists l1, (l2 ++ l). by rewrite <- !app_assoc. Qed.

Lemma emits_prefix {A} (P : Call -> Prop) (m : M A) env w o w' : Emits P m -> m env w = (o, w') -> trace w `prefix_of` trace w'.
Proof. intros Hm E. destruct (Hm env w) as (l & Hl & _). rewrite E in Hl. by exists l. Qed.

Lemma query_ret {A} (f : Db -> A) env w a w' : query f env w = (Ret a, w') -> a = f (db w) /\ db w' = db w.
Proof.
  unfold query, bind, call. cbn [Resp]. destruct (ask env (trace w) DbQuery) as [e|[]]; [done|]. by intros [= <- <-].
Qed.

Lemma select_ret {A} (f : (string -> string) -> Tables -> A) env w a w' :
  select f env w = (Ret a, w') -> a = f (collation env) (tables (db w)) /\ db w' = db w.
Proof.
  unfold select, bind, call. cbn [Resp]. destruct (ask env (trace w) DbQuery) as [e|[]]; [done|]. by intros [= <- <-].
Qed.

Lemma exec_sql_ret s env w u w' :
  exec_sql s env w = (Ret u, w') ->
  exists t, run_sql (collation env) s (tables (db w)) = Some t /\ db w' = with_tables t (db w).
Proof.
  unfold exec_sql, bind, call. cbn [Resp]. destruct (ask env (trace w) _) as [e|[]]; [done|]. cbn [log_call db].
  destruct (run_sql _ _ _) as [t|]; [|done]. intros [= <- <-]. by exists t.
Qed.

Lemma appEnv_ret env w a w' : appEnv env w = (Ret a, w') -> a = app_env env /\ w' = w.
Proof. by intros [= <- <-]. Qed.

Lemma stripeEnv_ret env w a w' : stripeEnv env w = (Ret a, w') -> a = stripe_env env /\ w' = w.
Proof. by intros [= <- <-]. Qed.

Lemma ret_ret {A} (a : A) env w b w' : ret a env w = (Ret b, w') -> b = a /\ w' = w.
Proof. by intros [= <- <-]. Qed.

(** Takes a successful run apart: each step contributes what it read or wrote. *)
Ltac run_step H :=
  lazymatch type of H with
  | bind _ _ _ _ = (Ret _, _) =>
      let a := fresh "a" in let w1 := fresh "w" in let H1 := fresh "Hr" in
      apply bind_ret in H as (a & w1 & H1 & H)
  | ret _ _ _ = (Ret _, _) => apply ret_ret in H as [-> ->]
  end.

Ltac run_in H := repeat run_step H.

(** A successful call: what was answered, and that the database is the same. *)
Ltac call_in H Hdb :=
  match type of H with
  | call ?c ?env ?w = (Ret ?r, ?w') => apply (call_ret c env w r w') in H as [H Hdb]
  end.
