(* ===== verification/Fixtures.v ===== *)
(** * A sample environment

    A concrete Stripe account, database and environment in which every call
    succeeds, at which the theorems of the billing components are instantiated. *)

From Stdlib Require Import ZArith Bool String.
From stdpp Require Import base list gmap strings.
From S2P Require Import Prelude StripeTypes DeployPlan GithubTypes CtrlTypes Effects.

Local Open Scope Z_scope.

Definition demo_stripe_env : StripeEnv :=
  {| STRIPE_SECRET_KEY := "sk_test"; STRIPE_PRODUCT_IDS_PRO := ["prod_pro"%string];
     STRIPE_PRODUCT_IDS_ENTERPRISE := []; STRIPE_WEBHOOK_SECRET := "whsec";
     STRIPE_LOOKUP_DEPLOY_STARTER := Some "starter"%string; STRIPE_LOOKUP_DEPLOY_PRO := Some "pro"%string;
     STRIPE_LOOKUP_DEPLOY_BUSINESS := Some "business"%string; STRIPE_LOOKUP_DEPLOY_METER_CPU := Some "cpu"%string;
     STRIPE_LOOKUP_DEPLOY_METER_MEMORY := Some "memory"%string; STRIPE_LOOKUP_DEPLOY_METER_EGRESS := Some "egress"%string;
     STRIPE_LOOKUP_DEPLOY_METER_DISK := Some "disk"%string; STRIPE_LOOKUP_DEPLOY_METER_ACTIVE_KEYS := Some "keys"%string |}.

Definition price_for (key : string) : Price :=
  {| price_id := "price_" +:+ key; price_metadata := Some {[ "plan"%string := key ]};
     price_product := Some (RId "prod_deploy"); unit_amount := Some 2500; lookup_key := Some key;
     price_currency := "usd"; recurring_interval := Some "month"%string |}.

Definition demo_item (p : Price) : SubscriptionItem :=
  {| item_id := "si_" +:+ price_id p; item_price := Some p; item_plan := None; item_quantity := Some 1;
     current_period_start := Some 1000 |}.

Definition demo_sub (id : string) (p : Price) : Subscription :=
  {| sub_id := id; status := "active"; items := Some [demo_item p]; sub_customer := Some (RId "cus_1");
     cancel_at_period_end := false; cancel_at := None; sub_created := 1000; sub_metadata := None;
     latest_invoice := Some (RId "in_1"); default_payment_method := Some (RId "pm_1"); pending_update := false; schedule := None |}.

Definition compute_sub : Subscription := demo_sub "sub_compute" (price_for "pro").

(** The same subscription after a cancellation at the end of the period. *)
Definition cancelling_sub : Subscription :=
  {| sub_id := "sub_compute"; status := "active"; items := items compute_sub; sub_customer := Some (RId "cus_1");
     cancel_at_period_end := true; cancel_at := None; sub_created := 1000; sub_metadata := None;
     latest_invoice := None; default_payment_method := None; pending_update := false; schedule := None |}.

(** The same subscription after it ended. *)
Definition ended_sub : Subscription :=
  {| sub_id := "sub_compute"; status := "canceled"; items := items compute_sub; sub_customer := Some (RId "cus_1");
     cancel_at_period_end := false; cancel_at := None; sub_created := 1000; sub_metadata := None;
     latest_invoice := None; default_payment_method := None; pending_update := false; schedule := None |}.

Definition api_price : Price :=
  {| price_id := "price_api"; price_metadata := None; price_product := Some (RId "prod_pro"); unit_amount := Some 2500;
     lookup_key := None; price_currency := "usd"; recurring_interval := Some "month"%string |}.

Definition api_sub : Subscription := demo_sub "sub_api" api_price.

Definition api_product : Product :=
  {| product_id := "prod_pro"; product_name := "Pro"; default_price := Some (RId "price_api"); product_description := None;
     product_deleted := false;
     product_metadata := list_to_map
       [("quota_requests_per_month"%string, "250000"%string); ("quota_logs_retention_days"%string, "30"%string);
        ("quota_audit_logs_retention_days"%string, "90"%string)] |}.

Definition demo_customer : Customer :=
  {| customer_id := "cus_1"; customer_deleted := false; email := Some "ada@example.com"%string;
     customer_name := Some "Ada"%string; livemode := false; invoice_default_payment_method := None; default_source := None |}.

Definition demo_session (id : string) : Session :=
  {| session_id := id; mode := "subscription"; session_status := Some "complete"%string; payment_status := "paid";
     client_reference_id := Some "ws_1"%string;
     session_metadata := Some {[ "unkey_product"%string := if String.eqb id "cs_api" then "api"%string else "compute"%string ]};
     session_customer := Some (RId "cus_1");
     session_subscription := Some (RId (if String.eqb id "cs_api" then "sub_api"%string else "sub_compute"%string)); setup_intent := None;
     session_url := Some "https://checkout"%string |}.

Definition demo_line : InvoiceLine :=
  {| line_price := Some "price_pro"%string; line_amount := 2500; line_discounts := [500]; line_period_end := 2000;
     line_parent_type := None; line_proration := false; line_description := None |}.

Definition demo_invoice : Invoice :=
  {| invoice_id := "in_1"; invoice_customer := Some (RId "cus_1"); invoice_currency := "usd";
     invoice_status := Some "paid"%string; paid_at := Some 1500; amount_due := 2000; amount_paid := 2000;
     attempt_count := Some 1; invoice_created := 1000; hosted_invoice_url := Some "https://pay"%string;
     invoice_parent_type := Some "subscription_details"%string; invoice_subscription := Some (RId "sub_compute");
     invoice_lines := [demo_line]; lines_has_more := false; invoice_payments := None |}.

Definition demo_grant : CreditGrant :=
  {| grant_id := "credgr_0"; grant_price_type := Some "metered"%string; expires_at := Some 261200;
     grant_value := Some 700; grant_metadata := Some {[ "stripe_invoice_id"%string := "in_0"%string ]} |}.

Definition demo_answer (c : Call) : Exn + Resp c :=
  match c return Exn + Resp c with
  | SubscriptionsRetrieve id => inr (if String.eqb id "sub_api" then api_sub else compute_sub)
  | SubscriptionsUpdate id _ => inr (if String.eqb id "sub_api" then api_sub else compute_sub)
  | CustomersRetrieve _ => inr demo_customer
  | CustomersSetDefaultPaymentMethod id _ => inr id
  | PricesRetrieve _ => inr api_price
  | PricesList keys => inr (List.map price_for keys)
  | ProductsRetrieve _ => inr api_product
  | SessionsRetrieve id => inr (demo_session id)
  | CreditGrantsList _ => inr [demo_grant]
  | CreditGrantsCreate _ _ => inr "credgr_1"%string
  | GetOrganizationMemberList _ => inr [{| member_id := "om_2"; createdAt := "2025-02-01" |};
                                        {| member_id := "om_1"; createdAt := "2025-01-01" |}]
  | GetInvitationList _ => inr [{| invitation_id := "inv_1"; invitation_state := "pending" |}]
  | DeactivateMembership _ _ | RevokeOrgInvitation _ _ => inr tt
  | DeprovisionCompute _ => inr tt
  | SlackPost _ _ => inr true
  | DbQuery | DbExec _ | TxBegin | TxCommit => inr tt
  | SubscriptionsCreate _ _ => inr compute_sub
  | SubscriptionsListCanceled _ => inr []
  | CustomersListPaymentMethods _ => inr ["pm_1"%string]
  | SessionsCreate _ _ => inr (demo_session "cs_api")
  | RatelimitLimit _ _ => inr true
  | RandomBytes n => inr (List.repeat 7 (Z.to_nat n))
  | VaultEncrypt _ data => inr (data, "dek_1"%string)
  | VaultDecrypt _ data => inr data
  | Ctrl (AddCustomDomain r) => inr {| dr_domainId := "dom_1"; dr_targetCname := "k3.cname"; dr_status := "pending";
      dr_domainConnectProvider := ""; dr_domainConnectUrl := "" |}
  | Ctrl (RetryVerification _) => inr "verifying"%string
  | Ctrl (DeleteCustomDomain _) => inr tt
  | Ctrl (CancelDeployment _) => inr tt
  | Ctrl (AuthorizeDeployment _) => inr tt
  | UpstreamPost _ => inr {| up_status := 200; up_statusText := "OK"; up_headers := [("connection"%string, "close"%string)]; up_body := "{}" |}
  | _ => inl (OtherError "not answered")
  end.

Definition demo_app_env : AppEnv :=
  {| UNKEY_ROOT_KEY := Some "unkey_root"%string; UNKEY_WORKSPACE_ID := "ws_unkey"; UNKEY_API_ID := "api_unkey";
     AUTH_PROVIDER := "workos"; NODE_ENV := "production"; VERCEL_ENV := "production";
     NEXT_PUBLIC_WORKOS_REDIRECT_URI := None; baseUrl := "https://app.unkey.com";
     WORKOS_API_KEY := Some "sk_workos"%string; WORKOS_WEBHOOK_SECRET := Some "whsec_workos"%string;
     RESEND_API_KEY := Some "re_1"%string; RESEND_AUDIENCE_ID := Some "aud_1"%string;
     github_app_env := Some {| GITHUB_APP_ID := 7; UNKEY_GITHUB_PRIVATE_KEY_PEM := "pem" |};
     github_oauth_env := Some {| GITHUB_CLIENT_ID := "gh_client"; GITHUB_CLIENT_SECRET := "gh_secret" |};
     CTRL_URL := Some "https://ctrl"%string; CTRL_API_KEY := Some "ctrl_key"%string; UNKEY_API_URL := "https://api.unkey.com";
     UNKEY_JWT_SECRET := Some "jwt_secret"%string |}.

Definition demo_env : Env :=
  {| stripe_env := Some demo_stripe_env; app_env := demo_app_env; request_headers := fun _ => None; SLACK_WEBHOOK_CUSTOMERS := Some "https://hooks"%string;
     ask := fun _ c => demo_answer c; clock := fun tr => 1000000 + Z.of_nat (List.length tr);
     fresh := fun _ prefix => prefix +:+ "_1"; teardown_done := fun _ => Unsuspended; collation := Str.to_lower |}.

(** A workspace on the Free tier without subscriptions. *)
Definition demo_workspace : Workspace :=
  {| ws_id := "ws_1"; ws_name := "Acme"; orgId := "org_1"; ws_slug := "acme"; ws_k8sNamespace := None; ws_betaFeatures := []; ws_enabled := true;
     ws_deleteProtection := true; ws_createdAtM := 1000; ws_updatedAtM := None; deletedAtM := None |}.

Definition free_db : Db :=
  {| workspaces := {[ "ws_1"%string := demo_workspace ]};
     workspace_billing := {[ "ws_1"%string := {| tier := Some "Free"%string; stripeCustomerId := None; plan := None;
                                                 planOverride := None; spend := no_spend |} ]};
     billing_subscriptions := []; limits := ∅; clickhouse_outbox := []; tables := fun _ => [] |}.

(** The same workspace with a Stripe customer. *)
Definition customer_db : Db :=
  {| workspaces := workspaces free_db;
     workspace_billing := {[ "ws_1"%string := {| tier := Some "Free"%string; stripeCustomerId := Some "cus_1"%string;
                                                 plan := None; planOverride := None; spend := no_spend |} ]};
     billing_subscriptions := []; limits := ∅; clickhouse_outbox := []; tables := fun _ => [] |}.

(** The same workspace on Compute Pro. *)
Definition compute_db : Db :=
  {| workspaces := workspaces free_db;
     workspace_billing := {[ "ws_1"%string := {| tier := Some "Free"%string; stripeCustomerId := Some "cus_1"%string;
                                                 plan := Some "pro"%string; planOverride := None; spend := no_spend |} ]};
     billing_subscriptions := [{| bs_workspaceId := "ws_1"; bs_product := compute; stripeSubscriptionId := "sub_compute" |}];
     limits := {[ "ws_1"%string := limitsByPlan (Some pro) ]}; clickhouse_outbox := []; tables := fun _ => [] |}.

(** The same workspace on the Pro API tier. *)
Definition api_db : Db :=
  {| workspaces := workspaces free_db;
     workspace_billing := {[ "ws_1"%string := {| tier := Some "Pro"%string; stripeCustomerId := Some "cus_1"%string;
                                                 plan := None; planOverride := None; spend := no_spend |} ]};
     billing_subscriptions := [{| bs_workspaceId := "ws_1"; bs_product := api; stripeSubscriptionId := "sub_api" |}];
     limits := {[ "ws_1"%string := limitsByPlan None ]}; clickhouse_outbox := []; tables := fun _ => [] |}.

Definition world_of (d : Db) : World := {| db := d; trace := []; cache := None; pending := None; credits := ∅;
  jar := ∅; local_org := None |}.
