(* ===== verification/DeployBilling.v ===== *)
(** * Compute billing configuration

    web/apps/dashboard/lib/stripe/deployBilling.ts: the resolution of the lookup
    keys to price ids with its module-level cache, and the classification of the
    items of a subscription. *)

From Stdlib Require Import ZArith Bool String Lia.
From stdpp Require Import base list gmap strings.
From S2P Require Import Prelude StripeTypes DeployPlan Effects Fixtures.

Local Open Scope Z_scope.

(** ** Resolution *)

Definition RESOLUTION_TTL_MS : Z := 5 * 60 * 1000.

Definition lookup_vars (e : StripeEnv) : list (option string) :=
  [STRIPE_LOOKUP_DEPLOY_STARTER e; STRIPE_LOOKUP_DEPLOY_PRO e; STRIPE_LOOKUP_DEPLOY_BUSINESS e;
   STRIPE_LOOKUP_DEPLOY_METER_CPU e; STRIPE_LOOKUP_DEPLOY_METER_MEMORY e; STRIPE_LOOKUP_DEPLOY_METER_EGRESS e;
   STRIPE_LOOKUP_DEPLOY_METER_DISK e; STRIPE_LOOKUP_DEPLOY_METER_ACTIVE_KEYS e].

Definition deployBillingConfigured (e : option StripeEnv) : bool :=
  match e with Some e => forallb Js.truthy (lookup_vars e) | None => false end.

(** [planFeeLookupKeys as Record<DeployPlan, string>]. *)
Definition planFeeLookupKey (e : StripeEnv) (p : DeployPlan) : string :=
  Js.coalesce (match p with
               | starter => STRIPE_LOOKUP_DEPLOY_STARTER e
               | pro => STRIPE_LOOKUP_DEPLOY_PRO e
               | business => STRIPE_LOOKUP_DEPLOY_BUSINESS e
               end) EmptyString.

Definition meterLookupKeys (e : StripeEnv) : list string :=
  List.map (fun v => Js.coalesce v EmptyString)
    [STRIPE_LOOKUP_DEPLOY_METER_CPU e; STRIPE_LOOKUP_DEPLOY_METER_MEMORY e; STRIPE_LOOKUP_DEPLOY_METER_EGRESS e;
     STRIPE_LOOKUP_DEPLOY_METER_DISK e; STRIPE_LOOKUP_DEPLOY_METER_ACTIVE_KEYS e].

(** [[...Object.values(planFee), ...meters]]. *)
Definition allLookupKeys (e : StripeEnv) : list string :=
  List.map (planFeeLookupKey e) DEPLOY_PLANS ++ meterLookupKeys e.

(** [idByLookupKey]: a later price overwrites an earlier one. *)
Fixpoint idByLookupKey (prices : list Price) (acc : gmap string string) : gmap string string :=
  match prices with
  | [] => acc
  | price :: prices' =>
      idByLookupKey prices'
        (match lookup_key price with
         | Some k => if Js.truthy_string k then <[k := price_id price]> acc else acc
         | None => acc
         end)
  end.

(** [idByLookupKey.get(key)], [None] when missing or empty. *)
Definition resolved (ids : gmap string string) (key : string) : option string :=
  match ids !! key with Some id => if Js.truthy_string id then Some id else None | None => None end.

(** The two loops that require every key to resolve. *)
Definition resolve_config (e : StripeEnv) (ids : gmap string string) : option DeployBillingConfig :=
  match resolved ids (planFeeLookupKey e starter), resolved ids (planFeeLookupKey e pro),
        resolved ids (planFeeLookupKey e business), mapM (resolved ids) (meterLookupKeys e) with
  | Some s, Some p, Some b, Some meters =>
      Some {| planFeePriceIds := fun plan => match plan with starter => s | pro => p | business => b end;
              meteredPriceIds := meters |}
  | _, _, _, _ => None
  end.

Definition get_cache : M (option CacheEntry) := fun _ w => (Ret (cache w), w).
Definition get_pending : M (option (string * (Exn + option DeployBillingConfig))) := fun _ w => (Ret (pending w), w).
Definition set_cache (c : CacheEntry) : M unit := fun _ w =>
  (Ret tt, {| db := db w; trace := trace w; cache := Some c; pending := pending w; credits := credits w;
    jar := jar w; local_org := local_org w |}).
Definition clear_pending : M unit := fun _ w =>
  (Ret tt, {| db := db w; trace := trace w; cache := cache w; pending := None; credits := credits w;
    jar := jar w; local_org := local_org w |}).

(** The body of the shared promise. *)
Definition resolve_prices (e : StripeEnv) (cacheKey : string) : M (option DeployBillingConfig) :=
  prices <- call (PricesList (allLookupKeys e)) ;;
  match resolve_config e (idByLookupKey prices ∅) with
  | None => ret None
  | Some config =>
      now <- date_now ;;
      set_cache {| cache_key := cacheKey; cache_expiresAt := now + RESOLUTION_TTL_MS; cache_config := config |} ;;
      ret (Some config)
  end.

(** Starts the promise; [pending] is this promise until it settles, and null
    after. *)
Definition start_resolution (e : StripeEnv) (cacheKey : string) : M (option DeployBillingConfig) :=
  r <- settle (resolve_prices e cacheKey) ;;
  clear_pending ;;
  match r with inl err => throw err | inr config => ret config end.

(** Joins the promise another request started for the same keys, or starts one. *)
Definition join_resolution (e : StripeEnv) (cacheKey : string) : M (option DeployBillingConfig) :=
  p <- get_pending ;;
  match p with
  | Some (key, outcome) =>
      if String.eqb key cacheKey then match outcome with inl err => throw err | inr config => ret config end
      else start_resolution e cacheKey
  | None => start_resolution e cacheKey
  end.

Definition deployBillingConfig : M (option DeployBillingConfig) :=
  e <- stripeEnv ;;
  match e with
  | None => ret None
  | Some e =>
      if negb (deployBillingConfigured (Some e)) then ret None
      else
        let cacheKey := Str.join "," (allLookupKeys e) in
        now <- date_now ;;
        c <- get_cache ;;
        match c with
        | Some entry =>
            if String.eqb (cache_key entry) cacheKey && (now <? cache_expiresAt entry)
            then ret (Some (cache_config entry)) else join_resolution e cacheKey
        | None => join_resolution e cacheKey
        end
  end.

(** ** Items of a Compute subscription *)

Section Items.

Context (config : DeployBillingConfig).

(** [config.allDeployPriceIds.has(id)]. *)
Definition allDeployPriceIds (id : string) : bool :=
  Js.includes (List.map (planFeePriceIds config) DEPLOY_PLANS ++ meteredPriceIds config) id.

Definition deploySubscriptionItems (plan : DeployPlan) : list string :=
  planFeePriceIds config plan :: meteredPriceIds config.

(** Price and quantity of each Checkout line. *)
Definition deployCheckoutLineItems (plan : DeployPlan) : list (string * option Z) :=
  (planFeePriceIds config plan, Some 1) :: List.map (fun price => (price, None)) (meteredPriceIds config).

Definition planForPlanFeePriceId (priceId : string) : option DeployPlan :=
  List.find (fun plan => String.eqb (planFeePriceIds config plan) priceId) DEPLOY_PLANS.

(** Pairs of item id and price id. *)
Definition findDeployItems (l : list SubscriptionItem) : list (string * string) :=
  List.flat_map (fun item =>
    match item_price_id item with
    | Some priceId =>
        if Js.truthy_string priceId && allDeployPriceIds priceId then [(item_id item, priceId)] else []
    | None => []
    end) l.

(** The predicate of [findApiItem]. *)
Definition is_api_item (item : SubscriptionItem) : bool :=
  match item_price_id item with
  | Some priceId => negb (Js.truthy_string priceId) || negb (allDeployPriceIds priceId)
  | None => true
  end.

Fixpoint findPlanFeeItem (l : list SubscriptionItem) : option (string * DeployPlan) :=
  match l with
  | [] => None
  | item :: l' =>
      match item_price_id item with
      | Some priceId =>
          if negb (Js.truthy_string priceId) then findPlanFeeItem l'
          else match planForPlanFeePriceId priceId with
               | Some plan => Some (item_id item, plan)
               | None => findPlanFeeItem l'
               end
      | None => findPlanFeeItem l'
      end
  end.

End Items.

Definition findApiItem (config : option DeployBillingConfig) (l : list SubscriptionItem) : option SubscriptionItem :=
  match config with
  | None => List.hd_error l
  | Some config => List.find (is_api_item config) l
  end.

(** ** Facts *)

Lemma ReadOnly_get_cache : ReadOnly get_cache.
Proof. by intros env w. Qed.

Lemma ReadOnly_get_pending : ReadOnly get_pending.
Proof. by intros env w. Qed.

Lemma ReadOnly_set_cache c : ReadOnly (set_cache c).
Proof. by intros env w. Qed.

Lemma ReadOnly_clear_pending : ReadOnly clear_pending.
Proof. by intros env w. Qed.

#[export] Hint Resolve ReadOnly_get_cache ReadOnly_get_pending ReadOnly_set_cache ReadOnly_clear_pending : effects.

Lemma ReadOnly_resolve_prices e key : ReadOnly (resolve_prices e key).
Proof. unfold resolve_prices. effects. Qed.

#[export] Hint Resolve ReadOnly_resolve_prices : effects.

Lemma ReadOnly_deployBillingConfig : ReadOnly deployBillingConfig.
Proof. unfold deployBillingConfig, join_resolution, start_resolution. effects. Qed.

#[export] Hint Resolve ReadOnly_deployBillingConfig : effects.

Lemma Emits_get_cache P : Emits P get_cache.
Proof. intros env' w. exists []. by rewrite app_nil_r. Qed.

Lemma Emits_get_pending P : Emits P get_pending.
Proof. intros env' w. exists []. by rewrite app_nil_r. Qed.

Lemma Emits_set_cache P c : Emits P (set_cache c).
Proof. intros env' w. exists []. by rewrite app_nil_r. Qed.

Lemma Emits_clear_pending P : Emits P clear_pending.
Proof. intros env' w. exists []. by rewrite app_nil_r. Qed.

#[export] Hint Resolve Emits_get_cache Emits_get_pending Emits_set_cache Emits_clear_pending : effects.

Lemma Emits_deployBillingConfig (P : Call -> Prop) :
  (forall keys, P (PricesList keys)) -> P DateNow -> Emits P deployBillingConfig.
Proof.
  intros Hk Hd.
  unfold deployBillingConfig, join_resolution, start_resolution, resolve_prices.
  repeat first [effect_step | apply Emits_date_now, Hd | apply Emits_call, Hk].
Qed.

Lemma planFee_is_deploy config plan : allDeployPriceIds config (planFeePriceIds config plan) = true.
Proof.
  unfold allDeployPriceIds. apply StrFacts.includes_In. apply in_or_app. left.
  apply in_map_iff. exists plan. split; [done|]. destruct plan; simpl; auto.
Qed.

Lemma planForPlanFeePriceId_deploy config id plan :
  planForPlanFeePriceId config id = Some plan -> planFeePriceIds config plan = id /\ allDeployPriceIds config id = true.
Proof.
  intros H. apply List.find_some in H as [_ H]. apply String.eqb_eq in H as <-. split; [done|].
  apply planFee_is_deploy.
Qed.

(** An item is a Compute item or an API item, never both. *)
Lemma findDeployItems_filter config l :
  findDeployItems config l
  = List.map (fun i => (item_id i, Js.coalesce (item_price_id i) EmptyString))
      (List.filter (fun i => negb (is_api_item config i)) l).
Proof.
  induction l as [|i l IH]; [done|]. unfold findDeployItems in *. cbn [flat_map List.filter]. unfold is_api_item at 1.
  destruct (item_price_id i) as [id|] eqn:E; [|exact IH].
  destruct (Js.truthy_string id); [|exact IH].
  destruct (allDeployPriceIds config id); [|exact IH]. cbn [andb negb orb List.app List.map]. by rewrite E, IH.
Qed.

Lemma findPlanFeeItem_In config l iid plan :
  findPlanFeeItem config l = Some (iid, plan) ->
  exists i, In i l /\ item_id i = iid /\ item_price_id i = Some (planFeePriceIds config plan)
            /\ is_api_item config i = false.
Proof.
  induction l as [|i l IH]; [done|]. cbn [findPlanFeeItem]. intros H.
  assert (Hrec : findPlanFeeItem config l = Some (iid, plan) -> _) by exact IH.
  destruct (item_price_id i) as [id|] eqn:E; [|destruct (IH H) as (j & ? & ?); exists j; simpl; auto].
  destruct (Js.truthy_string id) eqn:Et; simpl in H;
    [|destruct (IH H) as (j & ? & ?); exists j; simpl; auto].
  destruct (planForPlanFeePriceId config id) as [q|] eqn:Ep;
    [|destruct (IH H) as (j & ? & ?); exists j; simpl; auto].
  injection H as <- <-. apply planForPlanFeePriceId_deploy in Ep as [<- Hd].
  exists i. unfold is_api_item. rewrite E, Et, Hd. simpl. auto.
Qed.

(** The cache holds a configuration under a key. *)
Definition cached_under (key : string) (c : DeployBillingConfig) (w : World) : Prop :=
  exists entry, cache w = Some entry /\ cache_config entry = c /\ cache_key entry = key.

Lemma join_caches e key env w c w1 :
  pending w = None -> join_resolution e key env w = (Ret (Some c), w1) -> cached_under key c w1.
Proof.
  intros Hp. unfold join_resolution, bind at 1, get_pending. rewrite Hp.
  unfold start_resolution, settle, resolve_prices, catch, bind, call, date_now, set_cache, clear_pending.
  destruct (ask _ _ _) as [err|prices]; [done|]. destruct (resolve_config _ _) as [config|]; [|done].
  intros [= <- <-]. by eexists.
Qed.

(** ** The properties of the component *)

(** The resolved configuration is all or nothing: it exists exactly
    when each of the eight lookup keys resolves to a price id, and then it holds
    those ids, in the order of the keys. *)
Theorem resolve_config_all_or_nothing (e : StripeEnv) (ids : gmap string string) :
  ((exists config, resolve_config e ids = Some config)
    <-> Forall (fun k => is_Some (resolved ids k)) (allLookupKeys e))
  /\ forall config, resolve_config e ids = Some config ->
     (forall plan, resolved ids (planFeeLookupKey e plan) = Some (planFeePriceIds config plan))
     /\ Forall2 (fun k id => resolved ids k = Some id) (meterLookupKeys e) (meteredPriceIds config).
Proof.
  assert (Hspec : forall config, resolve_config e ids = Some config ->
     (forall plan, resolved ids (planFeeLookupKey e plan) = Some (planFeePriceIds config plan))
     /\ Forall2 (fun k id => resolved ids k = Some id) (meterLookupKeys e) (meteredPriceIds config)).
  { intros config. unfold resolve_config. repeat case_match; try done. intros [= <-]. cbn [planFeePriceIds meteredPriceIds].
    split; [by intros []|]. by apply mapM_Some. }
  split; [|exact Hspec]. split.
  - intros [config H]. destruct (Hspec config H) as [Hp Hm]. apply Forall_app. split.
    + repeat constructor; eexists; apply Hp.
    + clear -Hm. induction Hm; constructor; eauto.
  - intros H. apply Forall_app in H as [Hp Hm]. apply mapM_is_Some in Hm as [meters Hm].
    unfold DEPLOY_PLANS in Hp. cbn [List.map] in Hp.
    repeat match goal with H : Forall _ (_ :: _) |- _ => inv H end. unfold resolve_config.
    repeat match goal with H : is_Some _ |- _ => destruct H as [? ->] end. rewrite Hm. by eexists.
Qed.

(** A resolved configuration is cached: after a call that returned one,
    with no other resolution in flight, every call before the entry expires
    returns the same configuration without asking Stripe again. *)
Theorem deployBillingConfig_cached (env : Env) (w w1 : World) (c : DeployBillingConfig) :
  pending w = None -> deployBillingConfig env w = (Ret (Some c), w1) ->
  exists entry, cache w1 = Some entry /\ cache_config entry = c /\
    (clock env (trace w1) < cache_expiresAt entry ->
     deployBillingConfig env w1 = (Ret (Some c), log_call DateNow w1)).
Proof.
  intros Hp. unfold deployBillingConfig, bind, stripeEnv, date_now, get_cache.
  destruct (stripe_env env) as [e|]; [|done]. destruct (negb (deployBillingConfigured (Some e))); [done|].
  cbn [cache log_call trace]. intros H.
  assert (He : cached_under (Str.join "," (allLookupKeys e)) c w1).
  { destruct (cache w) as [entry|] eqn:Ec; [|exact (join_caches _ _ _ (log_call DateNow w) _ _ Hp H)].
    destruct (String.eqb_spec (cache_key entry) (Str.join "," (allLookupKeys e))) as [Ek|];
      destruct (clock env (trace w) <? cache_expiresAt entry); simpl in H; try exact (join_caches _ _ _ (log_call DateNow w) _ _ Hp H).
    injection H as <- <-. by exists entry. }
  destruct He as (entry & Hc & Hcfg & Hk). exists entry. split; [done|]. split; [done|]. intros Ht.
  rewrite Hc, Hk, String.eqb_refl. apply Z.ltb_lt in Ht as ->. unfold ret. by rewrite Hcfg.
Qed.

Definition demo_config : DeployBillingConfig :=
  {| planFeePriceIds := fun plan => match plan with
                                    | starter => "price_starter" | pro => "price_pro" | business => "price_business"
                                    end%string;
     meteredPriceIds := ["price_cpu"; "price_memory"; "price_egress"; "price_disk"; "price_keys"]%string |}.

Lemma deployBillingConfig_cached_witness :
  exists entry, cache (snd (deployBillingConfig demo_env (world_of free_db))) = Some entry
    /\ cache_config entry = demo_config /\
    (clock demo_env (trace (snd (deployBillingConfig demo_env (world_of free_db)))) < cache_expiresAt entry ->
     deployBillingConfig demo_env (snd (deployBillingConfig demo_env (world_of free_db)))
       = (Ret (Some demo_config), log_call DateNow (snd (deployBillingConfig demo_env (world_of free_db))))).
Proof. apply (deployBillingConfig_cached demo_env (world_of free_db)); vm_compute; reflexivity. Defined.

(** ** Prices in force *)

(** The price ids of the plans in force: those Stripe lists under the configured lookup
    keys, or the answer to the same question that the module has cached or in flight. *)
Inductive prices_in_force (env : Env) (w : World) (config : DeployBillingConfig) : Prop :=
| prices_listed e tr prices :
    stripe_env env = Some e -> ask env tr (PricesList (allLookupKeys e)) = inr prices ->
    (forall plan, resolved (idByLookupKey prices ∅) (planFeeLookupKey e plan) = Some (planFeePriceIds config plan)) ->
    prices_in_force env w config
| prices_cached e :
    stripe_env env = Some e -> cached_under (Str.join "," (allLookupKeys e)) config w -> prices_in_force env w config
| prices_pending e :
    stripe_env env = Some e -> pending w = Some (Str.join "," (allLookupKeys e), inr (Some config)) ->
    prices_in_force env w config.

Section InForce.

Context (env : Env) (w0 : World).

Lemma join_in_force e w config w' :
  stripe_env env = Some e -> pending w = pending w0 ->
  join_resolution e (Str.join "," (allLookupKeys e)) env w = (Ret (Some config), w') -> prices_in_force env w0 config.
Proof.
  intros He Hp. set (key := Str.join "," (allLookupKeys e)).
  assert (Hs : forall w w', start_resolution e key env w = (Ret (Some config), w') -> prices_in_force env w0 config).
  { intros w1 w2. unfold start_resolution, settle, resolve_prices, catch, bind, call, date_now, set_cache, clear_pending.
    destruct (ask env (trace w1) _) as [err|prices] eqn:Ea; [done|]. destruct (resolve_config _ _) as [c|] eqn:Ec; [|done].
    intros [= <- _]. eapply prices_listed; [exact He|exact Ea|]. unfold resolve_config in Ec. repeat case_match; try done.
    injection Ec as <-. by intros []. }
  unfold join_resolution, bind at 1, get_pending. rewrite Hp. destruct (pending w0) as [[k outcome]|] eqn:Ep; [|apply Hs].
  destruct (String.eqb_spec k key) as [->|]; [|apply Hs]. destruct outcome as [err|c]; [done|]. intros [= -> _].
  by eapply prices_pending.
Qed.

Lemma config_in_force config w' :
  deployBillingConfig env w0 = (Ret (Some config), w') -> prices_in_force env w0 config.
Proof.
  unfold deployBillingConfig, bind, stripeEnv, date_now, get_cache.
  destruct (stripe_env env) as [e|] eqn:He; [|done]. destruct (negb (deployBillingConfigured (Some e))); [done|].
  cbn [cache log_call trace].
  assert (Hj : join_resolution e (Str.join "," (allLookupKeys e)) env (log_call DateNow w0) = (Ret (Some config), w') ->
               prices_in_force env w0 config) by (by apply join_in_force).
  destruct (cache w0) as [entry|] eqn:Ec; [|exact Hj].
  destruct (String.eqb_spec (cache_key entry) (Str.join "," (allLookupKeys e))) as [Ek|]; [|exact Hj].
  destruct (_ <? _); [|exact Hj]. intros [= <- _]. eapply prices_cached; [exact He|]. by exists entry.
Qed.

End InForce.
