(* ===== verification/SubscriptionUtils.v ===== *)
(** * Classification of subscription updates

    web/apps/dashboard/lib/stripe/subscriptionUtils.ts: the heuristics by which
    the webhook skips renewals, payment failures, card updates and schedule
    changes, and the life-cycle predicates of a subscription. *)

From Stdlib Require Import ZArith Bool String.
From stdpp Require Import base list gmap strings.
From S2P Require Import Prelude StripeTypes.

Local Open Scope Z_scope.

Definition paymentFailureStatuses : list string := ["past_due"; "unpaid"; "incomplete"]%string.

Definition settingKeys : list string :=
  ["cancel_at_period_end"; "collection_method"; "plan"; "quantity"; "discount"]%string.

(** [keys.some((key) => changedKeys.includes(key))]. *)
Definition any_changed (keys : list string) (p : PreviousAttributes) : bool :=
  existsb (Js.includes (changed_keys p)) keys.

Definition isPaymentFailureRelatedUpdate (sub : Subscription) (previousAttributes : option PreviousAttributes) : bool :=
  match previousAttributes with
  | None => false
  | Some p =>
      let statusChanged := Js.includes (changed_keys p) "status" && Js.includes paymentFailureStatuses (status sub) in
      let invoiceChanged := Js.includes (changed_keys p) "latest_invoice" in
      let hasManualChanges := any_changed (settingKeys ++ ["items"%string]) p in
      (statusChanged || invoiceChanged) && negb hasManualChanges
  end.

(** [a !== b] on values that may be missing. *)
Definition neq_ostring (a b : option string) : bool := negb (bool_decide (a = b)).
Definition neq_oZ (a b : option Z) : bool := negb (bool_decide (a = b)).

(** A field that previous_attributes carries for the item and that differs now. *)
Definition item_changed (previousItem : PreviousItem) (currentItem : SubscriptionItem) : bool :=
  match previous_price previousItem with Some v => neq_ostring v (item_price_id currentItem) | None => false end
  || match previous_plan previousItem with Some v => neq_ostring v (item_plan currentItem) | None => false end
  || match previous_quantity previousItem with Some v => neq_oZ v (item_quantity currentItem) | None => false end.

Definition isAutomatedBillingRenewal (sub : Subscription) (previousAttributes : option PreviousAttributes) : bool :=
  match previousAttributes with
  | None => false
  | Some p =>
      if negb (String.eqb (status sub) "active") then false
      else if any_changed settingKeys p then false
      else
        let hasOnlyAllowedKeys :=
          forallb (Js.includes ["current_period_start"; "current_period_end"; "items"; "latest_invoice"]%string)
            (changed_keys p) in
        if Js.includes (changed_keys p) "items" then
          match attr_items p, items sub with
          | Some (previousItem :: _), Some (currentItem :: _) =>
              if item_changed previousItem currentItem then false else hasOnlyAllowedKeys
          | _, _ => false
          end
        else hasOnlyAllowedKeys
  end.

Definition isCardUpdateOnly (sub : Subscription) (previousAttributes : option PreviousAttributes) : bool :=
  match previousAttributes with
  | None => false
  | Some p =>
      Nat.eqb (List.length (changed_keys p)) 1 && Js.includes (changed_keys p) "default_payment_method"
  end.

Definition isScheduleUpdateOnly (previousAttributes : option PreviousAttributes) : bool :=
  match previousAttributes with
  | None => false
  | Some p => match changed_keys p with [k] => String.eqb k "schedule" | _ => false end
  end.

Definition isDeadSubscription (sub : Subscription) : bool :=
  String.eqb (status sub) "canceled" || String.eqb (status sub) "incomplete_expired".

(** [hostedInvoiceUrl]. *)
Definition hostedInvoiceUrl (sub : Subscription) : option string :=
  match latest_invoice sub with Some (RObj invoice) => hosted_invoice_url invoice | _ => None end.

(** ** Facts *)

Section KeyFacts.

Lemma any_changed_In keys p k : In k keys -> In k (changed_keys p) -> any_changed keys p = true.
Proof.
  intros Hk Hp. apply existsb_exists. exists k. split; [done|]. by apply StrFacts.includes_In.
Qed.

(** A key other than the one that makes an update "card only" or "schedule only". *)
Lemma not_card_only sub p k :
  In k (changed_keys p) -> k <> "default_payment_method"%string -> isCardUpdateOnly sub (Some p) = false.
Proof.
  intros Hk Hne. unfold isCardUpdateOnly. apply andb_false_iff.
  destruct (changed_keys p) as [|a [|b l]]; [by left| |by left]. right.
  destruct Hk as [->|[]]. unfold Js.includes. cbn [existsb]. rewrite orb_false_r. apply String.eqb_neq. congruence.
Qed.

Lemma not_schedule_only p k :
  In k (changed_keys p) -> k <> "schedule"%string -> isScheduleUpdateOnly (Some p) = false.
Proof.
  intros Hk Hne. unfold isScheduleUpdateOnly. destruct (changed_keys p) as [|a [|b l]]; [done| |done].
  destruct Hk as [->|[]]. by apply String.eqb_neq.
Qed.

(** The items of an attribute list are found under the key they were sent with. *)
Lemma attr_items_key p l : attr_items p = Some l -> In "items"%string (changed_keys p).
Proof.
  unfold attr_items, attr. destruct (List.find _ p) as [[k v]|] eqn:E; [|done]. intros _.
  apply List.find_some in E as [Hin Hk]. apply String.eqb_eq in Hk as <-.
  apply in_map_iff. by exists (k, v).
Qed.

End KeyFacts.

(** ** The properties of the component *)

(** The update reports that price, plan or quantity of the first item differ from
    the current ones, or a changed setting. *)
Definition reports_plan_change (sub : Subscription) (p : PreviousAttributes) : Prop :=
  (exists previousItem l currentItem l',
     attr_items p = Some (previousItem :: l) /\ items sub = Some (currentItem :: l')
     /\ item_changed previousItem currentItem = true)
  \/ exists k, In k settingKeys /\ In k (changed_keys p).

(** No skip heuristic hides a plan change: when an update reports a
    changed price, plan or quantity of the first item, or a changed setting,
    none of the four predicates holds, so the webhook reconciles it. *)
Theorem plan_change_is_not_skipped (sub : Subscription) (p : PreviousAttributes) :
  reports_plan_change sub p ->
  isAutomatedBillingRenewal sub (Some p) = false /\ isPaymentFailureRelatedUpdate sub (Some p) = false
  /\ isCardUpdateOnly sub (Some p) = false /\ isScheduleUpdateOnly (Some p) = false.
Proof.
  intros [(prev & l & cur & l' & Hp & Hs & Hc)|(k & Hk & Hp)].
  - pose proof (attr_items_key _ _ Hp) as Hin. repeat split.
    + unfold isAutomatedBillingRenewal. destruct (negb _); [done|]. destruct (any_changed settingKeys p); [done|].
      apply StrFacts.includes_In in Hin. by rewrite Hin, Hp, Hs, Hc.
    + unfold isPaymentFailureRelatedUpdate.
      rewrite (any_changed_In _ p "items"%string) by (done || simpl; tauto). apply andb_false_r.
    + by apply (not_card_only _ _ "items"%string).
    + by apply (not_schedule_only _ "items"%string).
  - assert (Hne : k <> "default_payment_method"%string /\ k <> "schedule"%string).
    { unfold settingKeys in Hk. simpl in Hk. intuition congruence. }
    destruct Hne. repeat split.
    + unfold isAutomatedBillingRenewal. destruct (negb _); [done|]. by rewrite (any_changed_In _ p k).
    + unfold isPaymentFailureRelatedUpdate. rewrite (any_changed_In _ p k);
        [apply andb_false_r|apply in_or_app; by left|done].
    + by apply (not_card_only _ _ k).
    + by apply (not_schedule_only _ k).
Qed.

(** A subscription with two items whose second price was changed. *)
Definition two_items : Subscription :=
  {| sub_id := "sub_1"; status := "active";
     items := Some (List.map (fun id =>
       {| item_id := "si_" +:+ id;
          item_price := Some {| price_id := id; price_metadata := None; price_product := None; unit_amount := None;
                                lookup_key := None; price_currency := "usd"; recurring_interval := None |};
          item_plan := None; item_quantity := Some 1; current_period_start := None |}) ["meter"; "api_new"]%string);
     sub_customer := None; cancel_at_period_end := false; cancel_at := None; sub_created := 0; sub_metadata := None;
     latest_invoice := None; default_payment_method := None; pending_update := false; schedule := None |}.

Definition previous_of (prices : list string) : PreviousAttributes :=
  [("items"%string, AItems (Some (List.map (fun id =>
     {| previous_price := Some (Some id); previous_plan := None; previous_quantity := None |}) prices)))].

Lemma plan_change_is_not_skipped_witness :
  isAutomatedBillingRenewal two_items (Some (previous_of ["meter_old"%string])) = false
  /\ isPaymentFailureRelatedUpdate two_items (Some (previous_of ["meter_old"%string])) = false
  /\ isCardUpdateOnly two_items (Some (previous_of ["meter_old"%string])) = false
  /\ isScheduleUpdateOnly (Some (previous_of ["meter_old"%string])) = false.
Proof.
  apply plan_change_is_not_skipped. left. do 4 eexists. split; [reflexivity|]. split; reflexivity.
Defined.

(** Only the first item is compared: an update that changes the price of
    the second item, and nothing else, is classified as an automated renewal. *)
Theorem second_item_change_is_renewal :
  attr_items (previous_of ["meter"; "api_old"]%string)
    = Some [{| previous_price := Some (Some "meter"%string); previous_plan := None; previous_quantity := None |};
            {| previous_price := Some (Some "api_old"%string); previous_plan := None; previous_quantity := None |}]
  /\ option_map (List.map item_price_id) (items two_items) = Some [Some "meter"; Some "api_new"]%string
  /\ isAutomatedBillingRenewal two_items (Some (previous_of ["meter"; "api_old"]%string)) = true.
Proof. split; [reflexivity|]. split; reflexivity. Qed.
