(* ===== verification/SlackText.v ===== *)
(** * Text of the Slack alerts

    The text functions of web/apps/dashboard/lib/utils/slackAlerts.ts and
    [formatPrice] of lib/fmt.ts. Rendered text is a list of UTF-16 code units,
    so that line separators, surrogate pairs and the ellipsis are themselves;
    the strings the alerts are built from are lifted by [lit]. *)

From Stdlib Require Import ZArith Bool Ascii String Lia.
From stdpp Require Import base list strings.
From S2P Require Import Prelude Encoding.

Local Open Scope Z_scope.

(** ** Code units *)

Fixpoint lit (s : string) : list Z :=
  match s with
  | EmptyString => []
  | String c s' => Z.of_nat (nat_of_ascii c) :: lit s'
  end.

(** A character the pattern [[\u0000-\u001f\u007f\u0085\u2028\u2029]] matches. *)
Definition is_break (u : Z) : bool :=
  (0 <=? u) && (u <=? 31) || (u =? 127) || (u =? 133) || (u =? 8232) || (u =? 8233).

(** [.replace(/[...]+/g, " ")]: each maximal run becomes one space. *)
Fixpoint collapse (inrun : bool) (l : list Z) : list Z :=
  match l with
  | [] => []
  | u :: l' => if is_break u then (if inrun then collapse true l' else 32 :: collapse true l')
               else u :: collapse false l'
  end.

(** White space and line terminators, as [String.prototype.trim] removes them. *)
Definition is_trimmed (u : Z) : bool :=
  (9 <=? u) && (u <=? 13) || (u =? 32) || (u =? 160) || (u =? 5760) || (8192 <=? u) && (u <=? 8202)
  || (u =? 8232) || (u =? 8233) || (u =? 8239) || (u =? 8287) || (u =? 12288) || (u =? 65279).

Fixpoint trim_left (l : list Z) : list Z :=
  match l with [] => [] | u :: l' => if is_trimmed u then trim_left l' else l end.

Definition trim (l : list Z) : list Z := List.rev (trim_left (List.rev (trim_left l))).

Definition is_high (u : Z) : bool := (55296 <=? u) && (u <=? 56319).
Definition is_low (u : Z) : bool := (56320 <=? u) && (u <=? 57343).

(** [Array.from(value)]: the code points, each as its one or two code units. *)
Fixpoint code_points (l : list Z) : list (list Z) :=
  match l with
  | [] => []
  | u :: l' =>
      match l' with
      | v :: l'' => if is_high u && is_low v then [u; v] :: code_points l'' else [u] :: code_points l'
      | [] => [[u]]
      end
  end.

Definition RENDERED_LENGTH_MAX : nat := 256.

Definition boundLength (value : list Z) : list Z :=
  if Nat.leb (List.length value) RENDERED_LENGTH_MAX then value
  else
    let codePoints := code_points value in
    if Nat.leb (List.length codePoints) RENDERED_LENGTH_MAX then value
    else List.concat (take RENDERED_LENGTH_MAX codePoints) ++ [8230].

(** [s.replaceAll(c, replacement)] for a single code unit. *)
Definition replaceAll (c : Z) (replacement : list Z) (l : list Z) : list Z :=
  List.flat_map (fun u => if u =? c then replacement else [u]) l.

Definition escapeSlackText (value : option (list Z)) : list Z :=
  match value with
  | None | Some [] => []
  | Some value =>
      let collapsed := trim (collapse false value) in
      replaceAll 62 (lit "&gt;") (replaceAll 60 (lit "&lt;") (replaceAll 38 (lit "&amp;") (boundLength collapsed)))
  end.

(** The tagged template: the first literal, then each value with the literal
    after it; [undefined] renders as nothing. *)
Definition mrkdwn (first : list Z) (rest : list (option (list Z) * list Z)) : list Z :=
  List.fold_left (fun acc '(value, literal) =>
    let rendered := match value with None => [] | Some v => escapeSlackText (Some v) end in
    acc ++ rendered ++ literal) rest first.

(** ** Prices and links *)

(** Groups the digits of a number by thousands. *)
Fixpoint group_digits (s : string) : string :=
  match s with
  | EmptyString => EmptyString
  | String c s' =>
      let rest := group_digits s' in
      if (Nat.eqb (Nat.modulo (String.length s') 3) 0) && Nat.ltb 0 (String.length s')
      then String c (String ","%char rest) else String c rest
  end.

(** [formatPrice(cents)]: US dollars with two decimals. *)
Definition formatPrice (price : Z) : string :=
  let a := Z.abs price in
  let cents := a mod 100 in
  (if price <? 0 then "-" else "") +:+ "$" +:+ group_digits (Num.print (a / 100)) +:+ "."
  +:+ (if cents <? 10 then "0" else "") +:+ Num.print cents.

(** A byte [encodeURIComponent] keeps. *)
Definition is_unreserved (b : Z) : bool :=
  (48 <=? b) && (b <=? 57) || (65 <=? b) && (b <=? 90) || (97 <=? b) && (b <=? 122)
  || existsb (Z.eqb b) [45; 95; 46; 33; 126; 42; 39; 40; 41].

Definition hex_digit (n : Z) : ascii := ascii_of_nat (Z.to_nat (if n <? 10 then 48 + n else 55 + n)).

Definition encodeURIComponent (s : string) : string :=
  List.fold_right (fun b acc =>
    if is_unreserved b then String (ascii_of_nat (Z.to_nat b)) acc
    else String "%"%char (String (hex_digit (b / 16)) (String (hex_digit (b mod 16)) acc)))
    EmptyString (utf8 s).

Definition stripeCustomerUrl (customerId : string) (livemode : bool) : string :=
  (if livemode then "https://dashboard.stripe.com" else "https://dashboard.stripe.com/test")
  +:+ "/customers/" +:+ encodeURIComponent customerId.

(** ** Facts *)

(** The single pass the three replacements amount to. *)
Definition escape_unit (u : Z) : list Z :=
  if u =? 38 then lit "&amp;" else if u =? 60 then lit "&lt;" else if u =? 62 then lit "&gt;" else [u].

Section TextFacts.

Lemma replaceAll_escape l :
  replaceAll 62 (lit "&gt;") (replaceAll 60 (lit "&lt;") (replaceAll 38 (lit "&amp;") l)) = List.flat_map escape_unit l.
Proof.
  induction l as [|u l IH]; [done|]. unfold replaceAll in *. cbn [List.flat_map].
  rewrite !flat_map_app, IH. f_equal. unfold escape_unit.
  destruct (Z.eqb_spec u 38) as [->|H1]; [done|]. cbn [List.flat_map List.app].
  destruct (Z.eqb_spec u 60) as [->|H2]; [done|]. cbn [List.flat_map List.app].
  destruct (Z.eqb_spec u 62) as [->|H3]; done.
Qed.

Lemma collapse_no_break b l : Forall (fun u => is_break u = false) (collapse b l).
Proof.
  revert b. induction l as [|u l IH]; intros b; [constructor|]. cbn [collapse].
  destruct (is_break u) eqn:E; [|by constructor]. destruct b; [done|]. by constructor.
Qed.

Lemma trim_left_Forall (P : Z -> Prop) l : Forall P l -> Forall P (trim_left l).
Proof. induction 1 as [|u l Hu Hl IH]; [constructor|]. cbn [trim_left]. destruct (is_trimmed u); [done|by constructor]. Qed.

Lemma trim_Forall (P : Z -> Prop) l : Forall P l -> Forall P (trim l).
Proof. intros H. apply Forall_rev, trim_left_Forall, Forall_rev, trim_left_Forall, H. Qed.

Lemma code_points_concat l : List.concat (code_points l) = l.
Proof.
  assert (H : forall n l, (List.length l <= n)%nat -> List.concat (code_points l) = l).
  { clear l. induction n as [|n IH]; intros [|u [|v l]] Hl; simpl in Hl; try done; [lia|]. cbn [code_points].
    destruct (is_high u && is_low v); cbn [List.concat List.app]; do 2 f_equal.
    - apply IH. lia.
    - change (match l with [] => [[v]] | _ => _ end) with (code_points (v :: l)). f_equal. apply IH. simpl. lia. }
  by apply (H (List.length l)).
Qed.

Lemma boundLength_Forall (P : Z -> Prop) l : P 8230 -> Forall P l -> Forall P (boundLength l).
Proof.
  intros HP Hl. unfold boundLength. destruct (Nat.leb _ _); [done|]. cbv zeta. destruct (Nat.leb _ _); [done|].
  apply Forall_app. split; [|by repeat constructor]. rewrite <- (code_points_concat l) in Hl.
  rewrite <- (take_drop RENDERED_LENGTH_MAX (code_points l)), concat_app in Hl. by apply Forall_app in Hl as [Hl _].
Qed.

(** A code unit that could open or close a link or start a line. *)
Definition is_active (u : Z) : bool := (u =? 60) || (u =? 62) || is_break u.

Lemma escape_unit_inert u : is_break u = false -> Forall (fun v => is_active v = false) (escape_unit u).
Proof.
  intros Hu. unfold escape_unit. destruct (Z.eqb_spec u 38) as [->|H1]; [by repeat constructor|].
  destruct (Z.eqb_spec u 60) as [->|H2]; [by repeat constructor|].
  destruct (Z.eqb_spec u 62) as [->|H3]; [by repeat constructor|]. repeat constructor. unfold is_active.
  apply Z.eqb_neq in H2, H3. by rewrite H2, H3, Hu.
Qed.

Lemma flat_map_escape_inert l :
  Forall (fun u => is_break u = false) l -> Forall (fun v => is_active v = false) (List.flat_map escape_unit l).
Proof. induction 1; simpl; [constructor|]. apply Forall_app. split; [by apply escape_unit_inert|done]. Qed.

Lemma code_points_short l : Forall (fun cp => (List.length cp <= 2)%nat) (code_points l).
Proof.
  assert (H : forall n l, (List.length l <= n)%nat -> Forall (fun cp => (List.length cp <= 2)%nat) (code_points l)).
  { clear l. induction n as [|n IH]; intros [|u [|v l]] Hl; simpl in Hl; try lia; try (by repeat constructor; simpl; lia).
    cbn [code_points]. destruct (is_high u && is_low v); constructor; try (simpl; lia).
    - apply IH. lia.
    - change (match l with [] => [[v]] | _ => _ end) with (code_points (v :: l)). apply IH. simpl. lia. }
  by apply (H (List.length l)).
Qed.

Lemma concat_short (l : list (list Z)) :
  Forall (fun cp => (List.length cp <= 2)%nat) l -> (List.length (List.concat l) <= 2 * List.length l)%nat.
Proof. induction 1; cbn [List.concat List.length]; rewrite ?length_app; lia. Qed.

Lemma boundLength_length l : (List.length (boundLength l) <= 513)%nat.
Proof.
  unfold boundLength. destruct (Nat.leb_spec (List.length l) RENDERED_LENGTH_MAX) as [H|_];
    [unfold RENDERED_LENGTH_MAX in H; lia|]. cbv zeta.
  destruct (Nat.leb_spec (List.length (code_points l)) RENDERED_LENGTH_MAX) as [H|_].
  - pose proof (concat_short _ (code_points_short l)) as Hc. rewrite code_points_concat in Hc.
    unfold RENDERED_LENGTH_MAX in H. lia.
  - rewrite length_app. pose proof (concat_short (take RENDERED_LENGTH_MAX (code_points l))
      (Forall_take _ _ _ (code_points_short l))) as Hc. rewrite length_take in Hc.
    unfold RENDERED_LENGTH_MAX in *. cbn [List.length]. lia.
Qed.

(** The escaped text is the single-pass escape of a bounded text without breaks. *)
Lemma escape_shape v :
  exists l, escapeSlackText v = List.flat_map escape_unit l /\ Forall (fun u => is_break u = false) l
            /\ (List.length l <= 513)%nat.
Proof.
  destruct v as [[|u v]|]; [exists []; split; [done|]; split; [constructor|simpl; lia]| |
    exists []; split; [done|]; split; [constructor|simpl; lia]].
  exists (boundLength (trim (collapse false (u :: v)))). split; [apply replaceAll_escape|].
  split; [|apply boundLength_length]. apply boundLength_Forall; [done|]. apply trim_Forall, collapse_no_break.
Qed.

Definition occurrences (c : Z) (l : list Z) : nat := List.length (List.filter (Z.eqb c) l).

Lemma occurrences_app c a b : occurrences c (a ++ b) = (occurrences c a + occurrences c b)%nat.
Proof. unfold occurrences. by rewrite List.filter_app, length_app. Qed.

Lemma occurrences_inert c l : is_active c = true -> Forall (fun v => is_active v = false) l -> occurrences c l = 0%nat.
Proof.
  intros Hc. induction 1 as [|u l Hu _ IH]; [done|]. unfold occurrences in *. cbn [List.filter].
  destruct (Z.eqb_spec c u) as [->|]; [congruence|done].
Qed.

End TextFacts.

(** ** The properties of the component *)

(** An escaped customer value is inert: it holds no angle bracket, no
    control character and no line separator, and it is at most 2565 code units
    long (513 before escaping), whatever the value was. *)
Theorem escapeSlackText_inert (value : option (list Z)) :
  Forall (fun u => u <> 60 /\ u <> 62 /\ is_break u = false) (escapeSlackText value)
  /\ (List.length (escapeSlackText value) <= 5 * 513)%nat.
Proof.
  destruct (escape_shape value) as (l & -> & Hl & Hlen). split.
  - eapply List.Forall_impl; [|apply flat_map_escape_inert, Hl]. intros u. unfold is_active. simpl.
    intros H. apply orb_false_iff in H as [H ->]. apply orb_false_iff in H as [?%Z.eqb_neq ?%Z.eqb_neq]. done.
  - enough (List.length (List.flat_map escape_unit l) <= 5 * List.length l)%nat by lia. clear.
    induction l as [|u l IH]; [done|]. cbn [List.flat_map]. rewrite length_app.
    assert (List.length (escape_unit u) <= 5)%nat by (unfold escape_unit; zcases; simpl; lia). cbn [List.length]. lia.
Qed.

(** The template tag confines its values: the angle brackets and breaks
    of the rendered text are those of the literals, so no interpolated value can
    forge a link or a line. *)
Theorem mrkdwn_confines (first : list Z) (rest : list (option (list Z) * list Z)) (c : Z) :
  (c = 60 \/ c = 62 \/ is_break c = true) ->
  occurrences c (mrkdwn first rest)
    = (occurrences c first + list_sum (List.map (fun p => occurrences c (snd p)) rest))%nat.
Proof.
  intros Hc. assert (Ha : is_active c = true) by (unfold is_active; destruct Hc as [->|[->| ->]]; simpl; by rewrite ?orb_true_r).
  clear Hc. unfold mrkdwn. revert first. induction rest as [|[v literal] rest IH]; intros first;
    cbn [List.fold_left List.map list_sum]; [by rewrite Nat.add_0_r|].
  rewrite IH, !occurrences_app. cbn [snd]. simpl list_sum.
  replace (occurrences c (match v with None => [] | Some v => escapeSlackText (Some v) end)) with 0%nat; [lia|].
  symmetry. apply occurrences_inert; [done|]. destruct v as [v|]; [|constructor].
  destruct (escape_shape (Some v)) as (l & -> & Hl & _). by apply flat_map_escape_inert.
Qed.

Lemma mrkdwn_confines_witness :
  occurrences 60 (mrkdwn (lit "*Customer*") [(Some (lit "<https://evil.example|View>"), lit " <ok>")]) = 1%nat.
Proof.
  rewrite (mrkdwn_confines (lit "*Customer*") [(Some (lit "<https://evil.example|View>"), lit " <ok>")] 60);
    [reflexivity|left; reflexivity].
Defined.

Example formatPrice_samples :
  List.map formatPrice [0; 5; 2500; 123456789; -1999]
  = ["$0.00"; "$0.05"; "$25.00"; "$1,234,567.89"; "-$19.99"]%string.
Proof. reflexivity. Qed.
