(* ===== verification/Alerts.v ===== *)
(** * Slack alerts

    The alert functions of web/apps/dashboard/lib/utils/slackAlerts.ts and the
    Compute lifecycle alerts of lib/stripe/computeAlerts.ts. *)

From Stdlib Require Import ZArith Bool Ascii String Lia.
From stdpp Require Import base list gmap strings.
From S2P Require Import Prelude StripeTypes DeployPlan Effects DeployBilling SlackText.

Local Open Scope Z_scope.

(** ** Posting *)

Inductive SlackPostStatus := sent | not_configured | rejected | failed.

Definition slack_status_name (s : SlackPostStatus) : string :=
  match s with sent => "sent" | not_configured => "not_configured" | rejected => "rejected" | failed => "failed" end.

(** [alert] only names the alert in the logs. *)
Definition postToSlack (webhookUrl : option string) (alert : string) (blocks : list SlackBlock) : M SlackPostStatus :=
  match webhookUrl with
  | Some url =>
      if Js.truthy_string url then
        catch (ok <- call (SlackPost url blocks) ;; if ok : bool then ret sent else ret rejected)
          (fun _ => ret failed)
      else ret not_configured
  | None => ret not_configured
  end.

(** ** Blocks *)

Definition section (text : list Z) : SlackBlock := SectionText true text.
Definition header (text : string) : SlackBlock := Header (lit text).
Definition fieldsSection (fields : list (list Z)) : SlackBlock := SectionFields fields.
Definition linkButton (label url : string) : SlackBlock := LinkButton (lit label) url.

(** A field [*Label*\n${value}]. *)
Definition labelled (label : string) (value : option string) : list Z :=
  mrkdwn (lit ("*" +:+ label +:+ "*") ++ [10]) [(option_map lit value, [])].

(** ** Subscription lifecycle *)

Inductive CustomerAlertAction := signup | upgrade | downgrade | update | cancelling | cancelled.

Definition action_name (a : CustomerAlertAction) : string :=
  match a with
  | signup => "signup" | upgrade => "upgrade" | downgrade => "downgrade"
  | update => "update" | cancelling => "cancelling" | cancelled => "cancelled"
  end.

(** Emoji, title and standing note. *)
Definition ACTION_META (a : CustomerAlertAction) : string * string * option (list Z) :=
  match a with
  | signup => (":bugeyes:", "New customer signup", None)
  | upgrade => (":stonks:", "Subscription upgraded", None)
  | downgrade => (":notstonks:", "Subscription downgraded", None)
  | update => (":stonks:", "Subscription updated", None)
  | cancelling =>
      (":warning:", "Subscription cancelling",
       Some (mrkdwn (lit "They stay on their plan until the end of the billing period, then move back to the free tier. Worth reaching out to learn why.") []))
  | cancelled =>
      (":caleb-sad:", "Subscription cancelled", Some (mrkdwn (lit "They've been moved back to the free tier.") []))
  end%string.

Record CustomerLifecycleAlert := {
  al_action : CustomerAlertAction;
  al_name : string;
  al_email : string;
  al_workspaceId : option string;
  al_workspaceName : option string;
  al_product : option string;
  al_previousProduct : option string;
  al_price : option string;
  al_stripeCustomerId : option string;
  al_livemode : option bool;
}.

(** A field that is shown when its value is truthy. *)
Definition optional_field (label : string) (value : option string) : list (list Z) :=
  if Js.truthy value then [labelled label value] else [].

Definition product_field (alert : CustomerLifecycleAlert) : list (list Z) :=
  if Js.truthy (al_product alert) then
    [if Js.truthy (al_previousProduct alert) then
       mrkdwn (lit "*Tier / Product*" ++ [10])
         [(option_map lit (al_previousProduct alert), [32; 8594; 32]); (option_map lit (al_product alert), [])]
     else labelled "Tier / Product" (al_product alert)]
  else [].

(** The button linking to the customer. *)
Definition customer_button (stripeCustomerId : option string) (livemode : option bool) : list SlackBlock :=
  match stripeCustomerId with
  | Some id =>
      if Js.truthy_string id
      then [linkButton "View customer in Stripe" (stripeCustomerUrl id (Js.coalesce livemode true))] else []
  | None => []
  end.

Definition lifecycle_blocks (alert : CustomerLifecycleAlert) : list SlackBlock :=
  let '(emoji, title, note) := ACTION_META (al_action alert) in
  let fields := [labelled "Customer" (Some (al_name alert)); labelled "Email" (Some (al_email alert))]
                ++ optional_field "Workspace" (al_workspaceName alert)
                ++ optional_field "Workspace ID" (al_workspaceId alert)
                ++ product_field alert
                ++ optional_field "Price" (al_price alert) in
  [header (emoji +:+ " " +:+ title); fieldsSection fields]
  ++ (match note with Some n => [section n] | None => [] end)
  ++ customer_button (al_stripeCustomerId alert) (al_livemode alert).

Definition alertCustomerLifecycle (alert : CustomerLifecycleAlert) : M SlackPostStatus :=
  url <- slack_webhook ;;
  postToSlack url ("subscription_" +:+ action_name (al_action alert)) (lifecycle_blocks alert).

(** ** Payments *)

Record PaymentAlert := {
  pa_email : string;
  pa_name : string;
  pa_amount : Z;
  pa_stripeCustomerId : option string;
  pa_livemode : option bool;
}.

Definition payment_blocks (alert : PaymentAlert) (emoji title : string) (note : list Z) : list SlackBlock :=
  [header (emoji +:+ " " +:+ title);
   fieldsSection [labelled "Customer" (Some (pa_name alert)); labelled "Email" (Some (pa_email alert));
                  labelled "Amount" (Some (formatPrice (pa_amount alert)))];
   section note]
  ++ customer_button (pa_stripeCustomerId alert) (pa_livemode alert).

Definition alertPayment (alert : PaymentAlert) (kind emoji title : string) (note : list Z) : M unit :=
  url <- slack_webhook ;;
  postToSlack url ("payment_" +:+ kind) (payment_blocks alert emoji title note) ;; ret tt.

Definition alertPaymentFailed (alert : PaymentAlert) : M unit :=
  alertPayment alert "failed" ":warning:" "Payment failed"
    (mrkdwn (lit "We should reach out to help resolve the payment issue.") []).

Definition alertPaymentRecovered (alert : PaymentAlert) : M unit :=
  alertPayment alert "recovered" ":tada:" "Payment recovered"
    (mrkdwn (lit "Payment went through after a previous failure. Their service should now be restored.") []).

(** ** Operational alerts *)

Record OrphanDetails := {
  or_workspaceId : option string;
  or_subscriptionId : string;
  or_sessionId : option string;
  or_eventId : option string;
  or_reason : string;
  or_product : option string;
}.

(** [label: `value`] when the value is truthy. *)
Definition detail_line (label : string) (value : option string) : list string :=
  match value with
  | Some v => if Js.truthy_string v then [label +:+ ": `" +:+ v +:+ "`"] else []
  | None => []
  end.

Definition orphan_blocks (d : OrphanDetails) : list SlackBlock :=
  let detailLines := detail_line "Workspace" (or_workspaceId d)
                     ++ ["Subscription: `" +:+ or_subscriptionId d +:+ "`"]
                     ++ detail_line "Checkout session" (or_sessionId d)
                     ++ detail_line "Event" (or_eventId d) in
  [SectionText false (lit (":rotating_light: Orphaned " +:+ Js.coalesce (or_product d) "Compute"
     +:+ " subscription needs manual reconciliation (" +:+ or_reason d +:+ ")"));
   SectionText false (lit "A live subscription could not be linked to its workspace. The subscription is billing but unlinked "
     ++ [8212] ++ lit " cancel/refund it manually." ++ [10]
     ++ lit (Str.join (String "010"%char EmptyString) detailLines))]%string.

(** Posts a message, swallowing every failure. *)
Definition post_quietly (blocks : list SlackBlock) : M unit :=
  url <- slack_webhook ;;
  match url with
  | Some url => if Js.truthy_string url then catch (call (SlackPost url blocks) ;; ret tt) (fun _ => ret tt) else ret tt
  | None => ret tt
  end.

Definition alertOrphanedDeploySubscription (details : OrphanDetails) : M unit := post_quietly (orphan_blocks details).

Definition alertInvalidProductQuotaMetadata (productId productName subscriptionId eventId : string) : M unit :=
  post_quietly
    [SectionText false (lit ":rotating_light: Product has invalid quota metadata; tier sync skipped");
     SectionText false
       (lit "A subscription.updated could not sync the workspace tier because the product's quota metadata is invalid or missing. Fix the product metadata in Stripe."
        ++ [10] ++ lit ("Product: `" +:+ productName +:+ "` (`" +:+ productId +:+ "`)")
        ++ [10] ++ lit ("Subscription: `" +:+ subscriptionId +:+ "`")
        ++ [10] ++ lit ("Event: `" +:+ eventId +:+ "`"))]%string.

(** ** Compute lifecycle *)

Inductive PlanDirection := upgraded | downgraded.

Inductive ComputeLifecycleAlert :=
| AlertCreated (product price : string)
| AlertCancelling (product price : string)
| AlertUpdated (product price : string) (changeType : PlanDirection) (previousTier : string).

Definition computeProductLabel (plan : DeployPlan) : string := "Compute " +:+ Str.capitalize (plan_name plan).

Definition planFeePrice (sub : Subscription) (plan : DeployPlan) : string :=
  let item := List.find (fun i =>
    match item_price i with
    | Some p => Js.eq_ostring (option_map Str.trim (meta (price_metadata p) "plan")) (plan_name plan)
    | None => false
    end) (items_or_empty sub) in
  match item with
  | Some i => match item_price i with
              | Some p => match unit_amount p with Some a => formatPrice a | None => "n/a" end
              | None => "n/a"
              end
  | None => "n/a"
  end%string.

Definition plan_index (p : DeployPlan) : nat := match p with starter => 0 | pro => 1 | business => 2 end.

Definition planDirection (from to : DeployPlan) : option PlanDirection :=
  if Nat.ltb (plan_index from) (plan_index to) then Some upgraded
  else if Nat.ltb (plan_index to) (plan_index from) then Some downgraded else None.

Fixpoint previousPlanFromItems (config : DeployBillingConfig) (l : list PreviousItem) : option DeployPlan :=
  match l with
  | [] => None
  | item :: l' =>
      match previous_price_id item with
      | Some priceId =>
          if negb (Js.truthy_string priceId) then previousPlanFromItems config l'
          else match planForPlanFeePriceId config priceId with
               | Some plan => Some plan
               | None => previousPlanFromItems config l'
               end
      | None => previousPlanFromItems config l'
      end
  end.

Definition computeCreatedAlert (sub : Subscription) : option ComputeLifecycleAlert :=
  match detectDeployPlan sub with
  | Some plan => Some (AlertCreated (computeProductLabel plan) (planFeePrice sub plan))
  | None => None
  end.

(** [previousAttributes?.items]: present and not null. *)
Definition has_items (p : PreviousAttributes) : bool :=
  match attr p "items" with Some (AItems _) => true | _ => false end.

Definition computeUpdatedAlert (config : option DeployBillingConfig) (sub : Subscription)
    (previousAttributes : option PreviousAttributes) : option ComputeLifecycleAlert :=
  let cancelJustSet := match previousAttributes with
                       | Some p => Js.includes (changed_keys p) "cancel_at_period_end"
                                   || Js.includes (changed_keys p) "cancel_at"
                       | None => false
                       end in
  match detectDeployPlan sub with
  | None => None
  | Some currentPlan =>
      if is_cancelling sub && cancelJustSet
      then Some (AlertCancelling (computeProductLabel currentPlan) (planFeePrice sub currentPlan))
      else
        match previousAttributes, config with
        | Some p, Some config =>
            if has_items p then
              match previousPlanFromItems config (Js.coalesce (attr_items p) []) with
              | Some previousPlan =>
                  match planDirection previousPlan currentPlan with
                  | Some changeType =>
                      if bool_decide (previousPlan = currentPlan) then None
                      else Some (AlertUpdated (computeProductLabel currentPlan) (planFeePrice sub currentPlan)
                                   changeType (computeProductLabel previousPlan))
                  | None => None
                  end
              | None => None
              end
            else None
        | _, _ => None
        end
  end.

(** ** Facts *)

Section AlertFacts.

Lemma ReadOnly_postToSlack url a b : ReadOnly (postToSlack url a b).
Proof. unfold postToSlack. effects. Qed.

Lemma NoThrow_postToSlack url a b : NoThrow (postToSlack url a b).
Proof. unfold postToSlack. effects. Qed.

Lemma ReadOnly_post_quietly b : ReadOnly (post_quietly b).
Proof. unfold post_quietly. effects. Qed.

Lemma NoThrow_post_quietly b : NoThrow (post_quietly b).
Proof. unfold post_quietly. effects. Qed.

End AlertFacts.

#[export] Hint Resolve ReadOnly_postToSlack NoThrow_postToSlack ReadOnly_post_quietly NoThrow_post_quietly : effects.

Section AlertClasses.

Lemma ReadOnly_alertCustomerLifecycle a : ReadOnly (alertCustomerLifecycle a).
Proof. unfold alertCustomerLifecycle. effects. Qed.

Lemma NoThrow_alertCustomerLifecycle a : NoThrow (alertCustomerLifecycle a).
Proof. unfold alertCustomerLifecycle. effects. Qed.

Lemma ReadOnly_alertPayment a k e t n : ReadOnly (alertPayment a k e t n).
Proof. unfold alertPayment. effects. Qed.

Lemma NoThrow_alertPayment a k e t n : NoThrow (alertPayment a k e t n).
Proof. unfold alertPayment. effects. Qed.

Lemma ReadOnly_orphan d : ReadOnly (alertOrphanedDeploySubscription d).
Proof. apply ReadOnly_post_quietly. Qed.

Lemma NoThrow_orphan d : NoThrow (alertOrphanedDeploySubscription d).
Proof. apply NoThrow_post_quietly. Qed.

Lemma ReadOnly_quota a b c d : ReadOnly (alertInvalidProductQuotaMetadata a b c d).
Proof. apply ReadOnly_post_quietly. Qed.

Lemma NoThrow_quota a b c d : NoThrow (alertInvalidProductQuotaMetadata a b c d).
Proof. apply NoThrow_post_quietly. Qed.

End AlertClasses.

#[export] Hint Resolve ReadOnly_alertCustomerLifecycle NoThrow_alertCustomerLifecycle ReadOnly_alertPayment
  NoThrow_alertPayment ReadOnly_orphan NoThrow_orphan ReadOnly_quota NoThrow_quota : effects.
