(* ===== verification/DeployCredits.v ===== *)
(** * Usage credits of a Compute plan

    web/apps/dashboard/lib/stripe/deployCredits.ts: the net plan fee of an
    invoice, the credit grant a paid invoice entitles to and the credit a
    customer has for the current period. Amounts are integer cents and times are
    Unix seconds; [Date.now()] is in milliseconds. *)

From Stdlib Require Import ZArith Bool String Lia.
From stdpp Require Import base list gmap strings.
From S2P Require Import Prelude StripeTypes DeployPlan Effects Fixtures DeployBilling.

Local Open Scope Z_scope.

Definition EXPIRY_GRACE_SECONDS : Z := 3 * 24 * 60 * 60.

Inductive DeployCreditGrantResult :=
| NotGranted (reason : string) (periodTotalCents : option Z)
| Granted (grantId : string) (amountCents periodTotalCents : Z).

Record NetDeployFee := {
  fee_amountCents : Z;
  fee_periodEnd : Z;
  fee_plan : option DeployPlan;
}.

(** ** The net fee *)

Definition line_plan (config : DeployBillingConfig) (line : InvoiceLine) : option DeployPlan :=
  match line_price line with Some priceId => planForPlanFeePriceId config priceId | None => None end.

Definition deployPlanFeeLines (config : DeployBillingConfig) (lines : list InvoiceLine) : list InvoiceLine :=
  List.filter (fun line => Js.truthy_obj (line_plan config line)) lines.

Definition sum_list (l : list Z) : Z := List.fold_left (fun d a => d + a) l 0.

(** [feeLines.reduce((max, line) => (line.amount > max.amount ? line : max))]. *)
Definition charge_line (first : InvoiceLine) (rest : list InvoiceLine) : InvoiceLine :=
  List.fold_left (fun max line => if line_amount max <? line_amount line then line else max) rest first.

Definition netDeployFee (config : DeployBillingConfig) (lines : list InvoiceLine) : option NetDeployFee :=
  match deployPlanFeeLines config lines with
  | [] => None
  | first :: rest =>
      let feeLines := first :: rest in
      Some {| fee_amountCents :=
                List.fold_left (fun sum line => sum + line_amount line - sum_list (line_discounts line)) feeLines 0;
              fee_periodEnd := List.fold_left Z.max (List.map line_period_end rest) (line_period_end first);
              fee_plan := line_plan config (charge_line first rest) |}
  end.

(** ** Granting *)

(** The pass over the customer's grants: the grant of this invoice, the last one
    found, and the total of the period. *)
Definition scan_grants (expiresAt : Z) (invoiceId : string) (grants : list CreditGrant) : option CreditGrant * Z :=
  List.fold_left (fun '(duplicate, total) grant =>
    let total := if bool_decide (expires_at grant = Some expiresAt) then total + Js.coalesce (grant_value grant) 0
                 else total in
    (if Js.eq_ostring (meta (grant_metadata grant) "stripe_invoice_id") invoiceId then Some grant else duplicate, total))
    grants (None, 0).

Definition grant_key (invoiceId : string) : string := "deploy-credit-grant:" +:+ invoiceId.

Definition grant_params (invoice : Invoice) (customerId : string) (fee : NetDeployFee) : CreditGrantParams :=
  {| grant_name := match fee_plan fee with Some p => Str.capitalize (plan_name p) | None => "Compute"%string end
                   +:+ " plan monthly included usage";
     grant_customer := customerId;
     grant_currency := invoice_currency invoice;
     grant_amount := fee_amountCents fee;
     grant_scope := "metered";
     grant_expires_at := fee_periodEnd fee + EXPIRY_GRACE_SECONDS;
     grant_invoice_id := invoice_id invoice;
     grant_deploy_plan := option_map plan_name (fee_plan fee) |}.

Definition grantDeployCreditsForInvoice (invoice : Invoice) : M DeployCreditGrantResult :=
  config <- deployBillingConfig ;;
  match config with
  | None => ret (NotGranted "deploy billing not configured" None)
  | Some config =>
      match invoice_customer invoice with
      | None => ret (NotGranted "invoice has no customer" None)
      | Some customer =>
          let customerId := ref_id customer in
          lines <- (if lines_has_more invoice then call (InvoicesListLineItems (invoice_id invoice))
                    else ret (invoice_lines invoice)) ;;
          match netDeployFee config lines with
          | None => ret (NotGranted "no deploy plan-fee lines" None)
          | Some fee =>
              if fee_amountCents fee <=? 0 then
                ret (NotGranted ("non-positive net plan-fee amount (" +:+ Num.string_of_Z (fee_amountCents fee) +:+ ")") None)
              else
                let expiresAt := fee_periodEnd fee + EXPIRY_GRACE_SECONDS in
                now <- date_now ;;
                if expiresAt * 1000 <=? now then ret (NotGranted "period already closed" None)
                else
                  grants <- call (CreditGrantsList customerId) ;;
                  let '(duplicate, periodTotalCents) := scan_grants expiresAt (invoice_id invoice) grants in
                  match duplicate with
                  | Some g => ret (NotGranted ("already granted (" +:+ grant_id g +:+ ")") (Some periodTotalCents))
                  | None =>
                      created <- call (CreditGrantsCreate (grant_params invoice customerId fee)
                                         (grant_key (invoice_id invoice))) ;;
                      ret (Granted created (fee_amountCents fee) (periodTotalCents + fee_amountCents fee))
                  end
          end
      end
  end.

(** ** The credit of the current period *)

(** The grants that count: metered and not expired at [now] milliseconds;
    [expiresAt <= Date.now() / 1000] is [expiresAt * 1000 <= now]. *)
Definition active_grant (now : Z) (g : CreditGrant) : option (Z * Z) :=
  if Js.eq_ostring (grant_price_type g) "metered" then
    match expires_at g with
    | Some e => if e * 1000 <=? now then None else Some (e, Js.coalesce (grant_value g) 0)
    | None => None
    end
  else None.

(** [centsByExpiry]. *)
Definition centsByExpiry (now : Z) (grants : list CreditGrant) : gmap Z Z :=
  List.fold_left (fun m g =>
    match active_grant now g with
    | Some (e, value) => <[e := Js.coalesce (m !! e) 0 + value]> m
    | None => m
    end) grants ∅.

(** [Math.max(...keys)], when there is one. *)
Definition max_key (m : gmap Z Z) : option Z :=
  match List.map fst (map_to_list m) with
  | [] => None
  | k :: l => Some (List.fold_left Z.max l k)
  end.

Definition deployIncludedCreditCents (customerId : string) : M Z :=
  now <- date_now ;;
  grants <- call (CreditGrantsList customerId) ;;
  let m := centsByExpiry now grants in
  match max_key m with
  | None => ret 0
  | Some currentPeriodExpiry => ret (Js.coalesce (m !! currentPeriodExpiry) 0)
  end.

(** ** Specifications *)

Fixpoint zsum (l : list Z) : Z := match l with [] => 0 | x :: l' => x + zsum l' end.

(** What a fee line charges, net of its discounts. *)
Definition net_amount (line : InvoiceLine) : Z := line_amount line - zsum (line_discounts line).

(** A grant of the invoice. *)
Definition grants_invoice (invoiceId : string) (g : CreditGrant) : bool :=
  Js.eq_ostring (meta (grant_metadata g) "stripe_invoice_id") invoiceId.

Definition is_create (c : Call) : bool := match c with CreditGrantsCreate _ _ => true | _ => false end.

(** The expiry dates and values of the active grants. *)
Definition active_values (now : Z) (grants : list CreditGrant) : list (Z * Z) := omap (active_grant now) grants.

(** ** Facts *)

Section SumFacts.

Lemma fold_add {A} (f : A -> Z) (g : Z -> A -> Z) l acc :
  (forall s a, g s a = s + f a) -> List.fold_left g l acc = acc + zsum (List.map f l).
Proof.
  intros Hg. revert acc. induction l as [|x l IH]; intros acc; cbn [List.fold_left List.map zsum]; [lia|].
  rewrite IH, Hg. lia.
Qed.

Lemma sum_list_zsum l : sum_list l = zsum l.
Proof. unfold sum_list. rewrite (fold_add (fun x => x)) by done. rewrite List.map_id. lia. Qed.

Lemma fold_max l k : In (List.fold_left Z.max l k) (k :: l) /\ Forall (fun x => x <= List.fold_left Z.max l k) (k :: l).
Proof.
  revert k. induction l as [|x l IH]; intros k; cbn [List.fold_left].
  - split; [by left|]. repeat constructor; lia.
  - destruct (IH (Z.max k x)) as [Hin Hall]. inv Hall. split.
    + destruct Hin as [E|Hin]; [|simpl; auto]. rewrite <- E.
      destruct (Z.max_spec k x) as [[_ ->]|[_ ->]]; simpl; auto.
    + repeat constructor; try lia. done.
Qed.

Lemma charge_line_max first rest :
  In (charge_line first rest) (first :: rest)
  /\ Forall (fun l => line_amount l <= line_amount (charge_line first rest)) (first :: rest).
Proof.
  revert first. unfold charge_line. induction rest as [|x l IH]; intros first; cbn [List.fold_left].
  - split; [by left|]. repeat constructor; lia.
  - destruct (Z.ltb_spec (line_amount first) (line_amount x)) as [Hlt|Hge].
    + destruct (IH x) as [Hin Hall]. inv Hall. split; [destruct Hin; simpl; auto|]. repeat constructor; [lia|lia|done].
    + destruct (IH first) as [Hin Hall]. inv Hall. split; [destruct Hin; simpl; auto|]. repeat constructor; [lia|lia|done].
Qed.

Lemma scan_grants_spec e i grants :
  (fst (scan_grants e i grants) = None <-> Forall (fun g => grants_invoice i g = false) grants)
  /\ snd (scan_grants e i grants)
     = zsum (List.map (fun g => Js.coalesce (grant_value g) 0)
         (List.filter (fun g => bool_decide (expires_at g = Some e)) grants)).
Proof.
  unfold scan_grants. induction grants as [|g grants IH] using rev_ind; [split; [split; [constructor|done]|done]|].
  rewrite fold_left_app, List.filter_app, List.map_app. cbn [List.fold_left List.filter].
  destruct (List.fold_left _ grants (None, 0)) as [d t]. cbn [fst snd] in *. destruct IH as [IHd IHt].
  split.
  - rewrite Forall_app, <- IHd. fold (grants_invoice i g). destruct (grants_invoice i g) eqn:E.
    + split; [done|]. intros [_ H]. inv H. congruence.
    + split; [intros ->; split; [done|]; by repeat constructor|by intros []].
  - assert (Happ : forall a b, zsum (a ++ b) = zsum a + zsum b) by (induction a; simpl; intros; rewrite ?IHa; lia).
    rewrite Happ, <- IHt. destruct (bool_decide _); simpl; lia.
Qed.

End SumFacts.

(** ** The properties of the component *)

(** The net fee of an invoice: there is one exactly when some line bears
    a plan-fee price; its amount is the sum over those lines of the amount less
    the line's discounts, its period end is the latest, and its plan is that of a
    fee line with the largest amount. *)
Theorem netDeployFee_spec (config : DeployBillingConfig) (lines : list InvoiceLine) :
  let feeLines := List.filter (fun l => Js.truthy_obj (line_plan config l)) lines in
  match netDeployFee config lines with
  | None => feeLines = []
  | Some fee =>
      fee_amountCents fee = zsum (List.map net_amount feeLines)
      /\ In (fee_periodEnd fee) (List.map line_period_end feeLines)
      /\ Forall (fun l => line_period_end l <= fee_periodEnd fee) feeLines
      /\ exists charged, In charged feeLines /\ fee_plan fee = line_plan config charged /\ fee_plan fee <> None
           /\ Forall (fun l => line_amount l <= line_amount charged) feeLines
  end.
Proof.
  cbv zeta. unfold netDeployFee, deployPlanFeeLines. set (feeLines := List.filter _ lines).
  assert (Hfee : forall l, In l feeLines -> line_plan config l <> None).
  { intros l Hl. apply filter_In in Hl as [_ Hl]. by destruct (line_plan config l). }
  destruct feeLines as [|first rest] eqn:E; [done|]. cbn [fee_amountCents fee_periodEnd fee_plan].
  split; [rewrite (fold_add net_amount); [lia|intros s l; unfold net_amount; rewrite sum_list_zsum; lia]|].
  destruct (fold_max (List.map line_period_end rest) (line_period_end first)) as [Hin Hall].
  split; [exact Hin|]. split; [exact (proj1 (List.Forall_map line_period_end _ (first :: rest)) Hall)|].
  destruct (charge_line_max first rest) as [Hc Hm]. exists (charge_line first rest). auto.
Qed.

(** All lines of the invoice: those it carries, or, when it says that there are more, those
    Stripe lists for it. *)
Definition all_lines (env : Env) (invoice : Invoice) (lines : list InvoiceLine) : Prop :=
  if lines_has_more invoice then exists tr, ask env tr (InvoicesListLineItems (invoice_id invoice)) = inr lines
  else lines = invoice_lines invoice.

(** The line charges the fee of some plan. *)
Definition charges_plan (config : DeployBillingConfig) (line : InvoiceLine) : bool :=
  match line_price line with
  | Some id => existsb (fun plan => String.eqb (planFeePriceIds config plan) id) [starter; pro; business]
  | None => false
  end.

(** The grant an invoice is entitled to: for its customer and in its currency, the net of
    its plan-fee lines, which is positive; on metered prices; until three days after the
    latest of their periods, which is not over; and naming the invoice. *)
Record entitled_grant (env : Env) (invoice : Invoice) (customerId : string) (feeLines : list InvoiceLine)
    (p : CreditGrantParams) : Prop := {
  eg_customer : grant_customer p = customerId;
  eg_currency : grant_currency p = invoice_currency invoice;
  eg_amount : grant_amount p = zsum (List.map net_amount feeLines);
  eg_positive : 0 < grant_amount p;
  eg_scope : grant_scope p = "metered"%string;
  eg_latest : exists e, In e (List.map line_period_end feeLines) /\ Forall (fun l => line_period_end l <= e) feeLines
                        /\ grant_expires_at p = e + 3 * 24 * 60 * 60;
  eg_open : exists tr, clock env tr < grant_expires_at p * 1000;
  eg_invoice : grant_invoice_id p = invoice_id invoice;
}.

(** The creations of a call to grant, with what justified them. *)
Definition justified (env : Env) (w : World) (invoice : Invoice) (l : list Call) : Prop :=
  List.filter is_create l = []
  \/ exists customer config lines p,
       List.filter is_create l = [CreditGrantsCreate p ("deploy-credit-grant:" +:+ invoice_id invoice)]
       /\ invoice_customer invoice = Some customer /\ prices_in_force env w config /\ all_lines env invoice lines
       /\ entitled_grant env invoice (ref_id customer) (List.filter (charges_plan config) lines) p
       /\ exists tr grants, ask env tr (CreditGrantsList (ref_id customer)) = inr grants
            /\ Forall (fun g => grants_invoice (invoice_id invoice) g = false) grants.

Section GrantFacts.

Context (env : Env) (w0 : World) (invoice : Invoice).

(** Every computation that creates no grant extends the trace without one. *)
Lemma no_create_filter {A} (m : M A) :
  Emits (fun c => Is_true (negb (is_create c))) m ->
  forall w, exists l, trace (snd (m env w)) = trace w ++ l /\ List.filter is_create l = [].
Proof.
  intros Hm w. destruct (Hm env w) as (l & Hl & Hp). exists l. split; [done|].
  clear Hl. induction Hp as [|c l Hc _ IH]; [done|]. cbn [List.filter]. by destruct (is_create c).
Qed.

Definition Justified {A} (m : M A) (w : World) : Prop :=
  exists l, trace (snd (m env w)) = trace w ++ l /\ justified env w0 invoice l.

Lemma Justified_quiet {A} (m : M A) w : Emits (fun c => Is_true (negb (is_create c))) m -> Justified m w.
Proof. intros Hm. destruct (no_create_filter m Hm w) as (l & Hl & Hf). exists l. split; [done|by left]. Qed.

Lemma Justified_bind {A B} (m : M A) (k : A -> M B) w :
  Emits (fun c => Is_true (negb (is_create c))) m -> (forall a w', m env w = (Ret a, w') -> Justified (k a) w') ->
  Justified (bind m k) w.
Proof.
  intros Hm Hk. unfold Justified, bind. destruct (no_create_filter m Hm w) as (l & Hl & Hf).
  destruct (m env w) as [[a|e] w']; cbn [snd] in *; [|exists l; split; [done|by left]].
  destruct (Hk a w' eq_refl) as (l' & Hl' & Hj). exists (l ++ l'). split; [by rewrite Hl', Hl, app_assoc|].
  unfold justified. by rewrite List.filter_app, Hf.
Qed.

(** The fee lines by price and by plan are the same. *)
Lemma charges_plan_spec config lines :
  List.filter (charges_plan config) lines = List.filter (fun l => Js.truthy_obj (line_plan config l)) lines.
Proof.
  apply List.filter_ext. intros l. unfold charges_plan, line_plan, planForPlanFeePriceId.
  destruct (line_price l) as [id|]; [|done]. cbn. repeat (destruct (String.eqb _ id); [done|]). done.
Qed.

Lemma params_entitled config lines fee (customer : Ref Customer) :
  netDeployFee config lines = Some fee -> 0 < fee_amountCents fee ->
  (exists tr, clock env tr < (fee_periodEnd fee + EXPIRY_GRACE_SECONDS) * 1000) ->
  entitled_grant env invoice (ref_id customer) (List.filter (charges_plan config) lines) (grant_params invoice (ref_id customer) fee).
Proof.
  intros Hn Hp Ht. pose proof (netDeployFee_spec config lines) as Hspec. cbv zeta in Hspec. rewrite Hn in Hspec.
  rewrite <- charges_plan_spec in Hspec. destruct Hspec as (Ha & Hin & Hall & _).
  split; cbn [grant_params grant_customer grant_currency grant_amount grant_scope grant_expires_at grant_invoice_id];
    [done|done|exact Ha|exact Hp|done| |exact Ht|done].
  exists (fee_periodEnd fee). by split_and!.
Qed.

(** The listing and the creation, for an entitled fee. *)
Lemma Justified_create config lines customer fee w :
  invoice_customer invoice = Some customer -> prices_in_force env w0 config -> all_lines env invoice lines ->
  entitled_grant env invoice (ref_id customer) (List.filter (charges_plan config) lines) (grant_params invoice (ref_id customer) fee) ->
  Justified (
    grants <- call (CreditGrantsList (ref_id customer)) ;;
    let '(duplicate, total) := scan_grants (fee_periodEnd fee + EXPIRY_GRACE_SECONDS) (invoice_id invoice) grants in
    match duplicate with
    | Some g => ret (NotGranted ("already granted (" +:+ grant_id g +:+ ")") (Some total))
    | None =>
        created <- call (CreditGrantsCreate (grant_params invoice (ref_id customer) fee) (grant_key (invoice_id invoice))) ;;
        ret (Granted created (fee_amountCents fee) (total + fee_amountCents fee))
    end) w.
Proof.
  intros Hc Hprices Hlines Hp. unfold Justified, bind, call. cbn [Resp].
  destruct (ask env (trace w) (CreditGrantsList (ref_id customer))) as [e|grants] eqn:Eg;
    [exists [CreditGrantsList (ref_id customer)]; split; [done|by left]|].
  destruct (scan_grants_spec (fee_periodEnd fee + EXPIRY_GRACE_SECONDS) (invoice_id invoice) grants) as [[Hd _] _].
  destruct (scan_grants _ _ grants) as [[g|] total]; cbn [fst] in Hd.
  - exists [CreditGrantsList (ref_id customer)]. split; [done|by left].
  - exists [CreditGrantsList (ref_id customer);
            CreditGrantsCreate (grant_params invoice (ref_id customer) fee) (grant_key (invoice_id invoice))].
    split; [destruct (ask _ _ (CreditGrantsCreate _ _)); simpl; by rewrite <- app_assoc|].
    right. exists customer, config, lines, (grant_params invoice (ref_id customer) fee). split_and!; try done.
    exists (trace w), grants. auto.
Qed.

End GrantFacts.

(** Claim C10. A paid invoice is granted its net fee at most once per call: the call
    creates no grant, or exactly one, under the idempotency key of the invoice. Its amount
    is the positive sum, net of discounts, of those of all lines of this invoice, fetched
    page by page when the event does not carry them all, whose price is the fee of a plan
    under the prices in force; it expires three days after the latest period of those
    lines, which is still to come; and none of the customer's listed grants names the
    invoice. *)
Theorem grant_once (env : Env) (w : World) (invoice : Invoice) :
  exists l, trace (snd (grantDeployCreditsForInvoice invoice env w)) = trace w ++ l /\ justified env w invoice l.
Proof.
  apply (Justified_bind env w invoice); [by apply Emits_deployBillingConfig|]. intros [config|] w1 Hcfg;
    [|apply Justified_quiet, Emits_ret]. apply config_in_force in Hcfg.
  destruct (invoice_customer invoice) as [customer|] eqn:Ec; [|apply Justified_quiet, Emits_ret].
  cbv zeta. apply Justified_bind; [effects|]. intros lines w2 Hl.
  assert (Hlines : all_lines env invoice lines).
  { unfold all_lines. destruct (lines_has_more invoice); [call_in Hl Hdb; eauto|by apply ret_ret in Hl as [-> _]]. }
  destruct (netDeployFee config lines) as [fee|] eqn:En; [|apply Justified_quiet, Emits_ret].
  destruct (Z.leb_spec (fee_amountCents fee) 0); [apply Justified_quiet, Emits_ret|].
  apply Justified_bind; [effects|]. intros now w3 Hnow. destruct (Z.leb_spec ((fee_periodEnd fee + EXPIRY_GRACE_SECONDS) * 1000) now);
    [apply Justified_quiet, Emits_ret|]. injection Hnow as <- _.
  eapply Justified_create; eauto. eapply params_entitled; eauto.
Qed.

Section CreditFacts.

Lemma centsByExpiry_snoc now grants g :
  centsByExpiry now (grants ++ [g])
  = match active_grant now g with
    | Some (e, value) => <[e := Js.coalesce (centsByExpiry now grants !! e) 0 + value]> (centsByExpiry now grants)
    | None => centsByExpiry now grants
    end.
Proof. unfold centsByExpiry. by rewrite fold_left_app. Qed.

Lemma zsum_app a b : zsum (a ++ b) = zsum a + zsum b.
Proof. induction a as [|x a IH]; simpl; rewrite ?IH; lia. Qed.

(** The map holds, per expiry of an active grant, the total of its grants. *)
Lemma centsByExpiry_lookup now grants e :
  centsByExpiry now grants !! e
  = if existsb (Z.eqb e) (List.map fst (active_values now grants))
    then Some (zsum (List.map snd (List.filter (fun p => fst p =? e) (active_values now grants)))) else None.
Proof.
  induction grants as [|g grants IH] using rev_ind; [done|].
  unfold active_values in *. rewrite centsByExpiry_snoc, omap_app. cbn [omap list_omap].
  destruct (active_grant now g) as [[e' v]|]; [|by rewrite app_nil_r].
  rewrite List.map_app, existsb_app, List.filter_app, List.map_app, zsum_app. cbn [List.map List.filter existsb fst snd].
  destruct (Z.eqb_spec e e') as [->|Hne].
  - rewrite lookup_insert_eq, Z.eqb_refl, IH, orb_true_r. cbn [List.map zsum snd]. f_equal.
    destruct (existsb _ _) eqn:Hn; cbn [Js.coalesce]; [lia|].
    replace (List.filter (fun p => fst p =? e') (omap (active_grant now) grants)) with (@nil (Z * Z)); [simpl; lia|].
    symmetry. clear IH. induction (omap (active_grant now) grants) as [|p l IHl]; [done|]. cbn [List.filter].
    cbn [List.map existsb] in Hn. apply orb_false_iff in Hn as [H1 H2]. rewrite Z.eqb_sym, H1. by apply IHl.
  - rewrite lookup_insert_ne, IH by done. rewrite orb_false_r.
    replace (e' =? e) with false by (symmetry; apply Z.eqb_neq; congruence). cbn [List.map zsum]. by rewrite Z.add_0_r.
Qed.

Lemma existsb_In e l : existsb (Z.eqb e) l = true <-> In e l.
Proof.
  rewrite existsb_exists. split; [by intros (x & Hx & ->%Z.eqb_eq)|]. intros H. exists e. by rewrite Z.eqb_refl.
Qed.

Lemma max_key_spec m :
  match max_key m with
  | None => m = ∅
  | Some k => is_Some (m !! k) /\ forall k', is_Some (m !! k') -> k' <= k
  end.
Proof.
  unfold max_key. destruct (List.map fst (map_to_list m)) as [|k l] eqn:E.
  - apply map_eq_nil in E. by apply map_to_list_empty_iff in E.
  - destruct (fold_max l k) as [Hin Hall]. rewrite <- E in Hin, Hall. split.
    + apply in_map_iff in Hin as ([k1 v] & <- & Hkv). apply list_elem_of_In, elem_of_map_to_list in Hkv. by eexists.
    + intros k' [v Hv]. apply elem_of_map_to_list, list_elem_of_In in Hv.
      rewrite List.Forall_forall in Hall. apply Hall. apply in_map_iff. by exists (k', v).
Qed.

End CreditFacts.

(** The included credit is that of the latest period: without active
    metered grants it is zero, otherwise it is the sum of the active grants that
    share the latest expiry, so a previous period in its grace window is not
    counted twice. *)
Theorem deployIncludedCreditCents_spec (env : Env) (w : World) (customerId : string) (grants : list CreditGrant) :
  ask env (trace (log_call DateNow w)) (CreditGrantsList customerId) = inr grants ->
  let active := active_values (clock env (trace w)) grants in
  exists cents, fst (deployIncludedCreditCents customerId env w) = Ret cents /\
    ((active = [] /\ cents = 0)
     \/ exists e, In e (List.map fst active) /\ Forall (fun e' => e' <= e) (List.map fst active)
        /\ cents = zsum (List.map snd (List.filter (fun p => fst p =? e) active))).
Proof.
  intros Hask active. unfold deployIncludedCreditCents, bind, date_now, call. rewrite Hask.
  set (m := centsByExpiry (clock env (trace w)) grants). pose proof (max_key_spec m) as Hmax.
  assert (Hdom : forall e, is_Some (m !! e) <-> In e (List.map fst active)).
  { intros e. unfold m. rewrite centsByExpiry_lookup. fold active.
    rewrite <- existsb_In. destruct (existsb _ _); split; intros H; done. }
  destruct (max_key m) as [k|].
  - destruct Hmax as [Hk Hle]. eexists. split; [reflexivity|]. right. exists k. split; [by apply Hdom|]. split.
    + apply List.Forall_forall. intros e He. by apply Hle, Hdom.
    + unfold m. rewrite centsByExpiry_lookup. fold active. by apply Hdom, existsb_In in Hk as ->.
  - eexists. split; [reflexivity|]. left. split; [|done]. destruct active as [|p l]; [done|].
    assert (is_Some (m !! fst p)) as [v Hv] by (apply Hdom; by left). by rewrite Hmax in Hv.
Qed.

Lemma deployIncludedCreditCents_spec_witness :
  exists cents, fst (deployIncludedCreditCents "cus_1" demo_env (world_of free_db)) = Ret cents /\
    ((active_values 1000000 [demo_grant] = [] /\ cents = 0)
     \/ exists e, In e (List.map fst (active_values 1000000 [demo_grant]))
        /\ Forall (fun e' => e' <= e) (List.map fst (active_values 1000000 [demo_grant]))
        /\ cents = zsum (List.map snd (List.filter (fun p => fst p =? e) (active_values 1000000 [demo_grant])))).
Proof. apply (deployIncludedCreditCents_spec demo_env (world_of free_db) "cus_1" [demo_grant]). reflexivity. Defined.

Example grant_demo :
  fst (grantDeployCreditsForInvoice demo_invoice demo_env (world_of free_db)) = Ret (Granted "credgr_1" 2000 2700).
Proof. vm_compute. reflexivity. Qed.
