(* ===== verification/BillingOps.v ===== *)
(** * Database operations of the billing code

    lib/stripe/setWorkspaceLimits.ts, lib/stripe/billingSubscriptions.ts,
    [insertAuditLogs] of lib/audit.ts, lib/auth/deactivateNonCreatorMemberships.ts
    and the two queries by which the Stripe code finds a workspace. *)

From Stdlib Require Import ZArith Bool String Lia.
From stdpp Require Import base list gmap strings.
From S2P Require Import Prelude StripeTypes DeployPlan Effects.

Local Open Scope Z_scope.

(** ** Limits *)

Definition setWorkspaceLimits (workspaceId : string) (plan : option DeployPlan) (preserveApiLimits : bool)
    (limitUpdate : LimitUpdate) : M unit :=
  exec (UpsertLimits workspaceId (limitValues plan preserveApiLimits limitUpdate)
          (limitColumns plan preserveApiLimits limitUpdate)).

(** ** Subscriptions *)

Definition upsertBillingSubscription (workspaceId : string) (product : SubscriptionProduct) (subscriptionId : string) : M unit :=
  exec (UpsertSubscription {| bs_workspaceId := workspaceId; bs_product := product;
                              stripeSubscriptionId := subscriptionId |}).

Definition deleteBillingSubscription (workspaceId : string) (product : SubscriptionProduct) : M unit :=
  exec (DeleteSubscription workspaceId product).

(** [subscriptionIdsByProduct]: the ids recorded for api and for compute. *)
Definition subscriptionIdsByProduct (subscriptions : list BillingSubscription) : option string * option string :=
  List.fold_left (fun '(a, c) s =>
    match bs_product s with
    | api => (Some (stripeSubscriptionId s), c)
    | compute => (a, Some (stripeSubscriptionId s))
    end) subscriptions (None, None).

(** ** Audit logs *)

Definition AUDIT_LOG_BUCKET : string := "unkey_mutations".
Definition OUTBOX_VERSION_V1 : string := "audit_log.v1".
Definition EVENT_SOURCE_PLATFORM : string := "platform".

Record UnkeyAuditLog := {
  log_workspaceId : string;
  log_event : string;
  log_description : string;
  log_actor : Actor;
  log_resources : list Resource;
  log_location : string;
  log_userAgent : option string;
  log_correlationId : option string;
}.

(** One row per log: a fresh id, the time and the envelope. *)
Definition outbox_row (sharedCorrelationId : option string) (log : UnkeyAuditLog) : M OutboxRow :=
  auditLogId <- new_id "auditLog" ;;
  now <- date_now ;;
  let correlationId := Js.ocoalesce (log_correlationId log) sharedCorrelationId in
  ret {| outbox_version := OUTBOX_VERSION_V1;
         outbox_workspaceId := log_workspaceId log;
         outbox_eventId := auditLogId;
         outbox_payload :=
           {| envelope_event_id := auditLogId; envelope_time := now; envelope_workspace_id := log_workspaceId log;
              envelope_bucket := AUDIT_LOG_BUCKET; envelope_source := EVENT_SOURCE_PLATFORM;
              envelope_event := log_event log; envelope_description := log_description log;
              envelope_actor := log_actor log; envelope_remote_ip := Some (log_location log);
              envelope_user_agent := log_userAgent log;
              envelope_targets := match log_resources log with [] => None | l => Some l end;
              envelope_correlation_id := correlationId |};
         outbox_createdAt := now |}.

Fixpoint outbox_rows (sharedCorrelationId : option string) (logs : list UnkeyAuditLog) : M (list OutboxRow) :=
  match logs with
  | [] => ret []
  | log :: logs' =>
      row <- outbox_row sharedCorrelationId log ;;
      rows <- outbox_rows sharedCorrelationId logs' ;;
      ret (row :: rows)
  end.

Definition insertAuditLogs (logs : list UnkeyAuditLog) : M unit :=
  match logs with
  | [] => ret tt
  | _ =>
      sharedCorrelationId <- (if Nat.ltb 1 (List.length logs) then (c <- new_id "correlation" ;; ret (Some c))
                              else ret None) ;;
      rows <- outbox_rows sharedCorrelationId logs ;;
      exec (InsertOutbox rows)
  end.

(** ** Team membership *)

(** [a.createdAt.localeCompare(b.createdAt)] on ISO timestamps is the order of
    their code units. *)
Definition older (a b : Member) : bool :=
  match String.compare (createdAt a) (createdAt b) with Gt => false | _ => true end.

Fixpoint insert_member (m : Member) (l : list Member) : list Member :=
  match l with
  | [] => [m]
  | x :: l' => if older m x then m :: l else x :: insert_member m l'
  end.

(** The stable sort by creation date. *)
Definition sort_members (l : list Member) : list Member := List.fold_right insert_member [] l.

Definition deactivateNonCreatorMemberships (org : string) : M unit :=
  lists <- both (catch (l <- call (GetOrganizationMemberList org) ;; ret l) (fun _ => ret []))
                (catch (l <- call (GetInvitationList org) ;; ret l) (fun _ => ret [])) ;;
  let '(memberships, invitations) := lists in
  let nonCreators := List.tl (sort_members memberships) in
  let pendingInvitations := List.filter (fun i => String.eqb (invitation_state i) "pending") invitations in
  both (each (fun m => catch (call (DeactivateMembership (member_id m) org) ;; ret tt) (fun _ => ret tt)) nonCreators)
       (each (fun i => catch (call (RevokeOrgInvitation (invitation_id i) org) ;; ret tt) (fun _ => ret tt))
          pendingInvitations) ;;
  ret tt.

(** ** Queries *)

(** [billingSubscriptions.findFirst] by subscription id, with the workspace and
    its billing row. *)
Definition find_subscription (subscriptionId : string) (d : Db) :
    option (BillingSubscription * option (Workspace * option Billing)) :=
  match List.find (fun r => String.eqb (stripeSubscriptionId r) subscriptionId) (billing_subscriptions d) with
  | Some row =>
      Some (row, match workspaces d !! bs_workspaceId row with
                 | Some ws => Some (ws, workspace_billing d !! ws_id ws)
                 | None => None
                 end)
  | None => None
  end.

(** [workspaces.findFirst] of a live workspace, with its billing row and its
    subscription rows. *)
Definition find_workspace (id : string) (d : Db) : option (Workspace * option Billing * list BillingSubscription) :=
  match workspaces d !! id with
  | Some ws =>
      match deletedAtM ws with
      | Some _ => None
      | None => Some (ws, workspace_billing d !! ws_id ws,
                      List.filter (fun r => String.eqb (bs_workspaceId r) (ws_id ws)) (billing_subscriptions d))
      end
  | None => None
  end.

(** ** Classes *)

Section OpsClasses.

Lemma ReadOnly_outbox_row c l : ReadOnly (outbox_row c l).
Proof. unfold outbox_row. effects. Qed.

Lemma NoThrow_outbox_row c l : NoThrow (outbox_row c l).
Proof. unfold outbox_row. effects. Qed.

Lemma ReadOnly_outbox_rows c logs : ReadOnly (outbox_rows c logs).
Proof.
  induction logs as [|log logs IH]; cbn [outbox_rows]; [effects|].
  apply ReadOnly_bind; [apply ReadOnly_outbox_row|intros]. apply ReadOnly_bind; [exact IH|effects].
Qed.

Lemma Atomic_setWorkspaceLimits ws p b u : Atomic (setWorkspaceLimits ws p b u).
Proof. apply Atomic_exec. Qed.

Lemma ReadOnly_deactivate org : ReadOnly (deactivateNonCreatorMemberships org).
Proof.
  unfold deactivateNonCreatorMemberships. apply ReadOnly_bind; [apply ReadOnly_both; effects|].
  intros [memberships invitations]. apply ReadOnly_bind; [|effects].
  apply ReadOnly_both; apply ReadOnly_each; effects.
Qed.

Lemma NoThrow_deactivate org : NoThrow (deactivateNonCreatorMemberships org).
Proof.
  unfold deactivateNonCreatorMemberships. apply NoThrow_bind; [apply NoThrow_both; effects|].
  intros [memberships invitations]. apply NoThrow_bind; [|effects].
  apply NoThrow_both; apply NoThrow_each; effects.
Qed.

Lemma Emits_insertAuditLogs (P : Call -> Prop) logs :
  (forall p, P (NewId p)) -> P DateNow -> (forall rows, P (DbExec (InsertOutbox rows))) -> Emits P (insertAuditLogs logs).
Proof.
  intros Hn Hd Hx. assert (Hrows : forall id, Emits P (outbox_rows id logs)).
  { intros id. induction logs as [|log logs IH]; cbn [outbox_rows]; [apply Emits_ret|]. unfold outbox_row.
    repeat first [exact IH | apply Emits_bind | apply Emits_new_id, Hn | apply Emits_date_now, Hd | apply Emits_ret | intro]. }
  unfold insertAuditLogs. destruct logs as [|log logs']; [apply Emits_ret|].
  apply Emits_bind; [|intros id; apply Emits_bind; [apply Hrows|intros; apply Emits_exec, Hx]].
  destruct (Nat.ltb _ _); [apply Emits_bind; [apply Emits_new_id, Hn|]|]; intros; apply Emits_ret.
Qed.

Lemma Emits_setWorkspaceLimits (P : Call -> Prop) ws p b u :
  (forall v cols, P (DbExec (UpsertLimits ws v cols))) -> Emits P (setWorkspaceLimits ws p b u).
Proof. intros Hp. apply Emits_exec, Hp. Qed.

End OpsClasses.

#[export] Hint Extern 1 (Emits _ (insertAuditLogs _)) => apply Emits_insertAuditLogs; intros; exact I : effects.
#[export] Hint Extern 1 (Emits _ (setWorkspaceLimits _ _ _ _)) => apply Emits_setWorkspaceLimits; intros; exact I : effects.
#[export] Hint Extern 1 (Emits _ (upsertBillingSubscription _ _ _)) => apply Emits_exec; exact I : effects.
#[export] Hint Extern 1 (Emits _ (deleteBillingSubscription _ _)) => apply Emits_exec; exact I : effects.

#[export] Hint Resolve ReadOnly_outbox_row NoThrow_outbox_row ReadOnly_outbox_rows Atomic_setWorkspaceLimits
  ReadOnly_deactivate NoThrow_deactivate : effects.

(** One log is one row, that names its workspace, event, description and actor. *)
Lemma insert_log_ret log env w w' :
  insertAuditLogs [log] env w = (Ret tt, w') ->
  exists row, db w' = apply_stmt (InsertOutbox [row]) (db w) /\ outbox_workspaceId row = log_workspaceId log
    /\ envelope_event (outbox_payload row) = log_event log /\ envelope_description (outbox_payload row) = log_description log
    /\ envelope_actor (outbox_payload row) = log_actor log.
Proof.
  unfold insertAuditLogs. cbn [List.length Nat.ltb Nat.leb]. intros H.
  apply bind_ret in H as (sc & w1 & H1 & H). apply ret_ret in H1 as [-> ->].
  apply bind_ret in H as (rows & w2 & H1 & H).
  assert (Hdb : db w2 = db w) by (eapply read_ret; [|exact H1]; apply ReadOnly_outbox_rows).
  cbn [outbox_rows] in H1. run_in H1. run_in Hr0. unfold outbox_row in Hr. run_in Hr.
  apply exec_ret in H. rewrite Hdb in H. by eexists.
Qed.

(** ** Subscription rows *)

(** The unique key (workspace_id, product) of billing_subscriptions. *)
Definition unique_rows (t : list BillingSubscription) : Prop :=
  forall r r', In r t -> In r' t -> same_key r r' = true -> r = r'.

Section RowFacts.

Lemma same_key_spec row r :
  same_key row r = true <-> bs_workspaceId r = bs_workspaceId row /\ bs_product r = bs_product row.
Proof. unfold same_key. rewrite andb_true_iff, String.eqb_eq, bool_decide_eq_true. done. Qed.

Lemma recorded_compute subs sid :
  (exists r, In r subs /\ bs_product r = compute) ->
  (forall r, In r subs -> bs_product r = compute -> stripeSubscriptionId r = sid) ->
  snd (subscriptionIdsByProduct subs) = Some sid.
Proof.
  unfold subscriptionIdsByProduct. induction subs as [|s subs IH] using rev_ind; [by intros (r & [] & _)|].
  intros (r & Hr & Hp) Hall. rewrite fold_left_app. cbn [List.fold_left].
  destruct (List.fold_left _ subs (None, None)) as [a c]. cbn [snd] in IH.
  destruct (bs_product s) eqn:Es; cbn [snd].
  - apply IH; [|intros r' Hr'; apply Hall, in_or_app; by left].
    apply in_app_iff in Hr as [Hr|[->|[]]]; [by exists r|congruence].
  - f_equal. apply Hall; [|done]. apply in_or_app. right. by left.
Qed.

(** After the upsert the workspace has the row, and no other of the same key. *)
Lemma upsert_subscription_key row t :
  unique_rows t ->
  (forall r, In r t -> stripeSubscriptionId r = stripeSubscriptionId row -> same_key row r = true) ->
  (exists r, In r (upsert_subscription row t) /\ same_key row r = true)
  /\ forall r, In r (upsert_subscription row t) -> same_key row r = true ->
     stripeSubscriptionId r = stripeSubscriptionId row.
Proof.
  intros Hu Hown. unfold upsert_subscription. destruct (existsb _ t) eqn:E1.
  - apply existsb_exists in E1 as (r0 & Hr0 & E0%String.eqb_eq). pose proof (Hown r0 Hr0 E0) as Hk0.
    split; [by exists r0|]. intros r Hr Hk. rewrite <- E0. f_equal. apply Hu; [done|done|].
    apply same_key_spec in Hk as [? ?], Hk0 as [? ?]. apply same_key_spec. split; congruence.
  - destruct (existsb (same_key row) t) eqn:E2.
    + apply existsb_exists in E2 as (r0 & Hr0 & Hk0). split.
      * exists (set_sub_id (stripeSubscriptionId row) r0). split; [|by apply same_key_spec in Hk0; apply same_key_spec].
        apply in_map_iff. exists r0. by rewrite Hk0.
      * intros r Hr Hk. apply in_map_iff in Hr as (r1 & <- & Hr1). destruct (same_key row r1) eqn:E; [done|congruence].
    + split; [exists row; split; [apply in_or_app; right; by left|by apply same_key_spec]|].
      intros r Hr Hk. apply in_app_iff in Hr as [Hr|[<-|[]]]; [|done].
      assert (existsb (same_key row) t = true) by (apply existsb_exists; eauto). congruence.
Qed.

(** A second write of the limits changes nothing. *)
Lemma limits_after_idem plan preserve old :
  limits_after plan preserve no_update (Some (limits_after plan preserve no_update old))
  = limits_after plan preserve no_update old.
Proof. unfold limits_after. destruct preserve, old; reflexivity. Qed.

End RowFacts.
