(* ===== verification/Cookies.v ===== *)
(** * Cookies

    web/apps/dashboard/lib/auth/cookie-security.ts and cookies.ts. [jar] is the cookie
    store that the request sees: a cookie that is set is read back in the same
    request, a cookie that is deleted or set with a maximal age of zero is gone. The
    store may refuse a read or a write (outside a request, or while a page is
    rendered). The options of a cookie are always given. *)

From Stdlib Require Import ZArith Bool Ascii String Lia.
From stdpp Require Import base list gmap strings.
From S2P Require Import Prelude AuthTypes Effects.

Local Open Scope Z_scope.

(** ** Options *)

Definition shouldUseSecureCookies (e : AppEnv) : bool := negb (String.eqb (VERCEL_ENV e) "development").

Definition getDefaultCookieOptions (e : AppEnv) : CookieOptions :=
  {| httpOnly := true; secure := shouldUseSecureCookies e; sameSite := Strict; cookie_path := Some "/"%string;
     maxAge := None |}.

Definition getAuthCookieOptions (e : AppEnv) : CookieOptions :=
  {| httpOnly := true; secure := shouldUseSecureCookies e; sameSite := Lax; cookie_path := Some "/"%string;
     maxAge := None |}.

(** [{ ...options, maxAge }]. *)
Definition with_maxAge (n : Z) (o : CookieOptions) : CookieOptions :=
  {| httpOnly := httpOnly o; secure := secure o; sameSite := sameSite o; cookie_path := cookie_path o; maxAge := Some n |}.

(** ** The store *)

Definition with_jar (j : gmap string string) (w : World) : World :=
  {| db := db w; trace := trace w; cache := cache w; pending := pending w; credits := credits w; jar := j;
     local_org := local_org w |}.

Definition store_cookie (c : Cookie) (j : gmap string string) : gmap string string :=
  if bool_decide (maxAge (cookie_options c) = Some 0) then delete (cookie_name c) j
  else <[cookie_name c := cookie_value c]> j.

(** [cookieStore.get(name)?.value], [.set] and [.delete]. *)
Definition store_get (name : string) : M (option string) := fun _ w => (Ret (jar w !! name), w).
Definition store_set (c : Cookie) : M unit :=
  call (SetCookie c) ;; fun _ w => (Ret tt, with_jar (store_cookie c (jar w)) w).
Definition store_delete (name : string) : M unit :=
  call (DeleteCookie name) ;; fun _ w => (Ret tt, with_jar (delete name (jar w)) w).

Definition cookies_get (name : string) : M (option string) := call ReadCookies ;; store_get name.
Definition deleteCookie (name : string) : M unit := call ReadCookies ;; store_delete name.

(** [request] is the cookie store of the request, when one is given. *)
Definition getCookie (name : string) (request : option (gmap string string)) : M (option string) :=
  match request with
  | Some cookies => ret (cookies !! name)
  | None => cookies_get name
  end.

Definition setCookie (c : Cookie) : M unit := call ReadCookies ;; store_set c.

Fixpoint store_set_all (l : list Cookie) : M unit :=
  match l with [] => ret tt | c :: l' => store_set c ;; store_set_all l' end.

Definition setCookies (cookieList : list Cookie) : M unit := call ReadCookies ;; store_set_all cookieList.

Definition updateCookie (cookieName : string) (value reason : option string) : M unit :=
  match value with
  | Some v =>
      if Js.truthy_string v then
        e <- appEnv ;;
        setCookie {| cookie_name := cookieName; cookie_value := v; cookie_options := getDefaultCookieOptions e |}
      else if Js.truthy reason then deleteCookie cookieName else ret tt
  | None => if Js.truthy reason then deleteCookie cookieName else ret tt
  end.

(** [Math.floor((expiresAt.getTime() - Date.now()) / 1000)]. *)
Definition setSessionCookie (token : string) (expires : Z) : M unit :=
  e <- appEnv ;;
  now <- date_now ;;
  setCookie {| cookie_name := UNKEY_SESSION_COOKIE; cookie_value := token;
               cookie_options := with_maxAge ((expires - now) / 1000) (getAuthCookieOptions e) |}.

Definition setLastUsedOrgCookie (orgId : string) : M unit :=
  setCookie {| cookie_name := UNKEY_LAST_ORG_COOKIE; cookie_value := orgId;
               cookie_options := {| httpOnly := false; secure := true; sameSite := Strict; cookie_path := Some "/"%string;
                                    maxAge := Some (60 * 60 * 24 * 30) |} |}.

(** ** The text of a Set-Cookie header *)

Definition nth_name (l : list string) (n : Z) : string := List.nth (Z.to_nat n) l EmptyString.

(** [new Date(ms).toUTCString()]. *)
Definition toUTCString (ms : Z) : string :=
  if Z.abs ms <=? 8640000000000000 then
    let days := ms / 86400000 in
    let '(y, m, d) := Dates.civil days in
    let t := ms mod 86400000 in
    nth_name ["Sun"; "Mon"; "Tue"; "Wed"; "Thu"; "Fri"; "Sat"]%string ((days + 4) mod 7) +:+ ", "
    +:+ Dates.pad 2 d +:+ " "
    +:+ nth_name ["Jan"; "Feb"; "Mar"; "Apr"; "May"; "Jun"; "Jul"; "Aug"; "Sep"; "Oct"; "Nov"; "Dec"]%string (m - 1)
    +:+ " " +:+ (if y <? 0 then String "-" (Dates.pad 4 (- y)) else Dates.pad 4 y) +:+ " "
    +:+ Dates.pad 2 (t / 3600000) +:+ ":" +:+ Dates.pad 2 (t / 60000 mod 60) +:+ ":" +:+ Dates.pad 2 (t / 1000 mod 60)
    +:+ " GMT"
  else "Invalid Date".

Example toUTCString_leap : toUTCString 1709210096789 = "Thu, 29 Feb 2024 12:34:56 GMT"%string.
Proof. reflexivity. Qed.

Definition sameSite_name (s : SameSite) : string :=
  match s with Strict => "strict" | Lax => "lax" | NoRestriction => "none" end.

(** A field that is not given is [None]. *)
Record PartialOptions := {
  po_httpOnly : option bool;
  po_secure : option bool;
  po_sameSite : option SameSite;
  po_path : option string;
  po_maxAge : option Z;
  po_expiresAt : option Z;
  po_domain : option string;
}.

Definition getCookieOptionsAsString (e : AppEnv) (options : PartialOptions) : string :=
  let d := getDefaultCookieOptions e in
  "Path=" +:+ Js.coalesce (Js.ocoalesce (po_path options) (cookie_path d)) "undefined"
  +:+ (if Js.coalesce (po_httpOnly options) (httpOnly d) then "; HttpOnly" else "")
  +:+ (if Js.coalesce (po_secure options) (secure d) then "; Secure" else "")
  +:+ "; SameSite=" +:+ Str.capitalize (sameSite_name (Js.coalesce (po_sameSite options) (sameSite d)))
  +:+ match po_maxAge options with
      | Some n => "; Max-Age=" +:+ Num.string_of_Z n
      | None => match po_expiresAt options with Some t => "; Expires=" +:+ toUTCString t | None => "" end
      end
  +:+ match po_domain options with
      | Some domain => if Js.truthy_string domain then "; Domain=" +:+ domain else ""
      | None => "" end.

(** [{ ...getAuthCookieOptions(), expiresAt }]. *)
Definition auth_options_until (e : AppEnv) (expires : Z) : PartialOptions :=
  let o := getAuthCookieOptions e in
  {| po_httpOnly := Some (httpOnly o); po_secure := Some (secure o); po_sameSite := Some (sameSite o);
     po_path := cookie_path o; po_maxAge := None; po_expiresAt := Some expires; po_domain := None |}.

(** ** Facts *)

Section StoreFacts.

Context (P : Call -> Prop).

Lemma Emits_store_get n : Emits P (store_get n).
Proof. intros env w. exists []. by rewrite app_nil_r. Qed.

Lemma Emits_cookies_get n : P ReadCookies -> Emits P (cookies_get n).
Proof. intros HP. apply Emits_bind; [by apply Emits_call|]. intros _. apply Emits_store_get. Qed.

Lemma Emits_getCookie n r : P ReadCookies -> Emits P (getCookie n r).
Proof. intros HP. destruct r; [apply Emits_ret|by apply Emits_cookies_get]. Qed.

Lemma Emits_deleteCookie n : P ReadCookies -> P (DeleteCookie n) -> Emits P (deleteCookie n).
Proof.
  intros H1 H2. apply Emits_bind; [by apply Emits_call|]. intros _. apply Emits_bind; [by apply Emits_call|].
  intros _ env w. exists []. by rewrite app_nil_r.
Qed.

End StoreFacts.

Lemma cookies_get_ret n env w o w' : cookies_get n env w = (Ret o, w') -> o = jar w !! n /\ w' = log_call ReadCookies w.
Proof.
  unfold cookies_get, bind, call. cbn [Resp]. destruct (ask env (trace w) ReadCookies) as [e|[]]; [done|]. by intros [= <- <-].
Qed.
