(* ===== verification/Sessions.v ===== *)
(** * Sessions

    web/apps/dashboard/lib/auth/sessions.ts and get-auth.ts. Validation and refresh
    are operations of the authentication provider and arguments here. The headers
    that updateSession returns are the session header and the Set-Cookie lines. The
    server runs in UTC. *)

From Stdlib Require Import ZArith Bool Ascii String Lia.
From stdpp Require Import base list gmap strings.
From S2P Require Import Prelude AuthTypes Effects Cookies.

Local Open Scope Z_scope.

(** ** Dates *)

(** The days since 1970-01-01 of a date; a day past the end of its month counts on. *)
Definition days_of_civil (y m d : Z) : Z :=
  let y' := if m <=? 2 then y - 1 else y in
  let mp := if 2 <? m then m - 3 else m + 9 in
  let yoe := y' mod 400 in
  let doy := (153 * mp + 2) / 5 + d - 1 in
  y' / 400 * 146097 + (yoe * 365 + yoe / 4 - yoe / 100 + doy) - 719468.

(** [date.setFullYear(date.getFullYear() + n)]. *)
Definition add_years (n ms : Z) : Z :=
  let '(y, m, d) := Dates.civil (ms / 86400000) in
  days_of_civil (y + n) m d * 86400000 + ms mod 86400000.

(** [date.setDate(date.getDate() + n)]. *)
Definition add_days (n ms : Z) : Z := ms + n * 86400000.

Example add_years_leap : add_years 10 1709210096789 = 2024829296789 /\ toUTCString 2024829296789 = "Wed, 01 Mar 2034 12:34:56 GMT"%string.
Proof. split; reflexivity. Qed.

(** ** Sessions *)

Record Session_ := {
  s_userId : string;
  s_orgId : option string;
  s_accessToken : option string;
  s_permissions : option (list string);
  s_role : option string;
  s_user : option AuthUser;
  s_impersonator : option Impersonator;
}.

Record SessionResult := {
  result_session : option Session_;
  session_header : option string;
  set_cookie : list string;
}.

Definition no_session (header : option string) (lines : list string) : SessionResult :=
  {| result_session := None; session_header := header; set_cookie := lines |}.

Section Provider.

Context (validateSession : string -> M SessionValidationResult) (refreshSession : string -> M SessionRefreshResult).

Definition localSessionToken : string := "local_session_token".

Definition local_cookie_line : string :=
  UNKEY_SESSION_COOKIE +:+ "=" +:+ localSessionToken +:+ "; Path=/; SameSite=Lax; Max-Age="
  +:+ Num.string_of_Z (60 * 60 * 24 * 365 * 10).

Definition update_local (request : option (gmap string string)) : M SessionResult :=
  sessionToken <- getCookie UNKEY_SESSION_COOKIE request ;;
  lines <- (if Js.truthy sessionToken then ret []
            else catch (now <- date_now ;; setSessionCookie localSessionToken (add_years 10 now) ;; ret [])
                   (fun _ => ret [local_cookie_line])) ;;
  v <- validateSession localSessionToken ;;
  match sv_userId v with
  | Some userId =>
      if negb (isValid v) || negb (Js.truthy_string userId) then ret (no_session (Some localSessionToken) lines)
      else ret {| result_session := Some {| s_userId := userId; s_orgId := sv_orgId v; s_accessToken := None;
                                           s_permissions := sv_permissions v; s_role := sv_role v; s_user := None;
                                           s_impersonator := None |};
                  session_header := Some localSessionToken; set_cookie := lines |}
  | None => ret (no_session (Some localSessionToken) lines)
  end.

Definition refreshed_line (e : AppEnv) (r : SessionRefreshResult) : string :=
  UNKEY_SESSION_COOKIE +:+ "=" +:+ newToken r +:+ "; " +:+ getCookieOptionsAsString e (auth_options_until e (expiresAt r)).

(** The refresh: the new cookie goes to the headers when there is a request or
    when the store refuses it. *)
Definition refresh_session (request : option (gmap string string)) (sessionToken : string) : M SessionResult :=
  r <- refreshSession sessionToken ;;
  e <- appEnv ;;
  lines <- (match request with
            | Some _ => ret [refreshed_line e r]
            | None => catch (setSessionCookie (newToken r) (expiresAt r) ;; ret []) (fun _ => ret [refreshed_line e r])
            end) ;;
  ret {| result_session :=
           option_map (fun s =>
             {| s_userId := sd_userId s; s_orgId := sd_orgId s; s_accessToken := sd_accessToken s;
                s_permissions := sd_permissions s; s_role := sd_role s; s_user := sd_user s;
                s_impersonator := refreshed_impersonator r |}) (refreshed_session r);
         session_header := Some (newToken r); set_cookie := lines |}.

(** The session of a valid token. *)
Definition session_of (v : SessionValidationResult) (userId : string) : Session_ :=
  {| s_userId := userId; s_orgId := sv_orgId v; s_accessToken := sv_accessToken v; s_permissions := sv_permissions v;
     s_role := sv_role v; s_user := sv_user v; s_impersonator := sv_impersonator v |}.

Definition validate_or_refresh (request : option (gmap string string)) (sessionToken : string) : M SessionResult :=
  v <- validateSession sessionToken ;;
  if isValid v && Js.truthy (sv_userId v) then
    ret {| result_session := Some (session_of v (Js.coalesce (sv_userId v) EmptyString));
           session_header := Some sessionToken; set_cookie := [] |}
  else if shouldRefresh v then
    catch (refresh_session request sessionToken) (fun _ => ret (no_session None []))
  else ret (no_session None []).

Definition updateSession (request : option (gmap string string)) : M SessionResult :=
  e <- appEnv ;;
  if String.eqb (AUTH_PROVIDER e) "local" then update_local request
  else
    catch (
      sessionToken <- (match request with
                       | Some _ => getCookie UNKEY_SESSION_COOKIE request
                       | None => catch (getCookie UNKEY_SESSION_COOKIE None) (fun _ => ret None)
                       end) ;;
      match sessionToken with
      | Some t =>
          if Js.truthy_string t then catch (validate_or_refresh request t) (fun _ => ret (no_session None []))
          else ret (no_session None [])
      | None => ret (no_session None [])
      end) (fun _ => ret (no_session None [])).

(** [getAuth] of get-auth.ts: the session, or [None] for the result without a user. *)
Definition getBaseAuth (request : option (gmap string string)) : M (option Session_) :=
  catch (r <- updateSession request ;; ret (result_session r)) (fun _ => ret None).

End Provider.
