(* ===== verification/AuthProvider.v ===== *)
(** * The authentication provider

    web/apps/dashboard/lib/auth/base-provider.ts: the operations every provider has,
    as a class, and the error handling they share. Lists are returned without the
    metadata of their page. *)

From Stdlib Require Import ZArith Bool Ascii String Lia.
From stdpp Require Import base list gmap strings.
From S2P Require Import Prelude AuthTypes Effects Cookies Sessions.

(** [error.message] where [error instanceof Error]. *)
Definition error_message (e : Exn) : option string :=
  match e with
  | StripeError _ _ _ m | TRPCError _ m | ConnectError _ m | OtherError m => Some m
  | WorkosError x => Some (workos_message x)
  | QueryError _ => Some "Failed query"%string
  | SubscriptionScheduleConflictError => Some "Subscription schedule conflict"%string
  | OrganizationScopeError => Some "resource does not belong to this organization"%string
  | NextRedirect _ => Some "NEXT_REDIRECT"%string
  | AuthErrorThrown _ => None
  end.

Definition auth_error (c : AuthErrorCode) (m : string) : AuthErrorResponse :=
  {| err_code := c; err_message := m; err_pending := NotPending; err_cookies := None |}.

(** The response with the message of its code. *)
Definition coded (c : AuthErrorCode) : AuthErrorResponse := auth_error c (errorMessages c).

(** [errorCode in AuthErrorCode]: the message is the name of a code; messages that are
    names of Object.prototype are left out. *)
Definition code_of_name (m : string) : option AuthErrorCode :=
  List.find (fun c => String.eqb (code_name c) m) all_codes.

Definition handleError (e : Exn) : AuthErrorResponse :=
  match error_message e with
  | Some m => match code_of_name m with Some c => coded c | None => auth_error UNKNOWN_ERROR m end
  | None => coded UNKNOWN_ERROR
  end.

(** [throw this.handleError(error)]. *)
Definition rethrow {A} (e : Exn) : M A := throw (AuthErrorThrown (handleError e)).

Record MagicAuthParams := {
  ma_email : string;
  ma_metadata : RequestMetadata;
  ma_radarAuthAttemptId : option string;
  ma_signalsId : option string;
}.

Record SignUpParams := { su_firstName : string; su_lastName : string; su_email : string; su_metadata : RequestMetadata;
                         su_signalsId : option string }.

Record VerifyParams := { vp_email : string; vp_code : string; vp_invitationToken : option string;
                         vp_metadata : RequestMetadata; vp_radarAuthAttemptId : option string; vp_signalsId : option string }.

(** The query parameters and the metadata of an OAuth callback. *)
Record OAuthCallback := { cb_code : option string; cb_state : option string; cb_metadata : RequestMetadata }.

Record OAuthOptions := { oo_redirectUrlComplete : string; oo_github : bool; oo_signalsId : option string }.

Class AuthProvider := {
  validateSession : string -> M SessionValidationResult;
  refreshSession : string -> M SessionRefreshResult;
  signInViaEmail : MagicAuthParams -> M EmailAuthResult;
  verifyAuthCode : VerifyParams -> M VerificationResult;
  verifyEmail : forall code token : string, RequestMetadata -> M VerificationResult;
  resendAuthCode : MagicAuthParams -> M EmailAuthResult;
  signUpViaEmail : SignUpParams -> M EmailAuthResult;
  completeMfaChallenge : forall code challengeId pendingAuthToken : string, RequestMetadata -> M VerificationResult;
  beginMfaEnrollment : forall userId email : string, M MfaEnrollmentStart;
  verifyMfaEnrollment : forall challengeId code : string, M bool;
  listMfaFactors : string -> M (list MfaFactor);
  removeMfaFactor : string -> M unit;
  completeRadarEmailChallenge : forall code radarChallengeId pendingAuthToken : string, RequestMetadata -> M VerificationResult;
  sendRadarSmsCode : forall userId phoneNumber pendingAuthToken : string, RequestMetadata -> M (string * string);
  completeRadarSmsChallenge :
    forall code verificationId phoneNumber pendingAuthToken : string, RequestMetadata -> M VerificationResult;
  getSignOutUrl : M (option string);
  revokeSession : string -> M unit;
  completeOrgSelection : forall orgId pendingAuthToken : string, M VerificationResult;
  signInViaOAuth : OAuthOptions -> M string;
  completeOAuthSignIn : OAuthCallback -> M VerificationResult;
  getUser : string -> M (option AuthUser);
  findUser : string -> M (option AuthUser);
  createTenant : forall name userId : string, M string;
  updateOrg : forall id name : string, M Organization;
  getOrg : string -> M Organization;
  switchOrg : string -> M SessionRefreshResult;
  listMemberships : string -> M (list Membership);
  getOrganizationMemberList : string -> M (list Membership);
  updateMembership : forall membershipId role orgId : string, M Membership;
  removeMembership : forall membershipId orgId : string, M unit;
  deactivateMembership : forall membershipId orgId : string, M unit;
  inviteMember : forall orgId email role : string, M OrgInvitation;
  getInvitationList : string -> M (list OrgInvitation);
  getInvitation : string -> M (option OrgInvitation);
  revokeOrgInvitation : forall invitationId orgId : string, M unit;
  acceptInvitation : string -> M OrgInvitation;
}.

(** ** Facts *)

Lemma code_of_name_name c : code_of_name (code_name c) = Some c.
Proof. by destruct c. Qed.

(** A code survives being thrown as an error. *)
Lemma handleError_code c : handleError (OtherError (code_name c)) = coded c.
Proof. unfold handleError. cbn [error_message]. by rewrite code_of_name_name. Qed.
