(* ===== verification/Workos.v ===== *)
(** * The WorkOS provider

    web/apps/dashboard/lib/auth/workos.ts. Every call to WorkOS may return any answer of
    its type or throw any exception. [parse_state] is what JSON.parse and
    decodeURIComponent make of the state of an OAuth callback: an exception, or the
    redirect target and the signals id where they are strings. [stringify_state] and
    [stringify_challenge] are JSON.stringify on the two objects the provider writes,
    [authorizationUrl] is the URL the client builds. *)

From Stdlib Require Import ZArith Bool Ascii String Lia.
From stdpp Require Import base list gmap strings.
From S2P Require Import Prelude AuthTypes Effects Cookies Sessions AuthProvider Helpers.

Local Open Scope Z_scope.

(** ** encodeURIComponent *)

Definition is_unreserved (c : ascii) : bool := Redirect.is_alnum c || Str.has_char c "-_.!~*'()".

Definition hex_digit (n : nat) : ascii := ascii_of_nat (if (n <? 10)%nat then 48 + n else 55 + n).

Definition percent (n : nat) : string := String "%" (String (hex_digit (n / 16)) (String (hex_digit (n mod 16)) EmptyString)).

(** The UTF-8 encoding of a code unit below 256, percent-encoded where it has to be. *)
Fixpoint encodeURIComponent (s : string) : string :=
  match s with
  | EmptyString => EmptyString
  | String c r =>
      let n := nat_of_ascii c in
      (if is_unreserved c then String c EmptyString
       else if (n <? 128)%nat then percent n
       else percent (192 + n / 64) +:+ percent (128 + n mod 64)) +:+ encodeURIComponent r
  end.

Example encode_path : encodeURIComponent "/acme?a=1 b" = "%2Facme%3Fa%3D1%20b"%string.
Proof. reflexivity. Qed.

Module Workos.

Section Workos.

Context (parse_state : string -> option (option string * option string)).
Context (stringify_state : string -> option string -> string).
Context (stringify_challenge : AuthChallenge -> string).
Context (authorizationUrl : forall (redirectUri provider state : string), string).

(** ** Transformations *)

Definition full_name (firstName lastName : option string) : option string :=
  match firstName, lastName with
  | Some f, Some l => if Js.truthy_string f && Js.truthy_string l then Some (f +:+ " " +:+ l) else None
  | _, _ => None
  end.

Definition transformErrorUserData (u : ProviderUser) : AuthUser :=
  {| au_id := pu_id u; au_email := pu_email u; au_firstName := pu_first_name u; au_lastName := pu_last_name u;
     au_avatarUrl := pu_profile_picture_url u; au_fullName := full_name (pu_first_name u) (pu_last_name u) |}.

Definition transformUserData (u : WorkosUser) : AuthUser :=
  {| au_id := wu_id u; au_email := wu_email u; au_firstName := wu_firstName u; au_lastName := wu_lastName u;
     au_avatarUrl := wu_profilePictureUrl u; au_fullName := full_name (wu_firstName u) (wu_lastName u) |}.

Definition transformOrganizationData (o : WorkosOrganization) : Organization :=
  {| org_id := wo_id o; org_name := wo_name o; org_createdAt := Some (wo_createdAt o); org_updatedAt := Some (wo_updatedAt o) |}.

(** The context is the organization and the inviter, where they are known. *)
Definition transformInvitationData (i : WorkosInvitation) (orgId inviterId : option string) : OrgInvitation :=
  {| inv_id := wi_id i; inv_email := wi_email i; inv_state := wi_state i; inv_acceptedAt := wi_acceptedAt i;
     inv_revokedAt := wi_revokedAt i; inv_expiresAt := wi_expiresAt i; inv_token := wi_token i;
     inv_organizationId := Js.ocoalesce (wi_organizationId i) orgId;
     inv_inviterUserId := Js.ocoalesce (wi_inviterUserId i) inviterId;
     inv_createdAt := wi_createdAt i; inv_updatedAt := wi_updatedAt i |}.

(** ** Cookies of a result *)

Definition PENDING_AUTH_COOKIE_MAX_AGE : Z := 60 * 10.

Definition sessionCookies (e : AppEnv) (sealedSession : string) : list Cookie :=
  let expired := with_maxAge 0 (getAuthCookieOptions e) in
  [{| cookie_name := UNKEY_SESSION_COOKIE; cookie_value := sealedSession; cookie_options := getAuthCookieOptions e |};
   {| cookie_name := AUTH_CHALLENGE_COOKIE; cookie_value := EmptyString; cookie_options := expired |};
   {| cookie_name := RADAR_ATTEMPT_COOKIE; cookie_value := EmptyString; cookie_options := expired |}].

Definition CHALLENGE_CODE_BY_TYPE (t : AuthChallengeType) : AuthErrorCode :=
  match t with
  | Mfa => MFA_CHALLENGE_REQUIRED
  | MfaEnroll => MFA_ENROLLMENT_REQUIRED
  | RadarEmail => RADAR_EMAIL_CHALLENGE_REQUIRED
  | RadarSms => RADAR_SMS_CHALLENGE_REQUIRED
  end.

Definition pendingChallengeResponse (e : AppEnv) (challenge : AuthChallenge) (pendingAuthToken : string) : AuthErrorResponse :=
  let code := CHALLENGE_CODE_BY_TYPE (challenge_type challenge) in
  let options := with_maxAge PENDING_AUTH_COOKIE_MAX_AGE (getAuthCookieOptions e) in
  {| err_code := code; err_message := errorMessages code; err_pending := PendingChallenge (challenge_type challenge);
     err_cookies := Some [{| cookie_name := PENDING_SESSION_COOKIE; cookie_value := pendingAuthToken; cookie_options := options |};
                          {| cookie_name := AUTH_CHALLENGE_COOKIE; cookie_value := stringify_challenge challenge;
                             cookie_options := options |}] |}.

(** ** Errors *)

Definition mapAuthenticationException (error : Exn) : M (option AuthErrorResponse) :=
  match error with
  | WorkosError (AuthenticationException code pending radarChallengeId rawData _) =>
      e <- appEnv ;;
      match pending with
      | None => ret None
      | Some token =>
          if negb (Js.truthy_string token) then ret None
          else if String.eqb code "organization_selection_required" then
            ret (option_map (fun u =>
              {| err_code := ORGANIZATION_SELECTION_REQUIRED; err_message := errorMessages ORGANIZATION_SELECTION_REQUIRED;
                 err_pending := PendingOrgSelection (transformErrorUserData u)
                   (List.map (fun '(id, name) => {| org_id := id; org_name := name; org_createdAt := None; org_updatedAt := None |})
                      (Js.coalesce (raw_organizations rawData) []));
                 err_cookies := Some [{| cookie_name := PENDING_SESSION_COOKIE; cookie_value := token;
                                         cookie_options := getAuthCookieOptions e |}] |}) (raw_user rawData))
          else if String.eqb code "mfa_challenge" then
            match List.find (fun f => String.eqb (snd f) "totp") (Js.coalesce (raw_factors rawData) []) with
            | None => ret None
            | Some (id, _) =>
                challengeId <- call (WorkOS (ChallengeFactor id)) ;;
                ret (Some (pendingChallengeResponse e (ChallengeMfa challengeId) token))
            end
          else if String.eqb code "mfa_enrollment" then
            ret (option_map (fun u => pendingChallengeResponse e (ChallengeMfaEnroll (pu_id u) (pu_email u)) token) (raw_user rawData))
          else if String.eqb code "radar_email_challenge" then
            ret (match radarChallengeId with
                 | Some id => if Js.truthy_string id then Some (pendingChallengeResponse e (ChallengeRadarEmail id) token) else None
                 | None => None end)
          else if String.eqb code "radar_sms_challenge" then
            ret (option_map (fun u => pendingChallengeResponse e (ChallengeRadarSms (pu_id u)) token) (raw_user rawData))
          else ret None
      end
  | _ => ret None
  end.

(** [/radar|blocked|impossible_travel|blocklist|bot_detection/i] on the hints. *)
Definition radar_hint (hints : list (option string)) : bool :=
  let text := Str.to_lower (Str.join " " (List.filter Js.truthy_string (omap id hints))) in
  existsb (fun p => Str.contains p text) ["radar"; "blocked"; "impossible_travel"; "blocklist"; "bot_detection"]%string.

Definition isRadarBlock (error : Exn) : bool :=
  match error with
  | WorkosError (OauthException status err description raw _) => (status =? 403) || radar_hint [err; description; Some raw]
  | WorkosError (GenericServerException status code raw message) => (status =? 403) || radar_hint [code; Some message; Some raw]
  | _ => false
  end.

Definition radarBlockedResponse : AuthErrorResponse := coded AUTHENTICATION_BLOCKED.

Definition mapCodeVerificationError (error : Exn) : option AuthErrorResponse :=
  let message := Str.to_lower (Js.coalesce (error_message error) EmptyString) in
  if negb (Js.truthy_string message) then None
  else if Str.contains "too many" message then Some (coded RATE_ERROR)
  else if Str.contains "incorrect" message || Str.contains "invalid" message || Str.contains "expired" message then
    Some (coded INVALID_CODE)
  else None.

Definition mapAuthError (pending : option AuthErrorResponse) (error : Exn) : AuthErrorResponse :=
  match pending with
  | Some p => p
  | None =>
      if isRadarBlock error then radarBlockedResponse
      else match mapCodeVerificationError error with Some r => r | None => handleError error end
  end.

(** ** Authentication *)

Definition completeAuthentication (authenticate : M (option string)) : M VerificationResult :=
  catch (
    sealedSession <- authenticate ;;
    match sealedSession with
    | Some s =>
        if Js.truthy_string s then e <- appEnv ;; ret (Navigation "/apis" (sessionCookies e s))
        else throw (OtherError "No sealed session returned")
    | None => throw (OtherError "No sealed session returned")
    end)
    (fun error => pending <- mapAuthenticationException error ;; ret (VerificationError (mapAuthError pending error))).

Definition authenticateWith (a : Authenticate) (md : RequestMetadata) : M VerificationResult :=
  completeAuthentication (call (WorkOS (AuthenticateWith a md))).

Definition no_metadata : RequestMetadata := {| md_ipAddress := None; md_userAgent := None |}.

Definition verifyAuthCode (p : VerifyParams) : M VerificationResult :=
  authenticateWith (WithMagicAuth (vp_code p) (vp_email p) (vp_invitationToken p) (vp_radarAuthAttemptId p) (vp_signalsId p))
    (vp_metadata p).

Definition verifyEmail (code token : string) (md : RequestMetadata) : M VerificationResult :=
  authenticateWith (WithEmailVerification code token) md.

Definition completeOrgSelection (orgId pendingAuthToken : string) : M VerificationResult :=
  result <- authenticateWith (WithOrganizationSelection pendingAuthToken orgId) no_metadata ;;
  match result with
  | VerificationError r =>
      if Str.contains "does not belong to" (err_message r) then ret (VerificationError (coded PENDING_SESSION_EXPIRED))
      else ret result
  | Navigation _ _ => ret result
  end.

Definition completeMfaChallenge (code challengeId pendingAuthToken : string) (md : RequestMetadata) : M VerificationResult :=
  authenticateWith (WithTotp code challengeId pendingAuthToken) md.

Definition completeRadarEmailChallenge (code radarChallengeId pendingAuthToken : string) (md : RequestMetadata) : M VerificationResult :=
  authenticateWith (WithRadarEmail code radarChallengeId pendingAuthToken) md.

Definition completeRadarSmsChallenge (code verificationId phoneNumber pendingAuthToken : string) (md : RequestMetadata) : M VerificationResult :=
  authenticateWith (WithRadarSms code verificationId phoneNumber pendingAuthToken) md.

Definition sendRadarSmsCode (userId phoneNumber pendingAuthToken : string) (md : RequestMetadata) : M (string * string) :=
  call (WorkOS (SendRadarSmsChallenge userId phoneNumber pendingAuthToken md)).

(** ** Magic codes *)

Definition sendMagicAuthCode (p : MagicAuthParams) : M EmailAuthResult :=
  radarAuthAttemptId <- call (WorkOS (CreateMagicAuth (ma_email p) (ma_radarAuthAttemptId p) (ma_signalsId p) (ma_metadata p))) ;;
  e <- appEnv ;;
  ret (StateChange (Some
    (match radarAuthAttemptId with
     | Some id => if Js.truthy_string id then
                    [{| cookie_name := RADAR_ATTEMPT_COOKIE; cookie_value := id;
                        cookie_options := with_maxAge PENDING_AUTH_COOKIE_MAX_AGE (getAuthCookieOptions e) |}]
                  else []
     | None => [] end))).

(** [error.errors] holds a detail with the code "email_not_available". *)
Definition email_taken (error : Exn) : bool :=
  match error with
  | WorkosError (WorkosOtherException _ _ (Some errors) _) =>
      existsb (fun c => Js.eq_ostring c "email_not_available") errors
  | _ => false
  end.

(** [error.message], also of a thrown response, and [error.code]. *)
Definition message_text (error : Exn) : string :=
  match error with AuthErrorThrown r => err_message r | _ => Js.coalesce (error_message error) EmptyString end.

Definition error_code (error : Exn) : option string :=
  match error with
  | WorkosError (AuthenticationException code _ _ _ _) => Some code
  | WorkosError (GenericServerException _ code _ _) | WorkosError (WorkosOtherException _ code _ _) => code
  | StripeError _ code _ _ => code
  | TRPCError code _ => Some code
  | AuthErrorThrown r => Some (code_name (err_code r))
  | _ => None
  end.

Definition magic_params (p : SignUpParams) (attempt : option string) : MagicAuthParams :=
  {| ma_email := su_email p; ma_metadata := su_metadata p; ma_radarAuthAttemptId := attempt; ma_signalsId := su_signalsId p |}.

Definition signUpViaEmail (p : SignUpParams) : M EmailAuthResult :=
  catch (
    attempt <- call (WorkOS (CreateUser (su_firstName p) (su_lastName p) (su_email p) (su_signalsId p) (su_metadata p))) ;;
    sendMagicAuthCode (magic_params p attempt))
    (fun error =>
      if isRadarBlock error then ret (EmailAuthError radarBlockedResponse)
      else if email_taken error then
        resent <- catch (
          data <- call (WorkOS (ListUsersByEmail (su_email p))) ;;
          match data with
          | u :: _ => if negb (wu_emailVerified u) then r <- sendMagicAuthCode (magic_params p None) ;; ret (Some r) else ret None
          | [] => ret None
          end) (fun _ => ret None) ;;
        ret (match resent with
             | Some r => r
             | None => EmailAuthError (handleError (OtherError (code_name EMAIL_ALREADY_EXISTS))) end)
      else if Str.contains "email_required" (message_text error) then
        ret (EmailAuthError (handleError (OtherError (code_name INVALID_EMAIL))))
      else if Js.eq_ostring (error_code error) "user_creation_error" then
        ret (EmailAuthError (handleError (OtherError (code_name USER_CREATION_FAILED))))
      else ret (EmailAuthError (handleError error))).

Definition signInViaEmail (p : MagicAuthParams) : M EmailAuthResult :=
  catch (
    data <- call (WorkOS (ListUsersByEmail (ma_email p))) ;;
    match data with
    | [] => ret (EmailAuthError (handleError (OtherError (code_name ACCOUNT_NOT_FOUND))))
    | _ => sendMagicAuthCode {| ma_email := ma_email p; ma_metadata := ma_metadata p; ma_radarAuthAttemptId := None;
                               ma_signalsId := ma_signalsId p |}
    end)
    (fun error => ret (EmailAuthError (if isRadarBlock error then radarBlockedResponse else handleError error))).

Definition resendAuthCode (p : MagicAuthParams) : M EmailAuthResult :=
  catch (sendMagicAuthCode p) (fun error => ret (EmailAuthError (handleError error))).

(** ** Sessions *)

Definition invalid_session (refresh : bool) : SessionValidationResult :=
  {| isValid := false; shouldRefresh := refresh; sv_accessToken := None; sv_permissions := None; sv_userId := None;
     sv_orgId := None; sv_role := None; sv_user := None; sv_impersonator := None |}.

Definition validateSession (sessionToken : string) : M SessionValidationResult :=
  if negb (Js.truthy_string sessionToken) then ret (invalid_session false)
  else
    catch (
      r <- call (WorkOS (SessionAuthenticate sessionToken)) ;;
      match r with
      | Authenticated _ accessToken user organizationId role impersonator =>
          ret {| isValid := true; shouldRefresh := false; sv_accessToken := Some accessToken; sv_permissions := None;
                 sv_userId := Some (wu_id user); sv_orgId := organizationId; sv_role := role;
                 sv_user := Some (transformUserData user); sv_impersonator := impersonator |}
      | NotAuthenticated reason => ret (invalid_session (String.eqb reason INVALID_JWT))
      end) (fun _ => ret (invalid_session true)).

Definition refreshSession (sessionToken : string) : M SessionRefreshResult :=
  if negb (Js.truthy_string sessionToken) then throw (OtherError "No session token provided")
  else
    r <- call (WorkOS (SessionRefreshCall sessionToken None)) ;;
    match r with
    | Refreshed (Some session) sealedSession role =>
        now <- date_now ;;
        if negb (Js.truthy sealedSession) then throw (OtherError "Session refresh failed due to missing sealedSession")
        else ret {| newToken := Js.coalesce sealedSession EmptyString; expiresAt := add_days 7 now;
                    refreshed_session :=
                      Some {| sd_userId := wu_id (rs_user session); sd_orgId := rs_organizationId session;
                              sd_accessToken := Some (rs_accessToken session); sd_permissions := None; sd_role := role;
                              sd_user := Some (transformUserData (rs_user session)) |};
                    refreshed_impersonator := rs_impersonator session |}
    | Refreshed None _ _ => throw (OtherError "Session refresh failed")
    | NotRefreshed reason => throw (OtherError reason)
    end.

Definition switchOrg (newOrgId : string) : M SessionRefreshResult :=
  currentToken <- getCookie UNKEY_SESSION_COOKIE None ;;
  match currentToken with
  | Some token =>
      if negb (Js.truthy_string token) then throw (OtherError "No active session found")
      else
        r <- call (WorkOS (SessionRefreshCall token (Some newOrgId))) ;;
        match r with
        | Refreshed (Some session) (Some sealedSession) _ =>
            if negb (Js.truthy_string sealedSession) then throw (OtherError "Organization switch failed ")
            else
              now <- date_now ;;
              ret {| newToken := sealedSession; expiresAt := add_days 7 now;
                     refreshed_session :=
                       Some {| sd_userId := wu_id (rs_user session); sd_orgId := Some newOrgId;
                               sd_accessToken := Some (rs_accessToken session); sd_permissions := None; sd_role := None;
                               sd_user := None |};
                     refreshed_impersonator := None |}
        | Refreshed _ _ _ => throw (OtherError "Organization switch failed ")
        | NotRefreshed reason => throw (OtherError ("Organization switch failed " +:+ reason))
        end
  | None => throw (OtherError "No active session found")
  end.

Definition getSignOutUrl : M (option string) :=
  token <- getCookie UNKEY_SESSION_COOKIE None ;;
  match token with
  | Some t =>
      if Js.truthy_string t then
        catch (url <- (call (WorkOS (SessionGetLogoutUrl t)) : M string) ;; ret (Some url)) (fun _ => ret None)
      else ret None
  | None => ret None
  end.

Definition revokeSession (sessionToken : string) : M unit :=
  if negb (Js.truthy_string sessionToken) then ret tt
  else
    catch (
      r <- call (WorkOS (SessionAuthenticate sessionToken)) ;;
      match r with
      | Authenticated sessionId _ _ _ _ _ => call (WorkOS (WorkosRevokeSession sessionId)) ;; ret tt
      | NotAuthenticated _ => ret tt
      end) (fun _ => ret tt).

(** ** Users and organizations *)

Definition getUser (userId : string) : M (option AuthUser) :=
  if negb (Js.truthy_string userId) then throw (OtherError "User Id is required.")
  else catch (u <- call (WorkOS (WorkosGetUser userId)) ;; ret (option_map transformUserData u)) (fun _ => ret None).

Definition findUser (email : string) : M (option AuthUser) :=
  if negb (Js.truthy_string email) then throw (OtherError "Email address is required.")
  else catch (data <- call (WorkOS (ListUsersByEmail email)) ;; ret (option_map transformUserData (hd_error data)))
         (fun _ => ret None).

Definition createOrg (name : string) : M Organization :=
  if negb (Js.truthy_string name) then throw (OtherError "Organization name is required.")
  else catch (org <- call (WorkOS (CreateOrganization name)) ;; ret (transformOrganizationData org)) rethrow.

Definition createTenant (name userId : string) : M string :=
  if negb (Js.truthy_string name) || negb (Js.truthy_string userId) then
    throw (OtherError "Organization name and userId are required.")
  else
    catch (
      org <- createOrg name ;;
      membership <- call (WorkOS (CreateOrganizationMembership (org_id org) userId "admin")) ;;
      ret (wm_organizationId membership)) rethrow.

Definition getOrg (orgId : string) : M Organization :=
  if negb (Js.truthy_string orgId) then throw (OtherError "Organization Id is required.")
  else catch (org <- call (WorkOS (GetOrganization orgId)) ;; ret (transformOrganizationData org)) rethrow.

Definition updateOrg (id name : string) : M Organization :=
  if negb (Js.truthy_string id) || negb (Js.truthy_string name) then
    throw (OtherError "Organization id and name are required.")
  else catch (org <- call (WorkOS (UpdateOrganization id name)) ;; ret (transformOrganizationData org)) rethrow.

(** ** Memberships *)

Definition membership_of (m : WorkosMembership) (user : AuthUser) (org : Organization) : Membership :=
  {| ms_id := wm_id m; ms_user := user; ms_organization := org; ms_role := wm_role m; ms_createdAt := wm_createdAt m;
     ms_updatedAt := wm_updatedAt m; ms_status := wm_status m |}.

Definition listMemberships (userId : string) : M (list Membership) :=
  catch (
    r <- both (getUser userId) (call (WorkOS (ListMembershipsOfUser userId))) ;;
    let '(user, memberships) := r in
    match user with
    | None => ret []
    | Some u =>
        ret (List.map (fun m => membership_of m u {| org_id := wm_organizationId m; org_name := wm_organizationName m;
                                                     org_createdAt := None; org_updatedAt := None |}) memberships)
    end) rethrow.

(** [members.data.map(...)]; [userMap] maps an id to the last user with it. *)
Fixpoint members_with (org : Organization) (users : list WorkosUser) (members : list WorkosMembership) : M (list Membership) :=
  match members with
  | [] => ret []
  | m :: members' =>
      match List.find (fun u => String.eqb (wu_id u) (wm_userId m)) (List.rev users) with
      | None => throw (OtherError ("User " +:+ wm_userId m +:+ " not found"))
      | Some u => rest <- members_with org users members' ;; ret (membership_of m (transformUserData u) org :: rest)
      end
  end.

Definition getOrganizationMemberList (orgId : string) : M (list Membership) :=
  if negb (Js.truthy_string orgId) then throw (OtherError "Organization id is required.")
  else
    catch (
      r <- both (getOrg orgId) (both (call (WorkOS (ListMembershipsOfOrganization orgId)))
                                     (call (WorkOS (ListUsersOfOrganization orgId)))) ;;
      let '(org, (members, users)) := r in members_with org users members) rethrow.

(** [error.status === 404]. *)
Definition isNotFoundError (error : Exn) : bool :=
  match error with
  | WorkosError (OauthException status _ _ _ _) | WorkosError (GenericServerException status _ _ _) => status =? 404
  | WorkosError (WorkosOtherException (Some status) _ _ _) => status =? 404
  | _ => false
  end.

Definition assertMembershipInOrg (membershipId orgId : string) : M unit :=
  organizationId <- catch (m <- call (WorkOS (GetOrganizationMembership membershipId)) ;; ret (wm_organizationId m))
    (fun error => if isNotFoundError error then throw OrganizationScopeError else throw error) ;;
  if String.eqb organizationId orgId then ret tt else throw OrganizationScopeError.

Definition assertInvitationInOrg (invitationId orgId : string) : M unit :=
  organizationId <- catch (i <- call (WorkOS (WorkosGetInvitation invitationId)) ;; ret (wi_organizationId i))
    (fun error => if isNotFoundError error then throw OrganizationScopeError else throw error) ;;
  if Js.eq_ostring organizationId orgId then ret tt else throw OrganizationScopeError.

(** The handler that lets an OrganizationScopeError through. *)
Definition rethrow_scoped {A} (error : Exn) : M A :=
  match error with OrganizationScopeError => throw OrganizationScopeError | _ => rethrow error end.

Definition updateMembership (membershipId role orgId : string) : M Membership :=
  if negb (Js.truthy_string membershipId) || negb (Js.truthy_string role) || negb (Js.truthy_string orgId) then
    throw (OtherError "Membership id, role, and organization id are required.")
  else
    catch (
      assertMembershipInOrg membershipId orgId ;;
      membership <- call (WorkOS (UpdateOrganizationMembership membershipId role)) ;;
      related <- both (getOrg (wm_organizationId membership)) (getUser (wm_userId membership)) ;;
      let '(org, user) := related in
      match user with
      | None => throw (OtherError ("User " +:+ wm_userId membership +:+ " not found"))
      | Some u => ret (membership_of membership u org)
      end) rethrow_scoped.

Definition removeMembership (membershipId orgId : string) : M unit :=
  if negb (Js.truthy_string membershipId) || negb (Js.truthy_string orgId) then
    throw (OtherError "Membership id and organization id are required.")
  else
    catch (assertMembershipInOrg membershipId orgId ;; call (WorkOS (DeleteOrganizationMembership membershipId)) ;; ret tt)
      rethrow_scoped.

Definition deactivateMembership (membershipId orgId : string) : M unit :=
  if negb (Js.truthy_string membershipId) || negb (Js.truthy_string orgId) then
    throw (OtherError "Membership id and organization id are required.")
  else
    catch (assertMembershipInOrg membershipId orgId ;; call (WorkOS (DeactivateOrganizationMembership membershipId)) ;; ret tt)
      rethrow_scoped.

(** ** Invitations *)

Definition inviteMember (orgId email role : string) : M OrgInvitation :=
  if negb (Js.truthy_string orgId) || negb (Js.truthy_string email) then
    throw (OtherError "Organization id and email are required.")
  else
    catch (
      session <- getBaseAuth validateSession refreshSession None ;;
      match session with
      | Some s =>
          if negb (Js.truthy_string (s_userId s)) then throw (OtherError "User must be authenticated to invite members.")
          else
            invitation <- call (WorkOS (SendInvitation email orgId role (s_userId s))) ;;
            ret (transformInvitationData invitation (Some orgId) (Some (s_userId s)))
      | None => throw (OtherError "User must be authenticated to invite members.")
      end) rethrow.

Definition getInvitationList (orgId : string) : M (list OrgInvitation) :=
  if negb (Js.truthy_string orgId) then throw (OtherError "Organization Id is required")
  else
    catch (
      data <- call (WorkOS (ListInvitations orgId)) ;;
      ret (List.filter (fun i => String.eqb (inv_state i) "pending" || String.eqb (inv_state i) "expired")
             (List.map (fun i => transformInvitationData i (Some orgId) None) data))) (fun _ => ret []).

Definition getInvitation (invitationToken : string) : M (option OrgInvitation) :=
  if negb (Js.truthy_string invitationToken) then ret None
  else catch (i <- call (WorkOS (FindInvitationByToken invitationToken)) ;; ret (Some (transformInvitationData i None None)))
         (fun _ => ret None).

Definition revokeOrgInvitation (invitationId orgId : string) : M unit :=
  if negb (Js.truthy_string invitationId) || negb (Js.truthy_string orgId) then
    throw (OtherError "Invitation id and organization id are required.")
  else
    catch (assertInvitationInOrg invitationId orgId ;; call (WorkOS (RevokeInvitation invitationId)) ;; ret tt) rethrow_scoped.

Definition acceptInvitation (invitationId : string) : M OrgInvitation :=
  if negb (Js.truthy_string invitationId) then throw (OtherError "Invitation Id is required")
  else catch (i <- call (WorkOS (AcceptInvitation invitationId)) ;; ret (transformInvitationData i None None)) rethrow.

(** ** Factors *)

Definition beginMfaEnrollment (userId email : string) : M MfaEnrollmentStart :=
  catch (
    existing <- call (WorkOS (ListUserAuthFactors userId)) ;;
    each (fun f => call (WorkOS (DeleteFactor (wf_id f))) ;; ret tt)
      (List.filter (fun f => negb (Js.truthy_obj (wf_totp f))) existing)) (fun _ => ret tt) ;;
  call (WorkOS (CreateUserAuthFactor userId email)).

Definition verifyMfaEnrollment (challengeId code : string) : M bool := call (WorkOS (VerifyChallenge challengeId code)).

Definition factor_of (f : WorkosFactor) : MfaFactor :=
  {| factor_id := wf_id f; factor_type := wf_type f;
     factor_issuer := Js.coalesce (wf_totp f ≫= fst) EmptyString; factor_user := Js.coalesce (wf_totp f ≫= snd) EmptyString;
     factor_createdAt := wf_createdAt f |}.

Definition listMfaFactors (userId : string) : M (list MfaFactor) :=
  factors <- call (WorkOS (ListUserAuthFactors userId)) ;;
  ret (List.map factor_of (List.filter (fun f => Js.truthy_obj (wf_totp f)) factors)).

Definition removeMfaFactor (factorId : string) : M unit := call (WorkOS (DeleteFactor factorId)) ;; ret tt.

(** ** OAuth *)

Definition signInViaOAuth (o : OAuthOptions) : M string :=
  e <- appEnv ;;
  let target := Redirect.sanitizeRedirectPath (Some (oo_redirectUrlComplete o)) Redirect.default_fallback in
  let state := encodeURIComponent (stringify_state target (oo_signalsId o)) in
  let redirect := baseUrl e +:+ "/auth/sso-callback" in
  ret (authorizationUrl (Js.coalesce (NEXT_PUBLIC_WORKOS_REDIRECT_URI e) redirect)
         (if oo_github o then "GitHubOAuth" else "GoogleOAuth") state).

(** The redirect target and the signals id in the state; [None] is an exception. *)
Definition parsed_state (state : option string) : option (option string * option string) :=
  match state with
  | Some s => if Js.truthy_string s then parse_state s else Some (None, None)
  | None => Some (None, None)
  end.

Definition email_verification_response (e : AppEnv) (email : option string) (token : string) : AuthErrorResponse :=
  {| err_code := EMAIL_VERIFICATION_REQUIRED; err_message := errorMessages EMAIL_VERIFICATION_REQUIRED;
     err_pending := PendingEmailVerification
       (transformErrorUserData {| pu_id := "UNKNOWN"; pu_email := Js.or_string email EmptyString; pu_first_name := None;
                                  pu_last_name := None; pu_profile_picture_url := None |});
     err_cookies := Some [{| cookie_name := PENDING_SESSION_COOKIE; cookie_value := token;
                             cookie_options := with_maxAge PENDING_AUTH_COOKIE_MAX_AGE (getAuthCookieOptions e) |}] |}.

Definition completeOAuthSignIn (cb : OAuthCallback) : M VerificationResult :=
  match cb_code cb with
  | Some code =>
      if negb (Js.truthy_string code) then ret (VerificationError (handleError (OtherError (code_name MISSING_REQUIRED_FIELDS))))
      else
        catch (
          match parsed_state (cb_state cb) with
          | None => throw (OtherError "SyntaxError")
          | Some (redirectUrlComplete, signalsId) =>
              sealedSession <- call (WorkOS (AuthenticateWith (WithCode code signalsId) (cb_metadata cb))) ;;
              match sealedSession with
              | Some s =>
                  if negb (Js.truthy_string s) then throw (OtherError "No sealed session returned")
                  else
                    e <- appEnv ;;
                    ret (Navigation (Redirect.sanitizeRedirectPath redirectUrlComplete Redirect.default_fallback)
                           (sessionCookies e s))
              | None => throw (OtherError "No sealed session returned")
              end
          end)
          (fun error =>
            e <- appEnv ;;
            let other := (pending <- mapAuthenticationException error ;; ret (VerificationError (mapAuthError pending error))) in
            match error with
            | WorkosError (AuthenticationException code (Some token) _ rawData _) =>
                if String.eqb code "email_verification_required" && Js.truthy_string token
                then ret (VerificationError (email_verification_response e (raw_email rawData) token))
                else other
            | _ => other
            end)
  | None => ret (VerificationError (handleError (OtherError (code_name MISSING_REQUIRED_FIELDS))))
  end.

(** ** The provider *)

Definition workos : AuthProvider := {|
  AuthProvider.validateSession := validateSession;
  AuthProvider.refreshSession := refreshSession;
  AuthProvider.signInViaEmail := signInViaEmail;
  AuthProvider.verifyAuthCode := verifyAuthCode;
  AuthProvider.verifyEmail := verifyEmail;
  AuthProvider.resendAuthCode := resendAuthCode;
  AuthProvider.signUpViaEmail := signUpViaEmail;
  AuthProvider.completeMfaChallenge := completeMfaChallenge;
  AuthProvider.beginMfaEnrollment := beginMfaEnrollment;
  AuthProvider.verifyMfaEnrollment := verifyMfaEnrollment;
  AuthProvider.listMfaFactors := listMfaFactors;
  AuthProvider.removeMfaFactor := removeMfaFactor;
  AuthProvider.completeRadarEmailChallenge := completeRadarEmailChallenge;
  AuthProvider.sendRadarSmsCode := sendRadarSmsCode;
  AuthProvider.completeRadarSmsChallenge := completeRadarSmsChallenge;
  AuthProvider.getSignOutUrl := getSignOutUrl;
  AuthProvider.revokeSession := revokeSession;
  AuthProvider.completeOrgSelection := completeOrgSelection;
  AuthProvider.signInViaOAuth := signInViaOAuth;
  AuthProvider.completeOAuthSignIn := completeOAuthSignIn;
  AuthProvider.getUser := getUser;
  AuthProvider.findUser := findUser;
  AuthProvider.createTenant := createTenant;
  AuthProvider.updateOrg := updateOrg;
  AuthProvider.getOrg := getOrg;
  AuthProvider.switchOrg := switchOrg;
  AuthProvider.listMemberships := listMemberships;
  AuthProvider.getOrganizationMemberList := getOrganizationMemberList;
  AuthProvider.updateMembership := updateMembership;
  AuthProvider.removeMembership := removeMembership;
  AuthProvider.deactivateMembership := deactivateMembership;
  AuthProvider.inviteMember := inviteMember;
  AuthProvider.getInvitationList := getInvitationList;
  AuthProvider.getInvitation := getInvitation;
  AuthProvider.revokeOrgInvitation := revokeOrgInvitation;
  AuthProvider.acceptInvitation := acceptInvitation |}.

End Workos.

End Workos.
