(* ===== verification/Trpc.v ===== *)
(** * tRPC context and middleware

    web/apps/dashboard/lib/trpc/context.ts and trpc.ts, with lib/client-ip.ts. A
    procedure is a function of the context; a middleware passes on the context or
    throws. Logging, SQL comments and error reporting are left out: they pass on
    what the procedure returns or throws. The session is an argument. Inputs are
    those the zod schema of the procedure lets through. *)

From Stdlib Require Import ZArith Bool Ascii String Lia.
From stdpp Require Import base list gmap strings.
From S2P Require Import Prelude Tables StripeTypes DeployPlan AuthTypes Effects Fixtures BillingOps.

Local Open Scope Z_scope.

(** ** The address of the client *)

Module ClientIp.

Local Open Scope string_scope.

Definition IP_HEADERS : list string := ["x-vercel-forwarded-for"; "x-forwarded-for"; "x-real-ip"].

Definition is_digit (c : ascii) : bool := NumFacts.is_digit c.

(** [/^\d+$/]. *)
Definition all_digits (s : string) : bool := negb (String.eqb s "") && Str.all_chars is_digit s.

(** [/^(?::\d+)?$/]. *)
Definition optional_port (s : string) : bool :=
  match s with EmptyString => true | String c r => Ascii.eqb c ":" && all_digits r end.

(** The shortest [acc ++ x] with [s = x ++ "]" ++ port]. *)
Fixpoint up_to_bracket (acc s : string) : option string :=
  match s with
  | EmptyString => None
  | String c r =>
      if Ascii.eqb c "]" && negb (String.eqb acc "") && optional_port r then Some acc
      else up_to_bracket (acc +:+ String c EmptyString) r
  end.

(** [value.match(BRACKETED_IPV6)?.[1]]. *)
Definition bracketed (value : string) : option string :=
  match value with String "[" r => up_to_bracket "" r | _ => None end.

(** [value.match(ADDRESS_WITH_PORT)?.[1]]. *)
Definition address_with_port (value : string) : option string :=
  match Str.split_on ":" value with
  | [address; port] => if negb (String.eqb address "") && all_digits port then Some address else None
  | _ => None
  end.

Definition stripPort (value : string) : string :=
  match bracketed value with
  | Some a => a
  | None => match address_with_port value with Some a => a | None => value end
  end.

(** [headers] is [Headers.get]; [ipSchema] is zod's test for an IP address. *)
Fixpoint first_ip (ipSchema : string -> bool) (headers : string -> option string) (names : list string) : option string :=
  match names with
  | [] => None
  | name :: names' =>
      match headers name with
      | Some value =>
          let candidate := stripPort (Str.trim (Js.coalesce (hd_error (Str.split_on "," value)) "")) in
          if negb (Js.truthy_string value) then first_ip ipSchema headers names'
          else if ipSchema candidate then Some candidate else first_ip ipSchema headers names'
      | None => first_ip ipSchema headers names'
      end
  end.

Definition getClientIp (ipSchema : string -> bool) (headers : string -> option string) : option string :=
  first_ip ipSchema headers IP_HEADERS.

End ClientIp.

(** ** Context *)

(** [ctx.workspace]: the workspace with its billing row flattened. *)
Record CtxWorkspace := {
  cw_id : string;
  cw_name : string;
  cw_orgId : string;
  cw_slug : string;
  cw_tier : string;
  cw_stripeCustomerId : option string;
  cw_stripeSubscriptionId : option string;
  cw_stripeDeploySubscriptionId : option string;
  cw_deployPlan : option string;
  cw_deployPlanOverride : option string;
  (* limits?.teamEnabled *)
  cw_teamEnabled : option bool;
  (* deploySpendBudgetCents, deploySpendBudgetStop, deploySpendSuspended *)
  cw_spend : SpendCap;
}.

(** [profile] is the user of the sealed session. *)
Record CtxUser := { user_id : string; user_profile : option AuthUser }.
Record Tenant := { tenant_id : string; tenant_role : option string }.

Record Context := {
  ctx_user : option CtxUser;
  ctx_workspace : option CtxWorkspace;
  ctx_tenant : option Tenant;
  ctx_location : string;
  ctx_userAgent : option string;
}.

(** What [getAuth] returns for the session of the request. *)
Record AuthResult := {
  auth_userId : option string;
  auth_orgId : option string;
  auth_role : option string;
  auth_user : option AuthUser;
}.

(** [workspaces.findFirst] of the live workspace of an organization; org_id is
    unique. *)
Definition find_by_org (org : string) (d : Db) : option Workspace :=
  List.find (fun ws => String.eqb (orgId ws) org && bool_decide (deletedAtM ws = None))
    (List.map snd (map_to_list (workspaces d))).

Definition ctx_of (d : Db) (ws : Workspace) : CtxWorkspace :=
  let billing := workspace_billing d !! ws_id ws in
  let subs := subscriptionIdsByProduct
                (List.filter (fun r => String.eqb (bs_workspaceId r) (ws_id ws)) (billing_subscriptions d)) in
  {| cw_id := ws_id ws; cw_name := ws_name ws; cw_orgId := orgId ws; cw_slug := ws_slug ws;
     cw_tier := Js.coalesce (billing ≫= tier) "Free"%string;
     cw_stripeCustomerId := billing ≫= stripeCustomerId;
     cw_stripeSubscriptionId := fst subs; cw_stripeDeploySubscriptionId := snd subs;
     cw_deployPlan := billing ≫= plan; cw_deployPlanOverride := billing ≫= planOverride;
     cw_teamEnabled := option_map teamEnabled (limits d !! ws_id ws);
     cw_spend := match billing with Some b => spend b | None => no_spend end |}.

Definition createContext (ipSchema : string -> bool) (auth : AuthResult) (headers : string -> option string) : M Context :=
  ws <- (if Js.truthy (auth_orgId auth) && Js.truthy (auth_userId auth) then
           catch (query (fun d => option_map (ctx_of d) (find_by_org (Js.coalesce (auth_orgId auth) EmptyString) d)))
             (fun _ => ret None)
         else ret None) ;;
  ret {| ctx_user := match auth_userId auth with
                     | Some id => if Js.truthy_string id then Some {| user_id := id; user_profile := auth_user auth |} else None
                     | None => None end;
         ctx_workspace := ws;
         ctx_tenant := match auth_orgId auth with
                       | Some id => if Js.truthy_string id then Some {| tenant_id := id; tenant_role := auth_role auth |}
                                    else None
                       | None => None end;
         ctx_location := Js.coalesce (ClientIp.getClientIp ipSchema headers) "unknown"%string;
         ctx_userAgent := headers "user-agent"%string |}.

(** ** Middleware *)

(** The context of a workspace procedure: user, tenant and workspace are there. *)
Record WCtx := {
  c_user : CtxUser;
  c_tenant : Tenant;
  c_workspace : CtxWorkspace;
  c_location : string;
  c_userAgent : option string;
}.

(** [new TRPCError({ code })] takes the code as its message. *)
Definition UNAUTHORIZED : Exn := TRPCError "UNAUTHORIZED" "UNAUTHORIZED".

Definition requireUser {A} (ctx : Context) (next : CtxUser -> Tenant -> M A) : M A :=
  match ctx_user ctx with
  | Some u =>
      if negb (Js.truthy_string (user_id u)) then throw UNAUTHORIZED
      else next u (Js.coalesce (ctx_tenant ctx) {| tenant_id := user_id u; tenant_role := Some "member"%string |})
  | None => throw UNAUTHORIZED
  end.

Definition requireWorkspace {A} (ctx : Context) (next : CtxWorkspace -> M A) : M A :=
  match ctx_workspace ctx with
  | Some ws => next ws
  | None => throw (TRPCError "NOT_FOUND" "workspace not found in context")
  end.

Definition protectedProcedure {A} (h : CtxUser -> Tenant -> M A) (ctx : Context) : M A := requireUser ctx h.

Definition workspaceProcedure {A} (h : WCtx -> M A) (ctx : Context) : M A :=
  requireUser ctx (fun u t =>
    requireWorkspace ctx (fun ws =>
      h {| c_user := u; c_tenant := t; c_workspace := ws; c_location := ctx_location ctx;
           c_userAgent := ctx_userAgent ctx |})).

Definition is_admin (t : Tenant) : bool := Js.eq_ostring (tenant_role t) "admin".

Definition ADMIN_REQUIRED : Exn := TRPCError "FORBIDDEN" "This action requires admin privileges.".

Definition requireWorkspaceAdmin {A} (h : WCtx -> M A) (c : WCtx) : M A :=
  if is_admin (c_tenant c) then h c else throw ADMIN_REQUIRED.

(** [requireSelf]; [rawInput] is the raw input when it is a string. *)
Definition requireSelf {A} (rawInput : option string) (u : CtxUser) (next : M A) : M A :=
  if Js.eq_ostring rawInput (user_id u) then next else throw (TRPCError "FORBIDDEN" "You can only access your own data").

(** [requireOrgAdmin]; [orgId] is the organization of the raw input. The refusal
    is thrown inside the [try], whose [catch] replaces it; what [next()] rejects
    with is not awaited there. *)
Definition requireOrgAdmin {A} (org : option string) (h : WCtx -> M A) (c : WCtx) : M A :=
  match org with
  | None => throw (TRPCError "BAD_REQUEST" "Organization ID is required")
  | Some org =>
      if negb (Js.truthy_string org) then throw (TRPCError "BAD_REQUEST" "Organization ID is required")
      else if negb (String.eqb org (tenant_id (c_tenant c))) then
        throw (TRPCError "FORBIDDEN" "You do not have access to this organization.")
      else
        admin <- catch (if is_admin (c_tenant c) then ret tt else throw ADMIN_REQUIRED)
                   (fun _ => throw (TRPCError "INTERNAL_SERVER_ERROR" "Failed to verify admin privilege.")) ;;
        h c
  end.

(** The limiters exist when a root key is configured; an error of the service
    counts as success ([onError]). *)
Definition limit_allows (namespace user : string) : M bool :=
  e <- appEnv ;;
  if Js.truthy (UNKEY_ROOT_KEY e) then catch (call (RatelimitLimit namespace user)) (fun _ => ret true) else ret true.

Definition withRatelimit {A} (namespace : string) (h : WCtx -> M A) (c : WCtx) : M A :=
  ok <- limit_allows namespace (user_id (c_user c)) ;;
  if ok : bool then h c
  else throw (TRPCError "TOO_MANY_REQUESTS" "Too many requests in the allowed duration. Please try again").

(** The limits of [withLlmAccess]: the trimmed query is 3 to 120 characters long. *)
Definition MIN_QUERY_LENGTH : nat := 3.
Definition MAX_QUERY_LENGTH : nat := 120.

(** [rawInput] is the [query] of the raw input when it is a string. *)
Definition withLlmAccess {A} (rawInput : option string) (h : string -> WCtx -> M A) (c : WCtx) : M A :=
  ok <- limit_allows "trpc_llm" (user_id (c_user c)) ;;
  if negb (ok : bool) then
    throw (TRPCError "TOO_MANY_REQUESTS" "LLM rate limit exceeded. You can make 10 requests per minute.")
  else
    match rawInput with
    | None => throw (TRPCError "BAD_REQUEST" "Invalid input: expected string, received undefined")
    | Some s =>
        let q := Str.trim s in
        if (String.length q <? MIN_QUERY_LENGTH)%nat then
          throw (TRPCError "BAD_REQUEST" "Query must be at least 3 characters")
        else if (MAX_QUERY_LENGTH <? String.length q)%nat then
          throw (TRPCError "BAD_REQUEST" "Query cannot exceed 120 characters")
        else h q c
    end.

(** The audit context of a procedure. *)
Definition user_actor (c : WCtx) : Actor :=
  {| actor_type := "user"; actor_id := user_id (c_user c); actor_name := None; actor_meta := None |}.

Definition user_log (c : WCtx) (workspaceId event description : string) (resources : list Resource)
    (correlationId : option string) : UnkeyAuditLog :=
  {| log_workspaceId := workspaceId; log_event := event; log_description := description; log_actor := user_actor c;
     log_resources := resources; log_location := c_location c; log_userAgent := c_userAgent c;
     log_correlationId := correlationId |}.

Definition resource (type id : string) (name : option string) : Resource :=
  {| resource_type := type; resource_id := id; resource_name := name; resource_meta := None |}.

(** An administrator of the sample workspace, with the context read from [d]. *)
Definition demo_ctx (d : Db) : WCtx :=
  {| c_user := {| user_id := "user_1"; user_profile := None |};
     c_tenant := {| tenant_id := "org_1"; tenant_role := Some "admin"%string |};
     c_workspace := ctx_of d demo_workspace; c_location := "unknown"; c_userAgent := None |}.

(** ** Facts *)

Section ClientIpFacts.

Context (ipSchema : string -> bool) (headers : string -> option string).

Lemma first_ip_ok names ip : ClientIp.first_ip ipSchema headers names = Some ip -> ipSchema ip = true.
Proof.
  induction names as [|n names IH]; simpl; [done|]. destruct (headers n) as [v|]; [|apply IH].
  destruct (negb _); [apply IH|]. case_match eqn:E; [|apply IH]. by intros [= <-].
Qed.

End ClientIpFacts.

(** A run that only refuses: it throws and leaves the world as it was. *)
Definition refuses {A} (m : M A) (e : Exn) : Prop := forall env w, m env w = (Throw e, w).

Lemma workspaceProcedure_cases {A} (h : WCtx -> M A) (ctx : Context) :
  (exists e, refuses (workspaceProcedure h ctx) e)
  \/ exists c, ctx_workspace ctx = Some (c_workspace c) /\ ctx_user ctx = Some (c_user c)
       /\ (ctx_tenant ctx = Some (c_tenant c) \/ ctx_tenant ctx = None /\ is_admin (c_tenant c) = false)
       /\ c_location c = ctx_location ctx /\ workspaceProcedure h ctx = h c.
Proof.
  unfold workspaceProcedure, requireUser, requireWorkspace. destruct (ctx_user ctx) as [u|]; [|left; by eexists].
  destruct (negb _); [left; by eexists|]. destruct (ctx_workspace ctx) as [ws|]; [|left; by eexists].
  right. exists {| c_user := u; c_workspace := ws; c_location := ctx_location ctx; c_userAgent := ctx_userAgent ctx;
    c_tenant := Js.coalesce (ctx_tenant ctx) {| tenant_id := user_id u; tenant_role := Some "member"%string |} |}.
  simpl. repeat split. destruct (ctx_tenant ctx) as [t|]; [by left|by right].
Qed.

Lemma requireWorkspaceAdmin_refuses {A} (h : WCtx -> M A) c :
  is_admin (c_tenant c) = false -> refuses (requireWorkspaceAdmin h c) ADMIN_REQUIRED.
Proof. intros Ha env w. unfold requireWorkspaceAdmin. by rewrite Ha. Qed.
