(* ===== verification/AuthActions.v ===== *)
(** * Signing in and out

    web/apps/dashboard/lib/auth.ts, lib/auth/utils.ts, lib/auth/cookies-actions.ts and
    the server actions of app/auth/actions.ts, for any provider. [parse_challenge] is
    JSON.parse on the challenge cookie: [None] when it throws or when the value has no
    type of a challenge; the fields of a challenge are strings. [ipSchema] is zod's
    test for an IP address. *)

From Stdlib Require Import ZArith Bool Ascii String Lia.
From stdpp Require Import base list gmap strings.
From S2P Require Import Prelude Helpers StripeTypes AuthTypes Effects Cookies Sessions AuthProvider Workos BillingOps Trpc.

Local Open Scope Z_scope.

(** ** Query strings *)

(** The text of URLSearchParams: letters, digits and [*-._] stay, a space is a plus. *)
Fixpoint form_encode (s : string) : string :=
  match s with
  | EmptyString => EmptyString
  | String c r =>
      let n := nat_of_ascii c in
      (if Redirect.is_alnum c || Str.has_char c "*-._" then String c EmptyString
       else if Ascii.eqb c " " then "+"
       else if (n <? 128)%nat then percent n
       else percent (192 + n / 64) +:+ percent (128 + n mod 64)) +:+ form_encode r
  end.

Definition join_success (org_name : option string) : string :=
  "/join/success?from_invite=true" +:+ match org_name with Some n => "&org_name=" +:+ form_encode n | None => "" end.

(** [redirect(url)] of next/navigation. *)
Definition redirect {A} (url : string) : M A := throw (NextRedirect url).

(** [await headers()]. *)
Definition headers_get : M (string -> option string) :=
  call ReadHeaders ;; fun env w => (Ret (request_headers env), w).

Section Auth.

Context `{P : AuthProvider}.
Context (parse_challenge : string -> option AuthChallenge) (ipSchema : string -> bool).

(** ** lib/auth.ts *)

Definition sign_in_url (currentPath : option string) : string :=
  match currentPath with
  | Some p => if Js.truthy_string p && negb (String.eqb p "/") then "/auth/sign-in?redirect=" +:+ encodeURIComponent p
              else "/auth/sign-in"
  | None => "/auth/sign-in"
  end.

Definition getAuth (request : option (gmap string string)) : M Session_ :=
  authResult <- getBaseAuth validateSession refreshSession request ;;
  match authResult with
  | Some s =>
      if negb (Js.truthy_string (s_userId s)) then
        path <- catch (h <- headers_get ;; ret (h "x-current-path"%string)) (fun _ => ret None) ;; redirect (sign_in_url path)
      else if negb (Js.truthy (s_orgId s)) && negb (Js.truthy (s_role s)) then redirect "/new"
      else ret s
  | None =>
      path <- catch (h <- headers_get ;; ret (h "x-current-path"%string)) (fun _ => ret None) ;; redirect (sign_in_url path)
  end.

(** The user with the organization, the role and the impersonator of the session. *)
Definition getCurrentUser : M (AuthUser * Session_) :=
  s <- getAuth None ;;
  user <- getUser (s_userId s) ;;
  match user with
  | None => redirect "/auth/sign-in"
  | Some u => ret (u, s)
  end.

Definition INVITATION_UNUSABLE : string := "This invitation is no longer valid. Ask for a new one.".
Definition EMAIL_MISMATCH : string := "This invitation was sent to a different email address.".

Definition normalizeEmail (email : string) : string := Str.to_lower (Str.trim email).

(** A date is truthy. *)
Definition switchToOrg (organizationId : string) : M unit :=
  r <- switchOrg organizationId ;;
  if negb (Js.truthy_string (newToken r)) then throw (OtherError "Invalid session data returned from auth provider")
  else
    setSessionCookie (newToken r) (expiresAt r) ;;
    catch (setLastUsedOrgCookie organizationId) (fun _ => ret tt).

Inductive InvitationResult :=
| InvitationAccepted (organizationId : string) (switched : bool)
| InvitationRefused (error : string).

Definition processPostAuthInvitation (invitationToken userId : string) : M InvitationResult :=
  catch (
    invitation <- getInvitation invitationToken ;;
    match invitation with
    | None => ret (InvitationRefused INVITATION_UNUSABLE)
    | Some i =>
        match inv_organizationId i with
        | None => ret (InvitationRefused INVITATION_UNUSABLE)
        | Some organizationId =>
            if negb (Js.truthy_string organizationId) then ret (InvitationRefused INVITATION_UNUSABLE)
            else if negb (String.eqb (inv_state i) "pending") then ret (InvitationRefused INVITATION_UNUSABLE)
            else
              user <- getUser userId ;;
              match user with
              | None => ret (InvitationRefused INVITATION_UNUSABLE)
              | Some u =>
                  if negb (String.eqb (normalizeEmail (au_email u)) (normalizeEmail (inv_email i))) then
                    ret (InvitationRefused EMAIL_MISMATCH)
                  else
                    acceptInvitation (inv_id i) ;;
                    catch (switchToOrg organizationId ;; ret (InvitationAccepted organizationId true))
                      (fun _ => ret (InvitationAccepted organizationId false))
              end
        end
    end) (fun _ => ret (InvitationRefused INVITATION_UNUSABLE)).

(** ** lib/auth/utils.ts and cookies-actions.ts *)

Definition signOut : M unit :=
  sessionToken <- getCookie UNKEY_SESSION_COOKIE None ;;
  (match sessionToken with
   | Some t => if Js.truthy_string t then revokeSession t else ret tt
   | None => ret tt end) ;;
  deleteCookie UNKEY_SESSION_COOKIE ;;
  redirect "/auth/sign-in".

Definition isReadableCookieName (name : string) : bool :=
  String.eqb name PENDING_SESSION_COOKIE || String.eqb name UNKEY_LAST_ORG_COOKIE.

Definition getCookie_action (name : string) : M (option string) :=
  if negb (isReadableCookieName name) then throw (OtherError ("Cookie " +:+ name +:+ " is not readable from the client"))
  else getCookie name None.

(** ** app/auth/actions.ts *)

Definition getRequestMetadata : M RequestMetadata :=
  h <- headers_get ;;
  ret {| md_ipAddress := ClientIp.getClientIp ipSchema h;
         md_userAgent := match h "user-agent"%string with Some u => if Js.truthy_string u then Some u else None | None => None end |}.

(** [x || undefined]. *)
Definition or_undefined (o : option string) : option string := if Js.truthy o then o else None.

Definition getChallengeCookieData : M (option AuthChallenge) :=
  raw <- cookies_get AUTH_CHALLENGE_COOKIE ;;
  ret (or_undefined raw ≫= parse_challenge).

Definition pendingSessionExpired : VerificationResult := VerificationError (coded PENDING_SESSION_EXPIRED).

Definition cookies_of (r : VerificationResult) : option (list Cookie) :=
  match r with Navigation _ l => Some l | VerificationError e => err_cookies e end.

Definition is_success (r : VerificationResult) : bool := match r with Navigation _ _ => true | _ => false end.

Definition set_result_cookies (r : VerificationResult) : M unit :=
  match cookies_of r with Some l => setCookies l | None => ret tt end.

Definition set_email_cookies (r : EmailAuthResult) : M unit :=
  match r with StateChange (Some l) => setCookies l | _ => ret tt end.

Definition signUpViaEmail_action (firstName lastName email : string) (signalsId : option string) : M EmailAuthResult :=
  md <- getRequestMetadata ;;
  result <- signUpViaEmail {| su_firstName := firstName; su_lastName := lastName; su_email := email; su_metadata := md;
                              su_signalsId := signalsId |} ;;
  set_email_cookies result ;;
  ret result.

Definition signInViaEmail_action (email : string) (signalsId : option string) : M EmailAuthResult :=
  md <- getRequestMetadata ;;
  result <- signInViaEmail {| ma_email := email; ma_metadata := md; ma_radarAuthAttemptId := None; ma_signalsId := signalsId |} ;;
  set_email_cookies result ;;
  ret result.

(** The result and the slug of the selected workspace. *)
Definition completeOrgSelection_action (orgId : string) : M (VerificationResult * option string) :=
  tempSession <- cookies_get PENDING_SESSION_COOKIE ;;
  match tempSession with
  | None => ret (pendingSessionExpired, None)
  | Some token =>
      result <- completeOrgSelection orgId token ;;
      match result with
      | Navigation _ l =>
          deleteCookie PENDING_SESSION_COOKIE ;;
          (fix set_each (l : list Cookie) : M unit :=
             match l with [] => ret tt | c :: l' => setCookie c ;; set_each l' end) l ;;
          catch (setLastUsedOrgCookie orgId) (fun _ => ret tt) ;;
          slug <- catch (query (fun d => option_map ws_slug (find_by_org orgId d))) (fun _ => ret None) ;;
          ret (result, slug)
      | VerificationError e =>
          (match err_pending e with
           | PendingChallenge _ => match err_cookies e with Some l => setCookies l | None => throw (OtherError "cookies") end
           | _ => ret tt end) ;;
          ret (result, None)
      end
  end.

(** The organization of an invitation, when there is one. *)
Definition invited_org (invitation : option OrgInvitation) : option string :=
  or_undefined (invitation ≫= inv_organizationId).

(** [auth.getOrg] for the name only. *)
Definition org_name_of (orgId : string) : M (option string) :=
  o <- getOrg orgId ;; ret (or_undefined (Some (org_name o))).

(** The automatic selection of the invited organization; [None] falls through. *)
Definition auto_select (invitation : option OrgInvitation) (result : VerificationResult) : M (option VerificationResult) :=
  match result with
  | VerificationError {| err_code := ORGANIZATION_SELECTION_REQUIRED; err_pending := PendingOrgSelection _ organizations;
                         err_cookies := cookies |} =>
      catch (
        match invited_org invitation, cookies with
        | Some org, Some l =>
            setCookies l ;;
            if existsb (fun o => String.eqb (org_id o) org) organizations then
              r <- completeOrgSelection_action org ;;
              match fst r with
              | Navigation _ _ =>
                  url <- catch (n <- org_name_of org ;;
                                ret (match n with Some _ => join_success n | None => "/apis"%string end))
                           (fun _ => ret "/apis"%string) ;;
                  ret (Some (Navigation url []))
              | VerificationError e =>
                  match err_pending e with PendingChallenge _ => ret (Some (fst r)) | _ => ret None end
              end
            else ret None
        | _, _ => ret None
        end) (fun _ => ret None)
  | _ => ret None
  end.

(** The acceptance after a successful verification; [None] falls through. *)
Definition accept_invited (invitation : option OrgInvitation) : M (option VerificationResult) :=
  catch (
    match invitation, invited_org invitation with
    | Some i, Some org =>
        (if String.eqb (inv_state i) "pending" then catch (acceptInvitation (inv_id i) ;; ret tt) (fun _ => ret tt) else ret tt) ;;
        url <- catch (n <- org_name_of org ;; ret (join_success n)) (fun _ => ret (join_success None)) ;;
        ret (Some (Navigation url []))
    | _, _ => ret None
    end) (fun _ => ret None).

Definition verifyAuthCode_action (email code : string) (invitationToken signalsId : option string) : M VerificationResult :=
  catch (
    invitation <- (match or_undefined invitationToken with
                   | None => ret None
                   | Some token =>
                       i <- catch (getInvitation token) (fun _ => ret None) ;;
                       if Js.eq_ostring (option_map inv_email i) email then ret i else throw (OtherError "Invalid invitation")
                   end) ;;
    md <- getRequestMetadata ;;
    attempt <- cookies_get RADAR_ATTEMPT_COOKIE ;;
    result <- verifyAuthCode {| vp_email := email; vp_code := code; vp_invitationToken := invitationToken; vp_metadata := md;
                                vp_radarAuthAttemptId := or_undefined attempt; vp_signalsId := signalsId |} ;;
    selected <- (if Js.truthy invitationToken then auto_select invitation result else ret None) ;;
    match selected with
    | Some r => ret r
    | None =>
        set_result_cookies result ;;
        accepted <- (if Js.truthy invitationToken && is_success result then accept_invited invitation else ret None) ;;
        ret (match accepted with Some r => r | None => result end)
    end) (fun _ => ret (VerificationError (coded UNKNOWN_ERROR))).

Definition verifyEmail_action (code : string) : M VerificationResult :=
  catch (
    token <- getCookie PENDING_SESSION_COOKIE None ;;
    match or_undefined token with
    | None => ret (VerificationError (coded UNKNOWN_ERROR))
    | Some t =>
        md <- getRequestMetadata ;;
        result <- verifyEmail code t md ;;
        set_result_cookies result ;;
        ret result
    end) (fun _ => ret (VerificationError (coded UNKNOWN_ERROR))).

Definition resendAuthCode_action (email : string) (signalsId : option string) : M EmailAuthResult :=
  e <- appEnv ;;
  if negb (Js.truthy (UNKEY_ROOT_KEY e)) then
    ret (EmailAuthError (auth_error UNKNOWN_ERROR "Service temporarily unavailable. Please try again later."))
  else
    success <- catch (call (RatelimitLimit "resend_code" email)) (fun _ => ret true) ;;
    if negb (success : bool) then
      ret (EmailAuthError (auth_error RATE_ERROR "Sorry we can't send another code. Please contact support"))
    else if negb (Js.truthy_string (Str.trim email)) then
      ret (EmailAuthError (auth_error INVALID_EMAIL "Email address is required."))
    else
      md <- getRequestMetadata ;;
      attempt <- cookies_get RADAR_ATTEMPT_COOKIE ;;
      result <- resendAuthCode {| ma_email := email; ma_metadata := md; ma_radarAuthAttemptId := or_undefined attempt;
                                  ma_signalsId := signalsId |} ;;
      set_email_cookies result ;;
      ret result.

Definition completeOAuthSignIn_action (cb : OAuthCallback) : M VerificationResult :=
  outcome <- catch (
    result <- completeOAuthSignIn cb ;;
    match result with
    | Navigation redirectTo l => setCookies l ;; ret (inl redirectTo)
    | VerificationError _ => ret (inr result)
    end)
    (fun error => ret (inr (VerificationError
       (auth_error UNKNOWN_ERROR (Js.coalesce (error_message error) "Unknown error occurred"%string))))) ;;
  match outcome with
  | inl redirectTo => redirect (Redirect.sanitizeRedirectPath (Some redirectTo) Redirect.default_fallback)
  | inr r => ret r
  end.

Definition getPendingAuthChallenge : M (option AuthChallengeType) :=
  pendingToken <- cookies_get PENDING_SESSION_COOKIE ;;
  if negb (Js.truthy pendingToken) then ret None
  else challenge <- getChallengeCookieData ;; ret (option_map challenge_type challenge).

(** The response leaves out the id of the factor. *)
Definition beginAuthMfaEnrollment : M (AuthErrorResponse + MfaEnrollmentStart) :=
  challenge <- getChallengeCookieData ;;
  match challenge with
  | Some (ChallengeMfaEnroll userId email) =>
      catch (enrollment <- beginMfaEnrollment userId email ;; ret (inr enrollment)) (fun _ => ret (inl (coded UNKNOWN_ERROR)))
  | _ => ret (inl (coded PENDING_SESSION_EXPIRED))
  end.

(** The cookies of the result, and the end of the pending session on success. *)
Definition finish_challenge (result : VerificationResult) : M VerificationResult :=
  set_result_cookies result ;;
  (if is_success result then deleteCookie PENDING_SESSION_COOKIE else ret tt) ;;
  ret result.

Definition completeAuthMfaChallenge (code : string) (challengeId : option string) : M VerificationResult :=
  pendingToken <- cookies_get PENDING_SESSION_COOKIE ;;
  match or_undefined pendingToken with
  | None => ret pendingSessionExpired
  | Some token =>
      challenge <- getChallengeCookieData ;;
      match or_undefined (Js.ocoalesce challengeId (match challenge with Some (ChallengeMfa id) => Some id | _ => None end)) with
      | None => ret pendingSessionExpired
      | Some id =>
          md <- getRequestMetadata ;;
          result <- completeMfaChallenge code id token md ;;
          finish_challenge result
      end
  end.

Definition completeAuthRadarEmailChallenge (code : string) : M VerificationResult :=
  pendingToken <- cookies_get PENDING_SESSION_COOKIE ;;
  challenge <- getChallengeCookieData ;;
  match or_undefined pendingToken, challenge with
  | Some token, Some (ChallengeRadarEmail radarChallengeId) =>
      md <- getRequestMetadata ;;
      result <- completeRadarEmailChallenge code radarChallengeId token md ;;
      finish_challenge result
  | _, _ => ret pendingSessionExpired
  end.

Definition sendAuthRadarSmsCode (phoneNumber : string) : M (AuthErrorResponse + string * string) :=
  pendingToken <- cookies_get PENDING_SESSION_COOKIE ;;
  challenge <- getChallengeCookieData ;;
  match or_undefined pendingToken, challenge with
  | Some token, Some (ChallengeRadarSms userId) =>
      catch (md <- getRequestMetadata ;; r <- sendRadarSmsCode userId phoneNumber token md ;; ret (inr r))
        (fun _ => ret (inl (auth_error UNKNOWN_ERROR
                              "Failed to send the SMS code. Please check the phone number and try again.")))
  | _, _ => ret (inl (coded PENDING_SESSION_EXPIRED))
  end.

Definition completeAuthRadarSmsChallenge (code verificationId phoneNumber : string) : M VerificationResult :=
  pendingToken <- cookies_get PENDING_SESSION_COOKIE ;;
  challenge <- getChallengeCookieData ;;
  match or_undefined pendingToken, challenge with
  | Some token, Some (ChallengeRadarSms _) =>
      md <- getRequestMetadata ;;
      result <- completeRadarSmsChallenge code verificationId phoneNumber token md ;;
      finish_challenge result
  | _, _ => ret pendingSessionExpired
  end.

Definition clearPendingAuth : M unit :=
  deleteCookie PENDING_SESSION_COOKIE ;;
  deleteCookie UNKEY_LAST_ORG_COOKIE ;;
  deleteCookie AUTH_CHALLENGE_COOKIE.

Definition hasPendingSession : M bool :=
  pendingToken <- cookies_get PENDING_SESSION_COOKIE ;; ret (Js.truthy pendingToken).

End Auth.

(** ** Facts *)

Lemma Emits_headers_get (Q : Call -> Prop) : Q ReadHeaders -> Emits Q headers_get.
Proof.
  intros HQ. apply Emits_bind; [by apply Emits_call|]. intros _ env w. exists []. by rewrite app_nil_r.
Qed.

Lemma Emits_getRequestMetadata (Q : Call -> Prop) ipSchema : Q ReadHeaders -> Emits Q (getRequestMetadata ipSchema).
Proof. intros HQ. apply Emits_bind; [by apply Emits_headers_get|]. intros h. apply Emits_ret. Qed.

Lemma Emits_getChallengeCookieData (Q : Call -> Prop) parse : Q ReadCookies -> Emits Q (getChallengeCookieData parse).
Proof. intros HQ. apply Emits_bind; [by apply Emits_cookies_get|]. intros r. apply Emits_ret. Qed.
