(* ===== verification/AuthSafety.v ===== *)
(** * Where session cookies come from

    The actions of AuthActions set the session cookie only to a value that the
    provider issued during the same run, and always with the attributes of a session
    cookie, whether through the cookie store or as a line of the Set-Cookie header. [SoundProvider] states what this needs of a provider; the theorem about the
    actions is proved against it, and [workos_sound] discharges it for WorkOS. *)

From Stdlib Require Import ZArith Bool Ascii String Lia.
From stdpp Require Import base list gmap strings.
From S2P Require Import Prelude Helpers StripeTypes AuthTypes Effects Fixtures Cookies Sessions AuthProvider Workos BillingOps Trpc.
From S2P Require Import AuthActions.

Local Open Scope Z_scope.

(** ** The contract of a provider *)

(** A call that sets no cookie. *)
Definition quiet (c : Call) : Prop := match c with SetCookie _ => False | _ => True end.

(** The operations that end in a verification, the ones that renew a session, the ones
    that send a code, and the ones that only ask. *)
Inductive Verification :=
| VAuthCode (p : VerifyParams)
| VEmail (code token : string) (md : RequestMetadata)
| VOrgSelection (orgId pendingAuthToken : string)
| VMfa (code challengeId pendingAuthToken : string) (md : RequestMetadata)
| VRadarEmail (code radarChallengeId pendingAuthToken : string) (md : RequestMetadata)
| VRadarSms (code verificationId phoneNumber pendingAuthToken : string) (md : RequestMetadata)
| VOAuth (cb : OAuthCallback).

Inductive Renewal := RRefresh (token : string) | RSwitch (orgId : string).

Inductive Mailing := MSignIn (p : MagicAuthParams) | MSignUp (p : SignUpParams) | MResend (p : MagicAuthParams).

Section Contract.

Context `{P : AuthProvider}.

Definition verify (v : Verification) : M VerificationResult :=
  match v with
  | VAuthCode p => verifyAuthCode p
  | VEmail code token md => verifyEmail code token md
  | VOrgSelection orgId t => completeOrgSelection orgId t
  | VMfa code id t md => completeMfaChallenge code id t md
  | VRadarEmail code id t md => completeRadarEmailChallenge code id t md
  | VRadarSms code id phone t md => completeRadarSmsChallenge code id phone t md
  | VOAuth cb => completeOAuthSignIn cb
  end.

Definition renew (r : Renewal) : M SessionRefreshResult :=
  match r with RRefresh t => refreshSession t | RSwitch o => switchOrg o end.

Definition mail (m : Mailing) : M EmailAuthResult :=
  match m with MSignIn p => signInViaEmail p | MSignUp p => signUpViaEmail p | MResend p => resendAuthCode p end.

End Contract.

(** The attributes of a session cookie. *)
Definition session_options (env : Env) (o : CookieOptions) : Prop :=
  httpOnly o = true /\ sameSite o = Lax /\ (VERCEL_ENV (app_env env) <> "development"%string -> secure o = true).

Lemma auth_session_options env o :
  httpOnly o = true -> sameSite o = Lax -> secure o = shouldUseSecureCookies (app_env env) -> session_options env o.
Proof.
  intros H1 H2 H3. split; [done|]. split; [done|]. intros Hv. rewrite H3. unfold shouldUseSecureCookies.
  by destruct (String.eqb_spec (VERCEL_ENV (app_env env)) "development").
Qed.

(** A Set-Cookie line of a session that was issued among the calls [tr], with the
    attributes of a session cookie. *)
Definition session_line (issued : Env -> list Call -> string -> Prop) (env : Env) (tr : list Call) (line : string) : Prop :=
  exists v expires, issued env tr v
    /\ line = "unkey-session=" +:+ v +:+ "; Path=/; HttpOnly"
              +:+ (if String.eqb (VERCEL_ENV (app_env env)) "development" then "" else "; Secure")
              +:+ "; SameSite=Lax; Expires=" +:+ toUTCString expires.

(** A cookie that may be set after the calls [tr]. *)
Definition vouched (issued : Env -> list Call -> string -> Prop) (env : Env) (tr : list Call) (c : Cookie) : Prop :=
  cookie_name c = UNKEY_SESSION_COOKIE -> issued env tr (cookie_value c) /\ session_options env (cookie_options c).

Definition not_session (c : Cookie) : Prop := cookie_name c <> UNKEY_SESSION_COOKIE.

Class SoundProvider (P : AuthProvider) := {
  issued : Env -> list Call -> string -> Prop;
  issued_grows env tr l v : issued env tr v -> issued env (tr ++ l) v;
  quiet_verify v : Emits quiet (verify v);
  quiet_renew r : Emits quiet (renew r);
  quiet_mail m : Emits quiet (mail m);
  quiet_validateSession t : Emits quiet (validateSession t);
  quiet_revokeSession t : Emits quiet (revokeSession t);
  quiet_getUser u : Emits quiet (getUser u);
  quiet_getOrg o : Emits quiet (getOrg o);
  quiet_getInvitation t : Emits quiet (getInvitation t);
  quiet_acceptInvitation i : Emits quiet (acceptInvitation i);
  quiet_beginMfaEnrollment u e : Emits quiet (beginMfaEnrollment u e);
  quiet_sendRadarSmsCode u p t md : Emits quiet (sendRadarSmsCode u p t md);
  verify_vouched v env w r w' :
    verify v env w = (Ret r, w') -> Forall (vouched issued env (trace w')) (Js.coalesce (cookies_of r) []);
  renew_issued r env w s w' : renew r env w = (Ret s, w') -> issued env (trace w') (newToken s);
  mail_cookies m env w l w' : mail m env w = (Ret (StateChange (Some l)), w') -> Forall not_session l;
}.

#[export] Hint Resolve quiet_validateSession quiet_revokeSession quiet_getUser quiet_getOrg quiet_getInvitation
  quiet_acceptInvitation quiet_beginMfaEnrollment quiet_sendRadarSmsCode quiet_mail quiet_verify quiet_renew : effects.

(** ** Runs that only set vouched cookies *)

Section Vouching.

Context {P : AuthProvider} {S : SoundProvider P} (env : Env).

(** Every cookie in the trace was vouched for when it was set. *)
Definition all_vouched (tr : list Call) : Prop :=
  forall pre c post, tr = pre ++ SetCookie c :: post -> vouched issued env pre c.

(** From the trace [tr], [m] keeps to vouched cookies, and its result has [Q]. *)
Definition keeps {A} (tr : list Call) (m : M A) (Q : A -> list Call -> Prop) : Prop :=
  forall w, trace w = tr -> all_vouched tr ->
    exists l, trace (snd (m env w)) = tr ++ l /\ all_vouched (tr ++ l)
              /\ forall a, fst (m env w) = Ret a -> Q a (tr ++ l).

Lemma all_vouched_quiet tr l : all_vouched tr -> Forall quiet l -> all_vouched (tr ++ l).
Proof.
  intros Htr Hl pre c post E. apply app_eq_app in E as (k & [[-> E]|[-> E]]).
  - destruct k as [|x k]; simpl in E.
    + subst l. by inversion Hl.
    + injection E as <- ->. by eapply Htr.
  - subst l. apply Forall_app in Hl as [_ Hl]. by inversion Hl.
Qed.

Lemma vouched_grows tr l c : vouched issued env tr c -> vouched issued env (tr ++ l) c.
Proof. intros H Hn. destruct (H Hn) as [H1 H2]. split; [by apply issued_grows|done]. Qed.

Lemma keeps_quiet {A} tr (m : M A) (Q : A -> list Call -> Prop) :
  Emits quiet m -> (forall w a w', trace w = tr -> m env w = (Ret a, w') -> Q a (trace w')) -> keeps tr m Q.
Proof.
  intros Hm HQ w Hw Hv. destruct (Hm env w) as (l & Hl & Hq). rewrite Hw in Hl. exists l. split; [done|].
  split; [by apply all_vouched_quiet|]. intros a Ha. destruct (m env w) as [o w'] eqn:E. simpl in *. subst o.
  rewrite <- Hl. eauto.
Qed.

Lemma keeps_silent {A} tr (m : M A) : Emits quiet m -> keeps tr m (fun _ _ => True).
Proof. intros Hm. by apply keeps_quiet. Qed.

Lemma keeps_ret {A} tr (a : A) (Q : A -> list Call -> Prop) : Q a tr -> keeps tr (ret a) Q.
Proof. intros HQ w Hw Hv. exists []. rewrite app_nil_r. split; [done|]. split; [done|]. by intros b [= <-]. Qed.

Lemma keeps_throw {A} tr e (Q : A -> list Call -> Prop) : keeps tr (throw e) Q.
Proof. intros w Hw Hv. exists []. rewrite app_nil_r. split; [done|]. by split. Qed.

Lemma keeps_bind {A B} tr (m : M A) (k : A -> M B) Q R :
  keeps tr m Q -> (forall a l, Q a (tr ++ l) -> keeps (tr ++ l) (k a) R) -> keeps tr (bind m k) R.
Proof.
  intros Hm Hk w Hw Hv. unfold bind. destruct (Hm w Hw Hv) as (l & Hl & Hv' & HQ).
  destruct (m env w) as [[a|e] w']; simpl in *; [|by exists l].
  destruct (Hk a l (HQ a eq_refl) w' Hl Hv') as (l' & Hl' & Hv'' & HR).
  exists (l ++ l'). rewrite app_assoc. auto.
Qed.

Lemma keeps_catch {A} tr (m : M A) h Q :
  keeps tr m Q -> (forall e l, keeps (tr ++ l) (h e) Q) -> keeps tr (catch m h) Q.
Proof.
  intros Hm Hh w Hw Hv. unfold catch. destruct (Hm w Hw Hv) as (l & Hl & Hv' & HQ).
  destruct (m env w) as [[a|e] w']; simpl in *; [by exists l|].
  destruct (Hh e l w' Hl Hv') as (l' & Hl' & Hv'' & HR). exists (l ++ l'). rewrite app_assoc. auto.
Qed.

Lemma keeps_weaken {A} tr (m : M A) (Q R : A -> list Call -> Prop) :
  (forall a l, Q a (tr ++ l) -> R a (tr ++ l)) -> keeps tr m Q -> keeps tr m R.
Proof. intros HQR Hm w Hw Hv. destruct (Hm w Hw Hv) as (l & ? & ? & ?). exists l. auto. Qed.

Lemma keeps_store_set tr c : vouched issued env tr c -> keeps tr (store_set c) (fun _ _ => True).
Proof.
  intros Hc w Hw Hv. exists [SetCookie c]. subst tr.
  assert (Ht : trace (snd (store_set c env w)) = trace w ++ [SetCookie c]).
  { unfold store_set, bind, call. cbn [Resp]. by destruct (ask env (trace w) (SetCookie c)). }
  split; [done|]. split; [|done]. intros pre c' post E. apply app_eq_app in E as (k & [[E1 E2]|[E1 E2]]).
  - destruct k as [|x k]; simpl in E2.
    + injection E2 as <- _. rewrite app_nil_r in E1. by subst pre.
    + injection E2 as <- ->. by eapply Hv.
  - destruct k as [|x k]; simpl in E2.
    + injection E2 as <- _. rewrite app_nil_r in E1. by subst pre.
    + injection E2 as _ E2. by destruct k.
Qed.

Lemma keeps_setCookie tr c : vouched issued env tr c -> keeps tr (setCookie c) (fun _ _ => True).
Proof.
  intros Hc. eapply keeps_bind; [apply keeps_silent, Emits_call; exact I|].
  intros _ l _. by apply keeps_store_set, vouched_grows.
Qed.

Lemma keeps_store_set_all l : forall tr, Forall (vouched issued env tr) l -> keeps tr (store_set_all l) (fun _ _ => True).
Proof.
  induction l as [|c l IH]; intros tr Hl; [by apply keeps_ret|]. apply Forall_cons in Hl as [Hc Hl].
  eapply keeps_bind; [by apply keeps_store_set|]. intros _ l' _. apply IH. eapply Forall_impl; [done|].
  intros. by apply vouched_grows.
Qed.

Lemma keeps_setCookies l tr : Forall (vouched issued env tr) l -> keeps tr (setCookies l) (fun _ _ => True).
Proof.
  intros Hl. eapply keeps_bind; [apply keeps_silent, Emits_call; exact I|].
  intros _ l' _. apply keeps_store_set_all. eapply Forall_impl; [done|]. intros. by apply vouched_grows.
Qed.

Lemma not_session_vouched tr c : not_session c -> vouched issued env tr c.
Proof. intros H1 H2. by destruct H1. Qed.

End Vouching.

(** ** The actions *)

Inductive Action :=
| AUpdateSession (request : option (gmap string string))
| AGetCurrentUser
| APostAuthInvitation (invitationToken userId : string)
| ASignOut
| AGetCookie (name : string)
| ASignUpViaEmail (firstName lastName email : string) (signalsId : option string)
| ASignInViaEmail (email : string) (signalsId : option string)
| AVerifyAuthCode (email code : string) (invitationToken signalsId : option string)
| AVerifyEmail (code : string)
| AResendAuthCode (email : string) (signalsId : option string)
| ACompleteOAuthSignIn (cb : OAuthCallback)
| ACompleteOrgSelection (orgId : string)
| AGetPendingAuthChallenge
| ABeginAuthMfaEnrollment
| ACompleteAuthMfaChallenge (code : string) (challengeId : option string)
| ACompleteAuthRadarEmailChallenge (code : string)
| ASendAuthRadarSmsCode (phoneNumber : string)
| ACompleteAuthRadarSmsChallenge (code verificationId phoneNumber : string)
| AClearPendingAuth
| AHasPendingSession.

Section Actions.

Context {P : AuthProvider} (parse_challenge : string -> option AuthChallenge) (ipSchema : string -> bool).

(** The run of an action, with the Set-Cookie lines that it answers. *)
Definition act (a : Action) : M (list string) :=
  match a with
  | AUpdateSession r => res <- updateSession validateSession refreshSession r ;; ret (set_cookie res)
  | AGetCurrentUser => getCurrentUser ;; ret []
  | APostAuthInvitation t u => processPostAuthInvitation t u ;; ret []
  | ASignOut => signOut ;; ret []
  | AGetCookie n => getCookie_action n ;; ret []
  | ASignUpViaEmail f l e s => signUpViaEmail_action ipSchema f l e s ;; ret []
  | ASignInViaEmail e s => signInViaEmail_action ipSchema e s ;; ret []
  | AVerifyAuthCode e c t s => verifyAuthCode_action ipSchema e c t s ;; ret []
  | AVerifyEmail c => verifyEmail_action ipSchema c ;; ret []
  | AResendAuthCode e s => resendAuthCode_action ipSchema e s ;; ret []
  | ACompleteOAuthSignIn cb => completeOAuthSignIn_action cb ;; ret []
  | ACompleteOrgSelection o => completeOrgSelection_action o ;; ret []
  | AGetPendingAuthChallenge => getPendingAuthChallenge parse_challenge ;; ret []
  | ABeginAuthMfaEnrollment => beginAuthMfaEnrollment parse_challenge ;; ret []
  | ACompleteAuthMfaChallenge c i => completeAuthMfaChallenge parse_challenge ipSchema c i ;; ret []
  | ACompleteAuthRadarEmailChallenge c => completeAuthRadarEmailChallenge parse_challenge ipSchema c ;; ret []
  | ASendAuthRadarSmsCode p => sendAuthRadarSmsCode parse_challenge ipSchema p ;; ret []
  | ACompleteAuthRadarSmsChallenge c v p => completeAuthRadarSmsChallenge parse_challenge ipSchema c v p ;; ret []
  | AClearPendingAuth => clearPendingAuth ;; ret []
  | AHasPendingSession => hasPendingSession ;; ret []
  end.

Context {S : SoundProvider P} (env : Env).

(** Any postcondition-free step. *)
Definition safe {A} (m : M A) : Prop := forall tr, keeps env tr m (fun _ _ => True).

Lemma safe_quiet {A} (m : M A) : Emits quiet m -> safe m.
Proof. intros Hm tr. by apply keeps_silent. Qed.

Lemma safe_bind {A B} (m : M A) (k : A -> M B) : safe m -> (forall a, safe (k a)) -> safe (bind m k).
Proof. intros Hm Hk tr. eapply keeps_bind; [apply Hm|]. intros a l _. apply Hk. Qed.

Lemma safe_catch {A} (m : M A) h : safe m -> (forall e, safe (h e)) -> safe (catch m h).
Proof. intros Hm Hh tr. apply keeps_catch; [apply Hm|]. intros e l. apply Hh. Qed.

Lemma safe_verify {A} v (k : VerificationResult -> M A) :
  (forall r tr, Forall (vouched issued env tr) (Js.coalesce (cookies_of r) []) -> keeps env tr (k r) (fun _ _ => True)) ->
  safe (bind (verify v) k).
Proof.
  intros Hk tr. eapply keeps_bind.
  - apply keeps_quiet with (Q := fun r tr' => Forall (vouched issued env tr') (Js.coalesce (cookies_of r) [])); [apply quiet_verify|].
    intros w r w' _ E. by eapply verify_vouched.
  - intros r l Hr. by apply Hk.
Qed.

Lemma safe_renew {A} r (k : SessionRefreshResult -> M A) :
  (forall s tr, issued env tr (newToken s) -> keeps env tr (k s) (fun _ _ => True)) -> safe (bind (renew r) k).
Proof.
  intros Hk tr. eapply keeps_bind.
  - apply keeps_quiet with (Q := fun s tr' => issued env tr' (newToken s)); [apply quiet_renew|].
    intros w s w' _ E. by eapply renew_issued.
  - intros s l Hs. by apply Hk.
Qed.

Lemma safe_mail {A} m (k : EmailAuthResult -> M A) :
  (forall r, (forall l, r = StateChange (Some l) -> Forall not_session l) -> safe (k r)) -> safe (bind (mail m) k).
Proof.
  intros Hk tr. eapply keeps_bind.
  - apply keeps_quiet with (Q := fun r _ => forall l, r = StateChange (Some l) -> Forall not_session l); [apply quiet_mail|].
    intros w r w' _ E l ->. by eapply mail_cookies.
  - intros r l Hr. by apply Hk.
Qed.

Lemma keeps_setSessionCookie tr token expires :
  issued env tr token -> keeps env tr (setSessionCookie token expires) (fun _ _ => True).
Proof.
  intros Hi. eapply keeps_bind.
  - apply keeps_quiet with (Q := fun e tr' => e = app_env env); [effects|]. by intros w e w' _ [= <- <-].
  - intros e l ->. eapply keeps_bind; [apply keeps_silent; effects|]. intros now l' _. apply keeps_setCookie.
    intros _. split; [|by apply auth_session_options]. cbn. by do 2 apply issued_grows.
Qed.

Lemma keeps_result_cookies tr r :
  Forall (vouched issued env tr) (Js.coalesce (cookies_of r) []) -> keeps env tr (set_result_cookies r) (fun _ _ => True).
Proof.
  intros Hr. unfold set_result_cookies. destruct (cookies_of r) as [l|]; [by apply keeps_setCookies|by apply keeps_ret].
Qed.

Lemma safe_lastOrg o : safe (setLastUsedOrgCookie o).
Proof. intros tr. by apply keeps_setCookie, not_session_vouched. Qed.

Lemma safe_email_cookies r : (forall l, r = StateChange (Some l) -> Forall not_session l) -> safe (set_email_cookies r).
Proof.
  intros Hr tr. destruct r as [[l|]|e]; [|by apply keeps_ret..]. apply keeps_setCookies.
  eapply Forall_impl; [by apply Hr|]. intros. by apply not_session_vouched.
Qed.

Lemma quiet_get n : Emits quiet (cookies_get n).
Proof. by apply Emits_cookies_get. Qed.

Lemma quiet_getCookie n r : Emits quiet (getCookie n r).
Proof. by apply Emits_getCookie. Qed.

Lemma quiet_delete n : Emits quiet (deleteCookie n).
Proof. by apply Emits_deleteCookie. Qed.

Lemma quiet_metadata : Emits quiet (getRequestMetadata ipSchema).
Proof. by apply Emits_getRequestMetadata. Qed.

Lemma quiet_headers : Emits quiet headers_get.
Proof. by apply Emits_headers_get. Qed.

Lemma quiet_challenge : Emits quiet (getChallengeCookieData parse_challenge).
Proof. by apply Emits_getChallengeCookieData. Qed.

Hint Resolve quiet_get quiet_getCookie quiet_delete quiet_metadata quiet_headers quiet_challenge : effects.

(** Classifies a computation as safe by its text. *)
Ltac safe_step :=
  match goal with
  | |- forall _, _ => intro
  | |- safe (let _ := _ in _) => cbv zeta
  | |- safe (match ?x with _ => _ end) => destruct x eqn:?
  | |- safe (setLastUsedOrgCookie _) => apply safe_lastOrg
  | |- safe (set_email_cookies _) => apply safe_email_cookies; solve [eauto]
  | |- safe (bind (signUpViaEmail ?p) _) => apply (safe_mail (MSignUp p))
  | |- safe (bind (signInViaEmail ?p) _) => apply (safe_mail (MSignIn p))
  | |- safe (bind (resendAuthCode ?p) _) => apply (safe_mail (MResend p))
  | |- safe _ => solve [apply safe_quiet; unfold redirect; effects]
  | |- safe (bind _ _) => apply safe_bind
  | |- safe (catch _ _) => apply safe_catch
  end.

Ltac safes := repeat safe_step.

Lemma safe_mails a :
  match a with ASignUpViaEmail _ _ _ _ | ASignInViaEmail _ _ | AResendAuthCode _ _ => safe (act a) | _ => True end.
Proof.
  destruct a; try exact I; cbn [act]; unfold signUpViaEmail_action, signInViaEmail_action, resendAuthCode_action; safes.
Qed.

(** What follows a verification keeps to the cookies of its result. *)
Lemma keeps_finish tr r :
  Forall (vouched issued env tr) (Js.coalesce (cookies_of r) []) -> keeps env tr (finish_challenge r) (fun _ _ => True).
Proof.
  intros Hr. eapply keeps_bind; [by apply keeps_result_cookies|]. intros _ l _. eapply keeps_bind; [|intros; by apply keeps_ret].
  destruct (is_success r); [apply keeps_silent, quiet_delete|by apply keeps_ret].
Qed.

Lemma safe_orgSelection o : safe (completeOrgSelection_action o).
Proof.
  apply safe_bind; [apply safe_quiet, quiet_get|]. intros [t|]; [|safes]. apply (safe_verify (VOrgSelection o t)).
  intros r tr Hr. destruct r as [u l|e]; simpl in Hr.
  - eapply keeps_bind; [apply keeps_silent, quiet_delete|]. intros _ l1 _. eapply keeps_bind with (Q := fun _ _ => True).
    + assert (Hl : Forall (vouched issued env (tr ++ l1)) l) by (eapply Forall_impl; [done|]; intros; by apply vouched_grows).
      clear Hr. revert Hl. generalize (tr ++ l1). induction l as [|c l IH]; intros tr' Hl; [by apply keeps_ret|].
      apply Forall_cons in Hl as [Hc Hl]. eapply keeps_bind; [by apply keeps_setCookie|]. intros _ l' _. apply IH.
      eapply Forall_impl; [done|]. intros. by apply vouched_grows.
    + intros _ l2 _. generalize ((tr ++ l1) ++ l2). change (safe (catch (setLastUsedOrgCookie o) (fun _ => ret tt);;
        slug <- catch (query (fun d => option_map ws_slug (find_by_org o d))) (fun _ => ret None) ;; ret (Navigation u l, slug))).
      safes.
  - eapply keeps_bind with (Q := fun _ _ => True); [|intros; by apply keeps_ret].
    destruct (err_pending e); [by apply keeps_ret..|]. destruct (err_cookies e); [by apply keeps_setCookies|apply keeps_throw].
Qed.

Ltac challenge_step :=
  match goal with
  | |- safe (bind (completeMfaChallenge ?c ?i ?t ?m) _) => apply (safe_verify (VMfa c i t m)); intros; by apply keeps_finish
  | |- safe (bind (completeRadarEmailChallenge ?c ?i ?t ?m) _) =>
      apply (safe_verify (VRadarEmail c i t m)); intros; by apply keeps_finish
  | |- safe (bind (completeRadarSmsChallenge ?c ?i ?p ?t ?m) _) =>
      apply (safe_verify (VRadarSms c i p t m)); intros; by apply keeps_finish
  | |- _ => safe_step
  end.

Lemma safe_challenges a :
  match a with
  | ACompleteAuthMfaChallenge _ _ | ACompleteAuthRadarEmailChallenge _ | ACompleteAuthRadarSmsChallenge _ _ _ => safe (act a)
  | _ => True end.
Proof.
  destruct a; try exact I; cbn [act]; (apply safe_bind; [|safes]);
    unfold completeAuthMfaChallenge, completeAuthRadarEmailChallenge, completeAuthRadarSmsChallenge; repeat challenge_step.
Qed.

Lemma safe_verifyEmail c : safe (verifyEmail_action ipSchema c).
Proof.
  apply safe_catch; [|safes]. apply safe_bind; [safes|]. intros t. destruct (or_undefined t) as [token|]; [|safes].
  apply safe_bind; [safes|]. intros md. apply (safe_verify (VEmail c token md)). intros r tr Hr.
  eapply keeps_bind; [by apply keeps_result_cookies|]. intros. by apply keeps_ret.
Qed.

Lemma safe_autoSelect i r : (forall tr, Forall (vouched issued env tr) (Js.coalesce (cookies_of r) []) -> keeps env tr (auto_select i r) (fun _ _ => True)).
Proof.
  intros tr Hr. unfold auto_select. destruct r as [u l|[code m p cs]]; [by apply keeps_ret|].
  destruct code; try by apply keeps_ret. destruct p as [|user orgs| |]; try by apply keeps_ret.
  apply keeps_catch; [|intros; by apply keeps_ret]. destruct (invited_org i) as [org|]; [|by apply keeps_ret].
  destruct cs as [l|]; [|by apply keeps_ret]. eapply keeps_bind; [by apply keeps_setCookies|]. intros _ l1 _.
  generalize (tr ++ l1). match goal with |- forall tr, keeps env tr ?m _ => change (safe m) end.
  destruct (existsb _ orgs); [|safes]. apply safe_bind; [apply safe_orgSelection|]. intros [[u' l'|e] s]; cbn [fst]; unfold org_name_of; safes.
Qed.

Lemma safe_verifyAuthCode e c t sid : safe (verifyAuthCode_action ipSchema e c t sid).
Proof.
  apply safe_catch; [|safes]. apply safe_bind; [safes|]. intros i. apply safe_bind; [safes|]. intros md.
  apply safe_bind; [safes|]. intros a.
  match goal with |- safe (bind (verifyAuthCode ?p) _) => apply (safe_verify (VAuthCode p)) end. intros r tr Hr.
  eapply keeps_bind with (Q := fun _ _ => True).
  - destruct (Js.truthy t); [by apply safe_autoSelect|by apply keeps_ret].
  - intros [r'|] l1 _; [by apply keeps_ret|]. eapply keeps_bind; [apply keeps_result_cookies|].
    + eapply Forall_impl; [done|]. intros. by apply vouched_grows.
    + intros _ l2 _. generalize ((tr ++ l1) ++ l2). match goal with |- forall tr, keeps env tr ?m _ => change (safe m) end.
      unfold accept_invited, org_name_of. safes.
Qed.

Lemma safe_oauth cb : safe (completeOAuthSignIn_action cb).
Proof.
  apply safe_bind; [|safes]. apply safe_catch; [|safes]. apply (safe_verify (VOAuth cb)). intros [u l|e] tr Hr.
  - eapply keeps_bind; [by apply keeps_setCookies|]. intros. by apply keeps_ret.
  - by apply keeps_ret.
Qed.

Lemma safe_switch o : safe (switchToOrg o).
Proof.
  apply (safe_renew (RSwitch o)). intros r tr Hr. destruct (negb _); [apply keeps_throw|].
  eapply keeps_bind; [by apply keeps_setSessionCookie|]. intros _ l _. generalize (tr ++ l).
  match goal with |- forall tr, keeps env tr ?m _ => change (safe m) end. safes.
Qed.

Lemma safe_invitation t u : safe (processPostAuthInvitation t u).
Proof.
  unfold processPostAuthInvitation. apply safe_catch; [|safes]. repeat first [apply safe_switch|safe_step].
Qed.

Lemma keeps_safe {A} (m : M A) tr : safe m -> keeps env tr m (fun _ _ => True).
Proof. intros Hm. apply Hm. Qed.

(** The line of a refreshed session. *)
Lemma refreshed_line_ok tr s : issued env tr (newToken s) -> session_line issued env tr (refreshed_line (app_env env) s).
Proof.
  intros Hs. exists (newToken s), (expiresAt s). split; [done|].
  unfold refreshed_line, getCookieOptionsAsString, auth_options_until, getAuthCookieOptions, shouldUseSecureCookies. cbn.
  destruct (String.eqb _ _); cbn; by rewrite ?StrFacts.string_app_cons, ?StrFacts.string_app_nil.
Qed.

Lemma session_line_grows tr l line : session_line issued env tr line -> session_line issued env (tr ++ l) line.
Proof. intros (v & x & Hi & E). exists v, x. split; [by apply issued_grows|done]. Qed.

(** What a refresh answers. *)
Abbreviation answers_lines := (fun res tr => Forall (session_line issued env tr) (set_cookie res)).

Lemma keeps_refresh r t tr : keeps env tr (refresh_session refreshSession r t) answers_lines.
Proof.
  unfold refresh_session. eapply keeps_bind.
  - apply keeps_quiet with (Q := fun s tr' => issued env tr' (newToken s)); [apply (quiet_renew (RRefresh t))|].
    intros w s w' _ E. by eapply (renew_issued (RRefresh t)).
  - intros s l Hs. eapply keeps_bind.
    { apply keeps_quiet with (Q := fun e _ => e = app_env env); [effects|]. by intros w e w' _ [= <- <-]. }
    intros e l' ->. apply (issued_grows env _ l') in Hs. set (tr1 := (tr ++ l) ++ l') in *.
    assert (Hline : forall l0, Forall (session_line issued env (tr1 ++ l0)) [refreshed_line (app_env env) s]).
    { intros l0. constructor; [|done]. apply session_line_grows. by apply refreshed_line_ok. }
    assert (Hline0 : Forall (session_line issued env tr1) [refreshed_line (app_env env) s]) by (by rewrite <- (app_nil_r tr1)).
    eapply keeps_bind with (Q := fun lines tr => Forall (session_line issued env tr) lines); [|intros lines l1 Hl; by apply keeps_ret].
    destruct r; [by apply keeps_ret|]. apply keeps_catch; [|intros; by apply keeps_ret].
    eapply keeps_bind with (Q := fun _ _ => True); [by apply keeps_setSessionCookie|]. intros. apply keeps_ret. constructor.
Qed.

(** The session of a provider other than the local one. *)
Lemma keeps_updateSession r tr :
  AUTH_PROVIDER (app_env env) <> "local"%string -> keeps env tr (updateSession validateSession refreshSession r) answers_lines.
Proof.
  intros Hp. eapply keeps_bind.
  - apply keeps_quiet with (Q := fun e _ => e = app_env env); [effects|]. by intros w e w' _ [= <- <-].
  - intros e l ->. destruct (String.eqb_spec (AUTH_PROVIDER (app_env env)) "local"); [done|].
    assert (Hno : forall tr h, keeps env tr (ret (no_session h [])) answers_lines) by (intros; apply keeps_ret; constructor).
    apply keeps_catch; [|intros; apply Hno]. eapply keeps_bind with (Q := fun _ _ => True); [apply keeps_safe; safes|].
    intros [t|] l1 _; [|apply Hno]. destruct (Js.truthy_string t); [|apply Hno]. apply keeps_catch; [|intros; apply Hno].
    eapply keeps_bind with (Q := fun _ _ => True); [apply keeps_safe; safes|]. intros v l2 _.
    destruct (isValid v && _); [apply keeps_ret; constructor|]. destruct (shouldRefresh v); [|apply Hno].
    apply keeps_catch; [apply keeps_refresh|intros; apply Hno].
Qed.

Lemma safe_updateSession r :
  AUTH_PROVIDER (app_env env) <> "local"%string -> safe (updateSession validateSession refreshSession r).
Proof. intros Hp tr. eapply keeps_weaken; [|by apply keeps_updateSession]. done. Qed.

(** Only [updateSession] answers lines. *)
Lemma act_lines a w lines w' :
  act a env w = (Ret lines, w') -> lines = [] \/ exists r, a = AUpdateSession r.
Proof.
  destruct a; cbn [act]; intros H; try (by right; eexists); left; apply bind_ret in H as (x & w1 & _ & H);
    by apply ret_ret in H as [-> _].
Qed.

Lemma safe_act a : AUTH_PROVIDER (app_env env) <> "local"%string -> safe (act a).
Proof.
  intros Hp. destruct a; cbn [act].
  - apply safe_bind; [by apply safe_updateSession|safes].
  - apply safe_bind; [|safes]. apply safe_bind; [|safes].
    apply safe_bind; [apply safe_catch; [apply safe_bind; [by apply safe_updateSession|safes]|safes]|]. safes.
  - apply safe_bind; [apply safe_invitation|safes].
  - apply safe_bind; [unfold signOut; safes|safes].
  - unfold getCookie_action. safes.
  - apply (safe_mails (ASignUpViaEmail _ _ _ _)).
  - apply (safe_mails (ASignInViaEmail _ _)).
  - apply safe_bind; [apply safe_verifyAuthCode|safes].
  - apply safe_bind; [apply safe_verifyEmail|safes].
  - apply (safe_mails (AResendAuthCode _ _)).
  - apply safe_bind; [apply safe_oauth|safes].
  - apply safe_bind; [apply safe_orgSelection|safes].
  - unfold getPendingAuthChallenge. safes.
  - unfold beginAuthMfaEnrollment. safes.
  - apply (safe_challenges (ACompleteAuthMfaChallenge _ _)).
  - apply (safe_challenges (ACompleteAuthRadarEmailChallenge _)).
  - unfold sendAuthRadarSmsCode. safes.
  - apply (safe_challenges (ACompleteAuthRadarSmsChallenge _ _ _)).
  - apply safe_bind; [unfold clearPendingAuth; safes|safes].
  - unfold hasPendingSession. safes.
Qed.

End Actions.

(** ** WorkOS *)

(** WorkOS sealed the session [v] in answer to a call among [tr]. *)
Definition workos_issued (env : Env) (tr : list Call) (v : string) : Prop :=
  v <> EmptyString /\ exists pre c post, tr = pre ++ WorkOS c :: post /\
    match c return Exn + WorkosResp c -> Prop with
    | AuthenticateWith _ _ => fun r => r = inr (Some v)
    | SessionRefreshCall _ _ => fun r => exists s role, r = inr (Refreshed (Some s) (Some v) role)
    | _ => fun _ => False
    end (ask env pre (WorkOS c)).

Section WorkosSound.

Context (parse_state : string -> option (option string * option string)) (stringify_state : string -> option string -> string).
Context (stringify_challenge : AuthChallenge -> string) (authorizationUrl : string -> string -> string -> string).

Abbreviation workos := (Workos.workos parse_state stringify_state stringify_challenge authorizationUrl).

Lemma mapException_cookies e env w r w' :
  Workos.mapAuthenticationException stringify_challenge e env w = (Ret (Some r), w') ->
  Forall not_session (Js.coalesce (err_cookies r) []).
Proof.
  assert (Hp : forall a c t, Forall not_session (Js.coalesce (err_cookies (Workos.pendingChallengeResponse stringify_challenge a c t)) [])).
  { intros. by repeat constructor. }
  unfold Workos.mapAuthenticationException. destruct e as [| | | | |x| | | |]; try done. destruct x as [code pend radar raw m| | | |]; try done.
  intros H. apply bind_ret in H as (a & w1 & _ & H). destruct pend as [token|]; [|by injection H].
  repeat case_match; unfold ret in H; try (by injection H); 
    try (destruct (raw_user raw); [injection H as <- <-; by repeat constructor|by injection H]).
  - apply bind_ret in H as (cid & w2 & _ & H). unfold ret in H. by injection H as <- <-.
  - by injection H as <- <-.
Qed.

Lemma plain_cookies e : err_cookies (handleError e) = None.
Proof. unfold handleError, coded, auth_error. by repeat case_match. Qed.

(** A failed verification sets no session cookie. *)
Lemma failed_cookies e env tr w o w' :
  Workos.mapAuthenticationException stringify_challenge e env w = (Ret o, w') ->
  Forall (vouched workos_issued env tr) (Js.coalesce (err_cookies (Workos.mapAuthError o e)) []).
Proof.
  intros H. assert (Hn : Forall not_session (Js.coalesce (err_cookies (Workos.mapAuthError o e)) [])).
  { destruct o as [p|]; [by eapply mapException_cookies|]. cbn. unfold Workos.mapCodeVerificationError.
    repeat case_match; simplify_eq; rewrite ?plain_cookies; by constructor. }
  eapply Forall_impl; [exact Hn|]. intros c Hc Hs. by destruct Hc.
Qed.

(** A sealed session that was answered last. *)
Lemma sealed_vouched a md env w v :
  ask env (trace w) (WorkOS (AuthenticateWith a md)) = inr (Some v) -> Js.truthy_string v = true ->
  Forall (vouched workos_issued env (trace w ++ [WorkOS (AuthenticateWith a md)])) (Workos.sessionCookies (app_env env) v).
Proof.
  intros Ea Ev. apply Forall_cons. split; [|by repeat constructor]. intros _. split; [|by apply auth_session_options].
  split; [cbn; by intros E; rewrite E in Ev|]. exists (trace w), (AuthenticateWith a md), []. by rewrite Ea.
Qed.

Lemma authenticateWith_vouched a md env w r w' :
  Workos.authenticateWith stringify_challenge a md env w = (Ret r, w') ->
  Forall (vouched workos_issued env (trace w')) (Js.coalesce (cookies_of r) []).
Proof.
  intros H. apply catch_ret in H as [H|(e & w1 & _ & H)].
  - apply bind_ret in H as (o & w1 & H1 & H). unfold call in H1. cbn [Resp WorkosResp] in H1.
    destruct (ask env (trace w) (WorkOS (AuthenticateWith a md))) as [x|o'] eqn:Ea; [done|]. injection H1 as <- <-.
    destruct o' as [v|]; [|done]. destruct (Js.truthy_string v) eqn:Ev; [|done].
    apply bind_ret in H as (ae & w2 & [= <- <-] & [= <- <-]). by apply sealed_vouched.
  - apply bind_ret in H as (o & w2 & H1 & [= <- <-]). by eapply failed_cookies.
Qed.

Lemma orgSelection_vouched o t env w r w' :
  Workos.completeOrgSelection stringify_challenge o t env w = (Ret r, w') ->
  Forall (vouched workos_issued env (trace w')) (Js.coalesce (cookies_of r) []).
Proof.
  intros H. apply bind_ret in H as (r1 & w1 & H1 & H). apply authenticateWith_vouched in H1.
  destruct r1 as [u l|e]; [by injection H as <- <-|]. destruct (Str.contains _ _); injection H as <- <-; [by constructor|done].
Qed.

Lemma oauth_vouched cb env w r w' :
  Workos.completeOAuthSignIn parse_state stringify_challenge cb env w = (Ret r, w') ->
  Forall (vouched workos_issued env (trace w')) (Js.coalesce (cookies_of r) []).
Proof.
  unfold Workos.completeOAuthSignIn. destruct (cb_code cb) as [code|]; [|intros [= <- <-]; by rewrite ?plain_cookies; constructor].
  destruct (negb _); [intros [= <- <-]; by constructor|]. intros H. apply catch_ret in H as [H|(e & w1 & _ & H)].
  - destruct (Workos.parsed_state _ _) as [[u sid]|]; [|done]. apply bind_ret in H as (o & w1 & H1 & H).
    unfold call in H1. cbn [Resp WorkosResp] in H1.
    destruct (ask env (trace w) _) as [x|o'] eqn:Ea; [done|]. injection H1 as <- <-.
    destruct o' as [v|]; [|done]. destruct (Js.truthy_string v) eqn:Ev; [|done].
    apply bind_ret in H as (ae & w2 & [= <- <-] & [= <- <-]). by apply sealed_vouched.
  - apply bind_ret in H as (ae & w2 & _ & H).
    assert (Hm : forall w w', (pending <- Workos.mapAuthenticationException stringify_challenge e ;;
        ret (VerificationError (Workos.mapAuthError pending e))) env w = (Ret r, w') ->
      Forall (vouched workos_issued env (trace w')) (Js.coalesce (cookies_of r) [])).
    { clear H. intros w3 w3' H. apply bind_ret in H as (o & w4 & H1 & [= <- <-]). by eapply failed_cookies. }
    cbv zeta in H. repeat case_match; first [by eapply Hm|injection H as <- <-; repeat constructor; done].
Qed.

Lemma renew_refresh_issued t env w s w' :
  Workos.refreshSession t env w = (Ret s, w') -> workos_issued env (trace w') (newToken s).
Proof.
  unfold Workos.refreshSession. destruct (negb _); [done|]. intros H. apply bind_ret in H as (r & w1 & H1 & H).
  unfold call in H1. cbn [Resp WorkosResp] in H1. destruct (ask env (trace w) _) as [x|r'] eqn:Ea; [done|]. injection H1 as <- <-.
  destruct r' as [[rs|] sealed role|reason]; [|done..]. apply bind_ret in H as (now & w2 & [= <- <-] & H).
  destruct sealed as [v|]; [|done]. cbn in H. destruct (Js.truthy_string v) eqn:Ev; [|done]. injection H as <- <-. cbn.
  split; [by intros ->|]. exists (trace w), (SessionRefreshCall t None), [DateNow]. rewrite <- app_assoc, Ea. eauto.
Qed.

Lemma renew_switch_issued o env w s w' :
  Workos.switchOrg o env w = (Ret s, w') -> workos_issued env (trace w') (newToken s).
Proof.
  intros H. apply bind_ret in H as (t & w1 & _ & H). destruct t as [t|]; [|done]. destruct (negb _); [done|].
  apply bind_ret in H as (r & w2 & H1 & H). unfold call in H1. cbn [Resp WorkosResp] in H1.
  destruct (ask env (trace w1) _) as [x|r'] eqn:Ea; [done|]. injection H1 as <- <-.
  destruct r' as [[rs|] [v|] role|reason]; [|done..]. destruct (Js.truthy_string v) eqn:Ev; [|done].
  apply bind_ret in H as (now & w3 & [= <- <-] & [= <- <-]). cbn. split; [by intros ->|].
  exists (trace w1), (SessionRefreshCall t (Some o)), [DateNow]. rewrite <- app_assoc, Ea. eauto.
Qed.

Lemma magic_cookies p env w l w' :
  Workos.sendMagicAuthCode p env w = (Ret (StateChange (Some l)), w') -> Forall not_session l.
Proof.
  intros H. apply bind_ret in H as (a & w1 & _ & H). apply bind_ret in H as (e & w2 & _ & H).
  unfold ret in H. injection H as <- _. repeat case_match; by repeat constructor.
Qed.

Lemma signUp_cookies p env w l w' :
  Workos.signUpViaEmail p env w = (Ret (StateChange (Some l)), w') -> Forall not_session l.
Proof.
  intros H. apply catch_ret in H as [H|(e & w1 & _ & H)].
  - apply bind_ret in H as (a & w1 & _ & H). by eapply magic_cookies.
  - destruct (Workos.isRadarBlock e); [done|]. destruct (Workos.email_taken e); [|by repeat case_match].
    apply bind_ret in H as (a & w2 & H1 & H). unfold ret in H. destruct a as [r|]; [|done].
    injection H as -> _. apply catch_ret in H1 as [H1|(e' & w3 & _ & H1)]; [|done].
    apply bind_ret in H1 as (d & w4 & _ & H1). destruct d as [|u d]; [done|]. destruct (negb _); [|done].
    apply bind_ret in H1 as (r & w5 & H1 & [= -> <-]). by eapply magic_cookies.
Qed.

Lemma signIn_cookies p env w l w' :
  Workos.signInViaEmail p env w = (Ret (StateChange (Some l)), w') -> Forall not_session l.
Proof.
  intros H. apply catch_ret in H as [H|(e & w1 & _ & H)]; [|by injection H].
  apply bind_ret in H as (d & w1 & _ & H). destruct d; [done|]. by eapply magic_cookies.
Qed.

Lemma quiet_workos (c : WorkosCall) : Emits quiet (call (WorkOS c)).
Proof. exact (Emits_call quiet (WorkOS c) I). Qed.

Lemma quiet_mapException e : Emits quiet (Workos.mapAuthenticationException stringify_challenge e).
Proof. unfold Workos.mapAuthenticationException. effects; exact (quiet_workos _). Qed.

Lemma quiet_authenticateWith a md : Emits quiet (Workos.authenticateWith stringify_challenge a md).
Proof.
  unfold Workos.authenticateWith, Workos.completeAuthentication. effects.
  - exact (quiet_workos _).
  - apply quiet_mapException.
Qed.

#[local] Hint Extern 1 (Emits quiet (call (WorkOS ?c))) => exact (quiet_workos c) : effects.
#[local] Hint Resolve quiet_mapException quiet_authenticateWith : effects.

Lemma workos_quiet_verify v : Emits quiet (verify (P := workos) v).
Proof.
  destruct v; cbn; try apply quiet_authenticateWith; [unfold Workos.completeOrgSelection; effects|].
  unfold Workos.completeOAuthSignIn; effects.
Qed.

Lemma workos_quiet_renew r : Emits quiet (renew (P := workos) r).
Proof. destruct r; cbn; unfold Workos.refreshSession, Workos.switchOrg; effects; first [by apply Emits_cookies_get|by apply Emits_getCookie]. Qed.

Lemma workos_quiet_mail m : Emits quiet (mail (P := workos) m).
Proof. destruct m; cbn; unfold Workos.signInViaEmail, Workos.signUpViaEmail, Workos.resendAuthCode, Workos.sendMagicAuthCode; effects. Qed.

Lemma workos_verify_vouched v env w r w' :
  verify (P := workos) v env w = (Ret r, w') -> Forall (vouched workos_issued env (trace w')) (Js.coalesce (cookies_of r) []).
Proof. destruct v; cbn; intros H; first [by eapply authenticateWith_vouched|by eapply orgSelection_vouched|by eapply oauth_vouched]. Qed.

Lemma workos_mail_cookies m env w l w' : mail (P := workos) m env w = (Ret (StateChange (Some l)), w') -> Forall not_session l.
Proof.
  destruct m; cbn; intros H; [by eapply signIn_cookies|by eapply signUp_cookies|].
  apply catch_ret in H as [H|(e & w1 & _ & H)]; [by eapply magic_cookies|by injection H].
Qed.

Lemma workos_renew_issued r env w s w' : renew (P := workos) r env w = (Ret s, w') -> workos_issued env (trace w') (newToken s).
Proof. destruct r; cbn; intros H; [by eapply renew_refresh_issued|by eapply renew_switch_issued]. Qed.

Lemma workos_issued_grows env tr l v : workos_issued env tr v -> workos_issued env (tr ++ l) v.
Proof. intros [Hv (pre & c & post & -> & Hc)]. split; [done|]. exists pre, c, (post ++ l). by rewrite <- app_assoc. Qed.

#[export] Instance workos_sound : SoundProvider workos.
Proof.
  refine {| issued := workos_issued; issued_grows := workos_issued_grows; quiet_verify := workos_quiet_verify; quiet_renew := workos_quiet_renew;
            quiet_mail := workos_quiet_mail; verify_vouched := workos_verify_vouched; renew_issued := workos_renew_issued; mail_cookies := workos_mail_cookies |};
    intros; cbn; unfold Workos.validateSession, Workos.revokeSession, Workos.getUser, Workos.getOrg, Workos.getInvitation, Workos.acceptInvitation,
                Workos.beginMfaEnrollment, Workos.sendRadarSmsCode, rethrow; effects.
Defined.

End WorkosSound.

(** Claim C12. A session cookie holds a session that was sealed for this request. Whatever
    action of the sign-in flow a browser calls, with whatever arguments and cookies, and
    whatever the provider answers, when the provider is not the local one of development:
    each time the session cookie is set in the cookie store, and in each Set-Cookie line
    that updateSession answers, the value was issued by the provider during this very run,
    and the cookie is not readable by scripts, is sent on top-level navigations only and is
    restricted to secure connections outside development. *)
Theorem session_cookies_vouched {P : AuthProvider} {S : SoundProvider P} (parse_challenge : string -> option AuthChallenge)
    (ipSchema : string -> bool) (a : Action) (env : Env) (w : World) :
  AUTH_PROVIDER (app_env env) <> "local"%string -> trace w = [] ->
  let '(o, w') := act parse_challenge ipSchema a env w in
  (forall pre c post, trace w' = pre ++ SetCookie c :: post ->
     cookie_name c = UNKEY_SESSION_COOKIE -> issued env pre (cookie_value c) /\ session_options env (cookie_options c))
  /\ (forall lines, o = Ret lines -> Forall (session_line issued env (trace w')) lines).
Proof.
  intros Hp Hw. assert (H0 : all_vouched env []) by (intros [|] ? ? E'; discriminate E').
  destruct (act parse_challenge ipSchema a env w) as [o w'] eqn:Ea. split.
  - intros pre c post E Hn. destruct (safe_act parse_challenge ipSchema env a Hp [] w Hw H0) as (l & Hl & Hv & _).
    rewrite Ea in Hl. cbn in Hl. rewrite E in Hl. by eapply Hv.
  - intros lines ->. destruct (act_lines _ _ _ _ _ _ _ Ea) as [->|[r ->]]; [constructor|]. cbn [act] in Ea.
    apply bind_ret in Ea as (res & w1 & Eu & Ea). apply ret_ret in Ea as [-> ->].
    destruct (keeps_updateSession env r [] Hp w Hw H0) as (l & Hl & _ & HQ). rewrite Eu in Hl, HQ. cbn in Hl. rewrite Hl. by apply HQ.
Qed.

(** ** A refresh *)

Definition demo_user : WorkosUser :=
  {| wu_id := "user_1"; wu_email := "ada@example.com"; wu_firstName := Some "Ada"%string; wu_lastName := None;
     wu_profilePictureUrl := None; wu_emailVerified := true |}.

(** WorkOS with an expired access token, one pending invitation and one member. *)
Definition demo_workos (c : WorkosCall) : Exn + WorkosResp c :=
  match c return Exn + WorkosResp c with
  | SessionAuthenticate _ => inr (NotAuthenticated INVALID_JWT)
  | SessionRefreshCall _ org =>
      inr (Refreshed (Some {| rs_user := demo_user; rs_organizationId := org; rs_accessToken := "at_2"; rs_impersonator := None |})
             (Some "sealed_2"%string) (Some "admin"%string))
  | WorkosGetUser _ => inr (Some demo_user)
  | FindInvitationByToken t =>
      inr {| wi_id := "inv_1"; wi_email := " Ada@Example.com"; wi_state := "pending"; wi_acceptedAt := None;
             wi_revokedAt := None; wi_expiresAt := "2030-01-01"; wi_token := t; wi_organizationId := Some "org_1"%string;
             wi_inviterUserId := None; wi_createdAt := "2025-01-01"; wi_updatedAt := "2025-01-01" |}
  | AcceptInvitation id =>
      inr {| wi_id := id; wi_email := "ada@example.com"; wi_state := "accepted"; wi_acceptedAt := None;
             wi_revokedAt := None; wi_expiresAt := "2030-01-01"; wi_token := "t"; wi_organizationId := Some "org_1"%string;
             wi_inviterUserId := None; wi_createdAt := "2025-01-01"; wi_updatedAt := "2025-01-01" |}
  | AuthenticateWith (WithMagicAuth _ _ _ _ _) _ =>
      inl (WorkosError (AuthenticationException "radar_email_challenge" (Some "pending_1"%string) (Some "radar_1"%string)
             {| raw_user := None; raw_organizations := None; raw_factors := None; raw_email := None |} "challenge"))
  | AuthenticateWith _ _ => inr (Some "sealed_1"%string)
  | GetOrganizationMembership id =>
      inr {| wm_id := id; wm_userId := "user_2"; wm_organizationId := "org_1"; wm_organizationName := "Acme"; wm_role := "basic_member";
             wm_createdAt := "2025-01-01"; wm_updatedAt := "2025-01-01"; wm_status := "active" |}
  | DeleteOrganizationMembership _ => inr tt
  | ListUserAuthFactors _ => inr []
  | CreateUserAuthFactor _ _ =>
      inr {| enroll_factorId := "factor_1"; enroll_challengeId := "ch_1"; enroll_qrCode := "qr"; enroll_secret := "secret";
             enroll_uri := "otpauth://" |}
  | _ => inl (WorkosError (WorkosOtherException (Some 404) None None "not found"))
  end.

Definition auth_env : Env :=
  {| stripe_env := None; app_env := demo_app_env; request_headers := fun _ => None; collation := Str.to_lower;
     SLACK_WEBHOOK_CUSTOMERS := None;
     ask := fun _ c => match c return Exn + Resp c with
                       | WorkOS c => demo_workos c
                       | ReadCookies | SetCookie _ | DeleteCookie _ | ReadHeaders => inr tt
                       | c => demo_answer c
                       end;
     clock := clock demo_env; fresh := fresh demo_env; teardown_done := teardown_done demo_env |}.

(** A browser with the cookies [l]. *)
Definition browser (l : list (string * string)) : World := with_jar (list_to_map l) (world_of free_db).

Definition demo_provider : AuthProvider :=
  Workos.workos (fun _ => None) (fun _ _ => EmptyString) (fun _ => EmptyString) (fun _ _ _ => EmptyString).

#[export] Instance demo_sound : SoundProvider demo_provider := workos_sound _ _ _ _.

Definition refresh_trace : list Call :=
  trace (snd (act (P := demo_provider) (fun _ => None) (fun _ => true) (AUpdateSession None) auth_env
                (browser [(UNKEY_SESSION_COOKIE, "sealed_1"%string)]))).

Definition refreshed_cookie : Cookie :=
  {| cookie_name := UNKEY_SESSION_COOKIE; cookie_value := "sealed_2";
     cookie_options := with_maxAge 604799 (getAuthCookieOptions demo_app_env) |}.

Lemma refresh_trace_eq :
  refresh_trace = [ReadCookies; WorkOS (SessionAuthenticate "sealed_1"); WorkOS (SessionRefreshCall "sealed_1" None); DateNow;
                   DateNow; ReadCookies] ++ [SetCookie refreshed_cookie].
Proof. vm_compute. reflexivity. Qed.

(** A request of the middleware: the refreshed cookie goes to the headers. *)
Definition middleware_run : Outcome (list string) * World :=
  act (P := demo_provider) (fun _ => None) (fun _ => true)
    (AUpdateSession (Some {[ UNKEY_SESSION_COOKIE := "sealed_1"%string ]})) auth_env (browser []).

Definition middleware_line : string :=
  "unkey-session=sealed_2; Path=/; HttpOnly; Secure; SameSite=Lax; Expires=Thu, 08 Jan 1970 00:16:40 GMT".

Lemma middleware_answer : fst middleware_run = Ret [middleware_line].
Proof. vm_compute. reflexivity. Qed.

Lemma session_cookies_vouched_witness :
  workos_issued auth_env [ReadCookies; WorkOS (SessionAuthenticate "sealed_1"); WorkOS (SessionRefreshCall "sealed_1" None);
                          DateNow; DateNow; ReadCookies] "sealed_2"
  /\ session_line workos_issued auth_env (trace (snd middleware_run)) middleware_line.
Proof.
  split.
  - assert (H := session_cookies_vouched (P := demo_provider) (fun _ => None) (fun _ => true) (AUpdateSession None) auth_env
      (browser [(UNKEY_SESSION_COOKIE, "sealed_1"%string)]) ltac:(discriminate) eq_refl).
    assert (E := refresh_trace_eq). unfold refresh_trace in E. destruct (act _ _ _ _ _) as [o w'].
    exact (proj1 (proj1 H _ _ [] E eq_refl)).
  - assert (H := session_cookies_vouched (P := demo_provider) (fun _ => None) (fun _ => true)
      (AUpdateSession (Some {[ UNKEY_SESSION_COOKIE := "sealed_1"%string ]})) auth_env (browser []) ltac:(discriminate) eq_refl).
    assert (E := middleware_answer). fold middleware_run in H. destruct middleware_run as [o w'].
    exact (Forall_inv (proj2 H _ E)).
Defined.
