(* ===== verification/AuthFlows.v ===== *)
(** * Sessions, invitations and challenges

    What the sign-in code promises beyond its cookies: whose session a request gets,
    which invitations are accepted, where the OAuth callback leads, and that a
    sign-in that was interrupted by a challenge can be finished. *)

From Stdlib Require Import ZArith Bool Ascii String Lia.
From stdpp Require Import base list gmap strings.
From S2P Require Import Prelude Helpers StripeTypes AuthTypes Effects Fixtures Cookies Sessions AuthProvider Workos BillingOps Trpc.
From S2P Require Import AuthActions AuthSafety.

Local Open Scope Z_scope.

(** ** Sessions *)

Section Sessions.

Context (env : Env).

(** WorkOS vouches for [s] as the session of [token]: it authenticated the token, or
    it refreshed it. *)
Definition authenticated_as (token : string) (r : SessionResult) (s : Session_) : Prop :=
  (exists tr sid at_ u org role imp,
     ask env tr (WorkOS (SessionAuthenticate token)) = inr (Authenticated sid at_ u org role imp)
     /\ s_userId s = wu_id u /\ s_orgId s = org /\ s_role s = role /\ session_header r = Some token)
  \/ (exists tr rs v role,
        ask env tr (WorkOS (SessionRefreshCall token None)) = inr (Refreshed (Some rs) (Some v) role)
        /\ s_userId s = wu_id (rs_user rs) /\ s_orgId s = rs_organizationId rs /\ s_role s = role
        /\ session_header r = Some v).

Lemma workos_validate_ret token w v w' :
  Workos.validateSession token env w = (Ret v, w') -> isValid v = true ->
  exists sid at_ u org role imp,
    ask env (trace w) (WorkOS (SessionAuthenticate token)) = inr (Authenticated sid at_ u org role imp)
    /\ sv_userId v = Some (wu_id u) /\ sv_orgId v = org /\ sv_role v = role.
Proof.
  unfold Workos.validateSession. destruct (negb _); [by intros [= <- _]|]. intros H Hv.
  apply catch_ret in H as [H|(e & w1 & _ & H)]; [|by injection H as <- _].
  apply bind_ret in H as (r & w1 & H1 & H). apply call_ret in H1 as [Ha _]. cbn [Resp WorkosResp] in r, Ha.
  destruct r as [sid at_ u org role imp|reason]; injection H as <- _; [|done]. by eexists _, _, _, _, _, _.
Qed.

Lemma workos_refresh_ret token w r w' :
  Workos.refreshSession token env w = (Ret r, w') ->
  exists rs role, ask env (trace w) (WorkOS (SessionRefreshCall token None)) = inr (Refreshed (Some rs) (Some (newToken r)) role)
    /\ exists sd, refreshed_session r = Some sd /\ sd_userId sd = wu_id (rs_user rs) /\ sd_orgId sd = rs_organizationId rs
                  /\ sd_role sd = role.
Proof.
  unfold Workos.refreshSession. destruct (negb _); [done|]. intros H. apply bind_ret in H as (x & w1 & H1 & H).
  apply call_ret in H1 as [Ha _]. cbn [Resp WorkosResp] in x, Ha. destruct x as [[rs|] [v|] role|reason]; try done.
  apply bind_ret in H as (now & w2 & _ & H). cbn in H. destruct (Js.truthy_string v); [|done]. injection H as <- _.
  exists rs, role. split; [done|]. by eexists.
Qed.

Lemma NoThrow_updateSession v f r :
  AUTH_PROVIDER (app_env env) <> "local"%string -> forall w, exists a w', updateSession v f r env w = (Ret a, w').
Proof.
  intros Hp w. unfold updateSession, bind at 1, appEnv. destruct (String.eqb_spec (AUTH_PROVIDER (app_env env)) "local"); [done|].
  apply NoThrow_catch. intros e. apply NoThrow_ret.
Qed.

Lemma updateSession_ret request w r w' s :
  AUTH_PROVIDER (app_env env) <> "local"%string ->
  updateSession Workos.validateSession Workos.refreshSession request env w = (Ret r, w') -> result_session r = Some s ->
  exists token, (match request with Some cookies => cookies !! UNKEY_SESSION_COOKIE | None => jar w !! UNKEY_SESSION_COOKIE end)
                = Some token /\ authenticated_as token r s.
Proof.
  intros Hp H Hs. unfold updateSession, bind at 1, appEnv in H. destruct (String.eqb_spec (AUTH_PROVIDER (app_env env)) "local"); [done|].
  apply catch_ret in H as [H|(e & w1 & _ & H)]; [|injection H as <- _; done].
  apply bind_ret in H as (token & w1 & Ht & H).
  assert (Et : token = match request with Some cookies => cookies !! UNKEY_SESSION_COOKIE | None => jar w !! UNKEY_SESSION_COOKIE end
               \/ token = None).
  { destruct request as [cs|]; [by injection Ht as <- _; left|]. apply catch_ret in Ht as [Ht|(e & w2 & _ & Ht)]; [|injection Ht as <- _; by right].
    apply cookies_get_ret in Ht as [-> _]. by left. }
  destruct token as [t|]; [|by injection H as <- _]. destruct Et as [Et|Et]; [|done]. exists t. split; [done|].
  destruct (Js.truthy_string t); [|by injection H as <- _].
  apply catch_ret in H as [H|(e & w2 & _ & H)]; [|by injection H as <- _].
  apply bind_ret in H as (v & w2 & Hv & H). destruct (isValid v) eqn:Ev; cbn [andb] in H.
  - destruct (workos_validate_ret _ _ _ _ Hv Ev) as (sid & at_ & u & org & role & imp & Ha & Hu & Ho & Hr).
    rewrite Hu in H. cbn [Js.truthy Js.coalesce] in H. destruct (Js.truthy_string (wu_id u)) eqn:Eu.
    + injection H as <- _. injection Hs as <-. left. by exists (trace w1), sid, at_, u, org, role, imp.
    + destruct (shouldRefresh v) eqn:Er; [|by injection H as <- _].
      apply catch_ret in H as [H|(e & w3 & _ & H)]; [|by injection H as <- _].
      apply bind_ret in H as (x & w3 & Hx & H). apply bind_ret in H as (e & w4 & _ & H). apply bind_ret in H as (ls & w5 & _ & H).
      injection H as <- _. destruct (workos_refresh_ret _ _ _ _ Hx) as (rs & role' & Ha' & sd & Hsd & H1 & H2 & H3).
      cbn in Hs. rewrite Hsd in Hs. injection Hs as <-. right. by exists (trace w2), rs, (newToken x), role'.
  - destruct (shouldRefresh v) eqn:Er; [|by injection H as <- _].
    apply catch_ret in H as [H|(e & w3 & _ & H)]; [|by injection H as <- _].
    apply bind_ret in H as (x & w3 & Hx & H). apply bind_ret in H as (e & w4 & _ & H). apply bind_ret in H as (ls & w5 & _ & H).
    injection H as <- _. destruct (workos_refresh_ret _ _ _ _ Hx) as (rs & role' & Ha' & sd & Hsd & H1 & H2 & H3).
    cbn in Hs. rewrite Hsd in Hs. injection Hs as <-. right. by exists (trace w2), rs, (newToken x), role'.
Qed.

End Sessions.

(** Claim C13. A request acts as the user WorkOS says it is. Whatever cookies a request
    carries and whatever WorkOS answers, [updateSession] returns and never throws; and
    a session in its result is the user, the organization and the role of the answer
    with which WorkOS authenticated, or else refreshed, the very token the request
    carried. *)
Theorem session_as_authenticated (env : Env) (request : option (gmap string string)) (w : World) :
  AUTH_PROVIDER (app_env env) <> "local"%string ->
  exists r w', updateSession Workos.validateSession Workos.refreshSession request env w = (Ret r, w') /\
    forall s, result_session r = Some s ->
      exists token, Js.coalesce request (jar w) !! UNKEY_SESSION_COOKIE = Some token /\ authenticated_as env token r s.
Proof.
  intros Hp. destruct (NoThrow_updateSession env Workos.validateSession Workos.refreshSession request Hp w) as (r & w' & E).
  exists r, w'. split; [done|]. intros s Hs. destruct (updateSession_ret env request w r w' s Hp E Hs) as (t & Ht & Ha).
  exists t. by destruct request.
Qed.

Lemma session_as_authenticated_witness :
  exists r w', updateSession Workos.validateSession Workos.refreshSession None auth_env
                 (browser [(UNKEY_SESSION_COOKIE, "sealed_1"%string)]) = (Ret r, w')
    /\ forall s, result_session r = Some s -> s_role s = Some "admin"%string.
Proof.
  destruct (session_as_authenticated auth_env None (browser [(UNKEY_SESSION_COOKIE, "sealed_1"%string)])) as (r & w' & E & H);
    [discriminate|].
  exists r, w'. split; [exact E|]. intros s Hs. destruct (H s Hs) as (t & _ & [Ha|Ha]).
  - destruct Ha as (tr & sid & at_ & u & org & role & imp & Ha & _). discriminate Ha.
  - destruct Ha as (tr & rs & v & role & Ha & _ & _ & Hr & _). injection Ha as _ _ <-. exact Hr.
Defined.

(** ** Invitations *)

Section Invitations.

Context (parse_state : string -> option (option string * option string)) (stringify_state : string -> option string -> string).
Context (stringify_challenge : AuthChallenge -> string) (authorizationUrl : string -> string -> string -> string).
Context (env : Env).

Abbreviation workos := (Workos.workos parse_state stringify_state stringify_challenge authorizationUrl).

(** WorkOS says that [i] is the invitation of [token], that it is pending and for an
    organization, and that it was sent to the address of [userId]. *)
Definition addressed (token userId : string) (i : WorkosInvitation) (org : string) : Prop :=
  wi_state i = "pending"%string /\ wi_organizationId i = Some org /\ org <> EmptyString /\
  (exists tr, ask env tr (WorkOS (FindInvitationByToken token)) = inr i) /\
  exists tr u, ask env tr (WorkOS (WorkosGetUser userId)) = inr (Some u)
               /\ normalizeEmail (wu_email u) = normalizeEmail (wi_email i).

Definition allowed_invitation (token userId : string) (c : Call) : Prop :=
  match c with
  | WorkOS (AcceptInvitation id) => exists i org, wi_id i = id /\ addressed token userId i org
  | WorkOS (SendInvitation _ _ _ _) | WorkOS (RevokeInvitation _) => False
  | WorkOS (SessionRefreshCall _ (Some org)) => exists i, addressed token userId i org
  | _ => True
  end.

Lemma getInvitation_ret token w o w' :
  Workos.getInvitation token env w = (Ret o, w') ->
  match o with
  | Some i => exists x, ask env (trace w) (WorkOS (FindInvitationByToken token)) = inr x /\ i = Workos.transformInvitationData x None None
  | None => True
  end.
Proof.
  unfold Workos.getInvitation. destruct (negb _); [by intros [= <- _]|]. intros H.
  apply catch_ret in H as [H|(e & w1 & _ & H)]; [|by injection H as <- _].
  apply bind_ret in H as (x & w1 & H1 & H). apply call_ret in H1 as [Ha _]. injection H as <- _. by exists x.
Qed.

Lemma getUser_ret userId w o w' :
  Workos.getUser userId env w = (Ret o, w') ->
  match o with
  | Some u => exists x, ask env (trace w) (WorkOS (WorkosGetUser userId)) = inr (Some x) /\ u = Workos.transformUserData x
  | None => True
  end.
Proof.
  unfold Workos.getUser. destruct (negb _); [done|]. intros H.
  apply catch_ret in H as [H|(e & w1 & _ & H)]; [|by injection H as <- _].
  apply bind_ret in H as (x & w1 & H1 & H). apply call_ret in H1 as [Ha _]. injection H as <- _. destruct x as [x|]; [|done].
  by exists x.
Qed.

(** The invitation that passed the checks of [processPostAuthInvitation]. *)
Lemma addressed_intro token userId trI i trU u org :
  ask env trI (WorkOS (FindInvitationByToken token)) = inr i -> ask env trU (WorkOS (WorkosGetUser userId)) = inr (Some u) ->
  wi_organizationId i = Some org -> Js.truthy_string org = true -> wi_state i = "pending"%string ->
  normalizeEmail (wu_email u) = normalizeEmail (wi_email i) -> addressed token userId i org.
Proof. intros Hi Hu Ho Ht Hs He. split; [done|]. split; [done|]. split; [by intros ->|]. split; [by exists trI|]. by exists trU, u. Qed.

Lemma EmitsIn_switchToOrg token userId i org :
  addressed token userId i org -> EmitsIn env (allowed_invitation token userId) (switchToOrg (P := workos) org).
Proof.
  intros Hi. apply EmitsIn_bind.
  - apply EmitsIn_Emits with (Q := allowed_invitation token userId); [done|]. cbn. unfold Workos.switchOrg.
    effects; try (apply Emits_cookies_get; exact I); try exact I. apply (Emits_call (allowed_invitation token userId) (WorkOS _)). by exists i.
  - intros w r w' _. apply EmitsIn_Emits with (Q := allowed_invitation token userId); [done|].
    unfold setSessionCookie, setLastUsedOrgCookie, setCookie, store_set. effects; intros env' w''; exists []; by rewrite app_nil_r.
Qed.

Lemma invitation_calls token userId :
  EmitsIn env (allowed_invitation token userId) (processPostAuthInvitation (P := workos) token userId).
Proof.
  assert (Hr : forall x, EmitsIn env (allowed_invitation token userId) (ret (A := InvitationResult) x)).
  { intros x w. exists []. by rewrite app_nil_r. }
  apply EmitsIn_catch; [|auto]. apply EmitsIn_bind.
  { apply EmitsIn_Emits with (Q := allowed_invitation token userId); [done|]. cbn. unfold Workos.getInvitation. effects; try (apply (Emits_call _ (WorkOS _)); exact I). }
  intros w o w1 Ho. cbn in Ho. apply getInvitation_ret in Ho. destruct o as [i|]; [|auto]. destruct Ho as (x & Hx & ->).
  cbn [inv_organizationId inv_state inv_email inv_id Workos.transformInvitationData].
  destruct (wi_organizationId x) as [org|] eqn:Eo; cbn [Js.ocoalesce]; [|auto].
  destruct (Js.truthy_string org) eqn:Et; cbn [negb]; [|auto].
  destruct (String.eqb_spec (wi_state x) "pending") as [Es|]; cbn [negb]; [|auto].
  apply EmitsIn_bind.
  { apply EmitsIn_Emits with (Q := allowed_invitation token userId); [done|]. cbn. unfold Workos.getUser. effects; try (apply (Emits_call _ (WorkOS _)); exact I). }
  intros w2 u w3 Hu. cbn in Hu. apply getUser_ret in Hu. destruct u as [u|]; [|auto]. destruct Hu as (y & Hy & ->).
  cbn [au_email Workos.transformUserData]. destruct (String.eqb_spec (normalizeEmail (wu_email y)) (normalizeEmail (wi_email x))) as [Ee|];
    cbn [negb]; [|auto].
  assert (Ha : addressed token userId x org) by (by eapply addressed_intro).
  apply EmitsIn_bind.
  - apply EmitsIn_Emits with (Q := allowed_invitation token userId); [done|]. cbn. unfold Workos.acceptInvitation, rethrow. effects.
    apply (Emits_call (allowed_invitation token userId) (WorkOS _)). by exists x, org.
  - intros _ _ _ _. apply EmitsIn_catch; [|auto]. apply EmitsIn_bind; [by eapply EmitsIn_switchToOrg|auto].
Qed.

(** What a result tells. *)
Definition invitation_result (token userId : string) (r : InvitationResult) : Prop :=
  match r with
  | InvitationAccepted org _ =>
      exists i, addressed token userId i org /\ exists tr x, ask env tr (WorkOS (AcceptInvitation (wi_id i))) = inr x
  | InvitationRefused m =>
      m = INVITATION_UNUSABLE
      \/ m = EMAIL_MISMATCH /\ exists tr i, ask env tr (WorkOS (FindInvitationByToken token)) = inr i /\ wi_state i = "pending"%string
  end.

Lemma acceptInvitation_ret id w r w' :
  Workos.acceptInvitation id env w = (Ret r, w') -> exists tr x, ask env tr (WorkOS (AcceptInvitation id)) = inr x.
Proof.
  unfold Workos.acceptInvitation. destruct (negb _); [done|]. intros H. apply catch_ret in H as [H|(e & w1 & _ & H)]; [|done].
  apply bind_ret in H as (x & w1 & H1 & _). apply call_ret in H1 as [Ha _]. by exists (trace w), x.
Qed.

Lemma invitation_ret token userId w r w' :
  processPostAuthInvitation (P := workos) token userId env w = (Ret r, w') -> invitation_result token userId r.
Proof.
  intros H. apply catch_ret in H as [H|(e & w1 & _ & H)]; [|injection H as <- _; by left].
  apply bind_ret in H as (o & w1 & Ho & H). cbn in Ho. apply getInvitation_ret in Ho.
  destruct o as [i|]; [|injection H as <- _; by left]. destruct Ho as (x & Hx & ->).
  cbn [inv_organizationId inv_state inv_email inv_id Workos.transformInvitationData] in H.
  destruct (wi_organizationId x) as [org|] eqn:Eo; cbn [Js.ocoalesce] in H; [|injection H as <- _; by left].
  destruct (Js.truthy_string org) eqn:Et; cbn [negb] in H; [|injection H as <- _; by left].
  destruct (String.eqb_spec (wi_state x) "pending") as [Es|]; cbn [negb] in H; [|injection H as <- _; by left].
  apply bind_ret in H as (u & w2 & Hu & H). cbn in Hu. apply getUser_ret in Hu.
  destruct u as [u|]; [|injection H as <- _; by left]. destruct Hu as (y & Hy & ->). cbn [au_email Workos.transformUserData] in H.
  destruct (String.eqb_spec (normalizeEmail (wu_email y)) (normalizeEmail (wi_email x))) as [Ee|]; cbn [negb] in H;
    [|injection H as <- _; right; split; [done|]; by exists (trace w), x].
  apply bind_ret in H as (z & w3 & Hz & H). cbn in Hz. apply acceptInvitation_ret in Hz.
  assert (Hr : exists sw, r = InvitationAccepted org sw).
  { apply catch_ret in H as [H|(e & w4 & _ & H)]; [|injection H as <- _; by eexists].
    apply bind_ret in H as (? & w4 & _ & H). injection H as <- _. by eexists. }
  destruct Hr as [sw ->]. exists x. split; [by eapply addressed_intro|done].
Qed.

End Invitations.

(** Claim C17. An invitation is accepted only for the person it was sent to. Whatever
    token and user [processPostAuthInvitation] is given and whatever WorkOS answers, it
    returns and never throws. It accepts an invitation, or moves the session into an
    organization, only where WorkOS said that this token names a pending invitation to
    that organization and that the user's address is the invited one up to case and
    white space; it reports success only when WorkOS accepted that invitation; and the
    refusal of a token that names no usable invitation is always the same. *)
Theorem invitation_for_addressee (parse_state : string -> option (option string * option string))
    (stringify_state : string -> option string -> string) (stringify_challenge : AuthChallenge -> string)
    (authorizationUrl : string -> string -> string -> string) (token userId : string) (env : Env) (w : World) :
  exists r w' l,
    processPostAuthInvitation (P := Workos.workos parse_state stringify_state stringify_challenge authorizationUrl) token userId env w
      = (Ret r, w')
    /\ trace w' = trace w ++ l /\ Forall (allowed_invitation env token userId) l /\ invitation_result env token userId r.
Proof.
  set (P := Workos.workos parse_state stringify_state stringify_challenge authorizationUrl).
  destruct (NoThrow_catch (A := InvitationResult) _ _ (fun _ => NoThrow_ret _) env w
    : exists r w', processPostAuthInvitation (P := P) token userId env w = (Ret r, w')) as (r & w' & E).
  destruct (invitation_calls parse_state stringify_state stringify_challenge authorizationUrl env token userId w) as (l & Hl & Hq).
  subst P. rewrite E in Hl. exists r, w', l. split; [done|]. split; [done|]. split; [done|]. by eapply invitation_ret.
Qed.

(** ** The OAuth callback *)

(** Signing in with OAuth never leads off the site. Whatever provider is
    configured, whatever it answers and whatever state the callback carries,
    [completeOAuthSignIn] either returns an error of the sign-in, or ends with the
    redirect of a finished sign-in, whose target a browser resolves on the current
    origin; no other exception escapes. *)
Theorem oauth_stays_on_site {P : AuthProvider} (cb : OAuthCallback) (env : Env) (w : World) :
  match fst (completeOAuthSignIn_action cb env w) with
  | Ret r => is_success r = false
  | Throw e => exists url, e = NextRedirect url /\ Redirect.same_origin url = true
  end.
Proof.
  unfold completeOAuthSignIn_action, bind at 1. destruct (catch _ _ env w) as [[[url|r]|e] w'] eqn:H; cbn [fst].
  - unfold redirect, throw. cbn [fst]. eexists. split; [reflexivity|].
    destruct (Redirect.sanitized_same_origin (Some url) Redirect.default_fallback) as [Hs|Hs]; [done|by rewrite Hs].
  - apply catch_ret in H as [H|(e & w1 & _ & H)]; [|by injection H as <- _]. apply bind_ret in H as (x & w1 & _ & H).
    destruct x as [u l|x]; [|by injection H as <- _]. by apply bind_ret in H as (? & ? & _ & H).
  - apply catch_throw in H as (e' & w1 & _ & H). done.
Qed.

(** ** Challenges *)

Section Challenges.

Context (parse_challenge : string -> option AuthChallenge) (stringify_challenge : AuthChallenge -> string).
Context (parse_state : string -> option (option string * option string)) (stringify_state : string -> option string -> string).
Context (authorizationUrl : string -> string -> string -> string) (ipSchema : string -> bool) (env : Env).

Abbreviation workos := (Workos.workos parse_state stringify_state stringify_challenge authorizationUrl).

(** JSON.parse reads back what JSON.stringify wrote. *)
Definition json_inverse : Prop := forall c, stringify_challenge c <> EmptyString /\ parse_challenge (stringify_challenge c) = Some c.

(** The cookies and the headers of the request can be read and written. *)
Definition store_accepts : Prop :=
  forall tr, ask env tr ReadCookies = inr tt /\ ask env tr ReadHeaders = inr tt
             /\ (forall c, ask env tr (SetCookie c) = inr tt) /\ (forall n, ask env tr (DeleteCookie n) = inr tt).

(** The exception with which WorkOS asks for [ch], with a pending session [token]. *)
Definition asks_for (ch : AuthChallenge) (token : string) (x : WorkosException) : Prop :=
  match ch with
  | ChallengeMfa id =>
      exists radar raw m f, x = AuthenticationException "mfa_challenge" (Some token) radar raw m
        /\ List.find (fun f => String.eqb (snd f) "totp") (Js.coalesce (raw_factors raw) []) = Some f
        /\ forall tr, ask env tr (WorkOS (ChallengeFactor (fst f))) = inr id
  | ChallengeMfaEnroll userId email =>
      exists radar raw m u, x = AuthenticationException "mfa_enrollment" (Some token) radar raw m
        /\ raw_user raw = Some u /\ pu_id u = userId /\ pu_email u = email
  | ChallengeRadarEmail id => exists raw m, x = AuthenticationException "radar_email_challenge" (Some token) (Some id) raw m
  | ChallengeRadarSms userId =>
      exists radar raw m u, x = AuthenticationException "radar_sms_challenge" (Some token) radar raw m
        /\ raw_user raw = Some u /\ pu_id u = userId
  end.

(** What the user answers: a code, and where it is needed the challenge of the new
    factor, or the verification that was texted and its number. *)
Record ChallengeAnswer := { an_code : string; an_enrolled : string; an_verification : string; an_phone : string }.

Definition finish (ch : AuthChallenge) (a : ChallengeAnswer) : M VerificationResult :=
  match ch with
  | ChallengeMfa _ => completeAuthMfaChallenge (P := workos) parse_challenge ipSchema (an_code a) None
  | ChallengeMfaEnroll _ _ => completeAuthMfaChallenge (P := workos) parse_challenge ipSchema (an_code a) (Some (an_enrolled a))
  | ChallengeRadarEmail _ => completeAuthRadarEmailChallenge (P := workos) parse_challenge ipSchema (an_code a)
  | ChallengeRadarSms _ =>
      completeAuthRadarSmsChallenge (P := workos) parse_challenge ipSchema (an_code a) (an_verification a) (an_phone a)
  end.

(** The request to WorkOS that the answer stands for. *)
Definition answer_request (ch : AuthChallenge) (a : ChallengeAnswer) (token : string) : Authenticate :=
  match ch with
  | ChallengeMfa id => WithTotp (an_code a) id token
  | ChallengeMfaEnroll _ _ => WithTotp (an_code a) (an_enrolled a) token
  | ChallengeRadarEmail id => WithRadarEmail (an_code a) id token
  | ChallengeRadarSms _ => WithRadarSms (an_code a) (an_verification a) (an_phone a) token
  end.

(** The ids of the challenge and of the answer are not empty. *)
Definition ids_given (ch : AuthChallenge) (a : ChallengeAnswer) : Prop :=
  match ch with
  | ChallengeMfa id => id <> EmptyString
  | ChallengeMfaEnroll _ _ => an_enrolled a <> EmptyString
  | ChallengeRadarEmail id => id <> EmptyString
  | ChallengeRadarSms _ => True
  end.

(** From any world with the cookies [j], [m] returns [a] and leaves the cookies [j']. *)
Definition jar_run {A} (m : M A) (j : gmap string string) (a : A) (j' : gmap string string) : Prop :=
  forall w, jar w = j -> exists w', m env w = (Ret a, w') /\ jar w' = j'.

Lemma jar_bind {A B} (m : M A) (k : A -> M B) j a j' b j'' :
  jar_run m j a j' -> jar_run (k a) j' b j'' -> jar_run (bind m k) j b j''.
Proof. intros Hm Hk w Hw. destruct (Hm w Hw) as (w1 & E & H1). unfold bind. rewrite E. by apply Hk. Qed.

Lemma jar_ret {A} (a : A) j : jar_run (ret a) j a j.
Proof. intros w Hw. by exists w. Qed.

Lemma jar_call c r j : (forall tr, ask env tr c = inr r) -> jar_run (call c) j r j.
Proof. intros Hc w Hw. exists (log_call c w). unfold call. by rewrite Hc. Qed.

Lemma jar_catch {A} (m : M A) h j a j' : jar_run m j a j' -> jar_run (catch m h) j a j'.
Proof. intros Hm w Hw. destruct (Hm w Hw) as (w1 & E & H1). unfold catch. rewrite E. by exists w1. Qed.

Context (Hstore : store_accepts).

Lemma jar_read j : jar_run (call ReadCookies) j (tt : Resp ReadCookies) j.
Proof. apply jar_call. intros tr. apply (Hstore tr). Qed.

Lemma jar_cookies_get n j : jar_run (cookies_get n) j (j !! n) j.
Proof. eapply jar_bind; [apply jar_read|]. intros w <-. by exists w. Qed.

Lemma jar_store_set c j : jar_run (store_set c) j tt (store_cookie c j).
Proof. eapply jar_bind; [apply jar_call with (r := (tt : Resp (SetCookie c))); intros tr; apply (Hstore tr)|]. intros w <-. by eexists. Qed.

Lemma jar_setCookies l : forall j, jar_run (setCookies l) j tt (fold_left (fun j c => store_cookie c j) l j).
Proof.
  intros j. eapply jar_bind; [apply jar_read|]. revert j.
  induction l as [|c l IH]; intros j; [apply jar_ret|]. eapply jar_bind; [apply jar_store_set|apply IH].
Qed.

Lemma jar_deleteCookie n j : jar_run (deleteCookie n) j tt (delete n j).
Proof.
  eapply jar_bind; [apply jar_read|]. eapply jar_bind; [apply jar_call with (r := (tt : Resp (DeleteCookie n))); intros tr; apply (Hstore tr)|].
  intros w <-. by eexists.
Qed.

Lemma jar_metadata j : exists md, jar_run (getRequestMetadata ipSchema) j md j.
Proof.
  eexists. eapply jar_bind; [|apply jar_ret]. 
  eapply jar_bind; [apply jar_call with (r := (tt : Resp ReadHeaders)); intros tr; apply (Hstore tr)|]. intros w <-. by exists w.
Qed.

Lemma truthy_nonempty v : v <> EmptyString -> Js.truthy_string v = true.
Proof. by destruct v. Qed.

Lemma jar_appEnv j : jar_run appEnv j (app_env env) j.
Proof. intros w <-. by exists w. Qed.

Abbreviation challenge_response ch token := (Workos.pendingChallengeResponse stringify_challenge (app_env env) ch token).

Lemma jar_exception ch token x j :
  asks_for ch token x -> token <> EmptyString -> (forall id, ch = ChallengeRadarEmail id -> id <> EmptyString) ->
  jar_run (Workos.mapAuthenticationException stringify_challenge (WorkosError x)) j (Some (challenge_response ch token)) j.
Proof.
  intros Hx Ht Hid. apply truthy_nonempty in Ht. destruct ch as [id|userId email|id|userId]; cbn in Hx.
  - destruct Hx as (radar & raw & m & [f k] & -> & Hf & Hc). eapply jar_bind; [apply jar_appEnv|].
    rewrite Ht. cbn [negb]. rewrite Hf. cbn -[call]. eapply jar_bind; [apply (jar_call (WorkOS (ChallengeFactor f)) id), Hc|apply jar_ret].
  - destruct Hx as (radar & raw & m & u & -> & Hu & <- & <-). eapply jar_bind; [apply jar_appEnv|]. rewrite Ht, Hu. apply jar_ret.
  - destruct Hx as (raw & m & ->). eapply jar_bind; [apply jar_appEnv|]. rewrite Ht. cbn.
    rewrite (truthy_nonempty id) by (by apply Hid). apply jar_ret.
  - destruct Hx as (radar & raw & m & u & -> & Hu & <-). eapply jar_bind; [apply jar_appEnv|]. rewrite Ht, Hu. apply jar_ret.
Qed.

Lemma jar_challenged a md ch token x j :
  (forall tr, ask env tr (WorkOS (AuthenticateWith a md)) = inl (WorkosError x)) ->
  asks_for ch token x -> token <> EmptyString -> (forall id, ch = ChallengeRadarEmail id -> id <> EmptyString) ->
  jar_run (Workos.authenticateWith stringify_challenge a md) j (VerificationError (challenge_response ch token)) j.
Proof.
  intros Ha Hx Ht Hid w Hw. unfold Workos.authenticateWith, Workos.completeAuthentication, catch.
  unfold bind at 1, call at 1. rewrite Ha.
  destruct (jar_exception ch token x j Hx Ht Hid (log_call (WorkOS (AuthenticateWith a md)) w) Hw) as (w1 & E & Hw1).
  unfold bind. rewrite E. by exists w1.
Qed.

Lemma jar_sealed a md v j :
  (forall tr, ask env tr (WorkOS (AuthenticateWith a md)) = inr (Some v)) -> v <> EmptyString ->
  jar_run (Workos.authenticateWith stringify_challenge a md) j (Navigation "/apis" (Workos.sessionCookies (app_env env) v)) j.
Proof.
  intros Ha Hv. apply jar_catch. eapply jar_bind; [apply (jar_call (WorkOS (AuthenticateWith a md)) (Some v)), Ha|]. cbn. rewrite (truthy_nonempty v Hv).
  eapply jar_bind; [apply jar_appEnv|apply jar_ret].
Qed.

(** The cookies after the first factor, and after the challenge. *)
Definition pending_jar (ch : AuthChallenge) (token : string) (j : gmap string string) : gmap string string :=
  <[AUTH_CHALLENGE_COOKIE := stringify_challenge ch]> (<[PENDING_SESSION_COOKIE := token]> j).

Definition signed_in_jar (sealed : string) (j : gmap string string) : gmap string string :=
  <[UNKEY_SESSION_COOKIE := sealed]> (delete PENDING_SESSION_COOKIE (delete RADAR_ATTEMPT_COOKIE (delete AUTH_CHALLENGE_COOKIE j))).

Lemma jar_finish_challenge sealed ch token j :
  jar_run (finish_challenge (Navigation "/apis" (Workos.sessionCookies (app_env env) sealed))) (pending_jar ch token j)
    (Navigation "/apis" (Workos.sessionCookies (app_env env) sealed)) (signed_in_jar sealed j).
Proof.
  eapply jar_bind; [apply jar_setCookies|]. eapply jar_bind; [apply jar_deleteCookie|].
  assert (E : forall k, delete PENDING_SESSION_COOKIE (fold_left (fun j c => store_cookie c j)
      (Workos.sessionCookies (app_env env) sealed) (pending_jar ch token j)) !! k = signed_in_jar sealed j !! k).
  { intros k. unfold signed_in_jar, pending_jar. cbn. unfold store_cookie. cbn. rewrite (bool_decide_false (None = Some 0)), !(bool_decide_true (Some 0 = Some 0)) by done.
    unfold UNKEY_SESSION_COOKIE, PENDING_SESSION_COOKIE, AUTH_CHALLENGE_COOKIE, RADAR_ATTEMPT_COOKIE.
    destruct (decide (k = UNKEY_SESSION_COOKIE)) as [->|Hs]; [by simplify_map_eq|].
    destruct (decide (k = PENDING_SESSION_COOKIE)) as [->|Hp]; [by simplify_map_eq|].
    destruct (decide (k = AUTH_CHALLENGE_COOKIE)) as [->|Hc]; [by simplify_map_eq|].
    destruct (decide (k = RADAR_ATTEMPT_COOKIE)) as [->|Hr]; by simplify_map_eq. }
  apply map_eq in E. rewrite E. apply jar_ret.
Qed.

Lemma jar_first_factor email code signalsId ch token x j :
  (forall tr attempt md, ask env tr (WorkOS (AuthenticateWith (WithMagicAuth code email None attempt signalsId) md)) = inl (WorkosError x)) ->
  asks_for ch token x -> token <> EmptyString -> (forall id, ch = ChallengeRadarEmail id -> id <> EmptyString) ->
  jar_run (verifyAuthCode_action (P := workos) ipSchema email code None signalsId) j
    (VerificationError (challenge_response ch token)) (pending_jar ch token j).
Proof.
  intros Ha Hx Ht Hid. apply jar_catch. eapply jar_bind; [apply jar_ret|]. destruct (jar_metadata j) as [md Hmd].
  eapply jar_bind; [exact Hmd|]. eapply jar_bind; [apply jar_cookies_get|].
  eapply jar_bind; [by apply (jar_challenged _ _ ch token x)|]. eapply jar_bind; [apply jar_ret|].
  eapply jar_bind; [apply jar_setCookies|]. eapply jar_bind; apply jar_ret.
Qed.

Lemma jar_challenge ch token j :
  json_inverse -> jar_run (getChallengeCookieData parse_challenge) (pending_jar ch token j) (Some ch) (pending_jar ch token j).
Proof.
  intros Hj. destruct (Hj ch) as [Hs Hp]. eapply jar_bind; [apply jar_cookies_get|].
  replace (pending_jar ch token j !! AUTH_CHALLENGE_COOKIE) with (Some (stringify_challenge ch)) by (symmetry; apply lookup_insert_eq).
  replace (or_undefined (Some (stringify_challenge ch)) ≫= parse_challenge) with (Some ch); [apply jar_ret|].
  unfold or_undefined. cbn [Js.truthy]. rewrite (truthy_nonempty _ Hs). cbn. by rewrite Hp.
Qed.

Lemma jar_pending ch token j : jar_run (cookies_get PENDING_SESSION_COOKIE) (pending_jar ch token j) (Some token) (pending_jar ch token j).
Proof.
  replace (Some token) with (pending_jar ch token j !! PENDING_SESSION_COOKIE) at 1; [apply jar_cookies_get|].
  unfold pending_jar. rewrite lookup_insert_ne by done. apply lookup_insert_eq.
Qed.

Lemma or_undefined_nonempty v : v <> EmptyString -> or_undefined (Some v) = Some v.
Proof. intros Hv. unfold or_undefined. cbn [Js.truthy]. by rewrite (truthy_nonempty v Hv). Qed.

Lemma jar_second_factor ch a token sealed j :
  json_inverse -> token <> EmptyString -> ids_given ch a -> sealed <> EmptyString ->
  (forall tr md, ask env tr (WorkOS (AuthenticateWith (answer_request ch a token) md)) = inr (Some sealed)) ->
  jar_run (finish ch a) (pending_jar ch token j) (Navigation "/apis" (Workos.sessionCookies (app_env env) sealed)) (signed_in_jar sealed j).
Proof.
  intros Hj Ht Hid Hs Ha. destruct (jar_metadata (pending_jar ch token j)) as [md Hmd].
  destruct ch; cbn [finish]; cbn [ids_given answer_request] in Hid, Ha; (eapply jar_bind; [apply jar_pending|]);
    cbv beta; rewrite ?(or_undefined_nonempty token Ht);
    (eapply jar_bind; [by apply jar_challenge|]); cbn [Js.ocoalesce]; cbv beta iota;
    rewrite ?(or_undefined_nonempty token Ht), ?(or_undefined_nonempty _ Hid); (eapply jar_bind; [exact Hmd|]);
    (eapply jar_bind; [apply (jar_sealed _ md sealed); [intros tr; apply Ha|done]|]); apply jar_finish_challenge.
Qed.

End Challenges.

(** Claim C16. A sign-in that WorkOS interrupts can be finished. When WorkOS answers the
    code from the email with a challenge - a second factor, the enrollment of one, or a
    code by email or by text - the action keeps the pending session and the challenge in
    cookies and reports which challenge it is; and the action that the sign-in page
    then calls, with an answer WorkOS accepts, finds both again, sends WorkOS the right
    request, stores the session and leaves no cookie of the pending sign-in behind. All
    other cookies of the browser are as before. *)
Theorem interrupted_sign_in_finishes (parse_challenge : string -> option AuthChallenge) (stringify_challenge : AuthChallenge -> string)
    (parse_state : string -> option (option string * option string)) (stringify_state : string -> option string -> string)
    (authorizationUrl : string -> string -> string -> string) (ipSchema : string -> bool) (env : Env) (w : World)
    (email code token sealed : string) (signalsId : option string) (ch : AuthChallenge) (a : ChallengeAnswer) (x : WorkosException) :
  let P := Workos.workos parse_state stringify_state stringify_challenge authorizationUrl in
  json_inverse parse_challenge stringify_challenge -> store_accepts env ->
  (forall tr attempt md, ask env tr (WorkOS (AuthenticateWith (WithMagicAuth code email None attempt signalsId) md)) = inl (WorkosError x)) ->
  asks_for env ch token x -> token <> EmptyString -> ids_given ch a -> sealed <> EmptyString ->
  (forall tr md, ask env tr (WorkOS (AuthenticateWith (answer_request ch a token) md)) = inr (Some sealed)) ->
  exists r1 w1 r2 w2,
    verifyAuthCode_action (P := P) ipSchema email code None signalsId env w = (Ret (VerificationError r1), w1)
    /\ err_pending r1 = PendingChallenge (challenge_type ch)
    /\ finish parse_challenge stringify_challenge parse_state stringify_state authorizationUrl ipSchema ch a env w1 = (Ret r2, w2)
    /\ is_success r2 = true /\ jar w2 = signed_in_jar sealed (jar w).
Proof.
  intros P Hj Hst Hm Hx Ht Hid Hs Ha.
  assert (Hid' : forall id, ch = ChallengeRadarEmail id -> id <> EmptyString) by (intros id ->; exact Hid).
  destruct (jar_first_factor stringify_challenge parse_state stringify_state authorizationUrl ipSchema env Hst email code signalsId
    ch token x (jar w) Hm Hx Ht Hid' w eq_refl) as (w1 & E1 & H1).
  destruct (jar_second_factor parse_challenge stringify_challenge parse_state stringify_state authorizationUrl ipSchema env Hst
    ch a token sealed (jar w) Hj Ht Hid Hs Ha w1 H1) as (w2 & E2 & H2).
  by eexists _, w1, _, w2.
Qed.

(** A codec for challenges. *)
Fixpoint quote (s : string) : string :=
  match s with EmptyString => "." | String c r => String "-" (String c (quote r)) end.

Fixpoint unquote (s : string) : option (string * string) :=
  match s with
  | String "." r => Some (EmptyString, r)
  | String "-" (String c r) => match unquote r with Some (t, r') => Some (String c t, r') | None => None end
  | _ => None
  end.

Lemma unquote_quote s r : unquote (quote s +:+ r) = Some (s, r).
Proof. induction s as [|c s IH]; [done|]. simpl. by rewrite IH. Qed.

Definition demo_stringify (c : AuthChallenge) : string :=
  match c with
  | ChallengeMfa id => String "m" (quote id +:+ EmptyString)
  | ChallengeMfaEnroll u e => String "n" (quote u +:+ (quote e +:+ EmptyString))
  | ChallengeRadarEmail id => String "e" (quote id +:+ EmptyString)
  | ChallengeRadarSms u => String "s" (quote u +:+ EmptyString)
  end.

Definition demo_parse (s : string) : option AuthChallenge :=
  match s with
  | String "m" r => match unquote r with Some (id, EmptyString) => Some (ChallengeMfa id) | _ => None end
  | String "n" r =>
      match unquote r with
      | Some (u, r') => match unquote r' with Some (e, EmptyString) => Some (ChallengeMfaEnroll u e) | _ => None end
      | None => None
      end
  | String "e" r => match unquote r with Some (id, EmptyString) => Some (ChallengeRadarEmail id) | _ => None end
  | String "s" r => match unquote r with Some (u, EmptyString) => Some (ChallengeRadarSms u) | _ => None end
  | _ => None
  end.

Lemma demo_inverse : json_inverse demo_parse demo_stringify.
Proof. intros []; (split; [done|]); cbn [demo_stringify demo_parse]; by rewrite ?unquote_quote. Qed.

Lemma interrupted_sign_in_finishes_witness :
  exists w2, jar w2 = signed_in_jar "sealed_1" ∅.
Proof.
  destruct (interrupted_sign_in_finishes demo_parse demo_stringify (fun _ => None) (fun _ _ => EmptyString) (fun _ _ _ => EmptyString)
    (fun _ => true) auth_env (browser []) "ada@example.com" "123456" "pending_1" "sealed_1" None (ChallengeRadarEmail "radar_1")
    {| an_code := "654321"; an_enrolled := EmptyString; an_verification := EmptyString; an_phone := EmptyString |}
    (AuthenticationException "radar_email_challenge" (Some "pending_1"%string) (Some "radar_1"%string)
       {| raw_user := None; raw_organizations := None; raw_factors := None; raw_email := None |} "challenge"))
    as (r1 & w1 & r2 & w2 & _ & _ & _ & _ & H).
  - exact demo_inverse.
  - intros tr. repeat split.
  - reflexivity.
  - eexists _, _. reflexivity.
  - discriminate.
  - discriminate.
  - discriminate.
  - reflexivity.
  - exists w2. exact H.
Defined.

(** ** A forged challenge *)

(** The challenge cookie is not signed, and [beginAuthMfaEnrollment] reads nothing
    else: whoever sets it enrolls a factor for the user it names, and is shown its
    secret, without a pending session. *)
Theorem enrollment_trusts_challenge_cookie (parse_challenge : string -> option AuthChallenge)
    (stringify_challenge : AuthChallenge -> string) (parse_state : string -> option (option string * option string))
    (stringify_state : string -> option string -> string) (authorizationUrl : string -> string -> string -> string)
    (env : Env) (w : World) (forged userId email : string) (start : MfaEnrollmentStart) :
  let P := Workos.workos parse_state stringify_state stringify_challenge authorizationUrl in
  store_accepts env -> (forall tr, ask env tr (WorkOS (CreateUserAuthFactor userId email)) = inr start) ->
  jar w = {[AUTH_CHALLENGE_COOKIE := forged]} -> parse_challenge forged = Some (ChallengeMfaEnroll userId email) -> forged <> EmptyString ->
  fst (beginAuthMfaEnrollment (P := P) parse_challenge env w) = Ret (inr start)
  /\ In (WorkOS (CreateUserAuthFactor userId email)) (trace (snd (beginAuthMfaEnrollment (P := P) parse_challenge env w))).
Proof.
  intros P Hst Hc Hj Hp Hf.
  enough (H : exists w', beginAuthMfaEnrollment (P := P) parse_challenge env w = (Ret (inr start), w')
                         /\ In (WorkOS (CreateUserAuthFactor userId email)) (trace w')) by (by destruct H as (w' & -> & H)).
  unfold beginAuthMfaEnrollment, getChallengeCookieData, cookies_get, store_get, bind at 1 2 3, call at 1.
  destruct (Hst (trace w)) as [Hr _]. cbn [Resp]. rewrite Hr. cbn. rewrite Hj, lookup_singleton_eq.
  rewrite (or_undefined_nonempty forged Hf). cbn. rewrite Hp. unfold catch, bind at 1. cbn [AuthProvider.beginMfaEnrollment P Workos.workos].
  unfold Workos.beginMfaEnrollment, bind at 1.
  destruct (NoThrow_catch (A := unit) (existing <- call (WorkOS (ListUserAuthFactors userId)) ;;
      each (fun f => call (WorkOS (DeleteFactor (wf_id f))) ;; ret tt) (List.filter (fun f => negb (Js.truthy_obj (wf_totp f))) existing))
      (fun _ => ret tt) (fun _ => NoThrow_ret tt) env (log_call ReadCookies w)) as ([] & w1 & E).
  rewrite E. unfold call. rewrite Hc. cbn. eexists. split; [done|]. apply in_app_iff. right. by left.
Qed.
