(* ===== verification/Routes.v ===== *)
(** * The routes around signing in

    web/apps/dashboard/proxy.ts, lib/auth/middleware.ts, app/auth/sign-in/redirect-utils.ts,
    app/join/route.ts, app/auth/continue/route.ts, app/auth/sso-callback/route.ts,
    app/api/auth/invitation/route.ts and app/api/webhooks/workos/route.ts. A URL is given
    by what the code reads of it; the target of a redirect is a page of the site with its
    query parameters, or a reference that is resolved against the URL of the request. *)

From Stdlib Require Import ZArith Bool Ascii String Lia.
From stdpp Require Import base list gmap strings.
From S2P Require Import Prelude Helpers StripeTypes AuthTypes Effects Fixtures Cookies Sessions AuthProvider Workos BillingOps Trpc.
From S2P Require Import AuthActions AuthSafety AuthFlows.

Local Open Scope Z_scope.

(** ** Redirects *)

Inductive Target :=
(* new URL(path, request.url), then searchParams.set(...) *)
| Page (path : string) (query : list (string * string))
(* new URL(reference, request.url) *)
| Reference (reference : string)
| Absolute (url : string).

(** [searchParams.set]. *)
Fixpoint params_set (k v : string) (q : list (string * string)) : list (string * string) :=
  match q with
  | [] => [(k, v)]
  | (k', v') :: q' => if String.eqb k' k then (k, v) :: List.filter (fun e => negb (String.eqb (fst e) k)) q' else (k', v') :: params_set k v q'
  end.

Definition page_set (k v : string) (t : Target) : Target :=
  match t with Page p q => Page p (params_set k v q) | t => t end.

(** What happens to a cookie of the response. *)
Inductive CookieOp := SetOp (c : Cookie) | DeleteOp (name : string).

Record Reply := { reply_target : Target; reply_cookies : list CookieOp }.

Definition redirect_to (t : Target) : Reply := {| reply_target := t; reply_cookies := [] |}.

Definition setCookiesOnResponse (r : Reply) (cookieList : list Cookie) : Reply :=
  {| reply_target := reply_target r; reply_cookies := reply_cookies r ++ List.map SetOp cookieList |}.

Definition delete_on (name : string) (r : Reply) : Reply :=
  {| reply_target := reply_target r; reply_cookies := reply_cookies r ++ [DeleteOp name] |}.

(** The first position of one of two characters splits the string. *)
Fixpoint split_suffix (s : string) : string * string :=
  match s with
  | EmptyString => (EmptyString, EmptyString)
  | String c r => if Ascii.eqb c "?" || Ascii.eqb c "#" then (EmptyString, s) else let '(a, b) := split_suffix r in (String c a, b)
  end.

Definition resolveRedirectUrl (redirectParam : option string) (workspaceSlug : option string) : option string :=
  match or_undefined redirectParam with
  | None => None
  | Some p =>
      if negb (Redirect.isSafeRedirectPath p) then None
      else
        match or_undefined workspaceSlug with
        | None => Some p
        | Some slug =>
            let '(pathOnly, suffix) := split_suffix p in
            match Str.split_on "/" pathOnly with
            | s0 :: s1 :: rest =>
                if Js.truthy_string s1 && negb (String.eqb s1 slug) then Some (Str.join "/" (s0 :: slug :: rest) +:+ suffix)
                else Some p
            | _ => Some p
            end
        end
  end.

(** ** proxy.ts *)

Record Req := {
  req_host : string;
  req_pathname : string;
  (* with its question mark *)
  req_search : string;
  req_method : string;
  req_cookies : gmap string string;
}.

(** [NextResponse.next()], with the headers that are added to the request and the
    Set-Cookie lines of the response. *)
Inductive ProxyReply :=
| ProxyRedirect (t : Target)
| ProxyNext (headers : list (string * string)) (set_cookie : list string).

Definition publicPaths : list string :=
  ["/auth/sign-in"; "/auth/sign-up"; "/auth/sso-callback"; "/auth/oauth-sign-in"; "/auth/continue"; "/auth/join"; "/join";
   "/join/success"; "/favicon.ico"; "/api/webhooks/stripe"; "/api/webhooks/workos"; "/api/v1/github/verify"; "/api/auth/refresh";
   "/success"; "/share"; "/_next/*"; "/integrations/domain-connect/callback"]%string.

Definition last_char (s : string) : string := String.substring (String.length s - 1) 1 s.
Definition but_last (s : string) : string := String.substring 0 (String.length s - 1) s.

Definition isPublicPath (path : string) : bool :=
  existsb (fun pubPath => String.eqb pubPath path || (String.eqb (last_char pubPath) "*" && String.prefix (but_last pubPath) path))
    publicPaths.

Section Routes.

Context {P : AuthProvider}.

Definition authMiddleware (r : Req) : M SessionResult := updateSession validateSession refreshSession (Some (req_cookies r)).

Definition to_sign_in (r : Req) : Target :=
  let currentPath := req_pathname r +:+ req_search r in
  if Js.truthy_string currentPath && negb (String.eqb currentPath "/") then Page SIGN_IN_URL [("redirect"%string, currentPath)]
  else Page SIGN_IN_URL [].

Definition session_headers (r : SessionResult) : list (string * string) :=
  match session_header r with Some v => [("x-unkey-session"%string, v)] | None => [] end.

(** The part behind the public paths. *)
Definition guarded (r : Req) : M ProxyReply :=
  let isApiPath := String.prefix "/api/" (req_pathname r) in
  catch (
    s <- authMiddleware r ;;
    match result_session s with
    | None => ret (if isApiPath then ProxyNext [] [] else ProxyRedirect (to_sign_in r))
    | Some _ =>
        ret (ProxyNext (session_headers s ++ [("x-current-path"%string, req_pathname r +:+ req_search r)]) (set_cookie s))
    end) (fun _ => ret (if isApiPath then ProxyNext [] [] else ProxyRedirect (to_sign_in r))).

Definition proxy (r : Req) : M ProxyReply :=
  if String.eqb (req_host r) "sentinel.new" then ret (ProxyRedirect (Absolute "https://app.unkey.com/sentinel-new"))
  else if String.eqb (req_pathname r) "/auth/join" then ret (ProxyRedirect (Reference ("/join" +:+ req_search r)))
  else
    e <- appEnv ;;
    let isEnabled := negb (String.eqb (AUTH_PROVIDER e) "local") in
    let isAuthEntryPath := String.prefix "/auth/sign-in" (req_pathname r) || String.prefix "/auth/sign-up" (req_pathname r) in
    bounced <- (if isAuthEntryPath && String.eqb (req_method r) "GET" && isEnabled then
                  catch (s <- authMiddleware r ;; ret (match result_session s with Some _ => true | None => false end))
                    (fun _ => ret false)
                else ret false) ;;
    if bounced : bool then ret (ProxyRedirect (Page "/apis" []))
    else if isPublicPath (req_pathname r) then ret (ProxyNext [] [])
    else if negb isEnabled then ret (ProxyNext [] [])
    else guarded r.

(** ** app/join *)

Definition join_GET (invitation_token : option string) : M Reply :=
  match or_undefined invitation_token with
  | None => ret (redirect_to (Page "/apis" []))
  | Some invitationToken =>
      session <- getBaseAuth validateSession refreshSession None ;;
      match or_undefined (option_map s_userId session) with
      | Some userId =>
          result <- processPostAuthInvitation invitationToken userId ;;
          match result with
          | InvitationRefused _ => ret (redirect_to (Page "/apis" [("invitation_token"%string, invitationToken)]))
          | InvitationAccepted organizationId switched =>
              let success := Page "/join/success" [("from_invite", "true")]%string in
              let success := if switched then success else page_set "switch_required" "true" success in
              target <- catch (org <- getOrg organizationId ;;
                               ret (if Js.truthy_string (org_name org) then page_set "org_name" (org_name org) success else success))
                          (fun _ => ret success) ;;
              ret (redirect_to target)
          end
      | None =>
          invitation <- settle (getInvitation invitationToken) ;;
          match invitation with
          | inl _ | inr None => ret (redirect_to (Page "/apis" []))
          | inr (Some i) =>
              if negb (String.eqb (inv_state i) "pending") then ret (redirect_to (Page "/apis" []))
              else
                let email := normalizeEmail (inv_email i) in
                existingUser <- catch (findUser email) (fun _ => ret None) ;;
                let page := match existingUser with Some _ => "/auth/sign-in" | None => "/auth/sign-up" end%string in
                ret (redirect_to (Page page [("invitation_token"%string, invitationToken); ("email"%string, email)]))
          end
      end
  end.

(** ** app/auth/continue *)

(** [searchParams.set(k, v)] when there is a value. *)
Definition set_if (k : string) (v : option string) (t : Target) : Target :=
  match or_undefined v with Some x => page_set k x t | None => t end.

Definition challenge_name (t : AuthChallengeType) : string :=
  match t with Mfa => "mfa" | MfaEnroll => "mfa-enroll" | RadarEmail => "radar-email" | RadarSms => "radar-sms" end.

Definition continue_GET (cookies : gmap string string) (orgsParam redirectParam : option string) : M Reply :=
  let selectorUrl := set_if "redirect" redirectParam (set_if "orgs" orgsParam (Page SIGN_IN_URL [])) in
  match or_undefined (cookies !! PENDING_SESSION_COOKIE) with
  | None => ret (redirect_to (Page SIGN_IN_URL []))
  | Some pendingToken =>
      match or_undefined (cookies !! UNKEY_LAST_ORG_COOKIE) with
      | None => ret (redirect_to selectorUrl)
      | Some lastUsedOrgId =>
          catch (
            result <- completeOrgSelection lastUsedOrgId pendingToken ;;
            match result with
            | VerificationError e =>
                match err_pending e, err_cookies e with
                | PendingChallenge ty, Some l =>
                    ret (setCookiesOnResponse
                           (redirect_to (set_if "redirect" redirectParam (Page SIGN_IN_URL [("challenge"%string, challenge_name ty)]))) l)
                | _, _ => ret (delete_on UNKEY_LAST_ORG_COOKIE (redirect_to selectorUrl))
                end
            | Navigation redirectTo l =>
                destination <-
                  (match or_undefined redirectParam with
                   | Some p =>
                       if Redirect.isSafeRedirectPath p then
                         slug <- catch (query (fun d => option_map ws_slug (find_by_org lastUsedOrgId d))) (fun _ => ret None) ;;
                         ret (Js.coalesce (resolveRedirectUrl (Some p) slug) redirectTo)
                       else ret redirectTo
                   | None => ret redirectTo
                   end) ;;
                ret (delete_on PENDING_SESSION_COOKIE (setCookiesOnResponse (redirect_to (Reference destination)) l))
            end) (fun _ => ret (delete_on UNKEY_LAST_ORG_COOKIE (redirect_to selectorUrl)))
      end
  end.

(** ** app/auth/sso-callback *)

(** [parse_state] is JSON.parse after decodeURIComponent, [None] when one of them throws;
    its first component is [redirectUrlComplete] where it is a string. *)
Definition deep_link (parse_state : string -> option (option string * option string)) (state : option string) : option string :=
  match or_undefined state with
  | None => None
  | Some s =>
      match parse_state s with
      | None => None
      | Some (r, _) =>
          let t := Redirect.sanitizeRedirectPath r EmptyString in
          if Js.truthy_string t && negb (String.eqb t "/apis") then Some t else None
      end
  end.

Definition is_challenge (p : Pending) : bool := match p with PendingChallenge _ => true | _ => false end.

Definition code_is (c d : AuthErrorCode) : bool := String.eqb (code_name c) (code_name d).

(** [stringify_orgs] is JSON.stringify on the organizations. *)
Definition sso_callback_GET (parse_state : string -> option (option string * option string))
    (stringify_orgs : list Organization -> string) (cb : OAuthCallback) : M Reply :=
  authResult <- completeOAuthSignIn cb ;;
  match authResult with
  | VerificationError e =>
      match err_cookies e with
      | Some ((_ :: _) as l) =>
          if code_is (err_code e) ORGANIZATION_SELECTION_REQUIRED || code_is (err_code e) EMAIL_VERIFICATION_REQUIRED
             || is_challenge (err_pending e) then
            let url := Page (if code_is (err_code e) ORGANIZATION_SELECTION_REQUIRED then "/auth/continue" else SIGN_IN_URL)%string [] in
            let url := set_if "redirect" (deep_link parse_state (cb_state cb)) url in
            let url := match err_pending e with PendingOrgSelection _ orgs => page_set "orgs" (stringify_orgs orgs) url | _ => url end in
            let url := if code_is (err_code e) EMAIL_VERIFICATION_REQUIRED then page_set "verify" "email" url else url in
            let url := match err_pending e with PendingChallenge ty => page_set "challenge" (challenge_name ty) url | _ => url end in
            ret (setCookiesOnResponse (redirect_to url) l)
          else ret (redirect_to (Page SIGN_IN_URL [("error"%string, code_name (err_code e))]))
      | _ => ret (redirect_to (Page SIGN_IN_URL [("error"%string, code_name (err_code e))]))
      end
  | Navigation redirectTo l =>
      ret (setCookiesOnResponse
             (redirect_to (Reference (Redirect.sanitizeRedirectPath (Some redirectTo) Redirect.default_fallback))) l)
  end.

(** ** app/api/auth/invitation *)

Inductive InvitationReply :=
| InvitationOk (organizationId : string) (switched : bool)
| InvitationFailed (status : Z) (error : string).

(** [body] is [None] when the body is not JSON; its token is [None] when it is not a
    string. *)
Definition invitation_POST (body : option (option string)) : M InvitationReply :=
  catch (
    session <- getBaseAuth validateSession refreshSession None ;;
    match or_undefined (option_map s_userId session) with
    | None => ret (InvitationFailed 401 "User not authenticated")
    | Some userId =>
        match body with
        | None => ret (InvitationFailed 400 "Invalid JSON body")
        | Some t =>
            let token := Str.trim (Js.coalesce t EmptyString) in
            if negb (Js.truthy_string token) then ret (InvitationFailed 400 "Invitation token is required")
            else
              result <- processPostAuthInvitation token userId ;;
              match result with
              | InvitationRefused m => ret (InvitationFailed 400 m)
              | InvitationAccepted org switched => ret (InvitationOk org switched)
              end
        end
    end) (fun _ => ret (InvitationFailed 500 "Internal server error")).

End Routes.

(** ** app/api/webhooks/workos *)

(** [sendWelcomeEmail] of package resend: five minutes from now, errors are logged. *)
Definition sendWelcomeEmail (email : string) : M unit :=
  now <- date_now ;;
  catch (error <- call (EmailsSend email "Welcome to Unkey" (Some (now + 5 * 60 * 1000))) ;;
         match error with None => ret tt | Some m => throw (OtherError m) end) (fun _ => ret tt).

(** The status of the response. *)
Definition workos_webhook_POST (signature payload : option string) : M Z :=
  e <- appEnv ;;
  if negb (Js.truthy (WORKOS_API_KEY e)) || negb (Js.truthy (WORKOS_WEBHOOK_SECRET e)) || negb (Js.truthy (RESEND_API_KEY e))
     || negb (Js.truthy (RESEND_AUDIENCE_ID e)) then ret 400
  else
    match or_undefined signature with
    | None => ret 400
    | Some sigHeader =>
        match or_undefined payload with
        | None => ret 400
        | Some body =>
            catch (
              webhook <- call (ConstructEvent body sigHeader) ;;
              if String.eqb (ev_event webhook) "user.created" || String.eqb (ev_event webhook) "user.updated" then
                match or_undefined (ev_email webhook) with
                | None => ret 400
                | Some email =>
                    if negb (ev_emailVerified webhook) then ret 200
                    else
                      existingContact <- call (ContactsGet email) ;;
                      if fst existingContact : bool then ret 200
                      else
                        (match snd existingContact with
                         | Some (name, message) =>
                             if negb (String.eqb name "not_found") then
                               throw (OtherError ("Failed to look up Resend contact: " +:+ message))
                             else ret tt
                         | None => ret tt end) ;;
                        call (ContactsCreate email) ;;
                        sendWelcomeEmail email ;;
                        ret 200
                end
              else ret 200) (fun _ => ret 400)
        end
    end.

(** ** Pages need a session *)

Section WorkosRoutes.

Context (parse_state : string -> option (option string * option string)) (stringify_state : string -> option string -> string).
Context (stringify_challenge : AuthChallenge -> string) (authorizationUrl : string -> string -> string -> string).

Abbreviation workos := (Workos.workos parse_state stringify_state stringify_challenge authorizationUrl).

Context (env : Env) (Hp : AUTH_PROVIDER (app_env env) <> "local"%string).

(** WorkOS vouches for a session of the request. *)
Definition has_session (r : Req) : Prop :=
  exists token res s, req_cookies r !! UNKEY_SESSION_COOKIE = Some token /\ authenticated_as env token res s.

Lemma authMiddleware_run r w :
  exists s w', authMiddleware (P := workos) r env w = (Ret s, w') /\ forall x, result_session s = Some x -> has_session r.
Proof.
  destruct (NoThrow_updateSession env Workos.validateSession Workos.refreshSession (Some (req_cookies r)) Hp w) as (s & w' & E).
  exists s, w'. split; [done|]. intros x Hx.
  destruct (updateSession_ret env (Some (req_cookies r)) w s w' x Hp E Hx) as (t & Ht & Ha). by exists t, s, x.
Qed.

Lemma guarded_run r w :
  exists reply w', guarded (P := workos) r env w = (Ret reply, w') /\
    match reply with
    | ProxyRedirect t => t = to_sign_in r
    | ProxyNext _ _ => String.prefix "/api/" (req_pathname r) = true \/ has_session r
    end.
Proof.
  unfold guarded, catch, bind. destruct (authMiddleware_run r w) as (s & w' & -> & Hs).
  destruct (result_session s) as [x|]; [eexists _, _; split; [done|]; right; eauto|].
  destruct (String.prefix _ _); eexists _, _; split; try done. by left.
Qed.

Lemma bounce_run r (b : bool) w :
  exists bounced w', (if b then catch (s <- authMiddleware (P := workos) r ;;
                                       ret (match result_session s with Some _ => true | None => false end)) (fun _ => ret false)
                      else ret false) env w = (Ret bounced, w') /\ (bounced = true -> has_session r).
Proof.
  destruct b; [|by eexists _, _]. unfold catch, bind. destruct (authMiddleware_run r w) as (s & w' & -> & Hs).
  destruct (result_session s); eexists _, _; split; try done. intros _. by eapply Hs.
Qed.

End WorkosRoutes.

(** Claim C18. No page is served without a session. With WorkOS as provider, whatever the
    request and its cookies and whatever WorkOS answers, the proxy answers and does not
    throw; a path that is neither public nor an API route is passed on only when WorkOS
    vouches for the session whose token the request carried, and otherwise redirected to
    the sign-in page, with the path to come back to, or, for a visitor of the sign-in
    page who has a session, to the dashboard. *)
Theorem pages_need_session (parse_state : string -> option (option string * option string))
    (stringify_state : string -> option string -> string) (stringify_challenge : AuthChallenge -> string)
    (authorizationUrl : string -> string -> string -> string) (r : Req) (env : Env) (w : World) :
  AUTH_PROVIDER (app_env env) <> "local"%string -> req_host r <> "sentinel.new"%string ->
  isPublicPath (req_pathname r) = false -> String.prefix "/api/" (req_pathname r) = false ->
  exists reply w',
    proxy (P := Workos.workos parse_state stringify_state stringify_challenge authorizationUrl) r env w = (Ret reply, w') /\
    match reply with
    | ProxyNext _ _ => has_session env r
    | ProxyRedirect t => t = to_sign_in r \/ t = Page "/apis" [] /\ has_session env r
    end.
Proof.
  intros Hp Hh Hpub Hapi. unfold proxy. rewrite (proj2 (String.eqb_neq _ _) Hh).
  assert (Hj : String.eqb (req_pathname r) "/auth/join" = false).
  { apply String.eqb_neq. intros E. rewrite E in Hpub. discriminate. }
  rewrite Hj. unfold bind at 1, appEnv. rewrite (proj2 (String.eqb_neq _ _) Hp). cbn [negb]. cbv zeta.
  unfold bind at 1. destruct (bounce_run parse_state stringify_state stringify_challenge authorizationUrl env Hp r
    ((String.prefix "/auth/sign-in" (req_pathname r) || String.prefix "/auth/sign-up" (req_pathname r))
     && String.eqb (req_method r) "GET" && true) w) as (b & w1 & -> & Hb).
  destruct b; [eexists _, _; split; [done|]; right; split; [done|by apply Hb]|]. rewrite Hpub.
  destruct (guarded_run parse_state stringify_state stringify_challenge authorizationUrl env Hp r w1) as (reply & w2 & -> & Hr).
  exists reply, w2. split; [done|]. destruct reply; [by left|]. destruct Hr as [Hr|]; [congruence|done].
Qed.

Definition demo_request_of (path : string) (cookies : list (string * string)) : Req :=
  {| req_host := "app.unkey.com"; req_pathname := path; req_search := EmptyString; req_method := "GET";
     req_cookies := list_to_map cookies |}.

Lemma pages_need_session_witness :
  exists reply w',
    proxy (P := demo_provider) (demo_request_of "/acme/apis" [(UNKEY_SESSION_COOKIE, "sealed_1"%string)]) auth_env (browser [])
      = (Ret reply, w') /\
    match reply with
    | ProxyNext _ _ => has_session auth_env (demo_request_of "/acme/apis" [(UNKEY_SESSION_COOKIE, "sealed_1"%string)])
    | ProxyRedirect t => True
    end.
Proof.
  destruct (pages_need_session (fun _ => None) (fun _ _ => EmptyString) (fun _ => EmptyString) (fun _ _ _ => EmptyString)
    (demo_request_of "/acme/apis" [(UNKEY_SESSION_COOKIE, "sealed_1"%string)]) auth_env (browser []))
    as (reply & w' & E & H); [discriminate|discriminate|reflexivity|reflexivity|].
  exists reply, w'. split; [exact E|]. destruct reply; [exact I|exact H].
Defined.

(** ** A refresh before the handler *)

(** A refresh token is spent by the first refresh. *)
Definition single_use (env : Env) : Prop :=
  forall tr t, In (WorkOS (SessionRefreshCall t None)) tr ->
    exists reason, ask env tr (WorkOS (SessionRefreshCall t None)) = inr (NotRefreshed reason).

Section Refresh.

Context (env : Env) (token : string) (cookies : gmap string string).
Context (Hp : AUTH_PROVIDER (app_env env) <> "local"%string) (Ht : Js.truthy_string token = true).
Context (Hc : cookies !! UNKEY_SESSION_COOKIE = Some token).
Context (Hexpired : forall tr, ask env tr (WorkOS (SessionAuthenticate token)) = inr (NotAuthenticated INVALID_JWT)).

Abbreviation update := (updateSession Workos.validateSession Workos.refreshSession (Some cookies)).

(** An expired access token is refreshed. *)
Lemma update_refreshes w :
  update env w = catch (refresh_session Workos.refreshSession (Some cookies) token) (fun _ => ret (no_session None [])) env
                   (log_call (WorkOS (SessionAuthenticate token)) w).
Proof.
  unfold updateSession, bind at 1, appEnv. rewrite (proj2 (String.eqb_neq _ _) Hp). cbn [getCookie]. rewrite Hc.
  unfold catch at 1, bind at 1, ret at 1. rewrite Ht. unfold catch at 1, validate_or_refresh, bind at 1.
  unfold Workos.validateSession. rewrite Ht. cbn [negb]. unfold catch at 1, bind at 1, call at 1. rewrite Hexpired. cbn [String.eqb].
  change (String.eqb INVALID_JWT INVALID_JWT) with true. cbn [ret Workos.invalid_session isValid shouldRefresh andb].
  unfold catch. destruct (refresh_session _ _ _ _ _) as [[a|e] w']; [done|reflexivity].
Qed.

Lemma update_spends w s w' : update env w = (Ret s, w') -> In (WorkOS (SessionRefreshCall token None)) (trace w').
Proof.
  rewrite update_refreshes. unfold catch, refresh_session, bind at 1, Workos.refreshSession. rewrite Ht. cbn [negb].
  unfold bind at 1, call at 1. set (w0 := log_call (WorkOS (SessionAuthenticate token)) w).
  assert (H0 : In (WorkOS (SessionRefreshCall token None)) (trace (log_call (WorkOS (SessionRefreshCall token None)) w0))).
  { cbn. apply in_app_iff. right. by left. }
  destruct (ask env (trace w0) _) as [e|[[rs|] sealed role|reason]]; try (intros [= _ <-]; exact H0).
  unfold bind at 1, date_now. destruct (Js.truthy sealed); cbn; intros [= _ <-]; cbn; apply in_app_iff; by left.
Qed.

Lemma update_spent w : single_use env -> In (WorkOS (SessionRefreshCall token None)) (trace w) ->
  exists w', update env w = (Ret (no_session None []), w').
Proof.
  intros Hs Hin. rewrite update_refreshes. unfold catch, refresh_session, bind at 1, Workos.refreshSession. rewrite Ht. cbn [negb].
  unfold bind at 1, call at 1. destruct (Hs (trace (log_call (WorkOS (SessionAuthenticate token)) w)) token) as [reason Hr].
  { cbn. apply in_app_iff. by left. }
  rewrite Hr. by eexists.
Qed.

End Refresh.

(** The proxy refreshes an expired session of an API request and hands the new cookie to
    the response only; the context of the procedure then reads the old cookie from the
    request, refreshes it again and, as refresh tokens are spent by their first use, finds
    no session: the procedure answers UNAUTHORIZED to a user who is signed in. *)
Theorem refreshed_request_unauthorized (parse_state : string -> option (option string * option string))
    (stringify_state : string -> option string -> string) (stringify_challenge : AuthChallenge -> string)
    (authorizationUrl : string -> string -> string -> string) (r : Req) (token : string) (env : Env) (w w1 : World) (reply : ProxyReply) :
  let P := Workos.workos parse_state stringify_state stringify_challenge authorizationUrl in
  AUTH_PROVIDER (app_env env) <> "local"%string -> single_use env -> token <> EmptyString ->
  req_cookies r !! UNKEY_SESSION_COOKIE = Some token ->
  (forall tr, ask env tr (WorkOS (SessionAuthenticate token)) = inr (NotAuthenticated INVALID_JWT)) ->
  guarded (P := P) r env w = (Ret reply, w1) ->
  exists w2, getBaseAuth Workos.validateSession Workos.refreshSession (Some (req_cookies r)) env w1 = (Ret None, w2).
Proof.
  intros P Hp Hs Hne Hc He H. assert (Ht : Js.truthy_string token = true) by (by destruct token).
  assert (Hin : In (WorkOS (SessionRefreshCall token None)) (trace w1)).
  { unfold guarded, catch, bind in H. destruct (authMiddleware r env w) as [[s|e] w2] eqn:Em.
    - apply (update_spends env token (req_cookies r) Hp Ht Hc He) in Em. destruct (result_session s); by injection H as _ <-.
    - exfalso. destruct (NoThrow_updateSession env Workos.validateSession Workos.refreshSession (Some (req_cookies r)) Hp w) as (a & w3 & E).
      change (updateSession Workos.validateSession Workos.refreshSession (Some (req_cookies r)) env w = (Throw e, w2)) in Em.
      rewrite E in Em. discriminate Em. }
  destruct (update_spent env token (req_cookies r) Hp Ht Hc He w1 Hs Hin) as [w2 E].
  exists w2. unfold getBaseAuth, catch, bind. by rewrite E.
Qed.

(** ** Redirects of the routes *)

Definition on_site (t : Target) : Prop :=
  match t with
  | Page p _ => Redirect.same_origin p = true
  | Reference r => Redirect.same_origin r = true
  | Absolute _ => False
  end.

(** Slugs of workspaces start with a character of a path segment. *)
Definition slugs_plain (d : Db) : Prop :=
  forall ws, In ws (List.map snd (map_to_list (workspaces d))) ->
    match ws_slug ws with String c _ => Redirect.safe_char c = true | EmptyString => True end.

Lemma on_site_set k v t : on_site t -> on_site (page_set k v t).
Proof. by destruct t. Qed.

Lemma on_site_set_if k v t : on_site t -> on_site (set_if k v t).
Proof. intros Ht. unfold set_if. destruct (or_undefined v); [by apply on_site_set|done]. Qed.

Lemma split_suffix_slash r : fst (split_suffix (String "/" r)) = String "/" (fst (split_suffix r)).
Proof. cbn. by destruct (split_suffix r). Qed.

Lemma resolve_same_origin p slug t :
  match slug with Some (String c _) => Redirect.safe_char c = true | _ => True end ->
  resolveRedirectUrl p slug = Some t -> Redirect.same_origin t = true.
Proof.
  intros Hs. unfold resolveRedirectUrl. destruct (or_undefined p) as [u|]; [|done].
  destruct (Redirect.isSafeRedirectPath u) eqn:Hu; [|done]. cbn [negb].
  pose proof (Redirect.safe_same_origin u Hu) as Hso.
  destruct slug as [slug|]; [|by intros [= <-]]. unfold or_undefined. cbn [Js.truthy].
  destruct (Js.truthy_string slug) eqn:Et; [|by intros [= <-]].
  destruct (Redirect.safe_starts_slash u Hu) as [r ->]. pose proof (split_suffix_slash r) as Esl.
  destruct (split_suffix (String "/" r)) as [path suffix]. cbn [fst] in Esl. subst path.
  cbn [Str.split_on]. rewrite Ascii.eqb_refl. destruct (Str.split_on "/" _) as [|s1 rest]; [by intros [= <-]|].
  destruct (_ && _); [|by intros [= <-]]. intros [= <-]. destruct slug as [|c s]; [done|]. cbn.
  destruct rest as [|x rest]; cbn; apply Redirect.plain_same_origin; by left.
Qed.

Section OnSite.

Context (parse_state : string -> option (option string * option string)) (stringify_state : string -> option string -> string).
Context (stringify_challenge : AuthChallenge -> string) (authorizationUrl : string -> string -> string -> string).

Abbreviation workos := (Workos.workos parse_state stringify_state stringify_challenge authorizationUrl).

Lemma orgSelection_target o t env w r l w' :
  Workos.completeOrgSelection stringify_challenge o t env w = (Ret (Navigation r l), w') -> r = "/apis"%string /\ db w' = db w.
Proof.
  intros H. apply bind_ret in H as (x & w1 & H1 & H). destruct x as [u k|e]; [|destruct (Str.contains _ _); done].
  injection H as <- <- <-. apply catch_ret in H1 as [H1|(e & w2 & _ & H1)].
  - apply bind_ret in H1 as (o1 & w2 & Hc & H1). apply (call_ret (WorkOS (AuthenticateWith (WithOrganizationSelection t o) Workos.no_metadata))) in Hc as [_ Hd].
    destruct o1 as [v|]; [|done]. destruct (Js.truthy_string v); [|done]. apply bind_ret in H1 as (ae & w3 & [= <- <-] & [= <- _ <-]). done.
  - apply bind_ret in H1 as (o1 & w3 & _ & H1). done.
Qed.

Lemma find_by_org_slug org d ws : slugs_plain d -> find_by_org org d = Some ws ->
  match ws_slug ws with String c _ => Redirect.safe_char c = true | EmptyString => True end.
Proof. intros Hd Hf. apply find_some in Hf as [Hin _]. by apply Hd. Qed.

Lemma continue_on_site cookies orgs red env w reply w' :
  slugs_plain (db w) -> continue_GET (P := workos) cookies orgs red env w = (Ret reply, w') -> on_site (reply_target reply).
Proof.
  intros Hd. unfold continue_GET. set (sel := set_if _ _ _).
  assert (Hsel : on_site sel) by (by apply on_site_set_if, on_site_set_if).
  destruct (or_undefined (cookies !! PENDING_SESSION_COOKIE)) as [pending|]; [|by intros [= <- _]].
  destruct (or_undefined (cookies !! UNKEY_LAST_ORG_COOKIE)) as [org|]; [|by intros [= <- _]].
  intros H. apply catch_ret in H as [H|(e & w1 & _ & H)]; [|by injection H as <- _].
  apply bind_ret in H as (result & w1 & H1 & H). destruct result as [to_ l|e].
  - cbn in H1. apply orgSelection_target in H1 as [-> Hw1]. apply bind_ret in H as (dest & w2 & H1 & H). injection H as <- _. cbn.
    destruct (or_undefined red) as [p|]; [|by injection H1 as <- _].
    destruct (Redirect.isSafeRedirectPath p); [|by injection H1 as <- _].
    apply bind_ret in H1 as (slug & w3 & Hq & [= <- _]).
    assert (Hslug : match slug with Some (String c _) => Redirect.safe_char c = true | _ => True end).
    { apply catch_ret in Hq as [Hq|(e & w4 & _ & Hq)]; [|by injection Hq as <- _]. apply query_ret in Hq as [-> _].
      rewrite Hw1. destruct (find_by_org org (db w)) as [ws|] eqn:Ef; [|done]. cbn. by apply find_by_org_slug with org (db w). }
    destruct (resolveRedirectUrl (Some p) slug) as [t|] eqn:Er; [|done]. cbn. by apply (resolve_same_origin (Some p) slug).
  - destruct (err_pending e); try (by injection H as <- _). destruct (err_cookies e); injection H as <- _; [|done].
    cbn. by apply on_site_set_if.
Qed.

Lemma join_on_site token env w reply w' : join_GET (P := workos) token env w = (Ret reply, w') -> on_site (reply_target reply).
Proof.
  unfold join_GET. destruct (or_undefined token) as [t|]; [|by intros [= <- _]]. intros H.
  apply bind_ret in H as (s & w1 & _ & H). destruct (or_undefined _) as [u|].
  - apply bind_ret in H as (r & w2 & _ & H). destruct r as [org sw|m]; [|by injection H as <- _].
    apply bind_ret in H as (t' & w3 & H1 & H). injection H as <- _. cbn.
    apply catch_ret in H1 as [H1|(e & w4 & _ & H1)]; [|injection H1 as <- _; by destruct sw].
    apply bind_ret in H1 as (o & w4 & _ & [= <- _]). destruct (Js.truthy_string _); by destruct sw.
  - apply bind_ret in H as (i & w2 & _ & H). destruct i as [e|[i|]]; [by injection H as <- _| |by injection H as <- _].
    destruct (negb _); [by injection H as <- _|]. apply bind_ret in H as (x & w3 & _ & H). injection H as <- _. by destruct x.
Qed.

Lemma sso_on_site stringify_orgs cb env w reply w' :
  sso_callback_GET (P := workos) parse_state stringify_orgs cb env w = (Ret reply, w') -> on_site (reply_target reply).
Proof.
  intros H. apply bind_ret in H as (r & w1 & _ & H). destruct r as [to_ l|e].
  - injection H as <- _. cbn. destruct (Redirect.sanitized_same_origin (Some to_) Redirect.default_fallback) as [Hs|Hs]; [done|].
    cbn in Hs. by rewrite Hs.
  - destruct (err_cookies e) as [[|c l]|]; try (by injection H as <- _). destruct (_ || _); [|by injection H as <- _].
    injection H as <- _. cbn [reply_target setCookiesOnResponse redirect_to].
    set (base := set_if _ _ _). assert (Hb : on_site base) by (apply on_site_set_if; by destruct (code_is _ _)).
    repeat first [case_match|apply on_site_set]; done.
Qed.

End OnSite.

(** The sign-in routes redirect within the site. Whatever cookies, query
    parameters, OAuth state and answers of WorkOS: where the invitation link, the
    continuation after an organization was chosen and the OAuth callback send the
    browser, it stays on the current origin, also when a deep link is rewritten to the
    slug of the chosen workspace. *)
Theorem sign_in_routes_on_site (parse_state : string -> option (option string * option string))
    (stringify_state : string -> option string -> string) (stringify_challenge : AuthChallenge -> string)
    (authorizationUrl : string -> string -> string -> string) (stringify_orgs : list Organization -> string)
    (cookies : gmap string string) (orgs redirect token : option string) (cb : OAuthCallback) (env : Env) (w : World) :
  let P := Workos.workos parse_state stringify_state stringify_challenge authorizationUrl in
  slugs_plain (db w) ->
  forall reply w', continue_GET (P := P) cookies orgs redirect env w = (Ret reply, w')
    \/ join_GET (P := P) token env w = (Ret reply, w')
    \/ sso_callback_GET (P := P) parse_state stringify_orgs cb env w = (Ret reply, w') -> on_site (reply_target reply).
Proof.
  intros P Hd reply w' [H|[H|H]]; [by eapply continue_on_site|by eapply join_on_site|by eapply sso_on_site].
Qed.

Lemma free_db_slugs : slugs_plain free_db.
Proof.
  intros ws Hin. cbn [workspaces free_db] in Hin. rewrite map_to_list_singleton in Hin. destruct Hin as [<-|[]]. reflexivity.
Qed.

Definition continue_demo : M Reply :=
  continue_GET (P := demo_provider) (list_to_map [(PENDING_SESSION_COOKIE, "pending_1"%string); (UNKEY_LAST_ORG_COOKIE, "org_1"%string)])
    None (Some "/old/settings?tab=1"%string).

Lemma continue_demo_run :
  continue_demo auth_env (browser []) = (Ret (fst (match fst (continue_demo auth_env (browser [])) with
                                                   | Ret r => (r, true) | Throw _ => (redirect_to (Absolute EmptyString), false) end)),
                                         snd (continue_demo auth_env (browser [])))
  /\ match fst (continue_demo auth_env (browser [])) with
     | Ret r => reply_target r = Reference "/acme/settings?tab=1" | Throw _ => False end.
Proof. vm_compute. split; reflexivity. Qed.

Lemma sign_in_routes_on_site_witness : on_site (Reference "/acme/settings?tab=1").
Proof.
  destruct continue_demo_run as [E1 E2].
  pose proof (sign_in_routes_on_site (fun _ => None) (fun _ _ => EmptyString) (fun _ => EmptyString) (fun _ _ _ => EmptyString)
    (fun _ => EmptyString) (list_to_map [(PENDING_SESSION_COOKIE, "pending_1"%string); (UNKEY_LAST_ORG_COOKIE, "org_1"%string)])
    None (Some "/old/settings?tab=1"%string) None {| cb_code := None; cb_state := None; cb_metadata := Workos.no_metadata |}
    auth_env (browser []) free_db_slugs _ _ (or_introl E1)) as H.
  revert H E2. destruct (fst (continue_demo auth_env (browser []))) as [r|e]; intros H E2; [|destruct E2].
  cbn in H. rewrite E2 in H. exact H.
Defined.

(** ** Welcome emails *)

Section Welcome.

Context (env : Env) (body sigHeader : string).

(** The delivery is one WorkOS signed, about [email], verified, and the lookup found no
    contact. *)
Definition to_welcome (email : string) : Prop :=
  exists tr ev tr' err, ask env tr (ConstructEvent body sigHeader) = inr ev
    /\ (ev_event ev = "user.created"%string \/ ev_event ev = "user.updated"%string)
    /\ ev_email ev = Some email /\ ev_emailVerified ev = true
    /\ ask env tr' (ContactsGet email) = inr (false, err)
    /\ match err with Some (name, _) => name = "not_found"%string | None => True end.

Definition webhook_call (c : Call) : Prop :=
  match c with
  | ContactsCreate email | EmailsSend email _ _ => to_welcome email
  | ConstructEvent b s => b = body /\ s = sigHeader
  | ContactsGet _ | DateNow => True
  | _ => False
  end.

Lemma webhook_calls : EmitsIn env webhook_call (workos_webhook_POST (Some sigHeader) (Some body)).
Proof.
  assert (Hr : forall z, EmitsIn env webhook_call (ret (A := Z) z)) by (intros z w; exists []; by rewrite app_nil_r).
  unfold workos_webhook_POST. apply EmitsIn_bind; [intros w; exists []; by rewrite app_nil_r|]. intros _ e _ _.
  destruct (_ || _); [auto|]. unfold or_undefined. cbn [Js.truthy]. destruct (Js.truthy_string sigHeader); [|auto].
  destruct (Js.truthy_string body); [|auto]. apply EmitsIn_catch; [|auto].
  apply EmitsIn_bind; [by apply EmitsIn_call|]. intros w ev w1 Hev. apply call_ret in Hev as [Hev _].
  destruct (_ || _) eqn:Ee; [|auto]. destruct (ev_email ev) as [email|] eqn:Em; cbn [Js.truthy]; [|auto].
  destruct (Js.truthy_string email); [|auto]. destruct (ev_emailVerified ev) eqn:Ev; cbn [negb]; [|auto].
  apply EmitsIn_bind; [by apply EmitsIn_call|]. intros w2 [found err] w3 Hc. apply call_ret in Hc as [Hc _]. cbn [fst snd].
  destruct found; [auto|]. apply orb_true_iff in Ee. rewrite !String.eqb_eq in Ee.
  apply EmitsIn_bind; [intros w4; destruct err as [[n m]|]; [destruct (negb _)|]; exists []; by rewrite app_nil_r|].
  intros w4 u w5 Hu. assert (Hw : to_welcome email).
  { exists (trace w), ev, (trace w2), err. repeat split; try done. destruct err as [[n m]|]; [|done].
    destruct (String.eqb_spec n "not_found"); [done|]. discriminate Hu. }
  apply EmitsIn_bind; [by apply EmitsIn_call|]. intros _ _ _ _. apply EmitsIn_bind; [|auto].
  unfold sendWelcomeEmail. apply EmitsIn_bind; [apply (EmitsIn_Emits env webhook_call webhook_call); [done|]; by apply Emits_date_now|].
  intros _ now _ _. apply EmitsIn_catch; [|intros e' w6; exists []; by rewrite app_nil_r].
  apply EmitsIn_bind; [by apply EmitsIn_call|]. intros _ r _ _. destruct r; intros w6; exists []; by rewrite app_nil_r.
Qed.

End Welcome.

(** A welcome email goes only to a verified user who is not a contact yet.
    Whatever is posted to the WorkOS webhook and whatever the services answer, the route
    returns a status and never throws; it looks up, adds and mails a contact only after
    WorkOS accepted the signature of this very body, only for the verified address of
    the event, and only when the lookup found no contact and did not fail otherwise. *)
Theorem welcome_gate (body sigHeader : string) (env : Env) (w : World) :
  exists status w' l, workos_webhook_POST (Some sigHeader) (Some body) env w = (Ret status, w')
    /\ trace w' = trace w ++ l /\ Forall (webhook_call env body sigHeader) l.
Proof.
  destruct (webhook_calls env body sigHeader w) as (l & Hl & Hq).
  assert (Hn : NoThrow (workos_webhook_POST (Some sigHeader) (Some body))).
  { unfold workos_webhook_POST. apply NoThrow_bind; [apply NoThrow_appEnv|]. intros e. destruct (_ || _); [apply NoThrow_ret|].
    destruct (or_undefined (Some sigHeader)); [|apply NoThrow_ret]. destruct (or_undefined (Some body)); [|apply NoThrow_ret].
    apply NoThrow_catch. intros e'. apply NoThrow_ret. }
  destruct (Hn env w) as (status & w' & E). rewrite E in Hl. by exists status, w', l.
Qed.

(** A contact that could not be added is not noticed: the answer of the creation is not
    read, so the user is mailed again with the next event. *)
Theorem welcome_twice (body sigHeader email reason : string) (env : Env) (w : World) :
  Js.truthy (WORKOS_API_KEY (app_env env)) = true -> Js.truthy (WORKOS_WEBHOOK_SECRET (app_env env)) = true ->
  Js.truthy (RESEND_API_KEY (app_env env)) = true -> Js.truthy (RESEND_AUDIENCE_ID (app_env env)) = true ->
  sigHeader <> EmptyString -> body <> EmptyString -> email <> EmptyString ->
  (forall tr, ask env tr (ConstructEvent body sigHeader)
                = inr {| ev_event := "user.updated"; ev_email := Some email; ev_emailVerified := true |}
              /\ ask env tr (ContactsGet email) = inr (false, None)
              /\ ask env tr (ContactsCreate email) = inr (Some reason)
              /\ forall s t, ask env tr (EmailsSend email s t) = inr None) ->
  exists w', workos_webhook_POST (Some sigHeader) (Some body) env w = (Ret 200, w')
    /\ exists t, In (EmailsSend email "Welcome to Unkey" (Some t)) (trace w').
Proof.
  intros H1 H2 H3 H4 Hs Hb He Ha. unfold workos_webhook_POST, bind at 1, appEnv. rewrite H1, H2, H3, H4. cbn [negb orb].
  rewrite (or_undefined_nonempty sigHeader Hs), (or_undefined_nonempty body Hb). unfold catch at 1, bind at 1, call at 1.
  rewrite (proj1 (Ha _)). cbn [ev_event ev_email ev_emailVerified]. rewrite orb_true_r, (or_undefined_nonempty email He).
  cbn [negb]. unfold bind at 1, call at 1. rewrite (proj1 (proj2 (Ha _))). cbn [fst snd]. unfold bind at 1, ret at 1.
  unfold bind at 1, call at 1. rewrite (proj1 (proj2 (proj2 (Ha _)))). unfold bind at 1, sendWelcomeEmail, bind at 1, date_now.
  unfold catch at 1, bind at 1, call at 1. rewrite (proj2 (proj2 (proj2 (Ha _)))). cbn. eexists. split; [done|]. eexists.
  cbn [trace log_call]. rewrite !in_app_iff. cbn. right. by left.
Qed.
