(* ===== verification/Members.v ===== *)
(** * Members, invitations and factors

    The procedures of web/apps/dashboard/lib/trpc/routers/org and routers/user, for any
    authentication provider, and for WorkOS what they may change: an administrator of an
    organization reaches the memberships and invitations of that organization and no
    others, and a user removes the factors of that user only. The inputs have passed
    their schema. *)

From Stdlib Require Import ZArith Bool Ascii String Lia.
From stdpp Require Import base list gmap strings.
From S2P Require Import Prelude Helpers StripeTypes AuthTypes Effects Fixtures Cookies Sessions AuthProvider Workos BillingOps Trpc.
From S2P Require Import AuthActions AuthSafety.

Local Open Scope Z_scope.

Definition internal_error (m : string) : Exn := TRPCError "INTERNAL_SERVER_ERROR" m.

(** [catch (error) { if (error instanceof TRPCError) throw error; throw ... }], with
    what an OrganizationScopeError turns into where the handler tells it apart. *)
Definition or_trpc {A} (scope_error : option Exn) (failed : Exn) (error : Exn) : M A :=
  match error, scope_error with
  | TRPCError _ _, _ => throw error
  | OrganizationScopeError, Some e => throw e
  | _, _ => throw failed
  end.

Definition INVALID_ORG : Exn := TRPCError "BAD_REQUEST" "Invalid organization ID".

(** [if (orgId !== ctx.workspace?.orgId) throw ...]. *)
Definition in_own_org {A} (c : WCtx) (org : string) (e : Exn) (m : M A) : M A :=
  if String.eqb org (cw_orgId (c_workspace c)) then m else throw e.

Section Procedures.

Context {P : AuthProvider}.

(** ** routers/org *)

Definition getInvitationList_procedure (org : string) : WCtx -> M (list OrgInvitation) :=
  requireOrgAdmin (Some org) (fun c =>
    catch (in_own_org c org INVALID_ORG (getInvitationList org))
      (fun _ => throw (internal_error "Failed to fetch organization member list"))).

Definition getOrg_procedure (org : string) : WCtx -> M Organization := fun c =>
  in_own_org c org (TRPCError "NOT_FOUND" "Organization not found")
    (catch (getOrg org) (fun _ => throw (internal_error "Failed to fetch organization"))).

Definition getOrganizationMemberList_procedure : Context -> M (list Membership) :=
  protectedProcedure (fun _ t =>
    catch (getOrganizationMemberList (tenant_id t)) (fun _ => throw (internal_error "Failed to fetch organization memberlist"))).

Definition inviteMember_procedure (email org role : string) : WCtx -> M OrgInvitation :=
  requireOrgAdmin (Some org) (fun c =>
    catch (
      in_own_org c org INVALID_ORG (
        if negb (Js.coalesce (cw_teamEnabled (c_workspace c)) false) then
          throw (TRPCError "FORBIDDEN" "Upgrade to Pro or Business to invite team members.")
        else inviteMember org email role)) (or_trpc None (internal_error "Failed to invite member"))).

Definition MEMBERSHIP_NOT_FOUND : Exn := TRPCError "NOT_FOUND" "Membership not found".
Definition INVITATION_NOT_FOUND : Exn := TRPCError "NOT_FOUND" "Invitation not found".

Definition removeMembership_procedure (membershipId org : string) : WCtx -> M unit :=
  requireOrgAdmin (Some org) (fun c =>
    catch (in_own_org c org INVALID_ORG (removeMembership membershipId org))
      (or_trpc (Some MEMBERSHIP_NOT_FOUND) (internal_error "Failed to remove membership"))).

Definition revokeInvitation_procedure (invitationId org : string) : WCtx -> M unit :=
  requireOrgAdmin (Some org) (fun c =>
    catch (in_own_org c org INVALID_ORG (revokeOrgInvitation invitationId org))
      (or_trpc (Some INVITATION_NOT_FOUND) (internal_error "Failed to revoke invitation"))).

Definition updateMembership_procedure (membershipId org role : string) : WCtx -> M Membership :=
  requireOrgAdmin (Some org) (fun c =>
    catch (in_own_org c org INVALID_ORG (updateMembership membershipId role org))
      (or_trpc (Some MEMBERSHIP_NOT_FOUND) (internal_error "Failed to update membership"))).

(** ** routers/user *)

(** The user with the organization and the role of the session. *)
Definition getCurrentUser_procedure : Context -> M (AuthUser * string * option string) :=
  protectedProcedure (fun u t =>
    catch (
      user <- (match user_profile u with Some p => ret (Some p) | None => getUser (user_id u) end) ;;
      match user with
      | None => throw (TRPCError "NOT_FOUND" "User not found")
      | Some p => ret (p, tenant_id t, tenant_role t)
      end) (or_trpc None (internal_error "Failed to fetch user data"))).

Definition listMemberships_procedure (userId : string) : Context -> M (list Membership) :=
  protectedProcedure (fun u _ =>
    requireSelf (Some userId) u
      (catch (listMemberships userId) (fun _ => throw (internal_error "Failed to fetch memberships")))).

Definition listMfaFactors_procedure : Context -> M (list MfaFactor) :=
  protectedProcedure (fun u _ =>
    catch (listMfaFactors (user_id u)) (fun _ => throw (internal_error "Failed to list MFA factors"))).

Definition startMfaEnrollment : Context -> M MfaEnrollmentStart :=
  protectedProcedure (fun u _ =>
    catch (
      user <- getUser (user_id u) ;;
      match user with
      | None => throw (TRPCError "NOT_FOUND" "User not found")
      | Some p => beginMfaEnrollment (user_id u) (au_email p)
      end) (or_trpc None (internal_error "Failed to start MFA enrollment"))).

Definition verifyMfaEnrollment_procedure (challengeId code : string) : Context -> M bool :=
  protectedProcedure (fun _ _ =>
    catch (verifyMfaEnrollment challengeId code) (fun _ => throw (internal_error "Failed to verify the code"))).

Definition removeMfaFactor_procedure (factorId : string) : Context -> M unit :=
  protectedProcedure (fun u _ =>
    catch (
      factors <- listMfaFactors (user_id u) ;;
      if negb (existsb (fun f => String.eqb (factor_id f) factorId) factors) then throw (TRPCError "NOT_FOUND" "Factor not found")
      else removeMfaFactor factorId) (or_trpc None (internal_error "Failed to remove MFA factor"))).

(** The new session, or the error. *)
Definition switchOrg_procedure (org : string) : Context -> M (string + SessionRefreshResult) :=
  protectedProcedure (fun _ _ =>
    catch (r <- switchOrg org ;; ret (inr r))
      (fun error => ret (inl (Js.coalesce (error_message error) "Failed to switch organization"%string)))).

End Procedures.

(** ** What the procedures may change *)

Inductive MemberRequest :=
| ListInvitationsReq (org : string)
| InviteReq (email org role : string)
| RemoveReq (membershipId org : string)
| RevokeReq (invitationId org : string)
| UpdateReq (membershipId org role : string)
| GetOrgReq (org : string)
| ListMembersReq
| CurrentUserReq
| ListMembershipsReq (userId : string)
| ListFactorsReq
| EnrollReq
| VerifyFactorReq (challengeId code : string)
| RemoveFactorReq (factorId : string)
| SwitchReq (org : string).

Section WorkosMembers.

Context (parse_state : string -> option (option string * option string)) (stringify_state : string -> option string -> string).
Context (stringify_challenge : AuthChallenge -> string) (authorizationUrl : string -> string -> string -> string).

Abbreviation workos := (Workos.workos parse_state stringify_state stringify_challenge authorizationUrl).

Definition serve_member (r : MemberRequest) (ctx : Context) : M unit :=
  match r with
  | ListInvitationsReq org => workspaceProcedure (getInvitationList_procedure (P := workos) org) ctx ;; ret tt
  | InviteReq email org role => workspaceProcedure (inviteMember_procedure (P := workos) email org role) ctx ;; ret tt
  | RemoveReq id org => workspaceProcedure (removeMembership_procedure (P := workos) id org) ctx
  | RevokeReq id org => workspaceProcedure (revokeInvitation_procedure (P := workos) id org) ctx
  | UpdateReq id org role => workspaceProcedure (updateMembership_procedure (P := workos) id org role) ctx ;; ret tt
  | GetOrgReq org => workspaceProcedure (getOrg_procedure (P := workos) org) ctx ;; ret tt
  | ListMembersReq => getOrganizationMemberList_procedure (P := workos) ctx ;; ret tt
  | CurrentUserReq => getCurrentUser_procedure (P := workos) ctx ;; ret tt
  | ListMembershipsReq u => listMemberships_procedure (P := workos) u ctx ;; ret tt
  | ListFactorsReq => listMfaFactors_procedure (P := workos) ctx ;; ret tt
  | EnrollReq => startMfaEnrollment (P := workos) ctx ;; ret tt
  | VerifyFactorReq challenge code => verifyMfaEnrollment_procedure (P := workos) challenge code ctx ;; ret tt
  | RemoveFactorReq id => removeMfaFactor_procedure (P := workos) id ctx
  | SwitchReq org => switchOrg_procedure (P := workos) org ctx ;; ret tt
  end.

Context (env : Env).

(** The caller is an administrator of [org], and it is the organization of the
    workspace. *)
Definition administers (ctx : Context) (org : string) : Prop :=
  exists t ws, ctx_tenant ctx = Some t /\ tenant_id t = org /\ tenant_role t = Some "admin"%string
               /\ ctx_workspace ctx = Some ws /\ cw_orgId ws = org.

Definition signed_in_as (ctx : Context) (userId : string) : Prop := exists u, ctx_user ctx = Some u /\ user_id u = userId.

(** The organization whose members a caller may list: that of the session, and the
    user's own id for a session without one. *)
Definition own_tenant (ctx : Context) (org : string) : Prop :=
  match ctx_tenant ctx with Some t => tenant_id t = org | None => signed_in_as ctx org end.

(** The calls that a request [r] of [ctx] may make, every other one being excluded. *)
Definition within_org (r : MemberRequest) (ctx : Context) (c : Call) : Prop :=
  match c with
  | WorkOS (DeleteOrganizationMembership id) | WorkOS (UpdateOrganizationMembership id _) =>
      exists tr m, ask env tr (WorkOS (GetOrganizationMembership id)) = inr m /\ administers ctx (wm_organizationId m)
  | WorkOS (RevokeInvitation id) =>
      exists tr i org, ask env tr (WorkOS (WorkosGetInvitation id)) = inr i /\ wi_organizationId i = Some org /\ administers ctx org
  | WorkOS (SendInvitation _ org _ _) =>
      administers ctx org /\ exists ws, ctx_workspace ctx = Some ws /\ cw_teamEnabled ws = Some true
  | WorkOS (ListInvitations org) => administers ctx org
  | WorkOS (DeleteFactor id) =>
      exists u tr l, signed_in_as ctx u /\ ask env tr (WorkOS (ListUserAuthFactors u)) = inr l /\ In id (List.map wf_id l)
  | WorkOS (CreateUserAuthFactor u _) => r = EnrollReq /\ signed_in_as ctx u
  | WorkOS (VerifyChallenge challenge code) => r = VerifyFactorReq challenge code /\ exists u, signed_in_as ctx u
  | WorkOS (SessionRefreshCall _ (Some org)) => r = SwitchReq org /\ exists u, signed_in_as ctx u
  | WorkOS (ListUserAuthFactors u) | WorkOS (ListMembershipsOfUser u) => signed_in_as ctx u
  | WorkOS (ListMembershipsOfOrganization org) | WorkOS (ListUsersOfOrganization org) => own_tenant ctx org
  | WorkOS (SessionAuthenticate _) | WorkOS (SessionRefreshCall _ None) | WorkOS (WorkosGetUser _) | WorkOS (GetOrganization _)
  | WorkOS (GetOrganizationMembership _) | WorkOS (WorkosGetInvitation _) | ReadCookies | SetCookie _ | DateNow => True
  | _ => False
  end.

Lemma EmitsIn_throw {A} Q e : EmitsIn env Q (throw (A := A) e).
Proof. intros w. exists []. by rewrite app_nil_r. Qed.

Lemma EmitsIn_ret {A} Q (a : A) : EmitsIn env Q (ret a).
Proof. intros w. exists []. by rewrite app_nil_r. Qed.

Lemma EmitsIn_then {A} Q (m : M A) : EmitsIn env Q m -> EmitsIn env Q (m ;; ret tt).
Proof. intros Hm. apply EmitsIn_bind; [done|]. intros. apply EmitsIn_ret. Qed.

Lemma EmitsIn_or_trpc {A} Q s f e : EmitsIn env Q (or_trpc (A := A) s f e).
Proof. unfold or_trpc. repeat case_match; apply EmitsIn_throw. Qed.

(** A procedure behind [requireOrgAdmin] that also checks the workspace's organization. *)
Lemma org_procedure {A} r ctx org (m : WCtx -> M A) h :
  (forall c, administers ctx org -> ctx_workspace ctx = Some (c_workspace c) -> EmitsIn env (within_org r ctx) (m c)) ->
  (forall e, EmitsIn env (within_org r ctx) (h e)) ->
  EmitsIn env (within_org r ctx)
    (workspaceProcedure (requireOrgAdmin (Some org) (fun c => catch (in_own_org c org INVALID_ORG (m c)) h)) ctx).
Proof.
  intros Hm Hh. unfold workspaceProcedure, requireUser. destruct (ctx_user ctx) as [u|]; [|apply EmitsIn_throw].
  destruct (negb _); [apply EmitsIn_throw|]. unfold requireWorkspace. destruct (ctx_workspace ctx) as [ws|] eqn:Ew; [|apply EmitsIn_throw].
  unfold requireOrgAdmin. destruct (negb (Js.truthy_string org)) eqn:Eo; [apply EmitsIn_throw|]. cbn [c_tenant].
  set (t := Js.coalesce (ctx_tenant ctx) _). destruct (String.eqb_spec org (tenant_id t)) as [Et|]; cbn [negb]; [|apply EmitsIn_throw].
  destruct (is_admin t) eqn:Ea; cbn; [|apply EmitsIn_bind; [apply EmitsIn_catch; [apply EmitsIn_throw|intros; apply EmitsIn_throw]|
    intros w a w1 H; apply catch_ret in H as [H|(e & w2 & _ & H)]; done]].
  apply EmitsIn_bind; [apply EmitsIn_catch; [apply EmitsIn_ret|intros; apply EmitsIn_throw]|]. intros _ _ _ _.
  apply EmitsIn_catch; [|done]. unfold in_own_org. cbn [c_workspace].
  destruct (String.eqb_spec org (cw_orgId ws)) as [Ews|]; [|apply EmitsIn_throw]. apply Hm; [|done].
  assert (Ht : ctx_tenant ctx = Some t).
  { subst t. destruct (ctx_tenant ctx) as [t|]; [done|]. exfalso. by cbn in Ea. }
  exists t, ws. unfold is_admin, Js.eq_ostring in Ea. destruct (tenant_role t) as [role|] eqn:Er; [|done].
  apply String.eqb_eq in Ea. by subst role.
Qed.

Lemma membership_checked id org w w' :
  Workos.assertMembershipInOrg id org env w = (Ret tt, w') ->
  exists tr m, ask env tr (WorkOS (GetOrganizationMembership id)) = inr m /\ wm_organizationId m = org.
Proof.
  intros H. apply bind_ret in H as (o & w1 & H1 & H). destruct (String.eqb_spec o org) as [->|]; [|done].
  apply catch_ret in H1 as [H1|(e & w2 & _ & H1)]; [|by destruct (Workos.isNotFoundError e)].
  apply bind_ret in H1 as (m & w2 & H1 & H2). apply call_ret in H1 as [Ha _]. injection H2 as Hm _. by exists (trace w), m.
Qed.

Lemma invitation_checked id org w w' :
  Workos.assertInvitationInOrg id org env w = (Ret tt, w') ->
  exists tr i, ask env tr (WorkOS (WorkosGetInvitation id)) = inr i /\ wi_organizationId i = Some org.
Proof.
  intros H. apply bind_ret in H as (o & w1 & H1 & H). destruct (Js.eq_ostring o org) eqn:Eo; [|done].
  apply catch_ret in H1 as [H1|(e & w2 & _ & H1)]; [|by destruct (Workos.isNotFoundError e)].
  apply bind_ret in H1 as (m & w2 & H1 & H2). apply call_ret in H1 as [Ha _]. injection H2 as Hm _. exists (trace w), m.
  split; [done|]. rewrite Hm. destruct o as [o|]; [|done]. cbn in Eo. apply String.eqb_eq in Eo. by subst o.
Qed.

(** The calls that every request may make. *)
Definition plain (c : Call) : Prop :=
  match c with
  | WorkOS (SessionAuthenticate _) | WorkOS (SessionRefreshCall _ None) | WorkOS (WorkosGetUser _) | WorkOS (GetOrganization _)
  | WorkOS (GetOrganizationMembership _) | WorkOS (WorkosGetInvitation _)
  | ReadCookies | SetCookie _ | DateNow => True
  | _ => False
  end.

Lemma plain_within {A} r ctx (m : M A) : Emits plain m -> EmitsIn env (within_org r ctx) m.
Proof. apply EmitsIn_Emits. intros [] Hc; try done. destruct c; try done. by destruct organizationId. Qed.

Ltac plainly := repeat first [exact (Emits_call plain (WorkOS _) I)|apply Emits_call; exact I|apply Emits_cookies_get; exact I
  |intros env' w'; exists []; by rewrite app_nil_r|effect_step].

Lemma plain_getBaseAuth : Emits plain (getBaseAuth Workos.validateSession Workos.refreshSession None).
Proof.
  unfold getBaseAuth, updateSession, update_local, validate_or_refresh, refresh_session, Workos.validateSession, Workos.refreshSession,
    getCookie, setSessionCookie, setCookie, store_set. plainly.
Qed.

Lemma EmitsIn_scoped {A} Q e : EmitsIn env Q (Workos.rethrow_scoped (A := A) e).
Proof. destruct e; apply EmitsIn_throw. Qed.

Lemma remove_within r ctx id org : administers ctx org -> EmitsIn env (within_org r ctx) (Workos.removeMembership id org).
Proof.
  intros Ha. unfold Workos.removeMembership. destruct (_ || _); [apply EmitsIn_throw|]. apply EmitsIn_catch; [|apply EmitsIn_scoped].
  apply EmitsIn_bind; [apply plain_within; unfold Workos.assertMembershipInOrg; plainly|]. intros w [] w1 H.
  apply membership_checked in H as (tr & m & Hm & <-). apply EmitsIn_then. apply (EmitsIn_call env (within_org r ctx) (WorkOS _)).
  by exists tr, m.
Qed.

Lemma revoke_within r ctx id org : administers ctx org -> EmitsIn env (within_org r ctx) (Workos.revokeOrgInvitation id org).
Proof.
  intros Ha. unfold Workos.revokeOrgInvitation. destruct (_ || _); [apply EmitsIn_throw|]. apply EmitsIn_catch; [|apply EmitsIn_scoped].
  apply EmitsIn_bind; [apply plain_within; unfold Workos.assertInvitationInOrg; plainly|]. intros w [] w1 H.
  apply invitation_checked in H as (tr & i & Hi & Ho). apply EmitsIn_then. apply (EmitsIn_call env (within_org r ctx) (WorkOS _)).
  by exists tr, i, org.
Qed.

Lemma update_within r ctx id role org : administers ctx org -> EmitsIn env (within_org r ctx) (Workos.updateMembership id role org).
Proof.
  intros Ha. unfold Workos.updateMembership. destruct (_ || _); [apply EmitsIn_throw|]. apply EmitsIn_catch; [|apply EmitsIn_scoped].
  apply EmitsIn_bind; [apply plain_within; unfold Workos.assertMembershipInOrg; plainly|]. intros w [] w1 H.
  apply membership_checked in H as (tr & m & Hm & <-).
  apply EmitsIn_bind; [apply (EmitsIn_call env (within_org r ctx) (WorkOS _)); by exists tr, m|]. intros _ m' _ _.
  apply plain_within. unfold Workos.getOrg, Workos.getUser, rethrow. plainly.
Qed.

Lemma invite_within r ctx c email org role :
  administers ctx org -> ctx_workspace ctx = Some (c_workspace c) -> cw_teamEnabled (c_workspace c) = Some true ->
  EmitsIn env (within_org r ctx) (Workos.inviteMember org email role).
Proof.
  intros Ha Hw Ht. unfold Workos.inviteMember. destruct (_ || _); [apply EmitsIn_throw|].
  apply EmitsIn_catch; [|intros e; apply EmitsIn_throw].
  apply EmitsIn_bind; [apply plain_within, plain_getBaseAuth|]. intros _ [s|] _ _; [|apply EmitsIn_throw].
  destruct (negb _); [apply EmitsIn_throw|]. apply EmitsIn_bind; [|intros; apply EmitsIn_ret].
  apply (EmitsIn_call env (within_org r ctx) (WorkOS _)). split; [done|]. by exists (c_workspace c).
Qed.

Lemma EmitsIn_settle {A} Q (m : M A) : EmitsIn env Q m -> EmitsIn env Q (settle m).
Proof.
  intros Hm. apply EmitsIn_catch; [|intros; apply EmitsIn_ret]. apply EmitsIn_bind; [done|intros; apply EmitsIn_ret].
Qed.

Lemma EmitsIn_both {A B} Q (a : M A) (b : M B) : EmitsIn env Q a -> EmitsIn env Q b -> EmitsIn env Q (both a b).
Proof.
  intros Ha Hb. apply EmitsIn_bind; [by apply EmitsIn_settle|]. intros _ ra _ _.
  apply EmitsIn_bind; [by apply EmitsIn_settle|]. intros _ rb _ _. repeat case_match; first [apply EmitsIn_throw|apply EmitsIn_ret].
Qed.

Lemma EmitsIn_each {A} Q (f : A -> M unit) l : (forall x, In x l -> EmitsIn env Q (f x)) -> EmitsIn env Q (each f l).
Proof.
  induction l as [|x l IH]; intros Hf; [apply EmitsIn_ret|]. cbn [each]. apply EmitsIn_then.
  apply EmitsIn_both; [apply Hf; by left|apply IH; intros; apply Hf; by right].
Qed.

Lemma user_procedure {A} r ctx (h : CtxUser -> Tenant -> M A) :
  (forall u t, signed_in_as ctx (user_id u) -> (own_tenant ctx (tenant_id t)) -> EmitsIn env (within_org r ctx) (h u t)) ->
  EmitsIn env (within_org r ctx) (protectedProcedure h ctx).
Proof.
  intros Hh. unfold protectedProcedure, requireUser. destruct (ctx_user ctx) as [u|] eqn:Eu; [|apply EmitsIn_throw].
  destruct (negb _); [apply EmitsIn_throw|]. assert (Hu : signed_in_as ctx (user_id u)) by (by exists u).
  apply Hh; [done|]. unfold own_tenant. by destruct (ctx_tenant ctx).
Qed.

Lemma factors_within r ctx u : signed_in_as ctx u -> EmitsIn env (within_org r ctx) (call (WorkOS (ListUserAuthFactors u))).
Proof. intros Hu. by apply (EmitsIn_call env (within_org r ctx) (WorkOS _)). Qed.

Lemma list_factors_within r ctx u : signed_in_as ctx u -> EmitsIn env (within_org r ctx) (Workos.listMfaFactors u).
Proof. intros Hu. apply EmitsIn_bind; [by apply factors_within|intros; apply EmitsIn_ret]. Qed.

Lemma enroll_within ctx : EmitsIn env (within_org EnrollReq ctx) (startMfaEnrollment (P := workos) ctx).
Proof.
  apply user_procedure. intros u t Hu _. apply EmitsIn_catch; [|intros; apply EmitsIn_or_trpc].
  apply EmitsIn_bind; [apply plain_within; cbn; unfold Workos.getUser; plainly|]. intros _ [p|] _ _; [|apply EmitsIn_throw].
  cbn. unfold Workos.beginMfaEnrollment. apply EmitsIn_bind.
  - apply EmitsIn_catch; [|intros; apply EmitsIn_ret]. apply EmitsIn_bind; [by apply factors_within|].
    intros w l w1 Hl. apply call_ret in Hl as [Hl _]. apply EmitsIn_each. intros f Hf. apply EmitsIn_then.
    apply (EmitsIn_call env (within_org EnrollReq ctx) (WorkOS _)). exists (user_id u), (trace w), l. split; [done|]. split; [done|].
    apply filter_In in Hf as [Hf _]. by apply in_map.
  - intros _ _ _ _. by apply (EmitsIn_call env (within_org EnrollReq ctx) (WorkOS (CreateUserAuthFactor (user_id u) (au_email p)))).
Qed.

Lemma remove_factor_within r ctx id : EmitsIn env (within_org r ctx) (removeMfaFactor_procedure (P := workos) id ctx).
Proof.
  apply user_procedure. intros u t Hu _. apply EmitsIn_catch; [|intros; apply EmitsIn_or_trpc].
  apply EmitsIn_bind; [by apply list_factors_within|]. intros w fs w1 H.
  cbn in H. apply bind_ret in H as (l & w2 & Hl & H). apply call_ret in Hl as [Hl _]. injection H as <- _.
  destruct (existsb _ _) eqn:Ef; cbn [negb]; [|apply EmitsIn_throw]. cbn. unfold Workos.removeMfaFactor. apply EmitsIn_then.
  apply (EmitsIn_call env (within_org r ctx) (WorkOS _)). exists (user_id u), (trace w), l. split; [done|]. split; [done|].
  apply existsb_exists in Ef as (f & Hf & Ef). apply String.eqb_eq in Ef. apply in_map_iff in Hf as (x & <- & Hx).
  apply filter_In in Hx as [Hx _]. subst id. exact (in_map wf_id l x Hx).
Qed.

Lemma members_listed r ctx org : own_tenant ctx org -> EmitsIn env (within_org r ctx) (Workos.getOrganizationMemberList org).
Proof.
  intros Ho. unfold Workos.getOrganizationMemberList. destruct (negb _); [apply EmitsIn_throw|].
  apply EmitsIn_catch; [|intros e; apply EmitsIn_throw]. apply EmitsIn_bind.
  - apply EmitsIn_both; [apply plain_within; unfold Workos.getOrg, rethrow; plainly|].
    apply EmitsIn_both; by apply (EmitsIn_call env (within_org r ctx) (WorkOS _)).
  - intros _ [o [ms us]] _ _. induction ms as [|m ms IH]; cbn [Workos.members_with]; [apply EmitsIn_ret|].
    case_match; [|apply EmitsIn_throw]. apply EmitsIn_bind; [done|intros; apply EmitsIn_ret].
Qed.

Lemma memberships_listed r ctx u : signed_in_as ctx u -> EmitsIn env (within_org r ctx) (Workos.listMemberships u).
Proof.
  intros Hu. apply EmitsIn_catch; [|intros e; apply EmitsIn_throw]. apply EmitsIn_bind.
  - apply EmitsIn_both; [apply plain_within; unfold Workos.getUser; plainly|by apply (EmitsIn_call env (within_org r ctx) (WorkOS _))].
  - intros _ [[p|] ms] _ _; apply EmitsIn_ret.
Qed.

Lemma switch_within ctx org : EmitsIn env (within_org (SwitchReq org) ctx) (switchOrg_procedure (P := workos) org ctx).
Proof.
  apply user_procedure. intros u t Hu _. apply EmitsIn_catch; [|intros; apply EmitsIn_ret].
  apply EmitsIn_bind; [|intros; apply EmitsIn_ret]. cbn. unfold Workos.switchOrg.
  apply EmitsIn_bind; [apply plain_within, Emits_getCookie; exact I|]. intros _ [token|] _ _; [|apply EmitsIn_throw].
  destruct (negb _); [apply EmitsIn_throw|]. apply EmitsIn_bind.
  - apply (EmitsIn_call env (within_org (SwitchReq org) ctx) (WorkOS _)). split; [done|by exists (user_id u)].
  - intros _ res _ _. apply plain_within. repeat case_match; plainly.
Qed.

Lemma read_calls ctx (r : MemberRequest) :
  match r with
  | GetOrgReq _ | ListMembersReq | CurrentUserReq | ListMembershipsReq _ | ListFactorsReq => True
  | _ => False
  end -> EmitsIn env (within_org r ctx) (serve_member r ctx).
Proof.
  destruct r; try done; intros _; cbn [serve_member]; apply EmitsIn_then.
  - unfold workspaceProcedure, requireUser, requireWorkspace. repeat case_match; try apply EmitsIn_throw.
    apply plain_within. unfold getOrg_procedure, in_own_org. cbn. unfold Workos.getOrg, rethrow. plainly.
  - apply user_procedure. intros u t _ Ht. apply EmitsIn_catch; [by apply members_listed|intros; apply EmitsIn_throw].
  - apply user_procedure. intros u t _ _. apply EmitsIn_catch; [|intros; apply EmitsIn_or_trpc].
    apply plain_within. cbn. unfold Workos.getUser. plainly.
  - apply user_procedure. intros u t Hu _. unfold requireSelf, Js.eq_ostring.
    destruct (String.eqb_spec userId (user_id u)) as [->|]; [|apply EmitsIn_throw].
    apply EmitsIn_catch; [by apply memberships_listed|intros; apply EmitsIn_throw].
  - apply user_procedure. intros u t Hu _. apply EmitsIn_catch; [by apply list_factors_within|intros; apply EmitsIn_throw].
Qed.

Lemma member_calls r ctx : EmitsIn env (within_org r ctx) (serve_member r ctx).
Proof.
  destruct r; try (apply read_calls; exact I); cbn [serve_member]; try apply EmitsIn_then.
  - apply org_procedure; [|intros; apply EmitsIn_throw]. intros c Ha _. cbn. unfold Workos.getInvitationList.
    destruct (negb _); [apply EmitsIn_throw|]. apply EmitsIn_catch; [|intros; apply EmitsIn_ret].
    apply EmitsIn_bind; [by apply (EmitsIn_call env (within_org _ ctx) (WorkOS _))|intros; apply EmitsIn_ret].
  - apply org_procedure; [|intros; apply EmitsIn_or_trpc]. intros c Ha Hw.
    destruct (cw_teamEnabled (c_workspace c)) as [[]|] eqn:Et; cbn; try apply EmitsIn_throw. by eapply invite_within.
  - apply org_procedure; [|intros; apply EmitsIn_or_trpc]. intros c Ha _. by apply remove_within.
  - apply org_procedure; [|intros; apply EmitsIn_or_trpc]. intros c Ha _. by apply revoke_within.
  - apply org_procedure; [|intros; apply EmitsIn_or_trpc]. intros c Ha _. by apply update_within.
  - apply enroll_within.
  - apply user_procedure. intros u t Hu _. apply EmitsIn_catch; [|intros; apply EmitsIn_throw].
    apply (EmitsIn_call env (within_org _ ctx) (WorkOS (VerifyChallenge challengeId code))). split; [done|by exists (user_id u)].
  - apply remove_factor_within.
  - apply switch_within.
Qed.

Lemma no_calls (tr tr' known l : list Call) c : tr' = tr ++ known -> ~ In c known -> tr' = tr ++ l -> ~ In c l.
Proof. intros -> Hk E. apply app_inv_head in E. by subst l. Qed.

Ltac calls_only known :=
  intros E Hin; exfalso; refine (no_calls _ _ known _ _ _ _ E Hin); [by rewrite ?app_nil_r|cbn; naive_solver].

(** A switch refreshes the session of the request's own cookie. *)
Lemma switch_calls org ctx w l token o :
  trace (snd (serve_member (SwitchReq org) ctx env w)) = trace w ++ l -> In (WorkOS (SessionRefreshCall token (Some o))) l ->
  jar w !! UNKEY_SESSION_COOKIE = Some token.
Proof.
  cbn [serve_member]. unfold switchOrg_procedure, protectedProcedure, requireUser.
  destruct (ctx_user ctx) as [u|]; [|calls_only (@nil Call)]. destruct (negb _); [calls_only (@nil Call)|].
  cbn. unfold Workos.switchOrg, getCookie, cookies_get, bind, catch, call, ret, throw. cbn.
  destruct (ask env (trace w) ReadCookies) as [e|[]]; cbn; [calls_only [ReadCookies]|].
  unfold store_get. cbn. destruct (jar w !! _) as [t|]; cbn; [|calls_only [ReadCookies]].
  destruct (negb _); cbn; [calls_only [ReadCookies]|].
  destruct (ask env _ (WorkOS _)) as [e|[[s|] [sealed|] role|reason]]; cbn; try destruct (negb _); cbn;
    intros E Hin; rewrite <- ?app_assoc in E; apply app_inv_head in E; subst l; cbn in Hin; destruct_or! Hin; congruence.
Qed.

End WorkosMembers.

(** Claim C19. Members are managed inside one organization. Whatever request of the org
    and user routers a caller makes, with whatever ids, and whatever WorkOS answers: a
    membership is removed or given a role, and an invitation revoked, only when WorkOS
    itself placed it in an organization that the caller administers and that owns the
    caller's workspace; an invitation is sent only for that organization and only when
    its plan includes teams; members, memberships and factors are listed only of the
    session's organization and of the caller; a factor is removed only when WorkOS
    listed it as the caller's, and enrolled only for the caller. A challenge is
    verified only for a signed-in caller and with the id and the code of the request:
    whose factor it challenges is not checked, the code being the proof. The session
    is moved to an organization only on request, and it is the session of the request's
    own cookie. No other call is made. *)
Theorem members_within_organization (parse_state : string -> option (option string * option string))
    (stringify_state : string -> option string -> string) (stringify_challenge : AuthChallenge -> string)
    (authorizationUrl : string -> string -> string -> string) (r : MemberRequest) (ctx : Context) (env : Env) (w : World) :
  exists l, trace (snd (serve_member parse_state stringify_state stringify_challenge authorizationUrl r ctx env w)) = trace w ++ l
            /\ Forall (within_org env r ctx) l
            /\ (forall token org, In (WorkOS (SessionRefreshCall token (Some org))) l -> jar w !! UNKEY_SESSION_COOKIE = Some token).
Proof.
  destruct (member_calls parse_state stringify_state stringify_challenge authorizationUrl env r ctx w) as (l & E & Hl).
  exists l. split; [done|]. split; [done|]. intros token org Hin.
  destruct (proj1 (List.Forall_forall _ _) Hl _ Hin) as [-> _]. by eapply switch_calls.
Qed.

(** ** Ids of other organizations *)

(** WorkOS does not know the membership, or has it in another organization. *)
Definition hidden_membership (org : string) (o : Exn + WorkosMembership) : Prop :=
  match o with inl e => Workos.isNotFoundError e = true | inr m => wm_organizationId m <> org end.

Definition hidden_invitation (org : string) (o : Exn + WorkosInvitation) : Prop :=
  match o with inl e => Workos.isNotFoundError e = true | inr i => wi_organizationId i <> Some org end.

Section Hidden.

Context (env : Env) (c : WCtx) (org : string).
Context (Hadmin : is_admin (c_tenant c) = true) (Htenant : tenant_id (c_tenant c) = org) (Horg : cw_orgId (c_workspace c) = org).
Context (Hne : org <> EmptyString).

Lemma admin_passes {A} (m : M A) h w :
  requireOrgAdmin (Some org) (fun c => catch (in_own_org c org INVALID_ORG m) h) c env w = catch m h env w.
Proof.
  unfold requireOrgAdmin, in_own_org. rewrite Htenant, Horg, !String.eqb_refl, Hadmin. by destruct org.
Qed.

Lemma membership_hidden id w :
  hidden_membership org (ask env (trace w) (WorkOS (GetOrganizationMembership id))) ->
  Workos.assertMembershipInOrg id org env w = (Throw OrganizationScopeError, log_call (WorkOS (GetOrganizationMembership id)) w).
Proof.
  unfold Workos.assertMembershipInOrg, bind at 1, catch, bind at 1, call.
  destruct (ask env (trace w) _) as [e|m]; cbn; [by intros ->|]. intros H. by rewrite (proj2 (String.eqb_neq _ _) H).
Qed.

Lemma invitation_hidden id w :
  hidden_invitation org (ask env (trace w) (WorkOS (WorkosGetInvitation id))) ->
  Workos.assertInvitationInOrg id org env w = (Throw OrganizationScopeError, log_call (WorkOS (WorkosGetInvitation id)) w).
Proof.
  unfold Workos.assertInvitationInOrg, bind at 1, catch, bind at 1, call.
  destruct (ask env (trace w) _) as [e|i]; cbn; [by intros ->|]. intros H. destruct (wi_organizationId i) as [o|]; [|done]. cbn.
  rewrite (proj2 (String.eqb_neq o org)); [done|]. intros ->. done.
Qed.

End Hidden.

(** Nothing tells an id of another organization from one that does not exist.
    When WorkOS does not know a membership or an invitation, or has it in another
    organization, every procedure on it makes the same single lookup, changes nothing
    and throws the same NOT_FOUND. *)
Theorem foreign_ids_not_found (parse_state : string -> option (option string * option string))
    (stringify_state : string -> option string -> string) (stringify_challenge : AuthChallenge -> string)
    (authorizationUrl : string -> string -> string -> string) (c : WCtx) (org id role : string) (env : Env) (w : World) :
  let P := Workos.workos parse_state stringify_state stringify_challenge authorizationUrl in
  is_admin (c_tenant c) = true -> tenant_id (c_tenant c) = org -> cw_orgId (c_workspace c) = org ->
  org <> EmptyString -> id <> EmptyString -> role <> EmptyString ->
  (hidden_membership org (ask env (trace w) (WorkOS (GetOrganizationMembership id))) ->
   removeMembership_procedure (P := P) id org c env w = (Throw MEMBERSHIP_NOT_FOUND, log_call (WorkOS (GetOrganizationMembership id)) w)
   /\ updateMembership_procedure (P := P) id org role c env w
      = (Throw MEMBERSHIP_NOT_FOUND, log_call (WorkOS (GetOrganizationMembership id)) w))
  /\ (hidden_invitation org (ask env (trace w) (WorkOS (WorkosGetInvitation id))) ->
      revokeInvitation_procedure (P := P) id org c env w = (Throw INVITATION_NOT_FOUND, log_call (WorkOS (WorkosGetInvitation id)) w)).
Proof.
  intros P Ha Ht Ho Hne Hid Hrole.
  assert (Eo : Js.truthy_string org = true) by (by destruct org). assert (Ei : Js.truthy_string id = true) by (by destruct id).
  assert (Er : Js.truthy_string role = true) by (by destruct role).
  unfold removeMembership_procedure, updateMembership_procedure, revokeInvitation_procedure. split.
  - intros H. rewrite !(admin_passes env c org Ha Ht Ho Hne). cbn.
    unfold Workos.removeMembership, Workos.updateMembership. rewrite Eo, Ei, Er. cbn [negb orb].
    unfold catch, bind. by rewrite (membership_hidden env org id w H).
  - intros H. rewrite (admin_passes env c org Ha Ht Ho Hne). cbn. unfold Workos.revokeOrgInvitation. rewrite Eo, Ei. cbn [negb orb].
    unfold catch, bind. by rewrite (invitation_hidden env org id w H).
Qed.

(** An administrator of another organization. *)
Definition other_admin : WCtx :=
  {| c_user := {| user_id := "user_9"; user_profile := None |};
     c_tenant := {| tenant_id := "org_9"; tenant_role := Some "admin"%string |};
     c_workspace := {| cw_id := "ws_9"; cw_name := "Eve"; cw_orgId := "org_9"; cw_slug := "eve"; cw_tier := "Free";
                       cw_stripeCustomerId := None; cw_stripeSubscriptionId := None; cw_stripeDeploySubscriptionId := None;
                       cw_deployPlan := None; cw_deployPlanOverride := None; cw_teamEnabled := Some true; cw_spend := no_spend |};
     c_location := "unknown"; c_userAgent := None |}.

Lemma foreign_ids_not_found_witness :
  fst (removeMembership_procedure (P := demo_provider) "om_1" "org_9" other_admin auth_env (browser [])) = Throw MEMBERSHIP_NOT_FOUND.
Proof.
  destruct (foreign_ids_not_found (fun _ => None) (fun _ _ => EmptyString) (fun _ => EmptyString) (fun _ _ _ => EmptyString)
    other_admin "org_9" "om_1" "admin" auth_env (browser [])) as [H _]; [reflexivity|reflexivity|reflexivity|discriminate..|].
  destruct H as [H _]; [discriminate|]. exact (f_equal fst H).
Defined.
