(* ===== verification/Local.v ===== *)
(** * The local provider

    web/apps/dashboard/lib/auth/local.ts: one user, one organization and no server. The
    organization is the only state; [updateOrg] changes it in place, and the membership
    refers to the same object. [timestamp] is the time the provider was made. *)

From Stdlib Require Import ZArith Bool Ascii String Lia.
From stdpp Require Import base list gmap strings.
From S2P Require Import Prelude Helpers StripeTypes AuthTypes Effects Fixtures Cookies Sessions AuthProvider Workos BillingOps Trpc.
From S2P Require Import AuthActions AuthSafety.

Local Open Scope Z_scope.

Module LocalAuth.

Section LocalAuth.

Context (timestamp : string).

Definition user : AuthUser :=
  {| au_id := LOCAL_USER_ID; au_email := "admin@example.com"; au_firstName := Some "Local"%string; au_lastName := Some "Admin"%string;
     au_avatarUrl := None; au_fullName := Some "Local Admin"%string |}.

(** [this.organization] with its current name and time of update. *)
Definition organization (o : option (string * string)) : Organization :=
  {| org_id := LOCAL_ORG_ID; org_name := match o with Some (n, _) => n | None => "Local Org" end;
     org_createdAt := Some timestamp; org_updatedAt := Some (match o with Some (_, t) => t | None => timestamp end) |}.

Definition this_organization : M Organization := fun _ w => (Ret (organization (local_org w)), w).

Definition membership (org : Organization) : Membership :=
  {| ms_id := "mem_local"; ms_user := user; ms_organization := org; ms_role := LOCAL_ORG_ROLE; ms_createdAt := timestamp;
     ms_updatedAt := timestamp; ms_status := "active" |}.

(** [new Date().toISOString()]. *)
Definition iso (ms : Z) : M string :=
  match Dates.toISOString ms with Some s => ret s | None => throw (OtherError "Invalid time value") end.

Definition required {A} (ok : bool) (message : string) (m : M A) : M A := if ok then m else throw (OtherError message).

Definition given (s : string) : bool := Js.truthy_string s.

(** ** Sessions *)

Definition validateSession (sessionToken : string) : M SessionValidationResult :=
  if negb (given sessionToken) then ret (Workos.invalid_session false)
  else ret {| isValid := true; shouldRefresh := false; sv_accessToken := None; sv_permissions := Some LOCAL_AUTH_PERMISSIONS;
              sv_userId := Some LOCAL_USER_ID; sv_orgId := Some LOCAL_ORG_ID; sv_role := Some LOCAL_ORG_ROLE;
              sv_user := Some user; sv_impersonator := None |}.

Definition refreshSession (sessionToken : string) : M SessionRefreshResult :=
  required (given sessionToken) "No session token provided" (
    now <- date_now ;;
    ret {| newToken := sessionToken; expiresAt := add_years 100 now;
           refreshed_session := Some {| sd_userId := LOCAL_USER_ID; sd_orgId := Some LOCAL_ORG_ID; sd_accessToken := None;
                                        sd_permissions := Some LOCAL_AUTH_PERMISSIONS; sd_role := Some LOCAL_ORG_ROLE;
                                        sd_user := Some user |};
           refreshed_impersonator := None |}).

(** ** Users and organizations *)

Definition getUser (userId : string) : M (option AuthUser) :=
  required (given userId) "User Id is required." (ret (if String.eqb userId LOCAL_USER_ID then Some user else None)).

Definition findUser (email : string) : M (option AuthUser) :=
  required (given email) "Email address is required."
    (ret (if String.eqb (Str.to_lower email) (Str.to_lower (au_email user)) then Some user else None)).

Definition createTenant (name userId : string) : M string :=
  required (given name && given userId) "Organization name and userId are required." (ret LOCAL_ORG_ID).

Definition not_found_org {A} (id : string) : M A := throw (OtherError ("Organization " +:+ id +:+ " not found")).

Definition getOrg (id : string) : M Organization :=
  required (given id) "Organization Id is required." (if String.eqb id LOCAL_ORG_ID then this_organization else not_found_org id).

Definition updateOrg (id name : string) : M Organization :=
  required (given id && given name) "Organization id and name are required." (
    if negb (String.eqb id LOCAL_ORG_ID) then not_found_org id
    else
      now <- date_now ;;
      updatedAt <- iso now ;;
      fun _ w => (Ret (organization (Some (name, updatedAt))),
                  {| db := db w; trace := trace w; cache := cache w; pending := pending w; credits := credits w; jar := jar w;
                     local_org := Some (name, updatedAt) |})).

Definition switchOrg (newOrgId : string) : M SessionRefreshResult :=
  currentToken <- getCookie UNKEY_SESSION_COOKIE None ;;
  required (Js.truthy currentToken) "No active session found" (
    if negb (String.eqb newOrgId LOCAL_ORG_ID) then not_found_org newOrgId
    else
      now <- date_now ;;
      token <- date_now ;;
      ret {| newToken := "local_session_" +:+ Num.string_of_Z token; expiresAt := add_days 7 now;
             refreshed_session := Some {| sd_userId := LOCAL_USER_ID; sd_orgId := Some LOCAL_ORG_ID; sd_accessToken := None;
                                          sd_permissions := None; sd_role := Some "admin"%string; sd_user := None |};
             refreshed_impersonator := None |}).

(** ** Memberships *)

Definition listMemberships (userId : string) : M (list Membership) :=
  required (given userId) "User Id is required." (
    if String.eqb userId LOCAL_USER_ID then org <- this_organization ;; ret [membership org] else ret []).

Definition getOrganizationMemberList (id : string) : M (list Membership) :=
  required (given id) "Organization id is required." (
    if String.eqb id LOCAL_ORG_ID then org <- this_organization ;; ret [membership org] else ret []).

Definition not_found_membership {A} (id : string) : M A := throw (OtherError ("Membership " +:+ id +:+ " not found")).

Definition updateMembership (membershipId role org : string) : M Membership :=
  required (given membershipId && given role && given org) "Membership id, role, and organization id are required." (
    if negb (String.eqb membershipId "mem_local") then not_found_membership membershipId
    else throw (OtherError "Cannot update the default membership in local development mode")).

Definition removeMembership (membershipId org : string) : M unit :=
  required (given membershipId && given org) "Membership id and organization id are required." (
    if String.eqb membershipId "mem_local" then throw (OtherError "Cannot remove the default membership")
    else not_found_membership membershipId).

Definition deactivateMembership (membershipId org : string) : M unit :=
  required (given membershipId && given org) "Membership id and organization id are required." (
    if String.eqb membershipId "mem_local" then throw (OtherError "Cannot deactivate the default membership")
    else not_found_membership membershipId).

(** ** Invitations *)

Definition inviteMember (org email role : string) : M OrgInvitation :=
  required (given org && given email) "Organization id and email are required." (
    now <- date_now ;;
    id <- date_now ;;
    expires <- iso (add_days 7 now) ;;
    token <- date_now ;;
    created <- iso now ;;
    ret {| inv_id := "inv_local_" +:+ Num.string_of_Z id; inv_email := email; inv_state := "pending"; inv_acceptedAt := None;
           inv_revokedAt := None; inv_expiresAt := expires; inv_token := "inv_token_" +:+ Num.string_of_Z token;
           inv_organizationId := Some org; inv_inviterUserId := Some LOCAL_USER_ID; inv_createdAt := created;
           inv_updatedAt := created |}).

Definition getInvitationList (org : string) : M (list OrgInvitation) :=
  required (given org) "Organization Id is required" (ret []).

Definition getInvitation (_ : string) : M (option OrgInvitation) := ret None.

Definition revokeOrgInvitation (invitationId org : string) : M unit :=
  required (given invitationId && given org) "Invitation id and organization id are required." (ret tt).

Definition acceptInvitation (invitationId : string) : M OrgInvitation :=
  required (given invitationId) "Invitation Id is required" (
    now <- date_now ;;
    t <- iso now ;;
    ret {| inv_id := invitationId; inv_email := "invited@example.com"; inv_state := "accepted"; inv_acceptedAt := Some t;
           inv_revokedAt := None; inv_expiresAt := t; inv_token := "accepted_token"; inv_organizationId := Some LOCAL_ORG_ID;
           inv_inviterUserId := Some LOCAL_USER_ID; inv_createdAt := t; inv_updatedAt := t |}).

(** ** Signing in *)

Definition session_cookie (e : AppEnv) (now : Z) (path : option string) (age : option Z) : Cookie :=
  {| cookie_name := UNKEY_SESSION_COOKIE; cookie_value := "local_session_" +:+ Num.string_of_Z now;
     cookie_options := {| httpOnly := true; secure := shouldUseSecureCookies e; sameSite := Lax; cookie_path := path; maxAge := age |} |}.

(** Every code is right. *)
Definition signed_in (path : option string) (age : option Z) : M VerificationResult :=
  now <- date_now ;; e <- appEnv ;; ret (Navigation "/apis" [session_cookie e now path age]).

Definition seven_days : M VerificationResult := signed_in (Some "/"%string) (Some (7 * 24 * 60 * 60)).

Definition NO_MFA : Exn := OtherError "MFA is not supported in local development mode".
Definition NO_RADAR : Exn := OtherError "Radar challenges are not supported in local development mode".

Definition local : AuthProvider := {|
  AuthProvider.validateSession := validateSession;
  AuthProvider.refreshSession := refreshSession;
  AuthProvider.signInViaEmail := fun _ => ret (StateChange None);
  AuthProvider.verifyAuthCode := fun _ => seven_days;
  AuthProvider.verifyEmail := fun _ _ _ => seven_days;
  AuthProvider.resendAuthCode := fun _ => ret (StateChange None);
  AuthProvider.signUpViaEmail := fun _ => ret (StateChange None);
  AuthProvider.completeMfaChallenge := fun _ _ _ _ => throw NO_MFA;
  AuthProvider.beginMfaEnrollment := fun _ _ => throw NO_MFA;
  AuthProvider.verifyMfaEnrollment := fun _ _ => throw NO_MFA;
  AuthProvider.listMfaFactors := fun _ => ret [];
  AuthProvider.removeMfaFactor := fun _ => throw NO_MFA;
  AuthProvider.completeRadarEmailChallenge := fun _ _ _ _ => throw NO_RADAR;
  AuthProvider.sendRadarSmsCode := fun _ _ _ _ => throw NO_RADAR;
  AuthProvider.completeRadarSmsChallenge := fun _ _ _ _ _ => throw NO_RADAR;
  AuthProvider.getSignOutUrl := ret (Some "/auth/sign-in"%string);
  AuthProvider.revokeSession := fun _ => ret tt;
  AuthProvider.completeOrgSelection := fun _ _ => seven_days;
  AuthProvider.signInViaOAuth := fun o =>
    ret (Redirect.sanitizeRedirectPath (Some (oo_redirectUrlComplete o)) Redirect.default_fallback);
  AuthProvider.completeOAuthSignIn := fun _ => signed_in None None;
  AuthProvider.getUser := getUser;
  AuthProvider.findUser := findUser;
  AuthProvider.createTenant := createTenant;
  AuthProvider.updateOrg := updateOrg;
  AuthProvider.getOrg := getOrg;
  AuthProvider.switchOrg := switchOrg;
  AuthProvider.listMemberships := listMemberships;
  AuthProvider.getOrganizationMemberList := getOrganizationMemberList;
  AuthProvider.updateMembership := updateMembership;
  AuthProvider.removeMembership := removeMembership;
  AuthProvider.deactivateMembership := deactivateMembership;
  AuthProvider.inviteMember := inviteMember;
  AuthProvider.getInvitationList := getInvitationList;
  AuthProvider.getInvitation := getInvitation;
  AuthProvider.revokeOrgInvitation := revokeOrgInvitation;
  AuthProvider.acceptInvitation := acceptInvitation |}.

(** ** The contract *)

(** The local provider reads the clock for every session it hands out. *)
Definition local_issued (_ : Env) (tr : list Call) (v : string) : Prop := In DateNow tr.

Lemma signed_in_ret path age env w r w' :
  signed_in path age env w = (Ret r, w') ->
  r = Navigation "/apis" [session_cookie (app_env env) (clock env (trace w)) path age] /\ w' = log_call DateNow w.
Proof. intros H. apply bind_ret in H as (now & w1 & [= <- <-] & H). apply bind_ret in H as (e & w2 & [= <- <-] & [= <- <-]). done. Qed.

#[export] Instance local_sound : SoundProvider local.
Proof.
  refine {| issued := local_issued |}.
  - intros env tr l v H. apply in_app_iff. by left.
  - intros []; cbn; unfold seven_days, signed_in; effects.
  - intros []; cbn; unfold refreshSession, switchOrg, required; effects; try (apply Emits_cookies_get; exact I).
  - intros []; cbn; effects.
  - intros; cbn; unfold validateSession; effects.
  - intros; cbn; effects.
  - intros; cbn; unfold getUser, required; effects.
  - intros; cbn; unfold getOrg, required, not_found_org; effects; intros env w; exists []; by rewrite app_nil_r.
  - intros; cbn; unfold getInvitation; effects.
  - intros; cbn; unfold acceptInvitation, required, iso; effects.
  - intros; cbn; effects.
  - intros; cbn; effects.
  - assert (Hs : forall path age env w r w', signed_in path age env w = (Ret r, w') ->
      Forall (vouched local_issued env (trace w')) (Js.coalesce (cookies_of r) [])).
    { intros path age env w r w' H. apply signed_in_ret in H as [-> ->]. apply Forall_singleton. intros _.
      split; [apply in_app_iff; right; by left|by apply auth_session_options]. }
    intros [] env w r w' H; cbn [verify local] in H; first [exact (Hs _ _ _ _ _ _ H)|by unfold throw in H].
  - intros [t|o] env w s w' H; cbn in H.
    + unfold refreshSession, required in H. destruct (given t); [|done]. apply bind_ret in H as (n & w1 & [= <- <-] & [= <- <-]).
      apply in_app_iff. right. by left.
    + apply bind_ret in H as (t & w1 & _ & H). unfold required in H. destruct (Js.truthy t); [|done]. destruct (negb _); [done|].
      apply bind_ret in H as (n & w2 & [= <- <-] & H). apply bind_ret in H as (n' & w3 & [= <- <-] & [= <- <-]).
      apply in_app_iff. right. by left.
  - intros [] env w l w' H; cbn in H; by injection H.
Defined.

(** A new name is seen at once, also through the membership, which refers to the same
    organization. *)
Lemma rename_is_shared id name env w org w' :
  updateOrg id name env w = (Ret org, w') ->
  id = LOCAL_ORG_ID /\ org_name org = name /\ db w' = db w /\ jar w' = jar w
  /\ getOrg id env w' = (Ret org, w') /\ getOrganizationMemberList id env w' = (Ret [membership org], w').
Proof.
  unfold updateOrg, required. destruct (_ && _); [|done]. destruct (String.eqb_spec id LOCAL_ORG_ID) as [->|]; [|done]. cbn [negb].
  intros H. apply bind_ret in H as (now & w1 & [= <- <-] & H). apply bind_ret in H as (t & w2 & Ht & [= <- <-]).
  unfold iso in Ht. destruct (Dates.toISOString _); [|done]. by injection Ht as <- <-.
Qed.

End LocalAuth.

End LocalAuth.
