(* ===== verification/ApiProxy.v ===== *)
(** * The proxy to the API

    web/apps/dashboard/app/proxy/[...path]/route.ts: a request of the browser, which has a
    session cookie and no key, is sent to the API with a bearer token of the session. The
    URL parser and the signature of package jose are parameters; names of headers are in
    lower case. *)

From Stdlib Require Import ZArith Bool Ascii String Lia.
From stdpp Require Import base list gmap strings.
From S2P Require Import Prelude Helpers StripeTypes AuthTypes CtrlTypes Effects Fixtures Cookies Sessions AuthProvider Workos BillingOps Trpc.
From S2P Require Import AuthActions AuthSafety AuthFlows Local.

Local Open Scope Z_scope.

(** ** Parameters *)

(** [new URL(url)], [new URL(reference, base)], [url.origin], [url.search = s] and
    [url.toString()]; [None] is a TypeError. *)
Class UrlParser := {
  Url : Type;
  parse_Url : string -> option Url;
  resolve_Url : string -> Url -> option Url;
  Url_origin : Url -> string;
  Url_set_search : string -> Url -> Url;
  Url_href : Url -> string;
}.

(** The header and the claims of the token. *)
Record JwtClaims := {
  jwt_alg : string;
  jwt_typ : string;
  jwt_org : string;
  jwt_name : string;
  jwt_perms : list string;
  jwt_iss : string;
  jwt_aud : list string;
  jwt_sub : string;
  jwt_iat : Z;
  jwt_nbf : Z;
  jwt_exp : Z;
}.

(** [new SignJWT(...).sign(key)]; [None] is an exception. *)
Class JwtSigner := { sign_jwt : JwtClaims -> string -> option string }.

(** ** The handler *)

Record ProxyRequest := {
  px_headers : string -> option string;
  px_cookies : gmap string string;
  px_path : list string;
  px_search : string;
  px_body : string;
}.

Inductive ProxyAnswer :=
| Refusal (status : Z) (error : string)
| Passed (status : Z) (statusText : string) (headers : list (string * string)) (body : string).

Definition proxyPermissions (workspaceID : string) (permissions : list string) : list string :=
  List.map (fun permission => if String.eqb permission "admin:*" then "unkey:v1:" +:+ workspaceID +:+ ":**#*" else permission) permissions.

Definition proxy_claims (orgId : string) (permissions : list string) (subject name : string) (now : Z) : JwtClaims :=
  {| jwt_alg := "HS256"; jwt_typ := "JWT"; jwt_org := orgId; jwt_name := name; jwt_perms := permissions; jwt_iss := "app.unkey.com";
     jwt_aud := ["api.unkey.com"%string]; jwt_sub := subject; jwt_iat := now; jwt_nbf := now; jwt_exp := now + 120 |}.

Definition is_control (c : ascii) : bool := let n := nat_of_ascii c in ((n <=? 31) || (n =? 127))%nat.
Definition backslash : ascii := ascii_of_nat 92.

(** A slash, a backslash or a control character. *)
Definition bad_segment (segment : string) : bool :=
  Str.has_char backslash segment || Str.has_char "/" segment || negb (Str.all_chars (fun c => negb (is_control c)) segment).

Definition if_given (name : string) (value : option string) : list (string * string) :=
  match value with Some v => if Js.truthy_string v then [(name, v)] else [] | None => [] end.

Definition upstreamRequestHeaders (r : ProxyRequest) : list (string * string) :=
  if_given "accept" (px_headers r "accept") ++ if_given "content-type" (px_headers r "content-type")
  ++ [("x-unkey-client", "unkey-dashboard")]%string.

Definition hopByHopResponseHeaders : list string :=
  ["connection"; "content-encoding"; "content-length"; "keep-alive"; "proxy-authenticate"; "te"; "trailer"; "transfer-encoding"; "upgrade"]%string.

Definition upstream_path (path : list string) : string := "/" +:+ Str.join "/" path.

Section ApiProxy.

Context `{P : AuthProvider} `{U : UrlParser} `{J : JwtSigner}.

Definition mintProxyJWT (orgId : string) (permissions : list string) (subject name : string) : M string :=
  e <- appEnv ;;
  match UNKEY_JWT_SECRET e with
  | Some signingSecret =>
      if negb (Js.truthy_string signingSecret) then throw (OtherError "UNKEY_JWT_SECRET must be configured for dashboard proxy signing")
      else
        match permissions with
        | [] => throw (OtherError "permissions are required for dashboard proxy signing")
        | _ =>
            now <- date_now ;;
            match sign_jwt (proxy_claims orgId permissions subject name (now / 1000)) signingSecret with
            | Some token => ret token
            | None => throw (OtherError "sign")
            end
        end
  | None => throw (OtherError "UNKEY_JWT_SECRET must be configured for dashboard proxy signing")
  end.

Definition actor_name (user : option AuthUser) (userId : string) : string :=
  match user with
  | Some u => Js.coalesce (au_fullName u) (au_email u)
  | None => userId
  end.

(** A token minted for the user of the session; [inl] is a response. *)
Definition mint_for (s : Session_) (orgId : string) : M (ProxyAnswer + option string) :=
  workspace <- query (find_by_org orgId) ;;
  match workspace with
  | None => ret (inl (Refusal 403 "Workspace not found."))
  | Some ws =>
      user <- getUser (s_userId s) ;;
      token <- catch (t <- mintProxyJWT orgId (proxyPermissions (ws_id ws) (Js.coalesce (s_permissions s) [])) (s_userId s)
                            (actor_name user (s_userId s)) ;; ret (Some t))
                 (fun _ => ret None) ;;
      ret (inr token)
  end.

Definition bearer_for (s : Session_) (orgId : string) : M (ProxyAnswer + option string) :=
  if Js.truthy (s_accessToken s) then ret (inr (s_accessToken s)) else mint_for s orgId.

Definition INVALID_PATH : ProxyAnswer := Refusal 400 "Invalid proxy path.".

Definition invalid_url : Exn := OtherError "TypeError: Invalid URL".

(** The request with the token. *)
Definition forward (r : ProxyRequest) (bearerToken : string) : M ProxyAnswer :=
  if existsb bad_segment (px_path r) then ret INVALID_PATH
  else
    e <- appEnv ;;
    match parse_Url (UNKEY_API_URL e) with
    | None => throw invalid_url
    | Some baseURL =>
        match resolve_Url (upstream_path (px_path r)) baseURL with
        | None => throw invalid_url
        | Some u =>
            let upstreamURL := Url_set_search (px_search r) u in
            if negb (String.eqb (Url_origin upstreamURL) (Url_origin baseURL)) then ret INVALID_PATH
            else
              upstream <- catch (a <- call (UpstreamPost
                  {| ur_url := Url_href upstreamURL;
                     ur_headers := upstreamRequestHeaders r ++ [("authorization"%string, "Bearer " +:+ bearerToken)];
                     ur_body := px_body r; ur_redirect := RedirectManual; ur_timeout := 10000 |}) ;; ret (Some a)) (fun _ => ret None) ;;
              match upstream with
              | None => ret (Refusal 502 "Upstream API request failed.")
              | Some a =>
                  ret (Passed (up_status a) (up_statusText a)
                         (List.filter (fun h => negb (Js.includes hopByHopResponseHeaders (fst h))) (up_headers a)) (up_body a))
              end
        end
    end.

Definition UNAUTHENTICATED : ProxyAnswer := Refusal 401 "Authentication required.".

Definition proxy_POST (r : ProxyRequest) : M ProxyAnswer :=
  if Js.truthy_obj (px_headers r "authorization") then
    ret (Refusal 400 "Dashboard proxy requests must not include an Authorization header.")
  else
    auth <- getBaseAuth validateSession refreshSession (Some (px_cookies r)) ;;
    match auth with
    | None => ret UNAUTHENTICATED
    | Some s =>
        if negb (Js.truthy_string (s_userId s)) || negb (Js.truthy (s_orgId s)) then ret UNAUTHENTICATED
        else
          bearer <- bearer_for s (Js.coalesce (s_orgId s) EmptyString) ;;
          match bearer with
          | inl refusal => ret refusal
          | inr token =>
              if Js.truthy token then forward r (Js.coalesce token EmptyString)
              else ret (Refusal 500 "Dashboard proxy is not configured.")
          end
    end.

End ApiProxy.

(** ** What the proxy sends *)

Definition not_upstream (c : Call) : Prop := match c with UpstreamPost _ => False | _ => True end.

(** What the proxy needs of a provider: it does not talk to the API and does not change
    the database. *)
Class SilentProvider (P : AuthProvider) : Prop := {
  silent_validate t : Emits not_upstream (validateSession t);
  silent_refresh t : Emits not_upstream (refreshSession t);
  silent_getUser u : Emits not_upstream (getUser u);
  reading_validate t : ReadOnly (validateSession t);
  reading_refresh t : ReadOnly (refreshSession t);
}.

(** The URLs to which a request takes its headers, when the hosts answer with redirects to
    [location]: its own, and those it follows. *)
Fixpoint receivers (hops : nat) (location : string -> option string) (mode : RedirectMode) (url : string) : list string :=
  url :: match mode, hops with
         | RedirectFollow, S n => match location url with Some next => receivers n location mode next | None => [] end
         | _, _ => []
         end.

Section Sent.

Context `{P : AuthProvider} {S : SilentProvider P} `{U : UrlParser} `{J : JwtSigner}.

#[local] Hint Resolve silent_validate silent_refresh silent_getUser reading_validate reading_refresh : effects.

(** The clock was read during the run whose calls took the trace from [start] to [tr]. *)
Definition read_during (env : Env) (start tr : list Call) (now : Z) : Prop :=
  exists pre post, tr = pre ++ DateNow :: post /\ (List.length start <= List.length pre)%nat /\ now = clock env pre.

(** A permission of the session as the API gets it: the one that stands for all rights is
    replaced by all rights in the workspace. *)
Definition scoped (workspaceId : string) (granted sent : string) : Prop :=
  sent = granted \/ granted = "admin:*"%string /\ sent = "unkey:v1:" +:+ workspaceId +:+ ":**#*".

(** The claims of a token minted at [now] seconds for the user of the session in the
    organization, with the rights of the session in the workspace. *)
Record minted_claims (s : Session_) (orgId workspaceId : string) (now : Z) (c : JwtClaims) : Prop := {
  mc_user : jwt_sub c = s_userId s;
  mc_org : jwt_org c = orgId;
  mc_perms : Forall2 (scoped workspaceId) (Js.coalesce (s_permissions s) []) (jwt_perms c);
  mc_audience : jwt_aud c = ["api.unkey.com"%string];
  mc_issuer : jwt_iss c = "app.unkey.com"%string;
  mc_from : jwt_nbf c = now /\ jwt_iat c = now;
  mc_until : jwt_exp c = now + 120;
}.

(** The token of a request: that of the session, or one that is signed during this run with
    the secret of the dashboard, for two minutes from then. *)
Definition bearer_of (env : Env) (d : Db) (start tr : list Call) (s : Session_) (orgId bearer : string) : Prop :=
  s_accessToken s = Some bearer
  \/ exists ws secret now claims,
       find_by_org orgId d = Some ws /\ UNKEY_JWT_SECRET (app_env env) = Some secret
       /\ read_during env start tr now /\ minted_claims s orgId (ws_id ws) (now / 1000) claims
       /\ sign_jwt claims secret = Some bearer.

(** A request that may carry a token, sent from the trace [tr] of a run that started in
    [w]: it reaches the origin of the API and nothing else, wherever that redirects. *)
Definition allowed_upstream (r : ProxyRequest) (env : Env) (w : World) (tr : list Call) (q : UpstreamRequest) : Prop :=
  px_headers r "authorization" = None /\ existsb bad_segment (px_path r) = false
  /\ exists s w1 orgId base u bearer,
       getBaseAuth validateSession refreshSession (Some (px_cookies r)) env w = (Ret (Some s), w1)
       /\ Js.truthy_string (s_userId s) = true /\ s_orgId s = Some orgId /\ Js.truthy_string orgId = true
       /\ parse_Url (UNKEY_API_URL (app_env env)) = Some base /\ Url_origin u = Url_origin base
       /\ (forall hops location, receivers hops location (ur_redirect q) (ur_url q) = [Url_href u])
       /\ bearer_of env (db w) (trace w) tr s orgId bearer
       /\ ur_headers q = upstreamRequestHeaders r ++ [("authorization"%string, "Bearer " +:+ bearer)] /\ ur_body q = px_body r
       /\ ur_timeout q = 10000.

Definition is_passed (o : Outcome ProxyAnswer) : bool := match o with Ret (Passed _ _ _ _) => true | _ => false end.

Lemma silent_setSessionCookie t e : Emits not_upstream (setSessionCookie t e) /\ ReadOnly (setSessionCookie t e).
Proof.
  unfold setSessionCookie, setCookie, store_set. split; effects; intros env w; exists []; by rewrite app_nil_r.
Qed.

Lemma silent_auth cookies :
  Emits not_upstream (getBaseAuth validateSession refreshSession (Some cookies))
  /\ ReadOnly (getBaseAuth validateSession refreshSession (Some cookies)).
Proof.
  assert (He : forall t e, Emits not_upstream (setSessionCookie t e)) by (intros; apply silent_setSessionCookie).
  assert (Hr : forall t e, ReadOnly (setSessionCookie t e)) by (intros; apply silent_setSessionCookie).
  unfold getBaseAuth, updateSession, update_local, validate_or_refresh, refresh_session. cbn [getCookie]. split; effects.
Qed.

Lemma silent_mint s orgId : Emits not_upstream (mint_for s orgId).
Proof. unfold mint_for, mintProxyJWT. effects. Qed.

Lemma scoped_permissions ws l : Forall2 (scoped ws) l (proxyPermissions ws l).
Proof.
  induction l as [|p l IH]; [constructor|]. constructor; [|exact IH]. destruct (String.eqb_spec p "admin:*"); [right|left]; done.
Qed.

Lemma mint_ret s orgId start env w token w' :
  (List.length start <= List.length (trace w))%nat ->
  mint_for s orgId env w = (Ret (inr (Some token)), w') -> bearer_of env (db w) start (trace w') s orgId token.
Proof.
  intros Hstart. unfold mint_for. intros H. apply bind_ret in H as (ws & w1 & H1 & H).
  assert (T1 : exists l, trace w1 = trace w ++ l).
  { destruct (Emits_query (fun _ => True) (find_by_org orgId) I env w) as (l & Hl & _). rewrite H1 in Hl. by exists l. }
  apply query_ret in H1 as [-> _]. destruct T1 as [l1 T1].
  destruct (find_by_org orgId (db w)) as [ws|] eqn:Ew; [|by apply ret_ret in H as [? _]].
  apply bind_ret in H as (user & w2 & H2 & H).
  destruct (silent_getUser (s_userId s) env w1) as (l2 & T2 & _). rewrite H2 in T2. cbn [snd] in T2.
  apply bind_ret in H as (t & w3 & Ht & H). apply ret_ret in H as [[= <-] ->].
  apply catch_ret in Ht as [Ht|(e & w4 & _ & Ht)]; [|by apply ret_ret in Ht as [? _]].
  apply bind_ret in Ht as (t & w4 & Ht & Hr). apply ret_ret in Hr as [[= <-] ->]. right.
  unfold mintProxyJWT in Ht. apply bind_ret in Ht as (e & w5 & He & Ht). apply appEnv_ret in He as [-> ->].
  destruct (UNKEY_JWT_SECRET (app_env env)) as [secret|] eqn:Es; [|done]. destruct (negb _); [done|].
  destruct (proxyPermissions _ _) as [|p ps] eqn:Ep; [done|]. rewrite <- Ep in Ht.
  apply bind_ret in Ht as (now & w6 & Hn & Ht). injection Hn as <- <-.
  destruct (sign_jwt _ _) eqn:Ej; [|done]. apply ret_ret in Ht as [-> ->].
  eexists ws, secret, (clock env (trace w2)), _. split; [done|]. split; [done|]. split; [|split; [|exact Ej]].
  - exists (trace w2), []. split; [done|]. split; [|done]. rewrite T2, T1, !length_app. lia.
  - split; try done. apply scoped_permissions.
Qed.

Lemma silent_bearer s orgId : Emits not_upstream (bearer_for s orgId).
Proof. unfold bearer_for. destruct (Js.truthy _); [apply Emits_ret|apply silent_mint]. Qed.

Lemma bearer_ret s orgId start env w token w' :
  (List.length start <= List.length (trace w))%nat ->
  bearer_for s orgId env w = (Ret (inr (Some token)), w') -> bearer_of env (db w) start (trace w') s orgId token.
Proof.
  intros Hs. unfold bearer_for. destruct (Js.truthy _); [|by apply mint_ret]. intros H. apply ret_ret in H as [[= E] _]. by left.
Qed.

Lemma bearer_refuses s orgId env w refusal w' : bearer_for s orgId env w = (Ret (inl refusal), w') -> is_passed (Ret refusal) = false.
Proof.
  unfold bearer_for, mint_for. destruct (Js.truthy _); [by intros [? _]%ret_ret|]. intros H. apply bind_ret in H as (ws & w1 & _ & H).
  destruct ws; [|apply ret_ret in H as [[= ->] _]; done]. apply bind_ret in H as (u & w2 & _ & H). apply bind_ret in H as (t & w3 & _ & H).
  by apply ret_ret in H as [? _].
Qed.

(** The request is sent once, to the origin of the API, or not at all. *)
Lemma forward_run r bearer env w o w' :
  forward r bearer env w = (o, w') ->
  (w' = w /\ is_passed o = false)
  \/ exists q base u, trace w' = trace w ++ [UpstreamPost q] /\ existsb bad_segment (px_path r) = false
       /\ parse_Url (UNKEY_API_URL (app_env env)) = Some base /\ Url_origin u = Url_origin base
       /\ (forall hops location, receivers hops location (ur_redirect q) (ur_url q) = [Url_href u])
       /\ ur_headers q = upstreamRequestHeaders r ++ [("authorization"%string, "Bearer " +:+ bearer)] /\ ur_body q = px_body r
       /\ ur_timeout q = 10000.
Proof.
  unfold forward. destruct (existsb bad_segment (px_path r)); [intros [= <- <-]; by left|]. unfold bind at 1, appEnv.
  destruct (parse_Url _) as [base|] eqn:Eb; [|intros [= <- <-]; by left]. destruct (resolve_Url _ base) as [u|]; [|intros [= <- <-]; by left].
  cbv zeta. destruct (String.eqb_spec (Url_origin (Url_set_search (px_search r) u)) (Url_origin base)) as [E|]; cbn [negb]; [|intros [= <- <-]; by left].
  set (q := {| ur_url := _ |}). intros H. right. exists q, base, (Url_set_search (px_search r) u).
  split; [|split_and!; try done; by intros []].
  unfold catch, bind, call in H. cbn [Resp] in H. destruct (ask env (trace w) (UpstreamPost q)); by injection H as _ <-.
Qed.

(** What a run of the handler sends. *)
Definition sends (r : ProxyRequest) (env : Env) (w w' : World) (o : Outcome ProxyAnswer) : Prop :=
  exists l, Forall not_upstream l
    /\ ((trace w' = trace w ++ l /\ is_passed o = false)
        \/ exists q, trace w' = trace w ++ l ++ [UpstreamPost q] /\ allowed_upstream r env w (trace w ++ l) q).

Lemma sends_silent {A} (m : M A) r env w a w' o :
  Emits not_upstream m -> m env w = (a, w') -> is_passed o = false -> sends r env w w' o.
Proof. intros Hm E Ho. destruct (Hm env w) as (l & Hl & Hp). rewrite E in Hl. exists l. auto. Qed.

End Sent.

(** What the handler sends. *)
Lemma proxy_sends `{P : AuthProvider} `{U : UrlParser} `{J : JwtSigner} (S : SilentProvider P)
    (r : ProxyRequest) (env : Env) (w w' : World) (o : Outcome ProxyAnswer) :
  proxy_POST r env w = (o, w') -> sends r env w w' o.
Proof.
  intros H. unfold proxy_POST in H.
  destruct (px_headers r "authorization") as [a|] eqn:Ea; cbn [Js.truthy_obj] in H.
  { injection H as <- <-. by apply (sends_silent (ret tt) r env w (Ret tt)); [apply Emits_ret| |]. }
  destruct (silent_auth (px_cookies r)) as [Hq Hd]. destruct (Hq env w) as (l & Hl & Hp). specialize (Hd env w). unfold bind at 1 in H.
  destruct (getBaseAuth validateSession refreshSession (Some (px_cookies r)) env w) as [[auth|e] w1] eqn:Eauth; cbn [snd] in *;
    [|injection H as <- <-; exists l; auto].
  destruct auth as [s|]; [|injection H as <- <-; exists l; auto].
  destruct (Js.truthy_string (s_userId s)) eqn:Eu; [|injection H as <- <-; exists l; auto].
  destruct (s_orgId s) as [orgId|] eqn:Eo; [|injection H as <- <-; exists l; auto]. cbn [Js.truthy Js.coalesce negb orb] in H.
  destruct (Js.truthy_string orgId) eqn:Et; [|injection H as <- <-; exists l; auto]. cbn [negb] in H. unfold bind at 1 in H.
  destruct (silent_bearer s orgId env w1) as (l1 & Hl1 & Hp1). assert (Hlen : (List.length (trace w) <= List.length (trace w1))%nat) by (rewrite Hl, length_app; lia).
  pose proof (fun token w' => bearer_ret s orgId (trace w) env w1 token w' Hlen) as Hb.
  destruct (bearer_for s orgId env w1) as [[bearer|e] w2] eqn:Eb; cbn [snd] in *;
    [|injection H as <- <-; exists (l ++ l1); split; [by apply Forall_app|left; by rewrite Hl1, Hl, app_assoc]].
  assert (Hquiet : forall o', is_passed o' = false -> sends r env w w2 o')
    by (intros o' Ho; exists (l ++ l1); split; [by apply Forall_app|left; by rewrite Hl1, Hl, app_assoc]).
  destruct bearer as [refusal|[token|]]; [injection H as <- <-; apply Hquiet; by eapply bearer_refuses| |injection H as <- <-; by apply Hquiet].
  cbn [Js.truthy Js.coalesce] in H. destruct (Js.truthy_string token); [|injection H as <- <-; by apply Hquiet].
  destruct (forward_run r token env w2 o w' H) as [[-> Ho]|(q & base & u & Htr & Hs & Hbase & Horigin & Hrec & Hh & Hbody & Htime)]; [by apply Hquiet|].
  exists (l ++ l1). split; [by apply Forall_app|]. right. exists q. split; [by rewrite Htr, Hl1, Hl, <- !app_assoc|].
  split; [done|]. split; [done|]. exists s, w1, orgId, base, u, token. specialize (Hb _ _ eq_refl).
  rewrite Hl1, Hl, <- app_assoc, Hd in Hb. split_and!; done.
Qed.

(** Claim C14. A token goes to the API only, and only for the session of the request. In
    any environment and for any provider, a run of the handler sends at most one request,
    as its last step: to the origin of the API's URL, and, since it follows no redirect, to
    no other URL whatever the API answers; within ten seconds; without an Authorization
    header or any other header of the browser than Accept and Content-Type; when the
    request has a session with a user and an organization. Its token is that of the session
    or one for two minutes that is signed during this run for the session's user and
    organization, with the session's rights in the organization's own workspace. Without
    such a request nothing is passed back. *)
Theorem bearer_stays_upstream `{P : AuthProvider} `{U : UrlParser} `{J : JwtSigner} (S : SilentProvider P)
    (r : ProxyRequest) (env : Env) (w w' : World) (o : Outcome ProxyAnswer) :
  proxy_POST r env w = (o, w') ->
  exists l, Forall not_upstream l
    /\ ((trace w' = trace w ++ l /\ is_passed o = false)
        \/ exists q, trace w' = trace w ++ l ++ [UpstreamPost q] /\ allowed_upstream r env w (trace w ++ l) q).
Proof. apply proxy_sends. exact S. Qed.

(** ** The providers *)

#[export] Instance workos_silent parse_state stringify_state stringify_challenge authorizationUrl :
  SilentProvider (Workos.workos parse_state stringify_state stringify_challenge authorizationUrl).
Proof.
  split; intros; cbn [validateSession refreshSession getUser Workos.workos];
    unfold Workos.validateSession, Workos.refreshSession, Workos.getUser; effects.
Qed.

#[export] Instance local_silent timestamp : SilentProvider (LocalAuth.local timestamp).
Proof.
  split; intros; cbn [validateSession refreshSession getUser LocalAuth.local];
    unfold LocalAuth.validateSession, LocalAuth.refreshSession, LocalAuth.getUser, LocalAuth.required; effects.
Qed.

(** With WorkOS, the session is one that WorkOS vouches for, of the token in the cookie. *)
Theorem bearer_of_workos_session `{U : UrlParser} `{J : JwtSigner} parse_state stringify_state stringify_challenge authorizationUrl
    (r : ProxyRequest) (env : Env) (w w' : World) (o : Outcome ProxyAnswer) (q : UpstreamRequest) :
  AUTH_PROVIDER (app_env env) <> "local"%string -> ~ In (UpstreamPost q) (trace w) ->
  proxy_POST (P := Workos.workos parse_state stringify_state stringify_challenge authorizationUrl) r env w = (o, w') ->
  In (UpstreamPost q) (trace w') ->
  exists token res s, px_cookies r !! UNKEY_SESSION_COOKIE = Some token /\ authenticated_as env token res s.
Proof.
  intros Hp Hnew H Hq. destruct (proxy_sends (P := Workos.workos _ _ _ _) _ r env w w' o H) as (l & Hl & [[E _]|(q' & E & Ha)]).
  - rewrite E in Hq. apply in_app_or in Hq as [Hq|Hq]; [done|]. by apply (List.Forall_forall not_upstream) with (x := UpstreamPost q) in Hl.
  - destruct Ha as (_ & _ & s & w1 & orgId & base & u & bearer & Hs & _). unfold getBaseAuth in Hs.
    apply catch_ret in Hs as [Hs|(e & w2 & _ & Hs)]; [|by apply ret_ret in Hs as [? _]].
    apply bind_ret in Hs as (res & w2 & Hu & Hr). apply ret_ret in Hr as [Hr _].
    destruct (updateSession_ret env (Some (px_cookies r)) w res w2 s Hp Hu (eq_sym Hr)) as (token & Ht & Hauth). by exists token, res, s.
Qed.

(** ** Plain paths *)

(** What the standard says of URLs: a reference that is a path of the origin resolves
    within it, and the query does not change the origin. *)
Class UrlLaws (U : UrlParser) : Prop := {
  resolve_within p base : Redirect.same_origin p = true -> exists u, resolve_Url p base = Some u /\ Url_origin u = Url_origin base;
  search_within q u : Url_origin (Url_set_search q u) = Url_origin u;
}.

Lemma control_dropped c : is_control c = false -> Redirect.is_dropped c = false.
Proof. destruct c as [[] [] [] [] [] [] [] []]; vm_compute; intros H; try discriminate H; done. Qed.

(** A path whose segments pass the check and whose first segment is not empty does not
    start an authority. *)
Lemma path_same_origin segment path :
  Js.truthy_string segment = true -> existsb bad_segment (segment :: path) = false -> Redirect.same_origin (upstream_path (segment :: path)) = true.
Proof.
  destruct segment as [|c s]; [done|]. intros _ [Hb _]%orb_false_elim.
  assert (E : exists rest, upstream_path (String c s :: path) = String "/" (String c rest)) by (destruct path; by eexists).
  destruct E as [rest ->]. unfold bad_segment in Hb. apply orb_false_elim in Hb as [Hb Hc]. apply orb_false_elim in Hb as [Hbs Hsl].
  cbn in Hc, Hbs, Hsl. apply orb_false_elim in Hbs as [Hbs _]. apply orb_false_elim in Hsl as [Hsl _].
  apply negb_false_iff, andb_prop in Hc as [Hc _]. apply negb_true_iff, control_dropped in Hc.
  unfold Redirect.same_origin, Redirect.prepared. cbn [Redirect.cut_start]. change (Redirect.is_c0_or_space "/") with false. cbv iota.
  cbn [Redirect.cut_end]. change (Redirect.is_c0_or_space "/") with false. cbv iota.
  assert (Hplain : negb (Ascii.eqb c "/" || Nat.eqb (nat_of_ascii c) 92) = true).
  { rewrite Hsl. cbn [orb]. apply negb_true_iff, Nat.eqb_neq. intros E. destruct (Ascii.eqb_spec c backslash) as [|Hne]; [done|].
    apply Hne. rewrite <- (ascii_nat_embedding c), E. done. }
  destruct (Redirect.cut_end rest) as [|y z]; [destruct (Redirect.is_c0_or_space c)|]; cbn [Redirect.drop_breaks];
    change (Redirect.is_dropped "/") with false; cbv iota; rewrite ?Hc; [done|exact Hplain|exact Hplain].
Qed.

(** The check of the path refuses no path of the API. A request whose segments
    hold no slash, backslash or control character and whose first segment is not empty is
    sent, with its query, when the URL of the API is one: the comparison of the origins
    behind the check of the segments only guards against what the check misses. *)
Theorem plain_paths_sent `{U : UrlParser} (L : UrlLaws U) (r : ProxyRequest) (bearer segment : string) (path : list string) (env : Env) (w : World) :
  px_path r = segment :: path -> Js.truthy_string segment = true -> existsb bad_segment (px_path r) = false ->
  is_Some (parse_Url (UNKEY_API_URL (app_env env))) ->
  exists base u o w', forward r bearer env w = (o, w')
    /\ parse_Url (UNKEY_API_URL (app_env env)) = Some base /\ resolve_Url (upstream_path (px_path r)) base = Some u
    /\ exists q, trace w' = trace w ++ [UpstreamPost q] /\ ur_url q = Url_href (Url_set_search (px_search r) u)
    /\ (o = Ret (Refusal 502 "Upstream API request failed.") \/ is_passed o = true).
Proof.
  intros Hpath Hseg Hok [base Hbase]. rewrite Hpath in *. destruct (resolve_within _ base (path_same_origin segment path Hseg Hok)) as (u & Hu & Ho).
  unfold forward. rewrite Hpath, Hok. unfold bind at 1, appEnv. rewrite Hbase, Hu. cbv zeta.
  rewrite search_within, Ho, String.eqb_refl. cbn [negb]. set (q := {| ur_url := _ |}). unfold catch, bind, call. cbn [Resp].
  destruct (ask env (trace w) (UpstreamPost q)); eexists base, u, _, _; (split; [reflexivity|]); (split; [done|]); (split; [done|]);
    exists q; (split; [done|]); (split; [done|]); [by left|by right].
Qed.

(** ** Samples *)

(** A parser that keeps the text of a URL apart from its origin, and a signature that
    shows what is signed. *)
Definition demo_urls : UrlParser := {|
  Url := (string * string)%type;
  parse_Url := fun s => Some (s, EmptyString);
  resolve_Url := fun p base => Some (if Redirect.same_origin p then fst base else "https://elsewhere"%string, p);
  Url_origin := fst;
  Url_set_search := fun q u => (fst u, snd u +:+ q);
  Url_href := fun u => fst u +:+ snd u;
|}.

Definition demo_signer : JwtSigner := {| sign_jwt := fun c key => Some (jwt_org c +:+ "." +:+ jwt_sub c +:+ "." +:+ key) |}.

#[export] Instance demo_url_laws : UrlLaws demo_urls.
Proof. split; [|done]. intros p base H. cbn. rewrite H. by eexists. Qed.

Definition demo_proxy_request (path : list string) : ProxyRequest :=
  {| px_headers := fun n => if String.eqb n "accept" then Some "application/json"%string else None;
     px_cookies := {[ UNKEY_SESSION_COOKIE := "sealed_1"%string ]}; px_path := path; px_search := "?a=1"; px_body := "{}" |}.

(** A dashboard with the local provider and the workspace of its organization. *)
Definition local_app_env : AppEnv :=
  let e := demo_app_env in
  {| UNKEY_ROOT_KEY := UNKEY_ROOT_KEY e; UNKEY_WORKSPACE_ID := UNKEY_WORKSPACE_ID e; UNKEY_API_ID := UNKEY_API_ID e;
     AUTH_PROVIDER := "local"; NODE_ENV := NODE_ENV e; VERCEL_ENV := VERCEL_ENV e;
     NEXT_PUBLIC_WORKOS_REDIRECT_URI := None; baseUrl := baseUrl e; WORKOS_API_KEY := None; WORKOS_WEBHOOK_SECRET := None;
     RESEND_API_KEY := None; RESEND_AUDIENCE_ID := None; github_app_env := None; github_oauth_env := None;
     CTRL_URL := CTRL_URL e; CTRL_API_KEY := CTRL_API_KEY e; UNKEY_API_URL := UNKEY_API_URL e; UNKEY_JWT_SECRET := UNKEY_JWT_SECRET e |}.

Definition local_env : Env :=
  {| stripe_env := None; app_env := local_app_env; request_headers := fun _ => None; collation := Str.to_lower;
     SLACK_WEBHOOK_CUSTOMERS := None; ask := ask auth_env; clock := clock demo_env; fresh := fresh demo_env; teardown_done := teardown_done demo_env |}.

Definition local_db : Db :=
  let ws := demo_workspace in
  {| workspaces := {[ "ws_1"%string := {| ws_id := "ws_1"; ws_name := ws_name ws; orgId := LOCAL_ORG_ID; ws_slug := ws_slug ws;
       ws_k8sNamespace := None; ws_betaFeatures := []; ws_enabled := true; ws_deleteProtection := true; ws_createdAtM := 1000;
       ws_updatedAtM := None; deletedAtM := None |} ]};
     workspace_billing := ∅; billing_subscriptions := []; limits := ∅; clickhouse_outbox := []; tables := fun _ => [] |}.

Definition proxy_run (path : list string) : Outcome ProxyAnswer * World :=
  proxy_POST (P := LocalAuth.local "2025-01-01") (U := demo_urls) (J := demo_signer) (demo_proxy_request path) local_env (world_of local_db).

(** A path that would start an authority is refused, although each segment is plain. *)
Example authority_refused : fst (proxy_run [""; "evil.com"]%string) = Ret INVALID_PATH.
Proof. vm_compute. reflexivity. Qed.

Lemma bearer_stays_upstream_witness :
  exists l q, trace (snd (proxy_run ["v2"; "apis.getApi"]%string)) = l ++ [UpstreamPost q]
    /\ allowed_upstream (P := LocalAuth.local "2025-01-01") (U := demo_urls) (J := demo_signer) (demo_proxy_request ["v2"; "apis.getApi"]%string)
         local_env (world_of local_db) l q.
Proof.
  destruct (proxy_run ["v2"; "apis.getApi"]%string) as [o w'] eqn:E.
  destruct (bearer_stays_upstream (P := LocalAuth.local "2025-01-01") (U := demo_urls) (J := demo_signer) _ _ _ _ w' o E)
    as (l & _ & [[_ Ho]|(q & Hq & Ha)]).
  - exfalso. apply (f_equal (fun p => is_passed (fst p))) in E. cbn [fst] in E. rewrite Ho in E. vm_compute in E. discriminate E.
  - exists l, q. split; [exact Hq|exact Ha].
Defined.

Lemma plain_paths_sent_witness :
  exists q, trace (snd (forward (U := demo_urls) (demo_proxy_request ["v2"; "apis.getApi"]%string) "token" demo_env (world_of local_db)))
            = [UpstreamPost q].
Proof.
  destruct (plain_paths_sent (U := demo_urls) _ (demo_proxy_request ["v2"; "apis.getApi"]%string) "token" "v2" ["apis.getApi"%string] demo_env
    (world_of local_db) eq_refl eq_refl eq_refl (ex_intro _ _ eq_refl)) as (base & u & o & w' & E & _ & _ & q & Hq & _).
  exists q. rewrite E. exact Hq.
Defined.
