(* ===== verification/Store.v ===== *)
(** * Queries and statements of the procedures

    The steps that the procedures on keys, permissions, roles and ratelimits share,
    with lib/projects/ensure-default-project-id.ts and lib/utils/db-errors.ts, and
    the two invariants their theorems speak about: no two rows of a table clash
    ([tables_ok]), and the rows of the other workspaces are untouched ([kept]). *)

From Stdlib Require Import ZArith Bool Ascii String Lia.
From stdpp Require Import base list gmap strings.
From S2P Require Import Prelude Tables StripeTypes DeployPlan Effects Fixtures BillingOps Trpc.

Local Open Scope Z_scope.

(** ** Shared steps *)

(** [isDuplicateKeyError]: the code of the driver error on the cause. *)
Definition isDuplicateKeyError (err : Exn) : bool :=
  match err with
  | QueryError code => Js.eq_ostring code "ER_DUP_ENTRY"
  | StripeError _ code _ _ => Js.eq_ostring code "ER_DUP_ENTRY"
  | TRPCError code _ => String.eqb code "ER_DUP_ENTRY"
  | _ => false
  end.

Definition internal (message : string) : Exn := TRPCError "INTERNAL_SERVER_ERROR" message.
Definition not_found (message : string) : Exn := TRPCError "NOT_FOUND" message.
Definition conflict (message : string) : Exn := TRPCError "CONFLICT" message.

(** [m.catch(() => { throw e })]. *)
Definition or_throw {A} (m : M A) (e : Exn) : M A := catch m (fun _ => throw e).

(** [tx.query.t.findFirst] and [findMany]. *)
Definition find_first (t : table) (p : (string -> string) -> row t -> bool) : M (option (row t)) :=
  select (fun fold d => List.find (p fold) (d t)).

Definition find_many (t : table) (p : (string -> string) -> row t -> bool) : M (list (row t)) :=
  select (fun fold d => List.filter (p fold) (d t)).

Definition is_default_project (workspaceId : string) (r : Project) : bool :=
  String.eqb (project_workspaceId r) workspaceId && String.eqb (project_slug r) "default".

Definition ensureDefaultProjectId (workspaceId : string) : M string :=
  project <- find_first schema_projects (fun _ r => is_default_project workspaceId r) ;;
  match project with
  | Some p => ret (project_id p)
  | None =>
      projectId <- new_id "project" ;;
      created <- catch (
        exec_sql (Insert schema_projects
          [{| project_id := projectId; project_workspaceId := workspaceId; project_name := "Default";
              project_slug := "default"; project_deleteProtection := Some true |}]) ;;
        ret true)
        (fun error => if negb (isDuplicateKeyError error) then throw error else ret false) ;;
      if created : bool then ret projectId
      else
        concurrentProject <- find_first schema_projects (fun _ r => is_default_project workspaceId r) ;;
        match concurrentProject with
        | Some p => ret (project_id p)
        | None => throw (OtherError ("Unable to ensure default project for workspace " +:+ workspaceId))
        end
  end.


(** ** Invariants *)

(** The workspace a row belongs to. *)
Definition ws_of (t : table) : row t -> string :=
  match t return row t -> string with
  | schema_projects => project_workspaceId
  | schema_permissions => perm_workspaceId
  | schema_roles => role_workspaceId
  | schema_rolesPermissions => rp_workspaceId
  | schema_keysRoles => kr_workspaceId
  | schema_keysPermissions => kp_workspaceId
  | schema_keys => key_workspaceId
  | schema_keyAuth => ka_workspaceId
  | schema_apis => api_workspaceId
  | schema_encryptedKeys => ek_workspaceId
  | schema_ratelimits => rl_workspaceId
  | schema_identities => identity_workspaceId
  | schema_ratelimitNamespaces => ns_workspaceId
  | schema_ratelimitOverrides => ov_workspaceId
  | schema_sharedSecrets => ss_workspaceId
  | schema_apps => app_workspaceId
  | schema_githubAppInstallations => gi_workspaceId
  | schema_githubRepoConnections => gc_workspaceId
  | schema_environments => en_workspaceId
  | schema_appRuntimeSettings => rs_workspaceId
  | schema_appEnvironmentVariables => ev_workspaceId
  | schema_customDomains => cd_workspaceId
  | schema_deployments => dep_workspaceId
  end.

(** The rows of the other workspaces. *)
Definition foreign (ws : string) (t : table) (l : list (row t)) : list (row t) :=
  List.filter (fun r => negb (String.eqb (ws_of t r) ws)) l.

Definition kept (ws : string) (d d' : Tables) : Prop := forall t, foreign ws t (d' t) = foreign ws t (d t).

(** Every unique index holds. *)
Definition tables_ok (fold : string -> string) (d : Tables) : Prop := forall t, unique (clash fold t) (d t) = true.

(** ** Facts about statements *)

Section StatementFacts.

Context (fold : string -> string) (ws : string).

#[global] Instance kept_preorder : PreOrder (kept ws).
Proof. split; [by intros d t|]. intros d1 d2 d3 H1 H2 t. by rewrite H2. Qed.

Lemma run_put s d d' :
  run_sql fold s d = Some d' ->
  d' = put (projT1 (affect fold s)) (projT2 (affect fold s) (d (projT1 (affect fold s)))) d
  /\ unique (clash fold (projT1 (affect fold s))) (projT2 (affect fold s) (d (projT1 (affect fold s)))) = true.
Proof. unfold run_sql. destruct (affect fold s) as [t f]; cbn. destruct (unique _ _); [|done]. by intros [= <-]. Qed.

Lemma run_other s d d' t : run_sql fold s d = Some d' -> projT1 (affect fold s) <> t -> d' t = d t.
Proof. intros H Ht. apply run_put in H as [-> _]. by rewrite put_ne. Qed.

Lemma run_insert t rows d d' : run_sql fold (Insert t rows) d = Some d' -> d' t = d t ++ rows.
Proof. intros H. apply run_put in H as [-> _]. cbn [affect projT1 projT2]. by rewrite put_eq. Qed.

Lemma run_update t w set d d' :
  run_sql fold (Update t w set) d = Some d' -> d' t = List.map (fun r => if w r then set r else r) (d t).
Proof. intros H. apply run_put in H as [-> _]. cbn [affect projT1 projT2]. by rewrite put_eq. Qed.

Lemma run_delete t w d d' :
  run_sql fold (Delete t w) d = Some d' -> d' t = List.filter (fun r => negb (w r)) (d t).
Proof. intros H. apply run_put in H as [-> _]. cbn [affect projT1 projT2]. by rewrite put_eq. Qed.

(** Where the rows after an upsert come from. *)
Lemma run_upsert t r set d d' x :
  run_sql fold (Upsert t r set) d = Some d' -> In x (d' t) ->
  In x (d t) \/ x = r \/ exists y, In y (d t) /\ clash fold t r y = true /\ x = set y.
Proof.
  intros H Hx. apply run_put in H as [-> _]. cbn [affect projT1 projT2] in Hx. rewrite put_eq in Hx.
  destruct (existsb _ _); [|apply in_app_or in Hx as [Hx|[<-|[]]]; auto].
  apply in_map_iff in Hx as (y & Hy & Hin). destruct (clash fold t r y) eqn:E; [|subst; auto]. right. right. by exists y.
Qed.

Lemma tables_ok_run s d d' : run_sql fold s d = Some d' -> tables_ok fold d -> tables_ok fold d'.
Proof.
  intros H Hok t. apply run_put in H as [-> Hu]. destruct (decide (projT1 (affect fold s) = t)) as [<-|Hne].
  - by rewrite put_eq.
  - by rewrite put_ne.
Qed.

Lemma kept_run s d d' :
  run_sql fold s d = Some d' ->
  (let '(existT t f) := affect fold s in foreign ws t (f (d t)) = foreign ws t (d t)) -> kept ws d d'.
Proof.
  intros H Hf t. apply run_put in H as [-> _]. destruct (affect fold s) as [t0 f]; cbn.
  destruct (decide (t0 = t)) as [<-|Hne]; [by rewrite put_eq|by rewrite put_ne].
Qed.

Lemma foreign_own t l : (forall r, In r l -> ws_of t r = ws) -> foreign ws t l = [].
Proof.
  induction l as [|r l IH]; simpl; [done|]. intros Hl. rewrite (Hl r) by (by left). rewrite String.eqb_refl. cbn.
  apply IH. intros x Hx. apply Hl. by right.
Qed.

Lemma foreign_app t l l' : foreign ws t (l ++ l') = foreign ws t l ++ foreign ws t l'.
Proof. apply List.filter_app. Qed.

Lemma kept_insert t rows d d' :
  run_sql fold (Insert t rows) d = Some d' -> (forall r, In r rows -> ws_of t r = ws) -> kept ws d d'.
Proof. intros H Hr. apply (kept_run _ _ _ H).
  change (foreign ws t (d t ++ rows) = foreign ws t (d t)). by rewrite foreign_app, (foreign_own t rows), app_nil_r. Qed.

Lemma kept_delete t w d d' :
  run_sql fold (Delete t w) d = Some d' -> (forall r, In r (d t) -> w r = true -> ws_of t r = ws) -> kept ws d d'.
Proof.
  intros H Hw. apply (kept_run _ _ _ H). cbn [affect]. unfold foreign. induction (d t) as [|r l IH]; simpl; [done|].
  destruct (w r) eqn:E; simpl.
  - rewrite (Hw r) by (done || by left). rewrite String.eqb_refl; simpl. apply IH. intros x Hx. apply Hw. by right.
  - rewrite IH; [done|]. intros x Hx. apply Hw. by right.
Qed.

Lemma foreign_map t (g : row t -> row t) l :
  (forall r, In r l -> g r = r \/ ws_of t r = ws /\ ws_of t (g r) = ws) -> foreign ws t (List.map g l) = foreign ws t l.
Proof.
  unfold foreign. induction l as [|r l IH]; simpl; [done|]. intros Hg.
  rewrite IH by (intros x Hx; apply Hg; by right).
  destruct (Hg r) as [->|[H1 H2]]; [by left|done|]. by rewrite H1, H2, String.eqb_refl.
Qed.

Lemma kept_update t w set d d' :
  run_sql fold (Update t w set) d = Some d' ->
  (forall r, In r (d t) -> w r = true -> ws_of t r = ws /\ ws_of t (set r) = ws) -> kept ws d d'.
Proof.
  intros H Hw. apply (kept_run _ _ _ H). cbn [affect]. apply foreign_map. intros r Hr. destruct (w r) eqn:E; [right|by left].
  by apply Hw.
Qed.

Lemma kept_upsert t r set d d' :
  run_sql fold (Upsert t r set) d = Some d' -> ws_of t r = ws ->
  (forall x, In x (d t) -> clash fold t r x = true -> ws_of t x = ws /\ ws_of t (set x) = ws) -> kept ws d d'.
Proof.
  intros H Hr Hx. apply (kept_run _ _ _ H). cbn [affect]. destruct (existsb _ _).
  - apply foreign_map. intros x Hin. destruct (clash fold t r x) eqn:E; [right|by left]. by apply Hx.
  - rewrite foreign_app, (foreign_own t [r]), app_nil_r; [done|]. by intros x [<-|[]].
Qed.

End StatementFacts.

(** ** Classes *)

Section StoreClasses.

Context {A : Type}.

Lemma Atomic_or_throw (m : M A) e : Atomic m -> Atomic (or_throw m e).
Proof. intros Hm. apply Atomic_catch; [done|]. intros. apply Atomic_ReadOnly, ReadOnly_throw. Qed.

Lemma ReadOnly_or_throw (m : M A) e : ReadOnly m -> ReadOnly (or_throw m e).
Proof. intros Hm. apply ReadOnly_catch; [done|]. intros. apply ReadOnly_throw. Qed.

Lemma ReadOnly_find_first t p : ReadOnly (find_first t p).
Proof. apply ReadOnly_select. Qed.

Lemma ReadOnly_find_many t p : ReadOnly (find_many t p).
Proof. apply ReadOnly_select. Qed.

End StoreClasses.

#[export] Hint Resolve Atomic_or_throw ReadOnly_or_throw ReadOnly_find_first ReadOnly_find_many : effects.

(** ** Inversion of runs on the tables *)

Section TableRuns.

Context {A : Type}.

Lemma or_throw_ret (m : M A) e env w a w' : or_throw m e env w = (Ret a, w') -> m env w = (Ret a, w').
Proof. intros H. apply catch_ret in H as [H|(x & w1 & _ & H)]; [done|discriminate]. Qed.

Lemma transaction_tables (m : M A) env w a w' :
  transaction m env w = (Ret a, w') ->
  exists w1 w2, tables (db w1) = tables (db w) /\ m env w1 = (Ret a, w2) /\ tables (db w') = tables (db w2).
Proof. intros H. apply transaction_ret in H as (w1 & w2 & E1 & H & E2). exists w1, w2. by rewrite E1, E2. Qed.

Lemma read_tables (m : M A) env w a w' : ReadOnly m -> m env w = (Ret a, w') -> tables (db w') = tables (db w).
Proof. intros Hm H. by rewrite (read_ret m env w _ w' Hm H). Qed.

End TableRuns.

Lemma find_first_ret t p env w a w' :
  find_first t p env w = (Ret a, w') ->
  List.find (p (collation env)) (tables (db w) t) = a /\ tables (db w') = tables (db w).
Proof. intros H. apply select_ret in H as [-> E]. by rewrite E. Qed.

Lemma find_many_ret t p env w a w' :
  find_many t p env w = (Ret a, w') ->
  List.filter (p (collation env)) (tables (db w) t) = a /\ tables (db w') = tables (db w).
Proof. intros H. apply select_ret in H as [-> E]. by rewrite E. Qed.

Lemma select_tables {A} (f : (string -> string) -> Tables -> A) env w a w' :
  select f env w = (Ret a, w') -> f (collation env) (tables (db w)) = a /\ tables (db w') = tables (db w).
Proof. intros H. apply select_ret in H as [-> E]. by rewrite E. Qed.

Lemma date_now_tables env w a w' :
  date_now env w = (Ret a, w') -> a = clock env (trace w) /\ tables (db w') = tables (db w).
Proof. by intros [= <- <-]. Qed.

Lemma exec_tables s env w u w' :
  exec_sql s env w = (Ret u, w') -> run_sql (collation env) s (tables (db w)) = Some (tables (db w')).
Proof. intros H. apply exec_sql_ret in H as (t & H & ->). by rewrite H. Qed.

Lemma insertAuditLogs_tables logs env w u w' :
  insertAuditLogs logs env w = (Ret u, w') -> tables (db w') = tables (db w).
Proof.
  unfold insertAuditLogs. destruct logs as [|log logs]; [by intros [= <- <-]|]. intros H.
  apply bind_ret in H as (id & w1 & H1 & H).
  assert (E1 : tables (db w1) = tables (db w)) by (eapply read_tables; [|exact H1]; effects).
  apply bind_ret in H as (rows & w2 & H2 & H).
  assert (E2 : tables (db w2) = tables (db w1)) by (eapply read_tables; [|exact H2]; apply ReadOnly_outbox_rows).
  apply exec_ret in H. rewrite H. cbn. congruence.
Qed.

(** Takes a successful run on the tables apart. Every statement leaves what
    [run_sql] did, every query what it found, and the tables between are equated;
    branches that throw are closed. *)
Ltac steps H :=
  lazymatch type of H with
  | bind _ _ _ _ = (Ret _, _) =>
      let a := fresh "a" in let w1 := fresh "w" in let H1 := fresh "Hs" in
      apply bind_ret in H as (a & w1 & H1 & H); steps H1; steps H
  | ret _ _ _ = (Ret _, _) => let E := fresh "Ea" in apply ret_ret in H as [E ->]; try subst
  | throw _ _ _ = (Ret _, _) => discriminate H
  | or_throw _ _ _ _ = (Ret _, _) => apply or_throw_ret in H; steps H
  | transaction _ _ _ = (Ret _, _) =>
      let w1 := fresh "w" in let w2 := fresh "w" in let E1 := fresh "Et" in let E2 := fresh "Et" in
      apply transaction_tables in H as (w1 & w2 & E1 & H & E2); steps H
  | find_first _ _ _ _ = (Ret _, _) =>
      let E := fresh "Ef" in let E1 := fresh "Et" in apply find_first_ret in H as [E E1]
  | find_many _ _ _ _ = (Ret _, _) =>
      let E := fresh "Ef" in let E1 := fresh "Et" in apply find_many_ret in H as [E E1]
  | select _ _ _ = (Ret _, _) =>
      let E := fresh "Ef" in let E1 := fresh "Et" in apply select_tables in H as [E E1]
  | date_now _ _ = (Ret _, _) =>
      let E := fresh "En" in let E1 := fresh "Et" in apply date_now_tables in H as [E E1]
  | appEnv _ _ = (Ret _, _) => apply appEnv_ret in H as [-> ->]
  | exec_sql _ _ _ = (Ret _, _) => apply exec_tables in H
  | insertAuditLogs _ _ _ = (Ret _, _) => apply insertAuditLogs_tables in H
  | new_id _ _ _ = (Ret _, _) => apply (read_tables _ _ _ _ _ (ReadOnly_new_id _)) in H
  | (match ?x with _ => _ end) _ _ = (Ret _, _) =>
      let E := fresh "Em" in destruct x eqn:E; steps H
  | _ => idtac
  end.

(** Rewrites with the equations between tables. *)
Ltac tables_eq :=
  repeat match goal with
  | E : tables (db ?a) = tables (db ?b) |- _ => rewrite E in *; clear E
  end.

(** The default project is found, or inserted for the workspace. *)
Definition project_step (fold : string -> string) (ws : string) (d d' : Tables) : Prop :=
  d' = d \/ exists p, project_workspaceId p = ws /\ run_sql fold (Insert schema_projects [p]) d = Some d'.

Lemma ensure_ret ws env w id w' :
  ensureDefaultProjectId ws env w = (Ret id, w') -> project_step (collation env) ws (tables (db w)) (tables (db w')).
Proof.
  unfold ensureDefaultProjectId. intros H. apply bind_ret in H as (project & w1 & H1 & H).
  apply find_first_ret in H1 as [_ E1]. destruct project as [p|]; [apply ret_ret in H as [-> ->]; by left|].
  apply bind_ret in H as (pid & w2 & H2 & H). apply (read_tables _ _ _ _ _ (ReadOnly_new_id _)) in H2.
  apply bind_ret in H as (created & w3 & H3 & H). rewrite <- E1, <- H2. apply catch_ret in H3 as [H3|(e & w4 & H4 & H3)].
  - steps H3. apply ret_ret in H as [-> ->]. right. eexists. split; [|exact Hs]. done.
  - assert (E4 : db w4 = db w2) by (revert H4; apply Atomic_bind_last; [apply Atomic_exec_sql|effects]).
    destruct (negb _); [done|]. apply ret_ret in H3 as [-> ->]. rewrite <- E4.
    apply bind_ret in H as (p & w5 & H5 & H). apply find_first_ret in H5 as [_ E5].
    destruct p; [|done]. apply ret_ret in H as [-> ->]. by left.
Qed.

Lemma project_step_kept fold ws d d' : project_step fold ws d d' -> kept ws d d'.
Proof. intros [->|(p & Hp & H)]; [done|]. eapply kept_insert; [exact H|]. by intros r [<-|[]]. Qed.

Lemma project_step_ok fold ws d d' : project_step fold ws d d' -> tables_ok fold d -> tables_ok fold d'.
Proof. intros [->|(p & Hp & H)]; [done|]. by eapply tables_ok_run. Qed.

Lemma project_step_other fold ws d d' t : project_step fold ws d d' -> t <> schema_projects -> d' t = d t.
Proof. intros [->|(p & Hp & H)] Ht; [done|]. apply run_put in H as [-> _]. cbn. by rewrite put_ne. Qed.

(** A computation that starts by reading. *)
Lemma after_read {A B} (m : M A) (k : A -> M B) env w o w' :
  ReadOnly m -> bind m k env w = (o, w') ->
  (exists e, o = Throw e /\ db w' = db w) \/ exists a w1, m env w = (Ret a, w1) /\ db w1 = db w /\ k a env w1 = (o, w').
Proof.
  intros Hm. specialize (Hm env w). unfold bind. destruct (m env w) as [[a|e] w1]; intros H.
  - right. by exists a, w1.
  - injection H as <- <-. left. by exists e.
Qed.

Lemma ReadOnly_limit_allows namespace user : ReadOnly (limit_allows namespace user).
Proof. unfold limit_allows. effects. exact (ReadOnly_call (RatelimitLimit namespace user)). Qed.

#[export] Hint Resolve ReadOnly_limit_allows : effects.

Lemma withRatelimit_ret {A} namespace (h : WCtx -> M A) c env w r w' :
  withRatelimit namespace h c env w = (Ret r, w') -> exists w1, tables (db w1) = tables (db w) /\ h c env w1 = (Ret r, w').
Proof.
  unfold withRatelimit. intros H. apply bind_ret in H as (ok & w1 & H1 & H).
  apply (read_tables _ _ _ _ _ (ReadOnly_limit_allows _ _)) in H1.
  destruct ok; [|done]. by exists w1.
Qed.

Lemma filter_all {A} (p : A -> bool) l : (forall x, In x l -> p x = true) -> List.filter p l = l.
Proof. induction l as [|x l IH]; cbn; [done|]. intros H. rewrite (H x), IH; auto. Qed.

Lemma map_none {A} (p : A -> bool) (f : A -> A) l : List.filter p l = [] -> List.map (fun x => if p x then f x else x) l = l.
Proof. induction l as [|x l IH]; cbn; [done|]. destruct (p x); [done|]. intros H. by rewrite IH. Qed.

Lemma map_filter {A B} (f : A -> B) (p : B -> bool) l :
  List.map f (List.filter (fun x => p (f x)) l) = List.filter p (List.map f l).
Proof. induction l as [|x l IH]; cbn; [done|]. destruct (p (f x)); cbn; by rewrite IH. Qed.

(** ** Tactics for chains of statements *)

(** Runs of [ensureDefaultProjectId] in the hypotheses become steps. *)
Ltac ensured := repeat match goal with H : ensureDefaultProjectId _ _ _ = (Ret _, _) |- _ => apply ensure_ret in H end.

(** The conjuncts of a [where]. *)
Ltac own H := cbv beta in H; unfold is_default_project in H; bool_hyps.

(** [tables_ok] after a chain of statements. *)
Ltac ok_chain :=
  repeat match goal with
  | H : run_sql _ _ ?d = Some ?d' |- tables_ok _ ?d' => apply (tables_ok_run _ _ _ _ H)
  | H : project_step _ _ ?d ?d' |- tables_ok _ ?d' => apply (project_step_ok _ _ _ _ H)
  end; assumption.

(** The rows a statement inserts or matches are of the workspace. *)
Ltac own_rows :=
  lazymatch goal with
  | |- forall r, In r (List.map _ _) -> _ => let r := fresh in let H := fresh in
      intros r H; apply in_map_iff in H as (? & <- & _); reflexivity
  | |- forall r, In r (_ :: nil) -> _ => let H := fresh in intros ? [<-|[]]; reflexivity
  | |- forall r, In r _ -> _ -> _ => let H := fresh in
      try solve [intros ? _ H; own H; first [assumption | split; assumption]]
  | _ => idtac
  end.

(** [kept] along a chain of statements; what is not evident is left. *)
Ltac kept_chain :=
  repeat match goal with
  | |- kept _ ?d ?d => reflexivity
  | H : run_sql _ (Insert _ _) ?d = Some ?d' |- kept _ _ ?d' =>
      transitivity d; [|apply (kept_insert _ _ _ _ _ _ H); own_rows]
  | H : run_sql _ (Delete _ _) ?d = Some ?d' |- kept _ _ ?d' =>
      transitivity d; [|apply (kept_delete _ _ _ _ _ _ H); own_rows]
  | H : run_sql _ (Update _ _ _) ?d = Some ?d' |- kept _ _ ?d' =>
      transitivity d; [|apply (kept_update _ _ _ _ _ _ _ H); own_rows]
  | H : run_sql _ (Upsert _ _ _) ?d = Some ?d' |- kept _ _ ?d' =>
      transitivity d; [|apply (kept_upsert _ _ _ _ _ _ _ H); own_rows]
  | H : project_step _ _ ?d ?d' |- kept _ _ ?d' => transitivity d; [|apply (project_step_kept _ _ _ _ H)]
  end.
