(* ===== verification/Github.v ===== *)
(** * The GitHub client

    web/apps/dashboard/lib/github.ts: the token of the app, the exchange of the code of a
    user, the ownership check, and the listings. A page loop has as many levels as its
    argument says; the theorems say how many are enough. The signature of the app's
    token, the order of a locale and the time of a date are parameters. *)

From Stdlib Require Import ZArith Bool Ascii String Lia.
From stdpp Require Import base list gmap strings.
From S2P Require Import Prelude Tables Encoding StripeTypes DeployPlan GithubTypes Effects.

Local Open Scope Z_scope.

(** [crypto.createSign("RSA-SHA256")] with the output in base64url,
    [a.localeCompare(b) < 0], and [new Date(s).getTime()]. *)
Class GithubPlatform := {
  rsa_sign : string -> string -> string;
  locale_before : string -> string -> bool;
  date_time : string -> Z;
}.

Definition githubAppEnv : M (option GithubAppEnv) := env <- appEnv ;; ret (github_app_env env).
Definition githubOAuthEnv : M (option GithubOAuthEnv) := env <- appEnv ;; ret (github_oauth_env env).

Definition GitHubApiError (status : Z) (body : string) : Exn :=
  OtherError ("GitHub API error " +:+ Num.string_of_Z status +:+ ": " +:+ body).
Definition ZodError : Exn := OtherError "ZodError".

(** A request whose response is parsed by the schema of the endpoint. *)
Definition fetchGitHubApi (c : GithubCall) : M (gh_data c) :=
  r <- call (GitHub c) ;;
  match r with
  | GhData (Some data) => ret data
  | GhData None => throw ZodError
  | GhStatus status body => throw (GitHubApiError status body)
  end.

(** ** Tokens *)

Fixpoint url_alphabet (s : string) : string :=
  match s with
  | EmptyString => EmptyString
  | String c r =>
      if Ascii.eqb c "+" then String "-" (url_alphabet r)
      else if Ascii.eqb c "/" then String "_" (url_alphabet r)
      else if Ascii.eqb c "=" then url_alphabet r
      else String c (url_alphabet r)
  end.

Definition base64UrlEncode (data : string) : string :=
  url_alphabet (encode (List.map (fun c => Z.of_nat (nat_of_ascii c)) (list_ascii_of_string data))).

(** A quoted name of a JSON object. *)
Definition quoted (s : string) : string := String (ascii_of_nat 34) (s +:+ String (ascii_of_nat 34) EmptyString).

Definition jwt_header : string := "{" +:+ quoted "alg" +:+ ":" +:+ quoted "RS256" +:+ "," +:+ quoted "typ" +:+ ":" +:+ quoted "JWT" +:+ "}".

Definition jwt_payload (now app : Z) : string :=
  "{" +:+ quoted "iat" +:+ ":" +:+ Num.string_of_Z (now - 60) +:+ "," +:+ quoted "exp" +:+ ":" +:+ Num.string_of_Z (now + 600)
  +:+ "," +:+ quoted "iss" +:+ ":" +:+ Num.string_of_Z app +:+ "}".

Section Client.

Context `{GithubPlatform}.

Definition generateAppJWT : M string :=
  env <- githubAppEnv ;;
  match env with
  | None => throw (OtherError "GitHub App environment not configured")
  | Some env =>
      now <- date_now ;;
      let input := base64UrlEncode jwt_header +:+ "." +:+ base64UrlEncode (jwt_payload (now / 1000) (GITHUB_APP_ID env)) in
      ret (input +:+ "." +:+ rsa_sign (UNKEY_GITHUB_PRIVATE_KEY_PEM env) input)
  end.

Definition exchangeInstallationOAuthCode (code : string) : M string :=
  oauthEnv <- githubOAuthEnv ;;
  match oauthEnv with
  | None => throw (OtherError "GitHub OAuth environment not configured")
  | Some e =>
      r <- call (GitHub (GhExchangeCode (GITHUB_CLIENT_ID e) (GITHUB_CLIENT_SECRET e) code)) ;;
      match (r : GhReply string) with
      | GhStatus status body => throw (GitHubApiError status body)
      | GhData None => throw (OtherError "Failed to exchange GitHub OAuth code")
      | GhData (Some token) => ret token
      end
  end.

Definition getInstallationAccessToken (installationId : Z) : M string :=
  jwt <- generateAppJWT ;;
  r <- call (GitHub (GhAccessToken jwt installationId)) ;;
  match (r : GhReply string) with
  | GhStatus _ error => throw (OtherError ("Failed to get installation access token: " +:+ error))
  | GhData None => throw ZodError
  | GhData (Some token) => ret token
  end.

(** ** Pages *)

Definition perPage : Z := 100.
Definition OUT_OF_PAGES : Exn := OtherError "out of pages".

Definition short_page {A} (l : list A) : bool := Z.of_nat (List.length l) <? perPage.

Fixpoint user_pages (pages : nat) (userToken : string) (installationId page : Z) : M bool :=
  match pages with
  | O => throw OUT_OF_PAGES
  | S pages =>
      data <- fetchGitHubApi (GhUserInstallations userToken perPage page) ;;
      if List.existsb (Z.eqb installationId) data then ret true
      else if short_page data then ret false
      else user_pages pages userToken installationId (page + 1)
  end.

Definition userCanAccessInstallation (pages : nat) (userToken : string) (installationId : Z) : M bool :=
  user_pages pages userToken installationId 1.

Fixpoint repository_pages (pages : nat) (token : string) (page : Z) : M (list GitHubRepository) :=
  match pages with
  | O => throw OUT_OF_PAGES
  | S pages =>
      data <- fetchGitHubApi (GhInstallationRepositories token perPage page) ;;
      if short_page data then ret data
      else rest <- repository_pages pages token (page + 1) ;; ret (data ++ rest)
  end.

Definition getInstallationRepositories (pages : nat) (installationId : Z) : M (list GitHubRepository) :=
  token <- getInstallationAccessToken installationId ;;
  repository_pages pages token 1.

(** ** Repositories and branches *)

Definition getRepositoryTree (installationId : Z) (owner repo branch : string) : M (list (string * string) * bool) :=
  token <- getInstallationAccessToken installationId ;;
  data <- fetchGitHubApi (GhTree token owner repo branch) ;;
  ret (fst data, Js.coalesce (snd data) false).

Definition MAX_BRANCHES : nat := 20.

Record BranchActivity := { ba_name : string; ba_pushCount : Z; ba_commitCount : Z; ba_lastPushDate : string }.

(** At most three pages of events; an error or a response the schema refuses ends the
    loop with what was collected. *)
Fixpoint event_pages (pages : nat) (token owner repo : string) (page : Z) : M (list RepositoryEvent) :=
  match pages with
  | O => ret []
  | S pages =>
      data <- catch (data <- fetchGitHubApi (GhEvents token owner repo page) ;; ret (Some data)) (fun _ => ret None) ;;
      match data with
      | None => ret []
      | Some data =>
          if short_page data then ret data
          else rest <- event_pages pages token owner repo (page + 1) ;; ret (data ++ rest)
      end
  end.

(** [s.replace(t, EmptyString)]: the first occurrence. *)
Fixpoint cut_first (t s : string) : string :=
  if String.prefix t s then String.substring (String.length t) (String.length s) s
  else match s with EmptyString => EmptyString | String c r => String c (cut_first t r) end.

(** A push is counted for its branch; the branches stay in the order they appear in. *)
Fixpoint count_push (name : string) (commits : Z) (date : string) (l : list BranchActivity) : list BranchActivity :=
  match l with
  | [] => [{| ba_name := name; ba_pushCount := 1; ba_commitCount := commits; ba_lastPushDate := date |}]
  | b :: l =>
      if String.eqb (ba_name b) name then
        {| ba_name := name; ba_pushCount := ba_pushCount b + 1; ba_commitCount := ba_commitCount b + commits;
           ba_lastPushDate := if String.ltb (ba_lastPushDate b) date then date else ba_lastPushDate b |} :: l
      else b :: count_push name commits date l
  end.

Definition count_event (l : list BranchActivity) (e : RepositoryEvent) : list BranchActivity :=
  match event_ref e with
  | Some ref =>
      if String.eqb (event_type e) "PushEvent" && Js.truthy_string ref
      then count_push (cut_first "refs/heads/" ref) (Js.coalesce (event_size e) 0) (event_created_at e) l
      else l
  | None => l
  end.

(** The comparison of the sort: [a] is placed before [b]. *)
Definition more_active (a b : BranchActivity) : bool :=
  if ba_commitCount a =? ba_commitCount b then locale_before (ba_lastPushDate b) (ba_lastPushDate a)
  else ba_commitCount b <? ba_commitCount a.

(** A stable sort. *)
Fixpoint insert_sorted {A} (before : A -> A -> bool) (x : A) (l : list A) : list A :=
  match l with
  | [] => [x]
  | y :: l' => if before y x then y :: insert_sorted before x l' else if before x y then x :: l else y :: insert_sorted before x l'
  end.
Definition sort_by {A} (before : A -> A -> bool) (l : list A) : list A :=
  List.fold_left (fun acc x => insert_sorted before x acc) l [].

Definition activity (events : list RepositoryEvent) : list BranchActivity :=
  List.firstn MAX_BRANCHES (sort_by more_active (List.fold_left count_event events [])).

Definition getMostActiveBranches (installationId : Z) (owner repo : string) : M (list BranchActivity) :=
  token <- getInstallationAccessToken installationId ;;
  events <- event_pages 3 token owner repo 1 ;;
  ret (activity events).

Definition getRepositoryBranches (installationId : Z) (owner repo : string) (per_page : Z) : M (list string) :=
  token <- getInstallationAccessToken installationId ;;
  fetchGitHubApi (GhBranches token owner repo per_page).

(** [encodeURIComponent]: the code units below 256 in UTF-8. *)
Definition hex_digit (n : nat) : ascii := ascii_of_nat (if (n <? 10)%nat then n + 48 else n + 55).
Definition percent (n : nat) : string := String "%" (String (hex_digit (n / 16)) (String (hex_digit (n mod 16)) EmptyString)).
Definition unreserved (c : ascii) : bool :=
  let n := nat_of_ascii c in
  ((48 <=? n) && (n <=? 57) || (65 <=? n) && (n <=? 90) || (97 <=? n) && (n <=? 122))%nat || Str.has_char c "-_.!~*'()".
Fixpoint encodeURIComponent (s : string) : string :=
  match s with
  | EmptyString => EmptyString
  | String c r =>
      let n := nat_of_ascii c in
      (if unreserved c then String c EmptyString
       else if (n <? 128)%nat then percent n else percent (192 + n / 64)%nat +:+ percent (128 + n mod 64)%nat)
      +:+ encodeURIComponent r
  end.

Definition searchBranchesByPrefix (installationId : Z) (owner repo prefix : string) (limit : nat) : M (list string) :=
  token <- getInstallationAccessToken installationId ;;
  data <- fetchGitHubApi (GhMatchingRefs token owner repo (Str.join "/" (List.map encodeURIComponent (Str.split_on "/" prefix)))) ;;
  ret (List.map (cut_first "refs/heads/") (List.firstn limit data)).

Definition getRepository (installationId : Z) (owner repo : string) : M GitHubRepository :=
  token <- getInstallationAccessToken installationId ;;
  fetchGitHubApi (GhRepo token owner repo).

Definition getRepositoryById (installationId repositoryId : Z) : M (option GitHubRepository) :=
  token <- getInstallationAccessToken installationId ;;
  r <- call (GitHub (GhRepoById token repositoryId)) ;;
  match (r : GhReply GitHubRepository) with
  | GhStatus status error => if status =? 404 then ret None else throw (OtherError ("Failed to get repository: " +:+ error))
  | GhData None => throw ZodError
  | GhData (Some repo) => ret (Some repo)
  end.

Definition getPullRequest (installationId : Z) (repoFullName : string) (prNumber : Z) : M PullRequest :=
  token <- getInstallationAccessToken installationId ;;
  fetchGitHubApi (GhPull token repoFullName prNumber).

Definition listPullRequestsForCommit (installationId : Z) (repoFullName commitSha : string) : M (list PullRequest) :=
  token <- getInstallationAccessToken installationId ;;
  fetchGitHubApi (GhCommitPulls token repoFullName commitSha).

End Client.

(** ** The ownership check *)

Lemma fetch_ret c env w a w' :
  fetchGitHubApi c env w = (Ret a, w') -> ask env (trace w) (GitHub c) = inr (GhData (Some a)) /\ w' = log_call (GitHub c) w.
Proof.
  unfold fetchGitHubApi, bind, call. destruct (ask env (trace w) (GitHub c)) as [e|[[d|]|s t]]; [done| |done|done].
  cbn. by intros [= -> <-].
Qed.

(** GitHub listed the installation on a page for the token. *)
Definition listed (env : Env) (userToken : string) (installationId : Z) : Prop :=
  exists tr page data, ask env tr (GitHub (GhUserInstallations userToken perPage page)) = inr (GhData (Some data)) /\ In installationId data.

Lemma user_pages_true pages env userToken installationId page w w' :
  user_pages pages userToken installationId page env w = (Ret true, w') -> listed env userToken installationId.
Proof.
  revert page w. induction pages as [|pages IH]; intros page w; cbn [user_pages]; [done|]. intros H.
  apply bind_ret in H as (data & w1 & H1 & H). apply fetch_ret in H1 as [Ha _].
  destruct (existsb (Z.eqb installationId) data) eqn:E.
  - apply existsb_exists in E as (x & Hx & ->%Z.eqb_eq). by exists (trace w), page, data.
  - destruct (short_page data); [discriminate|]. by eapply IH.
Qed.

(** The answers of GitHub to the pages from [page] on, each asked after the one before:
    the pages up to the last that is needed, which lists the installation or is short. *)
Inductive answered (env : Env) (token : string) (id : Z) : Z -> list Call -> list (list Z) -> Prop :=
| answered_last page tr data :
    ask env tr (GitHub (GhUserInstallations token perPage page)) = inr (GhData (Some data)) ->
    In id data \/ short_page data = true -> answered env token id page tr [data]
| answered_more page tr data rest :
    ask env tr (GitHub (GhUserInstallations token perPage page)) = inr (GhData (Some data)) ->
    ~ In id data -> short_page data = false ->
    answered env token id (page + 1) (tr ++ [GitHub (GhUserInstallations token perPage page)]) rest ->
    answered env token id page tr (data :: rest).

Lemma user_pages_answered env token id page w datas pages :
  answered env token id page (trace w) datas -> (List.length datas <= pages)%nat ->
  exists w', user_pages pages token id page env w = (Ret (List.existsb (fun d => List.existsb (Z.eqb id) d) datas), w') /\ db w' = db w.
Proof.
  remember (trace w) as tr eqn:Et. intros H. revert w pages Et.
  assert (Hin : forall d, In id d <-> List.existsb (Z.eqb id) d = true).
  { intros d. rewrite existsb_exists. split; [intros Hd; exists id; by rewrite Z.eqb_refl|by intros (x & Hx & ->%Z.eqb_eq)]. }
  induction H as [page tr data Ha Hd|page tr data rest Ha Hn Hs _ IH]; intros w pages -> Hl; (destruct pages as [|pages]; [cbn in Hl; lia|]);
    cbn [user_pages]; unfold bind at 1, fetchGitHubApi at 1, bind at 1, call; rewrite Ha; cbn.
  - destruct Hd as [Hd| ->].
    + apply Hin in Hd. rewrite Hd. by eexists.
    + rewrite orb_false_r. destruct (existsb _ data); by eexists.
  - rewrite Hs. destruct (existsb (Z.eqb id) data) eqn:E; [by apply Hin in E|].
    destruct (IH (log_call (GitHub (GhUserInstallations token perPage page)) w) pages eq_refl) as (w' & Ew & Edb).
    { cbn in Hl. lia. }
    exists w'. split; [exact Ew|exact Edb].
Qed.
