(* ===== verification/LinkSubscription.v ===== *)
(** * Linking a paid checkout to its workspace

    lib/stripe/linkDeploySubscription.ts and lib/stripe/linkApiSubscription.ts,
    shared by the checkout webhook and by the success page. *)

From Stdlib Require Import ZArith Bool String Lia.
From stdpp Require Import base list gmap strings.
From S2P Require Import Prelude StripeTypes DeployPlan Effects Fixtures DeployBilling SubscriptionUtils BillingOps.

Local Open Scope Z_scope.

Record LinkAudit := { audit_actor : Actor; audit_location : string; audit_userAgent : option string }.

Record LinkInput := { in_sessionId : string; in_expectedWorkspaceId : string; in_audit : LinkAudit }.

Inductive LinkFailure :=
| session_not_found | workspace_not_found | forbidden | not_paid | not_active | no_deploy_plan
| no_api_plan | invalid_api_product | subscription_conflict.

#[export] Instance LinkFailure_eq_dec : EqDecision LinkFailure.
Proof. solve_decision. Defined.

(** [LinkDeployResult] and [LinkApiResult]: what was linked is the plan or the
    product name. *)
Inductive LinkResult (A : Type) :=
| Linked (what : A) (alreadyLinked : bool)
| LinkFailed (reason : LinkFailure) (message : string).
Arguments Linked {A} what alreadyLinked.
Arguments LinkFailed {A} reason message.

(** ** Steps shared by the two linkers *)

(** [try { retrieve } catch { resource_missing -> null }]. *)
Definition retrieve_or_null {A} (m : M A) : M (option A) :=
  catch (a <- m ;; ret (Some a)) (fun err => if resource_missing err then ret None else throw err).

(** The guard on status and cancellation. *)
Definition is_live (sub : Subscription) : bool :=
  negb ((negb (String.eqb (status sub) "active") && negb (String.eqb (status sub) "trialing")) || is_cancelling sub).

Definition audit_log (workspaceId : string) (audit : LinkAudit) (description : string) : UnkeyAuditLog :=
  {| log_workspaceId := workspaceId; log_event := "workspace.update"; log_description := description;
     log_actor := audit_actor audit; log_resources := []; log_location := audit_location audit;
     log_userAgent := audit_userAgent audit; log_correlationId := None |}.

(** A different recorded subscription that Stripe still has and that is not dead. *)
Definition recorded_conflict (recorded : option string) (subscriptionId : string) : M bool :=
  match recorded with
  | Some id =>
      if String.eqb id subscriptionId then ret false
      else if Js.truthy_string id then
        r <- retrieve_or_null (call (SubscriptionsRetrieve id)) ;;
        ret (match r with Some r => negb (isDeadSubscription r) | None => false end)
      else ret false
  | None => ret false
  end.

(** ** Compute *)

(** The four writes, in one transaction. *)
Definition link_deploy_tx (workspaceId customerId subscriptionId : string) (p : DeployPlan) (preserveApiLimits : bool)
    (audit : LinkAudit) : M unit :=
  transaction (
    exec (UpdateBilling workspaceId {| set_tier := None; set_stripeCustomerId := Some (Some customerId);
                                       set_plan := Some (Some (plan_name p)); set_budget := None |}) ;;
    setWorkspaceLimits workspaceId (Some p) preserveApiLimits no_update ;;
    upsertBillingSubscription workspaceId compute subscriptionId ;;
    insertAuditLogs [audit_log workspaceId audit ("Subscribed to Compute " +:+ plan_name p +:+ " plan via checkout.")]).

(** The card becomes the customer's default when the customer has none. *)
Definition mirror_payment_method (customerId : string) (sub : Subscription) : M unit :=
  match option_map ref_id (default_payment_method sub) with
  | Some paymentMethod =>
      if Js.truthy_string paymentMethod then
        catch (
          customer <- call (CustomersRetrieve customerId) ;;
          if negb (customer_deleted customer) && negb (Js.truthy (invoice_default_payment_method customer))
             && negb (Js.truthy (default_source customer))
          then call (CustomersSetDefaultPaymentMethod customerId paymentMethod) ;; ret tt
          else ret tt)
          (fun _ => ret tt)
      else ret tt
  | None => ret tt
  end.

Definition linkDeploySubscription (input : LinkInput) : M (LinkResult DeployPlan) :=
  found <- retrieve_or_null (call (SessionsRetrieve (in_sessionId input))) ;;
  match found with
  | None => ret (LinkFailed session_not_found "Checkout session not found.")
  | Some session =>
      if negb (Js.eq_ostring (client_reference_id session) (in_expectedWorkspaceId input)) then
        ret (LinkFailed forbidden "Checkout session does not belong to this workspace.")
      else if negb (Js.eq_ostring (session_status session) "complete")
              || negb (String.eqb (payment_status session) "paid") then
        ret (LinkFailed not_paid "Checkout session is not paid.")
      else
        match option_map ref_id (session_customer session), option_map ref_id (session_subscription session) with
        | Some customerId, Some subscriptionId =>
            if negb (Js.truthy_string customerId) || negb (Js.truthy_string subscriptionId) then
              ret (LinkFailed not_paid "Checkout session has no subscription or customer.")
            else
              sub <- call (SubscriptionsRetrieve subscriptionId) ;;
              if negb (is_live sub) then ret (LinkFailed not_active "Subscription is not active.")
              else
                match detectDeployPlan sub with
                | None => ret (LinkFailed no_deploy_plan "Subscription does not carry a Compute plan.")
                | Some p =>
                    ws <- query (find_workspace (in_expectedWorkspaceId input)) ;;
                    match ws with
                    | None => ret (LinkFailed workspace_not_found "Workspace not found.")
                    | Some (ws, billing, subs) =>
                        let preserveApiLimits := paid_tier (match billing with Some b => tier b | None => None end) in
                        let recorded := snd (subscriptionIdsByProduct subs) in
                        if Js.eq_ostring recorded subscriptionId
                           && Js.eq_ostring (match billing with Some b => plan b | None => None end) (plan_name p) then
                          setWorkspaceLimits (ws_id ws) (Some p) preserveApiLimits no_update ;;
                          ret (Linked p true)
                        else
                          conflict <- recorded_conflict recorded subscriptionId ;;
                          if conflict : bool then
                            ret (LinkFailed subscription_conflict "Workspace already has a different subscription.")
                          else
                            link_deploy_tx (ws_id ws) customerId subscriptionId p preserveApiLimits (in_audit input) ;;
                            mirror_payment_method customerId sub ;;
                            ret (Linked p false)
                    end
                end
        | _, _ => ret (LinkFailed not_paid "Checkout session has no subscription or customer.")
        end
  end.

(** ** API *)

(** The limits an API product grants. *)
Definition api_limits (quotas : Quotas) : LimitUpdate :=
  {| u_apiBillableOperationsCountMaxPerMonth := Some (requestsPerMonth quotas);
     u_apiRequestsCountMaxPerMinute := None;
     u_logsRetentionDaysMax := Some (logsRetentionDays quotas);
     u_logsAuditRetentionDaysMax := Some (auditLogsRetentionDays quotas);
     u_teamEnabled := Some true;
     u_cpuCoresMax := None; u_cpuCoresMaxPerInstance := None; u_memoryMibMax := None;
     u_memoryMibMaxPerInstance := None; u_storageMibMax := None; u_storageMibMaxPerInstance := None;
     u_buildsConcurrentMax := None; u_customDomainsMax := None; u_autoscalingReplicasMax := None |}.

Definition link_api_tx (workspaceId customerId subscriptionId productName : string) (p : option DeployPlan)
    (quotas : Quotas) (audit : LinkAudit) : M unit :=
  transaction (
    exec (UpdateBilling workspaceId {| set_tier := Some (Some productName);
                                       set_stripeCustomerId := Some (Some customerId); set_plan := None; set_budget := None |}) ;;
    upsertBillingSubscription workspaceId api subscriptionId ;;
    setWorkspaceLimits workspaceId p true (api_limits quotas) ;;
    insertAuditLogs [audit_log workspaceId audit ("Subscribed to " +:+ productName +:+ " plan via checkout.")]).

(** [apiItem?.price.product] as a product id. *)
Definition api_product_id (item : option SubscriptionItem) : option string :=
  match item with
  | Some item =>
      match item_price item with
      | Some price =>
          match price_product price with
          | Some (RId id) => Some id
          | Some (RObj product) => if product_deleted product then None else Some (product_id product)
          | None => None
          end
      | None => None
      end
  | None => None
  end.

Definition replace_payment_method (customerId : string) (sub : Subscription) : M unit :=
  match option_map ref_id (default_payment_method sub) with
  | Some paymentMethod =>
      if Js.truthy_string paymentMethod
      then catch (call (CustomersSetDefaultPaymentMethod customerId paymentMethod) ;; ret tt) (fun _ => ret tt)
      else ret tt
  | None => ret tt
  end.

(** From the live subscription on: the product must be one of the configured API
    products and carry valid quota metadata. *)
Definition link_api_product (input : LinkInput) (customerId subscriptionId : string) (sub : Subscription) :
    M (LinkResult string) :=
  config <- deployBillingConfig ;;
  match items sub with
  | None => throw (OtherError "TypeError: sub.items is undefined")
  | Some l =>
      let productId := api_product_id (findApiItem config l) in
      match productId with
      | None => ret (LinkFailed no_api_plan "Subscription has no API plan.")
      | Some productId =>
          if negb (Js.truthy_string productId) then ret (LinkFailed no_api_plan "Subscription has no API plan.")
          else
            e <- stripeEnv ;;
            let allowed := match e with
                           | Some e => Js.includes (STRIPE_PRODUCT_IDS_PRO e ++ STRIPE_PRODUCT_IDS_ENTERPRISE e) productId
                           | None => false
                           end in
            if negb allowed then ret (LinkFailed invalid_api_product "Subscription has an unsupported API plan.")
            else
              product <- call (ProductsRetrieve productId) ;;
              match validateAndParseQuotas product with
              | None => ret (LinkFailed invalid_api_product "API plan is missing required quota configuration.")
              | Some quotas =>
                  ws <- query (find_workspace (in_expectedWorkspaceId input)) ;;
                  match ws with
                  | None => ret (LinkFailed workspace_not_found "Workspace not found.")
                  | Some (ws, billing, subs) =>
                      let recorded := fst (subscriptionIdsByProduct subs) in
                      if Js.eq_ostring recorded subscriptionId
                         && Js.eq_ostring (match billing with Some b => tier b | None => None end) (product_name product)
                      then ret (Linked (product_name product) true)
                      else
                        conflict <- recorded_conflict recorded subscriptionId ;;
                        if conflict : bool then
                          ret (LinkFailed subscription_conflict "Workspace already has a different API subscription.")
                        else
                          let p := Js.ocoalesce
                                     (parseDeployPlan (match billing with Some b => planOverride b | None => None end))
                                     (parseDeployPlan (match billing with Some b => plan b | None => None end)) in
                          link_api_tx (ws_id ws) customerId subscriptionId (product_name product) p quotas (in_audit input) ;;
                          replace_payment_method customerId sub ;;
                          ret (Linked (product_name product) false)
                  end
              end
      end
  end.

Definition linkApiSubscription (input : LinkInput) : M (LinkResult string) :=
  found <- retrieve_or_null (call (SessionsRetrieve (in_sessionId input))) ;;
  match found with
  | None => ret (LinkFailed session_not_found "Checkout session not found.")
  | Some session =>
      if negb (Js.eq_ostring (client_reference_id session) (in_expectedWorkspaceId input)) then
        ret (LinkFailed forbidden "Checkout session does not belong to this workspace.")
      else if negb (Js.eq_ostring (meta (session_metadata session) "unkey_product") "api") then
        ret (LinkFailed no_api_plan "Checkout session is not for API.")
      else if negb (Js.eq_ostring (session_status session) "complete")
              || negb (String.eqb (payment_status session) "paid") then
        ret (LinkFailed not_paid "Checkout session is not paid.")
      else
        match option_map ref_id (session_customer session), option_map ref_id (session_subscription session) with
        | Some customerId, Some subscriptionId =>
            if negb (Js.truthy_string customerId) || negb (Js.truthy_string subscriptionId) then
              ret (LinkFailed not_paid "Checkout session has no subscription or customer.")
            else
              sub <- call (SubscriptionsRetrieve subscriptionId) ;;
              if negb (is_live sub) then ret (LinkFailed not_active "Subscription is not active.")
              else link_api_product input customerId subscriptionId sub
        | _, _ => ret (LinkFailed not_paid "Checkout session has no subscription or customer.")
        end
  end.

(** ** Classes *)

Section LinkClasses.

Lemma ReadOnly_retrieve_or_null {A} (m : M A) : ReadOnly m -> ReadOnly (retrieve_or_null m).
Proof. intros Hm. unfold retrieve_or_null. effects. Qed.

Lemma ReadOnly_recorded_conflict r s : ReadOnly (recorded_conflict r s).
Proof. unfold recorded_conflict. effects. apply ReadOnly_retrieve_or_null. effects. Qed.

Lemma ReadOnly_mirror c s : ReadOnly (mirror_payment_method c s).
Proof. unfold mirror_payment_method. effects. Qed.

Lemma NoThrow_mirror c s : NoThrow (mirror_payment_method c s).
Proof. unfold mirror_payment_method. effects. Qed.

Lemma ReadOnly_replace c s : ReadOnly (replace_payment_method c s).
Proof. unfold replace_payment_method. effects. Qed.

Lemma NoThrow_replace c s : NoThrow (replace_payment_method c s).
Proof. unfold replace_payment_method. effects. Qed.

Lemma Atomic_link_deploy_tx a b c d e f : Atomic (link_deploy_tx a b c d e f).
Proof. apply Atomic_transaction. Qed.

Lemma Atomic_link_api_tx a b c d e f g : Atomic (link_api_tx a b c d e f g).
Proof. apply Atomic_transaction. Qed.

End LinkClasses.

#[export] Hint Resolve ReadOnly_retrieve_or_null ReadOnly_recorded_conflict ReadOnly_mirror NoThrow_mirror ReadOnly_replace
  NoThrow_replace Atomic_link_deploy_tx Atomic_link_api_tx : effects.

Section LinkAtomic.

Context (input : LinkInput).

Lemma Atomic_linkDeploySubscription : Atomic (linkDeploySubscription input).
Proof. unfold linkDeploySubscription. atomics. Qed.

Lemma Atomic_link_api_product c s sub : Atomic (link_api_product input c s sub).
Proof. unfold link_api_product. atomics. Qed.

Hint Resolve Atomic_link_api_product : effects.

Lemma Atomic_linkApiSubscription : Atomic (linkApiSubscription input).
Proof. unfold linkApiSubscription. atomics. Qed.

End LinkAtomic.

(** ** Specification *)

(** Stripe vouches for the checkout: the session belongs to the workspace and was
    paid, and its subscription is live. *)
Record PaidCheckout (env : Env) (input : LinkInput) (session : Session) (sub : Subscription)
    (customerId subscriptionId : string) : Prop := {
  pc_session : exists tr, ask env tr (SessionsRetrieve (in_sessionId input)) = inr session;
  pc_owner : client_reference_id session = Some (in_expectedWorkspaceId input);
  pc_complete : session_status session = Some "complete"%string;
  pc_paid : payment_status session = "paid"%string;
  pc_customer : option_map ref_id (session_customer session) = Some customerId;
  pc_subscription : option_map ref_id (session_subscription session) = Some subscriptionId;
  pc_ids : customerId <> EmptyString /\ subscriptionId <> EmptyString;
  pc_sub : exists tr, ask env tr (SubscriptionsRetrieve subscriptionId) = inr sub;
  pc_status : status sub = "active"%string \/ status sub = "trialing"%string;
  pc_not_cancelling : is_cancelling sub = false;
}.

(** Stripe said that another recorded subscription is gone or dead. *)
Definition superseded (env : Env) (recorded : option string) (subscriptionId : string) : Prop :=
  forall id, recorded = Some id -> id <> subscriptionId -> id <> EmptyString ->
  exists tr, (exists e, ask env tr (SubscriptionsRetrieve id) = inl e /\ resource_missing e = true)
             \/ exists r, ask env tr (SubscriptionsRetrieve id) = inr r /\ isDeadSubscription r = true.

(** The rows written when a Compute checkout is linked, with one audit log. *)
Definition deploy_linked (workspaceId customerId subscriptionId : string) (p : DeployPlan) (preserveApiLimits : bool)
    (audit : LinkAudit) (d d' : Db) : Prop :=
  exists row,
    outbox_workspaceId row = workspaceId /\
    envelope_description (outbox_payload row) = "Subscribed to Compute " +:+ plan_name p +:+ " plan via checkout." /\
    d' = apply_stmt (InsertOutbox [row])
           (apply_stmt (UpsertSubscription {| bs_workspaceId := workspaceId; bs_product := compute;
                                              stripeSubscriptionId := subscriptionId |})
             (apply_stmt (UpsertLimits workspaceId (limitValues (Some p) preserveApiLimits no_update)
                            (limitColumns (Some p) preserveApiLimits no_update))
               (apply_stmt (UpdateBilling workspaceId
                  {| set_tier := None; set_stripeCustomerId := Some (Some customerId);
                     set_plan := Some (Some (plan_name p)); set_budget := None |}) d))).

Section LinkFacts.

Lemma retrieve_or_null_ret {A} (m : M A) env w r w' :
  retrieve_or_null m env w = (Ret r, w') ->
  match r with
  | Some a => m env w = (Ret a, w')
  | None => exists e w1, m env w = (Throw e, w1) /\ resource_missing e = true /\ w' = w1
  end.
Proof.
  unfold retrieve_or_null, catch, bind. destruct (m env w) as [[a|e] w1]; [by intros [= <- <-]|].
  destruct (resource_missing e) eqn:E; [|done]. intros [= <- <-]. eauto.
Qed.

Lemma recorded_conflict_ret recorded sid env w w' :
  recorded_conflict recorded sid env w = (Ret false, w') -> superseded env recorded sid.
Proof.
  unfold recorded_conflict. intros H id -> Hne Hid. apply String.eqb_neq in Hne as Hb. rewrite Hb in H.
  replace (Js.truthy_string id) with true in H by (symmetry; apply negb_true_iff; by apply String.eqb_neq).
  apply bind_ret in H as (r & w1 & Hr & H). apply ret_ret in H as [H _].
  apply retrieve_or_null_ret in Hr. destruct r as [r|].
  - apply call_ret in Hr as [Hr _]. exists (trace w). right. exists r. split; [done|].
    symmetry in H. by apply negb_false_iff in H.
  - destruct Hr as (e & w2 & Hc & Hm & _). unfold call in Hc. exists (trace w). left.
    destruct (ask env (trace w) (SubscriptionsRetrieve id)) as [e'|]; [|done]. injection Hc as -> _. eauto.
Qed.

Lemma insert_one_ret log env w w' :
  insertAuditLogs [log] env w = (Ret tt, w') ->
  exists row, db w' = apply_stmt (InsertOutbox [row]) (db w) /\ outbox_workspaceId row = log_workspaceId log
              /\ envelope_description (outbox_payload row) = log_description log.
Proof.
  intros H. apply insert_log_ret in H as (row & H & Hw & _ & Hd & _). by exists row.
Qed.

Lemma link_deploy_tx_ret ws c s p b audit env w w' :
  link_deploy_tx ws c s p b audit env w = (Ret tt, w') -> deploy_linked ws c s p b audit (db w) (db w').
Proof.
  intros H. apply transaction_ret in H as (w1 & w2 & Hw1 & H & ->). run_in H.
  apply exec_ret in Hr. unfold setWorkspaceLimits in Hr0. apply exec_ret in Hr0.
  unfold upsertBillingSubscription in Hr1. apply exec_ret in Hr1.
  apply insert_one_ret in H as (row & -> & Hws & Hd). exists row. split; [done|]. split; [done|].
  by rewrite Hr1, Hr0, Hr, Hw1.
Qed.

Lemma is_live_true sub : is_live sub = true ->
  (status sub = "active"%string \/ status sub = "trialing"%string) /\ is_cancelling sub = false.
Proof.
  unfold is_live. intros H. apply negb_true_iff, orb_false_iff in H as [H Hc]. split; [|done].
  destruct (String.eqb_spec (status sub) "active"); [by left|].
  destruct (String.eqb_spec (status sub) "trialing"); [by right|done].
Qed.

Lemma ids_truthy a b :
  negb (Js.truthy_string a) || negb (Js.truthy_string b) = false -> a <> EmptyString /\ b <> EmptyString.
Proof. by destruct a, b. Qed.

Lemma eq_ostring_true o s : Js.eq_ostring o s = true <-> o = Some s.
Proof.
  destruct o as [t|]; simpl; [|done]. rewrite String.eqb_eq. split; [by intros ->|by intros [=]].
Qed.

End LinkFacts.

(** The outcome of linking a Compute checkout. *)
Definition deploy_link_outcome (env : Env) (input : LinkInput) (d d' : Db) (p : DeployPlan) (alreadyLinked : bool) : Prop :=
  exists session sub customerId subscriptionId ws billing subs,
        PaidCheckout env input session sub customerId subscriptionId
        /\ detectDeployPlan sub = Some p
        /\ find_workspace (in_expectedWorkspaceId input) d = Some (ws, billing, subs)
        /\ (let preserve := paid_tier (billing ≫= tier) in
            let recorded := snd (subscriptionIdsByProduct subs) in
            if alreadyLinked then
              recorded = Some subscriptionId /\ billing ≫= plan = Some (plan_name p)
              /\ d' = apply_stmt (UpsertLimits (ws_id ws) (limitValues (Some p) preserve no_update)
                                       (limitColumns (Some p) preserve no_update)) d
            else
              superseded env recorded subscriptionId
              /\ deploy_linked (ws_id ws) customerId subscriptionId p preserve (in_audit input) d d').

Lemma linkDeploySubscription_ret (input : LinkInput) (env : Env) (w w' : World) (r : LinkResult DeployPlan) :
  linkDeploySubscription input env w = (Ret r, w') ->
  match r with
  | LinkFailed _ _ => db w' = db w
  | Linked p alreadyLinked => deploy_link_outcome env input (db w) (db w') p alreadyLinked
  end.
Proof.
  unfold linkDeploySubscription. intros H. apply bind_ret in H as (found & w1 & Hf & H).
  assert (E1 : db w1 = db w) by (eapply read_ret; [|exact Hf]; effects).
  destruct found as [session|]; [|by apply ret_ret in H as [-> ->]].
  apply retrieve_or_null_ret in Hf. apply call_ret in Hf as [Hs _].
  destruct (Js.eq_ostring (client_reference_id session) _) eqn:Eo; simpl in H; [|by apply ret_ret in H as [-> ->]].
  destruct (Js.eq_ostring (session_status session) "complete") eqn:Ec; simpl in H; [|by apply ret_ret in H as [-> ->]].
  destruct (String.eqb (payment_status session) "paid") eqn:Ep; simpl in H; [|by apply ret_ret in H as [-> ->]].
  destruct (option_map ref_id (session_customer session)) as [cid|] eqn:Ecid; [|by apply ret_ret in H as [-> ->]].
  destruct (option_map ref_id (session_subscription session)) as [sid|] eqn:Esid; [|by apply ret_ret in H as [-> ->]].
  destruct (negb _ || negb _) eqn:Et; [by apply ret_ret in H as [-> ->]|]. apply ids_truthy in Et.
  apply bind_ret in H as (sub & w2 & Hsub & H). call_in Hsub E2.
  destruct (is_live sub) eqn:Elive; simpl in H; [|apply ret_ret in H as [-> ->]; congruence].
  destruct (detectDeployPlan sub) as [p|] eqn:Eplan; [|apply ret_ret in H as [-> ->]; congruence].
  apply bind_ret in H as (found & w3 & Hq & H). apply query_ret in Hq as [-> E3].
  rewrite E2, E1 in H. rewrite E2, E1 in E3.
  destruct (find_workspace (in_expectedWorkspaceId input) (db w)) as [[[ws billing] subs]|] eqn:Ews;
    [|apply ret_ret in H as [-> ->]; congruence].
  replace (match billing with Some b => tier b | None => None end) with (billing ≫= tier) in H by (by destruct billing).
  replace (match billing with Some b => plan b | None => None end) with (billing ≫= plan) in H by (by destruct billing).
  assert (Hpaid : PaidCheckout env input session sub cid sid).
  { destruct (is_live_true sub Elive). apply eq_ostring_true in Eo, Ec. apply String.eqb_eq in Ep. by split; eauto. }
  destruct (_ && _) eqn:Ea.
  - apply andb_true_iff in Ea as [Er%eq_ostring_true Epl%eq_ostring_true].
    apply bind_ret in H as (u & w4 & Hl & H). apply ret_ret in H as [-> ->]. apply exec_ret in Hl. rewrite E3 in Hl.
    by exists session, sub, cid, sid, ws, billing, subs.
  - apply bind_ret in H as (conflict & w4 & Hc & H).
    assert (E4 : db w4 = db w) by (rewrite <- E3; eapply read_ret; [|exact Hc]; apply ReadOnly_recorded_conflict).
    destruct conflict; [by apply ret_ret in H as [-> ->]|].
    apply bind_ret in H as ([] & w5 & Hl & H). apply link_deploy_tx_ret in Hl. rewrite E4 in Hl.
    apply bind_ret in H as ([] & w6 & Hm & H). apply ret_ret in H as [-> ->].
    assert (E6 : db w6 = db w5) by (eapply read_ret; [|exact Hm]; apply ReadOnly_mirror). rewrite E6.
    exists session, sub, cid, sid, ws, billing, subs. split; [done|]. split; [done|]. split; [done|].
    split; [by eapply recorded_conflict_ret|done].
Qed.

(** Claim C9. Linking a Compute checkout is sound: a rejected link leaves the
    database as it was. A successful one is for a session of this very workspace
    that Stripe reports complete and paid, whose subscription is active or
    trialing, not cancelling and carries the recorded plan. A repeated link only
    rewrites the limits row; a new one writes the plan, the customer, the limits,
    the subscription row and one audit log, and only when no other subscription
    is recorded or Stripe said that the recorded one is gone or dead. *)
Theorem linkDeploySubscription_sound (input : LinkInput) (env : Env) (w w' : World) (r : LinkResult DeployPlan) :
  linkDeploySubscription input env w = (Ret r, w') ->
  match r with
  | LinkFailed _ _ => db w' = db w
  | Linked p alreadyLinked =>
      deploy_link_outcome env input (db w) (db w') p alreadyLinked
  end.
Proof. apply linkDeploySubscription_ret. Qed.

(** The rows written when an API checkout is linked, with one audit log. *)
Definition api_linked (workspaceId customerId subscriptionId productName : string) (p : option DeployPlan)
    (quotas : Quotas) (d d' : Db) : Prop :=
  exists row,
    outbox_workspaceId row = workspaceId /\
    envelope_description (outbox_payload row) = "Subscribed to " +:+ productName +:+ " plan via checkout." /\
    d' = apply_stmt (InsertOutbox [row])
           (apply_stmt (UpsertLimits workspaceId (limitValues p true (api_limits quotas))
                          (limitColumns p true (api_limits quotas)))
             (apply_stmt (UpsertSubscription {| bs_workspaceId := workspaceId; bs_product := api;
                                                stripeSubscriptionId := subscriptionId |})
               (apply_stmt (UpdateBilling workspaceId
                  {| set_tier := Some (Some productName); set_stripeCustomerId := Some (Some customerId);
                     set_plan := None; set_budget := None |}) d))).

(** What Stripe and the configuration say about the product of the API item. *)
Definition api_product_ok (env : Env) (sub : Subscription) (product : Product) (quotas : Quotas) : Prop :=
  (exists config l, items sub = Some l /\
     exists productId, api_product_id (findApiItem config l) = Some productId
     /\ (exists e, stripe_env env = Some e /\ In productId (STRIPE_PRODUCT_IDS_PRO e ++ STRIPE_PRODUCT_IDS_ENTERPRISE e))
     /\ exists tr, ask env tr (ProductsRetrieve productId) = inr product)
  /\ validateAndParseQuotas product = Some quotas.

(** The outcome of linking a live API subscription. *)
Definition api_link_outcome (env : Env) (input : LinkInput) (cid sid : string) (sub : Subscription) (d d' : Db)
    (name : string) (alreadyLinked : bool) : Prop :=
  exists product quotas ws billing subs,
    name = product_name product /\ api_product_ok env sub product quotas
    /\ find_workspace (in_expectedWorkspaceId input) d = Some (ws, billing, subs)
    /\ (let recorded := fst (subscriptionIdsByProduct subs) in
        if alreadyLinked then recorded = Some sid /\ billing ≫= tier = Some name /\ d' = d
        else superseded env recorded sid
             /\ api_linked (ws_id ws) cid sid name
                  (Js.ocoalesce (parseDeployPlan (billing ≫= planOverride)) (parseDeployPlan (billing ≫= plan)))
                  quotas d d').

Section ApiFacts.

Lemma link_api_tx_ret ws c s n p q audit env w w' :
  link_api_tx ws c s n p q audit env w = (Ret tt, w') -> api_linked ws c s n p q (db w) (db w').
Proof.
  intros H. apply transaction_ret in H as (w1 & w2 & Hw1 & H & ->). run_in H.
  apply exec_ret in Hr. unfold upsertBillingSubscription in Hr0. apply exec_ret in Hr0.
  unfold setWorkspaceLimits in Hr1. apply exec_ret in Hr1.
  apply insert_one_ret in H as (row & -> & Hws & Hd). exists row. split; [done|]. split; [done|].
  by rewrite Hr1, Hr0, Hr, Hw1.
Qed.

Lemma link_api_product_ret input cid sid sub env w r w' :
  link_api_product input cid sid sub env w = (Ret r, w') ->
  match r with
  | LinkFailed _ _ => db w' = db w
  | Linked name already => api_link_outcome env input cid sid sub (db w) (db w') name already
  end.
Proof.
  unfold link_api_product. intros H. apply bind_ret in H as (config & w1 & Hc & H).
  apply read_ret in Hc as E1; [|effects].
  destruct (items sub) as [l|] eqn:El; [|done].
  destruct (api_product_id (findApiItem config l)) as [pid|] eqn:Epid; [|apply ret_ret in H as [-> ->]; congruence].
  destruct (negb (Js.truthy_string pid)); [apply ret_ret in H as [-> ->]; congruence|].
  apply bind_ret in H as (e & w2 & He & H). apply stripeEnv_ret in He as [-> ->].
  destruct (negb _) eqn:Eallowed; [apply ret_ret in H as [-> ->]; congruence|]. apply negb_false_iff in Eallowed.
  apply bind_ret in H as (product & w3 & Hp & H). call_in Hp E3.
  destruct (validateAndParseQuotas product) as [quotas|] eqn:Eq; [|apply ret_ret in H as [-> ->]; congruence].
  apply bind_ret in H as (found & w4 & Hq & H). apply query_ret in Hq as [-> E4]. rewrite E3, E1 in H, E4.
  destruct (find_workspace _ (db w)) as [[[ws billing] subs]|] eqn:Ews; [|apply ret_ret in H as [-> ->]; congruence].
  assert (Hok : api_product_ok env sub product quotas).
  { split; [|done]. exists config, l. split; [done|]. exists pid. split; [done|].
    destruct (stripe_env env) as [e|]; [|done]. apply StrFacts.includes_In in Eallowed. split; eauto. }
  replace (match billing with Some b => tier b | None => None end) with (billing ≫= tier) in H by (by destruct billing).
  destruct (_ && _) eqn:Ea.
  - apply andb_true_iff in Ea as [Er%eq_ostring_true Et%eq_ostring_true]. apply ret_ret in H as [-> ->].
    by exists product, quotas, ws, billing, subs.
  - apply bind_ret in H as (conflict & w5 & Hcf & H).
    apply read_ret in Hcf as E5; [|apply ReadOnly_recorded_conflict].
    destruct conflict; [apply ret_ret in H as [-> ->]; congruence|].
    apply bind_ret in H as ([] & w6 & Hl & H). apply link_api_tx_ret in Hl. rewrite E5, E4 in Hl.
    apply bind_ret in H as ([] & w7 & Hm & H). apply ret_ret in H as [-> ->].
    apply read_ret in Hm as E7; [|apply ReadOnly_replace]. rewrite E7.
    exists product, quotas, ws, billing, subs. split; [done|]. split; [done|]. split; [done|].
    split; [by eapply recorded_conflict_ret|]. by destruct billing.
Qed.

End ApiFacts.

(** Linking an API checkout is sound: a rejected link leaves the
    database as it was, and a successful one is for a paid session of this
    workspace tagged as an API checkout, with a live subscription whose API item
    is one of the configured products and has valid quota metadata. A repeated
    link writes nothing; a new one writes tier, customer, subscription row,
    limits and one audit log, and only when no other live subscription is
    recorded for the API product. *)
Theorem linkApiSubscription_sound (input : LinkInput) (env : Env) (w w' : World) (r : LinkResult string) :
  linkApiSubscription input env w = (Ret r, w') ->
  match r with
  | LinkFailed _ _ => db w' = db w
  | Linked name alreadyLinked =>
      exists session sub customerId subscriptionId,
        PaidCheckout env input session sub customerId subscriptionId
        /\ meta (session_metadata session) "unkey_product" = Some "api"%string
        /\ api_link_outcome env input customerId subscriptionId sub (db w) (db w') name alreadyLinked
  end.
Proof.
  unfold linkApiSubscription. intros H. apply bind_ret in H as (found & w1 & Hf & H).
  apply read_ret in Hf as E1; [|effects].
  destruct found as [session|]; [|by apply ret_ret in H as [-> ->]].
  apply retrieve_or_null_ret in Hf. call_in Hf Hdb.
  destruct (Js.eq_ostring (client_reference_id session) _) eqn:Eo; simpl in H; [|by apply ret_ret in H as [-> ->]].
  destruct (Js.eq_ostring (meta _ _) "api") eqn:Em; simpl in H; [|by apply ret_ret in H as [-> ->]].
  destruct (Js.eq_ostring (session_status session) "complete") eqn:Ec; simpl in H; [|by apply ret_ret in H as [-> ->]].
  destruct (String.eqb (payment_status session) "paid") eqn:Ep; simpl in H; [|by apply ret_ret in H as [-> ->]].
  destruct (option_map ref_id (session_customer session)) as [cid|] eqn:Ecid; [|by apply ret_ret in H as [-> ->]].
  destruct (option_map ref_id (session_subscription session)) as [sid|] eqn:Esid; [|by apply ret_ret in H as [-> ->]].
  destruct (negb _ || negb _) eqn:Et; [by apply ret_ret in H as [-> ->]|]. apply ids_truthy in Et.
  apply bind_ret in H as (sub & w2 & Hsub & H). call_in Hsub E2.
  destruct (is_live sub) eqn:Elive; simpl in H; [|apply ret_ret in H as [-> ->]; congruence].
  apply link_api_product_ret in H. rewrite E2, E1 in H. destruct r as [name already|]; [|done].
  exists session, sub, cid, sid. split; [|split; [by apply eq_ostring_true|done]].
  destruct (is_live_true sub Elive). apply eq_ostring_true in Eo, Ec. apply String.eqb_eq in Ep. by split; eauto.
Qed.

Definition stripe_actor : Actor :=
  {| actor_type := "system"; actor_id := "stripe"; actor_name := None; actor_meta := None |}.

Definition demo_input (sessionId : string) : LinkInput :=
  {| in_sessionId := sessionId; in_expectedWorkspaceId := "ws_1";
     in_audit := {| audit_actor := stripe_actor; audit_location := EmptyString; audit_userAgent := None |} |}.

Lemma linkDeploySubscription_sound_witness :
  exists session sub customerId subscriptionId,
    PaidCheckout demo_env (demo_input "cs_compute") session sub customerId subscriptionId
    /\ detectDeployPlan sub = Some pro.
Proof.
  destruct (linkDeploySubscription_sound (demo_input "cs_compute") demo_env (world_of free_db)
              (snd (linkDeploySubscription (demo_input "cs_compute") demo_env (world_of free_db))) (Linked pro false))
    as (session & sub & cid & sid & _ & _ & _ & Hp & Hd & _); [vm_compute; reflexivity|].
  exists session, sub, cid, sid. split; [exact Hp|exact Hd].
Defined.

Lemma linkApiSubscription_sound_witness :
  exists session sub customerId subscriptionId,
    PaidCheckout demo_env (demo_input "cs_api") session sub customerId subscriptionId
    /\ meta (session_metadata session) "unkey_product" = Some "api"%string.
Proof.
  destruct (linkApiSubscription_sound (demo_input "cs_api") demo_env (world_of free_db)
              (snd (linkApiSubscription (demo_input "cs_api") demo_env (world_of free_db))) (Linked "Pro"%string false))
    as (session & sub & cid & sid & Hp & Hd & _); [vm_compute; reflexivity|].
  exists session, sub, cid, sid. split; [exact Hp|exact Hd].
Defined.

(** ** Redelivery *)

(** Stripe gives the same answer to the same call, and the database answers. *)
Record Steady (env : Env) : Prop := {
  steady : forall tr tr' c, ask env tr c = ask env tr' c;
  steady_query : forall tr, ask env tr DbQuery = inr tt;
  steady_exec : forall tr s, ask env tr (DbExec s) = inr tt;
}.

(** The tables a link relies on: rows under their keys, one row per workspace and
    product, and a subscription id recorded for no other workspace or product. *)
Record LinkTables (d : Db) (workspaceId subscriptionId : string) : Prop := {
  lt_ws : forall ws, workspaces d !! workspaceId = Some ws -> ws_id ws = workspaceId;
  lt_billing : is_Some (workspace_billing d !! workspaceId);
  lt_unique : unique_rows (billing_subscriptions d);
  lt_owner : forall r, In r (billing_subscriptions d) -> stripeSubscriptionId r = subscriptionId ->
             bs_workspaceId r = workspaceId /\ bs_product r = compute;
}.

Section Redelivery.

Lemma call_ok c env w r : ask env (trace w) c = inr r -> call c env w = (Ret r, log_call c w).
Proof. unfold call. by intros ->. Qed.

Lemma bind_ok {A B} (m : M A) (k : A -> M B) env w a w1 : m env w = (Ret a, w1) -> bind m k env w = k a env w1.
Proof. unfold bind. by intros ->. Qed.

Lemma retrieve_ok c env w r : ask env (trace w) c = inr r -> retrieve_or_null (call c) env w = (Ret (Some r), log_call c w).
Proof. intros H. unfold retrieve_or_null, catch, bind. by rewrite (call_ok c env w r H). Qed.

Lemma query_ok {A} (f : Db -> A) env w : ask env (trace w) DbQuery = inr tt -> query f env w = (Ret (f (db w)), log_call DbQuery w).
Proof. intros H. unfold query. by rewrite (bind_ok _ _ _ _ _ _ (call_ok DbQuery env w tt H)). Qed.

Lemma exec_ok s env w : ask env (trace w) (DbExec s) = inr tt ->
  exec s env w = (Ret tt, with_db (apply_stmt s (db w)) (log_call (DbExec s) w)).
Proof. intros H. unfold exec. by rewrite (bind_ok _ _ _ _ _ _ (call_ok (DbExec s) env w tt H)). Qed.

Lemma is_live_intro sub :
  status sub = "active"%string \/ status sub = "trialing"%string -> is_cancelling sub = false -> is_live sub = true.
Proof. unfold is_live. by intros [->| ->] ->. Qed.

(** A link of a subscription that is recorded with its plan. *)
Lemma relink_run input env w session sub cid sid p ws billing subs :
  Steady env -> PaidCheckout env input session sub cid sid ->
  detectDeployPlan sub = Some p ->
  find_workspace (in_expectedWorkspaceId input) (db w) = Some (ws, billing, subs) ->
  snd (subscriptionIdsByProduct subs) = Some sid -> billing ≫= plan = Some (plan_name p) ->
  exists w2, linkDeploySubscription input env w = (Ret (Linked p true), w2)
    /\ db w2 = apply_stmt (UpsertLimits (ws_id ws) (limitValues (Some p) (paid_tier (billing ≫= tier)) no_update)
                             (limitColumns (Some p) (paid_tier (billing ≫= tier)) no_update)) (db w).
Proof.
  intros St [[tr Hs] Ho Hc Hp Hcid Hsid [Hcne Hsne] [tr' Hsub] Hst Hnc] Hd Hf Hr Hpl. unfold linkDeploySubscription.
  rewrite (bind_ok _ _ _ _ _ _ (retrieve_ok (SessionsRetrieve (in_sessionId input)) env w session (eq_trans (steady _ St _ tr _) Hs))).
  rewrite Ho, Hc, Hp, Hcid, Hsid. cbn [Js.eq_ostring]. rewrite !String.eqb_refl. cbn [negb orb].
  replace (Js.truthy_string cid) with true by (symmetry; apply negb_true_iff; by apply String.eqb_neq).
  replace (Js.truthy_string sid) with true by (symmetry; apply negb_true_iff; by apply String.eqb_neq). cbn [negb orb].
  rewrite (bind_ok _ _ _ _ _ _ (call_ok (SubscriptionsRetrieve sid) env _ sub (eq_trans (steady _ St _ tr' _) Hsub))).
  rewrite (is_live_intro sub Hst Hnc). cbn [negb]. rewrite Hd.
  rewrite (bind_ok _ _ _ _ _ _ (query_ok _ env _ (steady_query _ St _))). cbn [db log_call]. rewrite Hf, Hr.
  replace (match billing with Some b => plan b | None => None end) with (billing ≫= plan) by (by destruct billing).
  rewrite Hpl. cbn [Js.eq_ostring]. rewrite !String.eqb_refl. cbn [andb].
  unfold setWorkspaceLimits. rewrite (bind_ok _ _ _ _ _ _ (exec_ok _ env _ (steady_exec _ St _ _))).
  eexists. split; [reflexivity|]. by destruct billing.
Qed.

(** The workspace as a second delivery finds it. *)
Lemma find_after_link wsid cid sid p b audit d d' ws billing subs :
  LinkTables d wsid sid -> find_workspace wsid d = Some (ws, billing, subs) ->
  deploy_linked (ws_id ws) cid sid p b audit d d' ->
  exists subs', find_workspace wsid d' = Some (ws, option_map (update_billing
      {| set_tier := None; set_stripeCustomerId := Some (Some cid); set_plan := Some (Some (plan_name p)); set_budget := None |}) billing, subs')
    /\ snd (subscriptionIdsByProduct subs') = Some sid.
Proof.
  intros Hlt Hf (row & _ & _ & ->). unfold find_workspace in *. cbn [apply_stmt workspaces workspace_billing billing_subscriptions].
  destruct (workspaces d !! wsid) as [ws0|] eqn:Ew; [|done]. pose proof (lt_ws _ _ _ Hlt ws0 Ew) as Hid.
  destruct (deletedAtM ws0); [done|]. injection Hf as <- <- <-. eexists. split; [by rewrite lookup_alter_eq|].
  rewrite Hid. set (r := {| bs_workspaceId := wsid; bs_product := compute; stripeSubscriptionId := sid |}).
  destruct (upsert_subscription_key r (billing_subscriptions d) (lt_unique _ _ _ Hlt)) as [(r0 & Hr0 & Hk0) Hall].
  { intros r1 Hr1 E. apply same_key_spec. by apply (lt_owner _ _ _ Hlt). }
  apply same_key_spec in Hk0 as [Hw Hp]. apply recorded_compute.
  - exists r0. split; [|done]. apply filter_In. split; [done|]. by apply String.eqb_eq.
  - intros r1 Hr1 Hp1. apply filter_In in Hr1 as [Hr1 Hw1%String.eqb_eq]. apply Hall; [done|]. by apply same_key_spec.
Qed.

End Redelivery.


(** Linking is idempotent: once a Compute checkout has been linked, a
    second delivery of it (the webhook and the success page, or a redelivery),
    with Stripe answering as before and the database up, reports it as already
    linked and leaves the database exactly as it is. *)
Theorem linkDeploySubscription_idempotent (input : LinkInput) (env : Env) (w w1 : World) (p : DeployPlan)
    (session : Session) (subscriptionId : string) :
  Steady env -> ask env [] (SessionsRetrieve (in_sessionId input)) = inr session ->
  option_map ref_id (session_subscription session) = Some subscriptionId ->
  LinkTables (db w) (in_expectedWorkspaceId input) subscriptionId ->
  linkDeploySubscription input env w = (Ret (Linked p false), w1) ->
  exists w2, linkDeploySubscription input env w1 = (Ret (Linked p true), w2) /\ db w2 = db w1.
Proof.
  intros St Hs Hsid Hlt Hrun. apply linkDeploySubscription_ret in Hrun as
    (session' & sub & cid & sid & ws & billing & subs & Hpaid & Hd & Hf & Hsup & Hlinked).
  assert (session' = session) as ->.
  { destruct (pc_session _ _ _ _ _ _ Hpaid) as [tr Hs']. rewrite (steady _ St tr []), Hs in Hs'. by injection Hs'. }
  assert (sid = subscriptionId) as -> by (pose proof (pc_subscription _ _ _ _ _ _ Hpaid); congruence).
  destruct (find_after_link _ _ _ _ _ _ _ _ _ _ _ Hlt Hf Hlinked) as (subs' & Hf' & Hr').
  assert (is_Some billing) as [b ->].
  { pose proof (lt_billing _ _ _ Hlt) as [b Hb]. unfold find_workspace in Hf. repeat case_match; try done.
    injection Hf as <- <- <-. rewrite (lt_ws _ _ _ Hlt _ H). by rewrite Hb. }
  destruct (relink_run input env w1 session sub cid subscriptionId p ws _ subs' St Hpaid Hd Hf' Hr') as (w2 & Hrun & Hdb);
    [done|]. exists w2. split; [done|]. rewrite Hdb. destruct Hlinked as (row & _ & _ & ->).
  cbn [apply_stmt workspaces workspace_billing billing_subscriptions limits clickhouse_outbox]. f_equal.
  rewrite lookup_insert_eq, insert_insert_eq. f_equal.
  cbn [mbind option_bind option_map update_billing tier set_tier Js.coalesce].
  rewrite setWorkspaceLimits_row. destruct (limits (db w) !! ws_id ws) as [r|].
  - by rewrite setWorkspaceLimits_row, limits_after_idem.
  - by rewrite setWorkspaceLimits_new, limits_after_idem.
Qed.

Lemma linkDeploySubscription_idempotent_witness :
  exists w2, linkDeploySubscription (demo_input "cs_compute") demo_env
               (snd (linkDeploySubscription (demo_input "cs_compute") demo_env (world_of free_db)))
             = (Ret (Linked pro true), w2)
    /\ db w2 = db (snd (linkDeploySubscription (demo_input "cs_compute") demo_env (world_of free_db))).
Proof.
  apply (linkDeploySubscription_idempotent (demo_input "cs_compute") demo_env (world_of free_db) _ pro
           (demo_session "cs_compute") "sub_compute").
  - split; reflexivity.
  - reflexivity.
  - reflexivity.
  - split.
    + intros ws H. vm_compute in H. injection H as <-. reflexivity.
    + vm_compute. eexists. reflexivity.
    + intros r r' [].
    + intros r [].
  - vm_compute. reflexivity.
Defined.
