(* ===== verification/PaymentUtils.v ===== *)
(** * Payment recovery detection

    lib/stripe/paymentUtils.ts: whether a subscription update or a successful
    payment follows a failed one. Every detector fails safely: an error of
    Stripe counts as "not a recovery". *)

From Stdlib Require Import ZArith Bool String Lia.
From stdpp Require Import base list gmap strings.
From S2P Require Import Prelude StripeTypes Effects Fixtures SubscriptionUtils.

Local Open Scope Z_scope.

(** ** Fields of an invoice *)

Definition invoiceSubscriptionId (invoice : Invoice) : option string :=
  if negb (Js.eq_ostring (invoice_parent_type invoice) "subscription_details") then None
  else option_map ref_id (invoice_subscription invoice).

Fixpoint first_intent (l : list InvoicePayment) : option string :=
  match l with
  | [] => None
  | p :: l' =>
      if String.eqb (payment_type p) "payment_intent" then
        match payment_intent p with Some intent => Some (ref_id intent) | None => first_intent l' end
      else first_intent l'
  end.

Definition invoicePaymentIntentId (invoice : Invoice) : option string :=
  first_intent (Js.coalesce (invoice_payments invoice) []).

Record PaymentContext := {
  ctx_customerId : string;
  ctx_customerEmail : string;
  ctx_customerName : string;
  ctx_amount : Z;
  ctx_currency : string;
  ctx_invoiceId : string;
  ctx_subscriptionId : option string;
  ctx_failureReason : option string;
  ctx_attemptCount : Z;
  ctx_eventTimestamp : Z;
}.

(** [n || d] for a number that may be missing. *)
Definition or_Z (o : option Z) (d : Z) : Z :=
  match o with Some n => if Js.truthy_Z n then n else d | None => d end.

(** [extractPaymentContext(event)]; [invoice] is the object of the event. *)
Definition extractPaymentContext (event : Event) (invoice : Invoice) : option PaymentContext :=
  match invoice_customer invoice with
  | None => None
  | Some customer =>
      let '(email, name) := match customer with
                            | RObj c => if customer_deleted c then (EmptyString, EmptyString)
                                        else (Js.or_string (email c) EmptyString, Js.or_string (customer_name c) EmptyString)
                            | RId _ => (EmptyString, EmptyString)
                            end in
      Some {| ctx_customerId := ref_id customer; ctx_customerEmail := email; ctx_customerName := name;
              ctx_amount := amount_due invoice;
              ctx_currency := Js.or_string (Some (invoice_currency invoice)) "usd";
              ctx_invoiceId := invoice_id invoice;
              ctx_subscriptionId := invoiceSubscriptionId invoice;
              ctx_failureReason := if String.eqb (event_type event) "invoice.payment_failed"
                                   then Some "Payment failed"%string else None;
              ctx_attemptCount := or_Z (attempt_count invoice) 1;
              ctx_eventTimestamp := event_created event |}
  end.

(** ** Updates of a subscription *)

Definition checkRecentPaymentSuccess (sub : Subscription) (event : Event) : M bool :=
  catch (
    match latest_invoice sub with
    | None => ret false
    | Some latest =>
        invoice <- call (InvoicesRetrieve (ref_id latest)) ;;
        match paid_at invoice with
        | Some paid_at =>
            if Js.eq_ostring (invoice_status invoice) "paid" && Js.truthy_Z paid_at then
              let recentPaymentThreshold := 2 * 60 * 60 in
              let timeSincePayment := event_created event - paid_at in
              ret ((timeSincePayment <=? recentPaymentThreshold) && (0 <=? timeSincePayment))
            else ret false
        | None => ret false
        end
    end)
    (fun _ => ret false).

Definition isPaymentRecoveryUpdate (sub : Subscription) (previousAttributes : option PreviousAttributes) (event : Event) :
    M bool :=
  match previousAttributes with
  | None => ret false
  | Some p =>
      let statusRecovered := Js.includes (changed_keys p) "status"
                             && Js.includes paymentFailureStatuses (Js.or_string (attr_status p) EmptyString)
                             && String.eqb (status sub) "active" in
      let invoiceChanged := Js.includes (changed_keys p) "latest_invoice" in
      let hasManualChanges := any_changed (settingKeys ++ ["items"%string]) p in
      if statusRecovered && negb hasManualChanges then ret true
      else if invoiceChanged && negb hasManualChanges && String.eqb (status sub) "active" then
        checkRecentPaymentSuccess sub event
      else ret false
  end.

(** ** Payments *)

Definition has_retries (invoice : Invoice) : bool :=
  match attempt_count invoice with Some n => Js.truthy_Z n && (1 <? n) | None => false end.

Definition is_proration (line : InvoiceLine) : bool :=
  (Js.eq_ostring (line_parent_type line) "subscription_item_details" && line_proration line)
  || match line_description line with Some d => Str.contains "proration" (Str.to_lower d) | None => false end.

(** [Math.min(...l)] of a list with a first element. *)
Definition min_list (x : Z) (l : list Z) : Z := List.fold_left Z.min l x.

(** The judgement on a retrieved subscription. *)
Definition change_from_subscription (invoice : Invoice) (subscription : Subscription) : Exn + bool :=
  match items subscription with
  | None => inl (OtherError "TypeError: subscription.items is undefined")
  | Some l =>
      let timeSincePeriodStart := match omap current_period_start l with
                                  | [] => None
                                  | start :: starts => Some (invoice_created invoice - min_list start starts)
                                  end in
      let oneHourInSeconds := 60 * 60 in
      inr (if match timeSincePeriodStart with Some t => t <=? oneHourInSeconds | None => false end then false
           else if has_retries invoice then false
           else true)
  end.

Definition isSubscriptionChangePayment (invoice : Invoice) : M bool :=
  catch (
    match invoiceSubscriptionId invoice with
    | None => ret false
    | Some subscriptionId =>
        if negb (Js.truthy_string subscriptionId) then ret false
        else if existsb is_proration (invoice_lines invoice) then ret true
        else
          catch (
            subscription <- call (SubscriptionsRetrieve subscriptionId) ;;
            match change_from_subscription invoice subscription with inl e => throw e | inr b => ret b end)
            (fun _ => ret false)
    end)
    (fun _ => ret false).

Definition checkInvoicePaymentAttempts (invoice : Invoice) : M bool :=
  catch (
    if has_retries invoice then ret true
    else
      match invoicePaymentIntentId invoice with
      | None => ret false
      | Some paymentIntentId =>
          if negb (Js.truthy_string paymentIntentId) then ret false
          else
            charges <- settle (call (ChargesList paymentIntentId)) ;;
            match charges with
            | inl _ => ret false
            | inr charges =>
                if Nat.ltb 1 (List.length charges) then ret true
                else ret (existsb (fun s => String.eqb s "failed") charges && existsb (fun s => String.eqb s "succeeded") charges)
            end
      end)
    (fun _ => ret false).

Definition isRecoveryFromFailure (event : Event) (invoice : Invoice) (invoiceId : string) : M bool :=
  catch (
    change <- isSubscriptionChangePayment invoice ;;
    if change : bool then ret false
    else
      match option_map ref_id (invoice_customer invoice) with
      | None => ret false
      | Some customerId =>
          if negb (Js.truthy_string customerId) then ret false
          else
            let timeWindowSeconds := 24 * 60 * 60 in
            let successTimestamp := event_created event in
            recentEvents <- settle (call (EventsListPaymentFailed (successTimestamp - timeWindowSeconds) successTimestamp 100)) ;;
            match recentEvents with
            | inl _ => checkInvoicePaymentAttempts invoice
            | inr failed =>
                let hasRecentFailure := existsb (fun failedInvoice => String.eqb (invoice_id failedInvoice) invoiceId) failed in
                hasMultipleAttempts <- catch (checkInvoicePaymentAttempts invoice) (fun _ => ret false) ;;
                ret (hasRecentFailure || hasMultipleAttempts)
            end
      end)
    (fun _ => ret false).

Definition analyzeRecentFailurePatterns (invoiceId : string) (currentTimestamp : Z) : M bool :=
  catch (
    let lookbackSeconds := 7 * 24 * 60 * 60 in
    failureEvents <- settle (call (EventsListPaymentFailed (currentTimestamp - lookbackSeconds) currentTimestamp 50)) ;;
    match failureEvents with
    | inl _ => ret false
    | inr failed =>
        let invoiceFailures := List.filter (fun invoice => String.eqb (invoice_id invoice) invoiceId) failed in
        ret (Nat.ltb 0 (List.length invoiceFailures))
    end)
    (fun _ => ret false).

(** [isPaymentRecovery(stripe, event)]; [invoice] is the object of the event. *)
Definition isPaymentRecovery (event : Event) (invoice : Invoice) : M bool :=
  isRecoveryFromFailure event invoice (invoice_id invoice).

(** ** Classes *)

Section PaymentClasses.

Lemma ReadOnly_checkInvoicePaymentAttempts i : ReadOnly (checkInvoicePaymentAttempts i).
Proof. unfold checkInvoicePaymentAttempts. effects. Qed.

Lemma NoThrow_checkInvoicePaymentAttempts i : NoThrow (checkInvoicePaymentAttempts i).
Proof. unfold checkInvoicePaymentAttempts. effects. Qed.

Lemma ReadOnly_isSubscriptionChangePayment i : ReadOnly (isSubscriptionChangePayment i).
Proof. unfold isSubscriptionChangePayment. effects. Qed.

Lemma NoThrow_isPaymentRecoveryUpdate s p e : NoThrow (isPaymentRecoveryUpdate s p e).
Proof. unfold isPaymentRecoveryUpdate, checkRecentPaymentSuccess. effects. Qed.

Lemma ReadOnly_isPaymentRecoveryUpdate s p e : ReadOnly (isPaymentRecoveryUpdate s p e).
Proof. unfold isPaymentRecoveryUpdate, checkRecentPaymentSuccess. effects. Qed.

End PaymentClasses.

#[export] Hint Resolve ReadOnly_checkInvoicePaymentAttempts NoThrow_checkInvoicePaymentAttempts
  ReadOnly_isSubscriptionChangePayment NoThrow_isPaymentRecoveryUpdate ReadOnly_isPaymentRecoveryUpdate : effects.

Section RecoveryClasses.

Lemma ReadOnly_isPaymentRecovery e i : ReadOnly (isPaymentRecovery e i).
Proof. unfold isPaymentRecovery, isRecoveryFromFailure. effects. Qed.

Lemma NoThrow_isPaymentRecovery e i : NoThrow (isPaymentRecovery e i).
Proof. unfold isPaymentRecovery, isRecoveryFromFailure. effects. Qed.

End RecoveryClasses.

#[export] Hint Resolve ReadOnly_isPaymentRecovery NoThrow_isPaymentRecovery : effects.

(** ** The properties of the component *)

(** What Stripe reported that makes a payment a recovery. *)
Definition recovery_evidence (env : Env) (event : Event) (invoice : Invoice) : Prop :=
  has_retries invoice = true
  \/ (exists tr failed failedInvoice,
        ask env tr (EventsListPaymentFailed (event_created event - 86400) (event_created event) 100) = inr failed
        /\ In failedInvoice failed /\ invoice_id failedInvoice = invoice_id invoice)
  \/ exists tr intent charges,
       invoicePaymentIntentId invoice = Some intent /\ ask env tr (ChargesList intent) = inr charges
       /\ ((1 < List.length charges)%nat \/ (In "failed"%string charges /\ In "succeeded"%string charges)).

Section RecoveryFacts.

Lemma settle_ret {A} (m : M A) env w r w' :
  settle m env w = (Ret r, w') -> match r with inr a => m env w = (Ret a, w') | inl e => m env w = (Throw e, w') end.
Proof. unfold settle, catch, bind. destruct (m env w) as [[a|e] w1]; by intros [= <- <-]. Qed.

Lemma catch_true (m : M bool) env w w' :
  catch m (fun _ => ret false) env w = (Ret true, w') -> m env w = (Ret true, w').
Proof. unfold catch. destruct (m env w) as [[b|e] w1]; [done|by intros [=]]. Qed.

Lemma existsb_string s l : existsb (fun t => String.eqb t s) l = true -> In s l.
Proof. rewrite existsb_exists. by intros (x & Hx & ->%String.eqb_eq). Qed.

Lemma attempts_evidence event invoice env w w' :
  checkInvoicePaymentAttempts invoice env w = (Ret true, w') -> recovery_evidence env event invoice.
Proof.
  intros H. apply catch_true in H. destruct (has_retries invoice) eqn:Er; [by left|].
  destruct (invoicePaymentIntentId invoice) as [intent|] eqn:Ei; [|done].
  destruct (negb _); [done|]. apply bind_ret in H as (charges & w1 & Hc & H). apply settle_ret in Hc.
  destruct charges as [e|charges]; [done|]. call_in Hc Hdb. right. right. exists (trace w), intent, charges.
  split; [done|]. split; [done|]. destruct (Nat.ltb_spec 1 (List.length charges)); [by left|]. right.
  injection H as H _. apply andb_true_iff in H as [H1 H2]. split; by apply existsb_string.
Qed.

End RecoveryFacts.

(** A payment is announced as a recovery only on evidence: the invoice
    was attempted more than once, or Stripe lists a failed payment of this same
    invoice in the 24 hours before, or its payment intent has several charges;
    and never when a line of the subscription's invoice is a proration. *)
Theorem isPaymentRecovery_evidence (env : Env) (w w' : World) (event : Event) (invoice : Invoice) :
  isPaymentRecovery event invoice env w = (Ret true, w') ->
  recovery_evidence env event invoice
  /\ (Js.truthy (invoiceSubscriptionId invoice) && existsb is_proration (invoice_lines invoice) = false).
Proof.
  intros H. apply catch_true in H. apply bind_ret in H as (change & w1 & Hc & H).
  destruct change; [done|]. split.
  - destruct (option_map ref_id (invoice_customer invoice)) as [customerId|]; [|done].
    destruct (negb _); [done|]. apply bind_ret in H as (recent & w2 & Hr & H). apply settle_ret in Hr.
    destruct recent as [e|failed]; [by eapply attempts_evidence|]. call_in Hr Hdb.
    apply bind_ret in H as (attempts & w3 & Ha & H). injection H as H _. apply orb_true_iff in H as [H|H].
    + apply existsb_exists in H as (f & Hf & E%String.eqb_eq). right. left. by exists (trace w1), failed, f.
    + subst attempts. apply catch_true in Ha. by eapply attempts_evidence.
  - destruct (Js.truthy (invoiceSubscriptionId invoice) && existsb is_proration (invoice_lines invoice)) eqn:E; [|done].
    apply andb_true_iff in E as [Et Ep]. unfold isSubscriptionChangePayment, catch in Hc.
    destruct (invoiceSubscriptionId invoice) as [sid|]; [|done]. simpl in Et. rewrite Et, Ep in Hc. done.
Qed.

Definition retried_invoice : Invoice :=
  {| invoice_id := "in_2"; invoice_customer := Some (RId "cus_1"); invoice_currency := "usd";
     invoice_status := Some "paid"%string; paid_at := Some 1500; amount_due := 2000; amount_paid := 2000;
     attempt_count := Some 2; invoice_created := 1000; hosted_invoice_url := None;
     invoice_parent_type := None; invoice_subscription := None; invoice_lines := []; lines_has_more := false;
     invoice_payments := None |}.

Definition demo_event (data : EventData) : Event := {| event_id := "evt_1"; event_created := 2000; event_data := data |}.

Lemma isPaymentRecovery_evidence_witness :
  recovery_evidence demo_env (demo_event (InvoicePaymentSucceeded retried_invoice)) retried_invoice
  /\ (Js.truthy (invoiceSubscriptionId retried_invoice) && existsb is_proration (invoice_lines retried_invoice) = false).
Proof.
  apply (isPaymentRecovery_evidence demo_env (world_of free_db)
           (snd (isPaymentRecovery (demo_event (InvoicePaymentSucceeded retried_invoice)) retried_invoice demo_env (world_of free_db)))).
  vm_compute. reflexivity.
Defined.
