(* ===== verification/Webhook.v ===== *)
(** * The Stripe webhook

    web/apps/dashboard/app/api/webhooks/stripe/route.ts, with
    [stripeWebhookResponse] of lib/stripe/webhookRouting.ts: one definition per
    helper and per event, composed as the route composes them. *)

From Stdlib Require Import ZArith Bool String Lia.
From stdpp Require Import base list gmap strings.
From S2P Require Import Prelude StripeTypes DeployPlan Effects Fixtures DeployBilling SubscriptionUtils SlackText Alerts.
From S2P Require Import DeployCredits BillingOps LinkSubscription PaymentUtils.

Local Open Scope Z_scope.

(** ** Responses *)

(** A plain response, or the JSON receipt of [stripeWebhookResponse], whose
    headers repeat the event and the result. *)
Inductive Response :=
| Text (body : string) (code : Z)
| Receipt (eventId eventType result : string) (details : list (string * JsonScalar)).

Definition status_code (r : Response) : Z := match r with Text _ c => c | Receipt _ _ _ _ => 200 end.

Definition stripeWebhookResponse (event : Event) (result : string) (details : list (string * JsonScalar)) : Response :=
  Receipt (event_id event) (event_type event) result details.

Definition OK : Response := Text "OK" 200.

Definition json_ostring (o : option string) : JsonScalar := match o with Some s => JString s | None => JNull end.

(** ** Helpers *)

Definition plan_update (p : option DeployPlan) : BillingUpdate :=
  {| set_tier := None; set_stripeCustomerId := None; set_plan := Some (option_map plan_name p); set_budget := None |}.

Definition mirrorDeployPlan (workspaceId : string) (billing : Billing) (org : string) (sub : Subscription) : M unit :=
  let p := if is_cancelling sub then None else detectDeployPlan sub in
  if bool_decide (option_map plan_name p = plan billing) then ret tt
  else
    let preserveApiLimits := paid_tier (tier billing) in
    transaction (
      exec (UpdateBilling workspaceId (plan_update p)) ;;
      setWorkspaceLimits workspaceId p preserveApiLimits no_update) ;;
    if negb preserveApiLimits && deployPlanGrantsTeam (plan billing)
       && negb (deployPlanGrantsTeam (option_map plan_name p))
    then deactivateNonCreatorMemberships org else ret tt.

(** [customer.name || "Unknown"]. *)
Definition name_or_unknown (customer : Customer) : string := Js.or_string (customer_name customer) "Unknown".

(** A customer that can be named in an alert, with its email. *)
Definition contact (customer : Customer) : option string :=
  if negb (customer_deleted customer) && Js.truthy (email customer) then email customer else None.

Definition sendComputeAlert (sub : Subscription) (alert : option ComputeLifecycleAlert) (ws : option Workspace) : M string :=
  match alert with
  | None => ret "not_applicable"%string
  | Some alert =>
      match sub_customer sub with
      | None => ret "customer_contact_missing"%string
      | Some ref =>
          customer <- settle (call (CustomersRetrieve (ref_id ref))) ;;
          match customer with
          | inl _ => ret "customer_lookup_failed"%string
          | inr customer =>
              match contact customer with
              | None => ret "customer_contact_missing"%string
              | Some mail =>
                  let lifecycle action product previous price :=
                    {| al_action := action; al_name := name_or_unknown customer; al_email := mail;
                       al_workspaceId := option_map ws_id ws; al_workspaceName := option_map ws_name ws;
                       al_product := Some product; al_previousProduct := previous; al_price := Some price;
                       al_stripeCustomerId := Some (customer_id customer); al_livemode := Some (livemode customer) |} in
                  s <- alertCustomerLifecycle
                         (match alert with
                          | AlertCreated product price => lifecycle signup product None price
                          | AlertCancelling product price => lifecycle cancelling product None price
                          | AlertUpdated product price changeType previousTier =>
                              lifecycle (match changeType with downgraded => downgrade | upgraded => upgrade end)
                                product (Some previousTier) price
                          end) ;;
                  ret (slack_status_name s)
              end
          end
      end
  end.

Definition subscriptionStillBilling (sub : Subscription) : bool :=
  negb (String.eqb (status sub) "canceled") && negb (String.eqb (status sub) "incomplete_expired").

Definition deprovisionOnCancel (workspaceId : string) (billing : Billing) (sub : Subscription) : M unit :=
  if negb (is_cancelling sub) || negb (Js.truthy (plan billing)) then ret tt
  else deprovisionCompute workspaceId.

Definition failure_name (f : LinkFailure) : string :=
  match f with
  | session_not_found => "session_not_found" | workspace_not_found => "workspace_not_found"
  | forbidden => "forbidden" | not_paid => "not_paid" | not_active => "not_active"
  | no_deploy_plan => "no_deploy_plan" | no_api_plan => "no_api_plan"
  | invalid_api_product => "invalid_api_product" | subscription_conflict => "subscription_conflict"
  end.

(** Failures after which a paid subscription bills with no workspace attached. *)
Definition pages_human (f : LinkFailure) : bool :=
  match f with
  | subscription_conflict | workspace_not_found | invalid_api_product | no_api_plan | no_deploy_plan => true
  | _ => false
  end.

(** The end of [linkCheckoutSession], for either linker. *)
Definition report_link {A} (event : Event) (session : Session) (subscriptionId reference product : string)
    (result : LinkResult A) : M Response :=
  match result with
  | LinkFailed reason _ =>
      (if pages_human reason then
         alertOrphanedDeploySubscription
           {| or_workspaceId := Some reference; or_subscriptionId := subscriptionId;
              or_sessionId := Some (session_id session); or_eventId := Some (event_id event);
              or_reason := failure_name reason; or_product := Some product |}
       else ret tt) ;;
      ret (stripeWebhookResponse event "checkout_link_failed"
             [("product"%string, JString product); ("reason"%string, JString (failure_name reason))])
  | Linked _ alreadyLinked =>
      ret (stripeWebhookResponse event "checkout_linked"
             [("product"%string, JString product); ("alreadyLinked"%string, JBool alreadyLinked)])
  end.

Definition link_input (session : Session) (reference : string) : LinkInput :=
  {| in_sessionId := session_id session; in_expectedWorkspaceId := reference;
     in_audit := {| audit_actor := stripe_actor; audit_location := EmptyString; audit_userAgent := None |} |}.

Definition linkCheckoutSession (session : Session) (event : Event) : M Response :=
  match session_subscription session with
  | None => ret (stripeWebhookResponse event "checkout_ignored" [("reason"%string, JString "not_subscription_checkout")])
  | Some ref =>
      if negb (String.eqb (mode session) "subscription") then
        ret (stripeWebhookResponse event "checkout_ignored" [("reason"%string, JString "not_subscription_checkout")])
      else
        let productTag := meta (session_metadata session) "unkey_product" in
        if negb (Js.eq_ostring productTag "api") && negb (Js.eq_ostring productTag "compute") then
          ret (stripeWebhookResponse event "checkout_ignored"
                 [("reason"%string, JString "unknown_product"); ("product"%string, json_ostring productTag)])
        else
          let subscriptionId := ref_id ref in
          let product := if Js.eq_ostring productTag "api" then "API"%string else "Compute"%string in
          let missing :=
            alertOrphanedDeploySubscription
              {| or_workspaceId := None; or_subscriptionId := subscriptionId; or_sessionId := Some (session_id session);
                 or_eventId := Some (event_id event); or_reason := "missing_client_reference_id";
                 or_product := Some product |} ;;
            ret (stripeWebhookResponse event "checkout_link_failed"
                   [("product"%string, JString product); ("reason"%string, JString "missing_client_reference_id")]) in
          match client_reference_id session with
          | None => missing
          | Some reference =>
              if negb (Js.truthy_string reference) then missing
              else if Js.eq_ostring productTag "api" then
                result <- linkApiSubscription (link_input session reference) ;;
                report_link event session subscriptionId reference product result
              else
                result <- linkDeploySubscription (link_input session reference) ;;
                report_link event session subscriptionId reference product result
          end
  end.

Record ApiContext := { ctx_unitAmount : Z; ctx_customer : Customer; ctx_product : Product }.

Definition resolveApiSubscriptionContext (sub : Subscription) : M (option ApiContext) :=
  config <- deployBillingConfig ;;
  match findApiItem config (items_or_empty sub) ≫= item_price_id, sub_customer sub with
  | Some priceId, Some customer =>
      if negb (Js.truthy_string priceId) then ret None
      else
        pc <- both (call (PricesRetrieve priceId)) (call (CustomersRetrieve (ref_id customer))) ;;
        let '(price, customer) := pc in
        match price_product price, unit_amount price with
        | Some ref, Some amount =>
            product <- call (ProductsRetrieve (ref_id ref)) ;;
            ret (Some {| ctx_unitAmount := amount; ctx_customer := customer; ctx_product := product |})
        | _, _ => ret None
        end
  | _, _ => ret None
  end.

(** ** customer.subscription.updated *)

Record Found := { f_row : BillingSubscription; f_ws : Workspace; f_billing : Billing }.

(** A subscription row with a workspace that is not deleted and has a billing
    row. *)
Definition resolve_live (subscriptionId : string) (d : Db) : option Found :=
  match find_subscription subscriptionId d with
  | Some (row, Some (ws, Some billing)) =>
      match deletedAtM ws with None => Some {| f_row := row; f_ws := ws; f_billing := billing |} | Some _ => None end
  | _ => None
  end.

(** No workspace resolves: a checkout whose link is still in flight is passed
    over, anything else pages a human. *)
Definition updated_unresolved (event : Event) (eventSub : Subscription) : M Response :=
  let product := meta (sub_metadata eventSub) "unkey_product" in
  let tagged := (Js.eq_ostring product "api" || Js.eq_ostring product "compute")
                && Js.truthy (meta (sub_metadata eventSub) "workspace_id") in
  recent <- (if tagged then (now <- date_now ;; ret (now - 30 * 60 * 1000 <? sub_created eventSub * 1000)) else ret false) ;;
  if recent : bool then ret OK
  else
    alertOrphanedDeploySubscription
      {| or_workspaceId := None; or_subscriptionId := sub_id eventSub; or_sessionId := None;
         or_eventId := Some (event_id event); or_reason := "workspace_not_found"; or_product := None |} ;;
    ret OK.

(** [previousAttributes.items?.data?.[0]?.price?.id]. *)
Definition first_previous_price (p : PreviousAttributes) : option string :=
  match attr_items p with Some (i :: _) => previous_price_id i | _ => None end.

(** The change of price an update reports: whether it went up or down, and the
    name of the previous product. *)
Definition price_change (unitAmount : Z) (previousAttributes : option PreviousAttributes) :
    M (option PlanDirection * option string) :=
  match previousAttributes ≫= first_previous_price with
  | Some priceId =>
      if negb (Js.truthy_string priceId) then ret (None, None)
      else
        catch (
          previousPrice <- call (PricesRetrieve priceId) ;;
          match price_product previousPrice, unit_amount previousPrice with
          | Some ref, Some previousAmount =>
              previousProduct <- call (ProductsRetrieve (ref_id ref)) ;;
              ret (if previousAmount <? unitAmount then Some upgraded
                   else if unitAmount <? previousAmount then Some downgraded else None,
                   Some (product_name previousProduct))
          | _, _ => ret (None, None)
          end)
          (fun _ => ret (None, None))
  | None => ret (None, None)
  end.

Definition api_alert (action : CustomerAlertAction) (ws : option Workspace) (workspaceId : option string)
    (ctx : ApiContext) (previousTier : option string) (mail : string) : CustomerLifecycleAlert :=
  {| al_action := action; al_name := name_or_unknown (ctx_customer ctx); al_email := mail;
     al_workspaceId := workspaceId; al_workspaceName := option_map ws_name ws;
     al_product := Some (product_name (ctx_product ctx)); al_previousProduct := previousTier;
     al_price := Some (formatPrice (ctx_unitAmount ctx)); al_stripeCustomerId := Some (customer_id (ctx_customer ctx));
     al_livemode := Some (livemode (ctx_customer ctx)) |}.

Definition system_log (workspaceId description : string) : UnkeyAuditLog :=
  {| log_workspaceId := workspaceId; log_event := "workspace.update"; log_description := description;
     log_actor := stripe_actor; log_resources := []; log_location := EmptyString; log_userAgent := None;
     log_correlationId := None |}.

(** The limits an API update writes; an upgrade also lifts the request throttle. *)
Definition api_update_limits (quotas : Quotas) (change : option PlanDirection) : LimitUpdate :=
  match change with
  | Some upgraded => spread (api_limits quotas)
      {| u_apiBillableOperationsCountMaxPerMonth := None; u_apiRequestsCountMaxPerMinute := Some None;
         u_logsRetentionDaysMax := None; u_logsAuditRetentionDaysMax := None; u_teamEnabled := None;
         u_cpuCoresMax := None; u_cpuCoresMaxPerInstance := None; u_memoryMibMax := None;
         u_memoryMibMaxPerInstance := None; u_storageMibMax := None; u_storageMibMaxPerInstance := None;
         u_buildsConcurrentMax := None; u_customDomainsMax := None; u_autoscalingReplicasMax := None |}
  | _ => api_limits quotas
  end.

Definition api_update_tx (workspaceId : string) (billing : Billing) (productName : string) (u : LimitUpdate) : M unit :=
  transaction (
    exec (UpdateBilling workspaceId {| set_tier := Some (Some productName); set_stripeCustomerId := None; set_plan := None; set_budget := None |}) ;;
    setWorkspaceLimits workspaceId
      (Js.ocoalesce (parseDeployPlan (planOverride billing)) (parseDeployPlan (plan billing))) true u ;;
    insertAuditLogs [system_log workspaceId ("Subscription updated to " +:+ productName +:+ " plan.")]).

(** The API branch, from the reconciliation of tier and limits on. *)
Definition updated_api (event : Event) (found : Found) (sub : Subscription) (previousAttributes : option PreviousAttributes) :
    M Response :=
  let ws := f_ws found in
  ctx <- resolveApiSubscriptionContext sub ;;
  match ctx with
  | None => ret OK
  | Some ctx =>
      if Js.truthy_oZ (cancel_at sub) then
        match contact (ctx_customer ctx) with
        | Some mail => alertCustomerLifecycle (api_alert cancelling (Some ws) (Some (ws_id ws)) ctx None mail) ;; ret OK
        | None => ret OK
        end
      else
        match validateAndParseQuotas (ctx_product ctx) with
        | None =>
            alertInvalidProductQuotaMetadata (product_id (ctx_product ctx)) (product_name (ctx_product ctx)) (sub_id sub)
              (event_id event) ;;
            ret OK
        | Some quotas =>
            change <- price_change (ctx_unitAmount ctx) previousAttributes ;;
            let '(changeType, previousTier) := change in
            api_update_tx (ws_id ws) (f_billing found) (product_name (ctx_product ctx)) (api_update_limits quotas changeType) ;;
            match contact (ctx_customer ctx) with
            | Some mail =>
                alertCustomerLifecycle
                  (api_alert (match changeType with Some upgraded => upgrade | Some downgraded => downgrade | None => update end)
                     (Some ws) (Some (ws_id ws)) ctx previousTier mail) ;;
                ret OK
            | None => ret OK
            end
        end
  end.

(** The Compute branch: tear down, mirror the plan, announce. *)
Definition updated_compute (found : Found) (sub : Subscription) (previousAttributes : option PreviousAttributes) : M Response :=
  deprovisionOnCancel (ws_id (f_ws found)) (f_billing found) sub ;;
  mirrorDeployPlan (ws_id (f_ws found)) (f_billing found) (orgId (f_ws found)) sub ;;
  deployConfig <- deployBillingConfig ;;
  sendComputeAlert sub (computeUpdatedAlert deployConfig sub previousAttributes) (Some (f_ws found)) ;;
  ret OK.

Definition updated_body (event : Event) (eventSub : Subscription) (previousAttributes : option PreviousAttributes) : M Response :=
  found <- query (resolve_live (sub_id eventSub)) ;;
  match found with
  | None => updated_unresolved event eventSub
  | Some found =>
      sub <- retrieve_or_null (call (SubscriptionsRetrieve (sub_id eventSub))) ;;
      match sub with
      | None => ret OK
      | Some sub =>
          if isScheduleUpdateOnly previousAttributes then ret OK
          else
            match bs_product (f_row found) with
            | compute => updated_compute found sub previousAttributes
            | api =>
                if isAutomatedBillingRenewal eventSub previousAttributes then ret (Text "OK" 201)
                else if isPaymentFailureRelatedUpdate eventSub previousAttributes then ret (Text "OK" 201)
                else
                  isRecovery <- isPaymentRecoveryUpdate eventSub previousAttributes event ;;
                  if isRecovery : bool then ret (Text "OK" 201)
                  else if isCardUpdateOnly eventSub previousAttributes then ret (Text "OK" 201)
                  else updated_api event found sub previousAttributes
            end
      end
  end.

Definition error_500 {A} (e : A) : M Response := ret (Text "Error" 500).

Definition handle_updated (event : Event) (eventSub : Subscription) (previousAttributes : option PreviousAttributes) : M Response :=
  catch (updated_body event eventSub previousAttributes) error_500.

(** ** customer.subscription.deleted *)

(** The alert on a subscription that ended; a failed lookup is swallowed. *)
Definition cancelled_alert (ws : Workspace) (sub : Subscription) : M unit :=
  match sub_customer sub with
  | None => ret tt
  | Some ref =>
      catch (
        customer <- call (CustomersRetrieve (ref_id ref)) ;;
        match contact customer with
        | Some mail =>
            alertCustomerLifecycle
              {| al_action := cancelled; al_name := name_or_unknown customer; al_email := mail;
                 al_workspaceId := Some (ws_id ws); al_workspaceName := Some (ws_name ws); al_product := None;
                 al_previousProduct := None; al_price := None; al_stripeCustomerId := Some (customer_id customer);
                 al_livemode := Some (livemode customer) |} ;;
            ret tt
        | None => ret tt
        end)
        (fun _ => ret tt)
  end.

Definition delete_compute_tx (workspaceId : string) (keepsTeam : bool) : M unit :=
  transaction (
    exec (UpdateBilling workspaceId (plan_update None)) ;;
    deleteBillingSubscription workspaceId compute ;;
    setWorkspaceLimits workspaceId None keepsTeam no_update ;;
    insertAuditLogs [system_log workspaceId "Cancelled Compute subscription."]).

Definition delete_api_tx (workspaceId : string) (deployPlan : option DeployPlan) (keepsTeam : bool) : M unit :=
  transaction (
    exec (UpdateBilling workspaceId {| set_tier := Some (Some "Free"%string); set_stripeCustomerId := None; set_plan := None; set_budget := None |}) ;;
    deleteBillingSubscription workspaceId api ;;
    setWorkspaceLimits workspaceId deployPlan false no_update ;;
    insertAuditLogs [system_log workspaceId
      (if keepsTeam then "Cancelled API subscription; downgraded to Free (team retained via active Compute plan)."
       else "Cancelled API subscription.")]).

Definition deleted_compute (found : Found) (sub : Subscription) : M Response :=
  let ws := f_ws found in
  let billing := f_billing found in
  (if Js.truthy (plan billing) then deprovisionCompute (ws_id ws) else ret tt) ;;
  let keepsTeam := keepsTeamAfterDelete compute (tier billing) (plan billing) in
  delete_compute_tx (ws_id ws) keepsTeam ;;
  (if negb keepsTeam then deactivateNonCreatorMemberships (orgId ws) else ret tt) ;;
  cancelled_alert ws sub ;;
  ret OK.

Definition deleted_api (found : Found) (sub : Subscription) : M Response :=
  let ws := f_ws found in
  let billing := f_billing found in
  let deployPlan := parseDeployPlan (plan billing) in
  let keepsTeam := keepsTeamAfterDelete api (tier billing) (plan billing) in
  delete_api_tx (ws_id ws) deployPlan keepsTeam ;;
  (if negb keepsTeam then deactivateNonCreatorMemberships (orgId ws) else ret tt) ;;
  cancelled_alert ws sub ;;
  ret OK.

Definition deleted_body (event : Event) (sub : Subscription) : M Response :=
  found <- query (resolve_live (sub_id sub)) ;;
  match found with
  | None =>
      (if subscriptionStillBilling sub then
         alertOrphanedDeploySubscription
           {| or_workspaceId := None; or_subscriptionId := sub_id sub; or_sessionId := None;
              or_eventId := Some (event_id event); or_reason := "workspace_not_found"; or_product := None |}
       else ret tt) ;;
      ret OK
  | Some found =>
      match bs_product (f_row found) with
      | compute => deleted_compute found sub
      | api => deleted_api found sub
      end
  end.

Definition handle_deleted (event : Event) (sub : Subscription) : M Response :=
  catch (deleted_body event sub) error_500.

(** ** customer.subscription.created *)

(** The API branch: announce the signup from the live Stripe objects. *)
Definition created_api (event : Event) (sub : Subscription) (ws : option Workspace) : M Response :=
  let workspaceLinked := ("workspaceLinked"%string, JBool (Js.truthy_obj ws)) in
  ctx <- resolveApiSubscriptionContext sub ;;
  match ctx with
  | None => ret (stripeWebhookResponse event "api_signup_alert_skipped"
                   [("reason"%string, JString "subscription_context_missing"); workspaceLinked])
  | Some ctx =>
      match contact (ctx_customer ctx) with
      | None => ret (stripeWebhookResponse event "api_signup_alert_skipped"
                       [("reason"%string, JString "customer_contact_missing"); workspaceLinked])
      | Some mail =>
          let workspaceId := Js.ocoalesce (option_map ws_id ws) (meta (sub_metadata sub) "workspace_id") in
          s <- alertCustomerLifecycle (api_alert signup ws workspaceId ctx None mail) ;;
          ret (stripeWebhookResponse event "api_signup_alert_processed"
                 [workspaceLinked; ("slackDelivery"%string, JString (slack_status_name s))])
      end
  end.

Definition created_body (event : Event) (sub : Subscription) : M Response :=
  subscription <- query (find_subscription (sub_id sub)) ;;
  let joined := subscription ≫= snd in
  let ws := option_map fst joined in
  let billing := joined ≫= snd in
  let column := option_map (fun f => bs_product (f_row f)) (match subscription, ws, billing with
                | Some (row, _), Some w, Some b =>
                    match deletedAtM w with None => Some {| f_row := row; f_ws := w; f_billing := b |} | Some _ => None end
                | _, _, _ => None
                end) in
  match detectDeployPlan sub with
  | Some _ =>
      (match billing, ws with
       | Some billing, Some ws => mirrorDeployPlan (ws_id ws) billing (orgId ws) sub
       | _, _ => ret tt
       end) ;;
      slackDelivery <- sendComputeAlert sub (computeCreatedAlert sub) ws ;;
      ret (stripeWebhookResponse event "compute_signup_alert_processed"
             [("workspaceLinked"%string, JBool (Js.truthy_obj ws)); ("slackDelivery"%string, JString slackDelivery)])
  | None =>
      let tag := meta (sub_metadata sub) "unkey_product" in
      if negb (Js.eq_ostring tag "api") && negb (bool_decide (column = Some api)) then
        ret (stripeWebhookResponse event "subscription_created_ignored"
               [("reason"%string, JString "unknown_product"); ("product"%string, json_ostring tag);
                ("workspaceLinked"%string, JBool (Js.truthy_obj ws))])
      else created_api event sub ws
  end.

Definition handle_created (event : Event) (sub : Subscription) : M Response :=
  catch (created_body event sub) error_500.

(** ** Checkout and invoice events *)

Definition handle_checkout (event : Event) (session : Session) : M Response :=
  catch (linkCheckoutSession session event) error_500.

Definition payment_alert (customer : Customer) (mail : string) (amount : Z) : PaymentAlert :=
  {| pa_email := mail; pa_name := name_or_unknown customer; pa_amount := amount;
     pa_stripeCustomerId := Some (customer_id customer); pa_livemode := Some (livemode customer) |}.

Definition handle_payment_failed (invoice : Invoice) : M Response :=
  catch (
    match invoice_customer invoice with
    | None => ret OK
    | Some ref =>
        customer <- settle (call (CustomersRetrieve (ref_id ref))) ;;
        match customer with
        | inl _ => ret OK
        | inr customer =>
            match contact customer with
            | None => ret OK
            | Some mail =>
                catch (alertPaymentFailed (payment_alert customer mail (amount_due invoice)) ;; ret OK)
                  (fun _ => ret (Text "Alert failed but event processed" 200))
            end
        end
    end)
    (fun _ => ret (Text "Error processing payment failure" 200)).

Definition handle_invoice_paid (invoice : Invoice) : M Response :=
  catch (
    match invoice_customer invoice with
    | None => ret OK
    | Some _ =>
        grant <- settle (grantDeployCreditsForInvoice invoice) ;;
        match grant with
        | inl _ => ret (Text "Error granting Deploy credits" 500)
        | inr _ => ret OK
        end
    end)
    (fun _ => ret (Text "Error processing invoice.paid" 500)).

(** The alert part of a successful payment. *)
Definition announce_recovery (event : Event) (invoice : Invoice) (ref : Ref Customer) : M Response :=
  customer <- settle (call (CustomersRetrieve (ref_id ref))) ;;
  match customer with
  | inl _ => ret OK
  | inr customer =>
      match contact customer with
      | None => ret OK
      | Some mail =>
          isRecovery <- catch (isPaymentRecovery event invoice) (fun _ => ret false) ;;
          if isRecovery : bool then
            catch (alertPaymentRecovered (payment_alert customer mail (amount_paid invoice)) ;; ret OK)
              (fun _ => ret (Text "Alert failed but event processed" 200))
          else ret OK
      end
  end.

Definition handle_payment_succeeded (event : Event) (invoice : Invoice) : M Response :=
  catch (
    match invoice_customer invoice with
    | None => ret OK
    | Some ref =>
        grant <- settle (grantDeployCreditsForInvoice invoice) ;;
        match grant with
        | inl _ => ret (Text "Error granting Deploy credits" 500)
        | inr _ => announce_recovery event invoice ref
        end
    end)
    (fun _ => ret (Text "Error processing payment success" 200)).

(** ** The route *)

Definition dispatch (event : Event) : M Response :=
  match event_data event with
  | SubscriptionUpdated sub previousAttributes => handle_updated event sub previousAttributes
  | SubscriptionDeleted sub => handle_deleted event sub
  | SubscriptionCreated sub => handle_created event sub
  | CheckoutCompleted session | CheckoutAsyncPaymentSucceeded session => handle_checkout event session
  | InvoicePaymentFailed invoice => handle_payment_failed invoice
  | InvoicePaid invoice => handle_invoice_paid invoice
  | InvoicePaymentSucceeded invoice => handle_payment_succeeded event invoice
  | OtherEvent _ => ret OK
  end.

(** The request: the signature header and the body, when it can be read. *)
Record Request := { signature : option string; text : option string }.

Section Route.

(** [stripe.webhooks.constructEvent(body, signature, secret)], which throws on a
    signature that does not verify. *)
Context (constructEvent : string -> string -> string -> option Event).

Definition POST (req : Request) : M Response :=
  match signature req with
  | None => ret (Text "Webhook signature missing" 400)
  | Some sig =>
      if negb (Js.truthy_string sig) then ret (Text "Webhook signature missing" 400)
      else
        e <- stripeEnv ;;
        match e with
        | None => ret (Text "Server configuration error" 500)
        | Some e =>
            if negb (Js.truthy_string (STRIPE_SECRET_KEY e)) then ret (Text "Server configuration error" 500)
            else
              match text req with
              | None => ret (Text "Error" 400)
              | Some body =>
                  match constructEvent body sig (STRIPE_WEBHOOK_SECRET e) with
                  | None => ret (Text "Error" 400)
                  | Some event => dispatch event
                  end
              end
        end
  end.

End Route.

(** ** Classes *)

Section WebhookClasses.

Lemma ReadOnly_sendComputeAlert s a w : ReadOnly (sendComputeAlert s a w).
Proof. unfold sendComputeAlert. effects. Qed.

Lemma NoThrow_sendComputeAlert s a w : NoThrow (sendComputeAlert s a w).
Proof. unfold sendComputeAlert. effects. Qed.

Lemma Atomic_mirrorDeployPlan a b c d : Atomic (mirrorDeployPlan a b c d).
Proof. unfold mirrorDeployPlan. atomics. Qed.

Lemma ReadOnly_report_link {A} a b c d e (r : LinkResult A) : ReadOnly (report_link a b c d e r).
Proof. unfold report_link. effects. Qed.

Lemma NoThrow_report_link {A} a b c d e (r : LinkResult A) : NoThrow (report_link a b c d e r).
Proof. unfold report_link. effects. Qed.

Lemma ReadOnly_resolveApi s : ReadOnly (resolveApiSubscriptionContext s).
Proof. unfold resolveApiSubscriptionContext. effects. Qed.

Lemma ReadOnly_cancelled_alert w s : ReadOnly (cancelled_alert w s).
Proof. unfold cancelled_alert. effects. Qed.

Lemma NoThrow_cancelled_alert w s : NoThrow (cancelled_alert w s).
Proof. unfold cancelled_alert. effects. Qed.

Lemma ReadOnly_grant i : ReadOnly (grantDeployCreditsForInvoice i).
Proof. unfold grantDeployCreditsForInvoice. effects. Qed.

Lemma Atomic_delete_compute_tx a b : Atomic (delete_compute_tx a b).
Proof. apply Atomic_transaction. Qed.

Lemma Atomic_delete_api_tx a b c : Atomic (delete_api_tx a b c).
Proof. apply Atomic_transaction. Qed.

Lemma Atomic_api_update_tx a b c d : Atomic (api_update_tx a b c d).
Proof. apply Atomic_transaction. Qed.

End WebhookClasses.

#[export] Hint Resolve ReadOnly_sendComputeAlert NoThrow_sendComputeAlert Atomic_mirrorDeployPlan
  ReadOnly_report_link NoThrow_report_link ReadOnly_resolveApi ReadOnly_cancelled_alert
  NoThrow_cancelled_alert ReadOnly_grant Atomic_delete_compute_tx Atomic_delete_api_tx Atomic_api_update_tx
  Atomic_linkDeploySubscription Atomic_linkApiSubscription : effects.

Section HandlerClasses.

Lemma Atomic_deleted_api f s : Atomic (deleted_api f s).
Proof. unfold deleted_api. atomics. Qed.

Lemma Atomic_created_body e s : Atomic (created_body e s).
Proof. unfold created_body, created_api. atomics. Qed.

Lemma Atomic_checkout e s : Atomic (linkCheckoutSession s e).
Proof. unfold linkCheckoutSession. atomics. Qed.

Lemma ReadOnly_payment_failed i : ReadOnly (handle_payment_failed i).
Proof. unfold handle_payment_failed, alertPaymentFailed. effects. Qed.

Lemma ReadOnly_invoice_paid i : ReadOnly (handle_invoice_paid i).
Proof. unfold handle_invoice_paid. effects. Qed.

Lemma ReadOnly_payment_succeeded e i : ReadOnly (handle_payment_succeeded e i).
Proof. unfold handle_payment_succeeded, announce_recovery, alertPaymentRecovered. effects. Qed.

Lemma ReadOnly_updated_unresolved e s : ReadOnly (updated_unresolved e s).
Proof. unfold updated_unresolved. effects. Qed.

Lemma Atomic_updated_api e f s p : Atomic (updated_api e f s p).
Proof. unfold updated_api, price_change. atomics. Qed.

End HandlerClasses.

(** ** Effects of the transactions *)

(** The plan column and the limits row follow the plan. *)
Definition mirrored (workspaceId : string) (p : option DeployPlan) (preserveApiLimits : bool) (d : Db) : Db :=
  apply_stmt (UpsertLimits workspaceId (limitValues p preserveApiLimits no_update) (limitColumns p preserveApiLimits no_update))
    (apply_stmt (UpdateBilling workspaceId (plan_update p)) d).

(** The Compute subscription is gone: no plan, no row, free limits, one log. *)
Definition compute_deleted (workspaceId : string) (keepsTeam : bool) (row : OutboxRow) (d : Db) : Db :=
  apply_stmt (InsertOutbox [row])
    (apply_stmt (UpsertLimits workspaceId (limitValues None keepsTeam no_update) (limitColumns None keepsTeam no_update))
      (apply_stmt (DeleteSubscription workspaceId compute)
        (apply_stmt (UpdateBilling workspaceId (plan_update None)) d))).

(** The API subscription is gone: Free tier, no row, the limits of the Compute
    plan, one log. *)
Definition api_deleted (workspaceId : string) (p : option DeployPlan) (row : OutboxRow) (d : Db) : Db :=
  apply_stmt (InsertOutbox [row])
    (apply_stmt (UpsertLimits workspaceId (limitValues p false no_update) (limitColumns p false no_update))
      (apply_stmt (DeleteSubscription workspaceId api)
        (apply_stmt (UpdateBilling workspaceId
           {| set_tier := Some (Some "Free"%string); set_stripeCustomerId := None; set_plan := None; set_budget := None |}) d))).

Section TxFacts.

Lemma mirror_ret wsid b org sub env w u w' :
  mirrorDeployPlan wsid b org sub env w = (Ret u, w') ->
  db w' = db w \/ db w' = mirrored wsid (if is_cancelling sub then None else detectDeployPlan sub)
                            (paid_tier (tier b)) (db w).
Proof.
  unfold mirrorDeployPlan. destruct (bool_decide _); [intros [= _ <-]; by left|]. intros H. right.
  apply bind_ret in H as ([] & w1 & Ht & H). apply transaction_ret in Ht as (w2 & w3 & E2 & Ht & E1). run_in Ht.
  apply exec_ret in Hr. apply exec_ret in Ht. unfold mirrored. rewrite <- E2, <- Hr, <- Ht, <- E1.
  destruct (_ && _); [|by injection H as _ <-]. eapply read_ret; [|exact H]. apply ReadOnly_deactivate.
Qed.

Lemma delete_compute_tx_ret wsid k env w u w' :
  delete_compute_tx wsid k env w = (Ret u, w') -> exists row, db w' = compute_deleted wsid k row (db w).
Proof.
  destruct u. intros H. apply transaction_ret in H as (w1 & w2 & E1 & H & ->). run_in H.
  apply exec_ret in Hr, Hr0, Hr1. apply insert_one_ret in H as (row & -> & _). exists row.
  unfold compute_deleted. by rewrite Hr1, Hr0, Hr, E1.
Qed.

Lemma delete_api_tx_ret wsid p k env w u w' :
  delete_api_tx wsid p k env w = (Ret u, w') -> exists row, db w' = api_deleted wsid p row (db w).
Proof.
  destruct u. intros H. apply transaction_ret in H as (w1 & w2 & E1 & H & ->). run_in H.
  apply exec_ret in Hr, Hr0, Hr1. apply insert_one_ret in H as (row & -> & _). exists row.
  unfold api_deleted. by rewrite Hr1, Hr0, Hr, E1.
Qed.

Lemma api_update_tx_ret wsid b name u env w x w' :
  api_update_tx wsid b name u env w = (Ret x, w') ->
  exists row, db w' = apply_stmt (InsertOutbox [row])
    (apply_stmt (UpsertLimits wsid
        (limitValues (Js.ocoalesce (parseDeployPlan (planOverride b)) (parseDeployPlan (plan b))) true u)
        (limitColumns (Js.ocoalesce (parseDeployPlan (planOverride b)) (parseDeployPlan (plan b))) true u))
      (apply_stmt (UpdateBilling wsid {| set_tier := Some (Some name); set_stripeCustomerId := None; set_plan := None; set_budget := None |})
        (db w))).
Proof.
  destruct x. intros H. apply transaction_ret in H as (w1 & w2 & E1 & H & ->). run_in H.
  apply exec_ret in Hr, Hr0. apply insert_one_ret in H as (row & -> & _). exists row. by rewrite Hr0, Hr, E1.
Qed.

(** The product of an API context was retrieved from Stripe. *)
Lemma resolveApi_product sub env w ctx w' :
  resolveApiSubscriptionContext sub env w = (Ret (Some ctx), w') ->
  exists tr id, ask env tr (ProductsRetrieve id) = inr (ctx_product ctx).
Proof.
  unfold resolveApiSubscriptionContext. intros H. apply bind_ret in H as (config & w1 & _ & H).
  destruct (findApiItem _ _ ≫= _) as [priceId|]; [|done]. destruct (sub_customer sub) as [ref|]; [|done].
  destruct (negb _); [done|]. apply bind_ret in H as ([price customer] & w2 & _ & H).
  destruct (price_product price) as [pref|]; [|done]. destruct (unit_amount price) as [amount|]; [|done].
  apply bind_ret in H as (product & w3 & Hp & H). call_in Hp Hdb. injection H as <- _. eauto.
Qed.

(** A handler that answers 500 is one whose body threw, when the body never
    answers 500 itself. *)
Lemma catch_500 (body : M Response) env w r w' :
  catch body error_500 env w = (Ret r, w') ->
  body env w = (Ret r, w') \/ exists e, body env w = (Throw e, w').
Proof. unfold catch, error_500. destruct (body env w) as [[a|e] w1]; [by left|intros [= <- <-]; eauto]. Qed.

Lemma Atomic_500 (body : M Response) env w r w' :
  Atomic body -> (forall w1, body env w = (Ret r, w1) -> status_code r <> 500) ->
  catch body error_500 env w = (Ret r, w') -> status_code r = 500 -> db w' = db w.
Proof.
  intros Ha Hok H Hr. apply catch_500 in H as [H|[e H]]; [by destruct (Hok _ H)|]. eapply Ha, H.
Qed.

End TxFacts.

(** Responses of a computation. *)
Class Answers (P : Response -> Prop) (m : M Response) : Prop :=
  answers : forall env w r w', m env w = (Ret r, w') -> P r.

Section AnswerFacts.

Context (P : Response -> Prop).

Lemma Answers_ret r : P r -> Answers P (ret r).
Proof. by intros Hr env w r' w' [= <- _]. Qed.

Lemma Answers_throw e : Answers P (throw e).
Proof. by intros env w r' w'. Qed.

Lemma Answers_bind {A} (m : M A) (k : A -> M Response) : (forall a, Answers P (k a)) -> Answers P (bind m k).
Proof. intros Hk env w r w' H. apply bind_ret in H as (a & w1 & _ & H). by eapply Hk. Qed.

Lemma Answers_catch (m : M Response) h : Answers P m -> (forall e, Answers P (h e)) -> Answers P (catch m h).
Proof. intros Hm Hh env w r w' H. apply catch_ret in H as [H|(e & w1 & _ & H)]; [by eapply Hm|by eapply Hh]. Qed.

End AnswerFacts.

Ltac answer_step :=
  match goal with
  | |- forall _, _ => intro
  | |- Answers _ (let _ := _ in _) => cbv zeta
  | |- Answers _ (match ?x with _ => _ end) => destruct x
  | |- Answers _ (bind _ _) => apply Answers_bind
  | |- Answers _ (catch _ _) => apply Answers_catch
  | |- Answers _ (ret _) => apply Answers_ret; done
  | |- Answers _ (throw _) => apply Answers_throw
  end.

Ltac answers := repeat answer_step.

Section HandlerAnswers.

Lemma updated_answers e s p : Answers (fun r => status_code r <> 500) (updated_body e s p).
Proof. unfold updated_body, updated_unresolved, updated_compute, updated_api. answers. Qed.

Lemma deleted_answers e s : Answers (fun r => status_code r = 200) (deleted_body e s).
Proof. unfold deleted_body, deleted_compute, deleted_api. answers. Qed.

Lemma created_answers e s : Answers (fun r => status_code r = 200) (created_body e s).
Proof. unfold created_body, created_api. answers. Qed.

Lemma checkout_answers e s : Answers (fun r => status_code r = 200) (linkCheckoutSession s e).
Proof. unfold linkCheckoutSession, report_link. answers. Qed.

End HandlerAnswers.

(** ** The properties of the route *)

(** The plan the update mirrors: none when the subscription is cancelling. *)
Definition mirrored_plan (sub : Subscription) : option DeployPlan :=
  if is_cancelling sub then None else detectDeployPlan sub.

(** The Compute subscription [sid] of the database, and the workspace it belongs to. *)
Definition compute_workspace (sid : string) (d : Db) (ws : Workspace) (billing : Billing) : Prop :=
  exists row, resolve_live sid d = Some {| f_row := row; f_ws := ws; f_billing := billing |} /\ bs_product row = compute.

(** What a failed event can leave behind: nothing; or as much of a teardown as ctrl had
    done, of the workspace of the event's own Compute subscription, which was deleted
    or is, by what Stripe reports, cancelling; or, for an update, the committed mirror of
    the plan Stripe reports, over the completed teardown if it is cancelling. *)
Inductive left_behind (env : Env) (event : Event) (d : Db) : Db -> Prop :=
| left_unchanged : left_behind env event d d
| left_by_deletion sub ws billing p :
    event_data event = SubscriptionDeleted sub -> compute_workspace (sub_id sub) d ws billing ->
    left_behind env event d (torn_down p (ws_id ws) d)
| left_by_update eventSub previous ws billing sub tr p :
    event_data event = SubscriptionUpdated eventSub previous -> compute_workspace (sub_id eventSub) d ws billing ->
    ask env tr (SubscriptionsRetrieve (sub_id eventSub)) = inr sub -> is_cancelling sub = true ->
    left_behind env event d (torn_down p (ws_id ws) d)
| left_by_mirror eventSub previous ws billing sub tr :
    event_data event = SubscriptionUpdated eventSub previous -> compute_workspace (sub_id eventSub) d ws billing ->
    ask env tr (SubscriptionsRetrieve (sub_id eventSub)) = inr sub ->
    left_behind env event d
      (mirrored (ws_id ws) (mirrored_plan sub) (paid_tier (tier billing))
         (if is_cancelling sub then torn_down PlanCleared (ws_id ws) d else d)).

(** The subscription row and the workspace under which an event is found. *)
Definition found_under (sid : string) (d : Db) : option (BillingSubscription * Workspace) :=
  option_map (fun f => (f_row f, f_ws f)) (resolve_live sid d).

Section RetryFacts.

(** The found row, in the words of the specification. *)
Lemma compute_found sid d found :
  resolve_live sid d = Some found -> bs_product (f_row found) = compute ->
  compute_workspace sid d (f_ws found) (f_billing found).
Proof. destruct found as [row ws b]. intros H Hp. by exists row. Qed.

Lemma resolve_live_billing sid d found :
  resolve_live sid d = Some found -> workspace_billing d !! ws_id (f_ws found) = Some (f_billing found).
Proof.
  unfold resolve_live, find_subscription. destruct (List.find _ _) as [row|]; [|done].
  destruct (workspaces d !! bs_workspaceId row) as [ws|]; [|done].
  destruct (workspace_billing d !! ws_id ws) as [b|] eqn:Eb; [|done]. destruct (deletedAtM ws); [done|].
  by intros [= <-].
Qed.

(** Writes to the billing row and the limits of a workspace lose no subscription. *)
Lemma found_under_alter f k d d' sid :
  workspaces d' = workspaces d -> billing_subscriptions d' = billing_subscriptions d ->
  workspace_billing d' = alter f k (workspace_billing d) -> found_under sid d' = found_under sid d.
Proof.
  intros Hw Hs Hb. unfold found_under, resolve_live, find_subscription. rewrite Hw, Hs, Hb.
  destruct (List.find _ _) as [row|]; [|done]. destruct (workspaces d !! bs_workspaceId row) as [ws|]; [|done].
  destruct (decide (k = ws_id ws)) as [->|Hk]; [rewrite lookup_alter_eq|by rewrite lookup_alter_ne].
  destruct (workspace_billing d !! ws_id ws) as [b|]; [|done]. simpl. by destruct (deletedAtM ws).
Qed.

Lemma found_under_torn p ws d sid : found_under sid (torn_down p ws d) = found_under sid d.
Proof. by apply (found_under_alter (torn_row p) ws). Qed.

Lemma found_under_mirrored ws p k d sid : found_under sid (mirrored ws p k d) = found_under sid d.
Proof. by apply (found_under_alter (update_billing (plan_update p)) ws). Qed.

Lemma found_under_left env event d d' sid : left_behind env event d d' -> found_under sid d' = found_under sid d.
Proof.
  intros []; rewrite ?found_under_mirrored; try destruct (is_cancelling _); by rewrite ?found_under_torn.
Qed.

(** The teardown of a cancelling subscription: not needed, done, or failed on the way. *)
Lemma deprovisionOnCancel_runs found sub env w o w' :
  workspace_billing (db w) !! ws_id (f_ws found) = Some (f_billing found) ->
  deprovisionOnCancel (ws_id (f_ws found)) (f_billing found) sub env w = (o, w') ->
  match o with
  | Ret _ => db w' = if is_cancelling sub then torn_down PlanCleared (ws_id (f_ws found)) (db w) else db w
  | Throw _ => is_cancelling sub = true /\ exists p, db w' = torn_down p (ws_id (f_ws found)) (db w)
  end.
Proof.
  intros Hb. unfold deprovisionOnCancel. destruct (is_cancelling sub); [|by intros [= <- <-]].
  destruct (Js.truthy (plan (f_billing found))) eqn:Ep; cbn [negb orb].
  - destruct o as [u|e]; intros H; [by apply deprovisionCompute_ret in H as [_ ->]|].
    split; [done|]. apply deprovisionCompute_throw in H as (p & _ & ->). eauto.
  - intros [= <- <-]. symmetry. by eapply torn_down_planless.
Qed.

Lemma updated_compute_throw event eventSub previous found sub tr env w e w' :
  event_data event = SubscriptionUpdated eventSub previous -> resolve_live (sub_id eventSub) (db w) = Some found ->
  bs_product (f_row found) = compute -> ask env tr (SubscriptionsRetrieve (sub_id eventSub)) = inr sub ->
  updated_compute found sub previous env w = (Throw e, w') -> left_behind env event (db w) (db w').
Proof.
  intros Hev Hf Hp Hs. pose proof (compute_found _ _ _ Hf Hp) as Hc. apply resolve_live_billing in Hf as Hb.
  unfold updated_compute, bind at 1. destruct (deprovisionOnCancel _ _ _ env w) as [[u|e1] w1] eqn:E1;
    apply (deprovisionOnCancel_runs _ _ _ _ _ _ Hb) in E1.
  2: { intros [= _ <-]. destruct E1 as [Hca [p ->]]. by eapply left_by_update. }
  assert (Htorn : left_behind env event (db w) (db w1)).
  { rewrite E1. destruct (is_cancelling sub) eqn:Hca; [by eapply left_by_update|apply left_unchanged]. }
  unfold bind at 1. destruct (mirrorDeployPlan _ _ _ _ env w1) as [[u2|e2] w2] eqn:E2.
  - apply mirror_ret in E2. intros H.
    assert (E3 : db w' = db w2) by (eapply read_ret; [|exact H]; effects). rewrite E3.
    destruct E2 as [->| ->]; [done|]. rewrite E1. by eapply left_by_mirror.
  - intros [= _ <-]. apply Atomic_mirrorDeployPlan in E2. by rewrite E2.
Qed.

Lemma retrieved_subscription c env w r w' :
  retrieve_or_null (call c) env w = (Ret (Some r), w') -> ask env (trace w) c = inr r.
Proof.
  unfold retrieve_or_null, catch, bind, call. destruct (ask env (trace w) c) as [e|r'].
  - by destruct (resource_missing e).
  - by intros [= -> _].
Qed.

Lemma updated_throw event eventSub previous env w e w' :
  event_data event = SubscriptionUpdated eventSub previous ->
  updated_body event eventSub previous env w = (Throw e, w') -> left_behind env event (db w) (db w').
Proof.
  intros Hev. unfold updated_body, bind at 1.
  destruct (query (resolve_live (sub_id eventSub)) env w) as [[found|e1] w1] eqn:Eq.
  2: { intros [= _ <-]. apply read_ret in Eq as ->; [apply left_unchanged|effects]. }
  apply query_ret in Eq as [Ef E1]. rewrite <- E1. rewrite <- E1 in Ef. destruct found as [found|].
  2: { intros H. apply read_ret in H as ->; [apply left_unchanged|apply ReadOnly_updated_unresolved]. }
  unfold bind at 1. destruct (retrieve_or_null _ env w1) as [[sub|e2] w2] eqn:Es;
    (apply read_ret in Es as E2; [|solve [effects]]); rewrite <- E2.
  2: { intros [= _ <-]. apply left_unchanged. }
  destruct sub as [sub|]; [|done]. apply retrieved_subscription in Es. destruct (isScheduleUpdateOnly previous); [done|].
  destruct (bs_product (f_row found)) eqn:Ep.
  - destruct (isAutomatedBillingRenewal _ _); [done|]. destruct (isPaymentFailureRelatedUpdate _ _); [done|].
    intros H. apply atomic_throw in H as ->; [apply left_unchanged|].
    apply Atomic_bind_read; [effects|]. intros [|]; [atomics|].
    destruct (isCardUpdateOnly _ _); [atomics|apply Atomic_updated_api].
  - intros H. eapply updated_compute_throw in H; [exact H|exact Hev|by rewrite E2|done|exact Es].
Qed.

(** What the failed deletion of a subscription that resolves leaves. *)
Lemma deleted_body_throw event sub env w found e w' :
  resolve_live (sub_id sub) (db w) = Some found -> deleted_body event sub env w = (Throw e, w') ->
  db w' = db w \/ bs_product (f_row found) = compute /\ exists p, db w' = torn_down p (ws_id (f_ws found)) (db w).
Proof.
  intros Hf. unfold deleted_body, bind at 1.
  destruct (query (resolve_live (sub_id sub)) env w) as [[f|e1] w1] eqn:Eq.
  2: { intros [= _ <-]. left. eapply read_ret; [|exact Eq]. effects. }
  apply query_ret in Eq as [-> E1]. rewrite Hf, <- E1. destruct (bs_product (f_row found)).
  { intros H. left. eapply Atomic_deleted_api, H. }
  unfold deleted_compute. cbv zeta. intros H. apply bind_throw in H as [H|(u & w2 & Hd & H)].
  - destruct (Js.truthy _); [|done]. apply deprovisionCompute_throw in H as (p & _ & ->). eauto.
  - assert (E : db w' = db w2) by (eapply atomic_throw; [|exact H]; atomics).
    destruct (Js.truthy _); [|injection Hd as _ <-; by left]. apply deprovisionCompute_ret in Hd as [_ Hd].
    right. split; [done|]. exists PlanCleared. congruence.
Qed.

Lemma deleted_left_behind event sub env w e w' :
  event_data event = SubscriptionDeleted sub -> deleted_body event sub env w = (Throw e, w') ->
  left_behind env event (db w) (db w').
Proof.
  intros Hev H. destruct (resolve_live (sub_id sub) (db w)) as [found|] eqn:Hf.
  - destruct (deleted_body_throw _ _ _ _ found _ _ Hf H) as [->|[Hp [p ->]]]; [apply left_unchanged|].
    eapply left_by_deletion; [done|]. by apply compute_found.
  - unfold deleted_body in H. apply bind_throw in H as [H|(f & w1 & Hq & H)].
    + apply read_ret in H as ->; [apply left_unchanged|effects].
    + apply query_ret in Hq as [-> E1]. rewrite Hf in H. rewrite <- E1.
      apply read_ret in H as ->; [apply left_unchanged|effects].
Qed.

Lemma dispatch_answers event : NoThrow (dispatch event).
Proof.
  unfold dispatch, handle_updated, handle_deleted, handle_created, handle_checkout, error_500, handle_payment_failed,
    handle_invoice_paid, handle_payment_succeeded.
  effects.
Qed.

Lemma dispatch_codes event :
  Answers (fun r => status_code r = 200 \/ status_code r = 201 \/ status_code r = 500) (dispatch event).
Proof.
  unfold dispatch, handle_updated, handle_deleted, handle_created, handle_checkout, error_500, handle_payment_failed,
    handle_invoice_paid, handle_payment_succeeded, announce_recovery, updated_body, updated_unresolved, updated_compute,
    updated_api, deleted_body, deleted_compute, deleted_api, created_body, created_api, linkCheckoutSession, report_link.
  repeat first [answer_step | apply Answers_ret; simpl; tauto].
Qed.

End RetryFacts.

(** Claim C1. The webhook is safe to redeliver. It answers every event with 200, 201 or
    500. When it answers 500, so that Stripe delivers the event again, the database is
    exactly as before, except for what a Compute subscription's own update or deletion
    leaves: the writes of ctrl's teardown of that workspace, complete or broken off, and,
    for an update, the committed mirror of the plan that Stripe reports. In every case
    each subscription still resolves to the same row and workspace, so the redelivered
    event finds what it found. *)
Theorem webhook_retry_safe (event : Event) (env : Env) (w : World) :
  exists r w', dispatch event env w = (Ret r, w')
    /\ (status_code r = 200 \/ status_code r = 201 \/ status_code r = 500)
    /\ (status_code r = 500 ->
        left_behind env event (db w) (db w')
        /\ forall sid, found_under sid (db w') = found_under sid (db w)).
Proof.
  destruct (dispatch_answers event env w) as (r & w' & H). exists r, w'. split; [done|].
  split; [by eapply dispatch_codes|]. intros H500.
  assert (Hl : left_behind env event (db w) (db w')); [|split; [done|intros sid; by eapply found_under_left]].
  assert (Hsame : db w' = db w -> left_behind env event (db w) (db w')) by (intros ->; apply left_unchanged).
  unfold dispatch in H.
  destruct (event_data event) as [eventSub previous|sub|sub|session|session|invoice|invoice|invoice|t] eqn:Ev.
  - apply catch_500 in H as [H|[e H]]; [by apply updated_answers in H|]. by eapply updated_throw.
  - apply catch_500 in H as [H|[e H]]; [apply deleted_answers in H; congruence|]. by eapply deleted_left_behind.
  - apply Hsame. eapply Atomic_500; [apply Atomic_created_body| |exact H|done]. intros w1 H1%created_answers. congruence.
  - apply Hsame. eapply Atomic_500; [apply Atomic_checkout| |exact H|done]. intros w1 H1%checkout_answers. congruence.
  - apply Hsame. eapply Atomic_500; [apply Atomic_checkout| |exact H|done]. intros w1 H1%checkout_answers. congruence.
  - apply Hsame. eapply read_ret; [apply ReadOnly_payment_failed|exact H].
  - apply Hsame. eapply read_ret; [apply ReadOnly_invoice_paid|exact H].
  - apply Hsame. eapply read_ret; [apply ReadOnly_payment_succeeded|exact H].
  - apply Hsame. by injection H as _ <-.
Qed.

(** A request that does not verify has no effect: without a signature,
    without Stripe configuration, with an unreadable body, or when the signature
    does not match the body under the webhook secret, the route answers 400 or
    500, makes no call and changes nothing; a request that verifies is
    dispatched. *)
Theorem POST_gate (constructEvent : string -> string -> string -> option Event) (req : Request) (env : Env) (w : World) :
  (exists r, POST constructEvent req env w = (Ret r, w) /\ (status_code r = 400 \/ status_code r = 500))
  \/ exists sig body e event,
       signature req = Some sig /\ text req = Some body /\ stripe_env env = Some e
       /\ constructEvent body sig (STRIPE_WEBHOOK_SECRET e) = Some event
       /\ POST constructEvent req env w = dispatch event env w.
Proof.
  unfold POST. destruct (signature req) as [sig|]; [|left; eexists; split; [reflexivity|by left]].
  destruct (negb (Js.truthy_string sig)); [left; eexists; split; [reflexivity|by left]|].
  unfold bind, stripeEnv. destruct (stripe_env env) as [e|]; [|left; eexists; split; [reflexivity|by right]].
  destruct (negb _); [left; eexists; split; [reflexivity|by right]|].
  destruct (text req) as [body|]; [|left; eexists; split; [reflexivity|by left]].
  destruct (constructEvent body sig (STRIPE_WEBHOOK_SECRET e)) as [event|] eqn:E;
    [|left; eexists; split; [reflexivity|by left]].
  right. by exists sig, body, e, event.
Qed.

(** The database after a deletion was processed; Compute was torn down before. *)
Definition deletion_done (found : Found) (d d' : Db) : Prop :=
  let ws := f_ws found in
  let billing := f_billing found in
  match bs_product (f_row found) with
  | compute => exists row, d' = compute_deleted (ws_id ws) (keepsTeamAfterDelete compute (tier billing) (plan billing)) row
                                  (torn_down PlanCleared (ws_id ws) d)
  | api => exists row, d' = api_deleted (ws_id ws) (parseDeployPlan (plan billing)) row d
  end.

(** The database after a deletion that failed: for Compute, what the teardown had done. *)
Definition deletion_failed (found : Found) (d d' : Db) : Prop :=
  match bs_product (f_row found) with
  | compute => exists p, d' = torn_down p (ws_id (f_ws found)) d
  | api => d' = d
  end.

Section DeletionFacts.

Lemma deleted_found event sub env w found r w' :
  resolve_live (sub_id sub) (db w) = Some found -> deleted_body event sub env w = (Ret r, w') ->
  deletion_done found (db w) (db w')
  /\ (bs_product (f_row found) = compute -> Js.truthy (plan (f_billing found)) = true ->
      exists tr, ask env tr (DeprovisionCompute (ws_id (f_ws found))) = inr tt).
Proof.
  intros Hf H. apply resolve_live_billing in Hf as Hb. unfold deleted_body in H. apply bind_ret in H as (f & w1 & Hq & H).
  apply query_ret in Hq as [-> E1]. rewrite Hf in H. unfold deletion_done. rewrite <- E1 in Hb.
  destruct (bs_product (f_row found)).
  - unfold deleted_api in H. cbv zeta in H. apply bind_ret in H as (u1 & w2 & Ht & H).
    apply delete_api_tx_ret in Ht as [row Ht]. rewrite E1 in Ht. split; [|done]. exists row. rewrite <- Ht.
    eapply read_ret; [|exact H]. effects.
  - unfold deleted_compute in H. cbv zeta in H. apply bind_ret in H as (u1 & w2 & Hd & H).
    assert (Hd' : db w2 = torn_down PlanCleared (ws_id (f_ws found)) (db w1)
                  /\ (Js.truthy (plan (f_billing found)) = true ->
                      ask env (trace w1) (DeprovisionCompute (ws_id (f_ws found))) = inr tt)).
    { destruct (Js.truthy _) eqn:Ep; [by apply deprovisionCompute_ret in Hd as [? ?]|].
      injection Hd as _ <-. split; [|done]. symmetry. by eapply torn_down_planless. }
    destruct Hd' as [E2 Hask].
    apply bind_ret in H as (u2 & w3 & Ht & H). apply delete_compute_tx_ret in Ht as [row Ht]. rewrite E2, E1 in Ht.
    split; [|eauto]. exists row. rewrite <- Ht. eapply read_ret; [|exact H]. effects.
Qed.

Lemma deletion_failed_runs event sub env w found e w' :
  resolve_live (sub_id sub) (db w) = Some found -> deleted_body event sub env w = (Throw e, w') ->
  deletion_failed found (db w) (db w').
Proof.
  intros Hf H. unfold deletion_failed. destruct (deleted_body_throw _ _ _ _ _ _ _ Hf H) as [->|[-> Hp]]; [|done].
  destruct (bs_product _); [done|]. exists NothingDone. by rewrite torn_down_nothing.
Qed.

Lemma deletion_failed_found found d d' sid : deletion_failed found d d' -> found_under sid d' = found_under sid d.
Proof. unfold deletion_failed. destruct (bs_product _); [by intros ->|]. intros [p ->]. apply found_under_torn. Qed.

End DeletionFacts.

(** Claim C8. Processing a deleted subscription is all or nothing. For a subscription
    that resolves to a workspace the handler answers 500 or 200. When it answers 500 the
    database is as it was, except that for Compute the teardown may have lifted the
    suspension and cleared the plan of that workspace, and the subscription still
    resolves to the same row and workspace, so that redelivery completes the work. When
    it answers 200 the product's subscription row is gone, its plan or tier is reset, the
    limits are those of what remains and one audit log is written, and the teardown of a
    Compute plan was accepted. *)
Theorem handle_deleted_all_or_nothing (event : Event) (sub : Subscription) (env : Env) (w : World) (found : Found) :
  resolve_live (sub_id sub) (db w) = Some found ->
  exists r w', handle_deleted event sub env w = (Ret r, w') /\
    ((status_code r = 500 /\ deletion_failed found (db w) (db w')
      /\ found_under (sub_id sub) (db w') = Some (f_row found, f_ws found))
     \/ (status_code r = 200 /\ deletion_done found (db w) (db w')
         /\ (bs_product (f_row found) = compute -> Js.truthy (plan (f_billing found)) = true ->
             exists tr, ask env tr (DeprovisionCompute (ws_id (f_ws found))) = inr tt))).
Proof.
  intros Hf. unfold handle_deleted, catch. destruct (deleted_body event sub env w) as [[r|e] w'] eqn:E.
  - exists r, w'. split; [done|]. right. split; [by eapply deleted_answers|]. by eapply deleted_found.
  - exists (Text "Error" 500), w'. split; [done|]. left. split; [done|].
    apply (deletion_failed_runs _ _ _ _ found) in E; [|done]. split; [done|].
    rewrite (deletion_failed_found _ _ _ _ E). unfold found_under. by rewrite Hf.
Qed.

Definition demo_found : Found :=
  {| f_row := {| bs_workspaceId := "ws_1"; bs_product := compute; stripeSubscriptionId := "sub_compute" |};
     f_ws := demo_workspace;
     f_billing := {| tier := Some "Free"%string; stripeCustomerId := Some "cus_1"%string;
                     plan := Some "pro"%string; planOverride := None; spend := no_spend |} |}.

Lemma handle_deleted_all_or_nothing_witness :
  exists r w', handle_deleted (demo_event (SubscriptionDeleted ended_sub)) ended_sub demo_env (world_of compute_db) = (Ret r, w')
    /\ ((status_code r = 500 /\ deletion_failed demo_found compute_db (db w')
         /\ found_under (sub_id ended_sub) (db w') = Some (f_row demo_found, f_ws demo_found))
        \/ (status_code r = 200
            /\ deletion_done demo_found compute_db (db w')
            /\ (compute = compute -> true = true ->
                exists tr, ask demo_env tr (DeprovisionCompute "ws_1") = inr tt))).
Proof.
  apply (handle_deleted_all_or_nothing (demo_event (SubscriptionDeleted ended_sub)) ended_sub demo_env (world_of compute_db)).
  vm_compute. reflexivity.
Defined.

(** ** Redelivery and ordering *)

(** The keys of the tables: a workspace is stored under its id and a Stripe
    subscription is recorded once. *)
Record Keyed (d : Db) : Prop := {
  keyed_ws : forall k ws, workspaces d !! k = Some ws -> ws_id ws = k;
  keyed_sub : forall r r', In r (billing_subscriptions d) -> In r' (billing_subscriptions d) ->
              stripeSubscriptionId r = stripeSubscriptionId r' -> r = r';
}.

Section RedeliveryFacts.

Lemma resolve_live_row sid d found :
  Keyed d -> resolve_live sid d = Some found ->
  In (f_row found) (billing_subscriptions d) /\ stripeSubscriptionId (f_row found) = sid
  /\ bs_workspaceId (f_row found) = ws_id (f_ws found).
Proof.
  intros Hk. unfold resolve_live, find_subscription.
  destruct (List.find _ (billing_subscriptions d)) as [row|] eqn:Er; [|done].
  destruct (workspaces d !! bs_workspaceId row) as [ws|] eqn:Ew; [|done].
  destruct (workspace_billing d !! ws_id ws) as [b|]; [|done]. destruct (deletedAtM ws); [done|]. intros [= <-].
  apply List.find_some in Er as [Hin E%String.eqb_eq]. split; [done|]. split; [done|]. symmetry. by eapply keyed_ws.
Qed.

Lemma deleted_not_found sid d d' found :
  Keyed d -> resolve_live sid d = Some found -> deletion_done found d d' -> resolve_live sid d' = None.
Proof.
  intros Hk Hf Hd. destruct (resolve_live_row sid d found Hk Hf) as (Hin & Hsid & Hws).
  assert (Hgone : List.find (fun r => String.eqb (stripeSubscriptionId r) sid) (billing_subscriptions d') = None).
  { assert (Ht : billing_subscriptions d' = List.filter (fun r => negb (String.eqb (bs_workspaceId r) (ws_id (f_ws found))
             && bool_decide (bs_product r = bs_product (f_row found)))) (billing_subscriptions d))
      by (unfold deletion_done in Hd; destruct (bs_product (f_row found)); destruct Hd as [row ->]; reflexivity).
    rewrite Ht. destruct (List.find _ (List.filter _ _)) as [r|] eqn:E; [|done].
    apply List.find_some in E as [Hr E%String.eqb_eq]. apply filter_In in Hr as [Hr Hn].
    assert (r = f_row found) as -> by (eapply keyed_sub; [done|done|done|congruence]).
    rewrite Hws, String.eqb_refl, bool_decide_true in Hn by done. done. }
  unfold resolve_live, find_subscription. by rewrite Hgone.
Qed.

End RedeliveryFacts.

(** A redelivered deletion is silent: once the deletion of an ended
    subscription was processed, delivering the event again answers 200 after one
    query, writes nothing and pages nobody. *)
Theorem deleted_redelivery_silent (event : Event) (sub : Subscription) (env : Env) (w w1 : World) (found : Found) (r : Response) :
  Keyed (db w) -> resolve_live (sub_id sub) (db w) = Some found -> subscriptionStillBilling sub = false ->
  handle_deleted event sub env w = (Ret r, w1) -> status_code r = 200 ->
  ask env (trace w1) DbQuery = inr tt ->
  handle_deleted event sub env w1 = (Ret OK, log_call DbQuery w1).
Proof.
  intros Hk Hf Hended H Hr Hq. unfold handle_deleted in H. apply catch_ret in H as [H|(e & w2 & _ & H)];
    [|injection H as <- <-; done].
  apply (deleted_found _ _ _ _ found) in H as [Hd _]; [|done].
  pose proof (deleted_not_found _ _ _ found Hk Hf Hd) as Hnone.
  unfold handle_deleted, catch, deleted_body. rewrite (bind_ok _ _ _ _ _ _ (query_ok _ env w1 Hq)), Hnone, Hended. done.
Qed.

Lemma deleted_redelivery_silent_witness :
  handle_deleted (demo_event (SubscriptionDeleted ended_sub)) ended_sub demo_env
    (snd (handle_deleted (demo_event (SubscriptionDeleted ended_sub)) ended_sub demo_env (world_of compute_db)))
  = (Ret OK, log_call DbQuery
       (snd (handle_deleted (demo_event (SubscriptionDeleted ended_sub)) ended_sub demo_env (world_of compute_db)))).
Proof.
  apply (deleted_redelivery_silent _ ended_sub demo_env (world_of compute_db) _ demo_found OK).
  - split.
    + intros k ws H. cbn [db world_of compute_db workspaces free_db] in H.
      apply lookup_singleton_Some in H as [<- <-]. reflexivity.
    + intros r r' [<-|[]] [<-|[]] _. reflexivity.
  - vm_compute. reflexivity.
  - reflexivity.
  - vm_compute. reflexivity.
  - reflexivity.
  - reflexivity.
Defined.

(** Teardown comes first: when the update of a cancelling Compute
    subscription finds a plan, the first call it makes is the teardown of the
    workspace, and if that fails the handler stops there: the database is what ctrl
    left. *)
Theorem teardown_before_clear (found : Found) (sub : Subscription) (previous : option PreviousAttributes) (env : Env) (w : World) :
  is_cancelling sub = true -> Js.truthy (plan (f_billing found)) = true ->
  (exists l, trace (snd (updated_compute found sub previous env w))
             = trace w ++ DeprovisionCompute (ws_id (f_ws found)) :: l)
  /\ forall e, ask env (trace w) (DeprovisionCompute (ws_id (f_ws found))) = inl e ->
     exists w', updated_compute found sub previous env w = (Throw e, w')
       /\ trace w' = trace w ++ [DeprovisionCompute (ws_id (f_ws found))]
       /\ exists p, db w' = torn_down p (ws_id (f_ws found)) (db w).
Proof.
  intros Hc Hp.
  assert (Hdep : deprovisionOnCancel (ws_id (f_ws found)) (f_billing found) sub
                 = deprovisionCompute (ws_id (f_ws found)))
    by (unfold deprovisionOnCancel; by rewrite Hc, Hp).
  unfold updated_compute. rewrite Hdep. split.
  - unfold bind at 1, deprovisionCompute.
    assert (Hrest : Emits (fun _ => True)
      (mirrorDeployPlan (ws_id (f_ws found)) (f_billing found) (orgId (f_ws found)) sub ;;
       deployConfig <- deployBillingConfig ;;
       sendComputeAlert sub (computeUpdatedAlert deployConfig sub previous) (Some (f_ws found)) ;; ret OK)).
    { unfold mirrorDeployPlan, setWorkspaceLimits, deactivateNonCreatorMemberships, sendComputeAlert,
        alertCustomerLifecycle, postToSlack.
      effects. by apply Emits_deployBillingConfig. }
    destruct (ask env (trace w) _) as [e|[]]; [by exists []|].
    destruct (Hrest env (with_db (torn_down PlanCleared (ws_id (f_ws found)) (db w))
                           (log_call (DeprovisionCompute (ws_id (f_ws found))) w))) as (l & Hl & _).
    exists l. rewrite Hl. cbn [with_db log_call trace]. by rewrite <- app_assoc.
  - intros e He. unfold bind, deprovisionCompute. rewrite He. eexists. split; [done|]. split; [done|]. by eexists.
Qed.

Lemma teardown_before_clear_witness :
  exists l, trace (snd (updated_compute demo_found cancelling_sub None demo_env (world_of compute_db)))
            = [] ++ DeprovisionCompute "ws_1" :: l.
Proof. apply (teardown_before_clear demo_found cancelling_sub None demo_env (world_of compute_db)); reflexivity. Defined.

(** ** What an API update writes *)

(** An API plan change is reconciled from live Stripe data: when the
    update of an API subscription that is not cancelling is processed, the tier
    is the name of the product of its API item and the limits row holds the
    product's quotas and team access over the resources of the Compute plan, an
    override of which wins; an upgrade lifts the request throttle. Otherwise the
    database is as it was. *)
Theorem updated_api_effect (event : Event) (found : Found) (sub : Subscription) (previous : option PreviousAttributes)
    (env : Env) (w w' : World) (r : Response) :
  updated_api event found sub previous env w = (Ret r, w') ->
  db w' = db w
  \/ exists ctx quotas change row,
       (exists tr id, ask env tr (ProductsRetrieve id) = inr (ctx_product ctx))
       /\ validateAndParseQuotas (ctx_product ctx) = Some quotas /\ Js.truthy_oZ (cancel_at sub) = false
       /\ let p := Js.ocoalesce (parseDeployPlan (planOverride (f_billing found))) (parseDeployPlan (plan (f_billing found))) in
          let u := api_update_limits quotas change in
          db w' = apply_stmt (InsertOutbox [row])
                    (apply_stmt (UpsertLimits (ws_id (f_ws found)) (limitValues p true u) (limitColumns p true u))
                      (apply_stmt (UpdateBilling (ws_id (f_ws found))
                         {| set_tier := Some (Some (product_name (ctx_product ctx))); set_stripeCustomerId := None;
                            set_plan := None; set_budget := None |}) (db w))).
Proof.
  unfold updated_api. cbv zeta. intros H. apply bind_ret in H as (ctx & w1 & Hctx & H).
  apply read_ret in Hctx as E1; [|solve [effects]].
  destruct ctx as [ctx|]; [|injection H as _ <-; by left].
  destruct (Js.truthy_oZ (cancel_at sub)) eqn:Ec.
  { left. rewrite <- E1. eapply read_ret; [|exact H]. effects. }
  destruct (validateAndParseQuotas (ctx_product ctx)) as [quotas|] eqn:Eq.
  2: { left. rewrite <- E1. eapply read_ret; [|exact H]. effects. }
  apply bind_ret in H as ([change previousTier] & w2 & Hch & H).
  apply read_ret in Hch as E2; [|unfold price_change; solve [effects]].
  apply bind_ret in H as (u & w3 & Ht & H). apply read_ret in H as E3; [|solve [effects]].
  apply api_update_tx_ret in Ht as [row Ht]. rewrite E2, E1 in Ht.
  right. exists ctx, quotas, change, row. rewrite E3, Ht.
  split; [by eapply resolveApi_product|]. done.
Qed.

Definition demo_api_found : Found :=
  {| f_row := {| bs_workspaceId := "ws_1"; bs_product := api; stripeSubscriptionId := "sub_api" |};
     f_ws := demo_workspace;
     f_billing := {| tier := Some "Free"%string; stripeCustomerId := Some "cus_1"%string; plan := None;
                     planOverride := Some "business"%string; spend := no_spend |} |}.

Lemma updated_api_effect_witness :
  db (snd (updated_api (demo_event (OtherEvent "x")) demo_api_found api_sub None demo_env (world_of free_db))) = free_db
  \/ exists ctx quotas, (exists tr id, ask demo_env tr (ProductsRetrieve id) = inr (ctx_product ctx))
       /\ validateAndParseQuotas (ctx_product ctx) = Some quotas.
Proof.
  destruct (updated_api_effect (demo_event (OtherEvent "x")) demo_api_found api_sub None demo_env (world_of free_db)
              (snd (updated_api (demo_event (OtherEvent "x")) demo_api_found api_sub None demo_env (world_of free_db))) OK)
    as [H|(ctx & quotas & change & row & Hp & Hq & _)].
  - vm_compute. reflexivity.
  - left. exact H.
  - right. exists ctx, quotas. split; [exact Hp|exact Hq].
Defined.

(** ** Divergences *)

(** The sample environment, in which the first transaction fails and Stripe reports the
    subscription as cancelling. *)
Definition first_tx_fails : Env :=
  {| stripe_env := stripe_env demo_env; app_env := demo_app_env; request_headers := fun _ => None; collation := collation demo_env;
     SLACK_WEBHOOK_CUSTOMERS := SLACK_WEBHOOK_CUSTOMERS demo_env;
     ask := fun tr c => match c return Exn + Resp c with
                        | SubscriptionsRetrieve _ => inr cancelling_sub
                        | TxBegin => if existsb (fun c => match c with TxBegin => true | _ => false end) tr then inr tt
                                     else inl (OtherError "connection lost")
                        | c => ask demo_env tr c
                        end;
     clock := clock demo_env; fresh := fresh demo_env; teardown_done := teardown_done demo_env |}.

(** A retried cancellation leaves the limits of the plan: the teardown that precedes the
    mirror clears the plan, so when the transaction of the mirror fails and Stripe
    delivers the update again, the plan reads as unchanged, nothing is written, and the
    event is answered with 200 while the limits and the team access of Pro stay. *)
Theorem limits_kept_on_retry :
  let event := demo_event (SubscriptionUpdated cancelling_sub None) in
  let first := handle_updated event cancelling_sub None first_tx_fails (world_of compute_db) in
  let second := handle_updated event cancelling_sub None first_tx_fails (snd first) in
  fst first = Ret (Text "Error" 500) /\ fst second = Ret OK
  /\ option_map plan (workspace_billing (db (snd second)) !! "ws_1"%string) = Some None
  /\ limits (db (snd second)) !! "ws_1"%string = Some (limitsByPlan (Some pro))
  /\ limitsByPlan (Some pro) <> limitsByPlan None.
Proof. vm_compute. repeat split; try reflexivity. discriminate. Qed.

(** A Compute subscription, still active and not cancelling, whose plan tag is not
    recognized. *)
Definition untagged_sub : Subscription := demo_sub "sub_compute" (price_for "enterprise").

(** The sample environment, with Stripe reporting that subscription. *)
Definition untagged_env : Env :=
  {| stripe_env := stripe_env demo_env; app_env := demo_app_env; request_headers := fun _ => None; collation := collation demo_env;
     SLACK_WEBHOOK_CUSTOMERS := SLACK_WEBHOOK_CUSTOMERS demo_env;
     ask := fun tr c => match c return Exn + Resp c with
                        | SubscriptionsRetrieve _ => inr untagged_sub
                        | c => ask demo_env tr c
                        end;
     clock := clock demo_env; fresh := fresh demo_env; teardown_done := teardown_done demo_env |}.

Definition is_teardown (c : Call) : bool := match c with DeprovisionCompute _ => true | _ => false end.

(** The plan can be cleared without a teardown: an update of a Compute
    subscription that is active, not cancelling and carries no recognized plan
    clears the plan of a workspace on Pro, answers 200, and never asks for the
    teardown of its workloads. *)
Theorem plan_cleared_without_teardown :
  let event := demo_event (SubscriptionUpdated untagged_sub None) in
  let run := handle_updated event untagged_sub None untagged_env (world_of compute_db) in
  is_cancelling untagged_sub = false /\ status untagged_sub = "active"%string
  /\ option_map plan (workspace_billing compute_db !! "ws_1"%string) = Some (Some "pro"%string)
  /\ fst run = Ret OK
  /\ option_map plan (workspace_billing (db (snd run)) !! "ws_1"%string) = Some None
  /\ existsb is_teardown (trace (snd run)) = false.
Proof. vm_compute. repeat split; reflexivity. Qed.

(** A workspace on the Pro API tier with a Compute override to Business. *)
Definition override_db : Db :=
  {| workspaces := workspaces free_db;
     workspace_billing := {[ "ws_1"%string := {| tier := Some "Pro"%string; stripeCustomerId := Some "cus_1"%string;
                                                 plan := None; planOverride := Some "business"%string; spend := no_spend |} ]};
     billing_subscriptions := billing_subscriptions api_db; limits := ∅; clickhouse_outbox := []; tables := fun _ => [] |}.

Definition cpu_limit (d : Db) : option Z := option_map cpuCoresMaxPerInstance (limits d !! "ws_1"%string).

(** The override survives an API update and not an API deletion: for a
    workspace whose plan override is Business, reconciling its API subscription
    writes the Business resource limits, and deleting it writes those of the free
    plan although the override is still set. *)
Theorem override_lost_on_api_delete :
  let updated := updated_api (demo_event (OtherEvent "x")) demo_api_found api_sub None demo_env (world_of override_db) in
  let deleted := handle_deleted (demo_event (SubscriptionDeleted api_sub)) api_sub demo_env (world_of override_db) in
  cpu_limit (db (snd updated)) = Some 16
  /\ fst deleted = Ret OK /\ cpu_limit (db (snd deleted)) = Some 2
  /\ option_map planOverride (workspace_billing (db (snd deleted)) !! "ws_1"%string) = Some (Some "business"%string).
Proof. vm_compute. repeat split; reflexivity. Qed.
