(* ===== verification/Checkout.v ===== *)
(** * Checkouts and plan changes

    lib/stripe/createSubscriptionCheckout.ts, changeSubscriptionPrice.ts,
    cancelDeploySubscription.ts and scheduleApiPlanDowngrade.ts. The SHA-256
    digest of node:crypto is a parameter. *)

From Stdlib Require Import ZArith Bool Ascii String Lia.
From stdpp Require Import base list gmap strings.
From S2P Require Import Prelude StripeTypes DeployPlan Effects Fixtures SubscriptionUtils.

Local Open Scope Z_scope.

(** ** Checkout sessions *)

Definition product_tag (p : SubscriptionProduct) : string := match p with api => "api" | compute => "compute" end.

(** [JSON.stringify] of a string. *)
Definition hex4 (n : nat) : string :=
  let d k := String (ascii_of_nat (if Nat.ltb k 10 then 48 + k else 87 + k)) EmptyString in
  "00" +:+ d (Nat.div n 16) +:+ d (Nat.modulo n 16).

Definition backslash : string := String (ascii_of_nat 92) EmptyString.

Definition json_char (c : ascii) : string :=
  let n := nat_of_ascii c in
  if Nat.eqb n 34 || Nat.eqb n 92 then backslash +:+ String c EmptyString
  else if Nat.eqb n 8 then backslash +:+ "b"
  else if Nat.eqb n 9 then backslash +:+ "t"
  else if Nat.eqb n 10 then backslash +:+ "n"
  else if Nat.eqb n 12 then backslash +:+ "f"
  else if Nat.eqb n 13 then backslash +:+ "r"
  else if Nat.ltb n 32 then backslash +:+ "u" +:+ hex4 n
  else String c EmptyString.

Definition dquote : string := String (ascii_of_nat 34) EmptyString.

Definition json_string (s : string) : string :=
  dquote +:+ String.concat EmptyString (List.map json_char (list_ascii_of_string s)) +:+ dquote.

Definition json_field (key value : string) : string := json_string key +:+ ":" +:+ value.
Definition json_object (fields : list string) : string := "{" +:+ Str.join "," fields +:+ "}".
Definition json_array (values : list string) : string := "[" +:+ Str.join "," values +:+ "]".

Definition json_line_item (i : string * option Z) : string :=
  json_object (json_field "price" (json_string (fst i))
               :: match snd i with Some q => [json_field "quantity" (Num.string_of_Z q)] | None => [] end).

(** [JSON.stringify(sessionParams)]; [sp_custom_text] is the JSON text of the
    object the caller passes. *)
Definition stringify (p : SessionParams) : string :=
  json_object (
    [json_field "client_reference_id" (json_string (sp_client_reference_id p));
     json_field "metadata" (json_object [json_field "unkey_product" (json_string (product_tag (sp_product p)))]);
     json_field "billing_address_collection" (json_string "auto");
     json_field "mode" (json_string "subscription");
     json_field "payment_method_types" (json_array [json_string "card"]);
     json_field "line_items" (json_array (List.map json_line_item (sp_line_items p)));
     json_field "saved_payment_method_options"
       (json_object [json_field "allow_redisplay_filters"
                       (json_array (List.map json_string ["always"; "limited"; "unspecified"]%string))]);
     json_field "subscription_data"
       (json_object
          [json_field "metadata" (json_object [json_field "unkey_product" (json_string (product_tag (sp_product p)));
                                               json_field "workspace_id" (json_string (sp_client_reference_id p))]);
           json_field "billing_cycle_anchor_config"
             (json_object [json_field "day_of_month" "1"; json_field "hour" "0"; json_field "minute" "0"; json_field "second" "0"]);
           json_field "billing_mode" (json_object [json_field "type" (json_string "classic")]);
           json_field "proration_behavior" (json_string "create_prorations")])]
    ++ (match sp_customer p with Some c => [json_field "customer" (json_string c)] | None => [] end)
    ++ (match sp_custom_text p with Some t => [json_field "custom_text" t] | None => [] end)
    ++ [json_field "success_url" (json_string (sp_success_url p))]).

Record SubscriptionCheckoutInput := {
  ci_workspaceId : string;
  ci_product : SubscriptionProduct;
  ci_customerId : option string;
  ci_lineItems : list (string * option Z);
  ci_successUrl : string;
  ci_customText : option string;
  ci_idempotencyKey : option string;
}.

Inductive SubscriptionCheckoutDestination :=
| CheckoutAt (session : Session)
| SuccessAt (url : string).

(** [s.replace(pattern, replacement)]: the first occurrence. *)
Fixpoint replace_first (pattern replacement s : string) : string :=
  if String.prefix pattern s then
    replacement +:+ String.substring (String.length pattern) (String.length s - String.length pattern) s
  else match s with
       | EmptyString => EmptyString
       | String c s' => String c (replace_first pattern replacement s')
       end.

Definition session_params (input : SubscriptionCheckoutInput) : SessionParams :=
  {| sp_client_reference_id := ci_workspaceId input; sp_product := ci_product input;
     sp_line_items := ci_lineItems input;
     sp_customer := match ci_customerId input with Some c => if Js.truthy_string c then Some c else None | None => None end;
     sp_custom_text := ci_customText input; sp_success_url := ci_successUrl input |}.

Section WithHash.

(** [createHash("sha256").update(s).digest("hex")]. *)
Context (sha256_hex : string -> string).

Definition fingerprint (s : string) : string := String.substring 0 16 (sha256_hex s).

(** Up to [attempts] rounds of re-reading the session and replacing a dead one. *)
Fixpoint settle_session (attempts : nat) (input : SubscriptionCheckoutInput) (base idempotencyKey : string)
    (session : Session) : M SubscriptionCheckoutDestination :=
  match attempts with
  | O => ret (CheckoutAt session)
  | S attempts' =>
      live <- call (SessionsRetrieve (session_id session)) ;;
      let retry :=
        let retryFingerprint := fingerprint (idempotencyKey +:+ ":" +:+ session_id session) in
        let key := base +:+ ":retry:" +:+ retryFingerprint in
        next <- call (SessionsCreate (session_params input) (Some key)) ;;
        settle_session attempts' input base key next in
      if Js.eq_ostring (session_status live) "open" then ret (CheckoutAt live)
      else if Js.eq_ostring (session_status live) "complete" then
        match option_map ref_id (session_subscription live) with
        | Some subscriptionId =>
            if Js.truthy_string subscriptionId then
              subscription <- call (SubscriptionsRetrieve subscriptionId) ;;
              if negb (isDeadSubscription subscription) then
                ret (SuccessAt (replace_first "{CHECKOUT_SESSION_ID}" (session_id live) (ci_successUrl input)))
              else retry
            else retry
        | None => retry
        end
      else retry
  end.

Definition createSubscriptionCheckout (input : SubscriptionCheckoutInput) : M SubscriptionCheckoutDestination :=
  let sessionParams := session_params input in
  match ci_idempotencyKey input with
  | Some key =>
      if Js.truthy_string key then
        let base := key +:+ ":" +:+ fingerprint (stringify sessionParams) in
        session <- call (SessionsCreate sessionParams (Some base)) ;;
        settle_session 3 input base base session
      else session <- call (SessionsCreate sessionParams None) ;; ret (CheckoutAt session)
  | None => session <- call (SessionsCreate sessionParams None) ;; ret (CheckoutAt session)
  end.

End WithHash.

(** ** Plan changes *)

Inductive ChangeSubscriptionPriceResult := Applied | PaymentRequired (paymentUrl : string).

Definition changeSubscriptionPrice (subscriptionId itemId newPriceId prorationBehavior : string) :
    M ChangeSubscriptionPriceResult :=
  subscription <- call (SubscriptionsUpdate subscriptionId (ChangePrice itemId newPriceId prorationBehavior)) ;;
  if negb (pending_update subscription) then ret Applied
  else
    invoice <- (match latest_invoice subscription with
                | Some (RId id) => i <- call (InvoicesRetrieve id) ;; ret (Some i)
                | Some (RObj i) => ret (Some i)
                | None => ret None
                end) ;;
    match option_map hosted_invoice_url invoice with
    | Some (Some url) =>
        if Js.truthy_string url then ret (PaymentRequired url)
        else throw (OtherError "Stripe did not return a payment page for the pending plan change.")
    | _ => throw (OtherError "Stripe did not return a payment page for the pending plan change.")
    end.

Definition cancelDeploySubscription (subscriptionId : string) : M unit :=
  sub <- call (SubscriptionsRetrieve subscriptionId) ;;
  if isDeadSubscription sub then ret tt
  else call (SubscriptionsUpdate subscriptionId CancelAtPeriodEnd) ;; ret tt.

(** ** Scheduled downgrades *)

Definition API_PLAN_DOWNGRADE : string := "api_plan_downgrade".

Definition ScheduleConflict : Exn := SubscriptionScheduleConflictError.

(** [phaseItems(items, priceChange)]. *)
Definition phaseItems (l : list PhaseItem) (priceChange : option (string * string)) : list (string * option Z) :=
  List.map (fun item =>
    (match priceChange with
     | Some (from, to) => if String.eqb (ref_id (phase_price item)) from then to else ref_id (phase_price item)
     | None => ref_id (phase_price item)
     end, phase_quantity item)) l.

Definition retrieveSchedule (schedule : Ref Schedule) : M Schedule :=
  match schedule with RId id => call (SchedulesRetrieve id) | RObj s => ret s end.

Definition is_managed (schedule : Schedule) : bool :=
  Js.eq_ostring (meta (schedule_metadata schedule) "unkey_change") API_PLAN_DOWNGRADE.

Definition assertManagedSchedule (schedule : Schedule) : M unit :=
  if is_managed schedule then ret tt else throw ScheduleConflict.

Definition find_current_phase (schedule : Schedule) : option Phase :=
  match current_phase schedule with
  | Some (s, e) => List.find (fun phase => (start_date phase =? s) && (end_date phase =? e)) (phases schedule)
  | None => None
  end.

Definition downgrade_params (schedule : Schedule) (phase : Phase) (currentPriceId newPriceId : string) : ScheduleUpdateParams :=
  {| su_metadata := <["unkey_change"%string := API_PLAN_DOWNGRADE]> (Js.coalesce (schedule_metadata schedule) ∅);
     su_phases := [{| pp_items := phaseItems (phase_items phase) None; pp_dates := Some (start_date phase, end_date phase) |};
                   {| pp_items := phaseItems (phase_items phase) (Some (currentPriceId, newPriceId)); pp_dates := None |}] |}.

(** The body of the [try]: the time at which the change takes effect. *)
Definition configure_downgrade (schedule : Schedule) (currentPriceId newPriceId : string) : M Z :=
  match find_current_phase schedule with
  | None => throw (OtherError "Stripe did not return the current subscription schedule phase.")
  | Some phase =>
      if negb (existsb (fun item => String.eqb (ref_id (phase_price item)) currentPriceId) (phase_items phase)) then
        throw (OtherError "The current API price was not found in the subscription schedule.")
      else
        call (SchedulesUpdate (schedule_id schedule) (downgrade_params schedule phase currentPriceId newPriceId)) ;;
        ret (end_date phase * 1000)
  end.

Definition scheduleApiPlanDowngrade (subscriptionId : string) (existing : option (Ref Schedule))
    (currentPriceId newPriceId : string) : M Z :=
  match existing with
  | Some ref =>
      schedule <- retrieveSchedule ref ;;
      assertManagedSchedule schedule ;;
      configure_downgrade schedule currentPriceId newPriceId
  | None =>
      schedule <- call (SchedulesCreate subscriptionId) ;;
      catch (configure_downgrade schedule currentPriceId newPriceId)
        (fun error => call (SchedulesRelease (schedule_id schedule)) ;; throw error)
  end.

Definition releaseScheduledApiPlanDowngrade (scheduleReference : Ref Schedule) : M unit :=
  schedule <- retrieveSchedule scheduleReference ;;
  assertManagedSchedule schedule ;;
  call (SchedulesRelease (schedule_id schedule)) ;; ret tt.

(** ** Facts *)

Definition is_session_create (c : Call) : bool := match c with SessionsCreate _ _ => true | _ => false end.

Section CheckoutFacts.

Context (sha256_hex : string -> string) (input : SubscriptionCheckoutInput) (env : Env).

(** ** Where a checkout may lead

    Stripe answers a creation under an idempotency key that it has seen with the
    session as it was then. What it answers to such a creation is therefore no
    evidence that the session can still be paid; what it answers to a later read is. *)

Section Vouched.

Context (from upto : list Call).

(** In this run the session was read and cannot be paid any more: it is neither open nor
    complete with a subscription that lives. *)
Definition spent (id : string) : Prop :=
  exists live, replied env from upto (SessionsRetrieve id) live
    /\ session_status live <> Some "open"%string
    /\ (session_status live = Some "complete"%string ->
        match option_map ref_id (session_subscription live) with
        | None => True
        | Some sid => sid = EmptyString
            \/ exists sub, replied env from upto (SubscriptionsRetrieve sid) sub
                 /\ (status sub = "canceled"%string \/ status sub = "incomplete_expired"%string)
        end).

(** The keys under which a session is created: the first is made of the caller's key and
    the parameters, and each next one of the session that was created under the one
    before and is spent. *)
Inductive next_key (base : string) : nat -> string -> Prop :=
| first_key : next_key base 0 base
| later_key n key s :
    next_key base n key -> replied env from upto (SessionsCreate (session_params input) (Some key)) s -> spent (session_id s) ->
    next_key base (S n) (base +:+ ":retry:" +:+ fingerprint sha256_hex (key +:+ ":" +:+ session_id s)).

(** The destination of a checkout with idempotency key [own]: a session that was created
    under one of these keys and then read as open, the success page of one that was read
    as complete with a subscription that lives, or, after three that were spent, the
    session of the key that they make. *)
Definition vouched_under (own : string) (dest : SubscriptionCheckoutDestination) : Prop :=
  let base := own +:+ ":" +:+ fingerprint sha256_hex (stringify (session_params input)) in
  exists n key s, next_key base n key /\ replied env from upto (SessionsCreate (session_params input) (Some key)) s
    /\ match dest with
       | CheckoutAt live =>
           n = 3%nat /\ live = s
           \/ (n < 3)%nat /\ replied env from upto (SessionsRetrieve (session_id s)) live /\ session_status live = Some "open"%string
       | SuccessAt url =>
           exists live sid sub, (n < 3)%nat /\ replied env from upto (SessionsRetrieve (session_id s)) live
             /\ session_status live = Some "complete"%string /\ option_map ref_id (session_subscription live) = Some sid
             /\ replied env from upto (SubscriptionsRetrieve sid) sub
             /\ status sub <> "canceled"%string /\ status sub <> "incomplete_expired"%string
             /\ url = replace_first "{CHECKOUT_SESSION_ID}" (session_id live) (ci_successUrl input)
       end.

(** The destination is vouched for by Stripe. Without an idempotency key nothing is
    replayed, and the session is the one just created. *)
Definition vouched (dest : SubscriptionCheckoutDestination) : Prop :=
  match ci_idempotencyKey input with
  | Some (String _ _ as own) => vouched_under own dest
  | _ => exists s, replied env from upto (SessionsCreate (session_params input) None) s /\ dest = CheckoutAt s
  end.

End Vouched.

Lemma spent_more from upto upto' id : upto `prefix_of` upto' -> spent from upto id -> spent from upto' id.
Proof.
  intros Hp (live & Hl & Ho & Hc). exists live. split; [by eapply replied_more|]. split; [done|]. intros E. specialize (Hc E).
  destruct (option_map _ _); [|done]. destruct Hc as [->|(sub & Hs & Hd)]; [by left|right]. exists sub. split; [by eapply replied_more|done].
Qed.

Lemma next_key_more from upto upto' base n key :
  upto `prefix_of` upto' -> next_key from upto base n key -> next_key from upto' base n key.
Proof.
  intros Hp. induction 1 as [|n key s _ IH Hs Hd]; [constructor|].
  apply later_key; [done|by eapply replied_more|by eapply spent_more].
Qed.

Lemma dead_spelled sub :
  if isDeadSubscription sub then status sub = "canceled"%string \/ status sub = "incomplete_expired"%string
  else status sub <> "canceled"%string /\ status sub <> "incomplete_expired"%string.
Proof.
  unfold isDeadSubscription. destruct (String.eqb_spec (status sub) "canceled"); cbn; [by left|].
  destruct (String.eqb_spec (status sub) "incomplete_expired"); [by right|done].
Qed.

Lemma settle_session_vouched n k own key session w dest w' from :
  let base := own +:+ ":" +:+ fingerprint sha256_hex (stringify (session_params input)) in
  settle_session sha256_hex n input base key session env w = (Ret dest, w') -> (n + k = 3)%nat -> from `prefix_of` trace w ->
  next_key from (trace w) base k key -> replied env from (trace w) (SessionsCreate (session_params input) (Some key)) session ->
  vouched_under from (trace w') own dest.
Proof.
  intros base. revert k key session w. induction n as [|n IH]; intros k key session w H Hn Hp Hk Hs.
  { cbn [settle_session] in H. apply ret_ret in H as [-> ->]. cbn in Hn. subst k. exists 3%nat, key, session. split; [done|]. split; [done|]. by left. }
  cbn [settle_session] in H. apply bind_ret in H as (live & w1 & Hl & H).
  destruct (replied_call _ _ _ _ _ from Hl Hp) as (Hl1 & P1 & _). assert (Hp1 : from `prefix_of` trace w1) by (by etrans).
  cbv zeta in H.
  assert (Hretry : forall w2, trace w1 `prefix_of` trace w2 -> spent from (trace w2) (session_id session) ->
    (next <- call (SessionsCreate (session_params input)
       (Some (base +:+ ":retry:" +:+ fingerprint sha256_hex (key +:+ ":" +:+ session_id session)))) ;;
     settle_session sha256_hex n input base
       (base +:+ ":retry:" +:+ fingerprint sha256_hex (key +:+ ":" +:+ session_id session)) next) env w2 = (Ret dest, w') ->
    vouched_under from (trace w') own dest).
  { intros w2 P2 Hd H2. apply bind_ret in H2 as (next & w3 & Hc & H2). assert (P : trace w `prefix_of` trace w2) by (by etrans).
    destruct (replied_call _ _ _ _ _ from Hc ltac:(by etrans)) as (Hc3 & P3 & _).
    apply (IH (S k) _ next w3) in H2; [done|lia|by do 2 etrans| |done].
    apply later_key; [eapply next_key_more; [|exact Hk]|eapply replied_more; [|exact Hs]|by eapply spent_more]; by etrans. }
  destruct (Js.eq_ostring (session_status live) "open") eqn:Eo.
  { apply ret_ret in H as [-> ->]. exists k, key, session.
    split; [exact (next_key_more _ _ _ _ _ _ P1 Hk)|]. split; [exact (replied_more _ _ _ _ _ _ P1 Hs)|]. right. split; [lia|]. split; [done|].
    destruct (session_status live) as [s|]; [|done]. by apply String.eqb_eq in Eo as ->. }
  assert (Ho : session_status live <> Some "open"%string) by (intros E; by rewrite E in Eo).
  destruct (Js.eq_ostring (session_status live) "complete") eqn:Ec.
  2: { apply (Hretry w1); [done| |done]. exists live. split; [done|]. split; [done|]. intros E. by rewrite E in Ec. }
  assert (Ecs : session_status live = Some "complete"%string)
    by (destruct (session_status live) as [s|]; [|done]; by apply String.eqb_eq in Ec as ->).
  destruct (option_map ref_id (session_subscription live)) as [sid|] eqn:Es.
  2: { apply (Hretry w1); [done| |done]. exists live. rewrite Es. auto. }
  destruct (Js.truthy_string sid) eqn:Et.
  2: { apply (Hretry w1); [done| |done]. exists live. rewrite Es. split; [done|]. split; [done|]. left. by destruct sid. }
  apply bind_ret in H as (sub & w2 & Hsub & H). destruct (replied_call _ _ _ _ _ from Hsub Hp1) as (Hsub2 & P2 & _).
  pose proof (dead_spelled sub) as Hdead. destruct (isDeadSubscription sub); cbn [negb] in H.
  - apply (Hretry w2); [done| |done]. exists live. rewrite Es. split; [by eapply replied_more|]. split; [done|]. right. by exists sub.
  - apply ret_ret in H as [-> ->]. exists k, key, session. split; [eapply next_key_more; [|exact Hk]; by etrans|].
    split; [eapply replied_more; [|exact Hs]; by etrans|]. exists live, sid, sub. split; [lia|]. split; [by eapply replied_more|].
    destruct Hdead. auto 8.
Qed.

(** At most [n] sessions are created. *)
Definition Creates (n : nat) {A} (m : M A) : Prop :=
  forall w, exists l, trace (snd (m env w)) = trace w ++ l /\ (List.length (List.filter is_session_create l) <= n)%nat.

Lemma Creates_ret n {A} (a : A) : Creates n (ret a).
Proof. intros w. exists []. rewrite app_nil_r. split; [done|simpl; lia]. Qed.

Lemma Creates_call n {A} c (k : Resp c -> M A) :
  is_session_create c = false -> (forall r, Creates n (k r)) -> Creates n (bind (call c) k).
Proof.
  intros Hc Hk w. unfold bind, call. destruct (ask env (trace w) c) as [e|r].
  - exists [c]. split; [done|]. cbn [List.filter]. rewrite Hc. simpl; lia.
  - destruct (Hk r (log_call c w)) as (l & Hl & Hn). exists (c :: l). rewrite Hl. cbn [log_call trace List.filter].
    by rewrite Hc, <- app_assoc.
Qed.

Lemma Creates_create n {A} p key (k : _ -> M A) : (forall r, Creates n (k r)) -> Creates (S n) (bind (call (SessionsCreate p key)) k).
Proof.
  intros Hk w. unfold bind, call. destruct (ask env (trace w) _) as [e|r].
  - exists [SessionsCreate p key]. split; [done|simpl; lia].
  - destruct (Hk r (log_call (SessionsCreate p key) w)) as (l & Hl & Hn).
    exists (SessionsCreate p key :: l). rewrite Hl. cbn [log_call trace List.filter is_session_create List.length].
    rewrite <- app_assoc. split; [done|lia].
Qed.

Lemma Creates_loop n base key session : Creates n (settle_session sha256_hex n input base key session).
Proof.
  revert key session. induction n as [|n IH]; intros key session; [apply Creates_ret|]. cbn [settle_session].
  apply Creates_call; [done|]. intros live. cbv zeta.
  repeat case_match; try apply Creates_ret; try (apply Creates_create; intros; apply IH).
  apply Creates_call; [done|]. intros sub. repeat case_match; [apply Creates_ret|apply Creates_create; intros; apply IH].
Qed.

End CheckoutFacts.

(** ** The properties of the component *)

(** Claim C35. Creating a checkout is bounded and never hands out a session that was
    found dead. It creates at most four sessions. Without an idempotency key the
    destination is the session just created. With one, the answer to a creation may be a
    replay and is not trusted: the destination is a session that Stripe, read again in
    this run, reports as open, or the success page of one that it reports as complete
    with a subscription that lives; only after three sessions that it reports as neither
    is the next one handed out unread, and that one is created under a key made from
    those three. *)
Theorem createSubscriptionCheckout_vouched (sha256_hex : string -> string) (input : SubscriptionCheckoutInput) (env : Env) (w : World) :
  exists l, trace (snd (createSubscriptionCheckout sha256_hex input env w)) = trace w ++ l
    /\ (List.length (List.filter is_session_create l) <= 4)%nat
    /\ forall dest, fst (createSubscriptionCheckout sha256_hex input env w) = Ret dest ->
         vouched sha256_hex input env (trace w) (trace w ++ l) dest.
Proof.
  assert (Hn : Creates env 4 (createSubscriptionCheckout sha256_hex input)).
  { unfold createSubscriptionCheckout. cbv zeta. repeat case_match; apply Creates_create; intros; try apply Creates_ret. apply Creates_loop. }
  destruct (Hn w) as (l & Hl & Hc). exists l. split; [done|]. split; [done|]. intros dest Hd. rewrite <- Hl.
  destruct (createSubscriptionCheckout sha256_hex input env w) as [o w'] eqn:E. cbn [fst snd] in *. subst o.
  assert (Hplain : (session <- call (SessionsCreate (session_params input) None) ;; ret (CheckoutAt session)) env w = (Ret dest, w') ->
    exists s, replied env (trace w) (trace w') (SessionsCreate (session_params input) None) s /\ dest = CheckoutAt s).
  { intros H. apply bind_ret in H as (s & w1 & Hs & H). apply ret_ret in H as [-> ->]. exists s.
    split; [|done]. by apply (replied_call _ _ _ _ _ (trace w) Hs). }
  unfold createSubscriptionCheckout in E. unfold vouched. cbv zeta in E.
  destruct (ci_idempotencyKey input) as [[|ch own]|]; [by apply Hplain| |by apply Hplain].
  cbn [Js.truthy_string] in E. apply bind_ret in E as (s & w1 & Hs & E).
  destruct (replied_call _ _ _ _ _ (trace w) Hs ltac:(done)) as (Hs1 & P1 & _).
  eapply (settle_session_vouched _ _ _ 3 0); [exact E|done|done|apply first_key|done].
Qed.

Section ScheduleFacts.

Context (schedule : Schedule) (currentPriceId newPriceId : string) (env : Env).

Lemma configure_run w :
  (exists e w2 l, configure_downgrade schedule currentPriceId newPriceId env w = (Throw e, w2) /\ trace w2 = trace w ++ l)
  \/ exists phase w2, find_current_phase schedule = Some phase
      /\ configure_downgrade schedule currentPriceId newPriceId env w = (Ret (end_date phase * 1000), w2)
      /\ trace w2 = trace w ++ [SchedulesUpdate (schedule_id schedule)
                                  (downgrade_params schedule phase currentPriceId newPriceId)].
Proof.
  unfold configure_downgrade. destruct (find_current_phase schedule) as [phase|].
  2: { left. do 2 eexists. exists []. by rewrite app_nil_r. }
  destruct (negb _); [left; do 2 eexists; exists []; by rewrite app_nil_r|].
  unfold bind, call. destruct (ask env (trace w) (SchedulesUpdate _ _)) as [e|[]]; [left|right].
  - by do 3 eexists.
  - by exists phase; eexists.
Qed.

Lemma release_run id e w : exists o, (call (SchedulesRelease id) ;; throw (A := Z) e) env w
  = (Throw o, log_call (SchedulesRelease id) w).
Proof. unfold bind, call. destruct (ask env (trace w) (SchedulesRelease id)) as [e'|[]]; [by exists e'|by exists e]. Qed.

End ScheduleFacts.

(** Scheduling a downgrade leaves no half-made schedule and touches no
    foreign one: a schedule that is not marked as ours is neither updated nor
    released; when the schedule was created here and anything then fails, its
    release is the last call made; and a success takes effect at the end of the
    current phase, whose items are sent unchanged. *)
Theorem scheduleApiPlanDowngrade_safe (subscriptionId currentPriceId newPriceId : string) (existing : option (Ref Schedule))
    (env : Env) (w : World) :
  let run := scheduleApiPlanDowngrade subscriptionId existing currentPriceId newPriceId env w in
  match existing with
  | Some (RObj schedule) =>
      is_managed schedule = false -> run = (Throw ScheduleConflict, w)
  | Some (RId id) =>
      forall schedule, ask env (trace w) (SchedulesRetrieve id) = inr schedule -> is_managed schedule = false ->
      run = (Throw ScheduleConflict, log_call (SchedulesRetrieve id) w)
  | None =>
      forall schedule, ask env (trace w) (SchedulesCreate subscriptionId) = inr schedule ->
      match fst run with
      | Throw _ => exists l, trace (snd run) = trace w ++ l ++ [SchedulesRelease (schedule_id schedule)]
      | Ret effectiveAt =>
          exists phase, find_current_phase schedule = Some phase /\ effectiveAt = end_date phase * 1000
          /\ trace (snd run) = trace w ++ [SchedulesCreate subscriptionId;
               SchedulesUpdate (schedule_id schedule) (downgrade_params schedule phase currentPriceId newPriceId)]
          /\ map pp_items (su_phases (downgrade_params schedule phase currentPriceId newPriceId))
             = [map (fun i => (ref_id (phase_price i), phase_quantity i)) (phase_items phase);
                map (fun i => (if String.eqb (ref_id (phase_price i)) currentPriceId then newPriceId
                               else ref_id (phase_price i), phase_quantity i)) (phase_items phase)]
      end
  end.
Proof.
  cbv zeta. destruct existing as [[id|schedule]|].
  - intros schedule Hs Hm. unfold scheduleApiPlanDowngrade, retrieveSchedule, bind, call. rewrite Hs.
    unfold assertManagedSchedule. by rewrite Hm.
  - intros Hm. unfold scheduleApiPlanDowngrade, retrieveSchedule, assertManagedSchedule, bind, ret. by rewrite Hm.
  - intros schedule Hs.
    assert (Hrun : scheduleApiPlanDowngrade subscriptionId None currentPriceId newPriceId env w
      = catch (configure_downgrade schedule currentPriceId newPriceId)
          (fun error => call (SchedulesRelease (schedule_id schedule)) ;; throw error) env
          (log_call (SchedulesCreate subscriptionId) w))
      by (unfold scheduleApiPlanDowngrade, bind at 1, call at 1; by rewrite Hs).
    rewrite Hrun. unfold catch.
    destruct (configure_run schedule currentPriceId newPriceId env (log_call (SchedulesCreate subscriptionId) w))
      as [(e & w2 & l & -> & Ht)|(phase & w2 & Hp & -> & Ht)].
    + destruct (release_run env (schedule_id schedule) e w2) as [o ->]. cbn [fst snd].
      exists (SchedulesCreate subscriptionId :: l). cbn [log_call trace]. rewrite Ht. cbn [log_call trace].
      by rewrite <- !app_assoc.
    + cbn [fst snd]. exists phase. rewrite Ht. cbn [log_call trace]. by rewrite <- app_assoc.
Qed.
