(* ===== verification/BillingQueries.v ===== *)
(** * Billing queries of the dashboard

    web/apps/dashboard/lib/trpc/routers/utils/stripe.ts, [getStripeClient] of
    lib/stripe.ts and the query procedures of lib/trpc/routers/stripe. A procedure
    is given with its own middleware; [Trpc.workspaceProcedure] supplies its
    context. *)

From Stdlib Require Import ZArith QArith Bool Ascii String Lia.
From stdpp Require Import base list gmap strings.
From S2P Require Import Prelude Tables StripeTypes DeployPlan Effects Fixtures DeployBilling SubscriptionUtils DeployCredits BillingOps Trpc LinkSubscription.

Local Open Scope Z_scope.

(** ** Shared helpers *)

Definition getStripeClient : M unit :=
  e <- stripeEnv ;;
  match e with
  | Some _ => ret tt
  | None => throw (TRPCError "INTERNAL_SERVER_ERROR" "Stripe is not configured")
  end.

(** [sub.items.data]. *)
Definition items_data (sub : Subscription) : M (list SubscriptionItem) :=
  match items sub with
  | Some l => ret l
  | None => throw (OtherError "TypeError: sub.items is undefined")
  end.

(** The plan card of a product; [dollar] is [unit_amount / 100]. *)
Record ProductCard := {
  pc_id : string;
  pc_name : string;
  pc_priceId : string;
  pc_dollar : Q;
  pc_requestsPerMonth : Z;
}.

Definition mapProduct (p : Product) : M ProductCard :=
  match default_price p with
  | None => throw (OtherError ("Product " +:+ product_id p +:+ " is missing default_price"))
  | Some (RId _) => throw (OtherError ("Product " +:+ product_id p +:+ " default_price must be expanded"))
  | Some (RObj price) =>
      match dp_unit_amount price with
      | None => throw (OtherError ("Product " +:+ product_id p +:+ " price is missing unit_amount"))
      | Some amount =>
          let quotaRaw := product_metadata p !! "quota_requests_per_month"%string in
          let invalid := throw (OtherError ("Product " +:+ product_id p
            +:+ " metadata.quota_requests_per_month must be a non-empty string of digits, got: "
            +:+ Js.coalesce quotaRaw "undefined"%string)) in
          match quotaRaw with
          | None => invalid
          | Some raw =>
              if negb (ClientIp.all_digits raw) then invalid
              else match Num.parseInt raw with
                   | None => invalid
                   | Some quotaValue =>
                       ret {| pc_id := product_id p; pc_name := product_name p; pc_priceId := dp_id price;
                              pc_dollar := amount # 100; pc_requestsPerMonth := quotaValue |}
                   end
          end
      end
  end.

(** [expandableId]; the empty string is falsy. *)
Definition expandableId {A} `{HasId A} (value : option (Ref A)) : option string :=
  match value with
  | Some (RId s) => if Js.truthy_string s then Some s else None
  | Some (RObj o) => Some (get_id o)
  | None => None
  end.

(** ** Errors of Stripe *)

Definition isStripeNotFound (code : option string) (statusCode : option Z) : bool :=
  match statusCode with Some 404 => true | _ => Js.eq_ostring code "resource_missing" end.

Definition stripeErrorCode (kind : StripeErrorKind) (code : option string) (statusCode : option Z) : string :=
  match kind with
  | AuthenticationError => "UNAUTHORIZED"
  | RateLimitError => "TOO_MANY_REQUESTS"
  | InvalidRequestError => "BAD_REQUEST"
  | PermissionError => "FORBIDDEN"
  | _ => if isStripeNotFound code statusCode then "NOT_FOUND" else "INTERNAL_SERVER_ERROR"
  end.

Definition STRIPE_REQUEST_FAILED : string := "The billing provider rejected the request. Please try again.".

Definition throwRedactedStripeError {A} (kind : StripeErrorKind) (code : option string) (statusCode : option Z)
    (message : string) : M A :=
  throw (TRPCError (stripeErrorCode kind code statusCode) message).

Definition throwMaskedStripeError {A} (kind : StripeErrorKind) (code : option string) (statusCode : option Z)
    (notFoundMessage : string) : M A :=
  if negb (match kind with PermissionError => true | _ => false end) && isStripeNotFound code statusCode then
    throw (TRPCError "NOT_FOUND" notFoundMessage)
  else throwRedactedStripeError kind code statusCode STRIPE_REQUEST_FAILED.

(** ** Checkout sessions *)

Definition retrieveWorkspaceCheckoutSession (sessionId workspaceId notFoundMessage : string) : M Session :=
  session <- catch (call (SessionsRetrieve sessionId)) (fun error =>
    match error with
    | StripeError kind code statusCode _ => throwMaskedStripeError kind code statusCode notFoundMessage
    | _ => throw (TRPCError "INTERNAL_SERVER_ERROR" "Failed to retrieve checkout session")
    end) ;;
  if negb (Js.eq_ostring (client_reference_id session) workspaceId) then throw (TRPCError "NOT_FOUND" notFoundMessage)
  else ret session.

Definition retrieveCompletedWorkspaceCheckoutSession (sessionId workspaceId notFoundMessage : string) : M Session :=
  session <- retrieveWorkspaceCheckoutSession sessionId workspaceId notFoundMessage ;;
  if negb (Js.eq_ostring (session_status session) "complete") then
    throw (TRPCError "PRECONDITION_FAILED" "Checkout has not been completed")
  else ret session.

Record CheckoutSessionView := {
  cs_id : string;
  cs_customer : option string;
  cs_client_reference_id : option string;
  cs_setup_intent : option string;
  cs_subscription : option string;
  cs_mode : string;
  cs_payment_status : string;
  cs_status : string;
}.

Definition getCheckoutSession (sessionId : string) : WCtx -> M CheckoutSessionView :=
  withRatelimit "trpc_read" (fun c =>
    getStripeClient ;;
    session <- retrieveWorkspaceCheckoutSession sessionId (cw_id (c_workspace c)) "Checkout session not found" ;;
    ret {| cs_id := session_id session; cs_customer := expandableId (session_customer session);
           cs_client_reference_id := client_reference_id session;
           cs_setup_intent := expandableId (setup_intent session);
           cs_subscription := expandableId (session_subscription session); cs_mode := mode session;
           cs_payment_status := payment_status session;
           cs_status := Js.or_string (session_status session) EmptyString |}).

Record SetupIntentView := {
  si_id : string;
  si_payment_method : option string;
  si_status : string;
  si_usage : string;
}.

Definition SETUP_INTENT_NOT_FOUND : string := "Setup intent not found".

(** The customer the caller may read a setup intent of. *)
Definition allowed_customer (c : WCtx) (setupIntentId : string) (sessionId : option string) : M (option string) :=
  if Js.truthy sessionId then
    session <- retrieveWorkspaceCheckoutSession (Js.coalesce sessionId EmptyString) (cw_id (c_workspace c))
                 SETUP_INTENT_NOT_FOUND ;;
    if negb (Js.eq_ostring (expandableId (setup_intent session)) setupIntentId) then
      throw (TRPCError "NOT_FOUND" SETUP_INTENT_NOT_FOUND)
    else ret (expandableId (session_customer session))
  else if Js.truthy (cw_stripeCustomerId (c_workspace c)) then ret (cw_stripeCustomerId (c_workspace c))
  else ret None.

Definition getSetupIntent (setupIntentId : string) (sessionId : option string) : WCtx -> M SetupIntentView :=
  requireWorkspaceAdmin (withRatelimit "trpc_read" (fun c =>
    getStripeClient ;;
    allowed <- allowed_customer c setupIntentId sessionId ;;
    match allowed with
    | None => throw (TRPCError "NOT_FOUND" SETUP_INTENT_NOT_FOUND)
    | Some allowedCustomerId =>
        if negb (Js.truthy_string allowedCustomerId) then throw (TRPCError "NOT_FOUND" SETUP_INTENT_NOT_FOUND)
        else
          catch (
            setupIntent <- call (SetupIntentsRetrieve setupIntentId) ;;
            if negb (Js.eq_ostring (expandableId (setup_intent_customer setupIntent)) allowedCustomerId) then
              throw (TRPCError "NOT_FOUND" SETUP_INTENT_NOT_FOUND)
            else
              ret {| si_id := setup_intent_id setupIntent;
                     si_payment_method := expandableId (setup_intent_payment_method setupIntent);
                     si_status := setup_intent_status setupIntent; si_usage := setup_intent_usage setupIntent |})
            (fun error =>
               match error with
               | TRPCError _ _ => throw error
               | StripeError kind code statusCode _ => throwMaskedStripeError kind code statusCode SETUP_INTENT_NOT_FOUND
               | _ => throw (TRPCError "INTERNAL_SERVER_ERROR" "Failed to retrieve setup intent")
               end)
    end)).

Definition resolveSubscriptionPaymentUrl (subscriptionId customerId : string) : M string :=
  subscription <- catch (call (SubscriptionsRetrieve subscriptionId)) (fun error =>
    if resource_missing error then throw (TRPCError "NOT_FOUND" "The pending subscription payment no longer exists.")
    else throw error) ;;
  if negb (Js.eq_ostring (option_map ref_id (sub_customer subscription)) customerId) then
    throw (TRPCError "NOT_FOUND" "The pending subscription payment could not be found.")
  else if negb (Js.includes ["incomplete"; "past_due"; "unpaid"]%string (status subscription)) then
    throw (TRPCError "PRECONDITION_FAILED" "This subscription does not have a payment requiring action.")
  else
    match hostedInvoiceUrl subscription with
    | Some paymentUrl =>
        if Js.truthy_string paymentUrl then ret paymentUrl
        else throw (TRPCError "PRECONDITION_FAILED" "Stripe does not have an open invoice for this subscription.")
    | None => throw (TRPCError "PRECONDITION_FAILED" "Stripe does not have an open invoice for this subscription.")
    end.

Definition getSubscriptionPaymentUrl : WCtx -> M string :=
  requireWorkspaceAdmin (fun c =>
    let ws := c_workspace c in
    if negb (Js.truthy (cw_stripeSubscriptionId ws)) || negb (Js.truthy (cw_stripeCustomerId ws)) then
      throw (TRPCError "PRECONDITION_FAILED" "No pending subscription payment was found.")
    else
      getStripeClient ;;
      resolveSubscriptionPaymentUrl (Js.coalesce (cw_stripeSubscriptionId ws) EmptyString)
        (Js.coalesce (cw_stripeCustomerId ws) EmptyString)).

(** ** The catalog *)

(** Stable sort by price: [sort((a, b) => a.dollar - b.dollar)]. *)
Fixpoint insert_card (p : ProductCard) (l : list ProductCard) : list ProductCard :=
  match l with
  | [] => [p]
  | x :: l' => if Qle_bool (pc_dollar p) (pc_dollar x) then p :: l else x :: insert_card p l'
  end.

Definition sort_cards (l : list ProductCard) : list ProductCard := List.fold_right insert_card [] l.

(** [res.data.map(mapProduct)]: the first product that is malformed throws. *)
Fixpoint map_products (l : list Product) : M (list ProductCard) :=
  match l with
  | [] => ret []
  | p :: l' => card <- mapProduct p ;; cards <- map_products l' ;; ret (card :: cards)
  end.

(** [item?.price.product] as a product id. *)
Definition item_product_id (item : option SubscriptionItem) : M (option string) :=
  match item with
  | None => ret None
  | Some item =>
      match item_price item with
      | None => throw (OtherError "TypeError: item.price is undefined")
      | Some price => ret (option_map ref_id (price_product price))
      end
  end.

(** The product of the subscription when it is one of the enterprise products. *)
Definition enterprise_product (e : StripeEnv) (currentProductId : option string) : option string :=
  if Js.truthy currentProductId
     && Js.includes (STRIPE_PRODUCT_IDS_ENTERPRISE e) (Js.coalesce currentProductId EmptyString)
  then currentProductId else None.

Definition list_products (e : StripeEnv) (enterpriseProductId : option string) : M (list ProductCard) :=
  let productIds := if Js.truthy enterpriseProductId
                    then STRIPE_PRODUCT_IDS_PRO e ++ [Js.coalesce enterpriseProductId EmptyString]
                    else STRIPE_PRODUCT_IDS_PRO e in
  data <- call (ProductsList productIds) ;;
  cards <- map_products data ;;
  ret (sort_cards cards).

Definition getProducts : WCtx -> M (list ProductCard) :=
  withRatelimit "trpc_read" (fun c =>
    getStripeClient ;;
    e <- stripeEnv ;;
    match e with
    | None => throw (TRPCError "INTERNAL_SERVER_ERROR" "Stripe is not configured")
    | Some e =>
        enterpriseProductId <-
          (if Js.truthy (cw_stripeSubscriptionId (c_workspace c)) then
             catch (
               both_ <- both (call (SubscriptionsRetrieve (Js.coalesce (cw_stripeSubscriptionId (c_workspace c)) EmptyString)))
                          deployBillingConfig ;;
               let '(subscription, config) := both_ in
               data <- items_data subscription ;;
               currentProductId <- item_product_id (findApiItem config data) ;;
               ret (enterprise_product e currentProductId))
               (fun _ => ret None)
           else ret None) ;;
        list_products e enterpriseProductId
    end).

Record SubscriptionView := { sv_id : string; sv_status : string; sv_cancelAt : option Z }.

Record BillingInfo := {
  bi_products : list ProductCard;
  bi_subscription : option SubscriptionView;
  bi_hasPreviousSubscriptions : bool;
  bi_currentProductId : option string;
}.

(** The recorded subscription, unless Stripe no longer has it, and its API product. *)
Definition subscription_state (recorded : option string) : M (option Subscription * option string) :=
  if Js.truthy recorded then
    both_ <- both (retrieve_or_null (call (SubscriptionsRetrieve (Js.coalesce recorded EmptyString)))) deployBillingConfig ;;
    let '(subscription, config) := both_ in
    match subscription with
    | None => ret (None, None)
    | Some sub =>
        data <- items_data sub ;;
        currentProductId <- item_product_id (findApiItem config data) ;;
        ret (Some sub, currentProductId)
    end
  else ret (None, None).

Definition getBillingInfo : WCtx -> M BillingInfo :=
  withRatelimit "trpc_read" (fun c =>
    getStripeClient ;;
    e <- stripeEnv ;;
    match e with
    | None => throw (TRPCError "INTERNAL_SERVER_ERROR" "Stripe is not configured")
    | Some e =>
        state <- settle (subscription_state (cw_stripeSubscriptionId (c_workspace c))) ;;
        previous <- settle (
          if Js.truthy (cw_stripeCustomerId (c_workspace c)) then
            l <- call (SubscriptionsListCanceled (Js.coalesce (cw_stripeCustomerId (c_workspace c)) EmptyString)) ;;
            ret (Nat.ltb 0 (List.length l))
          else ret false) ;;
        products <- (match state with
                     | inl err => ret (inl err)
                     | inr (_, currentProductId) => settle (list_products e (enterprise_product e currentProductId))
                     end) ;;
        match state, previous, products with
        | inl err, _, _ => throw err
        | _, inl err, _ => throw err
        | _, _, inl err => throw err
        | inr (subscription, currentProductId), inr hasPreviousSubscriptions, inr products =>
            ret {| bi_products := products;
                   bi_subscription := option_map (fun s =>
                     {| sv_id := sub_id s; sv_status := status s;
                        sv_cancelAt := if Js.truthy_oZ (cancel_at s) then option_map (fun t => t * 1000) (cancel_at s)
                                       else None |}) subscription;
                   bi_hasPreviousSubscriptions := hasPreviousSubscriptions;
                   bi_currentProductId := currentProductId |}
        end
    end).

(** ** Compute *)

Record DeployPlanOption := {
  dpo_plan : DeployPlan;
  dpo_name : string;
  dpo_description : option string;
  dpo_amount : option Z;
  dpo_currency : string;
  dpo_interval : option string;
}.

Definition plan_option (config : DeployBillingConfig) (p : DeployPlan) : M DeployPlanOption :=
  price <- call (PricesRetrieve (planFeePriceIds config p)) ;;
  match price_product price with
  | None => throw (OtherError "TypeError: price.product is null")
  | Some product =>
      let resolvedProduct := match product with
                             | RObj o => if product_deleted o then None else Some o
                             | RId _ => None
                             end in
      ret {| dpo_plan := p; dpo_name := Js.coalesce (option_map product_name resolvedProduct) (plan_name p);
             dpo_description := resolvedProduct ≫= product_description; dpo_amount := unit_amount price;
             dpo_currency := price_currency price; dpo_interval := recurring_interval price |}
  end.

(** [None] is [configured: false]. *)
Definition getDeployPlans : WCtx -> M (option (list DeployPlanOption)) := fun _ =>
  config <- deployBillingConfig ;;
  match config with
  | None => ret None
  | Some config => getStripeClient ;; plans <- map_all (plan_option config) DEPLOY_PLANS ;; ret (Some plans)
  end.

Definition getDeploySubscription : WCtx -> M (option DeployPlan) := fun c =>
  ret (match cw_deployPlan (c_workspace c) with
       | Some raw => if Js.truthy_string raw then isDeployPlan raw else None
       | None => None
       end).

Definition getDeployEntitlement : WCtx -> M bool := fun c =>
  ret (Js.truthy (cw_deployPlan (c_workspace c)) || Js.truthy (cw_deployPlanOverride (c_workspace c))).

Definition CREDIT_CACHE_TTL_MS : Z := 60 * 1000.

Definition get_credits : M (gmap string (Z * Z)) := fun _ w => (Ret (credits w), w).

Definition set_credit (customerId : string) (entry : Z * Z) : M unit := fun _ w =>
  (Ret tt, {| db := db w; trace := trace w; cache := cache w; pending := pending w;
              credits := <[customerId := entry]> (credits w); jar := jar w; local_org := local_org w |}).

Definition getDeployCredit : WCtx -> M (option Z) :=
  withRatelimit "trpc_read" (fun c =>
    match cw_stripeCustomerId (c_workspace c) with
    | Some customerId =>
        if negb (Js.truthy_string customerId) then ret None
        else
          now <- date_now ;;
          cached <- get_credits ;;
          let refresh :=
            getStripeClient ;;
            cents <- deployIncludedCreditCents customerId ;;
            set_credit customerId (now + CREDIT_CACHE_TTL_MS, cents) ;;
            ret (Some cents) in
          match cached !! customerId with
          | Some (expiresAt, cents) => if now <? expiresAt then ret (Some cents) else refresh
          | None => refresh
          end
    | None => ret None
    end).

Record InvoiceHalf := {
  ih_periodStart : Z;
  ih_periodEnd : Z;
  ih_total : Z;
  ih_currency : string;
}.

(** ["code" in err && err.code === "invoice_upcoming_none"]. *)
Definition no_upcoming_invoice (err : Exn) : bool :=
  match err with
  | StripeError _ code _ _ => Js.eq_ostring code "invoice_upcoming_none"
  | TRPCError code _ => String.eqb code "invoice_upcoming_none"
  | _ => false
  end.

Definition preview (customerId : string) (subscriptionId : option string) : M (option InvoicePreview) :=
  match subscriptionId with
  | Some id =>
      if Js.truthy_string id then
        catch (i <- call (InvoicesCreatePreview customerId id) ;; ret (Some i))
          (fun err => if no_upcoming_invoice err then ret None else throw err)
      else ret None
  | None => ret None
  end.

(** The metered lines of the preview. *)
Definition usage_amount (config : DeployBillingConfig) (invoice : InvoicePreview) : Z :=
  List.fold_left (fun sum line => sum + line_amount line)
    (List.filter (fun line => match line_price line with
                              | Some priceId => Js.includes (meteredPriceIds config) priceId
                              | None => false
                              end) (preview_lines invoice)) 0.

Definition invoice_half (i : InvoicePreview) : InvoiceHalf :=
  {| ih_periodStart := period_start i * 1000; ih_periodEnd := period_end i * 1000; ih_total := preview_total i;
     ih_currency := preview_currency i |}.

(** The API half, and the Compute half with its usage. *)
Definition getUpcomingInvoice : WCtx -> M (option (option InvoiceHalf * option (InvoiceHalf * option Z))) :=
  withRatelimit "trpc_read" (fun c =>
    let ws := c_workspace c in
    match cw_stripeCustomerId ws with
    | Some customerId =>
        if negb (Js.truthy_string customerId) then ret None
        else
          getStripeClient ;;
          all <- both (if Js.truthy (cw_stripeDeploySubscriptionId ws) then deployBillingConfig else ret None)
                   (both (preview customerId (cw_stripeSubscriptionId ws))
                         (preview customerId (cw_stripeDeploySubscriptionId ws))) ;;
          let '(config, (apiInvoice, deployInvoice)) := all in
          ret (Some (option_map invoice_half apiInvoice,
                     option_map (fun i => (invoice_half i, option_map (fun cfg => usage_amount cfg i) config)) deployInvoice))
    | None => ret None
    end).

(** ** Classes *)

Section QueryClasses.

Lemma ReadOnly_getStripeClient : ReadOnly getStripeClient.
Proof. unfold getStripeClient. effects. Qed.

Lemma Emits_getStripeClient P : Emits P getStripeClient.
Proof. unfold getStripeClient. effects. Qed.

Lemma ReadOnly_items_data sub : ReadOnly (items_data sub).
Proof. unfold items_data. effects. Qed.

Lemma Emits_items_data P sub : Emits P (items_data sub).
Proof. unfold items_data. effects. Qed.

Lemma ReadOnly_session id ws msg : ReadOnly (retrieveWorkspaceCheckoutSession id ws msg).
Proof. unfold retrieveWorkspaceCheckoutSession, throwMaskedStripeError, throwRedactedStripeError. effects. Qed.

End QueryClasses.

#[export] Hint Resolve ReadOnly_getStripeClient Emits_getStripeClient ReadOnly_items_data Emits_items_data
  ReadOnly_session ReadOnly_deployBillingConfig : effects.

(** ** A session id does not reveal whether it exists *)

(** A session the workspace must not see: Stripe has none under the id, or it was
    created for another workspace. *)
Definition unseen (workspaceId : string) (answer : Exn + Session) : Prop :=
  match answer with
  | inl (StripeError kind code statusCode _) =>
      kind <> PermissionError /\ isStripeNotFound code statusCode = true
  | inl _ => False
  | inr s => client_reference_id s <> Some workspaceId
  end.

(** Two environments that answer alike, except for the session. *)
Record SameButSession (sessionId : string) (env1 env2 : Env) : Prop := {
  same_stripe_env : stripe_env env1 = stripe_env env2;
  same_app_env : app_env env1 = app_env env2;
  same_ask : forall tr c, c <> SessionsRetrieve sessionId -> ask env1 tr c = ask env2 tr c;
}.

Section Probing.

Context (sessionId : string) (c : WCtx) (env1 env2 : Env).
Context (Hsame : SameButSession sessionId env1 env2).
Context (Hunseen1 : forall tr, unseen (cw_id (c_workspace c)) (ask env1 tr (SessionsRetrieve sessionId))).
Context (Hunseen2 : forall tr, unseen (cw_id (c_workspace c)) (ask env2 tr (SessionsRetrieve sessionId))).

(** The same run in both environments. *)
Definition Same {A} (m : M A) : Prop := forall w, m env1 w = m env2 w.

Lemma Same_bind {A B} (m : M A) (k : A -> M B) : Same m -> (forall a, Same (k a)) -> Same (bind m k).
Proof. intros Hm Hk w. unfold bind. rewrite Hm. destruct (m env2 w) as [[a|e] w']; [apply Hk|done]. Qed.

Lemma Same_ratelimit {A} ns (h : WCtx -> M A) : Same (h c) -> Same (withRatelimit ns h c).
Proof.
  intros Hh. apply Same_bind; [|intros []; [done|by intros w]].
  intros w. unfold limit_allows, bind, appEnv. rewrite (same_app_env _ _ _ Hsame). destruct (Js.truthy _); [|done].
  unfold catch, call. by rewrite (same_ask _ _ _ Hsame).
Qed.

Lemma Same_admin {A} (h : WCtx -> M A) : Same (h c) -> Same (requireWorkspaceAdmin h c).
Proof. intros Hh w. unfold requireWorkspaceAdmin. destruct (is_admin _); [apply Hh|done]. Qed.

Lemma Same_client : Same getStripeClient.
Proof. intros w. unfold getStripeClient, bind, stripeEnv. rewrite (same_stripe_env _ _ _ Hsame). by destruct (stripe_env env2). Qed.

(** Both answers end in the same exception. *)
Lemma unseen_refused env msg w :
  (forall tr, unseen (cw_id (c_workspace c)) (ask env tr (SessionsRetrieve sessionId))) ->
  retrieveWorkspaceCheckoutSession sessionId (cw_id (c_workspace c)) msg env w
  = (Throw (TRPCError "NOT_FOUND" msg), log_call (SessionsRetrieve sessionId) w).
Proof.
  intros Hu. specialize (Hu (trace w)). unfold retrieveWorkspaceCheckoutSession, bind, catch, call. cbn [Resp] in *.
  destruct (ask env (trace w) (SessionsRetrieve sessionId)) as [[kind code st m| | | | | | | | |]|s]; simpl in Hu; try done.
  - destruct Hu as [Hk Hn]. unfold throwMaskedStripeError. rewrite Hn. by destruct kind.
  - destruct (client_reference_id s) as [r|] eqn:E; simpl; [|done].
    destruct (String.eqb_spec r (cw_id (c_workspace c))); [congruence|done].
Qed.

Lemma Same_unseen {A} msg (k : Session -> M A) :
  Same (s <- retrieveWorkspaceCheckoutSession sessionId (cw_id (c_workspace c)) msg ;; k s).
Proof. intros w. unfold bind. by rewrite !unseen_refused. Qed.

Lemma Same_unseen_completed {A} msg (k : Session -> M A) :
  Same (s <- retrieveCompletedWorkspaceCheckoutSession sessionId (cw_id (c_workspace c)) msg ;; k s).
Proof. intros w. unfold retrieveCompletedWorkspaceCheckoutSession, bind. by rewrite !unseen_refused. Qed.

End Probing.
