(* ===== verification/BillingRouter.v ===== *)
(** * Billing mutations of the dashboard

    The mutation procedures of web/apps/dashboard/lib/trpc/routers/stripe, each
    with its own middleware. *)

From Stdlib Require Import ZArith QArith Bool Ascii String Lia.
From stdpp Require Import base list gmap strings.
From S2P Require Import Prelude Tables StripeTypes DeployPlan AuthTypes Effects Fixtures DeployBilling SubscriptionUtils BillingOps Trpc LinkSubscription Checkout BillingQueries.

Local Open Scope Z_scope.

Definition BILLING_NOT_CONFIGURED : Exn :=
  TRPCError "INTERNAL_SERVER_ERROR" "Compute billing is not configured.".

(** [requireConfig]: the configuration or an internal error. *)
Definition require_config : M DeployBillingConfig :=
  config <- deployBillingConfig ;;
  match config with Some config => ret config | None => throw BILLING_NOT_CONFIGURED end.

(** [toBillingError]: the error that is thrown for [err]. *)
Definition toBillingError (err : Exn) : Exn :=
  match err with
  | StripeError _ _ _ message =>
      TRPCError "BAD_REQUEST"
        (Js.or_string (Some message) "Payment could not be completed. Please update your payment method and try again.")
  | _ => err
  end.

(** [preserveApiLimits: ctx.workspace.tier !== "Free"]. *)
Definition keeps_api_limits (c : WCtx) : bool := negb (String.eqb (cw_tier (c_workspace c)) "Free").

Definition workspace_log (c : WCtx) (description : string) : UnkeyAuditLog :=
  user_log c (cw_id (c_workspace c)) "workspace.update" description [] None.

(** ** Subscribing to Compute *)

Definition PLAN_TAKEN : Exn :=
  TRPCError "PRECONDITION_FAILED" "Workspace already has a Compute plan. Use change instead.".

(** The live subscription that is cancelling is resumed, at its own tier only. *)
Definition resume_cancelled (config : DeployBillingConfig) (p : DeployPlan) (sub : Subscription) : M unit :=
  if negb (cancel_at_period_end sub) then throw PLAN_TAKEN
  else
    data <- items_data sub ;;
    match findPlanFeeItem config data with
    | None => throw (TRPCError "PRECONDITION_FAILED"
        "Your cancelled Compute subscription has no plan fee to resume. Contact support@unkey.com.")
    | Some (_, current) =>
        if negb (bool_decide (current = p)) then
          throw (TRPCError "PRECONDITION_FAILED"
            ("Your cancelled Compute plan is " +:+ plan_name current +:+ ". Resume it by subscribing to "
             +:+ plan_name current +:+ " again, then switch to " +:+ plan_name p +:+ "."))
        else catch (call (SubscriptionsUpdate (sub_id sub) Resume) ;; ret tt) (fun err => throw (toBillingError err))
    end.

(** The payment method to charge when the customer has no default. *)
Definition resolve_payment_method (customerId : string) : M (option string) :=
  customer <- call (CustomersRetrieve customerId) ;;
  let hasCustomerDefault := negb (customer_deleted customer)
    && (Js.truthy (invoice_default_payment_method customer) || Js.truthy (default_source customer)) in
  if hasCustomerDefault then ret None
  else
    attached <- call (CustomersListPaymentMethods customerId) ;;
    match List.hd_error attached with
    | Some id =>
        if Js.truthy_string id then ret (Some id)
        else throw (TRPCError "BAD_REQUEST" "No payment method on file. Add one to subscribe.")
    | None => throw (TRPCError "BAD_REQUEST" "No payment method on file. Add one to subscribe.")
    end.

(** The loop that replaces a replayed corpse under a fresh key. *)
Fixpoint settle_subscription (attempts : nat) (params : SubscriptionCreateParams) (idempotencyKey : string)
    (sub : Subscription) : M Subscription :=
  match attempts with
  | O => ret sub
  | S attempts' =>
      live <- call (SubscriptionsRetrieve (sub_id sub)) ;;
      if negb (isDeadSubscription live) then ret live
      else
        let key := idempotencyKey +:+ ":" +:+ sub_id live in
        sub' <- call (SubscriptionsCreate params key) ;;
        settle_subscription attempts' params key sub'
  end.

Definition subscribe_key (workspaceId : string) : string := "deploy-subscribe:" +:+ workspaceId.

Definition create_params (config : DeployBillingConfig) (p : DeployPlan) (customerId : string)
    (defaultPaymentMethod : option string) : SubscriptionCreateParams :=
  {| sc_customer := customerId; sc_items := List.map (fun price => (price, None)) (deploySubscriptionItems config p);
     sc_default_payment_method := defaultPaymentMethod |}.

(** A new subscription, charged at once; the id of an active one. *)
Definition create_compute (workspaceId customerId : string) (config : DeployBillingConfig) (p : DeployPlan) : M string :=
  defaultPaymentMethod <- resolve_payment_method customerId ;;
  let params := create_params config p customerId defaultPaymentMethod in
  let key := subscribe_key workspaceId in
  sub <- catch (created <- call (SubscriptionsCreate params key) ;; settle_subscription 3 params key created)
           (fun err => throw (toBillingError err)) ;;
  if negb (String.eqb (status sub) "active") && negb (String.eqb (status sub) "trialing") then
    catch (call (SubscriptionsCancel (sub_id sub)) ;; ret tt) (fun _ => ret tt) ;;
    throw (TRPCError "BAD_REQUEST" ("Subscription was created but is not active (ID: " +:+ sub_id sub
                                    +:+ "). Please contact support."))
  else ret (sub_id sub).

(** Everything after the claim, the body of the [try]. *)
Definition subscribe_body (c : WCtx) (config : DeployBillingConfig) (p : DeployPlan) (customerId : string) : M unit :=
  let ws := c_workspace c in
  existingSub <-
    (if Js.truthy (cw_stripeDeploySubscriptionId ws) then
       recorded <- call (SubscriptionsRetrieve (Js.coalesce (cw_stripeDeploySubscriptionId ws) EmptyString)) ;;
       ret (if isDeadSubscription recorded then None else Some recorded)
     else ret None) ;;
  created <- (match existingSub with
              | Some sub => resume_cancelled config p sub ;; ret None
              | None => id <- create_compute (cw_id ws) customerId config p ;; ret (Some id)
              end) ;;
  transaction (
    exec (UpdateBilling (cw_id ws) (plan_only (Some (plan_name p)))) ;;
    setWorkspaceLimits (cw_id ws) (Some p) (keeps_api_limits c) no_update ;;
    (match created with
     | Some id => if Js.truthy_string id then upsertBillingSubscription (cw_id ws) compute id else ret tt
     | None => ret tt
     end) ;;
    insertAuditLogs [workspace_log c ("Subscribed to Compute " +:+ plan_name p +:+ " plan.")]).

(** The guards before the claim: the configuration and the customer. *)
Definition subscribe_guards (c : WCtx) : M (DeployBillingConfig * string) :=
  let ws := c_workspace c in
  config <- require_config ;;
  match cw_stripeCustomerId ws with
  | Some customerId =>
      if negb (Js.truthy_string customerId) then
        throw (TRPCError "PRECONDITION_FAILED" "Add a payment method before subscribing to a Compute plan.")
      else if Js.truthy (cw_deployPlan ws) then throw PLAN_TAKEN
      else getStripeClient ;; ret (config, customerId)
  | None => throw (TRPCError "PRECONDITION_FAILED" "Add a payment method before subscribing to a Compute plan.")
  end.

Definition subscribeDeploy (p : DeployPlan) : WCtx -> M unit :=
  requireWorkspaceAdmin (fun c =>
    let ws := c_workspace c in
    guards <- subscribe_guards c ;;
    let '(config, customerId) := guards in
    affectedRows <- exec_claim (cw_id ws) (plan_name p) ;;
    if negb (affectedRows =? 1) then throw PLAN_TAKEN
    else
      catch (subscribe_body c config p customerId) (fun err =>
        catch (exec (ReleasePlan (cw_id ws) (plan_name p))) (fun _ => ret tt) ;;
        throw err)).

(** ** Changing and cancelling Compute *)

Definition plan_rank (p : DeployPlan) : nat := match p with starter => 0 | pro => 1 | business => 2 end.

Definition NO_PLAN_TO_CHANGE : Exn := TRPCError "PRECONDITION_FAILED" "Workspace has no Compute plan to change.".

Definition change_plan_tx (c : WCtx) (p : DeployPlan) : M unit :=
  transaction (
    exec (UpdateBilling (cw_id (c_workspace c)) (plan_only (Some (plan_name p)))) ;;
    setWorkspaceLimits (cw_id (c_workspace c)) (Some p) (keeps_api_limits c) no_update ;;
    insertAuditLogs [workspace_log c ("Changed Compute plan to " +:+ plan_name p +:+ ".")]).

Definition changeDeployPlan (p : DeployPlan) : WCtx -> M ChangeSubscriptionPriceResult :=
  requireWorkspaceAdmin (fun c =>
    let ws := c_workspace c in
    config <- require_config ;;
    if negb (Js.truthy (cw_stripeDeploySubscriptionId ws)) then throw NO_PLAN_TO_CHANGE
    else
      getStripeClient ;;
      sub <- call (SubscriptionsRetrieve (Js.coalesce (cw_stripeDeploySubscriptionId ws) EmptyString)) ;;
      data <- items_data sub ;;
      match findPlanFeeItem config data with
      | None => throw NO_PLAN_TO_CHANGE
      | Some (itemId, current) =>
          if bool_decide (current = p) then ret Applied
          else if cancel_at_period_end sub then
            throw (TRPCError "PRECONDITION_FAILED"
              "Your Compute plan is set to cancel at the end of this period. Resume it before changing plans.")
          else
            let isDowngrade := Nat.ltb (plan_rank p) (plan_rank current) in
            result <- catch (changeSubscriptionPrice (sub_id sub) itemId (planFeePriceIds config p)
                               (if isDowngrade then "none" else "always_invoice"))
                        (fun err => throw (toBillingError err)) ;;
            match result with
            | PaymentRequired _ => ret result
            | Applied =>
                change_plan_tx c p ;;
                let losesTeam := String.eqb (cw_tier ws) "Free" && deployPlanGrantsTeam (Some (plan_name current))
                                 && negb (deployPlanGrantsTeam (Some (plan_name p))) in
                (if losesTeam then deactivateNonCreatorMemberships (cw_orgId ws) else ret tt) ;;
                ret result
            end
      end).

Definition cancelDeploy : WCtx -> M unit :=
  requireWorkspaceAdmin (fun c =>
    let ws := c_workspace c in
    (if Js.truthy (cw_stripeDeploySubscriptionId ws) then
       catch (getStripeClient ;; cancelDeploySubscription (Js.coalesce (cw_stripeDeploySubscriptionId ws) EmptyString))
         (fun _ => throw (TRPCError "INTERNAL_SERVER_ERROR" "Failed to cancel Compute billing."))
     else ret tt) ;;
    catch (deprovisionCompute (cw_id ws)) (fun error =>
      match error with
      | TRPCError _ _ => throw error
      | _ => throw (TRPCError "INTERNAL_SERVER_ERROR" "Failed to cancel Compute.")
      end) ;;
    transaction (
      setWorkspaceLimits (cw_id ws) None (keeps_api_limits c) no_update ;;
      insertAuditLogs [workspace_log c "Cancelled Compute."]) ;;
    (if String.eqb (cw_tier ws) "Free" && deployPlanGrantsTeam (cw_deployPlan ws)
     then deactivateNonCreatorMemberships (cw_orgId ws) else ret tt)).

(** ** The API plan *)

Definition NO_CUSTOMER : Exn := TRPCError "PRECONDITION_FAILED" "Workspace doesn't have a stripe customer id.".
Definition NO_SUBSCRIPTION : Exn := TRPCError "PRECONDITION_FAILED" "Workspace doesn't have a stripe subscrption id.".

Definition cancelSubscription : WCtx -> M unit :=
  requireWorkspaceAdmin (fun c =>
    let ws := c_workspace c in
    getStripeClient ;;
    if negb (Js.truthy (cw_stripeCustomerId ws)) then throw NO_CUSTOMER
    else if negb (Js.truthy (cw_stripeSubscriptionId ws)) then throw NO_SUBSCRIPTION
    else
      subscription <- call (SubscriptionsRetrieve (Js.coalesce (cw_stripeSubscriptionId ws) EmptyString)) ;;
      (match schedule subscription with
       | Some s => call (SchedulesRelease (ref_id s)) ;; ret tt
       | None => ret tt
       end) ;;
      call (SubscriptionsUpdate (sub_id subscription) CancelAtPeriodEnd) ;;
      ret tt).

Definition uncancelSubscription : WCtx -> M unit :=
  requireWorkspaceAdmin (fun c =>
    let ws := c_workspace c in
    getStripeClient ;;
    if negb (Js.truthy (cw_stripeCustomerId ws)) then throw NO_CUSTOMER
    else if negb (Js.truthy (cw_stripeSubscriptionId ws)) then throw NO_SUBSCRIPTION
    else
      call (SubscriptionsUpdate (Js.coalesce (cw_stripeSubscriptionId ws) EmptyString) Uncancel) ;;
      ret tt).

Definition allowed_product (e : StripeEnv) (productId : string) : bool :=
  Js.includes (STRIPE_PRODUCT_IDS_PRO e ++ STRIPE_PRODUCT_IDS_ENTERPRISE e) productId.

Definition product_not_found (productId : string) : Exn :=
  TRPCError "NOT_FOUND" ("Could not find product " +:+ productId +:+ ".").

Inductive CreateSubscriptionResult :=
| SubscriptionPaymentRequired (paymentUrl : string)
| CheckoutStarted (checkoutUrl : string).

(** The recorded API subscription: a payment page to return, or the go-ahead. *)
Definition check_recorded (ws : CtxWorkspace) (customerId : string) : M (option string) :=
  if Js.truthy (cw_stripeSubscriptionId ws) then
    recorded <- retrieve_or_null (call (SubscriptionsRetrieve (Js.coalesce (cw_stripeSubscriptionId ws) EmptyString))) ;;
    let already_has_plan (r : option Subscription) : M (option string) :=
      match r with
      | Some r =>
          if negb (isDeadSubscription r) then
            throw (TRPCError "PRECONDITION_FAILED" ("Customer " +:+ customerId +:+ " already has an API plan."))
          else ret None
      | None => ret None
      end in
    match recorded with
    | Some r =>
        if String.eqb (status r) "incomplete" then
          let paymentUrl := hostedInvoiceUrl r in
          if Js.truthy paymentUrl then ret paymentUrl
          else canceled <- call (SubscriptionsCancel (sub_id r)) ;; already_has_plan (Some canceled)
        else already_has_plan recorded
    | None => already_has_plan None
    end
  else ret None.

Section WithHash.

Context (sha256_hex : string -> string).

Definition start_checkout (ws : CtxWorkspace) (customerId productId defaultPriceId baseUrl : string) : M string :=
  customer <- call (CustomersRetrieve customerId) ;;
  let successUrl := baseUrl +:+ "/success?session_id={CHECKOUT_SESSION_ID}&intent=api-subscription" in
  checkoutUrl <- catch (
    destination <- createSubscriptionCheckout sha256_hex
      {| ci_workspaceId := cw_id ws; ci_product := api; ci_customerId := Some (customer_id customer);
         ci_lineItems := [(defaultPriceId, Some 1)]; ci_successUrl := successUrl; ci_customText := None;
         ci_idempotencyKey := Some ("api-checkout:" +:+ cw_id ws +:+ ":" +:+ productId +:+ ":" +:+ customer_id customer) |} ;;
    ret (match destination with SuccessAt url => Some url | CheckoutAt session => session_url session end))
    (fun err =>
       match err with
       | StripeError _ _ _ _ => throw (TRPCError "BAD_REQUEST"
           "Payment could not be started. Please try again or update your payment method.")
       | _ => throw err
       end) ;;
  if Js.truthy checkoutUrl then ret (Js.coalesce checkoutUrl EmptyString)
  else throw (TRPCError "INTERNAL_SERVER_ERROR" "Stripe did not return a payment URL. Please try again.").

Definition createSubscription (productId : string) : WCtx -> M CreateSubscriptionResult :=
  requireWorkspaceAdmin (fun c =>
    let ws := c_workspace c in
    getStripeClient ;;
    e <- stripeEnv ;;
    match e with
    | None => throw (TRPCError "INTERNAL_SERVER_ERROR" "Stripe is not set up")
    | Some e =>
        if negb (allowed_product e productId) then throw (product_not_found productId)
        else
          product <- call (ProductsRetrieve productId) ;;
          match default_price product with
          | None => throw (TRPCError "NOT_FOUND" ("Could not find product default price " +:+ productId +:+ "."))
          | Some price =>
              match validateAndParseQuotas product with
              | None => throw (TRPCError "INTERNAL_SERVER_ERROR"
                  ("Product " +:+ productId +:+ " is missing required quota metadata."))
              | Some _ =>
                  match cw_stripeCustomerId ws with
                  | None => throw (TRPCError "PRECONDITION_FAILED" "Workspaces does not have a stripe account.")
                  | Some customerId =>
                      if negb (Js.truthy_string customerId) then
                        throw (TRPCError "PRECONDITION_FAILED" "Workspaces does not have a stripe account.")
                      else
                        paymentUrl <- check_recorded ws customerId ;;
                        match paymentUrl with
                        | Some url => ret (SubscriptionPaymentRequired url)
                        | None =>
                            app <- appEnv ;;
                            url <- start_checkout ws customerId productId (ref_id price) (baseUrl app) ;;
                            ret (CheckoutStarted url)
                        end
                  end
              end
          end
    end).

End WithHash.

(** ** Changing the API plan *)

Inductive UpdateSubscriptionResult :=
| Changed (r : ChangeSubscriptionPriceResult)
| Scheduled (effectiveAt : Z).

(** The new price: its id and its amount. *)
Definition resolve_price (price : Ref DefaultPrice) : M (string * option Z) :=
  match price with
  | RId id => p <- call (PricesRetrieve id) ;; ret (id, unit_amount p)
  | RObj p => ret (dp_id p, dp_unit_amount p)
  end.

Definition more_expensive (a b : option Z) : bool :=
  match a, b with Some a, Some b => b <? a | _, _ => false end.

(** The errors of the price change as the procedure reports them. *)
Definition toChangeError (err : Exn) : Exn :=
  match err with
  | SubscriptionScheduleConflictError =>
      TRPCError "PRECONDITION_FAILED"
        "This subscription already has a different scheduled change."
  | StripeError CardError _ _ message =>
      TRPCError "BAD_REQUEST"
        (Js.or_string (Some message) "Your card was declined. Please update your payment method and try again.")
  | StripeError _ _ _ message =>
      TRPCError "BAD_REQUEST"
        (Js.or_string (Some message) "Payment could not be completed. Please update your payment method and try again.")
  | _ => err
  end.

Definition reset_rate_limit (isUpgrade : bool) : LimitUpdate :=
  if isUpgrade then
    {| u_apiBillableOperationsCountMaxPerMonth := None; u_apiRequestsCountMaxPerMinute := Some None;
       u_logsRetentionDaysMax := None; u_logsAuditRetentionDaysMax := None; u_teamEnabled := None;
       u_cpuCoresMax := None; u_cpuCoresMaxPerInstance := None; u_memoryMibMax := None;
       u_memoryMibMaxPerInstance := None; u_storageMibMax := None; u_storageMibMaxPerInstance := None;
       u_buildsConcurrentMax := None; u_customDomainsMax := None; u_autoscalingReplicasMax := None |}
  else no_update.

Definition switch_tx (c : WCtx) (productName : string) (quotas : Quotas) (isUpgrade : bool) : M unit :=
  let ws := c_workspace c in
  transaction (
    exec (UpdateBilling (cw_id ws) {| set_tier := Some (Some productName); set_stripeCustomerId := None; set_plan := None; set_budget := None |}) ;;
    setWorkspaceLimits (cw_id ws)
      (Js.ocoalesce (parseDeployPlan (cw_deployPlanOverride ws)) (parseDeployPlan (cw_deployPlan ws))) true
      (spread (api_limits quotas) (reset_rate_limit isUpgrade)) ;;
    insertAuditLogs [workspace_log c ("Switched to " +:+ productName +:+ " plan.")]).

(** The change at Stripe: a downgrade is scheduled, anything else is charged now. *)
Definition change_at_stripe (sub : Subscription) (itemId currentPriceId newPriceId : string) (isDowngrade : bool) :
    M UpdateSubscriptionResult :=
  if isDowngrade then
    effectiveAt <- scheduleApiPlanDowngrade (sub_id sub) (schedule sub) currentPriceId newPriceId ;;
    ret (Scheduled effectiveAt)
  else
    (match schedule sub with Some s => releaseScheduledApiPlanDowngrade s | None => ret tt end) ;;
    r <- changeSubscriptionPrice (sub_id sub) itemId newPriceId "always_invoice" ;;
    ret (Changed r).

(** What follows the change at Stripe. *)
Definition record_change (c : WCtx) (product : Product) (quotas : Quotas) (isUpgrade : bool)
    (result : UpdateSubscriptionResult) : M UpdateSubscriptionResult :=
  match result with
  | Scheduled effectiveAt =>
      match Dates.toISOString effectiveAt with
      | None => throw (OtherError "RangeError: Invalid time value")
      | Some date =>
          insertAuditLogs [workspace_log c ("Scheduled switch to " +:+ product_name product +:+ " plan for " +:+ date +:+ ".")] ;;
          ret result
      end
  | Changed (PaymentRequired _) => ret result
  | Changed Applied => switch_tx c (product_name product) quotas isUpgrade ;; ret result
  end.

Definition updateSubscription (newProductId : string) : WCtx -> M UpdateSubscriptionResult :=
  requireWorkspaceAdmin (fun c =>
    let ws := c_workspace c in
    getStripeClient ;;
    e <- stripeEnv ;;
    match e with
    | None => throw (TRPCError "INTERNAL_SERVER_ERROR" "Stripe is not set up")
    | Some e =>
        if negb (allowed_product e newProductId) then throw (product_not_found newProductId)
        else if negb (Js.truthy (cw_stripeCustomerId ws)) then throw NO_CUSTOMER
        else if negb (Js.truthy (cw_stripeSubscriptionId ws)) then throw NO_SUBSCRIPTION
        else
          newProduct <- call (ProductsRetrieve newProductId) ;;
          match validateAndParseQuotas newProduct with
          | None => throw (TRPCError "INTERNAL_SERVER_ERROR"
              ("Product " +:+ product_id newProduct +:+ " is missing required quota metadata."))
          | Some quotas =>
              sub <- call (SubscriptionsRetrieve (Js.coalesce (cw_stripeSubscriptionId ws) EmptyString)) ;;
              config <- deployBillingConfig ;;
              data <- items_data sub ;;
              match findApiItem config data with
              | None => throw (TRPCError "PRECONDITION_FAILED" "Subscription has no API plan item to update.")
              | Some item =>
                  match default_price newProduct with
                  | None => throw (TRPCError "INTERNAL_SERVER_ERROR"
                      ("Product " +:+ product_id newProduct +:+ " is missing a default price."))
                  | Some price =>
                      resolved <- resolve_price price ;;
                      let '(newPriceId, newAmount) := resolved in
                      match item_price item with
                      | None => throw (OtherError "TypeError: item.price is undefined")
                      | Some current =>
                          let isUpgrade := more_expensive newAmount (unit_amount current) in
                          let isDowngrade := more_expensive (unit_amount current) newAmount in
                          if cancel_at_period_end sub then
                            throw (TRPCError "PRECONDITION_FAILED" "Resume your API plan before changing it.")
                          else
                            result <- catch (change_at_stripe sub (item_id item) (price_id current) newPriceId isDowngrade)
                                        (fun err => throw (toChangeError err)) ;;
                            record_change c newProduct quotas isUpgrade result
                      end
                  end
              end
          end
    end).

(** ** Customers and checkouts *)

Definition updateCustomer (sessionId paymentMethod : string) : WCtx -> M string :=
  requireWorkspaceAdmin (withRatelimit "trpc_update" (fun c =>
    getStripeClient ;;
    session <- retrieveCompletedWorkspaceCheckoutSession sessionId (cw_id (c_workspace c)) "Customer not found" ;;
    match expandableId (session_customer session) with
    | None => throw (TRPCError "NOT_FOUND" "Customer not found")
    | Some customerId =>
        if negb (Js.truthy_string customerId) then throw (TRPCError "NOT_FOUND" "Customer not found")
        else
          catch (call (CustomersSetDefaultPaymentMethod customerId paymentMethod)) (fun error =>
            match error with
            | StripeError kind code statusCode _ =>
                throwRedactedStripeError kind code statusCode "Failed to set the default payment method"
            | _ => throw (TRPCError "INTERNAL_SERVER_ERROR" "Failed to set the default payment method")
            end)
    end)).

Definition updateWorkspaceStripeCustomer (sessionId : string) : WCtx -> M unit :=
  requireWorkspaceAdmin (fun c =>
    let ws := c_workspace c in
    getStripeClient ;;
    session <- retrieveCompletedWorkspaceCheckoutSession sessionId (cw_id ws) "Checkout session not found for this workspace" ;;
    match expandableId (session_customer session) with
    | None => throw (TRPCError "PRECONDITION_FAILED" "Checkout session does not have a customer")
    | Some customerId =>
        if negb (Js.truthy_string customerId) then
          throw (TRPCError "PRECONDITION_FAILED" "Checkout session does not have a customer")
        else
          catch (transaction (
            exec (UpsertCustomer (cw_id ws) customerId) ;;
            insertAuditLogs [user_log c (cw_id ws) "workspace.update" "Updated Stripe customer ID"
                               [resource "workspace" (cw_id ws) (Some (cw_name ws))] None]))
            (fun _ => throw (TRPCError "INTERNAL_SERVER_ERROR"
               "We are unable to update the workspace Stripe customer. Please try again."))
    end).

Definition seedTestCustomer : WCtx -> M string :=
  requireWorkspaceAdmin (fun c =>
    app <- appEnv ;;
    if String.eqb (NODE_ENV app) "production" then
      throw (TRPCError "FORBIDDEN" "Stripe test seeding is only available outside production.")
    else
      getStripeClient ;;
      customer <- call (CustomersCreate (option_map au_email (user_profile (c_user c))) (cw_id (c_workspace c))) ;;
      paymentMethod <- call (PaymentMethodsAttach "pm_card_visa" customer) ;;
      call (CustomersSetDefaultPaymentMethod customer paymentMethod) ;;
      exec (UpsertCustomer (cw_id (c_workspace c)) customer) ;;
      ret customer).

(** The wrappers of the linkers. *)
Definition router_link_input (c : WCtx) (sessionId : string) : LinkInput :=
  {| in_sessionId := sessionId; in_expectedWorkspaceId := cw_id (c_workspace c);
     in_audit := {| audit_actor := user_actor c; audit_location := c_location c; audit_userAgent := c_userAgent c |} |}.

Definition link_error (reason : LinkFailure) (message : string) : Exn :=
  TRPCError (match reason with
             | forbidden => "FORBIDDEN"
             | session_not_found | workspace_not_found => "NOT_FOUND"
             | _ => "PRECONDITION_FAILED"
             end) message.

Definition linked_or_throw {A} (r : LinkResult A) : M A :=
  match r with Linked what _ => ret what | LinkFailed reason message => throw (link_error reason message) end.

Definition linkDeploySubscription_procedure (sessionId : string) : WCtx -> M DeployPlan :=
  requireWorkspaceAdmin (withRatelimit "trpc_update" (fun c =>
    getStripeClient ;;
    result <- linkDeploySubscription (router_link_input c sessionId) ;;
    linked_or_throw result)).

Definition linkApiSubscription_procedure (sessionId : string) : WCtx -> M string :=
  requireWorkspaceAdmin (withRatelimit "trpc_update" (fun c =>
    getStripeClient ;;
    result <- linkApiSubscription (router_link_input c sessionId) ;;
    linked_or_throw result)).

(** ** Facts *)

Section RouterClasses.

Lemma ReadOnly_resume config p sub : ReadOnly (resume_cancelled config p sub).
Proof. unfold resume_cancelled. effects. Qed.

Lemma ReadOnly_settle_subscription n params key sub : ReadOnly (settle_subscription n params key sub).
Proof. revert key sub. induction n as [|n IH]; intros key sub; cbn [settle_subscription]; effects. Qed.

Lemma ReadOnly_resolve_payment_method customer : ReadOnly (resolve_payment_method customer).
Proof. unfold resolve_payment_method. effects. Qed.

Lemma ReadOnly_create_compute ws customer config p : ReadOnly (create_compute ws customer config p).
Proof.
  unfold create_compute. apply ReadOnly_bind; [apply ReadOnly_resolve_payment_method|]. intros method.
  apply ReadOnly_bind; [|effects]. apply ReadOnly_catch; [|effects].
  apply ReadOnly_bind; [effects|intros; apply ReadOnly_settle_subscription].
Qed.

Lemma ReadOnly_require_config : ReadOnly require_config.
Proof. unfold require_config. effects. Qed.

Lemma ReadOnly_subscribe_guards c : ReadOnly (subscribe_guards c).
Proof. unfold subscribe_guards. apply ReadOnly_bind; [apply ReadOnly_require_config|effects]. Qed.

End RouterClasses.

#[export] Hint Resolve ReadOnly_resume ReadOnly_create_compute ReadOnly_require_config ReadOnly_subscribe_guards
  : effects.

Section SubscribeFacts.

Context (c : WCtx) (p : DeployPlan).

Lemma Atomic_subscribe_body config customer : Atomic (subscribe_body c config p customer).
Proof. unfold subscribe_body. atomics. Qed.

(** Releasing a plan that was just claimed restores the tables. *)
Lemma release_claim w q d :
  claims w q (workspace_billing d) = true -> apply_stmt (ReleasePlan w q) (apply_stmt (ClaimPlan w q) d) = d.
Proof.
  intros Hc. cbn [apply_stmt]. rewrite Hc. unfold claims in Hc. unfold releases. destruct d as [ws bl bs li ou ta].
  cbn [workspace_billing with_billing] in *. destruct (bl !! w) as [b|] eqn:E; [|done].
  apply bool_decide_eq_true in Hc.
  rewrite lookup_alter_eq, E. cbn [fmap option_fmap option_map plan update_billing plan_only set_plan Js.coalesce].
  rewrite bool_decide_true by done. unfold with_billing; cbn. f_equal. apply map_eq. intros k.
  destruct (decide (k = w)) as [->|Hk]; [|by rewrite !lookup_alter_ne].
  rewrite !lookup_alter_eq, E. cbn. f_equal. destruct b; cbn in *. by subst.
Qed.

Lemma exec_claim_ret w q env wo n wo' :
  exec_claim w q env wo = (Ret n, wo') ->
  n = (if claims w q (workspace_billing (db wo)) then 1 else 0) /\ db wo' = apply_stmt (ClaimPlan w q) (db wo).
Proof.
  unfold exec_claim, bind, call. cbn [Resp]. destruct (ask env (trace wo) _) as [e|[]]; [done|]. by intros [= <- <-].
Qed.

(** What is left after the error path: the release succeeded, or it failed as the
    last call. *)
Lemma claim_release_run w q err env wo e wo' :
  (catch (exec (ReleasePlan w q)) (fun _ => ret tt) ;; throw (A := unit) err) env wo = (Throw e, wo') ->
  db wo' = apply_stmt (ReleasePlan w q) (db wo)
  \/ db wo' = db wo /\ (exists x, ask env (trace wo) (DbExec (ReleasePlan w q)) = inl x)
     /\ trace wo' = trace wo ++ [DbExec (ReleasePlan w q)].
Proof.
  unfold bind at 1, catch, exec, bind, call, throw. cbn [Resp].
  destruct (ask env (trace wo) _) as [x|[]] eqn:E; intros [= <- <-]; [right; split; [done|]; split; [by exists x|done]|by left].
Qed.

End SubscribeFacts.

(** Claim C2. A failed subscription to Compute leaves nothing behind. When
    [subscribeDeploy] throws, for whatever reason and at whatever point, the
    database is as it was before, with one exception: the statement that releases
    the claimed plan failed as the last call, and then the only change is the
    claim itself. *)
Theorem subscribeDeploy_throws (p : DeployPlan) (c : WCtx) (env : Env) (w w' : World) (e : Exn) :
  subscribeDeploy p c env w = (Throw e, w') ->
  db w' = db w
  \/ let release := DbExec (ReleasePlan (cw_id (c_workspace c)) (plan_name p)) in
     exists tr x, trace w' = tr ++ [release] /\ ask env tr release = inl x
       /\ claims (cw_id (c_workspace c)) (plan_name p) (workspace_billing (db w)) = true
       /\ db w' = apply_stmt (ClaimPlan (cw_id (c_workspace c)) (plan_name p)) (db w).
Proof.
  unfold subscribeDeploy, requireWorkspaceAdmin. destruct (is_admin _); [|by intros [= <- <-]; left].
  intros H. apply bind_throw in H as [H|([config customer] & w2 & Hg & H)].
  { left. eapply read_ret; [|exact H]. effects. }
  assert (E2 : db w2 = db w) by (eapply read_ret; [|exact Hg]; effects).
  apply bind_throw in H as [H|(n & w3 & Hn & H)].
  { left. apply Atomic_exec_claim in H. congruence. }
  apply exec_claim_ret in Hn as [-> E3]. rewrite E2 in E3, H.
  destruct (claims _ _ _) eqn:Ecl; cbn [Z.eqb negb] in H.
  - apply catch_throw in H as (e1 & w4 & H4 & H). apply Atomic_subscribe_body in H4.
    apply claim_release_run in H as [H|(Hd & (x & Hx) & Ht)].
    + left. by rewrite H, H4, E3, release_claim.
    + right. exists (trace w4), x. split; [done|]. split; [done|]. split; [done|]. congruence.
  - injection H as <- <-. left. rewrite E3. cbn [apply_stmt]. by rewrite Ecl.
Qed.

(** The sample environment in which the card is declined. *)
Definition declining_env : Env :=
  {| stripe_env := Some demo_stripe_env; app_env := demo_app_env; request_headers := fun _ => None; SLACK_WEBHOOK_CUSTOMERS := None;
     ask := fun _ c => match c return Exn + Resp c with
                       | SubscriptionsCreate _ _ => inl (StripeError CardError (Some "card_declined"%string) (Some 402) "Declined")
                       | c => demo_answer c
                       end;
     clock := clock demo_env; fresh := fresh demo_env; teardown_done := teardown_done demo_env; collation := Str.to_lower |}.

Lemma subscribeDeploy_throws_witness :
  exists e w', subscribeDeploy pro (demo_ctx customer_db) declining_env (world_of customer_db) = (Throw e, w')
    /\ (db w' = customer_db
        \/ let release := DbExec (ReleasePlan "ws_1" "pro") in
           exists tr x, trace w' = tr ++ [release] /\ ask declining_env tr release = inl x
             /\ claims "ws_1" "pro" (workspace_billing customer_db) = true
             /\ db w' = apply_stmt (ClaimPlan "ws_1" "pro") customer_db).
Proof.
  eexists _, _. split; [vm_compute; reflexivity|].
  refine (subscribeDeploy_throws pro (demo_ctx customer_db) declining_env (world_of customer_db) _ _ _).
  vm_compute; reflexivity.
Defined.

(** ** No charge without the claim *)

(** Calls that create, change or end a subscription. *)
Definition changes_subscription (c : Call) : bool :=
  match c with
  | SubscriptionsCreate _ _ | SubscriptionsUpdate _ _ | SubscriptionsCancel _ => true
  | _ => false
  end.

Definition harmless (c : Call) : Prop := Is_true (negb (changes_subscription c)).

Lemma Emits_subscribe_guards c : Emits harmless (subscribe_guards c).
Proof.
  unfold subscribe_guards, require_config. apply Emits_bind; [|effects].
  apply Emits_bind; [by apply Emits_deployBillingConfig|effects].
Qed.

(** Claim C25. The claim is the lock of the Compute plan. A request that cannot
    claim the plan, because the billing row of the workspace already has a plan
    or there is no row, throws, writes nothing and neither creates, changes nor
    cancels a subscription at Stripe. Two requests with different plans therefore
    cannot both attach a plan fee. *)
Theorem subscribeDeploy_needs_claim (p : DeployPlan) (c : WCtx) (env : Env) (w : World) :
  claims (cw_id (c_workspace c)) (plan_name p) (workspace_billing (db w)) = false ->
  exists e w' l, subscribeDeploy p c env w = (Throw e, w') /\ db w' = db w
    /\ trace w' = trace w ++ l /\ Forall harmless l.
Proof.
  intros Hclaim. unfold subscribeDeploy, requireWorkspaceAdmin. destruct (is_admin _);
    [|exists ADMIN_REQUIRED, w, []; by rewrite app_nil_r].
  destruct (Emits_subscribe_guards c env w) as (l & Hl & Hp). pose proof (ReadOnly_subscribe_guards c env w) as Hd.
  unfold bind at 1. destruct (subscribe_guards c env w) as [[[config customer]|e] w1]; [|by exists e, w1, l].
  simpl in Hl, Hd. unfold exec_claim, bind, call. cbn [Resp].
  set (claim := DbExec (ClaimPlan (cw_id (c_workspace c)) (plan_name p))).
  assert (Hp' : Forall harmless (l ++ [claim])) by (apply Forall_app; split; [done|by repeat constructor]).
  destruct (ask env (trace w1) claim) as [e|[]].
  - exists e, (log_call claim w1), (l ++ [claim]). cbn. by rewrite Hl, app_assoc.
  - cbn [log_call db apply_stmt]. rewrite Hd, Hclaim. exists PLAN_TAKEN, (with_db (db w) (log_call claim w1)), (l ++ [claim]).
    cbn. by rewrite Hl, app_assoc.
Qed.

Lemma subscribeDeploy_needs_claim_witness :
  exists e w' l, subscribeDeploy starter (demo_ctx customer_db) demo_env (world_of compute_db) = (Throw e, w')
    /\ db w' = compute_db /\ trace w' = [] ++ l /\ Forall harmless l.
Proof.
  exact (subscribeDeploy_needs_claim starter (demo_ctx customer_db) demo_env (world_of compute_db) eq_refl).
Defined.

(** ** The keys of a retried creation *)

(** A key and the keys chained to it by the ids of dead subscriptions. *)
Fixpoint chained (key : string) (ids : list string) : list string :=
  key :: match ids with [] => [] | id :: ids' => chained (key +:+ ":" +:+ id) ids' end.

Definition created_keys (l : list Call) : list string :=
  omap (fun c => match c with SubscriptionsCreate _ key => Some key | _ => None end) l.

(** Stripe reported the subscription dead. *)
Definition corpse (env : Env) (id : string) : Prop :=
  exists tr recorded sub, ask env tr (SubscriptionsRetrieve recorded) = inr sub /\ isDeadSubscription sub = true /\ sub_id sub = id.

Section KeyChain.

Context (env : Env).

Definition no_create (c : Call) : Prop := match c with SubscriptionsCreate _ _ => False | _ => True end.

(** The keys of the creations [m] makes satisfy [S]. *)
Definition Creates {A} (S : list string -> Prop) (m : M A) : Prop :=
  forall w, exists l, trace (snd (m env w)) = trace w ++ l /\ S (created_keys l).

Lemma created_keys_app l l' : created_keys (l ++ l') = created_keys l ++ created_keys l'.
Proof. unfold created_keys. apply omap_app. Qed.

Lemma created_keys_none l : Forall no_create l -> created_keys l = [].
Proof. induction 1 as [|c l Hc _ IH]; [done|]. unfold created_keys in *. simpl. by destruct c. Qed.

Lemma Creates_none {A} (S : list string -> Prop) (m : M A) : S [] -> Emits no_create m -> Creates S m.
Proof. intros HS Hm w. destruct (Hm env w) as (l & Hl & Hp). exists l. by rewrite created_keys_none. Qed.

Lemma Creates_bind_after {A B} (S : list string -> Prop) (m : M A) (k : A -> M B) :
  S [] -> Emits no_create m -> (forall a, Creates S (k a)) -> Creates S (bind m k).
Proof.
  intros HS Hm Hk w. unfold bind. destruct (Hm env w) as (l & Hl & Hp).
  destruct (m env w) as [[a|e] w1]; simpl in Hl; [|exists l; by rewrite created_keys_none].
  destruct (Hk a w1) as (l' & Hl' & Hs). exists (l ++ l').
  by rewrite Hl', Hl, app_assoc, created_keys_app, (created_keys_none l).
Qed.

Lemma Creates_bind_before {A B} (S : list string -> Prop) (m : M A) (k : A -> M B) :
  Creates S m -> (forall a, Emits no_create (k a)) -> Creates S (bind m k).
Proof.
  intros Hm Hk w. unfold bind. destruct (Hm w) as (l & Hl & Hs).
  destruct (m env w) as [[a|e] w1]; simpl in Hl; [|by exists l].
  destruct (Hk a env w1) as (l' & Hl' & Hp). exists (l ++ l').
  by rewrite Hl', Hl, app_assoc, created_keys_app, (created_keys_none l'), app_nil_r.
Qed.

Lemma Creates_catch {A} (S : list string -> Prop) (m : M A) h :
  Creates S m -> (forall e, Emits no_create (h e)) -> Creates S (catch m h).
Proof.
  intros Hm Hh w. unfold catch. destruct (Hm w) as (l & Hl & Hs).
  destruct (m env w) as [[a|e] w1]; simpl in Hl; [by exists l|].
  destruct (Hh e env w1) as (l' & Hl' & Hp). exists (l ++ l').
  by rewrite Hl', Hl, app_assoc, created_keys_app, (created_keys_none l'), app_nil_r.
Qed.

(** The keys the loop adds to [key]. *)
Definition adds (n : nat) (key : string) (keys : list string) : Prop :=
  exists ids, (List.length ids <= n)%nat /\ Forall (corpse env) ids /\ key :: keys = chained key ids.

Lemma Creates_settle n params key sub : Creates (adds n key) (settle_subscription n params key sub).
Proof.
  revert key sub. induction n as [|n IH]; intros key sub w; cbn [settle_subscription].
  { exists []. rewrite app_nil_r. split; [done|]. by exists []. }
  unfold bind at 1, call. cbn [Resp]. set (c1 := SubscriptionsRetrieve (sub_id sub)).
  destruct (ask env (trace w) c1) as [e|live] eqn:E1; [exists [c1]; split; [done|]; exists []; simpl; split; [lia|done]|].
  destruct (isDeadSubscription live) eqn:Ed; [|exists [c1]; split; [done|]; exists []; simpl; split; [lia|done]].
  cbn [negb]. set (key' := key +:+ ":" +:+ sub_id live). unfold bind. cbn [log_call trace].
  assert (Hcorpse : corpse env (sub_id live)) by (by exists (trace w), (sub_id sub), live).
  set (c2 := SubscriptionsCreate params key'). destruct (ask env (trace w ++ [c1]) c2) as [e|sub'].
  - exists ([c1] ++ [c2]). cbn. rewrite <- app_assoc. split; [done|]. exists [sub_id live].
    simpl. split; [lia|]. split; [by constructor|done].
  - destruct (IH key' sub' (log_call c2 (log_call c1 w))) as (l & Hl & ids & Hn & Hf & Hk).
    exists ([c1; c2] ++ l). rewrite Hl. cbn. rewrite <- !app_assoc. split; [done|].
    exists (sub_id live :: ids). simpl. split; [lia|]. split; [by constructor|]. f_equal. exact Hk.
Qed.

(** The first creation and the loop after it. *)
Lemma Creates_first n params key :
  Creates (fun keys => keys = [] \/ exists ids, keys = chained key ids /\ (List.length ids <= n)%nat /\ Forall (corpse env) ids)
    (created <- call (SubscriptionsCreate params key) ;; settle_subscription n params key created).
Proof.
  intros w. unfold bind, call. cbn [Resp]. set (c := SubscriptionsCreate params key).
  destruct (ask env (trace w) c) as [e|created].
  - exists [c]. split; [done|]. right. exists []. simpl. split; [done|]. split; [lia|done].
  - destruct (Creates_settle n params key created (log_call c w)) as (l & Hl & ids & Hn & Hf & Hk).
    exists ([c] ++ l). rewrite Hl. cbn. rewrite <- app_assoc. split; [done|]. right. by exists ids.
Qed.

End KeyChain.

Lemma chained_length key ids k : In k (chained key ids) -> (String.length key <= String.length k)%nat.
Proof.
  revert key. induction ids as [|id ids IH]; intros key; simpl; [intros [->|[]]; lia|].
  intros [->|H%IH]; [lia|]. rewrite !StrFacts.length_app_string in H. lia.
Qed.

Lemma chained_NoDup key ids : List.NoDup (chained key ids).
Proof.
  revert key. induction ids as [|id ids IH]; intros key; simpl; constructor; try apply IH; try constructor; try by intros [].
  intros H%chained_length. rewrite !StrFacts.length_app_string in H. simpl in H. lia.
Qed.

(** Replays of the idempotency layer are outrun. One call of
    [subscribeDeploy] creates at most four subscriptions. The first creation uses a
    key that depends on the workspace only, so that a retry replays the same
    subscription whatever the plan; each later one chains the id of a subscription
    that Stripe reported dead, so no key is used twice. *)
Theorem subscribeDeploy_keys (p : DeployPlan) (c : WCtx) (env : Env) (w : World) :
  exists l, trace (snd (subscribeDeploy p c env w)) = trace w ++ l
    /\ List.NoDup (created_keys l)
    /\ (created_keys l = []
        \/ exists ids, created_keys l = chained (subscribe_key (cw_id (c_workspace c))) ids
             /\ (List.length ids <= 3)%nat /\ Forall (corpse env) ids).
Proof.
  set (K := fun keys => keys = [] \/ exists ids, keys = chained (subscribe_key (cw_id (c_workspace c))) ids
                          /\ (List.length ids <= 3)%nat /\ Forall (corpse env) ids).
  assert (HK : Creates env K (subscribeDeploy p c)); cycle 1.
  { destruct (HK w) as (l & Hl & Hk). exists l. split; [done|]. split; [|done].
    destruct Hk as [->|(ids & -> & _)]; [constructor|apply chained_NoDup]. }
  assert (K0 : K []) by (by left).
  unfold subscribeDeploy, requireWorkspaceAdmin. destruct (is_admin _); [|by apply Creates_none; [|effects]].
  apply Creates_bind_after; [done| |intros [config customer]].
  { apply Emits_weaken with harmless; [by intros []|apply Emits_subscribe_guards]. }
  apply Creates_bind_after; [done|effects|intros n]. destruct (negb _); [by apply Creates_none; [|effects]|].
  apply Creates_catch; [|effects]. unfold subscribe_body.
  apply Creates_bind_after; [done|effects|intros [sub|]].
  { apply Creates_none; [done|]. unfold resume_cancelled. effects. }
  apply Creates_bind_before; [|intros [id|]; effects].
  apply Creates_bind_before; [|effects]. unfold create_compute.
  apply Creates_bind_after; [done|unfold resolve_payment_method; effects|intros method].
  apply Creates_bind_before; [|effects]. apply Creates_catch; [|effects]. apply Creates_first.
Qed.

(** ** Who may bill *)

(** Billing is for administrators. For a member of the organization who
    is not one, each procedure that writes billing state, that talks to Stripe
    about the workspace's customer or that hands out a payment page refuses with
    FORBIDDEN before it reads, writes or calls anything. *)
Theorem billing_requires_admin (c : WCtx) (hash : string -> string) (p : DeployPlan) (s s' : string) (o : option string) :
  is_admin (c_tenant c) = false ->
  refuses (subscribeDeploy p c) ADMIN_REQUIRED /\ refuses (changeDeployPlan p c) ADMIN_REQUIRED
  /\ refuses (cancelDeploy c) ADMIN_REQUIRED /\ refuses (cancelSubscription c) ADMIN_REQUIRED
  /\ refuses (uncancelSubscription c) ADMIN_REQUIRED /\ refuses (createSubscription hash s c) ADMIN_REQUIRED
  /\ refuses (updateSubscription s c) ADMIN_REQUIRED /\ refuses (updateCustomer s s' c) ADMIN_REQUIRED
  /\ refuses (updateWorkspaceStripeCustomer s c) ADMIN_REQUIRED /\ refuses (seedTestCustomer c) ADMIN_REQUIRED
  /\ refuses (linkDeploySubscription_procedure s c) ADMIN_REQUIRED
  /\ refuses (linkApiSubscription_procedure s c) ADMIN_REQUIRED
  /\ refuses (getSetupIntent s o c) ADMIN_REQUIRED /\ refuses (getSubscriptionPaymentUrl c) ADMIN_REQUIRED.
Proof. intros Ha. repeat split; by apply requireWorkspaceAdmin_refuses. Qed.

(** A member of the sample workspace. *)
Definition demo_member : WCtx :=
  {| c_user := {| user_id := "user_2"; user_profile := None |};
     c_tenant := {| tenant_id := "org_1"; tenant_role := Some "member"%string |};
     c_workspace := ctx_of compute_db demo_workspace; c_location := "unknown"; c_userAgent := None |}.

Lemma billing_requires_admin_witness : refuses (cancelDeploy demo_member) ADMIN_REQUIRED.
Proof.
  exact (proj1 (proj2 (proj2 (billing_requires_admin demo_member (fun s => s) pro "prod_pro" "pm_1" None eq_refl)))).
Defined.

(** ** Sessions cannot be probed *)

(** A caller cannot learn whether a checkout session of another workspace
    exists. Take two worlds that differ only in what Stripe answers about one
    session id: in each of them Stripe has no such session, or the session was
    created for another workspace. Every procedure that takes a session id behaves
    the same in both: same result or error, same calls, same database. *)
Theorem session_probing (sessionId s : string) (c : WCtx) (env1 env2 : Env) (w : World) :
  SameButSession sessionId env1 env2 ->
  (forall tr, unseen (cw_id (c_workspace c)) (ask env1 tr (SessionsRetrieve sessionId))) ->
  (forall tr, unseen (cw_id (c_workspace c)) (ask env2 tr (SessionsRetrieve sessionId))) ->
  sessionId <> EmptyString ->
  getCheckoutSession sessionId c env1 w = getCheckoutSession sessionId c env2 w
  /\ getSetupIntent s (Some sessionId) c env1 w = getSetupIntent s (Some sessionId) c env2 w
  /\ updateCustomer sessionId s c env1 w = updateCustomer sessionId s c env2 w
  /\ updateWorkspaceStripeCustomer sessionId c env1 w = updateWorkspaceStripeCustomer sessionId c env2 w.
Proof.
  intros Hs H1 H2 Hne.
  assert (Hcl : Same env1 env2 getStripeClient) by (by eapply Same_client).
  split; [|split; [|split]].
  - eapply Same_ratelimit; [done|]. apply Same_bind; [done|]. intros []. by eapply Same_unseen.
  - apply Same_admin. eapply Same_ratelimit; [done|]. apply Same_bind; [done|]. intros [].
    unfold allowed_customer. replace (Js.truthy (Some sessionId)) with true by (by destruct sessionId).
    cbn [Js.coalesce]. intros w1. unfold bind. by rewrite !(unseen_refused sessionId).
  - apply Same_admin. eapply Same_ratelimit; [done|]. apply Same_bind; [done|]. intros []. by eapply Same_unseen_completed.
  - apply Same_admin. apply Same_bind; [done|]. intros []. by eapply Same_unseen_completed.
Qed.

(** An environment without the session, and one where it is another workspace's. *)
Definition session_env (answer : Exn + Session) : Env :=
  {| stripe_env := Some demo_stripe_env; app_env := demo_app_env; request_headers := fun _ => None; SLACK_WEBHOOK_CUSTOMERS := None;
     ask := fun _ c => match c return Exn + Resp c with
                       | SessionsRetrieve id => if String.eqb id "cs_1" then answer else inr (demo_session id)
                       | c => demo_answer c
                       end;
     clock := clock demo_env; fresh := fresh demo_env; teardown_done := teardown_done demo_env; collation := Str.to_lower |}.

Definition missing_session : Exn + Session :=
  inl (StripeError InvalidRequestError (Some "resource_missing"%string) (Some 404) "No such session").

Definition foreign_ctx : WCtx :=
  {| c_user := c_user (demo_ctx free_db); c_tenant := c_tenant (demo_ctx free_db);
     c_workspace := ctx_of free_db {| ws_id := "ws_2"; ws_name := "Eve"; orgId := "org_2"; ws_slug := "eve"; ws_k8sNamespace := None; ws_betaFeatures := []; ws_enabled := true;
     ws_deleteProtection := true; ws_createdAtM := 1000; ws_updatedAtM := None; deletedAtM := None |};
     c_location := "unknown"; c_userAgent := None |}.

Lemma session_probing_witness :
  getCheckoutSession "cs_1" foreign_ctx (session_env missing_session) (world_of free_db)
  = getCheckoutSession "cs_1" foreign_ctx (session_env (inr (demo_session "cs_1"))) (world_of free_db).
Proof.
  refine (proj1 (session_probing "cs_1" "" foreign_ctx (session_env missing_session)
            (session_env (inr (demo_session "cs_1"))) (world_of free_db) _ _ _ _)).
  - split; [reflexivity|reflexivity|]. intros tr []; try reflexivity. intros Hid. cbn.
    destruct (String.eqb_spec id "cs_1"); [congruence|reflexivity].
  - intros tr. split; [discriminate|reflexivity].
  - intros tr. cbn. discriminate.
  - discriminate.
Defined.

(** ** What a subscription writes *)

Section AtStripe.

Context (env : Env) (from upto : list Call).

Definition live_status (sub : Subscription) : Prop := status sub <> "canceled"%string /\ status sub <> "incomplete_expired"%string.

(** The keys under which the subscription is created: the first names the workspace, and
    each next one the subscription that was created under the one before and that, read
    again, is dead. *)
Inductive compute_key (workspaceId : string) (params : SubscriptionCreateParams) : nat -> string -> Prop :=
| compute_first : compute_key workspaceId params 0 ("deploy-subscribe:" +:+ workspaceId)
| compute_later n key s dead :
    compute_key workspaceId params n key -> replied env from upto (SubscriptionsCreate params key) s ->
    replied env from upto (SubscriptionsRetrieve (sub_id s)) dead ->
    (status dead = "canceled"%string \/ status dead = "incomplete_expired"%string) ->
    compute_key workspaceId params (S n) (key +:+ ":" +:+ sub_id dead).

(** The subscription was created under one of these keys and, as the answer to the
    creation may be a replay, read again and not dead, or it is the one after three dead. *)
Definition settled (workspaceId : string) (params : SubscriptionCreateParams) (sub : Subscription) : Prop :=
  exists n key s, compute_key workspaceId params n key /\ replied env from upto (SubscriptionsCreate params key) s
    /\ (n = 3%nat /\ sub = s
        \/ (n < 3)%nat /\ replied env from upto (SubscriptionsRetrieve (sub_id s)) sub /\ live_status sub).

(** The Stripe side of a successful subscription under the prices [config]. [None]: the
    recorded subscription was read, is not dead and was cancelling, carries the fee of
    the plan, and Stripe accepted its resumption. [Some id]: a subscription of the
    workspace's customer to the items of the plan was created and is active or on trial. *)
Definition subscribed_at_stripe (config : DeployBillingConfig) (ws : CtxWorkspace) (p : DeployPlan) (created : option string) : Prop :=
  match created with
  | None => exists id sub l iid resumed,
      cw_stripeDeploySubscriptionId ws = Some id /\ replied env from upto (SubscriptionsRetrieve id) sub /\ live_status sub
      /\ cancel_at_period_end sub = true /\ items sub = Some l /\ findPlanFeeItem config l = Some (iid, p)
      /\ replied env from upto (SubscriptionsUpdate (sub_id sub) Resume) resumed
  | Some id => exists params sub,
      Some (sc_customer params) = cw_stripeCustomerId ws
      /\ sc_items params = List.map (fun price => (price, None)) (deploySubscriptionItems config p)
      /\ settled (cw_id ws) params sub /\ sub_id sub = id /\ (status sub = "active"%string \/ status sub = "trialing"%string)
  end.

End AtStripe.

Lemma compute_key_more env from upto upto' ws params n key :
  upto `prefix_of` upto' -> compute_key env from upto ws params n key -> compute_key env from upto' ws params n key.
Proof.
  intros Hp. induction 1 as [|n key s dead _ IH Hs Hd Hst]; [constructor|].
  exact (compute_later _ _ _ _ _ n key s dead IH (replied_more _ _ _ _ _ _ Hp Hs) (replied_more _ _ _ _ _ _ Hp Hd) Hst).
Qed.

Lemma settled_more env from upto upto' ws params sub :
  upto `prefix_of` upto' -> settled env from upto ws params sub -> settled env from upto' ws params sub.
Proof.
  intros Hp (n & key & s & Hk & Hs & H). exists n, key, s. split; [by eapply compute_key_more|].
  split; [exact (replied_more _ _ _ _ _ _ Hp Hs)|]. destruct H as [H|(Hn & Hr & Hl)]; [by left|right].
  split; [done|]. split; [exact (replied_more _ _ _ _ _ _ Hp Hr)|done].
Qed.

Lemma at_stripe_more env from upto upto' config ws p created :
  upto `prefix_of` upto' -> subscribed_at_stripe env from upto config ws p created ->
  subscribed_at_stripe env from upto' config ws p created.
Proof.
  intros Hp. destruct created as [id|]; cbn.
  - intros (params & sub & Hc & Hi & Hs & H). exists params, sub. split; [done|]. split; [done|]. split; [by eapply settled_more|done].
  - intros (id & sub & l & iid & r & Hid & Hr & H1 & H2 & H3 & H4 & Hu). exists id, sub, l, iid, r. split; [done|].
    split; [exact (replied_more _ _ _ _ _ _ Hp Hr)|]. repeat (split; [done|]). exact (replied_more _ _ _ _ _ _ Hp Hu).
Qed.

(** The writes of the transaction. *)
Definition subscribed_db (workspaceId : string) (p : DeployPlan) (preserve : bool) (created : option string)
    (row : OutboxRow) (d : Db) : Db :=
  apply_stmt (InsertOutbox [row])
    ((match created with
      | Some id => if Js.truthy_string id then apply_stmt (UpsertSubscription
          {| bs_workspaceId := workspaceId; bs_product := compute; stripeSubscriptionId := id |}) else fun d => d
      | None => fun d => d
      end)
     (apply_stmt (UpsertLimits workspaceId (limitValues (Some p) preserve no_update)
                    (limitColumns (Some p) preserve no_update))
       (apply_stmt (UpdateBilling workspaceId (plan_only (Some (plan_name p)))) d))).

Section SubscribeRuns.

Context (env : Env).

Lemma settle_subscription_ret n k ws params key sub w r w' from :
  settle_subscription n params key sub env w = (Ret r, w') -> (n + k = 3)%nat -> from `prefix_of` trace w ->
  compute_key env from (trace w) ws params k key -> replied env from (trace w) (SubscriptionsCreate params key) sub ->
  settled env from (trace w') ws params r.
Proof.
  revert k key sub w. induction n as [|n IH]; intros k key sub w H Hn Hp Hk Hs; cbn [settle_subscription] in H.
  { apply ret_ret in H as [-> ->]. cbn in Hn. subst k. exists 3%nat, key, sub. split; [done|]. split; [done|]. by left. }
  apply bind_ret in H as (live & w1 & Hl & H). destruct (replied_call _ _ _ _ _ from Hl Hp) as (Hl1 & P1 & _).
  pose proof (dead_spelled live) as Hd. destruct (isDeadSubscription live); cbn [negb] in H.
  - apply bind_ret in H as (sub' & w2 & Hc & H).
    destruct (replied_call _ _ _ _ _ from Hc ltac:(by etrans)) as (Hc2 & P2 & _). assert (P : trace w `prefix_of` trace w2) by (by etrans).
    apply (IH (S k) (key +:+ ":" +:+ sub_id live) sub' w2) in H; [done|lia|by etrans| |exact Hc2].
    exact (compute_later _ _ _ _ _ k key sub live (compute_key_more _ _ _ _ _ _ _ _ P Hk) (replied_more _ _ _ _ _ _ P Hs)
             (replied_more _ _ _ _ _ _ P2 Hl1) Hd).
  - apply ret_ret in H as [-> ->]. exists k, key, sub. split; [exact (compute_key_more _ _ _ _ _ _ _ _ P1 Hk)|].
    split; [exact (replied_more _ _ _ _ _ _ P1 Hs)|]. right. split; [lia|done].
Qed.

Lemma Emits_settle_any n params key sub : Emits (fun _ => True) (settle_subscription n params key sub).
Proof. revert key sub. induction n as [|n IH]; intros key sub; cbn [settle_subscription]; effects; apply IH. Qed.

Lemma emits_resolve customer : Emits (fun _ => True) (resolve_payment_method customer).
Proof. unfold resolve_payment_method. effects. Qed.

Lemma create_compute_ret c config p customer w id w' from :
  let ws := c_workspace c in
  cw_stripeCustomerId ws = Some customer -> from `prefix_of` trace w ->
  create_compute (cw_id ws) customer config p env w = (Ret id, w') ->
  subscribed_at_stripe env from (trace w') config ws p (Some id) /\ trace w `prefix_of` trace w'.
Proof.
  intros ws Hcus Hp. unfold create_compute. intros H. apply bind_ret in H as (method & w1 & Hm & H).
  apply (emits_prefix _ _ _ _ _ _ (emits_resolve customer)) in Hm as P1.
  apply bind_ret in H as (sub & w2 & Hs & H).
  assert (P2 : trace w1 `prefix_of` trace w2) by (eapply (emits_prefix (fun _ => True)); [|exact Hs]; effects; apply Emits_settle_any).
  apply catch_ret in Hs as [Hs|(e & w3 & _ & Hs)]; [|done].
  apply bind_ret in Hs as (created & w3 & Hc & Hs).
  destruct (replied_call _ _ _ _ _ from Hc ltac:(by etrans)) as (Hc3 & P3 & _).
  apply (settle_subscription_ret 3 0 (cw_id ws)) with (from := from) in Hs; [|done|by do 2 etrans|constructor|exact Hc3].
  assert (Hdone : (status sub = "active"%string \/ status sub = "trialing"%string) -> ret (sub_id sub) env w2 = (Ret id, w') ->
    subscribed_at_stripe env from (trace w') config ws p (Some id) /\ trace w `prefix_of` trace w').
  { intros Hst Hr. apply ret_ret in Hr as [-> ->]. split; [|by etrans].
    by exists (create_params config p customer method), sub. }
  destruct (String.eqb_spec (status sub) "active") as [Ha|Ha]; cbn [negb andb] in H; [by apply Hdone; [left|]|].
  destruct (String.eqb_spec (status sub) "trialing") as [Ht|Ht]; cbn [negb] in H; [by apply Hdone; [right|]|].
  apply bind_ret in H as (u & w4 & _ & H). done.
Qed.

Lemma resume_cancelled_ret config p sub w u w' from :
  from `prefix_of` trace w -> resume_cancelled config p sub env w = (Ret u, w') ->
  cancel_at_period_end sub = true /\ trace w `prefix_of` trace w'
  /\ exists l iid resumed, items sub = Some l /\ findPlanFeeItem config l = Some (iid, p)
     /\ replied env from (trace w') (SubscriptionsUpdate (sub_id sub) Resume) resumed.
Proof.
  intros Hp. unfold resume_cancelled, items_data. destruct (cancel_at_period_end sub); [|done]. cbn [negb].
  destruct (items sub) as [l|]; [|done]. unfold bind at 1, ret at 1.
  destruct (findPlanFeeItem config l) as [[iid q]|] eqn:E; [|done].
  destruct (bool_decide (q = p)) eqn:Eq; [|done]. apply bool_decide_eq_true in Eq as ->. cbn [negb]. intros H.
  apply catch_ret in H as [H|(e & w1 & _ & H)]; [|done]. apply bind_ret in H as (r & w1 & Hr & H). apply ret_ret in H as [_ ->].
  destruct (replied_call _ _ _ _ _ from Hr Hp) as (Hr1 & P1 & _). split; [done|]. split; [done|]. by exists l, iid, r.
Qed.

(** Stripe's side of the body. *)
Lemma compute_at_stripe c config p customer existing w3 w4 created w from :
  let ws := c_workspace c in
  cw_stripeCustomerId ws = Some customer -> from `prefix_of` trace w ->
  (if Js.truthy (cw_stripeDeploySubscriptionId ws) then
     recorded <- call (SubscriptionsRetrieve (Js.coalesce (cw_stripeDeploySubscriptionId ws) EmptyString)) ;;
     ret (if isDeadSubscription recorded then None else Some recorded)
   else ret None) env w = (Ret existing, w3) ->
  (match existing with
   | Some sub => resume_cancelled config p sub ;; ret None
   | None => id <- create_compute (cw_id ws) customer config p ;; ret (Some id)
   end) env w3 = (Ret created, w4) ->
  subscribed_at_stripe env from (trace w4) config ws p created.
Proof.
  intros ws Hcus Hp He Hc. destruct existing as [sub|].
  - apply bind_ret in Hc as ([] & w10 & Hr & Hc). apply ret_ret in Hc as [-> ->].
    destruct (cw_stripeDeploySubscriptionId ws) as [id|] eqn:Eid; [|done]. destruct (Js.truthy (Some id)); [|done].
    apply bind_ret in He as (recorded & w11 & Hg & He). destruct (replied_call _ _ _ _ _ from Hg Hp) as (Hg1 & P1 & _).
    apply ret_ret in He as [He ->]. pose proof (dead_spelled recorded) as Hd.
    destruct (isDeadSubscription recorded); [done|]. injection He as ->.
    apply (resume_cancelled_ret _ _ _ _ _ _ from) in Hr as (Hcan & P2 & l & iid & r & Hi & Hf & Hu); [|by etrans].
    exists id, recorded, l, iid, r. split; [done|]. split; [exact (replied_more _ _ _ _ _ _ P2 Hg1)|]. done.
  - assert (P : trace w `prefix_of` trace w3) by (eapply (emits_prefix (fun _ => True)); [|exact He]; effects).
    apply bind_ret in Hc as (id & w10 & Hr & Hc). apply ret_ret in Hc as [-> ->].
    eapply create_compute_ret in Hr as [Hr _]; [exact Hr|done|by etrans].
Qed.

End SubscribeRuns.

(** The calls of the body and then its writes. *)
Lemma subscribe_body_runs c config p customer env w w' :
  let ws := c_workspace c in
  subscribe_body c config p customer env w = (Ret tt, w') ->
  exists existing w3 created w4 row,
    (if Js.truthy (cw_stripeDeploySubscriptionId ws) then
       recorded <- call (SubscriptionsRetrieve (Js.coalesce (cw_stripeDeploySubscriptionId ws) EmptyString)) ;;
       ret (if isDeadSubscription recorded then None else Some recorded)
     else ret None) env w = (Ret existing, w3)
    /\ (match existing with
        | Some sub => resume_cancelled config p sub ;; ret None
        | None => id <- create_compute (cw_id ws) customer config p ;; ret (Some id)
        end) env w3 = (Ret created, w4)
    /\ trace w4 `prefix_of` trace w' /\ outbox_workspaceId row = cw_id ws
    /\ db w' = subscribed_db (cw_id ws) p (keeps_api_limits c) created row (db w).
Proof.
  intros ws H. unfold subscribe_body in H. fold ws in H. apply bind_ret in H as (existing & w3 & He & H).
  assert (E3 : db w3 = db w) by (eapply read_ret; [|exact He]; effects).
  apply bind_ret in H as (created & w4 & Hc & H).
  assert (E4 : db w4 = db w3) by (eapply read_ret; [|exact Hc]; effects).
  assert (P : trace w4 `prefix_of` trace w') by (eapply (emits_prefix (fun _ => True)); [|exact H]; effects).
  apply transaction_ret in H as (w5 & w6 & E5 & H & ->).
  apply bind_ret in H as (u1 & w7 & Hb & H). apply exec_ret in Hb.
  apply bind_ret in H as (u2 & w8 & Hl & H). unfold setWorkspaceLimits in Hl. apply exec_ret in Hl.
  apply bind_ret in H as (u3 & w9 & Hu & H). apply insert_one_ret in H as (row & Hrow & Hws & _).
  exists existing, w3, created, w4, row. repeat (split; [done|]).
  unfold subscribed_db. rewrite Hrow. f_equal. rewrite <- E3, <- E4, <- E5, <- Hb, <- Hl.
  destruct created as [id|]; [|by apply ret_ret in Hu as [_ ->]].
  destruct (Js.truthy_string id); [by apply exec_ret in Hu|by apply ret_ret in Hu as [_ ->]].
Qed.

Lemma guards_ret c env w config customer w' :
  subscribe_guards c env w = (Ret (config, customer), w') ->
  prices_in_force env w config /\ cw_stripeCustomerId (c_workspace c) = Some customer /\ trace w `prefix_of` trace w'.
Proof.
  intros H. assert (P : trace w `prefix_of` trace w').
  { eapply (emits_prefix (fun _ => True)); [|exact H]. unfold subscribe_guards, require_config. apply Emits_bind; [|effects].
    apply Emits_bind; [by apply Emits_deployBillingConfig|effects]. }
  unfold subscribe_guards, require_config in H. apply bind_ret in H as (config' & w1 & Hc & H).
  apply bind_ret in Hc as ([c'|] & w2 & Hc & Hr); [|done]. apply ret_ret in Hr as [-> _]. apply config_in_force in Hc.
  destruct (cw_stripeCustomerId (c_workspace c)) as [cus|]; [|done]. destruct (negb _); [done|]. destruct (Js.truthy _); [done|].
  apply bind_ret in H as (u & w3 & _ & H). apply ret_ret in H as [[= -> ->] _]. done.
Qed.



(** ** Changing the plan *)

Section ChangeFacts.

Lemma Emits_deactivate org : Emits harmless (deactivateNonCreatorMemberships org).
Proof.
  unfold deactivateNonCreatorMemberships. apply Emits_bind; [effects|]. intros [members invitations].
  apply Emits_bind; [|effects]. apply Emits_both; apply Emits_each; effects.
Qed.

Lemma Emits_config (P : Call -> Prop) : (forall keys, P (PricesList keys)) -> P DateNow -> Emits P require_config.
Proof. intros H1 H2. unfold require_config. apply Emits_bind; [by apply Emits_deployBillingConfig|effects]. Qed.

Lemma Atomic_changeDeployPlan p c : Atomic (changeDeployPlan p c).
Proof.
  unfold changeDeployPlan, requireWorkspaceAdmin, change_plan_tx. destruct (is_admin _); [|atomics].
  apply Atomic_bind_read; [effects|intros config]. destruct (negb _); [atomics|].
  apply Atomic_bind_read; [effects|intros []]. apply Atomic_bind_read; [effects|intros sub].
  apply Atomic_bind_read; [effects|intros l]. destruct (findPlanFeeItem config l) as [[iid q]|]; [|atomics].
  destruct (bool_decide _); [atomics|]. destruct (cancel_at_period_end sub); [atomics|].
  apply Atomic_bind_read; [unfold changeSubscriptionPrice; effects|intros [|url]; [|atomics]].
  apply Atomic_bind_last; [atomics|]. intros u. effects.
Qed.

Lemma unpaid_reads p c env w url w' :
  changeDeployPlan p c env w = (Ret (PaymentRequired url), w') -> db w' = db w.
Proof.
  unfold changeDeployPlan, requireWorkspaceAdmin. destruct (is_admin _); [|done]. intros H.
  apply bind_ret in H as (config & w1 & H1 & H). apply read_ret in H1; [|solve [effects]]. rewrite <- H1.
  destruct (negb _); [done|]. apply bind_ret in H as ([] & w2 & H2 & H). apply read_ret in H2; [|solve [effects]].
  apply bind_ret in H as (sub & w3 & H3 & H). apply read_ret in H3; [|solve [effects]].
  apply bind_ret in H as (l & w4 & H4 & H). apply read_ret in H4; [|solve [effects]].
  rewrite <- H2, <- H3, <- H4.
  destruct (findPlanFeeItem config l) as [[iid q]|]; [|done]. destruct (bool_decide _); [by apply ret_ret in H as [? _]|].
  destruct (cancel_at_period_end sub); [done|]. apply bind_ret in H as ([|url'] & w5 & H5 & H).
  - apply bind_ret in H as (u & w6 & _ & H). apply bind_ret in H as (u' & w7 & _ & H). by apply ret_ret in H as [? _].
  - apply ret_ret in H as [_ ->]. eapply read_ret; [|exact H5]. unfold changeSubscriptionPrice. effects.
Qed.

End ChangeFacts.

(** Closes a computation none of whose calls changes a subscription. *)
Ltac quiet HP := solve [eapply EmitsIn_Emits; [exact HP|effects]].

(** A change of the Compute subscription that the rules allow: the fee item of a
    subscription that will renew moves to the fee of the requested, different
    plan, without proration on a downgrade and invoiced at once otherwise. *)
Definition allowed_change (env : Env) (recorded : option string) (p : DeployPlan) (call : Call) : Prop :=
  changes_subscription call = true ->
  exists tr id sub l config iid current,
    recorded = Some id /\ ask env tr (SubscriptionsRetrieve id) = inr sub /\ cancel_at_period_end sub = false
    /\ items sub = Some l /\ findPlanFeeItem config l = Some (iid, current) /\ current <> p
    /\ call = SubscriptionsUpdate (sub_id sub) (ChangePrice iid (planFeePriceIds config p)
                 (if Nat.ltb (plan_rank p) (plan_rank current) then "none" else "always_invoice")).

(** A plan change touches nothing but the plan fee. Every call by which
    [changeDeployPlan] changes a subscription moves the plan-fee item of the
    recorded subscription, which is not set to cancel, to the price of the
    requested plan; a downgrade is not prorated, so nothing is refunded, and an
    upgrade is invoiced at once. When the procedure throws, or reports that the
    payment is outstanding, the database is unchanged. *)
Theorem changeDeployPlan_safe (p : DeployPlan) (c : WCtx) (env : Env) (w : World) :
  let '(o, w') := changeDeployPlan p c env w in
  (exists l, trace w' = trace w ++ l /\ Forall (allowed_change env (cw_stripeDeploySubscriptionId (c_workspace c)) p) l)
  /\ (match o with Ret Applied => True | _ => db w' = db w end).
Proof.
  set (P := allowed_change env (cw_stripeDeploySubscriptionId (c_workspace c)) p).
  assert (HP : forall call, harmless call -> P call).
  { intros call Hc Hs. unfold harmless in Hc. by rewrite Hs in Hc. }
  assert (HE : EmitsIn env P (changeDeployPlan p c)); cycle 1.
  { destruct (HE w) as (l & Hl & Hf). destruct (changeDeployPlan p c env w) as [[[|url]|e] w'] eqn:E; cbn [snd] in Hl.
    - split; [by exists l|done].
    - split; [by exists l|]. revert E. apply unpaid_reads.
    - split; [by exists l|]. by apply Atomic_changeDeployPlan in E. }
  unfold changeDeployPlan, requireWorkspaceAdmin. destruct (is_admin _); [|quiet HP].
  apply EmitsIn_bind; [by eapply EmitsIn_Emits; [exact HP|apply Emits_config]|intros w0 config w1 _].
  destruct (cw_stripeDeploySubscriptionId (c_workspace c)) as [id|] eqn:Eid; cbn [Js.truthy negb];
    [|quiet HP].
  destruct (negb _); [quiet HP|].
  apply EmitsIn_bind; [quiet HP|intros w2 [] w3 _].
  apply EmitsIn_bind; [quiet HP|intros w4 sub w5 Hsub]. call_in Hsub Hd.
  apply EmitsIn_bind; [quiet HP|intros w6 l w7 Hl].
  destruct (findPlanFeeItem config l) as [[iid q]|] eqn:Ef; [|quiet HP].
  destruct (bool_decide _) eqn:Eq; [quiet HP|].
  destruct (cancel_at_period_end sub) eqn:Ec; [quiet HP|].
  apply EmitsIn_bind.
  - apply EmitsIn_catch; [|intros; quiet HP]. unfold changeSubscriptionPrice.
    apply EmitsIn_bind; [|intros; quiet HP]. apply EmitsIn_call. intros _.
    exists (trace w4), id, sub, l, config, iid, q. apply bool_decide_eq_false in Eq. unfold items_data in Hl.
    destruct (items sub) as [l'|]; [|done]. apply ret_ret in Hl as [-> _]. done.
  - intros w8 [|url] w9 _; [|quiet HP].
    eapply EmitsIn_Emits; [exact HP|]. unfold change_plan_tx. apply Emits_bind; [effects|intros _].
    apply Emits_bind; [|effects]. destruct (_ && _); [apply Emits_deactivate|effects].
Qed.

(** ** Switching the API plan *)

(** The default price of a product, as the product or Stripe reports it. *)
Definition priced (env : Env) (product : Product) (priceId : string) (amount : option Z) : Prop :=
  (exists dp, default_price product = Some (RObj dp) /\ priceId = dp_id dp /\ amount = dp_unit_amount dp)
  \/ (exists tr pr, default_price product = Some (RId priceId) /\ ask env tr (PricesRetrieve priceId) = inr pr
        /\ amount = unit_amount pr).

(** Calls that book a later change. *)
Definition books_schedule (c : Call) : bool :=
  match c with SchedulesCreate _ | SchedulesUpdate _ _ => true | _ => false end.

Definition neutral (c : Call) : Prop := Is_true (negb (changes_subscription c) && negb (books_schedule c)).

(** The change of the API subscription that the rules allow. *)
Definition allowed_switch (env : Env) (newProductId : string) (call : Call) : Prop :=
  changes_subscription call || books_schedule call = true ->
  exists e tr product tr' id sub item current newPriceId newAmount,
    stripe_env env = Some e /\ allowed_product e newProductId = true
    /\ ask env tr (ProductsRetrieve newProductId) = inr product /\ priced env product newPriceId newAmount
    /\ ask env tr' (SubscriptionsRetrieve id) = inr sub /\ cancel_at_period_end sub = false
    /\ item_price item = Some current
    /\ if more_expensive (unit_amount current) newAmount then books_schedule call = true
       else call = SubscriptionsUpdate (sub_id sub) (ChangePrice (item_id item) newPriceId "always_invoice").

Section SwitchFacts.

Context (env : Env).

Lemma resolve_price_ret product price w id amount w' :
  default_price product = Some price -> resolve_price price env w = (Ret (id, amount), w') -> priced env product id amount.
Proof.
  intros Hd. unfold resolve_price. destruct price as [i|dp].
  - intros H. apply bind_ret in H as (pr & w1 & H1 & H). call_in H1 E1. apply ret_ret in H as [H _]. injection H as -> ->.
    right. by exists (trace w), pr.
  - intros H. apply ret_ret in H as [H _]. injection H as -> ->. left. by exists dp.
Qed.

Lemma Emits_retrieveSchedule (P : Call -> Prop) ref : (forall i, P (SchedulesRetrieve i)) -> Emits P (retrieveSchedule ref).
Proof. intros HP. destruct ref as [i|]; [exact (Emits_call P _ (HP i))|apply Emits_ret]. Qed.

Lemma Emits_scheduling (P : Call -> Prop) s ref a b :
  (forall i, P (SchedulesRetrieve i)) -> (forall i, P (SchedulesCreate i)) -> (forall i x, P (SchedulesUpdate i x)) ->
  (forall i, P (SchedulesRelease i)) -> Emits P (scheduleApiPlanDowngrade s ref a b).
Proof.
  intros H1 H2 H3 H4. unfold scheduleApiPlanDowngrade, configure_downgrade, assertManagedSchedule.
  repeat first [apply Emits_retrieveSchedule, H1 | apply Emits_call; first [apply H1|apply H2|apply H3|apply H4] | effect_step].
Qed.

Lemma Emits_release ref : Emits neutral (releaseScheduledApiPlanDowngrade ref).
Proof.
  unfold releaseScheduledApiPlanDowngrade, assertManagedSchedule. apply Emits_bind; [by apply Emits_retrieveSchedule|effects].
Qed.

Lemma Emits_record_change c product quotas up r : Emits neutral (record_change c product quotas up r).
Proof. unfold record_change, switch_tx. effects. Qed.

End SwitchFacts.

(** The API plan only moves as its rules allow. Every call by which
    [updateSubscription] changes the subscription or books a later change is for a
    product of the configured allow list, on a subscription that is not set to
    cancel. To a cheaper price it only books the change for the end of the
    period; otherwise it moves the API item to the default price of that product
    and invoices at once. *)
Theorem updateSubscription_safe (newProductId : string) (c : WCtx) (env : Env) (w : World) :
  exists l, trace (snd (updateSubscription newProductId c env w)) = trace w ++ l
    /\ Forall (allowed_switch env newProductId) l.
Proof.
  set (P := allowed_switch env newProductId).
  assert (HP : forall call, neutral call -> P call).
  { intros call Hc Hs. unfold neutral in Hc. rewrite <- negb_orb, Hs in Hc. done. }
  revert w. change (EmitsIn env P (updateSubscription newProductId c)).
  unfold updateSubscription, requireWorkspaceAdmin. destruct (is_admin _); [|quiet HP].
  apply EmitsIn_bind; [quiet HP|intros w0 [] w1 _].
  apply EmitsIn_bind; [quiet HP|intros w2 e w3 He]. apply stripeEnv_ret in He as [-> _].
  destruct (stripe_env env) as [e|] eqn:Ee; [|quiet HP].
  destruct (allowed_product e newProductId) eqn:Ea; cbn [negb]; [|quiet HP].
  do 2 (destruct (negb _); [quiet HP|]).
  apply EmitsIn_bind; [quiet HP|intros w4 product w5 Hpr]. call_in Hpr D1.
  destruct (validateAndParseQuotas product) as [quotas|]; [|quiet HP].
  apply EmitsIn_bind; [quiet HP|intros w6 sub w7 Hsub]. call_in Hsub D2.
  apply EmitsIn_bind; [eapply EmitsIn_Emits; [exact HP|by apply Emits_deployBillingConfig]|intros w8 config w9 _].
  apply EmitsIn_bind; [quiet HP|intros w10 data w11 _].
  destruct (findApiItem config data) as [item|]; [|quiet HP].
  destruct (default_price product) as [price|] eqn:Ed; [|quiet HP].
  apply EmitsIn_bind; [unfold resolve_price; quiet HP|intros w12 [newPriceId newAmount] w13 Hres].
  apply (resolve_price_ret env product) in Hres; [|done].
  destruct (item_price item) as [current|] eqn:Ei; [|quiet HP].
  destruct (cancel_at_period_end sub) eqn:Ec; [quiet HP|].
  assert (Hrule : forall call, (if more_expensive (unit_amount current) newAmount then books_schedule call = true
       else call = SubscriptionsUpdate (sub_id sub) (ChangePrice (item_id item) newPriceId "always_invoice")) -> P call).
  { intros call Hc _. by exists e, (trace w4), product, (trace w6), (Js.coalesce (cw_stripeSubscriptionId (c_workspace c)) EmptyString),
      sub, item, current, newPriceId, newAmount. }
  apply EmitsIn_bind; [|intros; eapply EmitsIn_Emits; [exact HP|apply Emits_record_change]].
  apply EmitsIn_catch; [|intros; quiet HP]. unfold change_at_stripe.
  destruct (more_expensive (unit_amount current) newAmount).
  - apply EmitsIn_bind; [|intros; quiet HP]. eapply (EmitsIn_Emits env P P); [done|].
    apply Emits_scheduling; intros; first [by apply HP | by apply Hrule].
  - apply EmitsIn_bind; [destruct (schedule sub); [|quiet HP]; eapply EmitsIn_Emits; [exact HP|apply Emits_release]|intros _ [] _ _].
    apply EmitsIn_bind; [|intros; quiet HP]. unfold changeSubscriptionPrice.
    apply EmitsIn_bind; [|intros; quiet HP]. by apply EmitsIn_call, Hrule.
Qed.

(** ** Cancelling Compute *)

(** There is no renewal to stop, Stripe reports the subscription dead, or Stripe
    accepted the cancellation. *)
Definition renewal_stopped (env : Env) (recorded : option string) : Prop :=
  Js.truthy recorded = false
  \/ exists tr, (exists sub, ask env tr (SubscriptionsRetrieve (Js.coalesce recorded EmptyString)) = inr sub
                             /\ isDeadSubscription sub = true)
     \/ (exists sub, ask env tr (SubscriptionsUpdate (Js.coalesce recorded EmptyString) CancelAtPeriodEnd) = inr sub).

Definition after_renewal (env : Env) (c : WCtx) (call : Call) : Prop :=
  match call with
  | DeprovisionCompute ws => ws = cw_id (c_workspace c) /\ renewal_stopped env (cw_stripeDeploySubscriptionId (c_workspace c))
  | _ => True
  end.

Definition no_teardown (call : Call) : Prop := match call with DeprovisionCompute _ => False | _ => True end.

Lemma cancelDeploySubscription_ret id env w u w' :
  cancelDeploySubscription id env w = (Ret u, w') ->
  exists tr, (exists sub, ask env tr (SubscriptionsRetrieve id) = inr sub /\ isDeadSubscription sub = true)
             \/ (exists sub, ask env tr (SubscriptionsUpdate id CancelAtPeriodEnd) = inr sub).
Proof.
  unfold cancelDeploySubscription. intros H. apply bind_ret in H as (sub & w1 & H1 & H). call_in H1 D1.
  destruct (isDeadSubscription sub) eqn:E; [exists (trace w); left; eauto|].
  apply bind_ret in H as (sub' & w2 & H2 & H). call_in H2 D2. exists (trace w1). right; eauto.
Qed.

(** Compute is cancelled in a safe order. [cancelDeploy] asks the control
    plane for a teardown, of this workspace only, once the renewal is stopped:
    there is no subscription, Stripe reports it dead, or Stripe accepted the
    cancellation at the end of the period. When it throws, the database is
    unchanged but for what the teardown had done, and when it returns the teardown was
    accepted. *)
Theorem cancelDeploy_order (c : WCtx) (env : Env) (w : World) :
  let '(o, w') := cancelDeploy c env w in
  (exists l, trace w' = trace w ++ l /\ Forall (after_renewal env c) l)
  /\ match o with
     | Throw _ => db w' = db w \/ exists p, db w' = torn_down p (cw_id (c_workspace c)) (db w)
     | Ret _ => exists tr, ask env tr (DeprovisionCompute (cw_id (c_workspace c))) = inr tt
     end.
Proof.
  set (P := after_renewal env c). assert (HP : forall call, no_teardown call -> P call) by (by intros []).
  assert (HE : EmitsIn env P (cancelDeploy c)).
  { unfold cancelDeploy, requireWorkspaceAdmin. destruct (is_admin _); [|quiet HP].
    apply EmitsIn_bind; [unfold cancelDeploySubscription; destruct (Js.truthy _); quiet HP|intros w0 [] w1 H1].
    apply EmitsIn_bind.
    - apply EmitsIn_catch; [|intros; quiet HP]. intros w9. apply Emits_deprovisionCompute.
      split; [done|]. destruct (Js.truthy _) eqn:Et; [right|by left].
      apply catch_ret in H1 as [H1|(e & w2 & _ & H1)]; [|done]. apply bind_ret in H1 as ([] & w2 & _ & H1).
      by eapply cancelDeploySubscription_ret.
    - intros _ _ _ _. eapply EmitsIn_Emits; [exact HP|]. apply Emits_bind; [effects|intros _].
      destruct (_ && _); [|effects]. unfold deactivateNonCreatorMemberships. apply Emits_bind; [effects|].
      intros [members invitations]. apply Emits_bind; [|effects]. apply Emits_both; apply Emits_each; effects. }
  destruct (HE w) as (l & Hl & Hf). destruct (cancelDeploy c env w) as [o w'] eqn:E; cbn [snd] in Hl.
  split; [by exists l|]. unfold cancelDeploy, requireWorkspaceAdmin in E. destruct (is_admin _); [|injection E as <- <-; by left].
  unfold bind at 1 in E. destruct (_ env w) as [[u1|e1] w1] eqn:E1 in E;
    (apply read_ret in E1; [|unfold cancelDeploySubscription; solve [effects]]); [|injection E as <- <-; by left].
  rewrite <- E1. unfold bind at 1 in E. destruct (catch _ _ env w1) as [[u2|e2] w2] eqn:E2.
  - apply catch_ret in E2 as [E2|(e & w3 & _ & E2)]; [|by destruct e]. apply deprovisionCompute_ret in E2 as [Hask E2].
    destruct o as [u|e]; [by exists (trace w1)|]. right. exists PlanCleared. rewrite <- E2. eapply atomic_throw; [|exact E].
    apply Atomic_bind_last; [apply Atomic_transaction|intros _]. destruct (_ && _); effects.
  - apply catch_throw in E2 as (e & w3 & E2 & E3). apply deprovisionCompute_throw in E2 as (p & _ & E2).
    injection E as <- <-. right. exists p. rewrite <- E2. eapply read_ret; [|exact E3]. destruct e; effects.
Qed.
