(* ===== verification/Claims.v ===== *)
(** * Concurrent subscriptions to Compute

    Several requests run [BillingRouter.subscribeDeploy] for one workspace at the
    same time, and their statements interleave. The step relation has one step per
    effect of the procedure on the shared database: the claim of the plan, the
    transaction of a subscription that succeeded, and the release of the claim of
    one that failed, which may itself fail. [subscribeDeploy_steps] shows that a run of the
    procedure is a path of these steps; [one_subscriber] is the invariant of all
    interleavings. *)

From Stdlib Require Import ZArith Bool String Lia.
From stdpp Require Import base list gmap strings relations.
From S2P Require Import Prelude Tables StripeTypes DeployPlan Effects Fixtures DeployBilling SubscriptionUtils BillingOps Trpc LinkSubscription Checkout BillingQueries BillingRouter.

Local Open Scope Z_scope.

(** Where a request is: [Leaked] is a failed request whose release failed too. *)
Inductive phase := Waiting | Holding | Refused | Subscribed | Released | Leaked.

#[export] Instance phase_eq_dec : EqDecision phase.
Proof. solve_decision. Defined.

Section Race.

(** The workspace and the plan each request asks for. *)
Context (workspaceId : string) (wants : nat -> DeployPlan).

Record Sys := { sys_db : Db; at_ : nat -> phase }.

Definition move (i : nat) (ph : phase) (f : nat -> phase) : nat -> phase := fun j => if Nat.eqb i j then ph else f j.

Definition plan_of (i : nat) : string := plan_name (wants i).

Inductive step : Sys -> Sys -> Prop :=
(* the guards refuse, or a call before the claim fails *)
| step_refuse d f i : f i = Waiting -> step {| sys_db := d; at_ := f |} {| sys_db := d; at_ := move i Refused f |}
| step_claim d f i : f i = Waiting -> claims workspaceId (plan_of i) (workspace_billing d) = true ->
    step {| sys_db := d; at_ := f |}
         {| sys_db := apply_stmt (ClaimPlan workspaceId (plan_of i)) d; at_ := move i Holding f |}
| step_lost d f i : f i = Waiting -> claims workspaceId (plan_of i) (workspace_billing d) = false ->
    step {| sys_db := d; at_ := f |}
         {| sys_db := apply_stmt (ClaimPlan workspaceId (plan_of i)) d; at_ := move i Refused f |}
| step_commit d f i preserve created row : f i = Holding ->
    step {| sys_db := d; at_ := f |}
         {| sys_db := subscribed_db workspaceId (wants i) preserve created row d; at_ := move i Subscribed f |}
| step_release d f i : f i = Holding ->
    step {| sys_db := d; at_ := f |}
         {| sys_db := apply_stmt (ReleasePlan workspaceId (plan_of i)) d; at_ := move i Released f |}
| step_leak d f i : f i = Holding -> step {| sys_db := d; at_ := f |} {| sys_db := d; at_ := move i Leaked f |}.

Definition reachable (d : Db) (s : Sys) : Prop := rtc step {| sys_db := d; at_ := fun _ => Waiting |} s.

(** The requests whose plan is in the billing row. *)
Definition owns (ph : phase) : bool := match ph with Holding | Subscribed | Leaked => true | _ => false end.

(** The plan in the billing row of the workspace. *)
Definition row_plan (d : Db) : option string := workspace_billing d !! workspaceId ≫= plan.

(** The row has the plan of its only owner. *)
Definition owned (s : Sys) : Prop :=
  forall i, owns (at_ s i) = true ->
    row_plan (sys_db s) = Some (plan_of i) /\ forall j, owns (at_ s j) = true -> j = i.

(** ** Facts *)

Lemma row_plan_claim q d : claims workspaceId q (workspace_billing d) = true ->
  row_plan d = None /\ row_plan (apply_stmt (ClaimPlan workspaceId q) d) = Some q.
Proof.
  intros Hc. cbn [apply_stmt]. rewrite Hc. unfold claims in Hc. unfold row_plan. cbn.
  destruct (workspace_billing d !! workspaceId) as [b|] eqn:E; [|done]. apply bool_decide_eq_true in Hc.
  rewrite lookup_alter_eq, E. by split.
Qed.

Lemma claim_lost q d : claims workspaceId q (workspace_billing d) = false -> apply_stmt (ClaimPlan workspaceId q) d = d.
Proof. intros Hc. cbn [apply_stmt]. by rewrite Hc. Qed.

Lemma row_plan_commit p preserve created row d :
  row_plan d = Some (plan_name p) -> row_plan (subscribed_db workspaceId p preserve created row d) = Some (plan_name p).
Proof.
  unfold row_plan, subscribed_db. intros Hd.
  assert (workspace_billing (apply_stmt (InsertOutbox [row])
    ((match created with
      | Some id => if Js.truthy_string id then apply_stmt (UpsertSubscription
          {| bs_workspaceId := workspaceId; bs_product := compute; stripeSubscriptionId := id |}) else fun d => d
      | None => fun d => d
      end)
     (apply_stmt (UpsertLimits workspaceId (limitValues (Some p) preserve no_update)
                    (limitColumns (Some p) preserve no_update))
       (apply_stmt (UpdateBilling workspaceId (plan_only (Some (plan_name p)))) d))))
    = alter (update_billing (plan_only (Some (plan_name p)))) workspaceId (workspace_billing d)) as ->
    by (destruct created as [id|]; [destruct (Js.truthy_string id)|]; done).
  rewrite lookup_alter_eq. by destruct (workspace_billing d !! workspaceId).
Qed.

Lemma owns_move i ph f j : owns (move i ph f j) = if Nat.eqb i j then owns ph else owns (f j).
Proof. unfold move. by destruct (Nat.eqb i j). Qed.

(** A request that gives up its place, or never had one, leaves the others. *)
Lemma owned_drop d d' f i ph :
  owns ph = false -> (forall j, j <> i -> owns (f j) = true -> row_plan d' = row_plan d) ->
  owned {| sys_db := d; at_ := f |} -> owned {| sys_db := d'; at_ := move i ph f |}.
Proof.
  intros Hph Hd Ho j. cbn. rewrite owns_move. destruct (Nat.eqb_spec i j) as [->|Hij]; [by rewrite Hph|].
  intros Hj. destruct (Ho j Hj) as [Hp Hu]. cbn in Hp, Hu. split; [by rewrite (Hd j)|].
  intros k. rewrite owns_move. destruct (Nat.eqb i k); [by rewrite Hph|apply Hu].
Qed.

(** The owner keeps its place. *)
Lemma owned_keep d d' f i ph :
  owns (f i) = true -> (row_plan d = Some (plan_of i) -> row_plan d' = Some (plan_of i)) ->
  owned {| sys_db := d; at_ := f |} -> owned {| sys_db := d'; at_ := move i ph f |}.
Proof.
  intros Hi Hd Ho j. destruct (Ho i Hi) as [Hp Hu]. cbn in *. rewrite owns_move. destruct (Nat.eqb_spec i j) as [->|Hij].
  - intros _. split; [by apply Hd|]. intros k. rewrite owns_move. destruct (Nat.eqb_spec j k); [done|apply Hu].
  - intros Hj. by apply Hu in Hj.
Qed.

Lemma owned_step s s' : step s s' -> owned s -> owned s'.
Proof.
  intros H Ho. destruct H as [d f i Hi|d f i Hi Hc|d f i Hi Hc|d f i preserve created row Hi|d f i Hi|d f i Hi].
  - by apply (owned_drop d).
  - apply row_plan_claim in Hc as [Hn Hs]. intros j. cbn. rewrite owns_move.
    assert (Hno : forall k, owns (f k) = true -> False) by (intros k Hk; destruct (Ho k Hk) as [Hp _]; cbn in Hp; congruence).
    destruct (Nat.eqb_spec i j) as [->|]; [|by intros ?%Hno]. intros _. split; [done|].
    intros k. rewrite owns_move. destruct (Nat.eqb_spec j k); [done|by intros ?%Hno].
  - rewrite claim_lost by done. by apply (owned_drop d).
  - apply (owned_keep d); [by rewrite Hi|apply row_plan_commit|done].
  - apply (owned_drop d); [done| |done]. intros j Hj Hown.
    assert (j = i) by (apply (Ho i); cbn; [by rewrite Hi|done]). done.
  - apply (owned_keep d); [by rewrite Hi|done|done].
Qed.

Lemma owned_reachable d s : reachable d s -> owned s.
Proof.
  unfold reachable. intros H. assert (Ho : owned {| sys_db := d; at_ := fun _ => Waiting |}) by done.
  induction H as [|s1 s2 s3 Hs _ IH]; [done|]. apply IH. by eapply owned_step.
Qed.

(** With a plan in the row from the start nobody claims. *)
Definition taken (q : string) (s : Sys) : Prop :=
  row_plan (sys_db s) = Some q /\ forall k, owns (at_ s k) = false.

Lemma taken_step q s s' : step s s' -> taken q s -> taken q s'.
Proof.
  intros Hs [Hp Ho]. assert (Hdrop : forall f i ph, owns ph = false -> (forall k, owns (f k) = false) ->
    forall k, owns (move i ph f k) = false).
  { intros f i ph Hph Hf k. rewrite owns_move. by destruct (Nat.eqb i k). }
  destruct Hs as [d f i Hi|d f i Hi Hc|d f i Hi Hc|d f i preserve created row Hi|d f i Hi|d f i Hi]; cbn [sys_db at_] in *;
    try (specialize (Ho i); rewrite Hi in Ho; done).
  - split; [done|]. by apply Hdrop.
  - apply row_plan_claim in Hc as [Hc _]. congruence.
  - split; cbn [sys_db at_]; [by rewrite claim_lost|]. by apply Hdrop.
Qed.

Lemma taken_reachable d s q : row_plan d = Some q -> reachable d s -> forall k, owns (at_ s k) = false.
Proof.
  intros Hq Hr. enough (taken q s) as [_ Ho] by exact Ho.
  assert (Ht : taken q {| sys_db := d; at_ := fun _ => Waiting |}) by done. unfold reachable in Hr.
  induction Hr as [|s1 s2 s3 Hs _ IH]; [done|]. apply IH. by eapply taken_step.
Qed.

End Race.

(** Claim C7. At most one of any number of concurrent requests subscribes. In every
    state that interleaved runs of [subscribeDeploy] on one workspace reach, at
    most one request has claimed the plan or is subscribed, whatever the plans
    they ask for, and the billing row carries exactly the plan of that request.
    If the row had a plan at the start, no request ever gets that far. *)
Theorem one_subscriber (workspaceId : string) (wants : nat -> DeployPlan) (d : Db) (s : Sys) (i j : nat) :
  reachable workspaceId wants d s -> owns (at_ s i) = true -> owns (at_ s j) = true ->
  i = j /\ row_plan workspaceId (sys_db s) = Some (plan_name (wants i)) /\ row_plan workspaceId d = None.
Proof.
  intros Hr Hi Hj. destruct (owned_reachable _ _ _ _ Hr i Hi) as [Hp Hu]. split; [by rewrite (Hu j Hj)|]. split; [exact Hp|].
  destruct (row_plan workspaceId d) as [q|] eqn:E; [|done]. exfalso.
  enough (forall k, owns (at_ s k) = false) by congruence. by eapply taken_reachable.
Qed.

(** Two requests for different plans: the second loses, the first subscribes. *)
Definition demo_wants (i : nat) : DeployPlan := match i with O => pro | _ => starter end.

Definition demo_row : OutboxRow :=
  {| outbox_version := OUTBOX_VERSION_V1; outbox_workspaceId := "ws_1"; outbox_eventId := "evt";
     outbox_payload := {| envelope_event_id := "evt"; envelope_time := 0; envelope_workspace_id := "ws_1";
       envelope_bucket := AUDIT_LOG_BUCKET; envelope_source := EVENT_SOURCE_PLATFORM; envelope_event := "workspace.update";
       envelope_description := "Subscribed to Compute pro plan."; envelope_actor := user_actor (demo_ctx customer_db);
       envelope_remote_ip := None; envelope_user_agent := None; envelope_targets := None; envelope_correlation_id := None |};
     outbox_createdAt := 0 |}.

Definition demo_race : Sys :=
  {| sys_db := subscribed_db "ws_1" pro false (Some "sub_compute"%string) demo_row
                 (apply_stmt (ClaimPlan "ws_1" "starter") (apply_stmt (ClaimPlan "ws_1" "pro") customer_db));
     at_ := move 0 Subscribed (move 1 Refused (move 0 Holding (fun _ => Waiting))) |}.

Lemma demo_race_reachable : reachable "ws_1" demo_wants customer_db demo_race.
Proof.
  eapply rtc_l; [apply (step_claim "ws_1" demo_wants _ _ 0); vm_compute; reflexivity|].
  eapply rtc_l; [apply (step_lost "ws_1" demo_wants _ _ 1); vm_compute; reflexivity|].
  eapply rtc_l; [|apply rtc_refl].
  apply (step_commit "ws_1" demo_wants _ _ 0 false (Some "sub_compute"%string) demo_row). reflexivity.
Qed.

Lemma one_subscriber_witness :
  row_plan "ws_1" (sys_db demo_race) = Some (plan_name pro) /\ row_plan "ws_1" customer_db = None.
Proof.
  exact (proj2 (one_subscriber "ws_1" demo_wants customer_db demo_race 0 0 demo_race_reachable eq_refl eq_refl)).
Defined.

(** Claim C23. The steps are those of the procedure. A run of [subscribeDeploy] by
    request [i], from any database, is a path of the step relation that moves only
    that request and ends with the database of the run: a run that returns ends
    subscribed, one that throws ends refused, released or, when the release itself
    failed, leaked. *)
Theorem subscribeDeploy_steps (wants : nat -> DeployPlan) (i : nat) (c : WCtx) (env : Env) (w w' : World)
    (o : Outcome unit) (f : nat -> phase) :
  f i = Waiting ->
  subscribeDeploy (wants i) c env w = (o, w') ->
  exists ph f', rtc (step (cw_id (c_workspace c)) wants) {| sys_db := db w; at_ := f |} {| sys_db := db w'; at_ := f' |}
    /\ (forall j, f' j = if Nat.eqb i j then ph else f j)
    /\ match o with Ret _ => ph = Subscribed | Throw _ => ph = Refused \/ ph = Released \/ ph = Leaked end.
Proof.
  intros Hf. set (ws := cw_id (c_workspace c)). unfold subscribeDeploy, requireWorkspaceAdmin.
  destruct (is_admin _); [|intros [= <- <-]; exists Refused, (move i Refused f); split; [by apply rtc_once, step_refuse|]; split; [done|by left]].
  unfold bind at 1. pose proof (ReadOnly_subscribe_guards c env w) as Hd.
  destruct (subscribe_guards c env w) as [[[config customer]|e] w1]; cbn [snd] in Hd; rewrite <- Hd.
  2: { intros [= <- <-]. exists Refused, (move i Refused f). split; [by apply rtc_once, step_refuse|]. split; [done|by left]. }
  unfold bind at 1. destruct (exec_claim _ _ env w1) as [[n|e] w2] eqn:Ec.
  2: { intros [= <- <-]. apply Atomic_exec_claim in Ec as ->. exists Refused, (move i Refused f).
       split; [by apply rtc_once, step_refuse|]. split; [done|by left]. }
  apply exec_claim_ret in Ec as [-> Ec]. destruct (claims _ _ (workspace_billing (db w1))) eqn:Ecl; cbn [Z.eqb Pos.eqb negb].
  2: { intros [= <- <-]. rewrite Ec. exists Refused, (move i Refused f). split; [by apply rtc_once, step_lost|]. split; [done|by left]. }
  assert (Hclaim : step ws wants {| sys_db := db w1; at_ := f |} {| sys_db := db w2; at_ := move i Holding f |})
    by (rewrite Ec; by apply step_claim).
  assert (Hh : move i Holding f i = Holding) by (unfold move; by rewrite Nat.eqb_refl).
  assert (Hm : forall ph j, move i ph (move i Holding f) j = if Nat.eqb i j then ph else f j)
    by (intros ph j; unfold move; by destruct (Nat.eqb i j)).
  unfold catch at 1. destruct (subscribe_body c config (wants i) customer env w2) as [[[]|e] w3] eqn:Eb.
  - intros [= <- <-]. apply subscribe_body_runs in Eb as (_ & _ & created & _ & row & _ & _ & _ & _ & ->).
    exists Subscribed, (move i Subscribed (move i Holding f)). split; [|split; [apply Hm|done]].
    eapply rtc_l; [exact Hclaim|]. by apply rtc_once, step_commit.
  - apply Atomic_subscribe_body in Eb. intros H. assert (exists e', o = Throw e') as [e' ->].
    { unfold bind, catch in H. destruct (exec _ env w3) as [[|] ?]; injection H as <- _; by eexists. }
    apply claim_release_run in H as [H|(H & _)]; rewrite Eb in H; rewrite H.
    + exists Released, (move i Released (move i Holding f)). split; [|split; [apply Hm|auto]].
      eapply rtc_l; [exact Hclaim|]. by apply rtc_once, step_release.
    + exists Leaked, (move i Leaked (move i Holding f)). split; [|split; [apply Hm|auto]].
      eapply rtc_l; [exact Hclaim|]. by apply rtc_once, step_leak.
Qed.

Lemma subscribeDeploy_steps_witness :
  exists w', subscribeDeploy pro (demo_ctx customer_db) demo_env (world_of customer_db) = (Ret tt, w')
    /\ exists ph f', rtc (step "ws_1" demo_wants) {| sys_db := customer_db; at_ := fun _ => Waiting |}
                       {| sys_db := db w'; at_ := f' |}
         /\ (forall j, f' j = if Nat.eqb 0 j then ph else Waiting) /\ ph = Subscribed.
Proof.
  eexists. split; [vm_compute; reflexivity|].
  refine (subscribeDeploy_steps demo_wants 0 (demo_ctx customer_db) demo_env (world_of customer_db) _ (Ret tt)
            (fun _ => Waiting) eq_refl _).
  vm_compute; reflexivity.
Defined.
