(* ===== verification/Authorization.v ===== *)
(** * Roles and permissions

    The procedures of web/apps/dashboard/lib/trpc/routers/rbac and
    lib/trpc/routers/authorization, and [upsertPermissions] of routers/rbac.ts. Tables
    and statements are those of Tables; columns compared under the collation of
    the server (names of roles and permissions, slugs) go through [fold]. Reads of the
    clock that only feed columns left out of Tables are left out too. *)

From Stdlib Require Import ZArith Bool Ascii String Lia.
From stdpp Require Import base list gmap strings relations.
From S2P Require Import Prelude Tables StripeTypes DeployPlan Effects Fixtures BillingOps Trpc Store.

Local Open Scope Z_scope.

(** The audit log of a procedure on its own workspace. *)
Definition rbac_log (c : WCtx) (event description : string) (resources : list Resource) (correlationId : option string) :
    UnkeyAuditLog :=
  user_log c (cw_id (c_workspace c)) event description resources correlationId.

(** [table.workspaceId = ws and table.id = id], for the three tables. *)
Definition own_permission (ws id : string) (r : Permission) : bool :=
  String.eqb (perm_workspaceId r) ws && String.eqb (perm_id r) id.
Definition own_role (ws id : string) (r : Role) : bool :=
  String.eqb (role_workspaceId r) ws && String.eqb (role_id r) id.
Definition own_key (ws id : string) (r : Key) : bool :=
  String.eqb (key_workspaceId r) ws && String.eqb (key_id r) id.

(** ** Connections *)

Definition MISSING_WORKSPACE : Exn :=
  not_found "We are unable to find the correct workspace. Please try again or contact support@unkey.com.".
Definition MISSING_ROLE : Exn :=
  not_found "We are unable to find the correct role. Please try again or contact support@unkey.com.".
Definition MISSING_PERMISSION : Exn :=
  not_found "We are unable to find the correct permission. Please try again or contact support@unkey.com.".
Definition MISSING_KEY : Exn :=
  not_found "We are unable to find the correct key. Please try again or contact support@unkey.com.".

Definition connectPermissionToRole (roleId permissionId : string) : WCtx -> M unit := fun c =>
  let failed := internal "We are unable to connect this permission to role. Please try again or contact support@unkey.com" in
  workspace <- or_throw (query (fun d =>
    match find_by_org (tenant_id (c_tenant c)) d with
    | None => None
    | Some ws => Some (ws_id ws, List.find (own_role (ws_id ws) roleId) (tables d schema_roles),
                       List.find (own_permission (ws_id ws) permissionId) (tables d schema_permissions))
    end)) failed ;;
  match workspace with
  | None => throw MISSING_WORKSPACE
  | Some (_, None, _) => throw MISSING_ROLE
  | Some (_, Some _, None) => throw MISSING_PERMISSION
  | Some (ws, Some role, Some permission) =>
      let tuple := {| rp_roleId := role_id role; rp_permissionId := perm_id permission; rp_workspaceId := ws |} in
      or_throw (transaction (
        or_throw (exec_sql (Upsert schema_rolesPermissions tuple (fun _ => tuple)))
          (internal "We are unable to connect the permission to the role. Please try again or contact support@unkey.com.") ;;
        insertAuditLogs [user_log c ws "authorization.connect_role_and_permission"
          ("Connect role " +:+ role_id role +:+ " to " +:+ perm_id permission)
          [resource "role" (role_id role) (Some (role_name role));
           resource "permission" (perm_id permission) (Some (perm_name permission))] None]))
        failed
  end.

Definition connectRoleToKey (roleId keyId : string) : WCtx -> M unit := fun c =>
  let failed := internal "We are unable to connect the role to the key. Please try again or contact support@unkey.com" in
  workspace <- or_throw (query (fun d =>
    match find_by_org (tenant_id (c_tenant c)) d with
    | None => None
    | Some ws => Some (ws_id ws, List.find (own_role (ws_id ws) roleId) (tables d schema_roles),
                       List.find (own_key (ws_id ws) keyId) (tables d schema_keys))
    end)) failed ;;
  match workspace with
  | None => throw MISSING_WORKSPACE
  | Some (_, None, _) => throw MISSING_ROLE
  | Some (_, Some _, None) => throw MISSING_KEY
  | Some (ws, Some role, Some key) =>
      let tuple := {| kr_keyId := key_id key; kr_roleId := role_id role; kr_workspaceId := ws |} in
      or_throw (transaction (
        or_throw (exec_sql (Upsert schema_keysRoles tuple (fun _ => tuple)))
          (internal "We are unable to connect the role and key. Please try again or contact support@unkey.com.") ;;
        insertAuditLogs [user_log c ws "authorization.connect_role_and_key"
          ("Connect role " +:+ role_id role +:+ " to " +:+ key_id key)
          [resource "role" (role_id role) (Some (role_name role));
           resource "key" (key_id key)
             (match key_name key with Some n => if Js.truthy_string n then Some n else None | None => None end)] None]))
        failed
  end.

Definition disconnectPermissionFromRole (roleId permissionId : string) : WCtx -> M unit := fun c =>
  let ws := cw_id (c_workspace c) in
  or_throw (transaction (
    exec_sql (Delete schema_rolesPermissions (fun r =>
      String.eqb (rp_workspaceId r) ws && String.eqb (rp_roleId r) roleId && String.eqb (rp_permissionId r) permissionId)) ;;
    insertAuditLogs [rbac_log c "authorization.disconnect_role_and_permissions"
      ("Disconnect role " +:+ roleId +:+ " from permission " +:+ permissionId)
      [resource "role" roleId None; resource "permission" permissionId None] None]))
    (internal "We are unable to disconnect the permission from the role. Please try again or contact support@unkey.com").

Definition disconnectRoleFromKey (roleId keyId : string) : WCtx -> M unit := fun c =>
  let ws := cw_id (c_workspace c) in
  or_throw (transaction (
    exec_sql (Delete schema_keysRoles (fun r =>
      String.eqb (kr_workspaceId r) ws && String.eqb (kr_roleId r) roleId && String.eqb (kr_keyId r) keyId)) ;;
    insertAuditLogs [rbac_log c "authorization.disconnect_role_and_key"
      ("Disconnect role " +:+ roleId +:+ " from " +:+ keyId)
      [resource "role" roleId None; resource "key" keyId None] None]))
    (internal "We are unable to disconnect the role from the key. Please try again or contact support@unkey.com").

(** ** Permissions *)

Definition named_permission (fold : string -> string) (ws name : string) (r : Permission) : bool :=
  String.eqb (perm_workspaceId r) ws && String.eqb (fold (perm_name r)) (fold name).

Definition slugged_permission (fold : string -> string) (ws slug : string) (r : Permission) : bool :=
  String.eqb (perm_workspaceId r) ws && String.eqb (fold (perm_slug r)) (fold slug).

Definition createPermission (name : string) (description : option string) : WCtx -> M string := fun c =>
  let ws := cw_id (c_workspace c) in
  permissionId <- new_id "permission" ;;
  or_throw (transaction (
    projectId <- ensureDefaultProjectId ws ;;
    existing <- find_first schema_permissions (fun fold => named_permission fold ws name) ;;
    match existing with
    | Some _ => throw (conflict
        "Permission with the same name already exists. To update it, go to 'Authorization' in the sidebar.")
    | None =>
        exec_sql (Insert schema_permissions
          [{| perm_id := permissionId; perm_workspaceId := ws; perm_projectId := projectId; perm_name := name;
              perm_slug := name; perm_description := description |}]) ;;
        insertAuditLogs [rbac_log c "permission.create" ("Created " +:+ permissionId)
          [resource "permission" permissionId (Some name)] None]
    end))
    (internal "We are unable to create a permission. Please try again or contact support@unkey.com.") ;;
  ret permissionId.

Definition deletePermission (permissionId : string) : WCtx -> M unit := fun c =>
  let ws := cw_id (c_workspace c) in
  or_throw (transaction (
    permission <- find_first schema_permissions (fun _ => own_permission ws permissionId) ;;
    match permission with
    | None => throw MISSING_PERMISSION
    | Some permission =>
        exec_sql (Delete schema_permissions (own_permission ws (perm_id permission))) ;;
        insertAuditLogs [rbac_log c "permission.delete" ("Deleted permission " +:+ permissionId)
          [resource "permission" permissionId (Some (perm_name permission))] None]
    end))
    (internal "We are unable to delete the permission. Please try again or contact support@unkey.com").

Definition set_permission (name slug : option string) (description : option (option string)) (r : Permission) : Permission :=
  {| perm_id := perm_id r; perm_workspaceId := perm_workspaceId r; perm_projectId := perm_projectId r;
     perm_name := Js.coalesce name (perm_name r); perm_slug := Js.coalesce slug (perm_slug r);
     perm_description := Js.coalesce description (perm_description r) |}.

Definition updatePermission (id name : string) (description : option string) : WCtx -> M unit := fun c =>
  permission <- find_first schema_permissions (fun _ => own_permission (cw_id (c_workspace c)) id) ;;
  match permission with
  | None => throw MISSING_PERMISSION
  | Some permission =>
      or_throw (transaction (
        exec_sql (Update schema_permissions (fun r => String.eqb (perm_id r) (perm_id permission))
                    (set_permission (Some name) None (Some description))) ;;
        insertAuditLogs [rbac_log c "permission.update" ("Update permission " +:+ id)
          [resource "permission" id (Some name)] None]))
        (internal "We are unable to update the permission. Please try again or contact support@unkey.com.")
  end.

(** The function [upsertPermission] of routers/rbac, by name; [user] is [ctx.user]. *)
Definition upsertPermission_byName (c : WCtx) (workspaceId name : string) : M Permission :=
  let failed := internal "We are unable to upsert the permission. Please try again or contact support@unkey.com" in
  transaction (
    existing <- or_throw (find_first schema_permissions (fun fold => named_permission fold workspaceId name)) failed ;;
    match existing with
    | Some p => ret p
    | None =>
        projectId <- ensureDefaultProjectId workspaceId ;;
        id <- new_id "permission" ;;
        let permission := {| perm_id := id; perm_workspaceId := workspaceId; perm_projectId := projectId;
                             perm_name := name; perm_slug := name; perm_description := None |} in
        or_throw (exec_sql (Insert schema_permissions [permission]))
          (internal "We are unable to upsert the permission. Please try again or contact support@unkey.com.") ;;
        or_throw (insertAuditLogs [user_log c workspaceId "permission.create" ("Created " +:+ id)
          [resource "permission" id (Some name)] None]) failed ;;
        ret permission
    end).

(** [upsertPermissions]: one permission per slug, with the logs of the new ones. *)
Fixpoint plan_permissions (c : WCtx) (workspaceId projectId : string) (existing : list Permission) (slugs : list string) :
    M (list Permission * list Permission * list UnkeyAuditLog) :=
  match slugs with
  | [] => ret ([], [], [])
  | slug :: slugs' =>
      match List.find (fun p => String.eqb (perm_slug p) slug) existing with
      | Some p =>
          rest <- plan_permissions c workspaceId projectId existing slugs' ;;
          let '(all, new, logs) := rest in ret (p :: all, new, logs)
      | None =>
          id <- new_id "permission" ;;
          let p := {| perm_id := id; perm_workspaceId := workspaceId; perm_projectId := projectId; perm_name := slug;
                      perm_slug := slug; perm_description := None |} in
          let log := user_log c workspaceId "permission.create" ("Created " +:+ id) [resource "permission" id (Some slug)] None in
          rest <- plan_permissions c workspaceId projectId existing slugs' ;;
          let '(all, new, logs) := rest in ret (p :: all, p :: new, log :: logs)
      end
  end.

Definition upsertPermissions (c : WCtx) (workspaceId : string) (slugs : list string) :
    M (list Permission * list UnkeyAuditLog) :=
  transaction (
    projectId <- ensureDefaultProjectId workspaceId ;;
    existing <- find_many schema_permissions (fun fold r =>
      String.eqb (perm_workspaceId r) workspaceId && Js.includes (List.map fold slugs) (fold (perm_slug r))) ;;
    planned <- plan_permissions c workspaceId projectId existing slugs ;;
    let '(permissions, newPermissions, auditLogs) := planned in
    (match newPermissions with [] => ret tt | _ => exec_sql (Insert schema_permissions newPermissions) end) ;;
    ret (permissions, auditLogs)).

(** ** Roles *)

Definition named_role (fold : string -> string) (ws name : string) (r : Role) : bool :=
  String.eqb (role_workspaceId r) ws && String.eqb (fold (role_name r)) (fold name).

(** The ids that are not among the ids found. *)
Definition missing_ids (found ids : list string) : list string :=
  List.filter (fun id => negb (Js.includes found id)) ids.

Definition assertPermissionsInWorkspace (workspaceId : string) (permissionIds : list string) : M unit :=
  match permissionIds with
  | [] => ret tt
  | _ =>
      found <- find_many schema_permissions (fun _ r =>
        String.eqb (perm_workspaceId r) workspaceId && Js.includes permissionIds (perm_id r)) ;;
      match missing_ids (List.map perm_id found) permissionIds with
      | [] => ret tt
      | missing => throw (not_found ("Permission(s) not found or not in this workspace: " +:+ Str.join ", " missing))
      end
  end.

Definition assertKeysInWorkspace (workspaceId : string) (keyIds : list string) : M unit :=
  match keyIds with
  | [] => ret tt
  | _ =>
      found <- find_many schema_keys (fun _ r =>
        String.eqb (key_workspaceId r) workspaceId && Js.includes keyIds (key_id r)) ;;
      match missing_ids (List.map key_id found) keyIds with
      | [] => ret tt
      | missing => throw (not_found ("Key(s) not found or not in this workspace: " +:+ Str.join ", " missing))
      end
  end.

Definition role_permissions (ws roleId : string) (permissionIds : list string) : list RolePermission :=
  List.map (fun id => {| rp_roleId := roleId; rp_permissionId := id; rp_workspaceId := ws |}) permissionIds.

Definition key_roles (ws roleId : string) (keyIds : list string) : list KeyRole :=
  List.map (fun id => {| kr_keyId := id; kr_roleId := roleId; kr_workspaceId := ws |}) keyIds.

Definition createRole (name : string) (description : option string) (permissionIds_ : option (list string)) :
    WCtx -> M string := fun c =>
  let ws := cw_id (c_workspace c) in
  roleId <- new_id "role" ;;
  let permissionIds := Js.coalesce permissionIds_ [] in
  correlationId <- new_id "correlation" ;;
  catch (transaction (
    projectId <- ensureDefaultProjectId ws ;;
    existing <- find_first schema_roles (fun fold => named_role fold ws name) ;;
    match existing with
    | Some _ => throw (conflict
        "Role with the same name already exists. To update it, go to 'Authorization' in the sidebar.")
    | None =>
        assertPermissionsInWorkspace ws permissionIds ;;
        or_throw (exec_sql (Insert schema_roles
          [{| role_id := roleId; role_workspaceId := ws; role_projectId := projectId; role_name := name;
              role_description := description |}]))
          (internal "We are unable to create a role. Please try again or contact support@unkey.com.") ;;
        insertAuditLogs [rbac_log c "role.create" ("Created " +:+ roleId) [resource "role" roleId (Some name)]
          (Some correlationId)] ;;
        match permissionIds with
        | [] => ret tt
        | _ =>
            exec_sql (Insert schema_rolesPermissions (role_permissions ws roleId permissionIds)) ;;
            insertAuditLogs (List.map (fun id =>
              rbac_log c "authorization.connect_role_and_permission" ("Connected " +:+ roleId +:+ " and " +:+ id)
                [resource "role" roleId (Some name); resource "permission" id None] (Some correlationId)) permissionIds)
        end
    end))
    (fun err =>
       match err with
       | TRPCError _ _ => throw err
       | _ => throw (internal "We are unable to create role. Please try again or contact support@unkey.com")
       end) ;;
  ret roleId.

Definition set_role (name : string) (description : option (option string)) (r : Role) : Role :=
  {| role_id := role_id r; role_workspaceId := role_workspaceId r; role_projectId := role_projectId r;
     role_name := name; role_description := Js.coalesce description (role_description r) |}.

Definition updateRole (id name : string) (description : option string) : WCtx -> M unit := fun c =>
  role <- find_first schema_roles (fun _ => own_role (cw_id (c_workspace c)) id) ;;
  match role with
  | None => throw MISSING_ROLE
  | Some role =>
      or_throw (transaction (
        exec_sql (Update schema_roles (fun r => String.eqb (role_id r) (role_id role)) (fun r =>
          {| role_id := id; role_workspaceId := role_workspaceId r; role_projectId := role_projectId r;
             role_name := name; role_description := description |})) ;;
        insertAuditLogs [rbac_log c "role.update" ("Updated role " +:+ id) [resource "role" id (Some name)] None]))
        (internal "We are unable to update the role. Please try again or contact support@unkey.com.")
  end.

Record UpsertRoleInput := {
  ur_roleId : option string;
  ur_roleName : string;
  ur_roleDescription : option string;
  ur_permissionIds : option (list string);
  ur_keyIds : option (list string);
}.

(** The permissions of the role become exactly the given ones. *)
Definition assign_permissions (c : WCtx) (roleId roleName correlationId : string) (permissionIds : list string) : M unit :=
  let ws := cw_id (c_workspace c) in
  match permissionIds with
  | [] => ret tt
  | _ =>
      or_throw (exec_sql (Insert schema_rolesPermissions (role_permissions ws roleId permissionIds)))
        (internal "Failed to assign permissions to role") ;;
      insertAuditLogs (List.map (fun id =>
        rbac_log c "authorization.connect_role_and_permission" ("Connected role " +:+ roleId +:+ " and permission " +:+ id)
          [resource "role" roleId (Some roleName); resource "permission" id None] (Some correlationId)) permissionIds)
  end.

Definition assign_keys (c : WCtx) (roleId roleName correlationId : string) (keyIds : list string) : M unit :=
  let ws := cw_id (c_workspace c) in
  match keyIds with
  | [] => ret tt
  | _ =>
      or_throw (exec_sql (Insert schema_keysRoles (key_roles ws roleId keyIds)))
        (internal "Failed to assign keys to role") ;;
      insertAuditLogs (List.map (fun id =>
        rbac_log c "authorization.connect_role_and_key" ("Connected key " +:+ id +:+ " and role " +:+ roleId)
          [resource "key" id None; resource "role" roleId (Some roleName)] (Some correlationId)) keyIds)
  end.

Definition role_conflict (name : string) : Exn := conflict ("Role with name '" +:+ name +:+ "' already exists").

(** The branch of an existing role. *)
Definition upsertRole_update (c : WCtx) (roleId correlationId : string) (input : UpsertRoleInput) : M unit :=
  let ws := cw_id (c_workspace c) in
  let name := ur_roleName input in
  existingRole <- find_first schema_roles (fun _ => own_role ws roleId) ;;
  match existingRole with
  | None => throw (not_found "Role not found or access denied")
  | Some existing =>
      assertPermissionsInWorkspace ws (Js.coalesce (ur_permissionIds input) []) ;;
      assertKeysInWorkspace ws (Js.coalesce (ur_keyIds input) []) ;;
      nameConflict <- (if negb (String.eqb (role_name existing) name) then
                         find_first schema_roles (fun fold r => named_role fold ws name r && negb (String.eqb (role_id r) roleId))
                       else ret None) ;;
      match nameConflict with
      | Some _ => throw (role_conflict name)
      | None =>
          or_throw (exec_sql (Update schema_roles (own_role ws roleId)
            (set_role name (option_map Some (ur_roleDescription input)))))
            (internal "Failed to update role") ;;
          (match ur_permissionIds input with
           | None => ret tt
           | Some permissionIds =>
               exec_sql (Delete schema_rolesPermissions (fun r =>
                 String.eqb (rp_roleId r) roleId && String.eqb (rp_workspaceId r) ws)) ;;
               assign_permissions c roleId name correlationId permissionIds
           end) ;;
          (match ur_keyIds input with
           | None => ret tt
           | Some keyIds =>
               exec_sql (Delete schema_keysRoles (fun r =>
                 String.eqb (kr_roleId r) roleId && String.eqb (kr_workspaceId r) ws)) ;;
               assign_keys c roleId name correlationId keyIds
           end) ;;
          insertAuditLogs [rbac_log c "role.update" ("Updated role " +:+ roleId) [resource "role" roleId (Some name)]
            (Some correlationId)]
      end
  end.

(** The branch of a new role. *)
Definition upsertRole_create (c : WCtx) (roleId correlationId : string) (input : UpsertRoleInput) : M unit :=
  let ws := cw_id (c_workspace c) in
  let name := ur_roleName input in
  projectId <- ensureDefaultProjectId ws ;;
  nameConflict <- find_first schema_roles (fun fold => named_role fold ws name) ;;
  match nameConflict with
  | Some _ => throw (role_conflict name)
  | None =>
      let permissionIds := Js.coalesce (ur_permissionIds input) [] in
      let keyIds := Js.coalesce (ur_keyIds input) [] in
      assertPermissionsInWorkspace ws permissionIds ;;
      assertKeysInWorkspace ws keyIds ;;
      or_throw (exec_sql (Insert schema_roles
        [{| role_id := roleId; role_workspaceId := ws; role_projectId := projectId; role_name := name;
            role_description := ur_roleDescription input |}]))
        (internal "Failed to create role") ;;
      assign_permissions c roleId name correlationId permissionIds ;;
      assign_keys c roleId name correlationId keyIds ;;
      insertAuditLogs [rbac_log c "role.create" ("Created role " +:+ roleId) [resource "role" roleId (Some name)]
        (Some correlationId)]
  end.

(** The id of the role and whether it was updated. *)
Definition upsertRole (input : UpsertRoleInput) : WCtx -> M (string * bool) := fun c =>
  let isUpdate := Js.truthy (ur_roleId input) in
  roleId <- (if isUpdate then ret (Js.coalesce (ur_roleId input) EmptyString) else new_id "role") ;;
  if negb (Js.truthy_string roleId) then throw (internal "Failed to generate role ID")
  else
    correlationId <- new_id "correlation" ;;
    transaction (if isUpdate then upsertRole_update c roleId correlationId input
                 else upsertRole_create c roleId correlationId input) ;;
    ret (roleId, isUpdate).

Definition deleteRoleWithRelations (roleIds : list string) : WCtx -> M Z := fun c =>
  let ws := cw_id (c_workspace c) in
  let failed := internal "We are unable to delete the roles. Please try again or contact support@unkey.com" in
  match roleIds with
  | [] => throw (TRPCError "BAD_REQUEST" "At least one role ID must be provided.")
  | _ =>
      transaction (
        roles <- find_many schema_roles (fun _ r => String.eqb (role_workspaceId r) ws && Js.includes roleIds (role_id r)) ;;
        if negb (Nat.eqb (List.length roles) (List.length roleIds)) then
          throw (not_found ("Role(s) not found: " +:+ Str.join ", " (missing_ids (List.map role_id roles) roleIds)
                            +:+ ". Please try again or contact support@unkey.com."))
        else
          or_throw (exec_sql (Delete schema_rolesPermissions (fun r =>
            Js.includes roleIds (rp_roleId r) && String.eqb (rp_workspaceId r) ws))) failed ;;
          or_throw (exec_sql (Delete schema_keysRoles (fun r =>
            Js.includes roleIds (kr_roleId r) && String.eqb (kr_workspaceId r) ws))) failed ;;
          or_throw (exec_sql (Delete schema_roles (fun r =>
            Js.includes roleIds (role_id r) && String.eqb (role_workspaceId r) ws))) failed ;;
          or_throw (insertAuditLogs [rbac_log c "role.delete"
            ("Deleted " +:+ Num.string_of_Z (Z.of_nat (List.length roles)) +:+ " role(s): "
             +:+ Str.join ", " (List.map role_name roles))
            (List.map (fun r => resource "role" (role_id r) (Some (role_name r))) roles) None])
            (internal "We are unable to delete the roles. Please try again or contact support@unkey.com.")) ;;
      ret (Z.of_nat (List.length roleIds))
  end.

(** ** Permissions with their relations *)

Record UpsertPermissionInput := {
  up_permissionId : option string;
  up_name : string;
  up_slug : string;
  up_description : option string;
}.

Definition permission_conflict (what value : string) : Exn :=
  conflict ("Permission with " +:+ what +:+ " '" +:+ value +:+ "' already exists").

Definition upsertPermission_update (c : WCtx) (permissionId : string) (input : UpsertPermissionInput) : M unit :=
  let ws := cw_id (c_workspace c) in
  existing <- find_first schema_permissions (fun _ => own_permission ws permissionId) ;;
  match existing with
  | None => throw (not_found "Permission not found or access denied")
  | Some existing =>
      let other r := negb (String.eqb (perm_id r) permissionId) in
      nameConflict <- (if negb (String.eqb (perm_name existing) (up_name input)) then
                         find_first schema_permissions (fun fold r => named_permission fold ws (up_name input) r && other r)
                       else ret None) ;;
      match nameConflict with
      | Some _ => throw (permission_conflict "name" (up_name input))
      | None =>
          slugConflict <- (if negb (String.eqb (perm_slug existing) (up_slug input)) then
                             find_first schema_permissions (fun fold r => slugged_permission fold ws (up_slug input) r && other r)
                           else ret None) ;;
          match slugConflict with
          | Some _ => throw (permission_conflict "slug" (up_slug input))
          | None =>
              or_throw (exec_sql (Update schema_permissions (own_permission ws permissionId)
                (set_permission (Some (up_name input)) (Some (up_slug input)) (option_map Some (up_description input)))))
                (internal "Failed to update permission") ;;
              insertAuditLogs [rbac_log c "permission.update" ("Updated permission " +:+ permissionId)
                [resource "permission" permissionId (Some (up_name input))] None]
          end
      end
  end.

Definition upsertPermission_create (c : WCtx) (permissionId : string) (input : UpsertPermissionInput) : M unit :=
  let ws := cw_id (c_workspace c) in
  projectId <- ensureDefaultProjectId ws ;;
  nameConflict <- find_first schema_permissions (fun fold => named_permission fold ws (up_name input)) ;;
  slugConflict <- find_first schema_permissions (fun fold => slugged_permission fold ws (up_slug input)) ;;
  match nameConflict, slugConflict with
  | Some _, _ => throw (permission_conflict "name" (up_name input))
  | _, Some _ => throw (permission_conflict "slug" (up_slug input))
  | None, None =>
      or_throw (exec_sql (Insert schema_permissions
        [{| perm_id := permissionId; perm_workspaceId := ws; perm_projectId := projectId; perm_name := up_name input;
            perm_slug := up_slug input; perm_description := up_description input |}]))
        (internal "Failed to create permission") ;;
      insertAuditLogs [rbac_log c "permission.create" ("Created permission " +:+ permissionId)
        [resource "permission" permissionId (Some (up_name input))] None]
  end.

Definition upsertPermission (input : UpsertPermissionInput) : WCtx -> M (string * bool) := fun c =>
  let isUpdate := Js.truthy (up_permissionId input) in
  permissionId <- (if isUpdate then ret (Js.coalesce (up_permissionId input) EmptyString) else new_id "permission") ;;
  if negb (Js.truthy_string permissionId) then throw (internal "Failed to generate permission ID")
  else
    transaction (if isUpdate then upsertPermission_update c permissionId input
                 else upsertPermission_create c permissionId input) ;;
    ret (permissionId, isUpdate).

Definition deletePermissionWithRelations (permissionIds : list string) : WCtx -> M Z := fun c =>
  let ws := cw_id (c_workspace c) in
  let failed := internal "We are unable to delete the permissions. Please try again or contact support@unkey.com" in
  match permissionIds with
  | [] => throw (TRPCError "BAD_REQUEST" "At least one permission ID must be provided.")
  | _ =>
      transaction (
        permissions <- find_many schema_permissions (fun _ r =>
          String.eqb (perm_workspaceId r) ws && Js.includes permissionIds (perm_id r)) ;;
        if negb (Nat.eqb (List.length permissions) (List.length permissionIds)) then
          throw (not_found ("Permission(s) not found: "
            +:+ Str.join ", " (missing_ids (List.map perm_id permissions) permissionIds)
            +:+ ". Please try again or contact support@unkey.com."))
        else
          or_throw (exec_sql (Delete schema_rolesPermissions (fun r =>
            Js.includes permissionIds (rp_permissionId r) && String.eqb (rp_workspaceId r) ws))) failed ;;
          or_throw (exec_sql (Delete schema_keysPermissions (fun r =>
            Js.includes permissionIds (kp_permissionId r) && String.eqb (kp_workspaceId r) ws))) failed ;;
          or_throw (exec_sql (Delete schema_permissions (fun r =>
            Js.includes permissionIds (perm_id r) && String.eqb (perm_workspaceId r) ws))) failed ;;
          or_throw (insertAuditLogs [rbac_log c "permission.delete"
            ("Deleted " +:+ Num.string_of_Z (Z.of_nat (List.length permissions)) +:+ " permission(s): "
             +:+ Str.join ", " (List.map perm_name permissions))
            (List.map (fun p => resource "permission" (perm_id p) (Some (perm_name p))) permissions) None])
            (internal "We are unable to delete the permissions. Please try again or contact support@unkey.com.")) ;;
      ret (Z.of_nat (List.length permissionIds))
  end.

(** ** Referential integrity *)

Definition has_role (d : Tables) (id ws : string) : Prop :=
  exists r, In r (d schema_roles) /\ role_id r = id /\ role_workspaceId r = ws.
Definition has_permission (d : Tables) (id ws : string) : Prop :=
  exists r, In r (d schema_permissions) /\ perm_id r = id /\ perm_workspaceId r = ws.
Definition has_key (d : Tables) (id ws : string) : Prop :=
  exists r, In r (d schema_keys) /\ key_id r = id /\ key_workspaceId r = ws.

(** Every connection is of the workspace of its role, which exists. *)
Record rooted (d : Tables) : Prop := {
  rooted_rp : forall r, In r (d schema_rolesPermissions) -> has_role d (rp_roleId r) (rp_workspaceId r);
  rooted_kr : forall r, In r (d schema_keysRoles) -> has_role d (kr_roleId r) (kr_workspaceId r);
}.

(** Every connection is between two things of its own workspace that exist. *)
Record linked (d : Tables) : Prop := {
  linked_rp : forall r, In r (d schema_rolesPermissions) ->
    has_role d (rp_roleId r) (rp_workspaceId r) /\ has_permission d (rp_permissionId r) (rp_workspaceId r);
  linked_kr : forall r, In r (d schema_keysRoles) ->
    has_role d (kr_roleId r) (kr_workspaceId r) /\ has_key d (kr_keyId r) (kr_workspaceId r);
  linked_kp : forall r, In r (d schema_keysPermissions) ->
    has_permission d (kp_permissionId r) (kp_workspaceId r) /\ has_key d (kp_keyId r) (kp_workspaceId r);
}.

(** The two invariants at once: [rooted], and [linked] when [strict]. *)
Record sound (strict : bool) (d : Tables) : Prop := {
  sound_rp : forall r, In r (d schema_rolesPermissions) ->
    has_role d (rp_roleId r) (rp_workspaceId r) /\ (strict = true -> has_permission d (rp_permissionId r) (rp_workspaceId r));
  sound_kr : forall r, In r (d schema_keysRoles) ->
    has_role d (kr_roleId r) (kr_workspaceId r) /\ (strict = true -> has_key d (kr_keyId r) (kr_workspaceId r));
  sound_kp : forall r, In r (d schema_keysPermissions) -> strict = true ->
    has_permission d (kp_permissionId r) (kp_workspaceId r) /\ has_key d (kp_keyId r) (kp_workspaceId r);
}.

Lemma sound_rooted d : sound false d <-> rooted d.
Proof.
  split.
  - intros [H1 H2 _]. split; intros r Hr; [apply (H1 r Hr)|apply (H2 r Hr)].
  - intros [H1 H2]. split; intros r Hr; [split; [auto|done]|split; [auto|done]|done].
Qed.

Lemma sound_linked d : sound true d <-> linked d.
Proof.
  split; intros [H1 H2 H3]; (split; intros r Hr); [destruct (H1 r Hr)|destruct (H2 r Hr)|first [destruct (H3 r Hr) | destruct (H3 r Hr eq_refl)]
    |destruct (H1 r Hr)|destruct (H2 r Hr)|intros _; destruct (H3 r Hr)]; auto.
Qed.

(** Nothing that exists disappears. *)
Record grows (d d' : Tables) : Prop := {
  grows_role : forall id ws, has_role d id ws -> has_role d' id ws;
  grows_permission : forall id ws, has_permission d id ws -> has_permission d' id ws;
  grows_key : forall id ws, has_key d id ws -> has_key d' id ws;
}.

(** The connections of [d'] are those of [d] or new ones that are sound. *)
Record connects (strict : bool) (d d' : Tables) : Prop := {
  connects_rp : forall r, In r (d' schema_rolesPermissions) -> In r (d schema_rolesPermissions)
    \/ has_role d' (rp_roleId r) (rp_workspaceId r) /\ (strict = true -> has_permission d' (rp_permissionId r) (rp_workspaceId r));
  connects_kr : forall r, In r (d' schema_keysRoles) -> In r (d schema_keysRoles)
    \/ has_role d' (kr_roleId r) (kr_workspaceId r) /\ (strict = true -> has_key d' (kr_keyId r) (kr_workspaceId r));
  connects_kp : forall r, In r (d' schema_keysPermissions) -> In r (d schema_keysPermissions);
}.

Section LinkedFacts.

Context (fold : string -> string) (strict : bool).

Lemma linked_step d d' : sound strict d -> grows d d' -> connects strict d d' -> sound strict d'.
Proof.
  intros [H1 H2 H3] [G1 G2 G3] [C1 C2 C3]. split; intros r Hr.
  - destruct (C1 r Hr) as [Hin|]; [|done]. destruct (H1 r Hin). auto.
  - destruct (C2 r Hr) as [Hin|]; [|done]. destruct (H2 r Hin). auto.
  - intros Hs. destruct (H3 r (C3 r Hr) Hs). auto.
Qed.

(** The tables that [sound strict] speaks about. *)
Definition rbac_table (t : table) : bool :=
  match t with
  | schema_roles | schema_permissions | schema_keys | schema_rolesPermissions | schema_keysRoles | schema_keysPermissions => true
  | _ => false
  end.

Lemma linked_other d d' : (forall t, rbac_table t = true -> d' t = d t) -> sound strict d -> sound strict d'.
Proof.
  intros He [H1 H2 H3]. split; intros r; unfold has_role, has_permission, has_key in *; rewrite !He by done; auto.
Qed.

(** An insert into a table of things. *)
Lemma linked_insert_thing t rows d d' :
  run_sql fold (Insert t rows) d = Some d' ->
  match t with schema_rolesPermissions | schema_keysRoles | schema_keysPermissions => False | _ => True end ->
  sound strict d -> sound strict d'.
Proof.
  intros H Ht Hl. assert (Hsub : forall t' r, In r (d t') -> In r (d' t')).
  { intros t' r Hr. destruct (decide (t = t')) as [<-|Hne]; [rewrite (run_insert fold _ _ _ _ H); apply in_or_app; by left|].
    by rewrite (run_other fold _ _ _ t' H). }
  assert (Hconn : forall t', match t' with schema_rolesPermissions | schema_keysRoles | schema_keysPermissions => d' t' = d t'
                              | _ => True end).
  { intros t'. destruct t'; try done; apply (run_other fold _ _ _ _ H); by destruct t. }
  apply (linked_step d); [done| |].
  - split; intros id ws (r & Hr & He); exists r; eauto.
  - split; intros r Hr; try left; [rewrite <- (Hconn schema_rolesPermissions)|rewrite <- (Hconn schema_keysRoles)|
      rewrite <- (Hconn schema_keysPermissions)]; done.
Qed.

(** A delete of connections. *)
Lemma linked_delete_connection t w d d' :
  run_sql fold (Delete t w) d = Some d' ->
  match t with schema_rolesPermissions | schema_keysRoles | schema_keysPermissions => True | _ => False end ->
  sound strict d -> sound strict d'.
Proof.
  intros H Ht Hl. assert (Hsub : forall t' r, In r (d' t') -> In r (d t')).
  { intros t' r. destruct (decide (t = t')) as [<-|Hne]; [|by rewrite (run_other fold _ _ _ t' H)].
    rewrite (run_delete fold _ _ _ _ H). intros Hr. by apply filter_In in Hr as [Hr _]. }
  assert (Hsame : forall t', match t' with schema_roles | schema_permissions | schema_keys => d' t' = d t' | _ => True end).
  { intros t'. destruct t'; try done; apply (run_other fold _ _ _ _ H); by destruct t. }
  apply (linked_step d); [done| |split; intros r Hr; try left; by apply Hsub].
  split; intros id ws (r & Hr & He); exists r;
    [rewrite (Hsame schema_roles)|rewrite (Hsame schema_permissions)|rewrite (Hsame schema_keys)]; done.
Qed.

(** A statement that only adds sound connections. *)
Lemma linked_connect s d d' :
  run_sql fold s d = Some d' ->
  match projT1 (affect fold s) with
  | schema_rolesPermissions => forall r, In r (d' schema_rolesPermissions) -> In r (d schema_rolesPermissions)
      \/ has_role d (rp_roleId r) (rp_workspaceId r) /\ (strict = true -> has_permission d (rp_permissionId r) (rp_workspaceId r))
  | schema_keysRoles => forall r, In r (d' schema_keysRoles) -> In r (d schema_keysRoles)
      \/ has_role d (kr_roleId r) (kr_workspaceId r) /\ (strict = true -> has_key d (kr_keyId r) (kr_workspaceId r))
  | _ => False
  end ->
  sound strict d -> sound strict d'.
Proof.
  intros H Hc Hl. assert (Ho := fun t => run_other fold s d d' t H).
  assert (Hg : grows d d').
  { split; intros id ws; unfold has_role, has_permission, has_key; rewrite Ho; try done;
      by destruct (projT1 (affect fold s)). }
  assert (Hgr := grows_role _ _ Hg). assert (Hgp := grows_permission _ _ Hg). assert (Hgk := grows_key _ _ Hg).
  apply (linked_step d); [done|done|]. revert Hc Ho. destruct (projT1 (affect fold s)); try done; intros Hc Ho; split; intros r Hr;
    first [destruct (Hc r Hr) as [Hin|[Hs1 Hs2]]; [by left|right; by auto]
          | try left; rewrite Ho in Hr by done; exact Hr].
Qed.

(** An update of things that keeps their ids and workspaces. *)
Lemma linked_update_permission w set d d' :
  run_sql fold (Update schema_permissions w set) d = Some d' ->
  (forall r, perm_id (set r) = perm_id r /\ perm_workspaceId (set r) = perm_workspaceId r) -> sound strict d -> sound strict d'.
Proof.
  intros H Hset Hl. apply (linked_step d); [done| |].
  - split; intros id ws; unfold has_role, has_permission, has_key.
    + by rewrite (run_other fold _ _ _ schema_roles H).
    + intros (r & Hr & He). rewrite (run_update fold _ _ _ _ _ H). exists (if w r then set r else r).
      split; [apply in_map_iff; by exists r|]. destruct (w r); [|done]. by destruct (Hset r) as [-> ->].
    + by rewrite (run_other fold _ _ _ schema_keys H).
  - split; intros r; rewrite (run_other fold _ _ _ _ H) by done; by first [left|intros].
Qed.

Lemma linked_update_role w set d d' :
  run_sql fold (Update schema_roles w set) d = Some d' ->
  (forall r, In r (d schema_roles) -> w r = true -> role_id (set r) = role_id r /\ role_workspaceId (set r) = role_workspaceId r) ->
  sound strict d -> sound strict d'.
Proof.
  intros H Hset Hl. apply (linked_step d); [done| |].
  - split; intros id ws; unfold has_role, has_permission, has_key.
    + intros (r & Hr & He). rewrite (run_update fold _ _ _ _ _ H). exists (if w r then set r else r).
      split; [apply in_map_iff; by exists r|]. destruct (w r) eqn:Ew; [|done]. by destruct (Hset r Hr Ew) as [-> ->].
    + by rewrite (run_other fold _ _ _ schema_permissions H).
    + by rewrite (run_other fold _ _ _ schema_keys H).
  - split; intros r; rewrite (run_other fold _ _ _ _ H) by done; by first [left|intros].
Qed.

(** A delete of things that nothing is connected to. *)
Lemma linked_delete_roles w d d' :
  run_sql fold (Delete schema_roles w) d = Some d' ->
  (forall r, In r (d schema_roles) -> w r = true ->
     (forall x, In x (d schema_rolesPermissions) -> rp_roleId x = role_id r -> rp_workspaceId x = role_workspaceId r -> False)
     /\ (forall x, In x (d schema_keysRoles) -> kr_roleId x = role_id r -> kr_workspaceId x = role_workspaceId r -> False)) ->
  sound strict d -> sound strict d'.
Proof.
  intros H Hw [H1 H2 H3]. assert (Ho := fun t => run_other fold (Delete schema_roles w) d d' t H).
  split; intros r; rewrite Ho by done; intros Hr; unfold has_role, has_permission, has_key;
    rewrite ?(Ho schema_permissions), ?(Ho schema_keys) by done.
  - destruct (H1 r Hr) as [(x & Hx & Hid & Hws) Hp]. split; [|exact Hp]. exists x. rewrite (run_delete fold _ _ _ _ H).
    split; [|done]. apply filter_In. split; [done|]. destruct (w x) eqn:Ew; [|done].
    destruct (Hw x Hx Ew) as [Hno _]. by destruct (Hno r Hr).
  - destruct (H2 r Hr) as [(x & Hx & Hid & Hws) Hp]. split; [|exact Hp]. exists x. rewrite (run_delete fold _ _ _ _ H).
    split; [|done]. apply filter_In. split; [done|]. destruct (w x) eqn:Ew; [|done].
    destruct (Hw x Hx Ew) as [_ Hno]. by destruct (Hno r Hr).
  - exact (H3 r Hr).
Qed.

(** A delete of permissions; without their connections only when not [strict]. *)
Lemma linked_delete_permissions w d d' :
  run_sql fold (Delete schema_permissions w) d = Some d' ->
  (forall r, In r (d schema_permissions) -> w r = true -> strict = true ->
     (forall x, In x (d schema_rolesPermissions) -> rp_permissionId x = perm_id r -> rp_workspaceId x = perm_workspaceId r -> False)
     /\ (forall x, In x (d schema_keysPermissions) -> kp_permissionId x = perm_id r -> kp_workspaceId x = perm_workspaceId r -> False)) ->
  sound strict d -> sound strict d'.
Proof.
  intros H Hw [H1 H2 H3]. assert (Ho := fun t => run_other fold (Delete schema_permissions w) d d' t H).
  split; intros r; rewrite Ho by done; intros Hr; unfold has_role, has_permission, has_key;
    rewrite ?(Ho schema_roles), ?(Ho schema_keys) by done.
  - destruct (H1 r Hr) as [Hp Hx]. split; [exact Hp|]. intros Hs. destruct (Hx Hs) as (x & Hx1 & Hid & Hws).
    exists x. rewrite (run_delete fold _ _ _ _ H). split; [|done]. apply filter_In. split; [done|].
    destruct (w x) eqn:Ew; [|done]. destruct (Hw x Hx1 Ew Hs) as [Hno _]. by destruct (Hno r Hr).
  - exact (H2 r Hr).
  - intros Hs. destruct (H3 r Hr Hs) as [(x & Hx & Hid & Hws) Hk]. split; [|exact Hk].
    exists x. rewrite (run_delete fold _ _ _ _ H). split; [|done]. apply filter_In. split; [done|].
    destruct (w x) eqn:Ew; [|done]. destruct (Hw x Hx Ew Hs) as [_ Hno]. by destruct (Hno r Hr).
Qed.

End LinkedFacts.

(** ** The procedures keep the tables sound *)

(** What a successful run does to the tables. *)
Definition respects {A} (strict : bool) (ws : string) (m : M A) : Prop := forall env w a w',
  tables_ok (collation env) (tables (db w)) -> sound strict (tables (db w)) -> m env w = (Ret a, w') ->
  tables_ok (collation env) (tables (db w')) /\ sound strict (tables (db w')) /\ kept ws (tables (db w)) (tables (db w')).

Section Procedures.

Context (c : WCtx) (strict : bool).

Let ws := cw_id (c_workspace c).

(** The context agrees with the database: the live workspace of the tenant's
    organization is the workspace of the context. *)
Definition ctx_agrees (d : Db) : Prop :=
  forall x, find_by_org (tenant_id (c_tenant c)) d = Some x -> ws_id x = ws.

Lemma own_role_spec w id r : own_role w id r = true <-> role_workspaceId r = w /\ role_id r = id.
Proof. unfold own_role. rewrite andb_true_iff, !String.eqb_eq. done. Qed.

Lemma own_permission_spec w id r : own_permission w id r = true <-> perm_workspaceId r = w /\ perm_id r = id.
Proof. unfold own_permission. rewrite andb_true_iff, !String.eqb_eq. done. Qed.

Lemma own_key_spec w id r : own_key w id r = true <-> key_workspaceId r = w /\ key_id r = id.
Proof. unfold own_key. rewrite andb_true_iff, !String.eqb_eq. done. Qed.

Lemma includes_true l s : Js.includes l s = true <-> In s l.
Proof. apply StrFacts.includes_In. Qed.

Lemma respects_disconnect_permission roleId permissionId : respects strict ws (disconnectPermissionFromRole roleId permissionId c).
Proof.
  intros env w a w' Hok Hl H. unfold disconnectPermissionFromRole in H. steps H. tables_eq.
  split; [ok_chain|]. split; [|kept_chain]. by eapply linked_delete_connection.
Qed.

Lemma respects_disconnect_role roleId keyId : respects strict ws (disconnectRoleFromKey roleId keyId c).
Proof.
  intros env w a w' Hok Hl H. unfold disconnectRoleFromKey in H. steps H. tables_eq.
  split; [ok_chain|]. split; [|kept_chain]. by eapply linked_delete_connection.
Qed.

Lemma linked_project fold d d' : project_step fold ws d d' -> sound strict d -> sound strict d'.
Proof. intros Hp. apply linked_other. intros t Ht. eapply project_step_other; [done|]. by destruct t. Qed.

Lemma respects_createPermission name description : respects strict ws (createPermission name description c).
Proof.
  intros env w a w' Hok Hl H. unfold createPermission in H. steps H. ensured. tables_eq.
  split; [ok_chain|]. split; [|kept_chain].
  eapply linked_insert_thing; [eassumption|done|]. by eapply linked_project.
Qed.

(** A row found by its id is the only row with that id. *)
Lemma same_permission fold d r r' :
  tables_ok fold d -> In r (d schema_permissions) -> In r' (d schema_permissions) -> perm_id r' = perm_id r -> r' = r.
Proof.
  intros Hok Hr Hr' He. eapply unique_same; [apply (clash_sym fold schema_permissions)|apply (Hok schema_permissions)|done|done|].
  cbn. by rewrite He, String.eqb_refl.
Qed.

Lemma same_role fold d r r' :
  tables_ok fold d -> In r (d schema_roles) -> In r' (d schema_roles) -> role_id r' = role_id r -> r' = r.
Proof.
  intros Hok Hr Hr' He. eapply unique_same; [apply (clash_sym fold schema_roles)|apply (Hok schema_roles)|done|done|].
  cbn. by rewrite He, String.eqb_refl.
Qed.

Lemma respects_updatePermission id name description : respects strict ws (updatePermission id name description c).
Proof.
  intros env w a w' Hok Hl H. unfold updatePermission in H. steps H. tables_eq.
  apply find_some in Ef as [Hin [Hws Hid]%own_permission_spec].
  split; [ok_chain|]. split; [by eapply linked_update_permission|].
  kept_chain. intros x Hx Hw. own Hw. by rewrite (same_permission _ _ _ _ Hok Hin Hx Hw).
Qed.

Lemma respects_updateRole id name description : respects strict ws (updateRole id name description c).
Proof.
  intros env w a w' Hok Hl H. unfold updateRole in H. steps H. tables_eq.
  apply find_some in Ef as [Hin [Hws Hid]%own_role_spec].
  split; [ok_chain|]. split.
  - eapply linked_update_role; [eassumption| |done]. intros x Hx Hw. own Hw. cbn. by rewrite Hw, Hid.
  - kept_chain. intros x Hx Hw. own Hw. by rewrite (same_role _ _ _ _ Hok Hin Hx Hw).
Qed.

Lemma respects_upsertPermission input : respects strict ws (upsertPermission input c).
Proof.
  intros env w a w' Hok Hl H. unfold upsertPermission, upsertPermission_update, upsertPermission_create in H.
  steps H; ensured; tables_eq; (split; [ok_chain|]); split.
  all: try (kept_chain; intros x Hx [Hw Hid]%own_permission_spec; split; exact Hw).
  all: try (by eapply linked_update_permission).
  all: eapply linked_insert_thing; [eassumption|done|]; by eapply linked_project.
Qed.

Lemma respects_upsertPermission_byName name : respects strict ws (upsertPermission_byName c ws name).
Proof.
  intros env w a w' Hok Hl H. unfold upsertPermission_byName in H. steps H; ensured; tables_eq.
  - split; [done|]. by split; [|kept_chain].
  - split; [ok_chain|]. split; [|kept_chain]. eapply linked_insert_thing; [eassumption|done|]. by eapply linked_project.
Qed.

Lemma assertPermissions_ret w0 ids env w u w' :
  assertPermissionsInWorkspace w0 ids env w = (Ret u, w') ->
  tables (db w') = tables (db w) /\ forall id, In id ids -> has_permission (tables (db w)) id w0.
Proof.
  unfold assertPermissionsInWorkspace. destruct ids as [|i ids]; [intros [= <- <-]; by split|]. set (l := i :: ids). intros H.
  apply bind_ret in H as (found & w1 & H1 & H). apply find_many_ret in H1 as [Hf E1].
  destruct (missing_ids (List.map perm_id found) l) as [|m ms] eqn:Em; [|done]. apply ret_ret in H as [_ ->].
  split; [done|]. intros id Hid. destruct (Js.includes (List.map perm_id found) id) eqn:Ei.
  - apply includes_true, in_map_iff in Ei as (p & <- & Hp). rewrite <- Hf in Hp. apply filter_In in Hp as [Hp Hw].
    own Hw. by exists p.
  - assert (In id []) by (rewrite <- Em; apply filter_In; split; [done|by rewrite Ei]). done.
Qed.

Lemma assertKeys_ret w0 ids env w u w' :
  assertKeysInWorkspace w0 ids env w = (Ret u, w') ->
  tables (db w') = tables (db w) /\ forall id, In id ids -> has_key (tables (db w)) id w0.
Proof.
  unfold assertKeysInWorkspace. destruct ids as [|i ids]; [intros [= <- <-]; by split|]. set (l := i :: ids). intros H.
  apply bind_ret in H as (found & w1 & H1 & H). apply find_many_ret in H1 as [Hf E1].
  destruct (missing_ids (List.map key_id found) l) as [|m ms] eqn:Em; [|done]. apply ret_ret in H as [_ ->].
  split; [done|]. intros id Hid. destruct (Js.includes (List.map key_id found) id) eqn:Ei.
  - apply includes_true, in_map_iff in Ei as (p & <- & Hp). rewrite <- Hf in Hp. apply filter_In in Hp as [Hp Hw].
    own Hw. by exists p.
  - assert (In id []) by (rewrite <- Em; apply filter_In; split; [done|by rewrite Ei]). done.
Qed.

(** What a part of a role procedure may do: the tables stay sound, nothing of
    another workspace changes and nothing disappears. *)
Record good_step (fold : string -> string) (d d' : Tables) : Prop := {
  good_ok : tables_ok fold d -> tables_ok fold d';
  good_linked : sound strict d -> sound strict d';
  good_kept : kept ws d d';
  good_grows : grows d d';
}.

Lemma grows_same d d' : (forall t, rbac_table t = true -> d' t = d t) -> grows d d'.
Proof. intros He. split; intros id w0; unfold has_role, has_permission, has_key; by rewrite He. Qed.

#[local] Instance grows_preorder : PreOrder grows.
Proof. split; [by split|]. intros d1 d2 d3 [A1 A2 A3] [B1 B2 B3]. split; auto. Qed.

#[local] Instance good_step_preorder fold : PreOrder (good_step fold).
Proof.
  split; [split; done|]. intros d1 d2 d3 [A1 A2 A3 A4] [B1 B2 B3 B4]. split; auto.
  - by transitivity d2.
  - by transitivity d2.
Qed.

Lemma good_project fold d d' : project_step fold ws d d' -> good_step fold d d'.
Proof.
  intros H. split; [by eapply project_step_ok|by eapply linked_project|by eapply project_step_kept|].
  apply grows_same. intros t Ht. eapply project_step_other; [done|]. by destruct t.
Qed.

(** Connections leave the things. *)
Lemma grows_connection fold s d d' :
  run_sql fold s d = Some d' ->
  match projT1 (affect fold s) with schema_roles | schema_permissions | schema_keys => False | _ => True end -> grows d d'.
Proof.
  intros H Ht. split; intros id w0; unfold has_role, has_permission, has_key;
    rewrite (run_other fold _ _ _ _ H); try done; by destruct (projT1 (affect fold s)).
Qed.

Lemma assign_permissions_ret roleId name corr ids env w u w' :
  assign_permissions c roleId name corr ids env w = (Ret u, w') ->
  has_role (tables (db w)) roleId ws -> (forall id, In id ids -> has_permission (tables (db w)) id ws) ->
  good_step (collation env) (tables (db w)) (tables (db w')).
Proof.
  intros H Hr Hp. unfold assign_permissions in H. destruct ids as [|i ids]; [apply ret_ret in H as [_ ->]; reflexivity|].
  set (l := i :: ids) in *. steps H. tables_eq.
  split; [intros; ok_chain| |kept_chain; by intros x (? & <- & _)%in_map_iff|by eapply grows_connection].
  eapply linked_connect; [eassumption|]. intros x Hx. rewrite (run_insert _ _ _ _ _ Hs) in Hx.
  apply in_app_or in Hx as [Hx|Hx]; [by left|right]. apply in_map_iff in Hx as (id & <- & Hid). cbn. split; [done|intros _; by apply Hp].
Qed.

Lemma assign_keys_ret roleId name corr ids env w u w' :
  assign_keys c roleId name corr ids env w = (Ret u, w') ->
  has_role (tables (db w)) roleId ws -> (forall id, In id ids -> has_key (tables (db w)) id ws) ->
  good_step (collation env) (tables (db w)) (tables (db w')).
Proof.
  intros H Hr Hp. unfold assign_keys in H. destruct ids as [|i ids]; [apply ret_ret in H as [_ ->]; reflexivity|].
  set (l := i :: ids) in *. steps H. tables_eq.
  split; [intros; ok_chain| |kept_chain; by intros x (? & <- & _)%in_map_iff|by eapply grows_connection].
  eapply linked_connect; [eassumption|]. intros x Hx. rewrite (run_insert _ _ _ _ _ Hs) in Hx.
  apply in_app_or in Hx as [Hx|Hx]; [by left|right]. apply in_map_iff in Hx as (id & <- & Hid). cbn. split; [done|intros _; by apply Hp].
Qed.

(** A new role of the workspace. *)
Lemma good_new_role fold r d d' :
  run_sql fold (Insert schema_roles [r]) d = Some d' -> role_workspaceId r = ws ->
  good_step fold d d' /\ has_role d' (role_id r) ws.
Proof.
  intros H Hr. split; [split|].
  - intros; ok_chain.
  - by eapply linked_insert_thing.
  - eapply kept_insert; [exact H|]. by intros x [<-|[]].
  - split; intros id w0; unfold has_role, has_permission, has_key.
    + intros (x & Hx & He). exists x. rewrite (run_insert _ _ _ _ _ H). split; [apply in_or_app; by left|done].
    + by rewrite (run_other _ _ _ _ schema_permissions H).
    + by rewrite (run_other _ _ _ _ schema_keys H).
  - exists r. rewrite (run_insert _ _ _ _ _ H). split; [apply in_or_app; right; by left|done].
Qed.

Lemma good_connect_permissions fold roleId ids d d' :
  run_sql fold (Insert schema_rolesPermissions (role_permissions ws roleId ids)) d = Some d' ->
  has_role d roleId ws -> (forall id, In id ids -> has_permission d id ws) -> good_step fold d d'.
Proof.
  intros H Hr Hp. split; [intros; ok_chain| |kept_chain; by intros x (? & <- & _)%in_map_iff|by eapply grows_connection].
  eapply linked_connect; [eassumption|]. intros x Hx. rewrite (run_insert _ _ _ _ _ H) in Hx.
  apply in_app_or in Hx as [Hx|Hx]; [by left|right]. apply in_map_iff in Hx as (id & <- & Hid). cbn. split; [done|intros _; by apply Hp].
Qed.

Lemma respects_good {A} (m : M A) :
  (forall env w a w', m env w = (Ret a, w') -> tables_ok (collation env) (tables (db w)) -> sound strict (tables (db w)) ->
     good_step (collation env) (tables (db w)) (tables (db w'))) -> respects strict ws m.
Proof. intros H env w a w' Hok Hl E. destruct (H env w a w' E Hok Hl) as [G1 G2 G3 _]. auto. Qed.

Lemma respects_createRole name description ids : respects strict ws (createRole name description ids c).
Proof.
  apply respects_good. intros env w a w' H _ _. unfold createRole in H. steps H. rename Hs1 into Hc.
  apply catch_ret in Hc as [Hc|(e & w9 & _ & Hc)]; [|by destruct e].
  apply transaction_tables in Hc as (w9 & w10 & E1 & Hc & E2). apply bind_ret in Hc as (project & w11 & Hp & Hc).
  apply ensure_ret, good_project in Hp. apply bind_ret in Hc as (existing & w12 & Hf & Hc). apply find_first_ret in Hf as [_ E3].
  destruct existing; [done|]. apply bind_ret in Hc as (u & w13 & Ha & Hc). apply assertPermissions_ret in Ha as [E4 Ha].
  apply bind_ret in Hc as (u1 & w14 & Hi & Hc). apply or_throw_ret, exec_tables in Hi.
  apply bind_ret in Hc as (u2 & w15 & Hlog & Hc). apply insertAuditLogs_tables in Hlog. tables_eq.
  destruct (good_new_role _ _ _ _ Hi eq_refl) as [Hg Hr]. transitivity (tables (db w11)); [done|].
  transitivity (tables (db w14)); [done|]. destruct (Js.coalesce ids []) as [|i l] eqn:Ei.
  - apply ret_ret in Hc as [_ ->]. rewrite Hlog. reflexivity.
  - rewrite <- Ei in *. apply bind_ret in Hc as (u3 & w16 & Hc1 & Hc). apply exec_tables in Hc1.
    apply insertAuditLogs_tables in Hc. rewrite Hlog in Hc1. rewrite Hc. eapply good_connect_permissions; [exact Hc1|done|].
    intros id Hid. apply (grows_permission _ _ (good_grows _ _ _ Hg)). auto.
Qed.

Lemma good_delete_own t w0 fold d d' :
  run_sql fold (Delete t w0) d = Some d' ->
  match t with schema_rolesPermissions | schema_keysRoles | schema_keysPermissions => True | _ => False end ->
  (forall r, w0 r = true -> ws_of t r = ws) -> good_step fold d d'.
Proof.
  intros H Ht Hw. split; [intros; ok_chain|by eapply linked_delete_connection| |].
  - eapply kept_delete; [exact H|]. auto.
  - eapply grows_connection; [exact H|]. by destruct t.
Qed.

Lemma good_rename_role fold roleId name desc d d' :
  run_sql fold (Update schema_roles (own_role ws roleId) (set_role name desc)) d = Some d' -> good_step fold d d'.
Proof.
  intros H. split.
  - intros; ok_chain.
  - by eapply linked_update_role.
  - eapply kept_update; [exact H|]. intros r _ [Hw _]%own_role_spec. split; exact Hw.
  - split; intros id w0; unfold has_role, has_permission, has_key.
    + intros (r & Hr & He). rewrite (run_update _ _ _ _ _ _ H). exists (if own_role ws roleId r then set_role name desc r else r).
      split; [apply in_map_iff; by exists r|]. by destruct (own_role ws roleId r).
    + by rewrite (run_other _ _ _ _ schema_permissions H).
    + by rewrite (run_other _ _ _ _ schema_keys H).
Qed.

Lemma upsertRole_create_ret roleId corr input env w u w' :
  upsertRole_create c roleId corr input env w = (Ret u, w') -> good_step (collation env) (tables (db w)) (tables (db w')).
Proof.
  intros H. unfold upsertRole_create in H. apply bind_ret in H as (project & w1 & Hp & H). apply ensure_ret, good_project in Hp.
  apply bind_ret in H as (conflict & w2 & Hf & H). apply find_first_ret in Hf as [_ E2]. destruct conflict; [done|].
  apply bind_ret in H as (u1 & w3 & Ha & H). apply assertPermissions_ret in Ha as [E3 Ha].
  apply bind_ret in H as (u2 & w4 & Hk & H). apply assertKeys_ret in Hk as [E4 Hk].
  apply bind_ret in H as (u3 & w5 & Hi & H). apply or_throw_ret, exec_tables in Hi. rewrite E3, E2 in Hk. rewrite E2 in Ha.
  rewrite E4, E3, E2 in Hi. destruct (good_new_role _ _ _ _ Hi eq_refl) as [Hg Hr]. assert (G1 := good_grows _ _ _ Hg).
  apply bind_ret in H as (u4 & w6 & Hap & H). apply assign_permissions_ret in Hap; [|done|intros; apply (grows_permission _ _ G1); auto].
  assert (G2 := good_grows _ _ _ Hap). apply bind_ret in H as (u5 & w7 & Hak & H).
  apply assign_keys_ret in Hak; [|by apply (grows_role _ _ G2)|intros; apply (grows_key _ _ G2), (grows_key _ _ G1); auto].
  apply insertAuditLogs_tables in H. rewrite H. by repeat (etrans; [eassumption|]).
Qed.

Lemma upsertRole_update_ret roleId corr input env w u w' :
  upsertRole_update c roleId corr input env w = (Ret u, w') -> good_step (collation env) (tables (db w)) (tables (db w')).
Proof.
  intros H. unfold upsertRole_update in H. apply bind_ret in H as (existing & w1 & Hf & H). apply find_first_ret in Hf as [Hf E1].
  destruct existing as [r|]; [|done]. apply find_some in Hf as [Hin [Hws Hid]%own_role_spec].
  apply bind_ret in H as (u1 & w2 & Ha & H). apply assertPermissions_ret in Ha as [E2 Ha].
  apply bind_ret in H as (u2 & w3 & Hk & H). apply assertKeys_ret in Hk as [E3 Hk].
  apply bind_ret in H as (conflict & w4 & Hn & H).
  assert (E4 : tables (db w4) = tables (db w3)) by (eapply read_tables; [|exact Hn]; unfold find_first; effects).
  destruct conflict; [done|]. apply bind_ret in H as (u3 & w5 & Hu & H). apply or_throw_ret, exec_tables in Hu.
  rewrite E4, E3, E2, E1 in Hu. rewrite E1 in Ha. rewrite E2, E1 in Hk. apply good_rename_role in Hu.
  assert (G1 := good_grows _ _ _ Hu).
  assert (Hr : has_role (tables (db w5)) roleId ws) by (apply (grows_role _ _ G1); by exists r).
  apply bind_ret in H as (u4 & w6 & Hp & H).
  assert (Hgp : good_step (collation env) (tables (db w5)) (tables (db w6))).
  { destruct (ur_permissionIds input) as [ids|]; [|apply ret_ret in Hp as [_ ->]; reflexivity].
    apply bind_ret in Hp as (u5 & w8 & Hd & Hp). apply exec_tables in Hd.
    apply good_delete_own in Hd; [|done|by intros x [_ Hx%String.eqb_eq]%andb_prop].
    etrans; [exact Hd|]. assert (G2 := good_grows _ _ _ Hd). eapply assign_permissions_ret; [exact Hp| |].
    - by apply (grows_role _ _ G2).
    - intros id Hi. apply (grows_permission _ _ G2), (grows_permission _ _ G1). by apply Ha. }
  assert (G3 := good_grows _ _ _ Hgp). apply bind_ret in H as (u6 & w7 & Hq & H).
  assert (Hgk : good_step (collation env) (tables (db w6)) (tables (db w7))).
  { destruct (ur_keyIds input) as [ids|]; [|apply ret_ret in Hq as [_ ->]; reflexivity].
    apply bind_ret in Hq as (u7 & w9 & Hd & Hq). apply exec_tables in Hd.
    apply good_delete_own in Hd; [|done|by intros x [_ Hx%String.eqb_eq]%andb_prop].
    etrans; [exact Hd|]. assert (G4 := good_grows _ _ _ Hd). eapply assign_keys_ret; [exact Hq| |].
    - by apply (grows_role _ _ G4), (grows_role _ _ G3).
    - intros id Hi. apply (grows_key _ _ G4), (grows_key _ _ G3), (grows_key _ _ G1). by apply Hk. }
  apply insertAuditLogs_tables in H. rewrite H. by repeat (etrans; [eassumption|]).
Qed.

Lemma respects_upsertRole input : respects strict ws (upsertRole input c).
Proof.
  apply respects_good. intros env w a w' H _ _. unfold upsertRole in H. apply bind_ret in H as (roleId & w1 & Hr & H).
  assert (E1 : tables (db w1) = tables (db w)) by (eapply read_tables; [|exact Hr]; effects).
  destruct (negb _); [done|]. apply bind_ret in H as (corr & w2 & Hn & H).
  apply (read_tables _ _ _ _ _ (ReadOnly_new_id _)) in Hn. apply bind_ret in H as (u & w3 & Ht & H). apply ret_ret in H as [_ ->].
  apply transaction_tables in Ht as (w4 & w5 & E4 & Ht & ->). rewrite <- E1, <- Hn, <- E4.
  destruct (Js.truthy _); [by eapply upsertRole_update_ret|by eapply upsertRole_create_ret].
Qed.

Lemma respects_deleteRole ids : respects strict ws (deleteRoleWithRelations ids c).
Proof.
  intros env w a w' Hok Hl H. unfold deleteRoleWithRelations in H. destruct ids as [|i ids]; [done|].
  set (l := i :: ids) in *. steps H. tables_eq.
  match goal with
  | Hp : run_sql _ (Delete schema_rolesPermissions _) ?d0 = Some ?d1,
    Hk : run_sql _ (Delete schema_keysRoles _) ?d1 = Some ?d2,
    Hr : run_sql _ (Delete schema_roles _) ?d2 = Some ?d3 |- _ =>
      assert (L1 : sound strict d1) by (by eapply linked_delete_connection);
      assert (L2 : sound strict d2) by (eapply linked_delete_connection; [exact Hk|done|exact L1]);
      rename Hp into H1; rename Hk into H2; rename Hr into H3
  end.
  split; [ok_chain|]. split; [|kept_chain]. eapply linked_delete_roles; [exact H3| |exact L2].
  intros r Hr Hw. own Hw. split; intros x Hx He Hws.
  - rewrite (run_other _ _ _ _ schema_rolesPermissions H2), (run_delete _ _ _ _ _ H1) in Hx by done.
    apply filter_In in Hx as [_ Hx]. apply negb_true_iff in Hx. rewrite He, Hws in Hx.
    match goal with H : Js.includes l (role_id r) = true |- _ => rewrite H in Hx end.
    match goal with H : role_workspaceId r = _ |- _ => rewrite H, String.eqb_refl in Hx end. done.
  - rewrite (run_delete _ _ _ _ _ H2) in Hx. apply filter_In in Hx as [_ Hx]. apply negb_true_iff in Hx. rewrite He, Hws in Hx.
    match goal with H : Js.includes l (role_id r) = true |- _ => rewrite H in Hx end.
    match goal with H : role_workspaceId r = _ |- _ => rewrite H, String.eqb_refl in Hx end. done.
Qed.

Lemma respects_deletePermissions ids : respects strict ws (deletePermissionWithRelations ids c).
Proof.
  intros env w a w' Hok Hl H. unfold deletePermissionWithRelations in H. destruct ids as [|i ids]; [done|].
  set (l := i :: ids) in *. steps H. tables_eq.
  match goal with
  | Hp : run_sql _ (Delete schema_rolesPermissions _) ?d0 = Some ?d1,
    Hk : run_sql _ (Delete schema_keysPermissions _) ?d1 = Some ?d2,
    Hr : run_sql _ (Delete schema_permissions _) ?d2 = Some ?d3 |- _ =>
      assert (L1 : sound strict d1) by (by eapply linked_delete_connection);
      assert (L2 : sound strict d2) by (eapply linked_delete_connection; [exact Hk|done|exact L1]);
      rename Hp into H1; rename Hk into H2; rename Hr into H3
  end.
  split; [ok_chain|]. split; [|kept_chain]. eapply linked_delete_permissions; [exact H3| |exact L2].
  intros r Hr Hw _. own Hw. split; intros x Hx He Hws.
  - rewrite (run_other _ _ _ _ schema_rolesPermissions H2), (run_delete _ _ _ _ _ H1) in Hx by done.
    apply filter_In in Hx as [_ Hx]. apply negb_true_iff in Hx. rewrite He, Hws in Hx.
    match goal with H : Js.includes l (perm_id r) = true |- _ => rewrite H in Hx end.
    match goal with H : perm_workspaceId r = _ |- _ => rewrite H, String.eqb_refl in Hx end. done.
  - rewrite (run_delete _ _ _ _ _ H2) in Hx. apply filter_In in Hx as [_ Hx]. apply negb_true_iff in Hx. rewrite He, Hws in Hx.
    match goal with H : Js.includes l (perm_id r) = true |- _ => rewrite H in Hx end.
    match goal with H : perm_workspaceId r = _ |- _ => rewrite H, String.eqb_refl in Hx end. done.
Qed.

(** [respects], for a procedure that looks its workspace up again. *)
Definition respects_if {A} (m : M A) : Prop := forall env w a w',
  ctx_agrees (db w) -> tables_ok (collation env) (tables (db w)) -> sound strict (tables (db w)) -> m env w = (Ret a, w') ->
  tables_ok (collation env) (tables (db w')) /\ sound strict (tables (db w')) /\ kept ws (tables (db w)) (tables (db w')).

Lemma respects_connectPermission roleId permissionId : respects_if (connectPermissionToRole roleId permissionId c).
Proof.
  intros env w a w' Hag Hok Hl H. unfold connectPermissionToRole in H. apply bind_ret in H as (found & w1 & Hq & H).
  apply or_throw_ret, query_ret in Hq as [Hq E1]. destruct (find_by_org _ (db w)) as [x|] eqn:Eo; [|by subst].
  apply Hag in Eo. rewrite Eo in Hq. subst found.
  destruct (List.find (own_role _ _) _) as [r|] eqn:Er; [|done].
  destruct (List.find (own_permission _ _) _) as [p|] eqn:Ep; [|done].
  apply find_some in Er as [Hr [Hrw _]%own_role_spec]. apply find_some in Ep as [Hp [Hpw _]%own_permission_spec].
  assert (E1' : tables (db w1) = tables (db w)) by (by rewrite E1). steps H. tables_eq.
  match goal with Hu : run_sql _ (Upsert schema_rolesPermissions _ _) _ = Some _ |- _ => rename Hu into Hu0 end.
  split; [ok_chain|]. split.
  - eapply linked_connect; [exact Hu0| |done]. intros y Hy. destruct (run_upsert _ _ _ _ _ _ _ Hu0 Hy) as [Hy'|Hy']; [by left|right].
    assert (y = {| rp_roleId := role_id r; rp_permissionId := perm_id p; rp_workspaceId := cw_id (c_workspace c) |}) as ->
      by (destruct Hy' as [->|(z & _ & _ & ->)]; done). cbn. split; [by exists r|by exists p].
  - transitivity (tables (db w)); [done|]. eapply kept_upsert; [exact Hu0|done|]. intros y Hy Hcl. split; [|done].
    cbn in Hcl. apply andb_prop in Hcl as [Hcr%String.eqb_eq _]. destruct Hl as [L1 _ _]. destruct (L1 y Hy) as [(z & Hz & Hzi & Hzw) _].
    cbn. rewrite <- Hzw. rewrite (same_role _ _ r z Hok Hr Hz); [done|congruence].
Qed.

Lemma respects_connectRole roleId keyId : respects_if (connectRoleToKey roleId keyId c).
Proof.
  intros env w a w' Hag Hok Hl H. unfold connectRoleToKey in H. apply bind_ret in H as (found & w1 & Hq & H).
  apply or_throw_ret, query_ret in Hq as [Hq E1]. destruct (find_by_org _ (db w)) as [x|] eqn:Eo; [|by subst].
  apply Hag in Eo. rewrite Eo in Hq. subst found.
  destruct (List.find (own_role _ _) _) as [r|] eqn:Er; [|done].
  destruct (List.find (own_key _ _) _) as [p|] eqn:Ep; [|done].
  apply find_some in Er as [Hr [Hrw _]%own_role_spec]. apply find_some in Ep as [Hp [Hpw _]%own_key_spec].
  assert (E1' : tables (db w1) = tables (db w)) by (by rewrite E1). steps H. tables_eq.
  match goal with Hu : run_sql _ (Upsert schema_keysRoles _ _) _ = Some _ |- _ => rename Hu into Hu0 end.
  split; [ok_chain|]. split.
  - eapply linked_connect; [exact Hu0| |done]. intros y Hy. destruct (run_upsert _ _ _ _ _ _ _ Hu0 Hy) as [Hy'|Hy']; [by left|right].
    assert (y = {| kr_keyId := key_id p; kr_roleId := role_id r; kr_workspaceId := cw_id (c_workspace c) |}) as ->
      by (destruct Hy' as [->|(z & _ & _ & ->)]; done). cbn. split; [by exists r|by exists p].
  - transitivity (tables (db w)); [done|]. eapply kept_upsert; [exact Hu0|done|]. intros y Hy Hcl. split; [|done].
    cbn in Hcl. apply andb_prop in Hcl as [_ Hcr%String.eqb_eq]. destruct Hl as [_ L2 _]. destruct (L2 y Hy) as [(z & Hz & Hzi & Hzw) _].
    cbn. rewrite <- Hzw. rewrite (same_role _ _ r z Hok Hr Hz); [done|congruence].
Qed.

End Procedures.

(** ** Requests *)

(** A request to one of the procedures. *)
Inductive RbacRequest :=
| ConnectPermissionToRole (roleId permissionId : string)
| ConnectRoleToKey (roleId keyId : string)
| DisconnectPermissionFromRole (roleId permissionId : string)
| DisconnectRoleFromKey (roleId keyId : string)
| CreatePermission (name : string) (description : option string)
| DeletePermission (permissionId : string)
| UpdatePermission (id name : string) (description : option string)
| UpsertPermission (input : UpsertPermissionInput)
| DeletePermissionWithRelations (permissionIds : list string)
| CreateRole (name : string) (description : option string) (permissionIds : option (list string))
| UpdateRole (id name : string) (description : option string)
| UpsertRole (input : UpsertRoleInput)
| DeleteRoleWithRelations (roleIds : list string).

Definition serve (r : RbacRequest) (c : WCtx) : M unit :=
  match r with
  | ConnectPermissionToRole roleId permissionId => connectPermissionToRole roleId permissionId c
  | ConnectRoleToKey roleId keyId => connectRoleToKey roleId keyId c
  | DisconnectPermissionFromRole roleId permissionId => disconnectPermissionFromRole roleId permissionId c
  | DisconnectRoleFromKey roleId keyId => disconnectRoleFromKey roleId keyId c
  | CreatePermission name description => createPermission name description c ;; ret tt
  | DeletePermission permissionId => deletePermission permissionId c
  | UpdatePermission id name description => updatePermission id name description c
  | UpsertPermission input => upsertPermission input c ;; ret tt
  | DeletePermissionWithRelations permissionIds => deletePermissionWithRelations permissionIds c ;; ret tt
  | CreateRole name description permissionIds => createRole name description permissionIds c ;; ret tt
  | UpdateRole id name description => updateRole id name description c
  | UpsertRole input => upsertRole input c ;; ret tt
  | DeleteRoleWithRelations roleIds => deleteRoleWithRelations roleIds c ;; ret tt
  end.

(** The one procedure that removes a permission without its connections. *)
Definition severs (r : RbacRequest) : bool := match r with DeletePermission _ => true | _ => false end.

Section Requests.

Context (c : WCtx).

Let ws := cw_id (c_workspace c).

Lemma Atomic_serve r : Atomic (serve r c).
Proof.
  destruct r; cbn [serve]; unfold connectPermissionToRole, connectRoleToKey, disconnectPermissionFromRole,
    disconnectRoleFromKey, createPermission, deletePermission, updatePermission, upsertPermission,
    deletePermissionWithRelations, createRole, updateRole, upsertRole, deleteRoleWithRelations; atomics.
Qed.

(** [deletePermission] leaves the connections of its permission. *)
Lemma respects_deletePermission strict id : strict = false -> respects strict ws (deletePermission id c).
Proof.
  intros -> env w a w' Hok Hl H. unfold deletePermission in H. steps H. tables_eq. split; [ok_chain|]. split.
  - eapply linked_delete_permissions; [eassumption|done|done].
  - kept_chain. intros x Hx [Hw _]%own_permission_spec. exact Hw.
Qed.

Lemma respects_serve {A} strict (m : M A) : respects strict ws m -> respects strict ws (m ;; ret tt).
Proof. intros Hm env w a w' Hok Hl H. apply bind_ret in H as (x & w1 & H1 & H). apply ret_ret in H as [_ ->]. by eapply Hm. Qed.

Lemma serve_respects strict r : (strict = true -> severs r = false) -> respects_if c strict (serve r c).
Proof.
  intros Hr env w a w' Hag. destruct r; cbn [serve]; try (by apply respects_connectPermission); try (by apply respects_connectRole);
    try apply respects_serve; first [apply respects_disconnect_permission | apply respects_disconnect_role
      | apply respects_createPermission | apply respects_updatePermission | apply respects_upsertPermission
      | apply respects_deletePermissions | apply respects_createRole | apply respects_updateRole
      | apply respects_upsertRole | apply respects_deleteRole | apply respects_deletePermission; by destruct strict; [destruct Hr|]].
Qed.

End Requests.

(** Claim C3. Workspaces are isolated from each other. Whatever procedure on roles
    and permissions a user calls, with whatever ids, including ids of roles,
    permissions and keys of other workspaces, the rows that belong to other
    workspaces are the same before and after, in every table; and a call that
    throws changes nothing at all. This holds in tables whose unique indexes hold and
    whose connections are [rooted], each in the workspace of its role, for a context that
    names the workspace of the user's organization; and every procedure,
    [deletePermission] included, leaves tables that are so again, so that it holds
    after any sequence of calls. *)
Theorem rbac_isolation (r : RbacRequest) (c : WCtx) (env : Env) (w : World) :
  ctx_agrees c (db w) -> tables_ok (collation env) (tables (db w)) -> rooted (tables (db w)) ->
  let '(o, w') := serve r c env w in
  (tables_ok (collation env) (tables (db w')) /\ rooted (tables (db w')))
  /\ match o with
     | Ret _ => kept (cw_id (c_workspace c)) (tables (db w)) (tables (db w'))
     | Throw _ => db w' = db w
     end.
Proof.
  intros Hag Hok Hl. destruct (serve r c env w) as [[[]|e] w'] eqn:E.
  - apply sound_rooted in Hl. destruct (serve_respects c false r ltac:(done) env w tt w' Hag Hok Hl E) as (H1 & H2 & H3).
    by rewrite <- sound_rooted.
  - apply Atomic_serve in E. by rewrite E.
Qed.

(** ** Sequences of requests *)

(** One request of some user, in some environment, successful or not. *)
Inductive rbac_step (fold : string -> string) : Db -> Db -> Prop :=
| rbac_step_serve r c env w o w' :
    severs r = false -> ctx_agrees c (db w) -> collation env = fold -> serve r c env w = (o, w') ->
    rbac_step fold (db w) (db w').

(** Claim C22. Connections never dangle. Start from tables in which every connection
    between a role and a permission, a role and a key, or a key and a permission
    joins things that exist in its own workspace. After any sequence of requests,
    by users of any workspaces, of any outcome, that is still so, provided none of
    them is [deletePermission]. *)
Theorem rbac_integrity (fold : string -> string) (d d' : Db) :
  rtc (rbac_step fold) d d' -> tables_ok fold (tables d) -> linked (tables d) ->
  tables_ok fold (tables d') /\ linked (tables d').
Proof.
  intros H. induction H as [|d d1 d2 Hs _ IH]; [done|]. intros Hok Hl.
  enough (tables_ok fold (tables d1) /\ linked (tables d1)) as [H1 H2] by auto.
  destruct Hs as [r c env w o w' Hr Hag <- E]. destruct o as [[]|e].
  - apply sound_linked in Hl. destruct (serve_respects c true r ltac:(done) env w tt w' Hag Hok Hl E) as (H1 & H2 & _).
    by rewrite <- sound_linked.
  - by rewrite (Atomic_serve c r env w e w' E).
Qed.

(** Two workspaces with a role, a permission and a key each. *)
Definition demo_permission (id ws : string) : Permission :=
  {| perm_id := id; perm_workspaceId := ws; perm_projectId := "proj"; perm_name := id; perm_slug := id;
     perm_description := None |}.
Definition demo_role (id ws : string) : Role :=
  {| role_id := id; role_workspaceId := ws; role_projectId := "proj"; role_name := id; role_description := None |}.

Definition demo_key (id ws : string) : Key :=
  {| key_id := id; key_keyAuthId := "ks"; key_hash := id; key_start := "st"; key_workspaceId := ws; key_forWorkspaceId := None;
     key_name := None; key_identityId := None; key_meta := None; key_expires := None; key_deletedAtM := None;
     key_refillDay := None; key_refillAmount := None; key_lastRefillAt := None; key_enabled := true; key_remaining := None;
     key_environment := None |}.

Definition demo_tables : Tables := fun t =>
  match t return list (row t) with
  | schema_keys => [demo_key "key_1" "ws_1"; demo_key "key_2" "ws_2"]
  | schema_keysRoles => [{| kr_keyId := "key_1"; kr_roleId := "role_own"; kr_workspaceId := "ws_1" |};
                         {| kr_keyId := "key_2"; kr_roleId := "role_other"; kr_workspaceId := "ws_2" |}]
  | schema_keysPermissions => [{| kp_keyId := "key_1"; kp_permissionId := "perm_1"; kp_workspaceId := "ws_1" |}]
  | schema_permissions => [demo_permission "perm_1" "ws_1"; demo_permission "perm_2" "ws_2"]
  | schema_roles => [demo_role "role_own" "ws_1"; demo_role "role_other" "ws_2"]
  | schema_rolesPermissions => [{| rp_roleId := "role_own"; rp_permissionId := "perm_1"; rp_workspaceId := "ws_1" |};
                                {| rp_roleId := "role_other"; rp_permissionId := "perm_2"; rp_workspaceId := "ws_2" |}]
  | _ => []
  end.

Definition rbac_db : Db := with_tables demo_tables compute_db.

Lemma demo_agrees : ctx_agrees (demo_ctx compute_db) rbac_db.
Proof. intros x H. vm_compute in H. injection H as <-. reflexivity. Qed.

Lemma demo_ok : tables_ok Str.to_lower demo_tables.
Proof. intros []; reflexivity. Qed.

Lemma demo_linked : linked demo_tables.
Proof.
  assert (R1 : has_role demo_tables "role_own" "ws_1") by (exists (demo_role "role_own" "ws_1"); by split; [left|]).
  assert (R2 : has_role demo_tables "role_other" "ws_2") by (exists (demo_role "role_other" "ws_2"); by split; [right; left|]).
  assert (P1 : has_permission demo_tables "perm_1" "ws_1") by (exists (demo_permission "perm_1" "ws_1"); by split; [left|]).
  assert (P2 : has_permission demo_tables "perm_2" "ws_2") by (exists (demo_permission "perm_2" "ws_2"); by split; [right; left|]).
  assert (K1 : has_key demo_tables "key_1" "ws_1") by (exists (demo_key "key_1" "ws_1"); by split; [left|]).
  assert (K2 : has_key demo_tables "key_2" "ws_2") by (exists (demo_key "key_2" "ws_2"); by split; [right; left|]).
  split; [intros r [<-|[<-|[]]]|intros r [<-|[<-|[]]]|intros r [<-|[]]]; by split.
Qed.

(** The tables after [deletePermission] of perm_1, whose connections are left. *)
Definition severed_tables : Tables := put schema_permissions [demo_permission "perm_2" "ws_2"] demo_tables.

Definition severed_db : Db := with_tables severed_tables compute_db.

Lemma severed_ok : tables_ok Str.to_lower severed_tables.
Proof. intros []; reflexivity. Qed.

Lemma severed_rooted : rooted severed_tables.
Proof.
  destruct demo_linked as [H1 H2 _]. split; intros r Hr; [destruct (H1 r Hr) as [H _]|destruct (H2 r Hr) as [H _]]; exact H.
Qed.

(** A user of ws_1 deletes its role, which is connected to a permission that is gone. *)
Lemma rbac_isolation_witness :
  exists w', serve (DeleteRoleWithRelations ["role_own"%string]) (demo_ctx compute_db) demo_env (world_of severed_db) = (Ret tt, w')
    /\ kept "ws_1" severed_tables (tables (db w')) /\ List.map role_id (tables (db w') schema_roles) = ["role_other"%string].
Proof.
  assert (H := rbac_isolation (DeleteRoleWithRelations ["role_own"%string]) (demo_ctx compute_db) demo_env (world_of severed_db)
    demo_agrees severed_ok severed_rooted).
  destruct (serve (DeleteRoleWithRelations ["role_own"%string]) (demo_ctx compute_db) demo_env (world_of severed_db)) as [o w'] eqn:E.
  assert (Eo : o = Ret tt /\ List.map role_id (tables (db w') schema_roles) = ["role_other"%string])
    by (vm_compute in E; injection E as <- <-; split; reflexivity).
  destruct Eo as [-> Er]. exists w'. split; [reflexivity|]. split; [exact (proj2 H)|exact Er].
Defined.

(** A user of ws_1 creates a role with perm_1: there is one connection more. *)
Lemma rbac_integrity_witness :
  exists w', serve (CreateRole "editor" None (Some ["perm_1"%string])) (demo_ctx compute_db) demo_env (world_of rbac_db) = (Ret tt, w')
    /\ rtc (rbac_step Str.to_lower) rbac_db (db w')
    /\ List.length (tables (db w') schema_rolesPermissions) = 3%nat /\ linked (tables (db w')).
Proof.
  destruct (serve (CreateRole "editor" None (Some ["perm_1"%string])) (demo_ctx compute_db) demo_env (world_of rbac_db)) as [o w'] eqn:E.
  assert (Eo : o = Ret tt /\ List.length (tables (db w') schema_rolesPermissions) = 3%nat)
    by (vm_compute in E; injection E as <- <-; split; reflexivity).
  destruct Eo as [-> En]. exists w'. split; [reflexivity|].
  assert (Hs : rtc (rbac_step Str.to_lower) rbac_db (db w'))
    by (apply rtc_once; exact (rbac_step_serve Str.to_lower (CreateRole "editor" None (Some ["perm_1"%string])) (demo_ctx compute_db)
      demo_env (world_of rbac_db) (Ret tt) w' eq_refl demo_agrees eq_refl E)).
  split; [exact Hs|]. split; [exact En|].
  exact (proj2 (rbac_integrity Str.to_lower rbac_db (db w') Hs demo_ok demo_linked)).
Defined.

(** [deletePermission] leaves connections behind. On tables in which every
    connection is sound, deleting a permission that a role has succeeds, and
    leaves the role connected to a permission that no longer exists; the
    procedure [deletePermissionWithRelations] on the same permission does not. *)
Theorem deletePermission_severs :
  linked demo_tables
  /\ (exists w', deletePermission "perm_1" (demo_ctx compute_db) demo_env (world_of rbac_db) = (Ret tt, w')
        /\ ~ linked (tables (db w')))
  /\ (exists n w', deletePermissionWithRelations ["perm_1"%string] (demo_ctx compute_db) demo_env (world_of rbac_db) = (Ret n, w')
        /\ linked (tables (db w'))).
Proof.
  split; [apply demo_linked|]. split.
  - destruct (deletePermission "perm_1" (demo_ctx compute_db) demo_env (world_of rbac_db)) as [o w'] eqn:E.
    vm_compute in E. injection E as <- <-. eexists. split; [reflexivity|]. intros [H _ _].
    destruct (H {| rp_roleId := "role_own"; rp_permissionId := "perm_1"; rp_workspaceId := "ws_1" |}) as [_ (p & Hp & Hid & _)];
      [by left|]. destruct Hp as [<-|[]]. discriminate.
  - destruct (deletePermissionWithRelations ["perm_1"%string] (demo_ctx compute_db) demo_env (world_of rbac_db)) as [o w'] eqn:E.
    assert (exists n, o = Ret n) as [n ->] by (vm_compute in E; injection E as <- <-; by eexists).
    exists n, w'. split; [done|]. apply sound_linked.
    exact (proj1 (proj2 (respects_deletePermissions (demo_ctx compute_db) true ["perm_1"%string] demo_env (world_of rbac_db) n w'
      demo_ok (proj2 (sound_linked _) demo_linked) E))).
Qed.
