(* ===== verification/GithubRouter.v ===== *)
(** * The GitHub procedures

    web/apps/dashboard/lib/trpc/routers/github.ts: the signed state of an installation,
    its registration, and the procedures on repositories. JSON and the keyed hash are
    parameters; a state is what the code reads of the parsed object. *)

From Stdlib Require Import ZArith Bool Ascii String Lia.
From stdpp Require Import base list gmap strings.
From S2P Require Import Prelude Tables Encoding StripeTypes DeployPlan GithubTypes Effects Fixtures BillingOps Trpc Store Github Authorization.

Local Open Scope Z_scope.

Definition STATE_TTL_MS : Z := 15 * 60 * 1000.

(** ** Signed states *)

Record StateBase := { st_workspaceId : string; st_nonce : string; st_exp : Z }.

Inductive SignedStatePayload :=
| ApiInstall (b : StateBase)
| WorkspaceInstall (b : StateBase) (userId : string)
| AppInstall (b : StateBase) (userId projectId appId : string) (returnTo : option string).

Definition state_base (p : SignedStatePayload) : StateBase :=
  match p with ApiInstall b | WorkspaceInstall b _ | AppInstall b _ _ _ _ => b end.

Definition state_flow (p : SignedStatePayload) : string :=
  match p with ApiInstall _ => "api" | WorkspaceInstall _ _ => "workspace" | AppInstall _ _ _ _ _ => "app" end.

(** A value in the parsed object: a string, an integer, or anything else. *)
Inductive StateValue := SvString (s : string) | SvNumber (n : Z) | SvOther.

Abbreviation StateObject := (list (string * StateValue)).

(** [JSON.stringify] and [JSON.parse] of an object, with [None] for a text that is no
    object; [sha256] gives the bytes of the digest, [hmac] the keyed hash in base64url. *)
Class StateCrypto := {
  json_stringify : StateObject -> string;
  json_parse : string -> option StateObject;
  sha256_digest : string -> string;
  hmac : string -> string -> string;
}.

(** The properties of a payload, as the code writes them; undefined ones are left out of
    the JSON. *)
Definition payload_object (p : SignedStatePayload) : StateObject :=
  let b := state_base p in
  let base := [("workspaceId"%string, SvString (st_workspaceId b)); ("nonce"%string, SvString (st_nonce b)); ("exp"%string, SvNumber (st_exp b))] in
  match p with
  | ApiInstall _ => ("flow"%string, SvString "api") :: base
  | WorkspaceInstall _ userId => ("flow"%string, SvString "workspace") :: ("userId"%string, SvString userId) :: base
  | AppInstall _ userId projectId appId returnTo =>
      [("flow"%string, SvString "app"); ("projectId"%string, SvString projectId); ("appId"%string, SvString appId)]
      ++ match returnTo with Some r => [("returnTo"%string, SvString r)] | None => [] end
      ++ ("userId"%string, SvString userId) :: base
  end.

Definition field (o : StateObject) (k : string) : option StateValue :=
  match List.find (fun '(k', _) => String.eqb k' k) o with Some (_, v) => Some v | None => None end.

(** [z.string().min(1)], [z.number().int().positive()], [z.enum(["settings"]).optional()] *)
Definition min1 (o : option StateValue) : option string :=
  match o with Some (SvString s) => if Js.truthy_string s then Some s else None | _ => None end.
Definition positive (o : option StateValue) : option Z :=
  match o with Some (SvNumber n) => if 0 <? n then Some n else None | _ => None end.
Definition return_to (o : option StateValue) : option (option string) :=
  match o with
  | None => Some None
  | Some (SvString s) => if String.eqb s "settings" then Some (Some s) else None
  | _ => None
  end.

(** A strict object has no property its schema does not name. *)
Definition strict (names : list string) (o : StateObject) : bool := forallb (fun '(k, _) => Js.includes names k) o.

Definition base_names : list string := ["workspaceId"; "nonce"; "exp"; "flow"; "sig"]%string.

Definition parse_base (o : StateObject) : option StateBase :=
  match min1 (field o "workspaceId"), min1 (field o "nonce"), positive (field o "exp") with
  | Some w, Some n, Some e => Some {| st_workspaceId := w; st_nonce := n; st_exp := e |}
  | _, _, _ => None
  end.

(** [signedState.safeParse]: the payload and its signature. *)
Definition signedState (o : StateObject) : option (SignedStatePayload * string) :=
  match parse_base o, min1 (field o "sig"), field o "flow" with
  | Some b, Some sig, Some (SvString flow) =>
      if String.eqb flow "api" then if strict base_names o then Some (ApiInstall b, sig) else None
      else if String.eqb flow "workspace" then
        match min1 (field o "userId") with
        | Some u => if strict ("userId"%string :: base_names) o then Some (WorkspaceInstall b u, sig) else None
        | None => None
        end
      else if String.eqb flow "app" then
        match min1 (field o "userId"), min1 (field o "projectId"), min1 (field o "appId"), return_to (field o "returnTo") with
        | Some u, Some p, Some a, Some r =>
            if strict (["userId"; "projectId"; "appId"; "returnTo"]%string ++ base_names) o then Some (AppInstall b u p a r, sig) else None
        | _, _, _, _ => None
        end
      else None
  | _, _, _ => None
  end.

Fixpoint insert_key (kv : string * StateValue) (o : StateObject) : StateObject :=
  match o with
  | [] => [kv]
  | x :: r => if String.ltb (fst x) (fst kv) then x :: insert_key kv r else kv :: o
  end.
Definition sort_keys (o : StateObject) : StateObject := List.fold_right insert_key [] o.

Section GithubRouter.

Context `{GithubPlatform} `{StateCrypto}.

Definition stableStringify (p : SignedStatePayload) : string := json_stringify (sort_keys (payload_object p)).

Definition stateSigningKey : M (option string) :=
  env <- githubAppEnv ;;
  ret (match env with
       | None => None
       | Some env => Some (sha256_digest ("unkey-github-install-state:" +:+ Str.trim (UNKEY_GITHUB_PRIVATE_KEY_PEM env)))
       end).

Definition NOT_CONFIGURED : Exn := internal "GitHub App not configured".

Definition signed_object (key : string) (p : SignedStatePayload) : StateObject :=
  payload_object p ++ [("sig"%string, SvString (hmac key (stableStringify p)))].

Definition signState (p : SignedStatePayload) : M string :=
  key <- stateSigningKey ;;
  match key with
  | None => throw NOT_CONFIGURED
  | Some key => ret (json_stringify (signed_object key p))
  end.

Definition verifyState (raw : string) : M (option SignedStatePayload) :=
  match json_parse raw with
  | None => ret None
  | Some parsed =>
      match signedState parsed with
      | None => ret None
      | Some (payload, sig) =>
          key <- stateSigningKey ;;
          match key with
          | None => ret None
          | Some key =>
              if negb (String.eqb sig (hmac key (stableStringify payload))) then ret None
              else
                now <- date_now ;;
                if st_exp (state_base payload) <? now then ret None else ret (Some payload)
          end
      end
  end.

(** [crypto.randomBytes(16).toString("base64url")] *)
Definition new_nonce : M string :=
  bytes <- call (RandomBytes 16) ;;
  ret (url_alphabet (encode bytes)).

(** ** Context of a project *)

Definition own_project (ws id : string) (r : Project) : bool := String.eqb (project_id r) id && String.eqb (project_workspaceId r) ws.
Definition own_app (ws id : string) (r : App) : bool := String.eqb (app_id r) id && String.eqb (app_workspaceId r) ws.

Record GithubContext := {
  ctx_appId : option string;
  ctx_defaultBranch : string;
  ctx_repoConnection : option GithubRepoConnection;
  ctx_installations : list GithubInstallation;
}.

(** The connection of an app: the relation is by the id of the app. *)
Definition connection_of (d : Tables) (a : App) : option GithubRepoConnection :=
  List.find (fun c => String.eqb (gc_appId c) (app_id a)) (d schema_githubRepoConnections).

Definition github_context (ws projectId : string) (appId : option string) (d : Tables) : option GithubContext :=
  match List.find (own_project ws projectId) (d schema_projects) with
  | None => None
  | Some project =>
      let apps := List.filter (fun a => String.eqb (app_projectId a) projectId) (d schema_apps) in
      let app :=
        if Js.truthy appId then List.find (fun a => String.eqb (app_id a) (Js.coalesce appId EmptyString)) apps
        else match List.find (fun a => Js.truthy_obj (connection_of d a)) apps with Some a => Some a | None => List.hd_error apps end in
      Some {| ctx_appId := option_map app_id app;
              ctx_defaultBranch := match app with Some a => app_defaultBranch a | None => "main" end;
              ctx_repoConnection := match app with Some a => connection_of d a | None => None end;
              ctx_installations := List.filter (fun i => String.eqb (gi_workspaceId i) ws) (d schema_githubAppInstallations) |}
  end.

Definition fetchGithubContext (ws projectId : string) (appId : option string) : M (option GithubContext) :=
  or_throw (select (fun _ => github_context ws projectId appId)) (internal "Failed to load GitHub context").

Definition own_installation (ws : string) (installationId : Z) (i : GithubInstallation) : bool :=
  Z.eqb (gi_installationId i) installationId && String.eqb (gi_workspaceId i) ws.

(** Whether the installation is the workspace's, when the project is. *)
Definition fetchProjectInstallation (ws projectId : string) (installationId : Z) : M (option bool) :=
  or_throw (select (fun _ d =>
    match List.find (own_project ws projectId) (d schema_projects) with
    | None => None
    | Some _ => Some (Js.truthy_obj (List.find (own_installation ws installationId) (d schema_githubAppInstallations)))
    end)) (internal "Failed to load GitHub installation").

(** ** Installation *)

Definition PROJECT_NOT_FOUND : Exn := not_found "Project not found".

Definition hasInstallations : WCtx -> M bool := fun c =>
  installation <- find_first schema_githubAppInstallations (fun _ i => String.eqb (gi_workspaceId i) (cw_id (c_workspace c))) ;;
  ret (Js.truthy_obj installation).

Definition new_base (c : WCtx) : M StateBase :=
  nonce <- new_nonce ;; now <- date_now ;;
  ret {| st_workspaceId := cw_id (c_workspace c); st_nonce := nonce; st_exp := now + STATE_TTL_MS |}.

Definition configured {A} (m : M A) : M A := env <- githubAppEnv ;; if Js.truthy_obj env then m else throw NOT_CONFIGURED.

Definition prepareWorkspaceInstall : WCtx -> M string := fun c =>
  configured (b <- new_base c ;; signState (WorkspaceInstall b (user_id (c_user c)))).

Definition prepareInstallation (projectId appId : string) (returnTo : option string) : WCtx -> M string := fun c =>
  configured (
    project <- find_first schema_projects (fun _ => own_project (cw_id (c_workspace c)) projectId) ;;
    match project with
    | None => throw PROJECT_NOT_FOUND
    | Some _ => b <- new_base c ;; signState (AppInstall b (user_id (c_user c)) projectId appId returnTo)
    end).

Record RegisterResult := { rg_workspaceSlug : string; rg_flow : string; rg_projectId : option string; rg_appId : option string; rg_returnTo : option string }.

Definition state_target (p : SignedStatePayload) : option (string * string * option string) :=
  match p with AppInstall _ _ projectId appId returnTo => Some (projectId, appId, returnTo) | _ => None end.

(** The state is for this workspace, and, unless it is an API state, for this user. *)
Definition state_matches (c : WCtx) (p : SignedStatePayload) : bool :=
  String.eqb (st_workspaceId (state_base p)) (cw_id (c_workspace c))
  && match p with ApiInstall _ => true | WorkspaceInstall _ u | AppInstall _ u _ _ _ => String.eqb u (user_id (c_user c)) end.

(** The proof that the user of the code can access the installation. *)
Definition prove_ownership (pages : nat) (installationId : Z) (code : option string) : M unit :=
  oauth <- githubOAuthEnv ;;
  if negb (Js.truthy_obj oauth) then throw NOT_CONFIGURED
  else if negb (Js.truthy code) then throw (TRPCError "BAD_REQUEST" "Missing GitHub authorization")
  else
    userToken <- or_throw (exchangeInstallationOAuthCode (Js.coalesce code EmptyString)) (TRPCError "BAD_REQUEST" "Invalid GitHub authorization") ;;
    can <- or_throw (userCanAccessInstallation pages userToken installationId) (internal "Failed to verify GitHub installation ownership") ;;
    if can : bool then ret tt else throw (TRPCError "FORBIDDEN" "You do not have access to this GitHub installation").

Definition install_log (c : WCtx) (p : SignedStatePayload) (installationId : Z) : UnkeyAuditLog :=
  rbac_log c "workspace.install_github" ("Bound GitHub installation " +:+ Num.string_of_Z installationId)
    [{| resource_type := "workspace"; resource_id := cw_id (c_workspace c); resource_name := None;
        resource_meta := Some ([("flow"%string, JString (state_flow p)); ("installationId"%string, JNumber installationId)]
          ++ match state_target p with Some (_, appId, _) => [("appId"%string, JString appId)] | None => [] end) |}] None.

Definition bind_installation (c : WCtx) (p : SignedStatePayload) (installationId : Z) : M unit :=
  or_throw (transaction (
    exec_sql (Upsert schema_githubAppInstallations
      {| gi_workspaceId := cw_id (c_workspace c); gi_installationId := installationId |} (fun i => i)) ;;
    insertAuditLogs [install_log c p installationId]))
    (internal "Failed to save GitHub installation").

Definition registerInstallation (pages : nat) (state : string) (installationId : Z) (code : option string) : WCtx -> M RegisterResult := fun c =>
  let ws := cw_id (c_workspace c) in
  configured (
    parsedState <- verifyState state ;;
    match parsedState with
    | None => throw (TRPCError "BAD_REQUEST" "Invalid callback state")
    | Some p =>
        if negb (state_matches c p) then throw (TRPCError "BAD_REQUEST" "Invalid callback state")
        else
          existing <- find_first schema_githubAppInstallations (fun _ i => Z.eqb (gi_installationId i) installationId) ;;
          let other := match existing with Some i => negb (String.eqb (gi_workspaceId i) ws) | None => false end in
          if other then throw (conflict "GitHub installation is already bound to another workspace")
          else
            (if Js.truthy_obj existing then ret tt else prove_ownership pages installationId code) ;;
            (match state_target p with
             | None => ret tt
             | Some (projectId, _, _) =>
                 projectInstallation <- or_throw (fetchProjectInstallation ws projectId installationId) (internal "Failed to load project installation") ;;
                 if Js.truthy_obj projectInstallation then ret tt else throw PROJECT_NOT_FOUND
             end) ;;
            bind_installation c p installationId ;;
            ret {| rg_workspaceSlug := cw_slug (c_workspace c); rg_flow := state_flow p;
                   rg_projectId := option_map (fun '(x, _, _) => x) (state_target p);
                   rg_appId := option_map (fun '(_, x, _) => x) (state_target p);
                   rg_returnTo := match state_target p with Some (_, _, r) => r | None => None end |}
    end).

(** ** Repositories *)

Inductive TreeResult := NoTree | TreeOf (tree : list (string * string)) (branch : string) | TreeFailed (branch : string).

Definition getRepoTree (projectId appId : string) : WCtx -> M TreeResult := fun c =>
  githubContext <- fetchGithubContext (cw_id (c_workspace c)) projectId (Some appId) ;;
  match githubContext with
  | Some g =>
      match ctx_repoConnection g with
      | None => ret NoTree
      | Some conn =>
          let parts := Str.split_on "/" (gc_repositoryFullName conn) in
          let owner := nth_error parts 0 in let repo := nth_error parts 1 in
          if negb (Js.truthy owner) || negb (Js.truthy repo) then ret NoTree
          else
            catch (result <- getRepositoryTree (gc_installationId conn) (Js.coalesce owner EmptyString) (Js.coalesce repo EmptyString) (ctx_defaultBranch g) ;;
                   ret (if snd result : bool then NoTree else TreeOf (fst result) (ctx_defaultBranch g)))
              (fun _ => ret (TreeFailed (ctx_defaultBranch g)))
      end
  | None => ret NoTree
  end.

Definition project_context {A} (ws projectId : string) (appId : option string) (k : GithubContext -> M A) : M A :=
  githubContext <- fetchGithubContext ws projectId appId ;;
  match githubContext with None => throw PROJECT_NOT_FOUND | Some g => k g end.

Definition getInstallations (projectId appId : string) : WCtx -> M GithubContext := fun c =>
  project_context (cw_id (c_workspace c)) projectId (Some appId) ret.

Record ListedRepository := { lr_repo : GitHubRepository; lr_installationId : Z }.

Fixpoint installation_repositories (pages : nat) (installations : list GithubInstallation) : M (list ListedRepository) :=
  match installations with
  | [] => ret []
  | i :: rest =>
      repos <- or_throw (getInstallationRepositories pages (gi_installationId i)) (internal "Failed to load GitHub repositories") ;;
      more <- installation_repositories pages rest ;;
      ret (List.map (fun r => {| lr_repo := r; lr_installationId := gi_installationId i |}) repos ++ more)
  end.

(** The latest push first, then by name. *)
Definition pushed_time (r : ListedRepository) : Z :=
  if Js.truthy (repo_pushed_at (lr_repo r)) then date_time (Js.coalesce (repo_pushed_at (lr_repo r)) EmptyString) else 0.
Definition pushed_before (a b : ListedRepository) : bool :=
  if pushed_time a =? pushed_time b then locale_before (repo_full_name (lr_repo a)) (repo_full_name (lr_repo b))
  else pushed_time b <? pushed_time a.

Definition listRepositories (pages : nat) (projectId : string) : WCtx -> M (list ListedRepository) := fun c =>
  configured (project_context (cw_id (c_workspace c)) projectId None (fun g =>
    match ctx_installations g with
    | [] => ret []
    | installations => all <- installation_repositories pages installations ;; ret (sort_by pushed_before all)
    end)).

Definition with_installation {A} (g : GithubContext) (installationId : Z) (m : M A) : M A :=
  if List.existsb (fun i => Z.eqb (gi_installationId i) installationId) (ctx_installations g) then m
  else throw (TRPCError "FORBIDDEN" "Installation not found for this workspace").

Record Branch := { br_name : string; br_lastPushDate : option string }.

Definition branch_names (l : list Branch) : list string := List.map br_name l.

(** The active branches, each once. *)
Definition add_active (branches : list Branch) (b : BranchActivity) : list Branch :=
  if Js.includes (branch_names branches) (ba_name b) then branches
  else branches ++ [{| br_name := ba_name b; br_lastPushDate := Some (ba_lastPushDate b) |}].

(** [activityMap.get(name) ?? null]: of several entries the last one wins. *)
Definition last_push (active : list BranchActivity) (name : string) : option string :=
  option_map ba_lastPushDate (List.find (fun b => String.eqb (ba_name b) name) (List.rev active)).

Definition add_alphabetical (active : list BranchActivity) (branches : list Branch) (name : string) : list Branch :=
  if negb (Js.includes (branch_names branches) name) && (List.length branches <? MAX_BRANCHES)%nat
  then branches ++ [{| br_name := name; br_lastPushDate := last_push active name |}] else branches.

Definition merge_branches (active : list BranchActivity) (alphabetical : list string) (defaultBranch : string) : list Branch :=
  let branches := List.fold_left (add_alphabetical active) alphabetical (List.fold_left add_active active []) in
  if Js.includes (branch_names branches) defaultBranch then branches
  else {| br_name := defaultBranch; br_lastPushDate := None |} :: branches.

Definition getRepositoryDetails (projectId : string) (installationId : Z) (owner repo defaultBranch : string) :
    WCtx -> M (list Branch * option string) := fun c =>
  project_context (cw_id (c_workspace c)) projectId None (fun g =>
    with_installation g installationId (
      r <- both (getRepository installationId owner repo)
             (both (catch (getMostActiveBranches installationId owner repo) (fun _ => ret []))
                   (getRepositoryBranches installationId owner repo (Z.of_nat MAX_BRANCHES))) ;;
      let '(repoData, (active, alphabetical)) := r in
      ret (merge_branches active alphabetical defaultBranch, repo_pushed_at repoData))).

Definition searchBranches (projectId : string) (installationId : Z) (owner repo query_ : string) : WCtx -> M (list string) := fun c =>
  project_context (cw_id (c_workspace c)) projectId None (fun g =>
    with_installation g installationId (searchBranchesByPrefix installationId owner repo query_ 30)).

(** ** Connections *)

Definition app_set_branch (branch : string) (a : App) : App :=
  {| app_id := app_id a; app_workspaceId := app_workspaceId a; app_projectId := app_projectId a; app_name := app_name a;
     app_slug := app_slug a; app_defaultBranch := branch |}.

Definition gc_set_repo (installationId repositoryId : Z) (fullName : string) (c : GithubRepoConnection) : GithubRepoConnection :=
  {| gc_workspaceId := gc_workspaceId c; gc_projectId := gc_projectId c; gc_appId := gc_appId c; gc_installationId := installationId;
     gc_repositoryId := repositoryId; gc_repositoryFullName := fullName |}.

(** The requested app of the project, or its default app. *)
Definition resolve_app (ws projectId : string) (appId : option string) : M App :=
  if Js.truthy appId then
    app <- find_first schema_apps (fun _ a => own_app ws (Js.coalesce appId EmptyString) a && String.eqb (app_projectId a) projectId) ;;
    match app with Some a => ret a | None => throw (not_found "App not found for this project") end
  else
    app <- find_first schema_apps (fun fold a => String.eqb (app_projectId a) projectId && String.eqb (app_workspaceId a) ws
                                                 && String.eqb (fold (app_slug a)) (fold "default"%string)) ;;
    match app with Some a => ret a | None => throw (not_found "No default app found for this project") end.

Definition selectRepository (projectId : string) (appId : option string) (repositoryId installationId : Z) (selectedBranch : option string) :
    WCtx -> M unit := fun c =>
  let ws := cw_id (c_workspace c) in
  projectInstallation <- fetchProjectInstallation ws projectId installationId ;;
  match projectInstallation with
  | None => throw PROJECT_NOT_FOUND
  | Some false => throw (not_found "GitHub installation not found")
  | Some true =>
      app <- resolve_app ws projectId appId ;;
      verifiedRepo <- or_throw (getRepositoryById installationId repositoryId) (internal "Failed to verify GitHub repository") ;;
      match verifiedRepo with
      | None => throw (not_found "Repository not found in the specified GitHub installation")
      | Some repo =>
          or_throw (exec_sql (Upsert schema_githubRepoConnections
            {| gc_workspaceId := ws; gc_projectId := projectId; gc_appId := app_id app; gc_installationId := installationId;
               gc_repositoryId := repo_id repo; gc_repositoryFullName := repo_full_name repo |}
            (gc_set_repo installationId (repo_id repo) (repo_full_name repo))))
            (internal "Failed to save GitHub repository connection") ;;
          let branchToStore := Js.coalesce selectedBranch (repo_default_branch repo) in
          if Js.truthy_string branchToStore
          then exec_sql (Update schema_apps (fun a => String.eqb (app_id a) (app_id app)) (app_set_branch branchToStore))
          else ret tt
      end
  end.

Definition find_app (ws appId : string) : M App :=
  app <- or_throw (find_first schema_apps (fun _ => own_app ws appId)) (internal "Failed to load app") ;;
  match app with Some a => ret a | None => throw (not_found "App not found") end.

Definition disconnectRepo (appId : string) : WCtx -> M unit := fun c =>
  find_app (cw_id (c_workspace c)) appId ;;
  or_throw (exec_sql (Delete schema_githubRepoConnections (fun r => String.eqb (gc_appId r) appId)))
    (internal "Failed to disconnect GitHub repository").

Definition updateDefaultBranch (appId defaultBranch : string) : WCtx -> M unit := fun c =>
  find_app (cw_id (c_workspace c)) appId ;;
  exec_sql (Update schema_apps (fun a => String.eqb (app_id a) appId) (app_set_branch defaultBranch)).

Definition removeInstallation (installationId : Z) : WCtx -> M unit := fun c =>
  let ws := cw_id (c_workspace c) in
  installation <- or_throw (find_first schema_githubAppInstallations (fun _ => own_installation ws installationId))
    (internal "Failed to load GitHub installation") ;;
  match installation with
  | None => throw (not_found "Installation not found")
  | Some _ =>
      or_throw (exec_sql (Delete schema_githubRepoConnections
        (fun r => Z.eqb (gc_installationId r) installationId && String.eqb (gc_workspaceId r) ws)))
        (internal "Failed to remove GitHub installation") ;;
      or_throw (exec_sql (Delete schema_githubAppInstallations (own_installation ws installationId)))
        (internal "Failed to remove GitHub installation")
  end.

(** ** A request *)

Inductive GithubRequest :=
| PrepareWorkspaceInstall
| PrepareInstallation (projectId appId : string) (returnTo : option string)
| RegisterInstallation (pages : nat) (state : string) (installationId : Z) (code : option string)
| SelectRepository (projectId : string) (appId : option string) (repositoryId installationId : Z) (selectedBranch : option string)
| DisconnectRepo (appId : string)
| UpdateDefaultBranch (appId defaultBranch : string)
| RemoveInstallation (installationId : Z).

Definition void {A} (m : M A) : M unit := m ;; ret tt.

Definition serve_github (r : GithubRequest) (c : WCtx) : M unit :=
  match r with
  | PrepareWorkspaceInstall => void (prepareWorkspaceInstall c)
  | PrepareInstallation p a t => void (prepareInstallation p a t c)
  | RegisterInstallation n s i code => void (registerInstallation n s i code c)
  | SelectRepository p a r i b => selectRepository p a r i b c
  | DisconnectRepo a => disconnectRepo a c
  | UpdateDefaultBranch a b => updateDefaultBranch a b c
  | RemoveInstallation i => removeInstallation i c
  end.

End GithubRouter.

(** ** Signed states *)

Section StateFacts.

Context `{GithubPlatform} `{StateCrypto}.

(** The key the states are signed with. *)
Definition signing_key (env : Env) : option string :=
  match github_app_env (app_env env) with
  | Some e => Some (sha256_digest ("unkey-github-install-state:" +:+ Str.trim (UNKEY_GITHUB_PRIVATE_KEY_PEM e)))
  | None => None
  end.

Lemma stateSigningKey_run env w : stateSigningKey env w = (Ret (signing_key env), w).
Proof. unfold stateSigningKey, githubAppEnv, appEnv, bind, ret, signing_key. by destruct (github_app_env (app_env env)). Qed.

(** A state that was signed with the key, for [p], and has not expired at [now]. *)
Definition vouched (env : Env) (raw : string) (p : SignedStatePayload) (now : Z) : Prop :=
  exists o key, json_parse raw = Some o /\ signing_key env = Some key
  /\ signedState o = Some (p, hmac key (stableStringify p)) /\ now <= st_exp (state_base p).

Lemma verifyState_sound raw env w p w' :
  verifyState raw env w = (Ret (Some p), w') -> vouched env raw p (clock env (trace w)) /\ db w' = db w.
Proof.
  unfold verifyState. destruct (json_parse raw) as [o|] eqn:Eo; [|discriminate].
  destruct (signedState o) as [[q sig]|] eqn:Es; [|discriminate].
  unfold bind at 1. rewrite stateSigningKey_run. destruct (signing_key env) as [key|] eqn:Ek; [|discriminate].
  destruct (String.eqb_spec sig (hmac key (stableStringify q))) as [->|]; [cbn [negb]|discriminate].
  unfold bind, date_now. destruct (_ <? _) eqn:El; [discriminate|]. intros [= -> <-].
  split; [|done]. exists o, key. repeat split; try done. by apply Z.ltb_ge.
Qed.

Definition good_base (b : StateBase) : Prop := st_workspaceId b <> EmptyString /\ st_nonce b <> EmptyString /\ 0 < st_exp b.

(** What the schema accepts. *)
Definition good_payload (p : SignedStatePayload) : Prop :=
  good_base (state_base p) /\
  match p with
  | ApiInstall _ => True
  | WorkspaceInstall _ u => u <> EmptyString
  | AppInstall _ u pr a r => u <> EmptyString /\ pr <> EmptyString /\ a <> EmptyString /\ (r = None \/ r = Some "settings"%string)
  end.

Lemma signed_object_parses key p :
  good_payload p -> hmac key (stableStringify p) <> EmptyString ->
  signedState (signed_object key p) = Some (p, hmac key (stableStringify p)).
Proof.
  assert (Ht : forall s, s <> EmptyString -> Js.truthy_string s = true) by by intros [].
  unfold good_payload, good_base, signed_object. intros [(H1 & H2 & H3) H4] H5.
  apply Ht in H1, H2, H5. apply Z.ltb_lt in H3. generalize dependent (hmac key (stableStringify p)). intros sig H5.
  destruct p as [[w n e]|[w n e] u|[w n e] u pr a r]; cbn in *.
  - unfold signedState, parse_base; cbn. by rewrite H1, H2, H3, H5.
  - apply Ht in H4. unfold signedState, parse_base; cbn. by rewrite H1, H2, H3, H4, H5.
  - destruct H4 as (Hu & Hp & Ha & Hr). apply Ht in Hu, Hp, Ha.
    destruct Hr as [->| ->]; unfold signedState, parse_base; cbn; by rewrite H1, H2, H3, H5, Hu, Hp, Ha.
Qed.

(** Claim C27. A state that the dashboard signed is read back as it was until it expires,
    and nothing else is accepted: a state that verifies is an object with exactly the
    properties of its flow, whose signature is the keyed hash of the payload it is read
    as, and whose time is not over. *)
Theorem state_round_trip (p : SignedStatePayload) (env : Env) (w w1 : World) (raw key : string) :
  good_payload p -> signing_key env = Some key -> hmac key (stableStringify p) <> EmptyString ->
  signState p env w = (Ret raw, w1) -> json_parse (json_stringify (signed_object key p)) = Some (signed_object key p) ->
  (clock env (trace w1) <= st_exp (state_base p) -> exists w2, verifyState raw env w1 = (Ret (Some p), w2))
  /\ (st_exp (state_base p) < clock env (trace w1) -> exists w2, verifyState raw env w1 = (Ret None, w2))
  /\ (forall raw' q w2 w3, verifyState raw' env w2 = (Ret (Some q), w3) -> vouched env raw' q (clock env (trace w2))).
Proof.
  intros Hp Hk Hh Hs Hj. unfold signState, bind in Hs. rewrite stateSigningKey_run, Hk in Hs. injection Hs as <- <-.
  assert (Hv : verifyState (json_stringify (signed_object key p)) env w =
    (if st_exp (state_base p) <? clock env (trace w) then Ret None else Ret (Some p), log_call DateNow w)).
  { unfold verifyState. rewrite Hj, (signed_object_parses key p Hp Hh). unfold bind at 1. rewrite stateSigningKey_run, Hk.
    rewrite String.eqb_refl. cbn [negb]. unfold bind, date_now. by destruct (_ <? _). }
  rewrite Hv. split; [|split].
  - intros Hle. exists (log_call DateNow w). by rewrite (proj2 (Z.ltb_ge _ _) Hle).
  - intros Hlt. exists (log_call DateNow w). by rewrite (proj2 (Z.ltb_lt _ _) Hlt).
  - intros raw' q w2 w3 H'. by apply verifyState_sound in H' as [? _].
Qed.

(** ** Registration *)

(** GitHub gave a token for the code and listed the installation for the token. *)
Definition owner_proven (env : Env) (code : option string) (installationId : Z) : Prop :=
  exists code0 oauth token tr, code = Some code0 /\ github_oauth_env (app_env env) = Some oauth
  /\ ask env tr (GitHub (GhExchangeCode (GITHUB_CLIENT_ID oauth) (GITHUB_CLIENT_SECRET oauth) code0)) = inr (GhData (Some token))
  /\ listed env token installationId.

Lemma exchange_ret code env w token w' :
  exchangeInstallationOAuthCode code env w = (Ret token, w') ->
  exists oauth, github_oauth_env (app_env env) = Some oauth
  /\ ask env (trace w) (GitHub (GhExchangeCode (GITHUB_CLIENT_ID oauth) (GITHUB_CLIENT_SECRET oauth) code)) = inr (GhData (Some token)).
Proof.
  unfold exchangeInstallationOAuthCode, githubOAuthEnv, appEnv, bind at 1 2, ret at 1.
  destruct (github_oauth_env (app_env env)) as [e|]; [|discriminate]. unfold bind, call. intros H'. exists e. split; [done|].
  destruct (ask env (trace w) _) as [x|[[d|]|s t]]; try discriminate. by injection H' as -> _.
Qed.

Lemma prove_ownership_ret pages installationId code env w w' :
  prove_ownership pages installationId code env w = (Ret tt, w') -> owner_proven env code installationId.
Proof.
  unfold prove_ownership, githubOAuthEnv, appEnv. intros H'. apply bind_ret in H' as (oauth & w0 & E0 & H'). injection E0 as <- <-.
  destruct (negb (Js.truthy_obj _)); [discriminate|]. destruct code as [code|]; [|discriminate].
  destruct (negb (Js.truthy (Some code))); [discriminate|]. apply bind_ret in H' as (token & w1 & E1 & H').
  apply or_throw_ret, exchange_ret in E1 as (e & He & Ha). apply bind_ret in H' as (can & w2 & E2 & H').
  destruct can; [|discriminate]. apply or_throw_ret, user_pages_true in E2. by exists code, e, token, (trace w).
Qed.

Lemma ReadOnly_user_pages pages token id page : ReadOnly (user_pages pages token id page).
Proof. revert page. induction pages as [|n IH]; intros page; cbn [user_pages]; unfold fetchGitHubApi; effects. Qed.

Lemma ReadOnly_prove pages installationId code : ReadOnly (prove_ownership pages installationId code).
Proof.
  unfold prove_ownership, userCanAccessInstallation, exchangeInstallationOAuthCode, githubOAuthEnv, or_throw.
  effects; apply ReadOnly_user_pages.
Qed.

Lemma ReadOnly_verify raw : ReadOnly (verifyState raw).
Proof. unfold verifyState, stateSigningKey, githubAppEnv. effects. Qed.

Lemma ReadOnly_project_installation ws p i : ReadOnly (fetchProjectInstallation ws p i).
Proof. apply ReadOnly_or_throw, ReadOnly_select. Qed.

End StateFacts.

Section Registration.

Context `{GithubPlatform} `{StateCrypto}.

(** No installation is bound to two workspaces. *)
Definition single_owner (d : Tables) : Prop :=
  forall i j, In i (d schema_githubAppInstallations) -> In j (d schema_githubAppInstallations) ->
  gi_installationId i = gi_installationId j -> gi_workspaceId i = gi_workspaceId j.

Lemma bind_installation_ret c p id env w u w' :
  bind_installation c p id env w = (Ret u, w') ->
  run_sql (collation env) (Upsert schema_githubAppInstallations {| gi_workspaceId := cw_id (c_workspace c); gi_installationId := id |} (fun i => i))
    (tables (db w)) = Some (tables (db w')).
Proof. unfold bind_installation. intros H1. steps H1. tables_eq. congruence. Qed.

(** An upsert leaves the row, or the row it changed. *)
Lemma upsert_has fold t r set d d' :
  run_sql fold (Upsert t r set) d = Some d' -> In r (d' t) \/ exists y, In y (d t) /\ clash fold t r y = true /\ In (set y) (d' t).
Proof.
  intros Hr. apply run_put in Hr as [-> _]. cbn [affect projT1 projT2]. rewrite put_eq.
  destruct (existsb (clash fold t r) (d t)) eqn:E; [right|left; apply List.in_app_iff; right; by left].
  apply existsb_exists in E as (y & Hy & Hc). exists y. split_and!; [done..|]. apply in_map_iff. exists y. by rewrite Hc.
Qed.

Lemma upsert_installation ws id fold d d' :
  run_sql fold (Upsert schema_githubAppInstallations {| gi_workspaceId := ws; gi_installationId := id |} (fun i => i)) d = Some d' ->
  In {| gi_workspaceId := ws; gi_installationId := id |} (d' schema_githubAppInstallations)
  /\ (forall i, In i (d' schema_githubAppInstallations) -> In i (d schema_githubAppInstallations) \/ i = {| gi_workspaceId := ws; gi_installationId := id |})
  /\ kept ws d d'.
Proof.
  intros Hr. split; [|split].
  - apply upsert_has in Hr as [Hr|(y & Hy & Hc & Hr)]; [exact Hr|]. cbn in Hc. apply andb_prop in Hc as [E1%String.eqb_eq E2%Z.eqb_eq].
    destruct y; cbn in *; by subst.
  - intros i Hi. apply (run_upsert _ _ _ _ _ _ _ Hr) in Hi as [Hi|[->|(y & Hy & _ & ->)]]; auto.
  - eapply kept_upsert; [exact Hr|done|]. intros x _ Hc. cbn in Hc. apply andb_prop in Hc as [E1%String.eqb_eq _]. cbn in *. by subst.
Qed.

Lemma registerInstallation_steps pages state id code c env w r w' :
  registerInstallation pages state id code c env w = (Ret r, w') ->
  exists p now, vouched env state p now /\ state_matches c p = true
  /\ (List.find (fun i => Z.eqb (gi_installationId i) id) (tables (db w) schema_githubAppInstallations)
        = Some {| gi_workspaceId := cw_id (c_workspace c); gi_installationId := id |}
      \/ List.find (fun i => Z.eqb (gi_installationId i) id) (tables (db w) schema_githubAppInstallations) = None /\ owner_proven env code id)
  /\ run_sql (collation env) (Upsert schema_githubAppInstallations {| gi_workspaceId := cw_id (c_workspace c); gi_installationId := id |} (fun i => i))
       (tables (db w)) = Some (tables (db w')).
Proof.
  unfold registerInstallation, configured. intros H1. apply bind_ret in H1 as (e & w0 & E0 & H1). unfold githubAppEnv, appEnv, bind in E0. injection E0 as <- <-.
  destruct (Js.truthy_obj _); [|discriminate]. apply bind_ret in H1 as (ps & w1 & E1 & H1). destruct ps as [p|]; [|discriminate].
  apply verifyState_sound in E1 as [Hv E1]. destruct (state_matches c p) eqn:Em; [cbn [negb] in H1|discriminate].
  exists p, (clock env (trace w)). split; [done|]. split; [done|].
  apply bind_ret in H1 as (existing & w2 & E2 & H1). apply find_first_ret in E2 as [Ef E2]. rewrite E1 in *.
  destruct (match existing with Some i => _ | None => _ end) eqn:Eo; [discriminate|].
  apply bind_ret in H1 as ([] & w3 & E3 & H1). apply bind_ret in H1 as ([] & w4 & E4 & H1). apply bind_ret in H1 as ([] & w5 & E5 & H1).
  apply ret_ret in H1 as [_ ->]. apply bind_installation_ret in E5.
  assert (Ht3 : tables (db w3) = tables (db w2)).
  { destruct (Js.truthy_obj existing); [by injection E3 as <-|]. by eapply read_tables; [apply ReadOnly_prove|exact E3]. }
  assert (Ht4 : tables (db w4) = tables (db w3)).
  { eapply read_tables; [|exact E4]. destruct (state_target p) as [[[pr a] rt]|]; [|apply ReadOnly_ret].
    apply ReadOnly_bind; [apply ReadOnly_or_throw, ReadOnly_project_installation|]. intros a'. destruct (Js.truthy_obj a'); [apply ReadOnly_ret|apply ReadOnly_throw]. }
  rewrite Ht4, Ht3, E2 in E5. split; [|done]. destruct existing as [i|].
  - left. transitivity (Some i); [exact Ef|]. f_equal. apply negb_false_iff, String.eqb_eq in Eo. apply List.find_some in Ef as [_ Ef]. apply Z.eqb_eq in Ef. destruct i; cbn in *. by subst.
  - right. split; [exact Ef|]. by apply prove_ownership_ret in E3.
Qed.

Lemma register_throws pages state id code c env w w' e :
  registerInstallation pages state id code c env w = (Throw e, w') -> db w' = db w.
Proof.
  assert (Ha : Atomic (registerInstallation pages state id code c)); [|apply Ha].
  unfold registerInstallation, configured, githubAppEnv. apply Atomic_bind_read; [effects|]. intros e0. destruct (Js.truthy_obj e0); [|atomics].
  apply Atomic_bind_read; [apply ReadOnly_verify|]. intros [p|]; [|atomics]. destruct (negb _); [atomics|].
  apply Atomic_bind_read; [effects|]. intros ex. cbv zeta. destruct (match ex with Some i => _ | None => _ end); [atomics|].
  apply Atomic_bind_read; [destruct (Js.truthy_obj ex); [effects|apply ReadOnly_prove]|]. intros _.
  apply Atomic_bind_read.
  { destruct (state_target p) as [[[pr a] rt]|]; [|apply ReadOnly_ret].
    apply ReadOnly_bind; [apply ReadOnly_or_throw, ReadOnly_project_installation|]. intros a'. destruct (Js.truthy_obj a'); [apply ReadOnly_ret|apply ReadOnly_throw]. }
  intros _. apply Atomic_bind_last; [|effects]. unfold bind_installation. apply Atomic_or_throw, Atomic_transaction.
Qed.

(** Claim C5. An installation is bound only with its owner's consent. When
    registerInstallation succeeds, the state was signed by the dashboard for this
    workspace and, outside the API flow, for this user, and had not expired; and the
    installation was this workspace's already, or was nobody's and GitHub gave a token for
    the caller's code and listed the installation under that token. Afterwards it is
    bound to the workspace and no row of another workspace changed; and when no
    installation had two owners before, no other workspace held this one, and none has two
    owners now. When it throws, the database is unchanged. The check and the write are two
    statements: this is a run that no other registration interleaves
    ([installation_bound_twice]). *)
Theorem installation_bound_with_proof (pages : nat) (state : string) (id : Z) (code : option string) (c : WCtx) (env : Env) (w w' : World)
    (o : Outcome RegisterResult) :
  registerInstallation pages state id code c env w = (o, w') ->
  let ws := cw_id (c_workspace c) in
  match o with
  | Throw _ => db w' = db w
  | Ret _ =>
      (exists p now, vouched env state p now /\ st_workspaceId (state_base p) = ws
        /\ (state_flow p = "api"%string \/ exists u, u = user_id (c_user c)
            /\ match p with WorkspaceInstall _ v | AppInstall _ v _ _ _ => v = u | ApiInstall _ => False end))
      /\ (In {| gi_workspaceId := ws; gi_installationId := id |} (tables (db w) schema_githubAppInstallations)
          \/ (forall i, In i (tables (db w) schema_githubAppInstallations) -> gi_installationId i <> id) /\ owner_proven env code id)
      /\ In {| gi_workspaceId := ws; gi_installationId := id |} (tables (db w') schema_githubAppInstallations)
      /\ kept ws (tables (db w)) (tables (db w'))
      /\ (single_owner (tables (db w)) ->
          (forall i, In i (tables (db w) schema_githubAppInstallations) -> gi_installationId i = id -> gi_workspaceId i = ws)
          /\ single_owner (tables (db w')))
  end.
Proof.
  intros H1. destruct o as [r|e].
  - apply registerInstallation_steps in H1 as (p & now & Hv & Hm & Hown & Hr). apply upsert_installation in Hr as (Hin & Hfrom & Hkept).
    set (row := {| gi_workspaceId := cw_id (c_workspace c); gi_installationId := id |}) in *.
    assert (Hold : In row (tables (db w) schema_githubAppInstallations)
                   \/ (forall i, In i (tables (db w) schema_githubAppInstallations) -> gi_installationId i <> id) /\ owner_proven env code id).
    { destruct Hown as [Hf|[Hf Hp]]; [left; apply List.find_some in Hf as [Hf _]; exact Hf|right]. split; [|done]. intros i Hi E.
      apply (List.find_none _ _ Hf) in Hi. cbv beta in Hi. by rewrite E, Z.eqb_refl in Hi. }
    split; [|split; [done|split; [done|split; [done|]]]].
    + exists p, now. split; [done|]. unfold state_matches in Hm. apply andb_prop in Hm as [E%String.eqb_eq Hu]. split; [done|].
      destruct p; [by left|right; apply String.eqb_eq in Hu; eauto..].
    + intros Hs. split.
      { intros i Hi Ei. destruct Hold as [Ho|[Hn _]]; [by apply (Hs i row)|by destruct (Hn i Hi)]. }
      intros i j Hi Hj E. apply Hfrom in Hi as [Hi| ->], Hj as [Hj| ->]; [by apply Hs|..|done].
      * destruct Hold as [Ho|[Hn _]]; [by apply (Hs i row)|by destruct (Hn i Hi)].
      * destruct Hold as [Ho|[Hn _]]; [by apply (Hs row j)|by destruct (Hn j Hj)].
  - by eapply register_throws.
Qed.

End Registration.

(** ** Isolation *)

(** A connection belongs to the workspace and to the project of its app. *)
Definition github_linked (d : Tables) : Prop :=
  forall a x, In a (d schema_apps) -> In x (d schema_githubRepoConnections) -> app_id a = gc_appId x ->
  app_workspaceId a = gc_workspaceId x /\ app_projectId a = gc_projectId x.

Section Isolation.

Context `{GithubPlatform} `{StateCrypto} (fold : string -> string) (ws : string).

(** From tables that are sound, only rows of the workspace change. *)
Definition contained (d d' : Tables) : Prop :=
  tables_ok fold d -> github_linked d -> kept ws d d' /\ tables_ok fold d' /\ github_linked d'.

#[local] Instance contained_preorder : PreOrder contained.
Proof.
  split; [by intros d|]. intros d1 d2 d3 H1 H2 Hok Hl. destruct (H1 Hok Hl) as (K1 & O1 & L1). destruct (H2 O1 L1) as (K2 & O2 & L2).
  split; [by transitivity d2|done].
Qed.

(** A statement that changes rows of the workspace and keeps the links. *)
Lemma contained_run s d d' :
  run_sql fold s d = Some d' -> (tables_ok fold d -> github_linked d -> kept ws d d' /\ github_linked d') -> contained d d'.
Proof. intros Hr Hk Hok Hl. destruct (Hk Hok Hl). split; [done|]. split; [by eapply tables_ok_run|done]. Qed.

(** An app is determined by its id. *)
Lemma same_app (d : Tables) a b : tables_ok fold d -> In a (d schema_apps) -> In b (d schema_apps) -> app_id a = app_id b -> a = b.
Proof.
  intros Hok Ha Hb E. apply (unique_same (clash fold schema_apps) (d schema_apps)); [intros; apply clash_sym|apply Hok|done|done|].
  cbn. by rewrite E, String.eqb_refl.
Qed.

Lemma github_linked_other (d d' : Tables) t : run_sql fold t d = Some d' -> projT1 (affect fold t) <> schema_apps ->
  projT1 (affect fold t) <> schema_githubRepoConnections -> github_linked d -> github_linked d'.
Proof. intros Hr H1 H2 Hl. unfold github_linked. by rewrite (run_other _ _ _ _ _ Hr H1), (run_other _ _ _ _ _ Hr H2). Qed.

Lemma linked_sub (d d' : Tables) (f : GithubRepoConnection -> bool) :
  run_sql fold (Delete schema_githubRepoConnections f) d = Some d' -> github_linked d -> github_linked d'.
Proof.
  intros Hr Hl a x Ha Hx. rewrite (run_delete _ _ _ _ _ Hr) in Hx. apply filter_In in Hx as [Hx _].
  rewrite (run_other _ _ _ _ schema_apps Hr) in Ha by done. by apply Hl.
Qed.

Lemma delete_of_app (d d' : Tables) a :
  In a (d schema_apps) -> app_workspaceId a = ws ->
  run_sql fold (Delete schema_githubRepoConnections (fun r => String.eqb (gc_appId r) (app_id a))) d = Some d' -> contained d d'.
Proof.
  intros Ha Hw Hr. apply (contained_run _ _ _ Hr). intros Hok Hl. split; [|by eapply linked_sub].
  eapply kept_delete; [exact Hr|]. intros x Hx E%String.eqb_eq. cbn in *. rewrite <- Hw. symmetry. by eapply Hl.
Qed.

Lemma delete_of_ws (d d' : Tables) f :
  (forall r, f r = true -> gc_workspaceId r = ws) -> run_sql fold (Delete schema_githubRepoConnections f) d = Some d' -> contained d d'.
Proof.
  intros Hf Hr. apply (contained_run _ _ _ Hr). intros Hok Hl. split; [|by eapply linked_sub].
  eapply kept_delete; [exact Hr|]. intros x _ E. by apply Hf.
Qed.

Lemma delete_installation (d d' : Tables) id : run_sql fold (Delete schema_githubAppInstallations (own_installation ws id)) d = Some d' -> contained d d'.
Proof.
  intros Hr. apply (contained_run _ _ _ Hr). intros Hok Hl. split; [|by eapply github_linked_other; [exact Hr|..]].
  eapply kept_delete; [exact Hr|]. intros x _ E. cbn in *. by apply andb_prop in E as [_ E%String.eqb_eq].
Qed.

Lemma branch_of_app (d d' : Tables) a branch :
  In a (d schema_apps) -> app_workspaceId a = ws ->
  run_sql fold (Update schema_apps (fun r => String.eqb (app_id r) (app_id a)) (app_set_branch branch)) d = Some d' -> contained d d'.
Proof.
  intros Ha Hw Hr. apply (contained_run _ _ _ Hr). intros Hok Hl. split.
  - eapply kept_update; [exact Hr|]. intros x Hx E%String.eqb_eq. apply (same_app d) in E; [|done..]. by subst.
  - intros b x Hb Hx. rewrite (run_update _ _ _ _ _ _ Hr) in Hb. rewrite (run_other _ _ _ _ schema_githubRepoConnections Hr) in Hx by done.
    apply in_map_iff in Hb as (b0 & <- & Hb0). destruct (String.eqb (app_id b0) (app_id a)); exact (Hl b0 x Hb0 Hx).
Qed.

Lemma connect_app (d d' : Tables) a r set :
  In a (d schema_apps) -> app_workspaceId a = ws -> gc_appId r = app_id a -> gc_workspaceId r = ws ->
  gc_projectId r = app_projectId a ->
  (forall x, gc_appId (set x) = gc_appId x /\ gc_workspaceId (set x) = gc_workspaceId x /\ gc_projectId (set x) = gc_projectId x) ->
  run_sql fold (Upsert schema_githubRepoConnections r set) d = Some d' -> contained d d'.
Proof.
  intros Ha Hw Hid Hrw Hpr Hset Hr. apply (contained_run _ _ _ Hr). intros Hok Hl. split.
  - eapply kept_upsert; [exact Hr|done|]. intros x Hx E. cbn in E. apply String.eqb_eq in E. cbn in *.
    assert (Ex : gc_workspaceId x = ws) by (rewrite <- Hw; symmetry; eapply Hl; [done|done|congruence]). destruct (Hset x) as (_ & -> & _). done.
  - intros b x Hb Hx Ebx. rewrite (run_other _ _ _ _ schema_apps Hr) in Hb by done.
    apply (run_upsert _ _ _ _ _ _ _ Hr) in Hx as [Hx|[->|(y & Hy & _ & ->)]].
    + by apply Hl.
    + rewrite Hrw, Hpr. assert (b = a) as -> by (apply (same_app d); [done..|congruence]). done.
    + destruct (Hset y) as (E1 & E2 & E3). rewrite E1 in Ebx. rewrite E2, E3. by apply Hl.
Qed.

Lemma bind_installation_contained (d d' : Tables) id :
  run_sql fold (Upsert schema_githubAppInstallations {| gi_workspaceId := ws; gi_installationId := id |} (fun i => i)) d = Some d' -> contained d d'.
Proof.
  intros Hr. apply (contained_run _ _ _ Hr). intros Hok Hl. split; [by apply upsert_installation in Hr as (_ & _ & ?)|by eapply github_linked_other; [exact Hr|..]].
Qed.

End Isolation.

(** ** Runs with any outcome *)

Section AnyOutcome.

Context {A B : Type} (env : Env).

Lemma bind_any (m : M A) (k : A -> M B) w o w' :
  bind m k env w = (o, w') -> (exists e, o = Throw e /\ m env w = (Throw e, w')) \/ exists a w1, m env w = (Ret a, w1) /\ k a env w1 = (o, w').
Proof. unfold bind. destruct (m env w) as [[a|e] w1]; [eauto|]. intros [= <- <-]. eauto. Qed.

Lemma or_throw_any (m : M A) e w o w' : or_throw m e env w = (o, w') -> exists o', m env w = (o', w').
Proof. unfold or_throw, catch, throw. destruct (m env w) as [[a|x] w1]; intros [= <- <-]; eauto. Qed.

Lemma exec_any s w o w' :
  exec_sql s env w = (o, w') -> tables (db w') = tables (db w) \/ run_sql (collation env) s (tables (db w)) = Some (tables (db w')).
Proof.
  destruct o as [[]|e]; intros H.
  - right. by apply exec_tables in H.
  - left. assert (Ha : Atomic (exec_sql s)) by apply Atomic_exec_sql. by rewrite (Ha env w e w' H).
Qed.

End AnyOutcome.

Section ServedGithub.

Context `{GithubPlatform} `{StateCrypto} (env : Env) (c : WCtx).

Abbreviation ws := (cw_id (c_workspace c)).
Abbreviation inside w w' := (contained (collation env) ws (tables (db w)) (tables (db w'))).

#[local] Existing Instance contained_preorder.

Lemma inside_same w w' : db w' = db w -> inside w w'.
Proof. intros ->. reflexivity. Qed.

Lemma inside_then w w1 w' : db w1 = db w -> inside w1 w' -> inside w w'.
Proof. by intros ->. Qed.

(** After a computation that only reads. *)
Lemma inside_read {A B} (m : M A) (k : A -> M B) w o w' :
  ReadOnly m -> bind m k env w = (o, w') ->
  (forall a w1, m env w = (Ret a, w1) -> k a env w1 = (o, w') -> inside w1 w') -> inside w w'.
Proof.
  intros Hm Hb Hk. apply bind_any in Hb as [(e & _ & E)|(a & w1 & E & E')].
  - apply inside_same. by eapply read_ret.
  - eapply inside_then; [by eapply read_ret|by eapply Hk].
Qed.

Lemma find_app_ret {A} (k : App -> M A) appId w o w' :
  (a <- find_app ws appId ;; k a) env w = (o, w') ->
  (forall a w1, tables (db w1) = tables (db w) -> In a (tables (db w) schema_apps) -> app_id a = appId -> app_workspaceId a = ws ->
     k a env w1 = (o, w') -> inside w1 w') -> inside w w'.
Proof.
  intros Hb Hk. eapply inside_read; [|exact Hb|].
  - unfold find_app. apply ReadOnly_bind; [apply ReadOnly_or_throw, ReadOnly_find_first|]. intros [a|]; effects.
  - intros a w1 E E'. unfold find_app in E. steps E. apply List.find_some in Ef as [Hin Hw]. unfold own_app in Hw.
    apply andb_prop in Hw as [E1%String.eqb_eq E2%String.eqb_eq]. by eapply Hk.
Qed.

Lemma exec_inside s w o w' : exec_sql s env w = (o, w') ->
  (forall d', run_sql (collation env) s (tables (db w)) = Some d' -> contained (collation env) ws (tables (db w)) d') -> inside w w'.
Proof. intros He Hk. apply exec_any in He as [->|Hr]; [reflexivity|by apply Hk]. Qed.

Lemma disconnect_inside appId w o w' : disconnectRepo appId c env w = (o, w') -> inside w w'.
Proof.
  intros Hd. unfold disconnectRepo in Hd. eapply (find_app_ret (fun _ => _)); [exact Hd|]. intros a w1 Et Ha <- Hw Hk.
  apply or_throw_any in Hk as [o' Hk]. eapply exec_inside; [exact Hk|]. intros d'. eapply delete_of_app; by rewrite ?Et.
Qed.

Lemma branch_inside appId branch w o w' : updateDefaultBranch appId branch c env w = (o, w') -> inside w w'.
Proof.
  intros Hd. unfold updateDefaultBranch in Hd. eapply (find_app_ret (fun _ => _)); [exact Hd|]. intros a w1 Et Ha <- Hw Hk.
  eapply exec_inside; [exact Hk|]. intros d'. eapply branch_of_app; by rewrite ?Et.
Qed.

Lemma remove_inside id w o w' : removeInstallation id c env w = (o, w') -> inside w w'.
Proof.
  intros Hd. unfold removeInstallation in Hd. eapply inside_read; [|exact Hd|]; [apply ReadOnly_or_throw, ReadOnly_find_first|].
  intros i w1 _ Hk. destruct i as [i|]; [|injection Hk as _ <-; reflexivity].
  assert (Hc : forall w o w', or_throw (exec_sql (Delete schema_githubRepoConnections
     (fun r => Z.eqb (gc_installationId r) id && String.eqb (gc_workspaceId r) ws))) (internal "Failed to remove GitHub installation") env w = (o, w') -> inside w w').
  { intros w2 o2 w3 He. apply or_throw_any in He as [o' He]. eapply exec_inside; [exact He|]. intros d'. apply delete_of_ws.
    intros r E. by apply andb_prop in E as [_ E%String.eqb_eq]. }
  apply bind_any in Hk as [(e & _ & E)|([] & w2 & E & Hk)]; [by eapply Hc|]. transitivity (tables (db w2)); [by eapply Hc|].
  apply or_throw_any in Hk as [o' Hk]. eapply exec_inside; [exact Hk|]. intros d'. apply delete_installation.
Qed.

Lemma ReadOnly_access_token id : ReadOnly (getInstallationAccessToken id).
Proof. unfold getInstallationAccessToken, generateAppJWT, githubAppEnv. effects. Qed.

Lemma ReadOnly_repository_by_id i r : ReadOnly (getRepositoryById i r).
Proof. unfold getRepositoryById. apply ReadOnly_bind; [apply ReadOnly_access_token|]. intros. effects. Qed.

Lemma resolve_app_ret projectId appId w a w' :
  resolve_app ws projectId appId env w = (Ret a, w') ->
  In a (tables (db w) schema_apps) /\ app_workspaceId a = ws /\ app_projectId a = projectId /\ tables (db w') = tables (db w)
  /\ (Js.truthy appId = true -> appId = Some (app_id a)).
Proof.
  unfold resolve_app. destruct (Js.truthy appId) eqn:Ea; intros Hr; steps Hr; tables_eq; apply List.find_some in Ef as [Hin Hw];
    unfold own_app in Hw; bool_hyps; repeat split; try done.
  intros _. destruct appId as [s|]; [|done]. cbn in *. congruence.
Qed.

Lemma ReadOnly_resolve projectId appId : ReadOnly (resolve_app ws projectId appId).
Proof. unfold resolve_app. effects. Qed.

Lemma select_inside projectId appId repositoryId installationId branch w o w' :
  selectRepository projectId appId repositoryId installationId branch c env w = (o, w') -> inside w w'.
Proof.
  intros Hd. unfold selectRepository in Hd. eapply inside_read; [|exact Hd|]; [apply ReadOnly_project_installation|].
  intros pi w1 _ Hk. destruct pi as [[]|]; [|injection Hk as _ <-; reflexivity..]. eapply inside_read; [|exact Hk|]; [apply ReadOnly_resolve|].
  intros a w2 Ea Hk2. apply resolve_app_ret in Ea as (Hin & Hw & Hpr & Et & _). eapply inside_read; [|exact Hk2|]; [apply ReadOnly_or_throw, ReadOnly_repository_by_id|].
  intros repo w3 Er Hk3. assert (Et3 : db w3 = db w2) by (eapply read_ret; [|exact Er]; apply ReadOnly_or_throw, ReadOnly_repository_by_id).
  rewrite <- Et, <- Et3 in Hin. destruct repo as [repo|]; [|injection Hk3 as _ <-; reflexivity]. clear Er Hk Hk2 Hd.
  assert (Hc : forall o4 w4, or_throw (exec_sql (Upsert schema_githubRepoConnections
            {| gc_workspaceId := ws; gc_projectId := projectId; gc_appId := app_id a; gc_installationId := installationId;
               gc_repositoryId := repo_id repo; gc_repositoryFullName := repo_full_name repo |}
            (gc_set_repo installationId (repo_id repo) (repo_full_name repo)))) (internal "Failed to save GitHub repository connection") env w3 = (o4, w4) ->
      inside w3 w4 /\ tables (db w4) schema_apps = tables (db w3) schema_apps).
  { intros o4 w4 He. apply or_throw_any in He as [o' He]. split.
    - eapply exec_inside; [exact He|]. intros d'. by eapply connect_app.
    - apply exec_any in He as [->|Hr]; [done|]. by apply (run_other _ _ _ _ schema_apps) in Hr. }
  apply bind_any in Hk3 as [(e & _ & E)|([] & w4 & E & Hk3)]; [by apply Hc in E as [? _]|]. apply Hc in E as [Hi Eapps].
  transitivity (tables (db w4)); [done|]. cbv zeta in Hk3. destruct (Js.truthy_string _); [|injection Hk3 as _ <-; reflexivity].
  eapply exec_inside; [exact Hk3|]. intros d'. eapply branch_of_app; [by rewrite Eapps|done].
Qed.

Lemma serve_inside r w o w' : serve_github r c env w = (o, w') -> inside w w'.
Proof.
  destruct r as [|p a t|n s i code|p a r i b|a|a b|i]; cbn [serve_github].
  - intros Hs. apply inside_same. eapply read_ret; [|exact Hs]. unfold void, prepareWorkspaceInstall, configured, githubAppEnv, new_base, new_nonce, signState, stateSigningKey, githubAppEnv. effects.
  - intros Hs. apply inside_same. eapply read_ret; [|exact Hs]. unfold void, prepareInstallation, configured, githubAppEnv, new_base, new_nonce, signState, stateSigningKey, githubAppEnv. effects.
  - intros Hs. unfold void in Hs. apply bind_any in Hs as [(e & _ & E)|(r & w1 & E & Hs)].
    + apply inside_same. by eapply register_throws.
    + injection Hs as _ <-. apply registerInstallation_steps in E as (_ & _ & _ & _ & _ & E). by eapply bind_installation_contained.
  - apply select_inside.
  - apply disconnect_inside.
  - apply branch_inside.
  - apply remove_inside.
Qed.

End ServedGithub.

(** Claim C26. Whatever request of the GitHub router a caller makes, with whatever ids, and
    whether it succeeds or fails on the way: the rows of the other workspaces are the same
    before and after, in every table. This rests on the unique indexes and on every
    connection belonging to the workspace and to the project of its app, which every
    request preserves. *)
Theorem github_isolation `{GithubPlatform} `{StateCrypto} (r : GithubRequest) (c : WCtx) (env : Env) (w w' : World) (o : Outcome unit) :
  tables_ok (collation env) (tables (db w)) -> github_linked (tables (db w)) -> serve_github r c env w = (o, w') ->
  kept (cw_id (c_workspace c)) (tables (db w)) (tables (db w')) /\ tables_ok (collation env) (tables (db w')) /\ github_linked (tables (db w')).
Proof. intros Hok Hl Hs. exact (serve_inside env c r w o w' Hs Hok Hl). Qed.

Lemma fetchProjectInstallation_ret ws p i env w b w' :
  fetchProjectInstallation ws p i env w = (Ret (Some b), w') ->
  (exists pr, In pr (tables (db w) schema_projects) /\ project_id pr = p /\ project_workspaceId pr = ws)
  /\ (b = true -> In {| gi_workspaceId := ws; gi_installationId := i |} (tables (db w) schema_githubAppInstallations))
  /\ tables (db w') = tables (db w).
Proof.
  unfold fetchProjectInstallation. intros Hf. steps Hf. destruct (List.find (own_project ws p) _) as [pr|] eqn:Ep; [|discriminate].
  injection Ef as Ef. apply List.find_some in Ep as [Hin Hw]. unfold own_project in Hw. bool_hyps. split; [by exists pr|]. split; [|done].
  intros ->. destruct (List.find (own_installation ws i) _) as [x|] eqn:Ei; [|discriminate]. apply List.find_some in Ei as [Hx Hw].
  unfold own_installation in Hw. bool_hyps. by destruct x; cbn in *; subst.
Qed.

(** An app is connected only to what was verified. When selectRepository
    succeeds, the project and the app are the workspace's, the app is the one that was
    asked for, and the installation is bound to the workspace; GitHub returned the
    repository to a token of that installation; and afterwards the connection of the app
    names that installation and the id and name GitHub gave, not those of the request. *)
Theorem repository_connected `{GithubPlatform} `{StateCrypto} projectId appId repositoryId installationId branch (c : WCtx) (env : Env) (w w' : World) :
  selectRepository projectId appId repositoryId installationId branch c env w = (Ret tt, w') ->
  let ws := cw_id (c_workspace c) in
  exists a repo token tr x,
    In a (tables (db w) schema_apps) /\ app_workspaceId a = ws /\ app_projectId a = projectId
    /\ (Js.truthy appId = true -> appId = Some (app_id a))
    /\ (exists pr, In pr (tables (db w) schema_projects) /\ project_id pr = projectId /\ project_workspaceId pr = ws)
    /\ In {| gi_workspaceId := ws; gi_installationId := installationId |} (tables (db w) schema_githubAppInstallations)
    /\ ask env tr (GitHub (GhRepoById token repositoryId)) = inr (GhData (Some repo))
    /\ In x (tables (db w') schema_githubRepoConnections) /\ gc_appId x = app_id a /\ gc_installationId x = installationId
    /\ gc_repositoryId x = repo_id repo /\ gc_repositoryFullName x = repo_full_name repo.
Proof.
  intros Hs ws. unfold selectRepository in Hs. apply bind_ret in Hs as (pi & w1 & E1 & Hs). destruct pi as [[]|]; try discriminate.
  apply fetchProjectInstallation_ret in E1 as (Hp & Hi & T1). apply bind_ret in Hs as (a & w2 & E2 & Hs).
  apply resolve_app_ret in E2 as (Ha & Haw & Hap & T2 & Hid). apply bind_ret in Hs as (vr & w3 & E3 & Hs).
  assert (T3 : db w3 = db w2) by (eapply read_ret; [|exact E3]; apply ReadOnly_or_throw, ReadOnly_repository_by_id).
  destruct vr as [repo|]; [|discriminate]. apply or_throw_ret in E3. unfold getRepositoryById in E3. apply bind_ret in E3 as (token & w4 & _ & E3).
  unfold bind, call in E3. destruct (ask env (trace w4) (GitHub (GhRepoById token repositoryId))) as [e|[[d|]|s t]] eqn:Eask; try discriminate; [|cbn in E3; by destruct (s =? 404)].
  cbn in E3. injection E3 as -> E3. apply bind_ret in Hs as ([] & w5 & E5 & Hs). apply or_throw_ret, exec_tables in E5.
  assert (T6 : tables (db w') schema_githubRepoConnections = tables (db w5) schema_githubRepoConnections).
  { cbv zeta in Hs. destruct (Js.truthy_string _); [|by apply ret_ret in Hs as [_ ->]]. apply exec_tables in Hs. by apply (run_other _ _ _ _ schema_githubRepoConnections) in Hs. }
  set (conn := {| gc_workspaceId := ws; gc_projectId := projectId; gc_appId := app_id a; gc_installationId := installationId;
                 gc_repositoryId := repo_id repo; gc_repositoryFullName := repo_full_name repo |}) in *.
  assert (Hx : exists x, In x (tables (db w5) schema_githubRepoConnections) /\ gc_appId x = app_id a /\ gc_installationId x = installationId
                 /\ gc_repositoryId x = repo_id repo /\ gc_repositoryFullName x = repo_full_name repo).
  { apply upsert_has in E5 as [E5|(y & _ & Hc & E5)]; [by exists conn|].
    exists (gc_set_repo installationId (repo_id repo) (repo_full_name repo) y). split; [exact E5|].
    cbn in Hc. apply String.eqb_eq in Hc. done. }
  destruct Hx as (x & Hx & Hrest). exists a, repo, token, (trace w4), x. rewrite T6. rewrite T1 in Ha. destruct Hrest as (? & ? & ? & ?).
  specialize (Hi eq_refl). split_and!; assumption.
Qed.

(** ** Branches *)

Lemma add_active_inv branches b :
  NoDup (branch_names branches) -> NoDup (branch_names (add_active branches b)) /\ (List.length (add_active branches b) <= S (List.length branches))%nat.
Proof.
  unfold add_active. intros Hn. destruct (Js.includes (branch_names branches) (ba_name b)) eqn:E; [split; [done|lia]|].
  unfold branch_names. rewrite List.map_app, length_app. cbn. split; [|lia]. apply NoDup_app. split_and!; [done| |apply NoDup_singleton].
  intros x Hx Hx'%list_elem_of_singleton. subst. apply list_elem_of_In, StrFacts.includes_In in Hx. unfold branch_names in E. congruence.
Qed.

Lemma add_alphabetical_inv active branches name :
  NoDup (branch_names branches) -> (List.length branches <= MAX_BRANCHES)%nat ->
  NoDup (branch_names (add_alphabetical active branches name)) /\ (List.length (add_alphabetical active branches name) <= MAX_BRANCHES)%nat.
Proof.
  unfold add_alphabetical. intros Hn Hl. destruct (Js.includes (branch_names branches) name) eqn:E; [done|]. cbn [negb andb].
  destruct (Nat.ltb_spec (List.length branches) MAX_BRANCHES); [|done]. unfold branch_names. rewrite List.map_app, length_app. cbn [List.length List.map].
  split; [|lia]. apply NoDup_app. split_and!; [done| |apply NoDup_singleton].
  intros x Hx Hx'%list_elem_of_singleton. subst. apply list_elem_of_In, StrFacts.includes_In in Hx. unfold branch_names in E. cbn [br_name] in Hx. congruence.
Qed.

Lemma fold_active_inv active branches :
  NoDup (branch_names branches) ->
  NoDup (branch_names (List.fold_left add_active active branches))
  /\ (List.length (List.fold_left add_active active branches) <= List.length branches + List.length active)%nat.
Proof.
  revert branches. induction active as [|b l IH]; intros branches Hn; cbn [List.fold_left List.length]; [split; [done|lia]|].
  destruct (add_active_inv branches b Hn) as [H1 H2]. destruct (IH _ H1) as [H3 H4]. split; [done|lia].
Qed.

Lemma fold_alphabetical_inv active names branches :
  NoDup (branch_names branches) -> (List.length branches <= MAX_BRANCHES)%nat ->
  NoDup (branch_names (List.fold_left (add_alphabetical active) names branches))
  /\ (List.length (List.fold_left (add_alphabetical active) names branches) <= MAX_BRANCHES)%nat.
Proof.
  revert branches. induction names as [|b l IH]; intros branches Hn Hl; cbn [List.fold_left]; [done|].
  destruct (add_alphabetical_inv active branches b Hn Hl) as [H1 H2]. by apply IH.
Qed.

(** The branches that are offered: each once, the default one among them, and at most one
    more than the limit. *)
Theorem offered_branches `{GithubPlatform} (events : list RepositoryEvent) (alphabetical : list string) (defaultBranch : string) :
  let branches := merge_branches (activity events) alphabetical defaultBranch in
  NoDup (branch_names branches) /\ In defaultBranch (branch_names branches) /\ (List.length branches <= S MAX_BRANCHES)%nat.
Proof.
  unfold merge_branches. assert (Ha : (List.length (activity events) <= MAX_BRANCHES)%nat) by apply List.firstn_le_length.
  destruct (fold_active_inv (activity events) []) as [H1 H2]; [constructor|]. cbn [List.length] in H2.
  destruct (fold_alphabetical_inv (activity events) alphabetical _ H1) as [H3 H4]; [lia|].
  set (branches := List.fold_left _ alphabetical _) in *. clearbody branches. cbv zeta.
  destruct (Js.includes (branch_names branches) defaultBranch) eqn:E.
  - split_and!; [done|by apply StrFacts.includes_In|lia].
  - split_and!; [|by left|cbn [List.length]; lia]. cbn. apply NoDup_cons. split; [|done].
    intros Hx%list_elem_of_In%StrFacts.includes_In. cbn in Hx; unfold branch_names in E; congruence.
Qed.

(** ** A sample installation *)

#[local] Instance demo_platform : GithubPlatform := {| rsa_sign _ _ := "signature"%string; locale_before := String.ltb; date_time _ := 0 |}.

Definition demo_payload : SignedStatePayload :=
  WorkspaceInstall {| st_workspaceId := "ws_1"; st_nonce := "n"; st_exp := 2000000 |} "user_1".

#[local] Instance demo_state : StateCrypto := {|
  json_stringify o := if Js.truthy_obj (field o "sig") then "signed"%string else "payload"%string;
  json_parse raw := if String.eqb raw "signed" then Some (payload_object demo_payload ++ [("sig"%string, SvString "key/payload")]) else None;
  sha256_digest _ := "key"%string;
  hmac key message := key +:+ "/" +:+ message;
|}.

Definition demo_repo : GitHubRepository :=
  {| repo_id := 9; repo_name := "api"; repo_full_name := "acme/api"; repo_private := true; repo_html_url := "https://github.com/acme/api";
     repo_default_branch := "trunk"; repo_pushed_at := None; repo_language := None |}.

Definition github_answer (c : Call) : Exn + Resp c :=
  match c return Exn + Resp c with
  | GitHub g =>
      inr (match g return GhReply (gh_data g) with
           | GhExchangeCode _ _ _ => GhData (Some "gh_token"%string)
           | GhUserInstallations _ _ _ => GhData (Some [41; 42])
           | GhAccessToken _ _ => GhData (Some "app_token"%string)
           | GhRepoById _ _ => GhData (Some demo_repo)
           | _ => GhStatus 404 "Not Found"
           end)
  | c => demo_answer c
  end.

Definition github_env : Env :=
  {| stripe_env := stripe_env demo_env; app_env := demo_app_env; request_headers := fun _ => None; SLACK_WEBHOOK_CUSTOMERS := None;
     ask := fun _ c => github_answer c; clock := clock demo_env; fresh := fresh demo_env; teardown_done := teardown_done demo_env; collation := Str.to_lower |}.

(** The workspace has a project with a connected app; another workspace has an app too. *)
Definition github_tables : Tables :=
  put schema_projects [{| project_id := "proj_1"; project_workspaceId := "ws_1"; project_name := "P"; project_slug := "p"; project_deleteProtection := None |}]
  (put schema_apps [{| app_id := "app_1"; app_workspaceId := "ws_1"; app_projectId := "proj_1"; app_name := "A"; app_slug := "default"; app_defaultBranch := "main" |};
                    {| app_id := "app_2"; app_workspaceId := "ws_2"; app_projectId := "proj_2"; app_name := "B"; app_slug := "default"; app_defaultBranch := "main" |}]
  (put schema_githubAppInstallations [{| gi_workspaceId := "ws_1"; gi_installationId := 41 |}]
  (put schema_githubRepoConnections [{| gc_workspaceId := "ws_2"; gc_projectId := "proj_2"; gc_appId := "app_2"; gc_installationId := 50; gc_repositoryId := 1;
                                        gc_repositoryFullName := "other/repo" |}] (fun _ => [])))).

Definition github_db : Db :=
  {| workspaces := workspaces free_db; workspace_billing := workspace_billing free_db; billing_subscriptions := []; limits := ∅;
     clickhouse_outbox := []; tables := github_tables |}.

Lemma github_tables_ok : tables_ok Str.to_lower github_tables.
Proof. intros []; reflexivity. Qed.

Lemma github_tables_linked : github_linked github_tables.
Proof. intros a x Ha Hx. cbn in Ha, Hx. destruct Ha as [<-|[<-|[]]], Hx as [<-|[]]; cbn; done. Qed.

Lemma github_isolation_witness :
  exists w', serve_github (SelectRepository "proj_1" None 9 41 None) (demo_ctx compute_db) github_env (world_of github_db) = (Ret tt, w')
    /\ kept "ws_1" github_tables (tables (db w')).
Proof.
  destruct (serve_github (SelectRepository "proj_1" None 9 41 None) (demo_ctx compute_db) github_env (world_of github_db)) as [[[]|e] w'] eqn:E;
    [|vm_compute in E; discriminate].
  exists w'. split; [reflexivity|].
  destruct (github_isolation (SelectRepository "proj_1" None 9 41 None) (demo_ctx compute_db) github_env (world_of github_db) w' (Ret tt)
    github_tables_ok github_tables_linked E) as [Hk _]. exact Hk.
Defined.

Lemma repository_connected_witness :
  exists w' x, selectRepository "proj_1" (Some "app_1"%string) 9 41 None (demo_ctx compute_db) github_env (world_of github_db) = (Ret tt, w')
    /\ In x (tables (db w') schema_githubRepoConnections) /\ gc_installationId x = 41.
Proof.
  destruct (selectRepository "proj_1" (Some "app_1"%string) 9 41 None (demo_ctx compute_db) github_env (world_of github_db)) as [[[]|e] w'] eqn:E;
    [|vm_compute in E; discriminate].
  destruct (repository_connected "proj_1" (Some "app_1"%string) 9 41 None (demo_ctx compute_db) github_env (world_of github_db) w' E)
    as (a & repo & token & tr & x & _ & _ & _ & _ & _ & _ & _ & Hx & _ & Hi & _). exists w', x. split; [reflexivity|]. split; [exact Hx|exact Hi].
Defined.

Lemma installation_bound_with_proof_witness :
  exists r w', registerInstallation 1 "signed" 42 (Some "code"%string) (demo_ctx compute_db) github_env (world_of github_db) = (Ret r, w')
    /\ owner_proven github_env (Some "code"%string) 42.
Proof.
  destruct (registerInstallation 1 "signed" 42 (Some "code"%string) (demo_ctx compute_db) github_env (world_of github_db)) as [[r|e] w'] eqn:E;
    [|vm_compute in E; discriminate].
  exists r, w'. split; [reflexivity|].
  destruct (installation_bound_with_proof 1 "signed" 42 (Some "code"%string) (demo_ctx compute_db) github_env (world_of github_db) w' (Ret r) E)
    as (_ & [Hin|[_ Hp]] & _); [|exact Hp]. cbn in Hin. destruct Hin as [Hin|[]]. discriminate Hin.
Defined.

Lemma state_round_trip_witness :
  exists w2, verifyState "signed" github_env (world_of github_db) = (Ret (Some demo_payload), w2).
Proof.
  destruct (state_round_trip demo_payload github_env (world_of github_db) (world_of github_db) "signed" "key") as [Hv _];
    [by repeat split; cbn|reflexivity|discriminate|reflexivity|reflexivity|]. apply Hv. vm_compute. discriminate.
Defined.

(** The check that an installation has one owner and the write are two steps, and the
    unique index is on the pair of workspace and installation: a registration that has
    passed the check binds an installation that another workspace bound meanwhile. *)
Theorem installation_bound_twice :
  let meanwhile := put schema_githubAppInstallations [{| gi_workspaceId := "ws_2"; gi_installationId := 42 |}] github_tables in
  let d := {| workspaces := workspaces free_db; workspace_billing := workspace_billing free_db; billing_subscriptions := []; limits := ∅;
              clickhouse_outbox := []; tables := meanwhile |} in
  exists w', bind_installation (demo_ctx compute_db) demo_payload 42 github_env (world_of d) = (Ret tt, w')
    /\ List.map gi_workspaceId (tables (db w') schema_githubAppInstallations) = ["ws_2"; "ws_1"]%string.
Proof. eexists. split; vm_compute; reflexivity. Qed.
