(* ===== verification/PolicySchema.v ===== *)
(** * Gateway policies: data and schemas

    web/apps/dashboard/lib/collections/deploy/policies.schema.ts. A policy is stored as
    JSON in the shape of a protobuf oneof. The schemas are parsers of JSON values; [*_ok]
    says which policies they accept, and the round trip shows that what is written is read
    back, also when the gateway wrote its 64-bit numbers as strings. *)

From Stdlib Require Import ZArith Bool Ascii String Lia.
From stdpp Require Import base list gmap strings.
From S2P Require Import Prelude.

Local Open Scope Z_scope.

Set Warnings "-register-all".

(** ** JSON values *)

(** A number is an integer or any other. *)
Inductive json :=
| JsonNull
| JsonBool (b : bool)
| JsonInt (n : Z)
| JsonFraction
| JsonString (s : string)
| JsonArray (l : list json)
| JsonObject (l : list (string * json)).

Abbreviation jfields := (list (string * json)).

(** ** The combinators of zod that the schemas use

    A schema returns what it parsed, [None] when it refuses. *)

Definition jfield (l : jfields) (k : string) : option json :=
  match List.find (fun '(k', _) => String.eqb k' k) l with Some (_, v) => Some v | None => None end.

Definition as_object (j : json) : option jfields := match j with JsonObject l => Some l | _ => None end.

(** [.strict()] *)
Definition only_keys (names : list string) (l : jfields) : bool := forallb (fun '(k, _) => Js.includes names k) l.

Definition required {A} (p : json -> option A) (k : string) (l : jfields) : option A := jfield l k ≫= p.

(** [.optional()]: a missing property; a present one has to parse. *)
Definition optional {A} (p : json -> option A) (k : string) (l : jfields) : option (option A) :=
  match jfield l k with None => Some None | Some j => option_map Some (p j) end.

Definition strict_object {A} (names : list string) (k : jfields -> option A) (j : json) : option A :=
  l ← as_object j; if only_keys names l then k l else None.

Fixpoint parse_all {A} (p : json -> option A) (l : list json) : option (list A) :=
  match l with
  | [] => Some []
  | j :: r => a ← p j; r ← parse_all p r; Some (a :: r)
  end.

(** [z.array(p)] with bounds on the length. *)
Definition array {A} (min max : nat) (p : json -> option A) (j : json) : option (list A) :=
  match j with
  | JsonArray l => if ((min <=? List.length l) && (List.length l <=? max))%nat then parse_all p l else None
  | _ => None
  end.

Definition z_string (j : json) : option string := match j with JsonString s => Some s | _ => None end.
Definition z_string_min1 (j : json) : option string := s ← z_string j; if Js.truthy_string s then Some s else None.
Definition z_string_max (n : nat) (j : json) : option string := s ← z_string j; if (String.length s <=? n)%nat then Some s else None.
Definition z_boolean (j : json) : option bool := match j with JsonBool b => Some b | _ => None end.

(** [z.union]: the first alternative that accepts. *)
Fixpoint first_of {A} (ps : list (json -> option A)) (j : json) : option A :=
  match ps with
  | [] => None
  | p :: r => match p j with Some a => Some a | None => first_of r j end
  end.

(** ** The schemas *)

Definition MAX_SAFE_INTEGER : Z := 2 ^ 53 - 1.

(** [z.number().int().min(lo)]: safe integers. *)
Definition int_ok (lo n : Z) : bool := (lo <=? n) && (n <=? MAX_SAFE_INTEGER).

(** [/^\d+$/] *)
Definition digits (s : string) : bool := Js.truthy_string s && Str.all_chars NumFacts.is_digit s.

(** A number, or a string of digits: protojson writes 64-bit integers as strings. *)
Definition wire_int (lo : Z) (j : json) : option Z :=
  n ← match j with
      | JsonInt n => Some n
      | JsonString s => if digits s then Some (Num.parse_digits 10 0 s) else None
      | _ => None
      end;
  if int_ok lo n then Some n else None.

Definition wireInt64 : json -> option Z := wire_int 1.
Definition wireInt64NonNegative : json -> option Z := wire_int 0.

(** POLICY_LIMITS *)
Definition maxPolicies : nat := 50.
Definition maxKeyspacesPerPolicy : nat := 5.
Definition maxMatchExprsPerPolicy : nat := 10.
Definition permissionQueryMaxLength : nat := 1000.
Definition maxRatelimitsPerKeyauth : nat := 10.
Definition maxIdentifiersPerRatelimit : nat := 5.

(** *** String match *)

Inductive StringMatchMode := exact | prefix | regex.

#[export] Instance mode_eq_dec : EqDecision StringMatchMode.
Proof. solve_decision. Defined.

Definition mode_name (m : StringMatchMode) : string := match m with exact => "exact" | prefix => "prefix" | regex => "regex" end.

Record StringMatch := { sm_ignoreCase : option bool; sm_mode : StringMatchMode; sm_value : string }.

Definition stringMatch_as (m : StringMatchMode) : json -> option StringMatch :=
  strict_object ["ignoreCase"%string; mode_name m] (fun l =>
    i ← optional z_boolean "ignoreCase" l; v ← required z_string_min1 (mode_name m) l;
    Some {| sm_ignoreCase := i; sm_mode := m; sm_value := v |}).

Definition stringMatchSchema : json -> option StringMatch := first_of [stringMatch_as exact; stringMatch_as prefix; stringMatch_as regex].

(** *** Match expressions *)

Inductive HttpMethod := GET | POST | PUT | PATCH | DELETE | HEAD | OPTIONS.

Definition all_methods : list HttpMethod := [GET; POST; PUT; PATCH; DELETE; HEAD; OPTIONS].

Definition method_name (m : HttpMethod) : string :=
  match m with GET => "GET" | POST => "POST" | PUT => "PUT" | PATCH => "PATCH" | DELETE => "DELETE" | HEAD => "HEAD" | OPTIONS => "OPTIONS" end.

Definition httpMethod (j : json) : option HttpMethod := s ← z_string j; List.find (fun m => String.eqb (method_name m) s) all_methods.

(** What a header or parameter has to be: present, or with a value. *)
Inductive ValueMatch := Present | ValueIs (value : StringMatch).

Inductive MatchExpr :=
| MatchPath (path : StringMatch)
| MatchMethod (methods : list HttpMethod)
| MatchHeader (name : string) (value : ValueMatch)
| MatchQueryParam (name : string) (value : ValueMatch).

Definition present_schema (j : json) : option ValueMatch :=
  l ← as_object j; b ← required z_boolean "present" l; if b : bool then Some Present else None.

Definition value_schema (j : json) : option ValueMatch :=
  l ← as_object j; v ← required stringMatchSchema "value" l; Some (ValueIs v).

(** [z.object({ name }).and(z.union([...]))], none of them strict. *)
Definition named_value (j : json) : option (string * ValueMatch) :=
  l ← as_object j; name ← required z_string_min1 "name" l; v ← first_of [present_schema; value_schema] j; Some (name, v).

Definition matchExprSchema : json -> option MatchExpr := first_of
  [ strict_object ["path"%string] (fun l => required (strict_object ["path"%string] (fun l => s ← required stringMatchSchema "path" l; Some (MatchPath s))) "path" l);
    strict_object ["method"%string] (fun l =>
      required (strict_object ["methods"%string] (fun l =>
        match jfield l "methods" with
        | Some (JsonArray ms) => if (1 <=? List.length ms)%nat then option_map MatchMethod (parse_all httpMethod ms) else None
        | _ => None
        end)) "method" l);
    strict_object ["header"%string] (fun l => '(name, v) ← required named_value "header" l; Some (MatchHeader name v));
    strict_object ["queryParam"%string] (fun l => '(name, v) ← required named_value "queryParam" l; Some (MatchQueryParam name v)) ].

(** *** Key locations *)

Inductive KeyLocation := LocBearer | LocHeader (name : string) (stripPrefix : option string) | LocQueryParam (name : string).

Definition empty_object (j : json) : option unit := strict_object [] (fun _ => Some tt) j.

Definition keyLocationSchema : json -> option KeyLocation := first_of
  [ strict_object ["bearer"%string] (fun l => _ ← required empty_object "bearer" l; Some LocBearer);
    strict_object ["header"%string] (fun l =>
      required (strict_object ["name"; "stripPrefix"]%string (fun l =>
        name ← required z_string_min1 "name" l; p ← optional z_string "stripPrefix" l; Some (LocHeader name p))) "header" l);
    strict_object ["queryParam"%string] (fun l =>
      required (strict_object ["name"%string] (fun l => name ← required z_string_min1 "name" l; Some (LocQueryParam name))) "queryParam" l) ].

(** *** Key authentication *)

Record KeyauthRatelimit := { kr_name : string; kr_limit : option Z; kr_duration : option Z; kr_cost : option Z }.

(** The limit and the duration come together. *)
Definition both_or_neither {A B} (a : option A) (b : option B) : bool := Bool.eqb (Js.truthy_obj a) (Js.truthy_obj b).

Definition keyauthRatelimitSchema : json -> option KeyauthRatelimit :=
  strict_object ["name"; "limit"; "duration"; "cost"]%string (fun l =>
    name ← required z_string_min1 "name" l; limit ← optional wireInt64 "limit" l; duration ← optional wireInt64 "duration" l;
    cost ← optional wireInt64 "cost" l;
    if both_or_neither limit duration then Some {| kr_name := name; kr_limit := limit; kr_duration := duration; kr_cost := cost |} else None).

Record Keyauth := {
  keySpaceIds : list string;
  locations : option (list KeyLocation);
  permissionQuery : option string;
  ratelimits : option (list KeyauthRatelimit);
  credits : option Z;
}.

Definition unbounded_array {A} (p : json -> option A) (j : json) : option (list A) :=
  match j with JsonArray l => parse_all p l | _ => None end.

Definition keyauthSchema : json -> option Keyauth :=
  strict_object ["keySpaceIds"; "locations"; "permissionQuery"; "ratelimits"; "credits"]%string (fun l =>
    ids ← required (array 1 maxKeyspacesPerPolicy z_string_min1) "keySpaceIds" l; locs ← optional (unbounded_array keyLocationSchema) "locations" l;
    pq ← optional (z_string_max permissionQueryMaxLength) "permissionQuery" l;
    rls ← optional (array 0 maxRatelimitsPerKeyauth keyauthRatelimitSchema) "ratelimits" l; cr ← optional wireInt64NonNegative "credits" l;
    Some {| keySpaceIds := ids; locations := locs; permissionQuery := pq; ratelimits := rls; credits := cr |}).

(** *** Rate limits *)

Inductive RateLimitIdentifier := RemoteIp | IdHeader (name : string) | AuthenticatedSubject | IdPath | PrincipalField (path : string).

Definition rateLimitIdentifierSchema : json -> option RateLimitIdentifier := first_of
  [ strict_object ["remoteIp"%string] (fun l => _ ← required empty_object "remoteIp" l; Some RemoteIp);
    strict_object ["header"%string] (fun l => required (strict_object ["name"%string] (fun l => name ← required z_string_min1 "name" l; Some (IdHeader name))) "header" l);
    strict_object ["authenticatedSubject"%string] (fun l => _ ← required empty_object "authenticatedSubject" l; Some AuthenticatedSubject);
    strict_object ["path"%string] (fun l => _ ← required empty_object "path" l; Some IdPath);
    strict_object ["principalField"%string] (fun l =>
      required (strict_object ["path"%string] (fun l => path ← required z_string_min1 "path" l; Some (PrincipalField path))) "principalField" l) ].

Record RatelimitConfig := {
  rc_limit : Z;
  rc_windowMs : Z;
  rc_identifier : option RateLimitIdentifier;
  rc_identifiers : option (list RateLimitIdentifier);
}.

(** Exactly one of the two is set. *)
Definition ratelimitSchema : json -> option RatelimitConfig :=
  strict_object ["limit"; "windowMs"; "identifier"; "identifiers"]%string (fun l =>
    limit ← required wireInt64 "limit" l; window ← required wireInt64 "windowMs" l; i ← optional rateLimitIdentifierSchema "identifier" l;
    ids ← optional (array 1 maxIdentifiersPerRatelimit rateLimitIdentifierSchema) "identifiers" l;
    if both_or_neither i ids then None
    else Some {| rc_limit := limit; rc_windowMs := window; rc_identifier := i; rc_identifiers := ids |}).

(** *** Firewall, OpenAPI and logging *)

Inductive FirewallAction := ACTION_DENY.

Definition firewallActionSchema (j : json) : option FirewallAction := s ← z_string j; if String.eqb s "ACTION_DENY" then Some ACTION_DENY else None.

Definition firewallSchema : json -> option FirewallAction := strict_object ["action"%string] (fun l => required firewallActionSchema "action" l).

Record Logging := {
  log_requestHeaders : option bool;
  log_responseHeaders : option bool;
  log_requestBody : option bool;
  log_responseBody : option bool;
  log_query : option bool;
}.

Definition loggingSchema : json -> option Logging :=
  strict_object ["requestHeaders"; "responseHeaders"; "requestBody"; "responseBody"; "query"]%string (fun l =>
    a ← optional z_boolean "requestHeaders" l; b ← optional z_boolean "responseHeaders" l; c ← optional z_boolean "requestBody" l;
    d ← optional z_boolean "responseBody" l; e ← optional z_boolean "query" l;
    Some {| log_requestHeaders := a; log_responseHeaders := b; log_requestBody := c; log_responseBody := d; log_query := e |}).

(** *** Policies *)

Inductive PolicyType := TKeyauth | TRatelimit | TFirewall | TOpenapi | TLogging.

#[export] Instance policy_type_eq_dec : EqDecision PolicyType.
Proof. solve_decision. Defined.

Definition type_name (t : PolicyType) : string :=
  match t with TKeyauth => "keyauth" | TRatelimit => "ratelimit" | TFirewall => "firewall" | TOpenapi => "openapi" | TLogging => "logging" end.

(** The oneof of a policy. *)
Inductive PolicyBody :=
| PKeyauth (keyauth : Keyauth)
| PRatelimit (ratelimit : RatelimitConfig)
| PFirewall (action : FirewallAction)
| POpenapi
| PLogging (logging : Logging).

Definition body_type (b : PolicyBody) : PolicyType :=
  match b with PKeyauth _ => TKeyauth | PRatelimit _ => TRatelimit | PFirewall _ => TFirewall | POpenapi => TOpenapi | PLogging _ => TLogging end.

Record Policy := {
  policy_id : string;
  policy_name : string;
  policy_enabled : bool;
  policy_match : option (list MatchExpr);
  policy_body : PolicyBody;
}.

Definition policy_type (p : Policy) : PolicyType := body_type (policy_body p).

Definition body_schema (t : PolicyType) (j : json) : option PolicyBody :=
  match t with
  | TKeyauth => option_map PKeyauth (keyauthSchema j)
  | TRatelimit => option_map PRatelimit (ratelimitSchema j)
  | TFirewall => option_map PFirewall (firewallSchema j)
  | TOpenapi => option_map (fun _ => POpenapi) (empty_object j)
  | TLogging => option_map PLogging (loggingSchema j)
  end.

Definition policy_keys (t : PolicyType) : list string := ["id"; "name"; "enabled"; "match"; "type"; type_name t]%string.

(** [keyauthPolicySchema] and its siblings, the literal [type] aside. *)
Definition typed_policy (t : PolicyType) (l : jfields) : option Policy :=
  if only_keys (policy_keys t) l then
    id ← required z_string_min1 "id" l; name ← required z_string_min1 "name" l; enabled ← required z_boolean "enabled" l;
    m ← optional (array 0 maxMatchExprsPerPolicy matchExprSchema) "match" l; body ← required (body_schema t) (type_name t) l;
    Some {| policy_id := id; policy_name := name; policy_enabled := enabled; policy_match := m; policy_body := body |}
  else None.

Definition all_types : list PolicyType := [TKeyauth; TRatelimit; TFirewall; TOpenapi; TLogging].

(** The union, discriminated by the property [type]. *)
Definition policySchema (j : json) : option Policy :=
  l ← as_object j; s ← required z_string "type" l; t ← List.find (fun t => String.eqb (type_name t) s) all_types; typed_policy t l.

(** ** Policies as JSON *)

Section Print.

(** How a 64-bit integer is written: a number by the dashboard, a string by protojson. *)
Context (int64 : Z -> json).

(** The properties that are there. *)
Definition present (l : list (string * option json)) : jfields := omap (fun '(k, o) => match o with Some j => Some (k, j) | None => None end) l.

Definition stringMatch_json (s : StringMatch) : json :=
  JsonObject (present [("ignoreCase"%string, option_map JsonBool (sm_ignoreCase s)); (mode_name (sm_mode s), Some (JsonString (sm_value s)))]).

Definition value_json (name : string) (v : ValueMatch) : json :=
  JsonObject [("name"%string, JsonString name);
              match v with Present => ("present"%string, JsonBool true) | ValueIs s => ("value"%string, stringMatch_json s) end].

Definition matchExpr_json (e : MatchExpr) : json :=
  match e with
  | MatchPath s => JsonObject [("path"%string, JsonObject [("path"%string, stringMatch_json s)])]
  | MatchMethod ms => JsonObject [("method"%string, JsonObject [("methods"%string, JsonArray (List.map (fun m => JsonString (method_name m)) ms))])]
  | MatchHeader name v => JsonObject [("header"%string, value_json name v)]
  | MatchQueryParam name v => JsonObject [("queryParam"%string, value_json name v)]
  end.

Definition keyLocation_json (k : KeyLocation) : json :=
  match k with
  | LocBearer => JsonObject [("bearer"%string, JsonObject [])]
  | LocHeader name p => JsonObject [("header"%string, JsonObject (present [("name"%string, Some (JsonString name)); ("stripPrefix"%string, option_map JsonString p)]))]
  | LocQueryParam name => JsonObject [("queryParam"%string, JsonObject [("name"%string, JsonString name)])]
  end.

Definition keyauthRatelimit_json (r : KeyauthRatelimit) : json :=
  JsonObject (present [("name"%string, Some (JsonString (kr_name r))); ("limit"%string, option_map int64 (kr_limit r));
                       ("duration"%string, option_map int64 (kr_duration r)); ("cost"%string, option_map int64 (kr_cost r))]).

Definition keyauth_json (k : Keyauth) : json :=
  JsonObject (present [("keySpaceIds"%string, Some (JsonArray (List.map JsonString (keySpaceIds k))));
                       ("locations"%string, option_map (fun l => JsonArray (List.map keyLocation_json l)) (locations k));
                       ("permissionQuery"%string, option_map JsonString (permissionQuery k));
                       ("ratelimits"%string, option_map (fun l => JsonArray (List.map keyauthRatelimit_json l)) (ratelimits k));
                       ("credits"%string, option_map int64 (credits k))]).

Definition identifier_json (i : RateLimitIdentifier) : json :=
  match i with
  | RemoteIp => JsonObject [("remoteIp"%string, JsonObject [])]
  | IdHeader name => JsonObject [("header"%string, JsonObject [("name"%string, JsonString name)])]
  | AuthenticatedSubject => JsonObject [("authenticatedSubject"%string, JsonObject [])]
  | IdPath => JsonObject [("path"%string, JsonObject [])]
  | PrincipalField path => JsonObject [("principalField"%string, JsonObject [("path"%string, JsonString path)])]
  end.

Definition ratelimit_json (r : RatelimitConfig) : json :=
  JsonObject (present [("limit"%string, Some (int64 (rc_limit r))); ("windowMs"%string, Some (int64 (rc_windowMs r)));
                       ("identifier"%string, option_map identifier_json (rc_identifier r));
                       ("identifiers"%string, option_map (fun l => JsonArray (List.map identifier_json l)) (rc_identifiers r))]).

Definition logging_json (l : Logging) : json :=
  JsonObject (present [("requestHeaders"%string, option_map JsonBool (log_requestHeaders l)); ("responseHeaders"%string, option_map JsonBool (log_responseHeaders l));
                       ("requestBody"%string, option_map JsonBool (log_requestBody l)); ("responseBody"%string, option_map JsonBool (log_responseBody l));
                       ("query"%string, option_map JsonBool (log_query l))]).

Definition body_json (b : PolicyBody) : json :=
  match b with
  | PKeyauth k => keyauth_json k
  | PRatelimit r => ratelimit_json r
  | PFirewall ACTION_DENY => JsonObject [("action"%string, JsonString "ACTION_DENY")]
  | POpenapi => JsonObject []
  | PLogging l => logging_json l
  end.

(** A policy without its [type]. *)
Definition wire_fields (p : Policy) : jfields :=
  present [("id"%string, Some (JsonString (policy_id p))); ("name"%string, Some (JsonString (policy_name p)));
           ("enabled"%string, Some (JsonBool (policy_enabled p)));
           (type_name (policy_type p), Some (body_json (policy_body p)));
           ("match"%string, option_map (fun l => JsonArray (List.map matchExpr_json l)) (policy_match p))].

End Print.

(** The policy as the object the dashboard holds. *)
Definition policy_json (p : Policy) : json :=
  JsonObject (("type"%string, JsonString (type_name (policy_type p))) :: wire_fields JsonInt p).

Definition toWirePolicy (p : Policy) : json := JsonObject (wire_fields JsonInt p).

(** [{ ...obj, type }] *)
Definition with_type (t : PolicyType) (l : jfields) : json :=
  JsonObject (("type"%string, JsonString (type_name t)) :: List.filter (fun '(k, _) => negb (String.eqb k "type")) l).

(** [None] is an exception: no object, no known variant, or refused by the schema. *)
Definition fromWirePolicy (raw : json) : option Policy :=
  match raw with
  | JsonObject l => t ← List.find (fun t => Js.truthy_obj (jfield l (type_name t))) all_types; policySchema (with_type t l)
  | _ => None
  end.

(** The object [savePolicies] validates. *)
Definition policiesConfigSchema (j : json) : option (list Policy) :=
  strict_object ["policies"%string] (fun l => required (array 0 maxPolicies policySchema) "policies" l) j.

(** ** What the schemas accept *)

Definition opt_ok {A} (f : A -> bool) (o : option A) : bool := match o with Some a => f a | None => true end.

Definition length_ok {A} (min max : nat) (l : list A) : bool := ((min <=? List.length l) && (List.length l <=? max))%nat.

Definition stringMatch_ok (s : StringMatch) : bool := Js.truthy_string (sm_value s).

Definition value_ok (v : ValueMatch) : bool := match v with Present => true | ValueIs s => stringMatch_ok s end.

Definition matchExpr_ok (e : MatchExpr) : bool :=
  match e with
  | MatchPath s => stringMatch_ok s
  | MatchMethod ms => (1 <=? List.length ms)%nat
  | MatchHeader name v | MatchQueryParam name v => Js.truthy_string name && value_ok v
  end.

Definition keyLocation_ok (k : KeyLocation) : bool :=
  match k with LocBearer => true | LocHeader name _ | LocQueryParam name => Js.truthy_string name end.

Definition keyauthRatelimit_ok (r : KeyauthRatelimit) : bool :=
  Js.truthy_string (kr_name r) && opt_ok (int_ok 1) (kr_limit r) && opt_ok (int_ok 1) (kr_duration r) && opt_ok (int_ok 1) (kr_cost r)
  && both_or_neither (kr_limit r) (kr_duration r).

Definition keyauth_ok (k : Keyauth) : bool :=
  length_ok 1 maxKeyspacesPerPolicy (keySpaceIds k) && forallb Js.truthy_string (keySpaceIds k)
  && opt_ok (forallb keyLocation_ok) (locations k)
  && opt_ok (fun q => (String.length q <=? permissionQueryMaxLength)%nat) (permissionQuery k)
  && opt_ok (fun l => length_ok 0 maxRatelimitsPerKeyauth l && forallb keyauthRatelimit_ok l) (ratelimits k)
  && opt_ok (int_ok 0) (credits k).

Definition identifier_ok (i : RateLimitIdentifier) : bool :=
  match i with IdHeader s | PrincipalField s => Js.truthy_string s | _ => true end.

Definition ratelimit_ok (r : RatelimitConfig) : bool :=
  int_ok 1 (rc_limit r) && int_ok 1 (rc_windowMs r) && opt_ok identifier_ok (rc_identifier r)
  && opt_ok (fun l => length_ok 1 maxIdentifiersPerRatelimit l && forallb identifier_ok l) (rc_identifiers r)
  && negb (both_or_neither (rc_identifier r) (rc_identifiers r)).

Definition body_ok (b : PolicyBody) : bool :=
  match b with PKeyauth k => keyauth_ok k | PRatelimit r => ratelimit_ok r | _ => true end.

Definition policy_ok (p : Policy) : bool :=
  Js.truthy_string (policy_id p) && Js.truthy_string (policy_name p)
  && opt_ok (fun l => length_ok 0 maxMatchExprsPerPolicy l && forallb matchExpr_ok l) (policy_match p) && body_ok (policy_body p).

(** ** Reading what is written *)

Section Facts.

Lemma parse_all_map {A B} (p : json -> option A) (print : B -> json) (f : B -> A) (l : list B) :
  (forall x, In x l -> p (print x) = Some (f x)) -> parse_all p (List.map print l) = Some (List.map f l).
Proof.
  induction l as [|x l IH]; intros H; [done|]. cbn. rewrite H by (by left). cbn. rewrite IH; [done|]. intros y Hy. apply H. by right.
Qed.

Lemma parse_all_print {A} (p : json -> option A) (print : A -> json) (ok : A -> bool) (l : list A) :
  (forall x, ok x = true -> p (print x) = Some x) -> forallb ok l = true -> parse_all p (List.map print l) = Some l.
Proof.
  intros H Hl. rewrite (parse_all_map p print id); [by rewrite List.map_id|]. intros x Hx. apply H. by eapply forallb_forall in Hl.
Qed.

Lemma parse_all_ok {A} (p : json -> option A) (ok : A -> bool) l r :
  (forall j x, p j = Some x -> ok x = true) -> parse_all p l = Some r -> forallb ok r = true /\ List.length r = List.length l.
Proof.
  intros H. revert r. induction l as [|j l IH]; intros r; cbn; [by intros [= <-]|]. intros E.
  apply bind_Some in E as (a & Ea & E). apply bind_Some in E as (r' & Er & [= <-]). destruct (IH _ Er) as [H1 H2]. cbn.
  by rewrite (H _ _ Ea), H1, H2.
Qed.

Lemma array_print {A} (p : json -> option A) (print : A -> json) (ok : A -> bool) min max (l : list A) :
  (forall x, ok x = true -> p (print x) = Some x) -> length_ok min max l = true -> forallb ok l = true ->
  array min max p (JsonArray (List.map print l)) = Some l.
Proof. intros H Hn Hl. unfold array. rewrite List.length_map. unfold length_ok in Hn. rewrite Hn. by eapply parse_all_print. Qed.

Lemma array_ok {A} (p : json -> option A) (ok : A -> bool) min max j l :
  (forall j x, p j = Some x -> ok x = true) -> array min max p j = Some l -> length_ok min max l = true /\ forallb ok l = true.
Proof.
  intros H. destruct j; try done. cbn. destruct (_ && _) eqn:E; [|done]. intros Hp. destruct (parse_all_ok p ok _ _ H Hp) as [H1 H2].
  unfold length_ok. by rewrite H2.
Qed.

(** A property of an object that lists its properties once. *)
Lemma jfield_present (l : list (string * option json)) k o :
  NoDup (List.map fst l) -> In (k, o) l -> jfield (present l) k = o.
Proof.
  induction l as [|[k' o'] l IH]; [done|]. intros [Hn Hd]%NoDup_cons [[= -> ->]|Hin].
  - destruct o as [j|]; cbn.
    + unfold jfield. cbn. by rewrite String.eqb_refl.
    + destruct (jfield (present l) k) as [j|] eqn:E; [|done]. exfalso. apply Hn. unfold jfield in E.
      destruct (List.find _ _) as [[k2 j2]|] eqn:Ef; [|done]. apply List.find_some in Ef as [Hf E2]. apply String.eqb_eq in E2 as ->.
      apply list_elem_of_In. apply list_elem_of_In in Hf. apply list_elem_of_omap in Hf as ([k3 o3] & H3 & E3).
      destruct o3; [|done]. injection E3 as -> ->. apply List.in_map_iff. exists (k, Some j2). split; [done|]. by apply list_elem_of_In.
  - assert (Hk : k' <> k). { intros ->. apply Hn, list_elem_of_In, List.in_map_iff. by exists (k, o). }
    destruct o' as [j|]; cbn; [|by apply IH]. unfold jfield. cbn. destruct (String.eqb_spec k' k); [done|]. fold (jfield (present l) k). by apply IH.
Qed.

Lemma only_keys_present names (l : list (string * option json)) :
  forallb (fun '(k, _) => Js.includes names k) l = true -> only_keys names (present l) = true.
Proof.
  induction l as [|[k o] l IH]; [done|]. cbn. intros [Hk H]%andb_prop. destruct o; cbn; [rewrite Hk|]; by apply IH.
Qed.

Lemma optional_present {A} (p : json -> option A) k (l : list (string * option json)) (print : A -> json) (ok : A -> bool) (a : option A) :
  NoDup (List.map fst l) -> In (k, option_map print a) l -> (forall x, ok x = true -> p (print x) = Some x) -> opt_ok ok a = true ->
  optional p k (present l) = Some a.
Proof. intros Hn Hi H Ha. unfold optional. rewrite (jfield_present l k _ Hn Hi). destruct a as [x|]; [|done]. cbn in *. by rewrite H. Qed.

Lemma required_present {A} (p : json -> option A) k (l : list (string * option json)) j a :
  NoDup (List.map fst l) -> In (k, Some j) l -> p j = Some a -> required p k (present l) = Some a.
Proof. intros Hn Hi H. unfold required. by rewrite (jfield_present l k _ Hn Hi). Qed.

Lemma first_of_ok {A} (ps : list (json -> option A)) (ok : A -> bool) j a :
  Forall (fun p => forall j x, p j = Some x -> ok x = true) ps -> first_of ps j = Some a -> ok a = true.
Proof. induction 1 as [|p ps Hp _ IH]; [done|]. cbn. destruct (p j) eqn:E; [intros [= <-]; by eapply Hp|done]. Qed.

Lemma opt_ok_true {A} (o : option A) : opt_ok (fun _ => true) o = true.
Proof. by destruct o. Qed.

Lemma optional_ok {A} (p : json -> option A) (ok : A -> bool) k l o :
  (forall j x, p j = Some x -> ok x = true) -> optional p k l = Some o -> opt_ok ok o = true.
Proof. intros H. unfold optional. destruct (jfield l k) as [j|]; [|by intros [= <-]]. destruct (p j) as [a|] eqn:E; intros [= <-]. by eapply H. Qed.

Lemma required_ok {A} (p : json -> option A) (ok : A -> bool) k l a :
  (forall j x, p j = Some x -> ok x = true) -> required p k l = Some a -> ok a = true.
Proof. intros H. unfold required. intros E. apply bind_Some in E as (j & _ & E). by eapply H. Qed.

End Facts.

#[local] Arguments z_string_min1 : simpl never.
#[local] Arguments z_string_max : simpl never.
#[local] Arguments wire_int : simpl never.
#[local] Arguments stringMatchSchema : simpl never.
#[local] Arguments named_value : simpl never.
#[local] Arguments httpMethod : simpl never.

Ltac nodup_keys := match goal with |- NoDup ?l => let l' := eval cbn in l in change (NoDup l'); apply (bool_decide_unpack (NoDup l')); vm_compute; exact I end.
Ltac in_keys := repeat first [left; reflexivity|right].
Ltac read_optional print ok a :=
  match goal with |- mbind _ (optional ?p ?k (present ?l)) = _ =>
    rewrite (optional_present p k l print ok a); [cbn [mbind option_bind]|nodup_keys|in_keys|..] end.
Ltac read_required :=
  match goal with |- mbind _ (required ?p ?k (present ?l)) = _ =>
    erewrite (required_present p k l); [cbn [mbind option_bind]|nodup_keys|in_keys|] end.
Ltac open_strict := unfold strict_object; cbn [as_object mbind option_bind]; rewrite only_keys_present by reflexivity.

(** The alternatives of a union, one by one. *)
Ltac each_alternative := apply first_of_ok; repeat (apply Forall_cons; split); [clear..|apply Forall_nil_2].

(** Inverts what a schema returned. *)
Ltac schema_inv := repeat match goal with
  | H : mbind _ _ = Some _ |- _ => apply bind_Some in H as (? & ? & H)
  | H : strict_object _ _ _ = Some _ |- _ => unfold strict_object in H
  | H : (if ?b then _ else None) = Some _ |- _ => destruct b eqn:?; [|discriminate H]
  | H : (if ?b then None else _) = Some _ |- _ => destruct b eqn:?; [discriminate H|]
  | H : Some _ = Some _ |- _ => injection H as H; subst
  | H : option_map _ ?o = Some _ |- _ => destruct o eqn:?; [|discriminate H]; cbn in H
  end.

Lemma min1_ok j s : z_string_min1 j = Some s -> Js.truthy_string s = true.
Proof. unfold z_string_min1. intros H. by schema_inv. Qed.

Lemma min1_print s : Js.truthy_string s = true -> z_string_min1 (JsonString s) = Some s.
Proof. intros H. unfold z_string_min1. cbn. by rewrite H. Qed.

Lemma max_print n s : (String.length s <=? n)%nat = true -> z_string_max n (JsonString s) = Some s.
Proof. intros H. unfold z_string_max. cbn. by rewrite H. Qed.

Lemma max_ok n j s : z_string_max n j = Some s -> (String.length s <=? n)%nat = true.
Proof. unfold z_string_max. intros H. by schema_inv. Qed.

Lemma wire_int_ok lo j n : wire_int lo j = Some n -> int_ok lo n = true.
Proof. unfold wire_int. intros H. by schema_inv. Qed.

Lemma stringMatch_other m m' l v :
  m <> m' -> stringMatch_as m (JsonObject (present [("ignoreCase"%string, l); (mode_name m', Some v)])) = None.
Proof. intros H. by destruct l, m, m'; try done. Qed.

Lemma stringMatch_print s : stringMatch_ok s = true -> stringMatchSchema (stringMatch_json s) = Some s.
Proof.
  intros Hs. unfold stringMatchSchema, stringMatch_json. assert (Hm : stringMatch_as (sm_mode s) (stringMatch_json s) = Some s).
  { destruct s as [i m v]. unfold stringMatch_as, stringMatch_json, strict_object. cbn. destruct m, i as [[]|]; cbn; by rewrite min1_print. }
  unfold stringMatch_json in Hm. destruct (sm_mode s) eqn:Em; cbn [first_of]; [by rewrite Hm|..];
    rewrite !stringMatch_other by discriminate; by rewrite Hm.
Qed.

Lemma stringMatch_sound j s : stringMatchSchema j = Some s -> stringMatch_ok s = true.
Proof.
  each_alternative; intros j' s' H; unfold stringMatch_as in H; schema_inv; unfold stringMatch_ok; cbn [sm_value];
    by eapply (required_ok _ Js.truthy_string _ _ _ min1_ok).
Qed.

Lemma named_value_print name v : Js.truthy_string name && value_ok v = true -> named_value (value_json name v) = Some (name, v).
Proof.
  intros [Hn Hv]%andb_prop. unfold named_value, value_json, required. cbn [as_object mbind option_bind].
  change (jfield (("name"%string, JsonString name) :: _) "name") with (Some (JsonString name)). cbn [mbind option_bind].
  rewrite min1_print by done. cbn [mbind option_bind]. destruct v as [|s]; [done|]. cbn [first_of].
  unfold present_schema, value_schema, required. cbn. by rewrite stringMatch_print.
Qed.

Lemma named_value_sound j p : named_value j = Some p -> Js.truthy_string (fst p) && value_ok (snd p) = true.
Proof.
  unfold named_value. intros H. schema_inv. apply andb_true_intro. split; [by eapply (required_ok _ Js.truthy_string _ _ _ min1_ok)|].
  cbn [snd]. eapply first_of_ok; [|eassumption]. repeat constructor; clear; intros j v H.
  - unfold present_schema in H. by schema_inv.
  - unfold value_schema in H. schema_inv. by eapply (required_ok _ stringMatch_ok _ _ _ stringMatch_sound).
Qed.

Lemma method_print m : httpMethod (JsonString (method_name m)) = Some m.
Proof. by destruct m. Qed.

Lemma matchExpr_print e : matchExpr_ok e = true -> matchExprSchema (matchExpr_json e) = Some e.
Proof.
  unfold matchExprSchema, matchExpr_json, strict_object, required. destruct e as [s|ms|name v|name v]; cbn [matchExpr_ok]; intros He.
  - cbn. by rewrite stringMatch_print.
  - cbn. rewrite List.length_map. destruct ms as [|m ms]; [done|]. cbn. rewrite method_print. cbn.
    rewrite (parse_all_map httpMethod _ id) by (intros; apply method_print). cbn. by rewrite List.map_id.
  - cbn [first_of as_object mbind option_bind]. cbn. rewrite named_value_print; done.
  - cbn [first_of as_object mbind option_bind]. cbn. rewrite named_value_print; done.
Qed.

Lemma matchExpr_sound j e : matchExprSchema j = Some e -> matchExpr_ok e = true.
Proof.
  each_alternative; intros j e H; schema_inv; unfold required in *; schema_inv.
  - by eapply stringMatch_sound.
  - destruct (jfield _ "methods") as [[| | | | |ms|]|]; try discriminate. schema_inv. subst. cbn.
    destruct (parse_all_ok httpMethod (fun _ => true) ms l) as [_ ->]; [done|done|]. done.
  - match goal with H : named_value _ = Some ?p |- _ => apply named_value_sound in H; destruct p; by schema_inv end.
  - match goal with H : named_value _ = Some ?p |- _ => apply named_value_sound in H; destruct p; by schema_inv end.
Qed.

Lemma keyLocation_print k : keyLocation_ok k = true -> keyLocationSchema (keyLocation_json k) = Some k.
Proof. unfold keyLocationSchema. destruct k as [|name [p|]|name]; intros Hk; [done|cbn; by rewrite (min1_print name Hk)..]. Qed.

Lemma keyLocation_sound j k : keyLocationSchema j = Some k -> keyLocation_ok k = true.
Proof.
  each_alternative; intros j k H; schema_inv; unfold required in *; schema_inv; [done|by eapply min1_ok..].
Qed.

Lemma identifier_print i : identifier_ok i = true -> rateLimitIdentifierSchema (identifier_json i) = Some i.
Proof. unfold rateLimitIdentifierSchema. destruct i as [|name| | |path]; intros Hi; try done; cbn; by rewrite (min1_print _ Hi). Qed.

Lemma identifier_sound j i : rateLimitIdentifierSchema j = Some i -> identifier_ok i = true.
Proof.
  each_alternative; intros j i H; schema_inv; unfold required in *; schema_inv; first [done|by eapply min1_ok].
Qed.

Section RoundTrip.

Context (int64 : Z -> json).
Hypothesis int64_reads : forall lo n, 0 <= lo -> int_ok lo n = true -> wire_int lo (int64 n) = Some n.

Lemma keyauthRatelimit_print r : keyauthRatelimit_ok r = true -> keyauthRatelimitSchema (keyauthRatelimit_json int64 r) = Some r.
Proof.
  unfold keyauthRatelimit_ok. intros H. bool_hyps. unfold keyauthRatelimitSchema, keyauthRatelimit_json. open_strict.
  assert (Hi : forall n, int_ok 1 n = true -> wireInt64 (int64 n) = Some n) by (intros; by apply int64_reads).
  read_required; [|by apply min1_print]. read_optional int64 (int_ok 1) (kr_limit r); [|done..]. read_optional int64 (int_ok 1) (kr_duration r); [|done..].
  read_optional int64 (int_ok 1) (kr_cost r); [|done..]. destruct (both_or_neither _ _); [by destruct r|done].
Qed.

Lemma keyauth_print k : keyauth_ok k = true -> keyauthSchema (keyauth_json int64 k) = Some k.
Proof.
  unfold keyauth_ok. intros H. bool_hyps. unfold keyauthSchema, keyauth_json. open_strict.
  read_required; [|by eapply array_print; [apply min1_print|..]].
  read_optional (fun l => JsonArray (List.map keyLocation_json l)) (forallb keyLocation_ok) (locations k);
    [|intros l Hl; by apply (parse_all_print _ _ _ _ keyLocation_print)|done].
  read_optional JsonString (fun q => (String.length q <=? permissionQueryMaxLength)%nat) (permissionQuery k); [|apply max_print|done].
  read_optional (fun l => JsonArray (List.map (keyauthRatelimit_json int64) l)) (fun l => length_ok 0 maxRatelimitsPerKeyauth l && forallb keyauthRatelimit_ok l) (ratelimits k);
    [|intros l [Hn Hl]%andb_prop; by apply (array_print _ _ keyauthRatelimit_ok); [apply keyauthRatelimit_print|..]|done].
  read_optional int64 (int_ok 0) (credits k); [by destruct k|intros; by apply int64_reads|done].
Qed.

Lemma ratelimit_print r : ratelimit_ok r = true -> ratelimitSchema (ratelimit_json int64 r) = Some r.
Proof.
  unfold ratelimit_ok. intros H. bool_hyps. unfold ratelimitSchema, ratelimit_json. open_strict.
  read_required; [|by apply int64_reads]. read_required; [|by apply int64_reads].
  read_optional identifier_json identifier_ok (rc_identifier r); [|apply identifier_print|done].
  read_optional (fun l => JsonArray (List.map identifier_json l)) (fun l => length_ok 1 maxIdentifiersPerRatelimit l && forallb identifier_ok l) (rc_identifiers r);
    [|intros l [Hn Hl]%andb_prop; by apply (array_print _ _ identifier_ok); [apply identifier_print|..]|done].
  destruct (both_or_neither _ _); [done|by destruct r].
Qed.

Lemma logging_print l : loggingSchema (logging_json l) = Some l.
Proof.
  unfold loggingSchema, logging_json. open_strict.
  read_optional JsonBool (fun _ : bool => true) (log_requestHeaders l); [|done|apply opt_ok_true].
  read_optional JsonBool (fun _ : bool => true) (log_responseHeaders l); [|done|apply opt_ok_true].
  read_optional JsonBool (fun _ : bool => true) (log_requestBody l); [|done|apply opt_ok_true].
  read_optional JsonBool (fun _ : bool => true) (log_responseBody l); [|done|apply opt_ok_true].
  read_optional JsonBool (fun _ : bool => true) (log_query l); [by destruct l|done|apply opt_ok_true].
Qed.

Lemma body_print b : body_ok b = true -> body_schema (body_type b) (body_json int64 b) = Some b.
Proof.
  destruct b as [k|r|[]| |l]; cbn [body_ok body_type body_schema body_json]; intros Hb.
  - by rewrite keyauth_print.
  - by rewrite ratelimit_print.
  - done.
  - done.
  - by rewrite logging_print.
Qed.

(** The properties of a policy with its type. *)
Definition typed_fields (p : Policy) : list (string * option json) :=
  [("type"%string, Some (JsonString (type_name (policy_type p)))); ("id"%string, Some (JsonString (policy_id p)));
   ("name"%string, Some (JsonString (policy_name p))); ("enabled"%string, Some (JsonBool (policy_enabled p)));
   (type_name (policy_type p), Some (body_json int64 (policy_body p)));
   ("match"%string, option_map (fun l => JsonArray (List.map matchExpr_json l)) (policy_match p))].

Lemma typed_fields_nodup p : NoDup (List.map fst (typed_fields p)).
Proof. unfold typed_fields, policy_type. destruct (policy_body p); nodup_keys. Qed.

Lemma typed_print p : policy_ok p = true -> typed_policy (policy_type p) (present (typed_fields p)) = Some p.
Proof.
  unfold policy_ok. intros H. bool_hyps. unfold typed_policy.
  rewrite only_keys_present by (unfold typed_fields; by destruct (policy_type p)).
  assert (Hr : forall A (q : json -> option A) k j a, In (k, Some j) (typed_fields p) -> q j = Some a -> required q k (present (typed_fields p)) = Some a)
    by (intros; by eapply required_present; [apply typed_fields_nodup|..]).
  erewrite (Hr _ _ "id"%string) by (first [solve [in_keys]|by apply min1_print]). cbn [mbind option_bind].
  erewrite (Hr _ _ "name"%string) by (first [solve [in_keys]|by apply min1_print]). cbn [mbind option_bind].
  erewrite (Hr _ _ "enabled"%string) by (first [solve [in_keys]|done]). cbn [mbind option_bind].
  rewrite (optional_present _ "match"%string _ (fun l => JsonArray (List.map matchExpr_json l))
    (fun l => length_ok 0 maxMatchExprsPerPolicy l && forallb matchExpr_ok l) (policy_match p));
    [|apply typed_fields_nodup|in_keys|intros l [Hn Hl]%andb_prop; by apply (array_print _ _ matchExpr_ok); [apply matchExpr_print|..]|done].
  cbn [mbind option_bind].
  erewrite (Hr _ _ (type_name (policy_type p))) by (first [solve [in_keys]|by apply body_print]). by destruct p.
Qed.

Lemma policySchema_print p : policy_ok p = true -> policySchema (JsonObject (present (typed_fields p))) = Some p.
Proof.
  intros Hp. unfold policySchema. cbn [as_object mbind option_bind].
  erewrite (required_present z_string "type"%string (typed_fields p)) by (first [apply typed_fields_nodup|solve [in_keys]|reflexivity]).
  cbn [mbind option_bind]. replace (List.find _ all_types) with (Some (policy_type p)) by (by destruct (policy_type p)). by apply typed_print.
Qed.

Lemma wire_print p : policy_ok p = true -> fromWirePolicy (JsonObject (wire_fields int64 p)) = Some p.
Proof.
  intros Hp. cbn [fromWirePolicy].
  assert (Hf : List.find (fun t => Js.truthy_obj (jfield (wire_fields int64 p) (type_name t))) all_types = Some (policy_type p)).
  { unfold wire_fields, policy_type. by destruct (policy_body p), (policy_match p). }
  rewrite Hf. cbn [mbind option_bind]. rewrite <- (policySchema_print p Hp). f_equal. unfold with_type. f_equal.
  unfold wire_fields, typed_fields, policy_type. by destruct (policy_body p), (policy_match p).
Qed.

End RoundTrip.

Lemma number_reads lo n : 0 <= lo -> int_ok lo n = true -> wire_int lo (JsonInt n) = Some n.
Proof. intros _ Hn. unfold wire_int. cbn. by rewrite Hn. Qed.

(** protojson writes the digits of the number. *)
Definition protojson_int64 (n : Z) : json := JsonString (Num.print n).

Lemma protojson_reads lo n : 0 <= lo -> int_ok lo n = true -> wire_int lo (protojson_int64 n) = Some n.
Proof.
  intros Hlo Hn. assert (H0 : 0 <= n) by (unfold int_ok in Hn; bool_hyps; lia). destruct (NumFacts.print_spec n H0) as (Hd & Hne & Hv).
  unfold wire_int, protojson_int64, digits, Js.truthy_string. apply String.eqb_neq in Hne. rewrite Hne, Hd. cbn [negb andb].
  rewrite Hv. cbn [mbind option_bind]. by rewrite Hn.
Qed.

Lemma keyauthRatelimit_sound j r : keyauthRatelimitSchema j = Some r -> keyauthRatelimit_ok r = true.
Proof.
  unfold keyauthRatelimitSchema. intros H. schema_inv. unfold keyauthRatelimit_ok. cbn.
  repeat (apply andb_true_intro; split); [by eapply (required_ok _ Js.truthy_string _ _ _ min1_ok)| | | |done];
    eapply (optional_ok _ (int_ok 1) _ _ _ (wire_int_ok 1)); eassumption.
Qed.

Lemma keyauth_sound j k : keyauthSchema j = Some k -> keyauth_ok k = true.
Proof.
  unfold keyauthSchema. intros H. schema_inv. unfold keyauth_ok. cbn.
  match goal with H : required _ "keySpaceIds" _ = Some ?l |- _ =>
    apply (required_ok _ (fun l => length_ok 1 maxKeyspacesPerPolicy l && forallb Js.truthy_string l)) in H;
      [|intros ? ? [-> ->]%(array_ok _ _ _ _ _ _ min1_ok); done]; rewrite H end. cbn [andb].
  repeat (apply andb_true_intro; split).
  - eapply (optional_ok _ (forallb keyLocation_ok)); [|eassumption]. intros [| | | | |l|] ls; try done. by intros [? _]%(parse_all_ok _ _ _ _ keyLocation_sound).
  - eapply (optional_ok _ (fun q => (String.length q <=? permissionQueryMaxLength)%nat)); [apply max_ok|eassumption].
  - eapply (optional_ok _ (fun l => length_ok 0 maxRatelimitsPerKeyauth l && forallb keyauthRatelimit_ok l)); [|eassumption].
    by intros ? ? [-> ->]%(array_ok _ _ _ _ _ _ keyauthRatelimit_sound).
  - eapply (optional_ok _ (int_ok 0)); [apply wire_int_ok|eassumption].
Qed.

Lemma ratelimit_sound j r : ratelimitSchema j = Some r -> ratelimit_ok r = true.
Proof.
  unfold ratelimitSchema. intros H. schema_inv. unfold ratelimit_ok. cbn [rc_limit rc_windowMs rc_identifier rc_identifiers].
  rewrite !andb_true_iff. split_and!; [eapply (required_ok _ (int_ok 1) _ _ _ (wire_int_ok 1)); eassumption..| | |by apply negb_true_iff].
  - eapply (optional_ok _ identifier_ok _ _ _ identifier_sound); eassumption.
  - eapply (optional_ok _ (fun l => length_ok 1 maxIdentifiersPerRatelimit l && forallb identifier_ok l)); [|eassumption].
    by intros ? ? [-> ->]%(array_ok _ _ _ _ _ _ identifier_sound).
Qed.

Lemma typed_sound t l p : typed_policy t l = Some p -> policy_ok p = true /\ policy_type p = t.
Proof.
  unfold typed_policy. intros H. schema_inv. unfold policy_ok, policy_type. cbn [policy_id policy_name policy_match policy_body].
  match goal with H : required (body_schema t) _ _ = Some ?b |- _ => unfold required in H; apply bind_Some in H as (jb & _ & Hb) end.
  assert (Hbody : body_ok x3 = true /\ body_type x3 = t).
  { destruct t; cbn in Hb; schema_inv; (split; [|done]); cbn; [by eapply keyauth_sound|by eapply ratelimit_sound|done..]. }
  destruct Hbody as [-> Ht]. split; [|done]. rewrite !(required_ok _ Js.truthy_string _ _ _ min1_ok) by eassumption. cbn [andb]. rewrite andb_true_r.
  eapply (optional_ok _ (fun l => length_ok 0 maxMatchExprsPerPolicy l && forallb matchExpr_ok l)); [|eassumption].
  by intros ? ? [-> ->]%(array_ok _ _ _ _ _ _ matchExpr_sound).
Qed.

Lemma policySchema_sound j p : policySchema j = Some p -> policy_ok p = true.
Proof. unfold policySchema. intros H. schema_inv. match goal with H : typed_policy _ _ = Some _ |- _ => by apply typed_sound in H as [? _] end. Qed.

Lemma fromWire_sound raw p : fromWirePolicy raw = Some p -> policy_ok p = true.
Proof. destruct raw; try done. cbn [fromWirePolicy]. intros (t & _ & H)%bind_Some. by eapply policySchema_sound. Qed.

Lemma policy_json_reads p : policy_ok p = true -> policySchema (policy_json p) = Some p.
Proof. exact (policySchema_print JsonInt number_reads p). Qed.

(** Claim C30. Stored policies are read back. The schema accepts exactly the policies
    within its rules ([policy_ok]): what it reads satisfies them, and a policy that
    satisfies them is accepted as it is, is read back from the JSON the dashboard writes,
    and is read from the JSON of the gateway, which writes 64-bit numbers as strings. So
    storing a policy that was read and reading it again changes nothing. *)
Theorem policy_wire_round_trip (p : Policy) :
  (policy_ok p = true -> policySchema (policy_json p) = Some p /\ fromWirePolicy (toWirePolicy p) = Some p
     /\ fromWirePolicy (JsonObject (wire_fields protojson_int64 p)) = Some p)
  /\ forall raw, fromWirePolicy raw = Some p -> policy_ok p = true.
Proof.
  split; [|intros; by eapply fromWire_sound]. intros Hp. split; [by apply policy_json_reads|].
  split; [by apply (wire_print _ number_reads)|by apply (wire_print _ protojson_reads)].
Qed.
