(* ===== verification/Portal.v ===== *)
(** * The customer portal

    web/apps/portal/src/lib: session.ts, portal.ts, scopes.ts and portal-api.ts, and
    components/analytics/schema/analytics.schema.ts and analytics-transform.ts. A visitor
    exchanges a code for an access token, which a cookie keeps; the pages read the session
    from the database, and the data comes from the API, which is given the token. The
    database is a record of rows; a query may fail. The API, its client and the digest are
    parameters. *)

From Stdlib Require Import ZArith Bool Ascii String Lia Sorted.
From stdpp Require Import base list gmap strings.
From S2P Require Import Prelude PolicySchema.

Local Open Scope Z_scope.

(** ** Rows *)

Record PortalSessionRow := {
  ps_id : string;
  ps_workspaceId : string;
  ps_portalId : string;
  ps_externalId : string;
  ps_scopes : json;
  ps_preview : bool;
  ps_accessTokenHash : option string;
  ps_accessTokenExpiresAt : option Z;
  ps_revokedAt : option Z;
  ps_returnUrl : option string;
}.

Record PortalRow := { pt_id : string; pt_slug : string; pt_enabled : bool; pt_logoUrl : option string; pt_primaryColor : option string }.

Record PortalDb := {
  portalSessions : list PortalSessionRow;
  portals : list PortalRow;
  (* logsRetentionDaysMax by workspace *)
  retention : gmap string Z;
}.

(** The queries, each of which may fail. *)
Inductive PortalQuery := SessionQuery | PortalConfigQuery | LimitsQuery.

Definition PortalFailures := PortalQuery -> bool.

(** ** Sessions *)

Record PortalSessionData := {
  sess_id : string;
  sess_portalId : string;
  sess_externalId : string;
  sess_scopes : list string;
  sess_preview : bool;
  sess_expiresAt : Z;
  sess_returnUrl : option string;
}.

(** [typeof s === "string"] *)
Definition strings_of (l : list json) : list string := omap (fun j => match j with JsonString s => Some s | _ => None end) l.

Definition readScopes (raw : json) : list string :=
  match raw with
  | JsonArray l => strings_of l
  | JsonObject l => match jfield l "scopes" with Some (JsonArray inner) => strings_of inner | _ => [] end
  | _ => []
  end.

(** What the exchange of a code gets back: an aborted or failed request, a status, or a
    body, [None] when it is not JSON. *)
Inductive ExchangeReply := ExchangeAborted | ExchangeFailed | ExchangeStatus | ExchangeBody (body : option json).

Inductive ExchangeResult := Exchanged | NotExchanged (error : string).

(** [z.number()] *)
Definition z_number (j : json) : option unit := match j with JsonInt _ | JsonFraction => Some tt | _ => None end.

(** The access token of the response. *)
Definition exchangeResponseSchema (body : json) : option string :=
  l ← as_object body;
  data ← jfield l "data" ≫= as_object;
  accessToken ← required z_string_min1 "accessToken" data;
  _ ← required z_number "expiresAt" data;
  Some accessToken.

Record SessionCookie := { sc_value : string; sc_httpOnly : bool; sc_secure : bool; sc_sameSite : string; sc_path : string; sc_maxAge : Z }.

Definition SESSION_COOKIE_MAX_AGE_SECONDS : Z := 24 * 60 * 60.

Definition portal_cookie (production : bool) (token : string) : SessionCookie :=
  {| sc_value := token; sc_httpOnly := true; sc_secure := production; sc_sameSite := "strict"; sc_path := "/";
     sc_maxAge := SESSION_COOKIE_MAX_AGE_SECONDS |}.

Definition UNEXPECTED : ExchangeResult := NotExchanged "Received an unexpected response. Please try again.".

(** The result and the cookie that is set. *)
Definition exchangeCode (production : bool) (reply : ExchangeReply) : ExchangeResult * option SessionCookie :=
  match reply with
  | ExchangeAborted => (NotExchanged "Request timed out. Please try again.", None)
  | ExchangeFailed => (NotExchanged "Network error. Please check your connection and try again.", None)
  | ExchangeStatus =>
      (NotExchanged "Session expired or invalid. Please request a new session from your application.", None)
  | ExchangeBody None => (UNEXPECTED, None)
  | ExchangeBody (Some body) =>
      match exchangeResponseSchema body with
      | None => (UNEXPECTED, None)
      | Some token => (Exchanged, Some (portal_cookie production token))
      end
  end.

Record PortalConfig := { pc_id : string; pc_slug : string; pc_enabled : bool; pc_branding : option (option string * option string) }.

Definition loadPortal (d : PortalDb) (portalId : string) : option PortalConfig :=
  match List.find (fun p => String.eqb (pt_id p) portalId) (portals d) with
  | None => None
  | Some config =>
      let hasBranding := Js.truthy_obj (pt_logoUrl config) || Js.truthy_obj (pt_primaryColor config) in
      Some {| pc_id := pt_id config; pc_slug := pt_slug config; pc_enabled := pt_enabled config;
              pc_branding := if hasBranding then Some (pt_logoUrl config, pt_primaryColor config) else None |}
  end.

Record SessionView := { view_session : PortalSessionData; view_config : option PortalConfig; view_logsRetentionDays : Z }.

Section Session.

Context (sha256 : string -> string) (d : PortalDb) (fails : PortalFailures).

(** [None] is an exception, [Some None] no session. *)
Definition getSessionWithConfig (cookie : option string) (nowMs : Z) : option (option SessionView) :=
  match cookie with
  | None => Some None
  | Some accessToken =>
      if negb (Js.truthy_string accessToken) then Some None
      else if fails SessionQuery then None
      else
        let accessTokenHash := sha256 accessToken in
        match List.find (fun t => Js.eq_ostring (ps_accessTokenHash t) accessTokenHash) (portalSessions d) with
        | None => Some None
        | Some session =>
            if Js.truthy_obj (ps_revokedAt session) then Some None
            else
              match ps_accessTokenExpiresAt session with
              | None => Some None
              | Some expiresAt =>
                  if expiresAt <=? nowMs then Some None
                  else
                    let config := if fails PortalConfigQuery then None else loadPortal d (ps_portalId session) in
                    let logsRetentionDays := if fails LimitsQuery then 0 else Js.coalesce (retention d !! ps_workspaceId session) 0 in
                    Some (Some {| view_session :=
                                    {| sess_id := ps_id session; sess_portalId := ps_portalId session; sess_externalId := ps_externalId session;
                                       sess_scopes := readScopes (ps_scopes session); sess_preview := ps_preview session;
                                       sess_expiresAt := expiresAt; sess_returnUrl := ps_returnUrl session |};
                                  view_config := config; view_logsRetentionDays := logsRetentionDays |})
              end
        end
  end.

End Session.

Definition canReadKeys (scopes : list string) : bool := Js.includes scopes "keys:read".

Definition getDefaultTabHref (scopes : list string) : option string := if canReadKeys scopes then Some "/keys"%string else None.

(** ** Calls of the API *)

Definition SESSION_EXPIRED_MESSAGE : string := "Your session has expired. Please return to the application.".
Definition RETENTION_EXCEEDED_MESSAGE : string := "That time range isn't available. Try a shorter range.".
Definition SOMETHING_WRONG : string := "Something went wrong. Please try again.".

(** The errors of the client: an error of this file, a response of the API with its
    status and the detail of its body, an error of the transport with its name, or any
    other. *)
Inductive ClientError := PortalApiError (message : string) | UnkeyError (statusCode : Z) (detail : option json) | HTTPClientError (name : string) | AnyError.

Definition isUnauthorizedError (message : string) : bool := String.eqb message SESSION_EXPIRED_MESSAGE.
Definition isRetentionExceededError (message : string) : bool := String.eqb message RETENTION_EXCEEDED_MESSAGE.

(** [typeof detail === "string" && /time window is too large/i.test(detail)] *)
Definition window_too_large (detail : option json) : bool :=
  match detail with Some (JsonString s) => Str.contains "time window is too large" (Str.to_lower s) | _ => false end.

(** The message of the [PortalApiError]. *)
Definition toPortalApiError (err : ClientError) : string :=
  match err with
  | PortalApiError message => message
  | UnkeyError statusCode detail =>
      if (statusCode =? 401) || (statusCode =? 403) then SESSION_EXPIRED_MESSAGE
      else if (statusCode =? 400) && window_too_large detail then RETENTION_EXCEEDED_MESSAGE
      else SOMETHING_WRONG
  | HTTPClientError name =>
      if String.eqb name "RequestTimeoutError" || String.eqb name "RequestAbortedError" then "Request timed out. Please try again."
      else "Network error. Please check your connection and try again."
  | AnyError => SOMETHING_WRONG
  end.

(** [fn] is given the token; [inl] is the message of the error that is thrown. *)
Definition withPortalClient {T} (cookie : option string) (fn : string -> ClientError + T) : string + T :=
  if negb (Js.truthy cookie) then inl SESSION_EXPIRED_MESSAGE
  else match fn (Js.coalesce cookie EmptyString) with inl err => inl (toPortalApiError err) | inr t => inr t end.

Record ApiKeyRow := { ak_keyId : string; ak_name : option string; ak_start : string; ak_createdAt : Z; ak_expires : option Z; ak_enabled : bool }.

(** The requests to the API, with the token they carry. *)
Inductive PortalCall :=
| ListKeys (portalSession : string) (cursor : option string) (limit : option Z)
| GetVerifications (portalSession : string) (startTime endTime : Z)
| RerollKey (portalSession keyId : string) (expiration : Z).

Record VerificationBucket := { vb_time : Z; vb_total : Z; vb_valid : Z; vb_error : Z }.

Definition mapVerificationsResponse (data : list (Z * Z * Z)) : list VerificationBucket :=
  List.map (fun '(time, total, valid) => {| vb_time := time; vb_total := total; vb_valid := valid; vb_error := Z.max (total - valid) 0 |}) data.

Definition PortalAnswer (q : PortalCall) : Type :=
  match q with
  | ListKeys _ _ _ => (list ApiKeyRow * option string * bool)%type
  | GetVerifications _ _ _ => list (Z * Z * Z)
  | RerollKey _ _ _ => (string * string)%type
  end.

Definition MS_PER_DAY : Z := 24 * 60 * 60 * 1000.

Section Client.

Context (api : forall q, ClientError + PortalAnswer q).

(** A key of the table: the row, without the usage, which is empty. *)
Definition listKeys (cookie : option string) (cursor : option string) (limit : option Z) : string + (list ApiKeyRow * option string * bool) :=
  withPortalClient cookie (fun token => api (ListKeys token cursor limit)).

Definition getVerifications (cookie : option string) (endTime days : Z) : string + (Z * list VerificationBucket) :=
  withPortalClient cookie (fun token =>
    let startTime := endTime - days * MS_PER_DAY in
    match api (GetVerifications token startTime endTime) with
    | inl e => inl e
    | inr data => inr (days, mapVerificationsResponse data)
    end).

(** The new key and its secret. *)
Definition rerollKey (cookie : option string) (keyId : string) (expiration : Z) : string + (string * string) :=
  withPortalClient cookie (fun token => api (RerollKey token keyId expiration)).

End Client.

(** ** Periods *)

Definition MAX_PERIOD_DAYS : Z := 365.
Definition PERIOD_LADDER_DAYS : list Z := [1; 7; 30; 90].

Definition labelForDays (days : Z) : string := if days =? 1 then "Last 24 hours" else "Last " +:+ Num.string_of_Z days +:+ " days".

(** [days.sort((a, b) => a - b)] *)
Fixpoint insert_day (x : Z) (l : list Z) : list Z :=
  match l with [] => [x] | y :: r => if x <=? y then x :: l else y :: insert_day x r end.

Definition sort_days (l : list Z) : list Z := fold_right insert_day [] l.

Definition availableAnalyticsPeriods (retentionDays : Z) : list (Z * string) :=
  let uncapped := retentionDays <=? 0 in
  let cap := if uncapped then List.last PERIOD_LADDER_DAYS 0 else Z.min retentionDays MAX_PERIOD_DAYS in
  let days := List.filter (fun rung => rung <=? cap) PERIOD_LADDER_DAYS in
  let days := if negb uncapped && (1 <? cap) && negb (existsb (Z.eqb cap) days) then days ++ [cap] else days in
  let days := match days with [] => [1] | _ => days end in
  List.map (fun d => (d, labelForDays d)) (sort_days days).

Definition defaultAnalyticsPeriodDays (retentionDays : Z) : Z :=
  let available := List.map fst (availableAnalyticsPeriods retentionDays) in
  if existsb (Z.eqb 7) available then 7 else List.last available 0.

(** [z.number().int().positive().max(MAX_PERIOD_DAYS)] *)
Definition getVerificationsQuerySchema (days : Z) : bool := (1 <=? days) && (days <=? MAX_PERIOD_DAYS).

(** ** What a session shows *)

(** The row of a token that may be used. *)
Definition live_session (sha256 : string -> string) (d : PortalDb) (accessToken : string) (nowMs : Z) (r : PortalSessionRow) : Prop :=
  List.find (fun t => Js.eq_ostring (ps_accessTokenHash t) (sha256 accessToken)) (portalSessions d) = Some r
  /\ ps_revokedAt r = None /\ exists e, ps_accessTokenExpiresAt r = Some e /\ nowMs < e.

(** Claim C39. A page of the portal is shown for a live session, and for no other. When
    the sessions can be read, a visitor sees a session exactly when the cookie holds a
    token whose hash is that of a row which is not revoked and expires later; what is shown is
    that row, whatever the other queries do: a failed one leaves out the branding or the
    retention and nothing else. Without a cookie nothing is looked up, and a failed
    lookup of the session never shows one. *)
Theorem portal_shows_live_sessions (sha256 : string -> string) (d : PortalDb) (fails : PortalFailures) (cookie : option string) (nowMs : Z) :
  (forall v, getSessionWithConfig sha256 d fails cookie nowMs = Some (Some v) ->
     exists token r, cookie = Some token /\ Js.truthy_string token = true /\ live_session sha256 d token nowMs r
       /\ sess_id (view_session v) = ps_id r /\ sess_externalId (view_session v) = ps_externalId r
       /\ sess_portalId (view_session v) = ps_portalId r /\ sess_scopes (view_session v) = readScopes (ps_scopes r)
       /\ ps_accessTokenExpiresAt r = Some (sess_expiresAt (view_session v))
       /\ (forall k, view_config v = Some k -> pc_id k = ps_portalId r)
       /\ (view_logsRetentionDays v = 0 \/ retention d !! ps_workspaceId r = Some (view_logsRetentionDays v)))
  /\ (forall token r, cookie = Some token -> Js.truthy_string token = true -> live_session sha256 d token nowMs r ->
       fails SessionQuery = false -> exists v, getSessionWithConfig sha256 d fails cookie nowMs = Some (Some v))
  /\ (Js.truthy cookie = false -> getSessionWithConfig sha256 d fails cookie nowMs = Some None).
Proof.
  split; [|split].
  - intros v. unfold getSessionWithConfig. destruct cookie as [token|]; [|done]. destruct (Js.truthy_string token) eqn:Et; [|done].
    destruct (fails SessionQuery); [done|]. cbn [negb]. cbv zeta. destruct (List.find _ _) as [r|] eqn:Ef; [|done].
    destruct (ps_revokedAt r) eqn:Er; [done|]. cbn [Js.truthy_obj]. destruct (ps_accessTokenExpiresAt r) as [e|] eqn:Ee; [|done].
    destruct (Z.leb_spec e nowMs); [done|]. intros [= <-]. exists token, r. cbn. repeat split; try done.
    + by exists e.
    + intros k. destruct (fails PortalConfigQuery); [done|]. unfold loadPortal. destruct (List.find _ (portals d)) as [p|] eqn:Ep; [|done].
      intros [= <-]. cbn. apply List.find_some in Ep as [_ Ep]. by apply String.eqb_eq.
    + destruct (fails LimitsQuery); [by left|]. destruct (retention d !! ps_workspaceId r); [by right|by left].
  - intros token r -> Ht (Hf & Hr & e & He & Hlt) Hs. unfold getSessionWithConfig. rewrite Ht, Hs. cbn [negb]. cbv zeta. rewrite Hf, Hr, He.
    cbn [Js.truthy_obj]. rewrite (proj2 (Z.leb_gt _ _) Hlt). by eexists.
  - destruct cookie as [token|]; [|done]. cbn. by intros ->.
Qed.

(** A session that is revoked, or whose token has no expiry, is not shown. *)
Example revoked_hidden :
  let row revoked expires := {| ps_id := "s"; ps_workspaceId := "ws"; ps_portalId := "p"; ps_externalId := "u"; ps_scopes := JsonNull; ps_preview := false;
    ps_accessTokenHash := Some "h"%string; ps_accessTokenExpiresAt := expires; ps_revokedAt := revoked; ps_returnUrl := None |} in
  let shown r := getSessionWithConfig (fun _ => "h"%string) {| portalSessions := [r]; portals := []; retention := ∅ |} (fun _ => false) (Some "t"%string) 10 in
  shown (row (Some 1) (Some 99)) = Some None /\ shown (row None None) = Some None /\ shown (row None (Some 10)) = Some None
  /\ match shown (row None (Some 11)) with Some (Some _) => True | _ => False end.
Proof. repeat split. Qed.

(** ** Errors across the boundary *)

(** Only the message of an error reaches the browser. It tells an expired session from a
    window that is too large and from everything else: the former exactly for a missing
    cookie and for the answers 401 and 403, the latter exactly for an answer 400 that says so. *)
Theorem portal_errors_told_apart {T} (cookie : option string) (fn : string -> ClientError + T) (message : string) :
  withPortalClient cookie fn = inl message ->
  (forall t m, fn t <> inl (PortalApiError m)) ->
  (isUnauthorizedError message = true <->
     Js.truthy cookie = false \/ exists detail, fn (Js.coalesce cookie EmptyString) = inl (UnkeyError 401 detail) \/ fn (Js.coalesce cookie EmptyString) = inl (UnkeyError 403 detail))
  /\ (isRetentionExceededError message = true <->
     Js.truthy cookie = true /\ exists detail, fn (Js.coalesce cookie EmptyString) = inl (UnkeyError 400 detail) /\ window_too_large detail = true).
Proof.
  unfold withPortalClient. intros H Hown. destruct (Js.truthy cookie) eqn:Ec; cbn [negb] in H.
  2: { injection H as <-. split; [|vm_compute; split; [done|by intros [? _]]]. split; [by left|done]. }
  destruct (fn _) as [e|x] eqn:Ef; [|done]. injection H as <-.
  destruct e as [m|code detail|name|]; cbn [toPortalApiError].
  - by destruct (Hown _ m Ef).
  - destruct (Z.eqb_spec code 401) as [->|H1]; [split; split; naive_solver|].
    destruct (Z.eqb_spec code 403) as [->|H3]; [split; split; naive_solver|]. cbn [orb].
    destruct (Z.eqb_spec code 400) as [->|H0]; cbn [andb]; [destruct (window_too_large detail) eqn:Ew|];
      split; split; naive_solver.
  - destruct (_ || _); split; split; naive_solver.
  - split; split; naive_solver.
Qed.

(** ** The periods on offer *)

(** The days of the ladder up to [c], and [c]. *)
Definition periods_to (c : Z) : list Z :=
  let days := List.filter (fun rung => rung <=? c) PERIOD_LADDER_DAYS in if existsb (Z.eqb c) days then days else days ++ [c].

Ltac compare_days :=
  repeat match goal with
  | |- context [Z.leb ?a ?b] => destruct (Z.leb_spec a b); try lia; cbn
  | |- context [Z.eqb ?a ?b] => destruct (Z.eqb_spec a b); try lia; cbn
  end.

Lemma capped_periods (r : Z) (Hr : 0 < r) : List.map fst (availableAnalyticsPeriods r) = periods_to (Z.min r MAX_PERIOD_DAYS).
Proof.
  unfold availableAnalyticsPeriods, periods_to. rewrite (proj2 (Z.leb_gt _ _) Hr). cbv zeta. cbn [negb andb].
  rewrite List.map_map. cbn [fst]. rewrite List.map_id. assert (1 <= Z.min r MAX_PERIOD_DAYS) as Hc by (unfold MAX_PERIOD_DAYS; lia).
  revert Hc. generalize (Z.min r MAX_PERIOD_DAYS). intros c Hc. rewrite Z.ltb_antisym. unfold PERIOD_LADDER_DAYS. cbn. compare_days; done.
Qed.

Lemma periods_to_sorted (c : Z) (Hc : 1 <= c) :
  StronglySorted Z.lt (periods_to c) /\ Forall (fun d => 1 <= d <= c) (periods_to c) /\ List.last (periods_to c) 0 = c.
Proof.
  unfold periods_to, PERIOD_LADDER_DAYS. cbn. compare_days;
    repeat split; repeat first [apply SSorted_nil | apply SSorted_cons | constructor]; lia.
Qed.

Lemma last_in (l : list Z) (H : l <> []) : In (List.last l 0) l.
Proof. destruct l as [|x l']; [done|]. rewrite (app_removelast_last 0 H) at 2. apply List.in_or_app. right. by left. Qed.

(** Whatever the log retention of the workspace, the analytics page offers at
    least one period, in strictly increasing order, and each is one the query accepts (a
    whole number of days from 1 to 365). With a positive retention no period is wider
    than it, and the widest is the retention itself, or a year; without one the ladder is
    offered in full. The period the page starts with is one of those offered, and is the
    week whenever the retention has seven days or is unknown. *)
Theorem periods_within_retention (retentionDays : Z) :
  let days := List.map fst (availableAnalyticsPeriods retentionDays) in
  days <> [] /\ StronglySorted Z.lt days
  /\ Forall (fun d => getVerificationsQuerySchema d = true /\ (0 < retentionDays -> d <= retentionDays)) days
  /\ (0 < retentionDays -> List.last days 0 = Z.min retentionDays MAX_PERIOD_DAYS)
  /\ (retentionDays <= 0 -> days = PERIOD_LADDER_DAYS)
  /\ In (defaultAnalyticsPeriodDays retentionDays) days
  /\ (retentionDays <= 0 \/ 7 <= retentionDays -> defaultAnalyticsPeriodDays retentionDays = 7).
Proof.
  cbv zeta. destruct (Z.leb_spec retentionDays 0) as [Hr|Hr].
  - assert (availableAnalyticsPeriods retentionDays = availableAnalyticsPeriods 0) as E.
    { unfold availableAnalyticsPeriods. by rewrite (proj2 (Z.leb_le _ _) Hr). }
    assert (defaultAnalyticsPeriodDays retentionDays = 7) as -> by (unfold defaultAnalyticsPeriodDays; by rewrite E).
    rewrite E. repeat split; try done; try lia; [|repeat constructor; lia|right; by left]. repeat constructor.
  - assert (1 <= Z.min retentionDays MAX_PERIOD_DAYS) as Hc by (unfold MAX_PERIOD_DAYS; lia).
    destruct (periods_to_sorted _ Hc) as (Hs & Hb & Hl). unfold defaultAnalyticsPeriodDays. rewrite (capped_periods _ Hr).
    assert (periods_to (Z.min retentionDays MAX_PERIOD_DAYS) <> []) as Hn by (intros E; rewrite E in Hl; cbn in Hl; lia).
    repeat split; try done; try lia.
    + eapply Forall_impl; [exact Hb|]. cbn. intros d Hd. unfold getVerificationsQuerySchema. unfold MAX_PERIOD_DAYS in *. lia.
    + destruct (existsb _ _) eqn:Ex; [|by apply last_in]. apply List.existsb_exists in Ex as (x & Hx & <-%Z.eqb_eq). done.
    + intros [|H7]; [lia|]. assert (existsb (Z.eqb 7) (periods_to (Z.min retentionDays MAX_PERIOD_DAYS)) = true) as ->; [|done].
      apply List.existsb_exists. exists 7. split; [|done]. unfold periods_to. unfold MAX_PERIOD_DAYS.
      assert (In 7 (List.filter (fun rung => rung <=? Z.min retentionDays 365) PERIOD_LADDER_DAYS)) as H.
      { apply List.filter_In. split; [cbn; tauto|lia]. }
      destruct (existsb _ _); [done|]. apply List.in_or_app. by left.
Qed.
