(* ===== verification/PolicyForm.v ===== *)
(** * Gateway policies: the form

    The form of the dashboard that adds and edits policies: schema.ts under
    policies/components/add-panel. The values of the form, the checks of its schema, and
    the conversions to a policy and back. A row of a list has an id of its own that is
    minted when a policy is opened and dropped when it is saved. *)

From Stdlib Require Import ZArith Bool Ascii String Lia.
From stdpp Require Import base list gmap strings.
From S2P Require Import Prelude PolicySchema.

Local Open Scope Z_scope.

(** ** Values of the form *)

Inductive MatchCondition :=
| CPath (id : string) (mode : StringMatchMode) (value : string)
| CMethod (id : string) (methods : list HttpMethod)
| CHeader (id name : string) (present : option bool) (mode : option StringMatchMode) (value : option string)
| CQueryParam (id name : string) (present : option bool) (mode : option StringMatchMode) (value : option string).

Inductive KeyLocationType := bearer | header | queryParam.

Record KeyLocationForm := {
  loc_id : string;
  loc_type : KeyLocationType;
  loc_name : option string;
  loc_stripPrefix : option string;
}.

(** Discriminated by [override]. *)
Inductive KeyauthRatelimitForm :=
| NamedLimit (id name : string)
| OverriddenLimit (id name : string) (limit duration cost : option Z).

Inductive RateLimitIdentifierSource := FromRemoteIp | FromHeader | FromSubject | FromPath | FromPrincipal.

Record IdentifierRow := { row_id : string; row_source : RateLimitIdentifierSource; row_value : string }.

Inductive FormBody :=
| FKeyauth (keySpaceIds : list string) (locations : list KeyLocationForm) (permissionQuery : string)
    (ratelimits : list KeyauthRatelimitForm) (credits : option Z)
| FRatelimit (limit windowMs : Z) (identifiers : list IdentifierRow)
| FFirewall (action : FirewallAction)
| FOpenapi
| FLogging (requestHeaders responseHeaders requestBody responseBody query : bool).

Record PolicyForm := { form_name : string; form_environmentId : string; matchConditions : list MatchCondition; form_body : FormBody }.

(** ** The schema of the form *)

Definition is_true (o : option bool) : bool := match o with Some b => b | None => false end.

(** A value is required unless only presence is asked for. *)
Definition value_required (present : option bool) (value : option string) : bool :=
  is_true present || Js.truthy_string (Js.coalesce value EmptyString).

Definition matchConditionSchema (c : MatchCondition) : bool :=
  match c with
  | CPath _ _ value => Js.truthy_string value
  | CMethod _ methods => (1 <=? List.length methods)%nat
  | CHeader _ name p _ v | CQueryParam _ name p _ v => Js.truthy_string name && value_required p v
  end.

Definition keyLocationFormSchema (l : KeyLocationForm) : bool :=
  match loc_type l with bearer => true | header | queryParam => Js.truthy (loc_name l) end.

Definition keyauthRatelimitFormSchema (r : KeyauthRatelimitForm) : bool :=
  match r with
  | NamedLimit _ name => Js.truthy_string name
  | OverriddenLimit _ name limit duration cost =>
      Js.truthy_string name && opt_ok (int_ok 1) limit && opt_ok (int_ok 1) duration && opt_ok (int_ok 1) cost
      && both_or_neither limit duration && (Js.truthy_obj limit || Js.truthy_obj duration || Js.truthy_obj cost)
  end.

Definition needs_value (s : RateLimitIdentifierSource) : bool := match s with FromHeader | FromPrincipal => true | _ => false end.

Definition ratelimitIdentifierRowSchema (r : IdentifierRow) : bool := negb (needs_value (row_source r)) || Js.truthy_string (row_value r).

Definition bodyFormSchema (b : FormBody) : bool :=
  match b with
  | FKeyauth ids locs pq rls cr =>
      length_ok 1 maxKeyspacesPerPolicy ids && forallb keyLocationFormSchema locs && (String.length pq <=? permissionQueryMaxLength)%nat
      && length_ok 0 maxRatelimitsPerKeyauth rls && forallb keyauthRatelimitFormSchema rls && opt_ok (int_ok 0) cr
  | FRatelimit limit windowMs ids =>
      int_ok 1 limit && int_ok 1 windowMs && length_ok 1 maxIdentifiersPerRatelimit ids && forallb ratelimitIdentifierRowSchema ids
  | FFirewall _ | FOpenapi | FLogging _ _ _ _ _ => true
  end.

Definition policyFormSchema (v : PolicyForm) : bool :=
  Js.truthy_string (form_name v) && forallb matchConditionSchema (matchConditions v) && bodyFormSchema (form_body v).

(** ** Defaults *)

Inductive ConditionType := TypePath | TypeMethod | TypeHeader | TypeQueryParam.

Definition getDefaultCondition (type : ConditionType) (id : option string) (uuid : string) : MatchCondition :=
  let id := Js.coalesce id uuid in
  match type with
  | TypePath => CPath id exact EmptyString
  | TypeMethod => CMethod id []
  | TypeHeader => CHeader id EmptyString None None None
  | TypeQueryParam => CQueryParam id EmptyString None None None
  end.

Definition getDefaultValues (type : PolicyType) (uuid : string) : PolicyForm :=
  {| form_name := EmptyString; form_environmentId := "__all__"; matchConditions := [];
     form_body :=
       match type with
       | TKeyauth => FKeyauth [] [] EmptyString [] None
       | TRatelimit => FRatelimit 100 60000 [{| row_id := uuid; row_source := FromRemoteIp; row_value := EmptyString |}]
       | TFirewall => FFirewall ACTION_DENY
       | TOpenapi => FOpenapi
       | TLogging => FLogging true true true true true
       end |}.

(** ** From the form to a policy *)

Definition toStringMatch (mode : StringMatchMode) (value : string) (ignoreCase : bool) : StringMatch :=
  {| sm_ignoreCase := if ignoreCase then Some true else None; sm_mode := mode; sm_value := value |}.

Definition to_value (present : option bool) (mode : option StringMatchMode) (value : option string) : ValueMatch :=
  if is_true present then Present else ValueIs (toStringMatch (Js.coalesce mode exact) (Js.coalesce value EmptyString) false).

Definition toMatchExpr (c : MatchCondition) : MatchExpr :=
  match c with
  | CPath _ mode value => MatchPath (toStringMatch mode value false)
  | CMethod _ methods => MatchMethod methods
  | CHeader _ name p m v => MatchHeader name (to_value p m v)
  | CQueryParam _ name p m v => MatchQueryParam name (to_value p m v)
  end.

Definition toRateLimitIdentifier (source : RateLimitIdentifierSource) (value : string) : RateLimitIdentifier :=
  match source with
  | FromRemoteIp => RemoteIp
  | FromHeader => IdHeader value
  | FromSubject => AuthenticatedSubject
  | FromPath => IdPath
  | FromPrincipal => PrincipalField value
  end.

(** [x ? { k: x } : {}] for a string. *)
Definition if_truthy (o : option string) : option string := match o with Some s => if Js.truthy_string s then Some s else None | None => None end.

Definition to_location (l : KeyLocationForm) : KeyLocation :=
  match loc_type l with
  | bearer => LocBearer
  | header => LocHeader (Js.coalesce (loc_name l) EmptyString) (if_truthy (loc_stripPrefix l))
  | queryParam => LocQueryParam (Js.coalesce (loc_name l) EmptyString)
  end.

Definition to_ratelimit (r : KeyauthRatelimitForm) : KeyauthRatelimit :=
  match r with
  | NamedLimit _ name => {| kr_name := name; kr_limit := None; kr_duration := None; kr_cost := None |}
  | OverriddenLimit _ name limit duration cost => {| kr_name := name; kr_limit := limit; kr_duration := duration; kr_cost := cost |}
  end.

(** [l.length > 0 ? { k: l } : {}] *)
Definition if_any {A} (l : list A) : option (list A) := match l with [] => None | _ => Some l end.

Definition to_body (b : FormBody) : PolicyBody :=
  match b with
  | FKeyauth ids locs pq rls cr =>
      PKeyauth {| keySpaceIds := ids; locations := Some (List.map to_location locs); permissionQuery := Some pq;
                  ratelimits := if_any (List.map to_ratelimit rls); credits := cr |}
  | FRatelimit limit windowMs rows =>
      PRatelimit {| rc_limit := limit; rc_windowMs := windowMs; rc_identifier := None;
                    rc_identifiers := Some (List.map (fun r => toRateLimitIdentifier (row_source r) (row_value r)) rows) |}
  | FFirewall action => PFirewall action
  | FOpenapi => POpenapi
  | FLogging a b c d e =>
      PLogging {| log_requestHeaders := Some a; log_responseHeaders := Some b; log_requestBody := Some c; log_responseBody := Some d; log_query := Some e |}
  end.

(** [newUid] is what the generator of ids returns. *)
Definition toPolicy (values : PolicyForm) (existingId : option string) (newUid : string) : Policy :=
  {| policy_id := Js.coalesce existingId newUid; policy_name := form_name values; policy_enabled := true;
     policy_match := Some (List.map toMatchExpr (matchConditions values)); policy_body := to_body (form_body values) |}.

(** ** From a policy to the form *)

Definition stringMatchToMode (sm : StringMatch) : StringMatchMode * string := (sm_mode sm, sm_value sm).

Definition from_value (make : option bool -> option StringMatchMode -> option string -> MatchCondition) (v : ValueMatch) : MatchCondition :=
  match v with
  | Present => make (Some true) None None
  | ValueIs s => let '(mode, value) := stringMatchToMode s in make None (Some mode) (Some value)
  end.

Definition fromMatchExpr (id : string) (raw : json) : option MatchCondition :=
  match matchExprSchema raw with
  | None => None
  | Some (MatchPath s) => let '(mode, value) := stringMatchToMode s in Some (CPath id mode value)
  | Some (MatchMethod methods) => Some (CMethod id methods)
  | Some (MatchHeader name v) => Some (from_value (CHeader id name) v)
  | Some (MatchQueryParam name v) => Some (from_value (CQueryParam id name) v)
  end.

Definition fromRateLimitIdentifier (id : string) (key : RateLimitIdentifier) : IdentifierRow :=
  match key with
  | RemoteIp => {| row_id := id; row_source := FromRemoteIp; row_value := EmptyString |}
  | IdHeader name => {| row_id := id; row_source := FromHeader; row_value := name |}
  | AuthenticatedSubject => {| row_id := id; row_source := FromSubject; row_value := EmptyString |}
  | IdPath => {| row_id := id; row_source := FromPath; row_value := EmptyString |}
  | PrincipalField path => {| row_id := id; row_source := FromPrincipal; row_value := path |}
  end.

Definition from_location (id : string) (l : KeyLocation) : KeyLocationForm :=
  match l with
  | LocBearer => {| loc_id := id; loc_type := bearer; loc_name := None; loc_stripPrefix := None |}
  | LocHeader name p => {| loc_id := id; loc_type := header; loc_name := Some name; loc_stripPrefix := if_truthy p |}
  | LocQueryParam name => {| loc_id := id; loc_type := queryParam; loc_name := Some name; loc_stripPrefix := None |}
  end.

Definition from_ratelimit (id : string) (r : KeyauthRatelimit) : KeyauthRatelimitForm :=
  if Js.truthy_obj (kr_limit r) || Js.truthy_obj (kr_duration r) || Js.truthy_obj (kr_cost r)
  then OverriddenLimit id (kr_name r) (kr_limit r) (kr_duration r) (kr_cost r)
  else NamedLimit id (kr_name r).

Section FromPolicy.

(** The id minted for a row, by its list and its place. *)
Context (uuid : nat -> nat -> string).

Definition from_body (b : PolicyBody) : FormBody :=
  match b with
  | PKeyauth k =>
      FKeyauth (keySpaceIds k) (imap (fun i => from_location (uuid 1 i)) (Js.coalesce (locations k) [])) (Js.coalesce (permissionQuery k) EmptyString)
        (imap (fun i => from_ratelimit (uuid 2 i)) (Js.coalesce (ratelimits k) [])) (credits k)
  | PRatelimit r =>
      let wireIdentifiers := match rc_identifiers r with Some l => l | None => match rc_identifier r with Some i => [i] | None => [] end end in
      FRatelimit (rc_limit r) (rc_windowMs r) (imap (fun i => fromRateLimitIdentifier (uuid 3 i)) wireIdentifiers)
  | PFirewall action => FFirewall action
  | POpenapi => FOpenapi
  | PLogging l =>
      FLogging (Js.coalesce (log_requestHeaders l) false) (Js.coalesce (log_responseHeaders l) false) (Js.coalesce (log_requestBody l) false)
        (Js.coalesce (log_responseBody l) false) (Js.coalesce (log_query l) false)
  end.

Definition fromPolicy (p : Policy) (environmentId : string) : PolicyForm :=
  {| form_name := policy_name p; form_environmentId := environmentId;
     matchConditions := omap (fun c => c) (imap (fun i e => fromMatchExpr (uuid 0 i) (matchExpr_json e)) (Js.coalesce (policy_match p) []));
     form_body := from_body (policy_body p) |}.

End FromPolicy.

(** ** Saving and opening again *)

(** The form without the ids of its rows. *)
Definition forget_condition (c : MatchCondition) : MatchCondition :=
  match c with
  | CPath _ m v => CPath "" m v
  | CMethod _ ms => CMethod "" ms
  | CHeader _ n p m v => CHeader "" n p m v
  | CQueryParam _ n p m v => CQueryParam "" n p m v
  end.

Definition forget_location (l : KeyLocationForm) : KeyLocationForm :=
  {| loc_id := ""; loc_type := loc_type l; loc_name := loc_name l; loc_stripPrefix := loc_stripPrefix l |}.

Definition forget_ratelimit (r : KeyauthRatelimitForm) : KeyauthRatelimitForm :=
  match r with NamedLimit _ n => NamedLimit "" n | OverriddenLimit _ n a b c => OverriddenLimit "" n a b c end.

Definition forget_row (r : IdentifierRow) : IdentifierRow := {| row_id := ""; row_source := row_source r; row_value := row_value r |}.

Definition forget_body (b : FormBody) : FormBody :=
  match b with
  | FKeyauth ids locs pq rls cr => FKeyauth ids (List.map forget_location locs) pq (List.map forget_ratelimit rls) cr
  | FRatelimit l w rows => FRatelimit l w (List.map forget_row rows)
  | _ => b
  end.

Definition forget (v : PolicyForm) : PolicyForm :=
  {| form_name := form_name v; form_environmentId := form_environmentId v; matchConditions := List.map forget_condition (matchConditions v);
     form_body := forget_body (form_body v) |}.

(** What a row shows: fields that do not belong to its type are empty. *)
Definition shown_value (make : option bool -> option StringMatchMode -> option string -> MatchCondition) p m v : MatchCondition :=
  if is_true p then make (Some true) None None else make None (Some (Js.coalesce m exact)) (Some (Js.coalesce v EmptyString)).

Definition shown_condition (c : MatchCondition) : MatchCondition :=
  match c with
  | CHeader id n p m v => shown_value (CHeader id n) p m v
  | CQueryParam id n p m v => shown_value (CQueryParam id n) p m v
  | _ => c
  end.

Definition shown_location (l : KeyLocationForm) : KeyLocationForm :=
  {| loc_id := loc_id l; loc_type := loc_type l;
     loc_name := match loc_type l with bearer => None | _ => Some (Js.coalesce (loc_name l) EmptyString) end;
     loc_stripPrefix := match loc_type l with header => if_truthy (loc_stripPrefix l) | _ => None end |}.

Definition shown_row (r : IdentifierRow) : IdentifierRow :=
  {| row_id := row_id r; row_source := row_source r; row_value := if needs_value (row_source r) then row_value r else EmptyString |}.

Definition shown_body (b : FormBody) : FormBody :=
  match b with
  | FKeyauth ids locs pq rls cr => FKeyauth ids (List.map shown_location locs) pq rls cr
  | FRatelimit l w rows => FRatelimit l w (List.map shown_row rows)
  | _ => b
  end.

Definition shown (v : PolicyForm) : PolicyForm :=
  {| form_name := form_name v; form_environmentId := form_environmentId v; matchConditions := List.map shown_condition (matchConditions v);
     form_body := shown_body (form_body v) |}.

Lemma imap_map {A B C} (f : nat -> A -> B) (h : B -> C) (k : A -> C) (l : list A) :
  (forall i x, In x l -> h (f i x) = k x) -> List.map h (imap f l) = List.map k l.
Proof.
  revert f. induction l as [|x l IH]; intros f H; [done|]. rewrite imap_cons. cbn. rewrite H by (by left). f_equal.
  apply IH. intros i y Hy. apply H. by right.
Qed.

Lemma omap_imap {A B C} (f : nat -> A -> option B) (h : B -> C) (k : A -> C) (l : list A) :
  (forall i x, In x l -> exists b, f i x = Some b /\ h b = k x) -> List.map h (omap (fun c => c) (imap f l)) = List.map k l.
Proof.
  revert f. induction l as [|x l IH]; intros f H; [done|]. rewrite imap_cons. destruct (H 0%nat x) as (b & Eb & Ek); [by left|]. cbn.
  rewrite Eb. cbn. rewrite Ek. f_equal. apply IH. intros i y Hy. apply H. by right.
Qed.

Lemma to_value_ok p m v : value_required p v = true -> value_ok (to_value p m v) = true.
Proof. unfold value_required, to_value. destruct (is_true p); [done|]. intros H. exact H. Qed.

Lemma toMatchExpr_ok c : matchConditionSchema c = true -> matchExpr_ok (toMatchExpr c) = true.
Proof. destruct c; cbn; try done; intros [-> Hv]%andb_prop; cbn; by apply to_value_ok. Qed.

Lemma condition_shown id c : matchConditionSchema c = true ->
  exists c', fromMatchExpr id (matchExpr_json (toMatchExpr c)) = Some c' /\ forget_condition c' = forget_condition (shown_condition c).
Proof.
  intros Hc. unfold fromMatchExpr. rewrite (matchExpr_print _ (toMatchExpr_ok _ Hc)).
  destruct c as [i m v|i ms|i n p m v|i n p m v]; cbn; eexists; (split; [reflexivity|]); try done;
    unfold to_value, shown_value; by destruct (is_true p).
Qed.

Lemma location_shown id l : forget_location (from_location id (to_location l)) = forget_location (shown_location l).
Proof.
  unfold to_location, shown_location. destruct l as [i t n p]. cbn. destruct t; try done. cbn. unfold forget_location. cbn.
  by destruct p as [[|a p]|].
Qed.

Lemma ratelimit_shown id r : keyauthRatelimitFormSchema r = true -> forget_ratelimit (from_ratelimit id (to_ratelimit r)) = forget_ratelimit r.
Proof.
  destruct r as [i n|i n limit duration cost]; [done|]. cbn. unfold from_ratelimit. cbn. intros H. bool_hyps.
  match goal with H : _ || _ || _ = true |- _ => by rewrite H end.
Qed.

Lemma row_shown id r : forget_row (fromRateLimitIdentifier id (toRateLimitIdentifier (row_source r) (row_value r))) = forget_row (shown_row r).
Proof. destruct r as [i s v]. by destruct s. Qed.

Lemma coalesce_if_any {A} (l : list A) : Js.coalesce (if_any l) [] = l.
Proof. by destruct l. Qed.

(** What is saved is what is opened. A form that passes its schema and is saved
    opens again as it was shown: the same name, conditions, locations, limits and
    settings, in the same order, up to the ids of rows and fields that do not belong to
    the chosen type. *)
Theorem form_round_trip (uuid : nat -> nat -> string) (values : PolicyForm) (existingId : option string) (newUid : string) :
  policyFormSchema values = true ->
  forget (fromPolicy uuid (toPolicy values existingId newUid) (form_environmentId values)) = forget (shown values).
Proof.
  unfold policyFormSchema. intros H. bool_hyps. destruct values as [name env conds body]. unfold forget, shown, fromPolicy, toPolicy. cbn in *. f_equal.
  - rewrite (omap_imap _ forget_condition (fun e => forget_condition (match fromMatchExpr "" (matchExpr_json e) with Some c => c | None => CMethod "" [] end))).
    + rewrite !List.map_map. apply List.map_ext_in. intros c Hc.
      destruct (condition_shown "" c) as (c' & -> & ->); [by eapply forallb_forall in H1|done].
    + intros i e (c & <- & Hc)%List.in_map_iff. assert (Hok : matchConditionSchema c = true) by (by eapply forallb_forall in H1).
      destruct (condition_shown (uuid 0%nat i) c Hok) as (c1 & -> & E1). destruct (condition_shown "" c Hok) as (c2 & -> & E2).
      exists c1. split; [done|]. by rewrite E1, E2.
  - destruct body as [ids locs pq rls cr|l w rows|a| |a b c d e]; cbn; try done.
    + cbn [bodyFormSchema] in H0. bool_hyps. f_equal.
      * rewrite (imap_map _ forget_location (fun l => forget_location (from_location "" l))) by (by intros i [] _).
        rewrite !List.map_map. apply List.map_ext. intros l. apply location_shown.
      * rewrite coalesce_if_any.
        rewrite (imap_map _ forget_ratelimit (fun r => forget_ratelimit (from_ratelimit "" r))) by (intros i [] _; unfold from_ratelimit; by case_match).
        rewrite List.map_map. apply List.map_ext_in. intros r Hr. apply ratelimit_shown. match goal with H : forallb keyauthRatelimitFormSchema _ = true |- _ => by apply (proj1 (forallb_forall _ _) H) end.
    + f_equal. rewrite (imap_map _ forget_row (fun k => forget_row (fromRateLimitIdentifier "" k))) by (by intros i [] _).
      rewrite !List.map_map. apply List.map_ext. intros r. apply row_shown.
Qed.

(** ** Valid forms make valid policies *)

Lemma to_location_ok l : keyLocationFormSchema l = true -> keyLocation_ok (to_location l) = true.
Proof. unfold keyLocationFormSchema, to_location. destruct l as [i t n p]. cbn. by destruct t, n. Qed.

Lemma to_ratelimit_ok r : keyauthRatelimitFormSchema r = true -> keyauthRatelimit_ok (to_ratelimit r) = true.
Proof.
  destruct r as [i n|i n limit duration cost]; cbn; unfold keyauthRatelimit_ok; cbn; [by intros ->|]. intros H. bool_hyps.
  by repeat match goal with H : _ = true |- _ => rewrite H; clear H end.
Qed.

Lemma to_identifier_ok r : ratelimitIdentifierRowSchema r = true -> identifier_ok (toRateLimitIdentifier (row_source r) (row_value r)) = true.
Proof. unfold ratelimitIdentifierRowSchema. destruct r as [i s v]. by destruct s. Qed.

Lemma forallb_map_ok {A B} (f : A -> B) (p : A -> bool) (q : B -> bool) l :
  (forall x, p x = true -> q (f x) = true) -> forallb p l = true -> forallb q (List.map f l) = true.
Proof. intros H. induction l as [|x l IH]; [done|]. cbn. intros [Hx Hl]%andb_prop. by rewrite (H _ Hx), (IH Hl). Qed.

Lemma to_body_ok b : bodyFormSchema b = true ->
  match b with FKeyauth ids _ _ _ _ => forallb Js.truthy_string ids | _ => true end = true -> body_ok (to_body b) = true.
Proof.
  destruct b as [ids locs pq rls cr|l w rows|a| |a b c d e]; try done; cbn [bodyFormSchema to_body body_ok]; intros H Hids; bool_hyps.
  - unfold keyauth_ok. cbn [keySpaceIds locations permissionQuery ratelimits credits]. rewrite !andb_true_iff. split_and!; try done.
    + cbn. by eapply forallb_map_ok; [apply to_location_ok|].
    + unfold if_any. destruct (List.map to_ratelimit rls) eqn:E; [done|]. rewrite <- E. cbn [opt_ok]. apply andb_true_intro. split.
      * unfold length_ok in *. by rewrite List.length_map.
      * by eapply forallb_map_ok; [apply to_ratelimit_ok|].
  - unfold ratelimit_ok. cbn [rc_limit rc_windowMs rc_identifier rc_identifiers]. rewrite !andb_true_iff. split_and!; try done.
    cbn [opt_ok]. apply andb_true_intro. split; [unfold length_ok in *; by rewrite List.length_map|].
    by eapply forallb_map_ok; [apply to_identifier_ok|].
Qed.

(** A form that passes its schema, with at most ten conditions (the editor offers no
    more) and the ids of real key spaces, is saved: the schema of the server accepts the
    policy, and it reads it back. *)
Theorem form_accepted (values : PolicyForm) (existingId : option string) (newUid : string) :
  policyFormSchema values = true -> (List.length (matchConditions values) <= maxMatchExprsPerPolicy)%nat ->
  match form_body values with FKeyauth ids _ _ _ _ => forallb Js.truthy_string ids | _ => true end = true ->
  Js.truthy_string (Js.coalesce existingId newUid) = true ->
  policySchema (policy_json (toPolicy values existingId newUid)) = Some (toPolicy values existingId newUid).
Proof.
  unfold policyFormSchema. intros H Hn Hids Hid. bool_hyps. apply policy_json_reads. unfold policy_ok, toPolicy.
  cbn [policy_id policy_name policy_match policy_body]. rewrite Hid, to_body_ok by done. cbn [andb opt_ok]. rewrite andb_true_r.
  apply andb_true_intro. split; [done|]. apply andb_true_intro. split.
  - unfold length_ok. rewrite List.length_map. apply andb_true_intro. split; [done|by apply Nat.leb_le].
  - by eapply forallb_map_ok; [apply toMatchExpr_ok|].
Qed.

(** ** Editing *)

(** A policy as the gateway reads it: what is missing has its default. *)
Definition meant_string (s : StringMatch) : StringMatch :=
  {| sm_ignoreCase := Some (Js.coalesce (sm_ignoreCase s) false); sm_mode := sm_mode s; sm_value := sm_value s |}.

Definition on_strings (f : StringMatch -> StringMatch) (e : MatchExpr) : MatchExpr :=
  let on v := match v with Present => Present | ValueIs s => ValueIs (f s) end in
  match e with
  | MatchPath s => MatchPath (f s)
  | MatchMethod ms => MatchMethod ms
  | MatchHeader n v => MatchHeader n (on v)
  | MatchQueryParam n v => MatchQueryParam n (on v)
  end.

Definition meant_location (l : KeyLocation) : KeyLocation := match l with LocHeader n p => LocHeader n (if_truthy p) | _ => l end.

Definition meant_body (b : PolicyBody) : PolicyBody :=
  match b with
  | PKeyauth k =>
      PKeyauth {| keySpaceIds := keySpaceIds k; locations := Some (List.map meant_location (Js.coalesce (locations k) []));
                  permissionQuery := Some (Js.coalesce (permissionQuery k) EmptyString); ratelimits := Some (Js.coalesce (ratelimits k) []); credits := credits k |}
  | PRatelimit r =>
      PRatelimit {| rc_limit := rc_limit r; rc_windowMs := rc_windowMs r; rc_identifier := None;
                    rc_identifiers := Some (match rc_identifiers r with Some l => l | None => match rc_identifier r with Some i => [i] | None => [] end end) |}
  | PLogging l =>
      PLogging {| log_requestHeaders := Some (Js.coalesce (log_requestHeaders l) false); log_responseHeaders := Some (Js.coalesce (log_responseHeaders l) false);
                  log_requestBody := Some (Js.coalesce (log_requestBody l) false); log_responseBody := Some (Js.coalesce (log_responseBody l) false);
                  log_query := Some (Js.coalesce (log_query l) false) |}
  | PFirewall _ | POpenapi => b
  end.

Definition meant (p : Policy) : Policy :=
  {| policy_id := policy_id p; policy_name := policy_name p; policy_enabled := policy_enabled p;
     policy_match := Some (List.map (on_strings meant_string) (Js.coalesce (policy_match p) [])); policy_body := meant_body (policy_body p) |}.

(** The policy enabled, with every condition sensitive to case. *)
Definition case_sensitive (s : StringMatch) : StringMatch := {| sm_ignoreCase := None; sm_mode := sm_mode s; sm_value := sm_value s |}.

Definition enabled_case_sensitive (p : Policy) : Policy :=
  {| policy_id := policy_id p; policy_name := policy_name p; policy_enabled := true;
     policy_match := option_map (List.map (on_strings case_sensitive)) (policy_match p); policy_body := policy_body p |}.

Lemma map_imap_id {A B} (f : nat -> A -> B) (h : B -> A) (l : list A) : (forall i x, In x l -> h (f i x) = x) -> List.map h (imap f l) = l.
Proof. intros H. rewrite (imap_map f h id) by done. apply List.map_id. Qed.

Lemma reopened_condition id e : matchExpr_ok e = true ->
  exists c, fromMatchExpr id (matchExpr_json e) = Some c /\ toMatchExpr c = on_strings case_sensitive e.
Proof.
  intros He. unfold fromMatchExpr. rewrite (matchExpr_print _ He).
  destruct e as [s|ms|n [|s]|n [|s]]; cbn; eexists; (split; [reflexivity|]); done.
Qed.

Lemma from_location_back id l : to_location (from_location id l) = meant_location l.
Proof. destruct l as [|n [[|a p]|]|n]; done. Qed.

Lemma from_ratelimit_back id r : to_ratelimit (from_ratelimit id r) = r.
Proof. destruct r as [n [l|] [d|] [c|]]; done. Qed.

Lemma from_identifier_back id k : toRateLimitIdentifier (row_source (fromRateLimitIdentifier id k)) (row_value (fromRateLimitIdentifier id k)) = k.
Proof. by destruct k. Qed.

Lemma meant_location_idem l : meant_location (meant_location l) = meant_location l.
Proof. destruct l as [|n [[|a p]|]|n]; done. Qed.

Lemma reopened_body uuid b : meant_body (to_body (from_body uuid b)) = meant_body b.
Proof.
  destruct b as [k|r|a| |l]; try done; cbn; f_equal; f_equal.
  - rewrite (imap_map _ to_location meant_location) by (intros; apply from_location_back). rewrite List.map_map. f_equal.
    apply List.map_ext, meant_location_idem.
  - by rewrite coalesce_if_any, map_imap_id by (intros; apply from_ratelimit_back).
  - by rewrite map_imap_id by (intros; apply from_identifier_back).
Qed.

(** Opening a policy of the schema in the form and saving it without a change
    keeps what the gateway does with it, whatever optional fields it had, except that the
    policy is enabled and that its conditions no longer ignore case. *)
Theorem edit_keeps_policy (uuid : nat -> nat -> string) (p : Policy) (environmentId newUid : string) :
  policy_ok p = true ->
  meant (toPolicy (fromPolicy uuid p environmentId) (Some (policy_id p)) newUid) = meant (enabled_case_sensitive p).
Proof.
  unfold policy_ok. intros H. bool_hyps. unfold meant, toPolicy, fromPolicy, enabled_case_sensitive.
  cbn [policy_id policy_name policy_enabled policy_match policy_body form_name form_body matchConditions Js.coalesce]. f_equal; [|apply reopened_body].
  f_equal. f_equal. destruct (policy_match p) as [l|]; [|done]. cbn [option_map Js.coalesce opt_ok] in *. bool_hyps.
  rewrite (omap_imap _ toMatchExpr (on_strings case_sensitive)); [done|]. intros i e He. apply reopened_condition.
  match goal with H : forallb matchExpr_ok _ = true |- _ => by apply (proj1 (forallb_forall _ _) H) end.
Qed.

Definition demo_policy : Policy :=
  {| policy_id := "pol_1"; policy_name := "limit"; policy_enabled := true;
     policy_match := Some [MatchPath {| sm_ignoreCase := Some true; sm_mode := prefix; sm_value := "/v1" |}; MatchHeader "x-a" Present];
     policy_body := PRatelimit {| rc_limit := 10; rc_windowMs := 1000; rc_identifier := Some (IdHeader "x-user"); rc_identifiers := None |} |}.

Definition demo_uuid (l i : nat) : string := "row".

Definition demo_form : PolicyForm := fromPolicy demo_uuid demo_policy "env_1".

(** A prefix that matched in any case matches in one case only after an edit. *)
Theorem edit_drops_ignoreCase :
  policy_ok demo_policy = true
  /\ policy_match (toPolicy demo_form (Some "pol_1"%string) "new")
     = Some [MatchPath {| sm_ignoreCase := None; sm_mode := prefix; sm_value := "/v1" |}; MatchHeader "x-a" Present]
  /\ meant (toPolicy demo_form (Some "pol_1"%string) "new") <> meant demo_policy.
Proof. split; [reflexivity|]. split; [reflexivity|]. intros E. discriminate E. Qed.

Lemma edit_keeps_policy_witness :
  policy_ok demo_policy = true
  /\ meant (toPolicy demo_form (Some "pol_1"%string) "new")
     = {| policy_id := "pol_1"; policy_name := "limit"; policy_enabled := true;
          policy_match := Some [MatchPath {| sm_ignoreCase := Some false; sm_mode := prefix; sm_value := "/v1" |}; MatchHeader "x-a" Present];
          policy_body := PRatelimit {| rc_limit := 10; rc_windowMs := 1000; rc_identifier := None; rc_identifiers := Some [IdHeader "x-user"] |} |}.
Proof. split; [reflexivity|]. exact (edit_keeps_policy demo_uuid demo_policy "env_1" "new" eq_refl). Defined.

Lemma form_round_trip_witness :
  policyFormSchema demo_form = true
  /\ matchConditions (forget (fromPolicy demo_uuid (toPolicy demo_form None "new") "env_1")) = [CPath "" prefix "/v1"; CHeader "" "x-a" (Some true) None None].
Proof. split; [reflexivity|]. exact (f_equal matchConditions (form_round_trip demo_uuid demo_form None "new" eq_refl)). Defined.

Lemma form_accepted_witness :
  policySchema (policy_json (toPolicy demo_form None "new")) = Some (toPolicy demo_form None "new").
Proof. apply form_accepted; [reflexivity|vm_compute; lia|reflexivity|reflexivity]. Defined.
