(* ===== verification/PolicyRouter.v ===== *)
(** * Gateway policies: the procedures

    web/apps/dashboard/lib/trpc/routers/deploy/environment-settings/policies: _shared.ts,
    list.ts, reorder.ts, and create.ts, update.ts and delete.ts of each policy type. The
    policies of an environment are one JSON text in its runtime settings; a procedure
    reads the text, changes the list and writes it back in a transaction. *)

From Stdlib Require Import ZArith Bool Ascii String Lia.
From stdpp Require Import base list gmap strings.
From S2P Require Import Prelude Tables StripeTypes DeployPlan Effects Fixtures BillingOps Trpc Store PolicySchema.

Local Open Scope Z_scope.

(** [JSON.stringify] and [JSON.parse]; [None] is a syntax error. *)
Class JsonText := { json_text : json -> string; json_parse : string -> option json }.

Section PolicyRouter.

Context `{J : JsonText}.

Definition ZodError : Exn := OtherError "ZodError".

Definition own_environment (workspaceId environmentId : string) (e : Environment) : bool :=
  String.eqb (en_id e) environmentId && String.eqb (en_workspaceId e) workspaceId.

(** The app of the environment. *)
Definition loadOwnedEnvironment (workspaceId environmentId : string) : M string :=
  env <- find_first schema_environments (fun _ => own_environment workspaceId environmentId) ;;
  match env with
  | None => throw (not_found "Environment not found")
  | Some e => ret (en_appId e)
  end.

Definition owned_keyspace (workspaceId : string) (ids : list string) (r : KeyAuth) : bool :=
  Js.includes ids (ka_id r) && String.eqb (ka_workspaceId r) workspaceId.

Definition assertKeyspacesOwned (workspaceId : string) (keyspaceIds : list string) : M unit :=
  match keyspaceIds with
  | [] => ret tt
  | _ =>
      rows <- or_throw (find_many schema_keyAuth (fun _ => owned_keyspace workspaceId keyspaceIds)) (internal "Unable to verify keyspaces") ;;
      match List.find (fun id => negb (Js.includes (List.map ka_id rows) id)) keyspaceIds with
      | Some id => throw (not_found ("Keyspace " +:+ id +:+ " does not exist"))
      | None => ret tt
      end
  end.

Definition own_settings (workspaceId environmentId : string) (r : RuntimeSettings) : bool :=
  String.eqb (rs_workspaceId r) workspaceId && String.eqb (rs_environmentId r) environmentId.

(** The loop over the stored policies; the first that is refused throws. *)
Fixpoint read_policies (raws : list json) : option (list Policy) :=
  match raws with
  | [] => Some []
  | raw :: rest =>
      match fromWirePolicy raw with
      | None => None
      | Some p => match read_policies rest with Some ps => Some (p :: ps) | None => None end
      end
  end.

(** The blob of a row: an exception, or the policies. *)
Definition decode_config (config : string) : Exn + list Policy :=
  if negb (Js.truthy_string config) then inr []
  else
    match json_parse config with
    | None => inl (internal "Stored policy config is corrupted")
    | Some (JsonObject l) =>
        match jfield l "policies" with
        | Some (JsonArray raws) => match read_policies raws with Some ps => inr ps | None => inl ZodError end
        | _ => inr []
        end
    | Some _ => inr []
    end.

Definition loadPolicies (workspaceId environmentId : string) : M (list Policy) :=
  row <- find_first schema_appRuntimeSettings (fun _ => own_settings workspaceId environmentId) ;;
  match row with
  | None => ret []
  | Some r => match decode_config (rs_sentinelConfig r) with inl e => throw e | inr ps => ret ps end
  end.

Definition config_json (print : Policy -> json) (policies : list Policy) : json :=
  JsonObject [("policies"%string, JsonArray (List.map print policies))].

Definition set_config (blob : string) (r : RuntimeSettings) : RuntimeSettings :=
  {| rs_workspaceId := rs_workspaceId r; rs_appId := rs_appId r; rs_environmentId := rs_environmentId r; rs_sentinelConfig := blob |}.

Definition savePolicies (workspaceId environmentId appId : string) (policies : list Policy) : M unit :=
  match policiesConfigSchema (config_json policy_json policies) with
  | None => throw ZodError
  | Some _ =>
      let blob := json_text (config_json toWirePolicy policies) in
      now <- date_now ;;
      exec_sql (Upsert schema_appRuntimeSettings
        {| rs_workspaceId := workspaceId; rs_appId := appId; rs_environmentId := environmentId; rs_sentinelConfig := blob |} (set_config blob))
  end.

Definition has_id (id : string) (p : Policy) : bool := String.eqb (policy_id p) id.

(** ** Creating *)

Definition append_policy (ws environmentId appId : string) (policy : Policy) : M unit :=
  transaction (
    current <- loadPolicies ws environmentId ;;
    if existsb (has_id (policy_id policy)) current then throw (conflict ("Policy " +:+ policy_id policy +:+ " already exists"))
    else savePolicies ws environmentId appId (current ++ [policy])).

(** The key spaces of a policy. *)
Definition keyspaces (policy : Policy) : list string := match policy_body policy with PKeyauth k => keySpaceIds k | _ => [] end.

(** [Promise.all] of the two checks of a key authentication. *)
Definition load_checked (policy : Policy) (ws environmentId : string) : M string :=
  r <- both (loadOwnedEnvironment ws environmentId) (assertKeyspacesOwned ws (keyspaces policy)) ;;
  ret (fst r).

Definition create_after (load : string -> string -> M string) (environmentId : string) (policy : Policy) : WCtx -> M Policy := fun c =>
  let ws := cw_id (c_workspace c) in
  appId <- load ws environmentId ;;
  append_policy ws environmentId appId policy ;;
  ret policy.

Definition createKeyauthPolicy (environmentId : string) (policy : Policy) : WCtx -> M Policy := create_after (load_checked policy) environmentId policy.
Definition createRatelimitPolicy : string -> Policy -> WCtx -> M Policy := create_after loadOwnedEnvironment.
Definition createFirewallPolicy : string -> Policy -> WCtx -> M Policy := create_after loadOwnedEnvironment.
Definition createOpenapiPolicy : string -> Policy -> WCtx -> M Policy := create_after loadOwnedEnvironment.
Definition createLoggingPolicy : string -> Policy -> WCtx -> M Policy := create_after loadOwnedEnvironment.

(** ** Updating *)

Definition type_article (t : PolicyType) : string := match t with TOpenapi => "an openapi" | _ => "a " +:+ type_name t end.

(** [findIndex] *)
Fixpoint index_of (id : string) (l : list Policy) : option nat :=
  match l with
  | [] => None
  | p :: r => if has_id id p then Some O else option_map S (index_of id r)
  end.

(** The index of a policy of the type. *)
Definition find_typed (t : PolicyType) (id : string) (current : list Policy) : M nat :=
  match index_of id current with
  | None => throw (not_found ("Policy " +:+ id +:+ " not found"))
  | Some idx =>
      if bool_decide (option_map policy_type (current !! idx) = Some t) then ret idx
      else throw (TRPCError "BAD_REQUEST" ("Policy " +:+ id +:+ " is not " +:+ type_article t +:+ " policy"))
  end.

Definition replace_policy (t : PolicyType) (ws environmentId appId : string) (policy : Policy) : M unit :=
  transaction (
    current <- loadPolicies ws environmentId ;;
    idx <- find_typed t (policy_id policy) current ;;
    savePolicies ws environmentId appId (<[idx := policy]> current)).

Definition update_after (load : string -> string -> M string) (t : PolicyType) (environmentId : string) (policy : Policy) : WCtx -> M Policy := fun c =>
  let ws := cw_id (c_workspace c) in
  appId <- load ws environmentId ;;
  replace_policy t ws environmentId appId policy ;;
  ret policy.

Definition updateKeyauthPolicy (environmentId : string) (policy : Policy) : WCtx -> M Policy := update_after (load_checked policy) TKeyauth environmentId policy.
Definition updateRatelimitPolicy : string -> Policy -> WCtx -> M Policy := update_after loadOwnedEnvironment TRatelimit.
Definition updateFirewallPolicy : string -> Policy -> WCtx -> M Policy := update_after loadOwnedEnvironment TFirewall.
Definition updateOpenapiPolicy : string -> Policy -> WCtx -> M Policy := update_after loadOwnedEnvironment TOpenapi.
Definition updateLoggingPolicy : string -> Policy -> WCtx -> M Policy := update_after loadOwnedEnvironment TLogging.

(** ** Deleting *)

Definition remove_policy (t : PolicyType) (environmentId policyId : string) : WCtx -> M string := fun c =>
  let ws := cw_id (c_workspace c) in
  appId <- loadOwnedEnvironment ws environmentId ;;
  transaction (
    current <- loadPolicies ws environmentId ;;
    find_typed t policyId current ;;
    savePolicies ws environmentId appId (List.filter (fun p => negb (has_id policyId p)) current)) ;;
  ret policyId.

Definition deleteKeyauthPolicy : string -> string -> WCtx -> M string := remove_policy TKeyauth.
Definition deleteRatelimitPolicy : string -> string -> WCtx -> M string := remove_policy TRatelimit.
Definition deleteFirewallPolicy : string -> string -> WCtx -> M string := remove_policy TFirewall.
Definition deleteOpenapiPolicy : string -> string -> WCtx -> M string := remove_policy TOpenapi.
Definition deleteLoggingPolicy : string -> string -> WCtx -> M string := remove_policy TLogging.

(** ** Listing and reordering *)

Definition listPolicies (environmentId : string) : WCtx -> M (list Policy) := fun c =>
  let ws := cw_id (c_workspace c) in
  loadOwnedEnvironment ws environmentId ;;
  loadPolicies ws environmentId.

(** [Array.from(new Set(l))] *)
Fixpoint distinct (seen l : list string) : list string :=
  match l with
  | [] => []
  | x :: r => if Js.includes seen x then distinct seen r else x :: distinct (x :: seen) r
  end.

(** [new Map(current.map((p) => [p.id, p])).get(id)] *)
Definition by_id (current : list Policy) (id : string) : option Policy := List.find (has_id id) (List.rev current).

Definition reconcileOrder (current : list Policy) (requestedIds : list string) : list Policy :=
  let fromClient := omap (by_id current) (distinct [] requestedIds) in
  let placed := List.map policy_id fromClient in
  fromClient ++ List.filter (fun p => negb (Js.includes placed (policy_id p))) current.

Definition reorderPolicies (environmentId : string) (policyIds : list string) : WCtx -> M (list string) := fun c =>
  let ws := cw_id (c_workspace c) in
  appId <- loadOwnedEnvironment ws environmentId ;;
  transaction (
    current <- loadPolicies ws environmentId ;;
    let reordered := reconcileOrder current policyIds in
    savePolicies ws environmentId appId reordered ;;
    ret (List.map policy_id reordered)).

(** ** Requests *)

Inductive PolicyRequest :=
| RList (environmentId : string)
| RReorder (environmentId : string) (policyIds : list string)
| RCreate (environmentId : string) (policy : Policy)
| RUpdate (environmentId : string) (policy : Policy)
| RDelete (t : PolicyType) (environmentId policyId : string).

Definition request_environment (r : PolicyRequest) : string :=
  match r with RList e | RReorder e _ | RCreate e _ | RUpdate e _ | RDelete _ e _ => e end.

(** The procedure of a policy's type. *)
Definition create_of (t : PolicyType) : string -> Policy -> WCtx -> M Policy :=
  match t with
  | TKeyauth => createKeyauthPolicy | TRatelimit => createRatelimitPolicy | TFirewall => createFirewallPolicy
  | TOpenapi => createOpenapiPolicy | TLogging => createLoggingPolicy
  end.

Definition update_of (t : PolicyType) : string -> Policy -> WCtx -> M Policy :=
  match t with
  | TKeyauth => updateKeyauthPolicy | TRatelimit => updateRatelimitPolicy | TFirewall => updateFirewallPolicy
  | TOpenapi => updateOpenapiPolicy | TLogging => updateLoggingPolicy
  end.

Definition delete_of (t : PolicyType) : string -> string -> WCtx -> M string :=
  match t with
  | TKeyauth => deleteKeyauthPolicy | TRatelimit => deleteRatelimitPolicy | TFirewall => deleteFirewallPolicy
  | TOpenapi => deleteOpenapiPolicy | TLogging => deleteLoggingPolicy
  end.

(** What a procedure answers: policies, ids, a policy or an id. *)
Inductive PolicyAnswer := APolicies (l : list Policy) | AIds (l : list string) | APolicy (p : Policy) | AId (id : string).

Definition serve_policy (r : PolicyRequest) (c : WCtx) : M PolicyAnswer :=
  match r with
  | RList e => l <- listPolicies e c ;; ret (APolicies l)
  | RReorder e ids => l <- reorderPolicies e ids c ;; ret (AIds l)
  | RCreate e p => q <- create_of (policy_type p) e p c ;; ret (APolicy q)
  | RUpdate e p => q <- update_of (policy_type p) e p c ;; ret (APolicy q)
  | RDelete t e id => i <- delete_of t e id c ;; ret (AId i)
  end.

(** The input schema of the procedure. *)
Definition request_ok (r : PolicyRequest) : bool := match r with RCreate _ p | RUpdate _ p => policy_ok p | _ => true end.

End PolicyRouter.

(** ** The stored lists *)

(** What the code relies on of JSON. *)
Class JsonLaws {J : JsonText} : Prop := { json_reads : forall j, json_parse (json_text j) = Some j; json_empty : json_parse EmptyString = None }.
Arguments JsonLaws J : clear implicits.

Section Stored.

Context `{J : JsonText}.

(** The policies of an environment; [None] when its blob cannot be read. *)
Definition stored (d : Tables) (ws environmentId : string) : option (list Policy) :=
  match List.find (own_settings ws environmentId) (d schema_appRuntimeSettings) with
  | None => Some []
  | Some r => match decode_config (rs_sentinelConfig r) with inr ps => Some ps | inl _ => None end
  end.

(** The runtime settings of an environment are of its app and its workspace. *)
Definition settings_linked (d : Tables) : Prop :=
  forall e r, In e (d schema_environments) -> In r (d schema_appRuntimeSettings) -> rs_environmentId r = en_id e ->
  rs_appId r = en_appId e /\ rs_workspaceId r = en_workspaceId e.

Definition policy_ids (l : list Policy) : list string := List.map policy_id l.

(** What a request may do to the list of its environment. *)
Inductive allowed : PolicyRequest -> list Policy -> list Policy -> PolicyAnswer -> Prop :=
| allowed_list e l : allowed (RList e) l l (APolicies l)
| allowed_create e p l :
    policy_id p ∉ policy_ids l -> (List.length l < maxPolicies)%nat -> allowed (RCreate e p) l (l ++ [p]) (APolicy p)
| allowed_update e p q l :
    In q l -> policy_id q = policy_id p -> policy_type q = policy_type p ->
    allowed (RUpdate e p) l (List.map (fun x => if String.eqb (policy_id x) (policy_id p) then p else x) l) (APolicy p)
| allowed_delete t e id q l :
    In q l -> policy_id q = id -> policy_type q = t ->
    allowed (RDelete t e id) l (List.filter (fun x => negb (String.eqb (policy_id x) id)) l) (AId id)
| allowed_reorder e ids l l' :
    Permutation l l' ->
    policy_ids l' = List.filter (Js.includes (policy_ids l)) (distinct [] ids) ++ List.filter (fun i => negb (Js.includes ids i)) (policy_ids l) ->
    allowed (RReorder e ids) l l' (AIds (policy_ids l')).

(** ** Reading and writing the blob *)

Lemma read_policies_ok raws ps : read_policies raws = Some ps -> Forall (fun p => policy_ok p = true) ps.
Proof.
  revert ps. induction raws as [|raw raws IH]; intros ps; cbn; [intros [= <-]; constructor|].
  destruct (fromWirePolicy raw) as [p|] eqn:E; [|done]. destruct (read_policies raws); [|done]. intros [= <-].
  constructor; [by eapply fromWire_sound|by apply IH].
Qed.

Lemma read_written ps : Forall (fun p => policy_ok p = true) ps -> read_policies (List.map toWirePolicy ps) = Some ps.
Proof. induction 1 as [|p ps Hp _ IH]; [done|]. cbn [List.map read_policies]. replace (fromWirePolicy (toWirePolicy p)) with (Some p) by (symmetry; by apply (wire_print _ number_reads)). by rewrite IH. Qed.

Lemma decode_written (L : JsonLaws J) ps :
  Forall (fun p => policy_ok p = true) ps -> decode_config (json_text (config_json toWirePolicy ps)) = inr ps.
Proof.
  intros Hp. unfold decode_config. destruct (Js.truthy_string (json_text _)) eqn:E.
  - cbn [negb]. rewrite json_reads. cbn. by rewrite read_written.
  - unfold Js.truthy_string in E. apply negb_false_iff, String.eqb_eq in E. pose proof (json_reads (config_json toWirePolicy ps)) as Hr.
    by rewrite E, json_empty in Hr.
Qed.

Lemma decode_ok config l : decode_config config = inr l -> Forall (fun p => policy_ok p = true) l.
Proof.
  unfold decode_config. assert (Hnil : inr [] = (inr l : Exn + list Policy) -> Forall (fun p => policy_ok p = true) l) by (intros [= <-]; apply Forall_nil_2).
  destruct (negb _); [done|]. destruct (json_parse _) as [j|]; [|done]. destruct j as [| | | | | |f]; try done.
  destruct (jfield f "policies") as [j|]; [|done]. destruct j as [| | | | |raws|]; try done.
  destruct (read_policies raws) eqn:E; [|done]. intros [= <-]. by eapply read_policies_ok.
Qed.

Lemma stored_ok d ws e l : stored d ws e = Some l -> Forall (fun p => policy_ok p = true) l.
Proof.
  unfold stored. destruct (List.find _ _) as [r|]; [|intros [= <-]; apply Forall_nil_2].
  destruct (decode_config _) eqn:E; [done|]. intros [= <-]. by eapply decode_ok.
Qed.

Lemma load_ret ws e env w l w' :
  loadPolicies ws e env w = (Ret l, w') -> stored (tables (db w)) ws e = Some l /\ tables (db w') = tables (db w).
Proof.
  unfold loadPolicies, stored. intros H. apply bind_ret in H as (row & w1 & H1 & H). apply find_first_ret in H1 as [Hf E].
  change (List.find (own_settings ws e) (tables (db w) schema_appRuntimeSettings) = row) in Hf. rewrite Hf.
  destruct row as [r|]; [|apply ret_ret in H as [-> ->]; done].
  destruct (decode_config _); [done|]. apply ret_ret in H as [-> ->]. done.
Qed.

Lemma own_env_ret ws e env w appId w' :
  loadOwnedEnvironment ws e env w = (Ret appId, w') ->
  (exists x, In x (tables (db w) schema_environments) /\ en_id x = e /\ en_workspaceId x = ws /\ en_appId x = appId) /\ tables (db w') = tables (db w).
Proof.
  unfold loadOwnedEnvironment. intros H. steps H. apply List.find_some in Ef as [Hin Hx]. unfold own_environment in Hx. bool_hyps.
  split; [|done]. by eexists.
Qed.

Lemma save_ret ws e appId ps env w u w' :
  savePolicies ws e appId ps env w = (Ret u, w') ->
  (List.length ps <= maxPolicies)%nat
  /\ run_sql (collation env) (Upsert schema_appRuntimeSettings
       {| rs_workspaceId := ws; rs_appId := appId; rs_environmentId := e; rs_sentinelConfig := json_text (config_json toWirePolicy ps) |}
       (set_config (json_text (config_json toWirePolicy ps)))) (tables (db w)) = Some (tables (db w')).
Proof.
  unfold savePolicies. destruct (policiesConfigSchema _) as [qs|] eqn:E; [|done]. intros H. steps H. tables_eq. split; [|done].
  assert (E' : array 0 maxPolicies policySchema (JsonArray (List.map policy_json ps)) = Some qs) by exact E.
  unfold array in E'. rewrite List.length_map in E'. destruct (Nat.leb_spec (List.length ps) maxPolicies) as [|Hlt]; [done|].
  by rewrite andb_false_r in E'.
Qed.

(** ** What an upsert of the settings leaves *)

Lemma find_map_same {A} (p : A -> bool) (f : A -> A) l :
  (forall x, In x l -> p (f x) = p x /\ (p x = true -> f x = x)) -> List.find p (List.map f l) = List.find p l.
Proof.
  induction l as [|x l IH]; intros Hl; [done|]. cbn. destruct (Hl x) as [H1 H2]; [by left|]. rewrite H1. destruct (p x); [by rewrite H2|].
  apply IH. intros y Hy. apply Hl. by right.
Qed.

Lemma find_snoc_other {A} (p : A -> bool) l x : p x = false -> List.find p (l ++ [x]) = List.find p l.
Proof. intros Hx. induction l as [|y l IH]; cbn; [by rewrite Hx|]. by destruct (p y). Qed.

Section Upserted.

Context (fold : string -> string) (ws environmentId blob : string) (e : Environment) (d d' : Tables).
Hypothesis d_ok : tables_ok fold d.
Hypothesis d_linked : settings_linked d.
Hypothesis e_in : In e (d schema_environments).
Hypothesis e_id : en_id e = environmentId.
Hypothesis e_ws : en_workspaceId e = ws.
Hypothesis upserted : run_sql fold (Upsert schema_appRuntimeSettings
  {| rs_workspaceId := ws; rs_appId := en_appId e; rs_environmentId := environmentId; rs_sentinelConfig := blob |} (set_config blob)) d = Some d'.

Let row : RuntimeSettings := {| rs_workspaceId := ws; rs_appId := en_appId e; rs_environmentId := environmentId; rs_sentinelConfig := blob |}.

(** The rows the upsert changes are those of the environment. *)
Lemma clash_row r : In r (d schema_appRuntimeSettings) -> clash fold schema_appRuntimeSettings row r = String.eqb (rs_environmentId r) environmentId.
Proof.
  intros Hr. cbn. rewrite (String.eqb_sym environmentId). destruct (String.eqb_spec (rs_environmentId r) environmentId) as [E|]; [|apply andb_false_r].
  destruct (d_linked e r e_in Hr) as [-> _]; [congruence|]. by rewrite String.eqb_refl.
Qed.

Lemma settings_after :
  d' schema_appRuntimeSettings =
    if existsb (fun r => String.eqb (rs_environmentId r) environmentId) (d schema_appRuntimeSettings)
    then List.map (fun r => if String.eqb (rs_environmentId r) environmentId then set_config blob r else r) (d schema_appRuntimeSettings)
    else d schema_appRuntimeSettings ++ [row].
Proof.
  apply run_put in upserted as [-> _]. cbn [affect projT1 projT2]. rewrite put_eq. fold row.
  assert (Eb : existsb (clash fold schema_appRuntimeSettings row) (d schema_appRuntimeSettings)
               = existsb (fun r => String.eqb (rs_environmentId r) environmentId) (d schema_appRuntimeSettings)).
  { apply eq_true_iff_eq. rewrite !existsb_exists. split; intros (x & Hx & E); exists x; (split; [done|]); by rewrite clash_row in *. }
  rewrite Eb. match goal with |- (if ?b then _ else _) = (if ?b' then _ else _) => change b with b'; destruct b' end; [|done].
  apply List.map_ext_in. intros r Hr. by rewrite clash_row.
Qed.

Lemma environments_same : d' schema_environments = d schema_environments.
Proof. by apply (run_other _ _ _ _ schema_environments) in upserted. Qed.

Lemma linked_after : settings_linked d'.
Proof.
  intros x r Hx Hr E. rewrite environments_same in Hx. rewrite settings_after in Hr. destruct (existsb _ _).
  - apply in_map_iff in Hr as (r0 & <- & Hr0). destruct (String.eqb _ _); cbn in *; by apply d_linked.
  - apply in_app_iff in Hr as [Hr|[<-|[]]]; [by apply d_linked|]. cbn in *.
    assert (x = e) as ->; [|done]. apply (unique_same (clash fold schema_environments) (d schema_environments)); [intros; apply clash_sym|apply d_ok|done|done|].
    cbn. by rewrite <- E, <- e_id, String.eqb_refl.
Qed.

Lemma kept_after : kept ws d d'.
Proof.
  eapply kept_upsert; [exact upserted|done|]. intros x Hx Hc. fold row in Hc. rewrite clash_row in Hc by done. apply String.eqb_eq in Hc.
  destruct (d_linked e x e_in Hx) as [_ E]; [congruence|]. cbn. by rewrite E, e_ws.
Qed.

Lemma found_after : exists r, List.find (own_settings ws environmentId) (d' schema_appRuntimeSettings) = Some r /\ rs_sentinelConfig r = blob.
Proof.
  rewrite settings_after. assert (Hall : forall r, In r (d schema_appRuntimeSettings) -> rs_environmentId r = environmentId -> rs_workspaceId r = ws).
  { intros r Hr E. destruct (d_linked e r e_in Hr) as [_ Hw]; congruence. }
  unfold row. change (list (Tables.row schema_appRuntimeSettings)) with (list RuntimeSettings) in *. revert Hall.
  generalize (d schema_appRuntimeSettings : list RuntimeSettings). clear. intros l Hall. induction l as [|x l IH]; cbn.
  - unfold own_settings. cbn. rewrite !String.eqb_refl. eexists. split; [reflexivity|done].
  - destruct (String.eqb_spec (rs_environmentId x) environmentId) as [E|Hne]; cbn.
    + unfold own_settings at 1. cbn. rewrite (Hall x (or_introl eq_refl) E), E, !String.eqb_refl. cbn. eauto.
    + destruct IH as (r & IH & Hb); [intros; apply Hall; [by right|done]|]. exists r. split; [|done]. rewrite <- IH.
      assert (Ex : own_settings ws environmentId x = false) by (unfold own_settings; apply String.eqb_neq in Hne; rewrite Hne; apply andb_false_r).
      destruct (existsb _ l); cbn; by rewrite Ex.
Qed.

Lemma stored_after (L : JsonLaws J) ps :
  blob = json_text (config_json toWirePolicy ps) -> Forall (fun p => policy_ok p = true) ps -> stored d' ws environmentId = Some ps.
Proof. intros Hb Hp. unfold stored. destruct found_after as (r & -> & ->). by rewrite Hb, decode_written. Qed.

Lemma stored_elsewhere ws' environmentId' : (ws', environmentId') <> (ws, environmentId) -> stored d' ws' environmentId' = stored d ws' environmentId'.
Proof.
  intros Hne. unfold stored. rewrite settings_after. f_equal. destruct (existsb _ _).
  - assert (E : List.find (own_settings ws' environmentId') (List.map (fun r => if String.eqb (rs_environmentId r) environmentId then set_config blob r else r)
                  (d schema_appRuntimeSettings)) = List.find (own_settings ws' environmentId') (d schema_appRuntimeSettings)); [|by rewrite E].
    apply find_map_same. intros r Hr. destruct (String.eqb_spec (rs_environmentId r) environmentId) as [E|]; [|done]. split; [done|].
    unfold own_settings. intros [E1%String.eqb_eq E2%String.eqb_eq]%andb_prop. destruct (d_linked e r e_in Hr) as [_ Hw]; [congruence|]. congruence.
  - rewrite find_snoc_other; [done|]. unfold own_settings, row. cbn. destruct (String.eqb_spec ws ws'), (String.eqb_spec environmentId environmentId'); try done. congruence.
Qed.

End Upserted.

End Stored.

(** ** The lists *)

Section Lists.

Lemma has_id_eq id p : has_id id p = true <-> policy_id p = id.
Proof. apply String.eqb_eq. Qed.

Lemma policy_ids_in l p : In p l -> policy_id p ∈ policy_ids l.
Proof. intros Hp. apply list_elem_of_In. by apply List.in_map. Qed.

(** Policies of one list with the same id are the same. *)
Lemma same_policy l p q : NoDup (policy_ids l) -> In p l -> In q l -> policy_id p = policy_id q -> p = q.
Proof.
  induction l as [|x l IH]; [done|]. intros [Hx Hn]%NoDup_cons Hp Hq E.
  destruct Hp as [->|Hp], Hq as [->|Hq]; [done| | |by apply IH].
  - destruct Hx. cbn in E. rewrite E. by apply policy_ids_in.
  - destruct Hx. rewrite <- E. by apply policy_ids_in.
Qed.

Lemma index_of_spec id l idx : index_of id l = Some idx -> exists p, l !! idx = Some p /\ policy_id p = id.
Proof.
  revert idx. induction l as [|p l IH]; intros idx; cbn; [done|]. destruct (has_id id p) eqn:E.
  - intros [= <-]. exists p. split; [done|by apply has_id_eq].
  - destruct (index_of id l) as [i|]; [|done]. intros [= <-]. by apply IH.
Qed.

Lemma replace_at l idx p q : NoDup (policy_ids l) -> l !! idx = Some q -> policy_id q = policy_id p ->
  <[idx := p]> l = List.map (fun x => if String.eqb (policy_id x) (policy_id p) then p else x) l.
Proof.
  revert idx. induction l as [|x l IH]; intros idx; [done|]. intros [Hx Hn]%NoDup_cons Hi E. destruct idx as [|idx]; cbn in Hi.
  - injection Hi as ->. cbn. rewrite E, String.eqb_refl. f_equal. symmetry. erewrite List.map_ext_in; [apply List.map_id|].
    intros y Hy. destruct (String.eqb_spec (policy_id y) (policy_id p)) as [Ey|]; [|done]. destruct Hx. rewrite E, <- Ey. by apply policy_ids_in.
  - change (<[S idx := p]> (x :: l)) with (x :: <[idx := p]> l). rewrite (IH idx) by done. cbn. f_equal. destruct (String.eqb_spec (policy_id x) (policy_id p)) as [Ex|]; [|done]. destruct Hx.
    rewrite Ex, <- E. apply policy_ids_in, list_elem_of_In. by eapply list_elem_of_lookup_2.
Qed.

Lemma replaced_policy_ids l p : policy_ids (List.map (fun x => if String.eqb (policy_id x) (policy_id p) then p else x) l) = policy_ids l.
Proof.
  unfold policy_ids. rewrite List.map_map. apply List.map_ext. intros x. destruct (String.eqb_spec (policy_id x) (policy_id p)) as [E|]; [by rewrite E|done].
Qed.

Lemma filter_ids_nodup (f : Policy -> bool) l : NoDup (policy_ids l) -> NoDup (policy_ids (List.filter f l)).
Proof.
  induction l as [|x l IH]; [done|]. intros [Hx Hn]%NoDup_cons. cbn. destruct (f x); [|by apply IH]. apply NoDup_cons. split; [|by apply IH].
  intros (y & Ey & Hy)%list_elem_of_In%List.in_map_iff. apply List.filter_In in Hy as [Hy _]. apply Hx. rewrite <- Ey. by apply policy_ids_in.
Qed.

(** Distinct ids, in the order of their first mention. *)
Lemma distinct_spec l : forall seen, NoDup (distinct seen l) /\ forall x, In x (distinct seen l) <-> In x l /\ ~ In x seen.
Proof.
  induction l as [|y l IH]; intros seen; cbn; [split; [constructor|tauto]|]. destruct (Js.includes seen y) eqn:E.
  - apply StrFacts.includes_In in E. destruct (IH seen) as [Hn Hi]. split; [done|]. intros x. rewrite Hi. split; [tauto|].
    intros [[->|Hx] Hs]; tauto.
  - assert (Hy : ~ In y seen) by (intros Hy%StrFacts.includes_In; congruence). destruct (IH (y :: seen)) as [Hn Hi]. split.
    + apply NoDup_cons. split; [|done]. intros [_ Hs]%list_elem_of_In%Hi. apply Hs. by left.
    + intros x. cbn. rewrite Hi. cbn. split; [intros [->|[Hx Hs]]; tauto|]. intros [[->|Hx] Hs]; [by left|].
      destruct (String.eqb_spec y x) as [->|]; [by left|]. right. tauto.
Qed.

Lemma by_id_spec l id p : by_id l id = Some p -> In p l /\ policy_id p = id.
Proof. unfold by_id. intros [Hp E]%List.find_some. split; [by apply List.in_rev|by apply has_id_eq]. Qed.

Lemma by_id_found l p : NoDup (policy_ids l) -> In p l -> by_id l (policy_id p) = Some p.
Proof.
  intros Hn Hp. destruct (by_id l (policy_id p)) as [q|] eqn:E.
  - apply by_id_spec in E as [Hq E]. f_equal. by eapply same_policy.
  - unfold by_id in E. apply List.in_rev in Hp. apply (List.find_none _ _ E) in Hp. by rewrite (proj2 (has_id_eq _ _) eq_refl) in Hp.
Qed.

Lemma placed_ids l ids : NoDup (policy_ids l) -> policy_ids (omap (by_id l) ids) = List.filter (Js.includes (policy_ids l)) ids.
Proof.
  intros Hn. induction ids as [|i ids IH]; [done|]. cbn. destruct (by_id l i) as [p|] eqn:E; cbn.
  - apply by_id_spec in E as [Hp <-]. assert (Hi : Js.includes (policy_ids l) (policy_id p) = true) by (apply StrFacts.includes_In, List.in_map, Hp).
    rewrite Hi. cbn. f_equal. exact IH.
  - destruct (Js.includes (policy_ids l) i) eqn:Ei; [|exact IH]. apply StrFacts.includes_In, List.in_map_iff in Ei as (p & <- & Hp).
    by rewrite by_id_found in E.
Qed.

Lemma reconcile_ids l ids : NoDup (policy_ids l) ->
  policy_ids (reconcileOrder l ids)
  = List.filter (Js.includes (policy_ids l)) (distinct [] ids) ++ List.filter (fun i => negb (Js.includes ids i)) (policy_ids l).
Proof.
  intros Hn. unfold reconcileOrder. change (List.map policy_id (omap (by_id l) (distinct [] ids))) with (policy_ids (omap (by_id l) (distinct [] ids))).
  unfold policy_ids at 1. rewrite List.map_app. change (List.map policy_id (omap (by_id l) (distinct [] ids))) with (policy_ids (omap (by_id l) (distinct [] ids))).
  rewrite placed_ids by done. f_equal.
  assert (Hi : forall p, In p l -> Js.includes (List.filter (Js.includes (policy_ids l)) (distinct [] ids)) (policy_id p) = Js.includes ids (policy_id p)).
  { intros p Hp. apply eq_true_iff_eq. rewrite !StrFacts.includes_In, List.filter_In, StrFacts.includes_In. destruct (distinct_spec ids []) as [_ Hd]. rewrite Hd. cbn.
    split; [tauto|]. intros Hin. split; [tauto|]. by apply List.in_map. }
  revert Hi. generalize (List.filter (Js.includes (policy_ids l)) (distinct [] ids)). clear. intros placed Hi.
  induction l as [|p l IH]; [done|]. cbn. rewrite (Hi p) by (by left). destruct (Js.includes ids (policy_id p)); cbn; [|f_equal]; (apply IH; intros q Hq; apply Hi; by right).
Qed.

Lemma list_filter_nodup {A} (f : A -> bool) (l : list A) : NoDup l -> NoDup (List.filter f l).
Proof. rewrite !NoDup_ListNoDup. apply List.NoDup_filter. Qed.

Lemma ids_nodup l : NoDup (policy_ids l) -> NoDup l.
Proof. apply NoDup_fmap_1. Qed.

Lemma reconcile_permutation l ids : NoDup (policy_ids l) -> Permutation l (reconcileOrder l ids).
Proof.
  intros Hn. assert (Hids : NoDup (policy_ids (reconcileOrder l ids))).
  { rewrite reconcile_ids by done. destruct (distinct_spec ids []) as [Hd Hin]. apply NoDup_app. split_and!.
    - by apply list_filter_nodup.
    - intros x [Hx _]%list_elem_of_In%List.filter_In [_ Hy]%list_elem_of_In%List.filter_In. apply Hin in Hx as [Hx%StrFacts.includes_In _]. by rewrite Hx in Hy.
    - by apply list_filter_nodup. }
  apply NoDup_Permutation; [by apply ids_nodup|by apply ids_nodup|]. intros p. rewrite !list_elem_of_In. unfold reconcileOrder. rewrite List.in_app_iff, List.filter_In. split.
  - intros Hp. destruct (Js.includes _ (policy_id p)) eqn:E; [|by right]. left. apply StrFacts.includes_In, List.in_map_iff in E as (q & Eq & Hq).
    assert (Hql : In q l).
    { apply list_elem_of_In, list_elem_of_omap in Hq as (i & _ & Hi). by apply by_id_spec in Hi as [? _]. }
    assert (q = p) as -> by (by apply (same_policy l)). done.
  - intros [Hq|[Hp _]]; [|done]. apply list_elem_of_In, list_elem_of_omap in Hq as (i & _ & Hi). by apply by_id_spec in Hi as [? _].
Qed.

End Lists.

(** ** Requests *)

Section Served.

Context `{J : JsonText} (L : JsonLaws J).

Lemma ReadOnly_own_env ws e : ReadOnly (loadOwnedEnvironment ws e).
Proof. unfold loadOwnedEnvironment. effects. Qed.

Lemma ReadOnly_keyspaces ws ids : ReadOnly (assertKeyspacesOwned ws ids).
Proof. unfold assertKeyspacesOwned. effects. Qed.

Lemma ReadOnly_load ws e : ReadOnly (loadPolicies ws e).
Proof. unfold loadPolicies. effects. Qed.

Lemma ReadOnly_load_checked p ws e : ReadOnly (load_checked p ws e).
Proof. unfold load_checked. apply ReadOnly_bind; [apply ReadOnly_both; [apply ReadOnly_own_env|apply ReadOnly_keyspaces]|effects]. Qed.

#[local] Hint Resolve ReadOnly_own_env ReadOnly_keyspaces ReadOnly_load ReadOnly_load_checked : effects.

Lemma Atomic_serve_policies r c : Atomic (serve_policy r c).
Proof.
  destruct r as [e|e ids|e p|e p|t e id]; cbn [serve_policy].
  - apply Atomic_ReadOnly. unfold listPolicies. effects.
  - apply Atomic_bind_last; [|effects]. unfold reorderPolicies. apply Atomic_bind_read; [effects|]. intros. apply Atomic_transaction.
  - apply Atomic_bind_last; [|effects]. destruct (policy_type p); cbn [create_of]; unfold createKeyauthPolicy, createRatelimitPolicy, createFirewallPolicy,
      createOpenapiPolicy, createLoggingPolicy, create_after, append_policy; (apply Atomic_bind_read; [effects|]); intros;
      (apply Atomic_bind_last; [apply Atomic_transaction|effects]).
  - apply Atomic_bind_last; [|effects]. destruct (policy_type p); cbn [update_of]; unfold updateKeyauthPolicy, updateRatelimitPolicy, updateFirewallPolicy,
      updateOpenapiPolicy, updateLoggingPolicy, update_after, replace_policy; (apply Atomic_bind_read; [effects|]); intros;
      (apply Atomic_bind_last; [apply Atomic_transaction|effects]).
  - apply Atomic_bind_last; [|effects]. destruct t; cbn [delete_of]; unfold deleteKeyauthPolicy, deleteRatelimitPolicy, deleteFirewallPolicy,
      deleteOpenapiPolicy, deleteLoggingPolicy, remove_policy; (apply Atomic_bind_read; [effects|]); intros;
      (apply Atomic_bind_last; [apply Atomic_transaction|effects]).
Qed.

(** The environment is the workspace's. *)
Definition owned (d : Tables) (ws e appId : string) : Prop :=
  exists x, In x (d schema_environments) /\ en_id x = e /\ en_workspaceId x = ws /\ en_appId x = appId.

(** The key spaces are the workspace's. *)
Definition spaces_owned (d : Tables) (ws : string) (ids : list string) : Prop :=
  forall id, In id ids -> exists r, In r (d schema_keyAuth) /\ ka_id r = id /\ ka_workspaceId r = ws.

Lemma keyspaces_ret ws ids env w u w' :
  assertKeyspacesOwned ws ids env w = (Ret u, w') -> spaces_owned (tables (db w)) ws ids /\ tables (db w') = tables (db w).
Proof.
  unfold assertKeyspacesOwned. destruct ids as [|i ids]; [intros H; apply ret_ret in H as [_ ->]; by split; [intros id []|]|].
  intros H. apply bind_ret in H as (rows & w1 & H1 & H). apply or_throw_ret, find_many_ret in H1 as [Hf E].
  destruct (List.find _ _) as [x|] eqn:Ex; [done|]. apply ret_ret in H as [_ ->]. split; [|done]. intros id Hid.
  apply (List.find_none _ _ Ex) in Hid. apply negb_false_iff, StrFacts.includes_In, List.in_map_iff in Hid as (r & <- & Hr). rewrite <- Hf in Hr.
  apply List.filter_In in Hr as [Hr Ho]. unfold owned_keyspace in Ho. bool_hyps. by exists r.
Qed.

Lemma load_checked_ret p ws e env w appId w' :
  load_checked p ws e env w = (Ret appId, w') ->
  owned (tables (db w)) ws e appId /\ spaces_owned (tables (db w)) ws (keyspaces p) /\ tables (db w') = tables (db w).
Proof.
  unfold load_checked. intros H. apply bind_ret in H as ([x y] & w1 & H1 & H). apply ret_ret in H as [-> ->]. unfold both, settle, catch, bind, ret in H1.
  destruct (loadOwnedEnvironment ws e env w) as [[a|ex] w2] eqn:E1; cbn in H1.
  - destruct (assertKeyspacesOwned ws (keyspaces p) env w2) as [[b|ex] w3] eqn:E2; cbn in H1; [|done]. injection H1 as <- <- <-.
    apply own_env_ret in E1 as [Ho T1]. apply keyspaces_ret in E2 as [Hs T2]. rewrite T1 in Hs, T2. done.
  - by destruct (assertKeyspacesOwned ws (keyspaces p) env w2) as [[b|ex'] w3].
Qed.

(** What a request leaves besides the list of its environment. *)
Definition elsewhere (fold : string -> string) (ws e : string) (d d' : Tables) : Prop :=
  tables_ok fold d' /\ settings_linked d' /\ kept ws d d'
  /\ forall ws' e', (ws', e') <> (ws, e) -> stored d' ws' e' = stored d ws' e'.

Lemma saved_list ws e appId ps env w u w' :
  tables_ok (collation env) (tables (db w)) -> settings_linked (tables (db w)) -> owned (tables (db w)) ws e appId ->
  Forall (fun p => policy_ok p = true) ps -> savePolicies ws e appId ps env w = (Ret u, w') ->
  (List.length ps <= maxPolicies)%nat /\ stored (tables (db w')) ws e = Some ps /\ elsewhere (collation env) ws e (tables (db w)) (tables (db w')).
Proof.
  intros Hok Hl (x & Hx & <- & <- & <-) Hps Hs. apply save_ret in Hs as [Hlen Hr]. split; [done|]. split.
  - by eapply stored_after.
  - split; [by eapply tables_ok_run|]. split; [by eapply linked_after|]. split; [by eapply kept_after|]. intros. by eapply stored_elsewhere.
Qed.

(** What a request did to the list of its environment. *)
Definition served (r : PolicyRequest) (ws : string) (d d' : Tables) (a : PolicyAnswer) : Prop :=
  exists l l', stored d ws (request_environment r) = Some l /\ stored d' ws (request_environment r) = Some l'
  /\ (NoDup (policy_ids l) -> allowed r l l' a /\ NoDup (policy_ids l')).

(** A list that was read, changed and written. *)
Lemma rewritten r ws e appId (f : list Policy -> list Policy) l env w u w' a :
  request_environment r = e -> tables_ok (collation env) (tables (db w)) -> settings_linked (tables (db w)) -> owned (tables (db w)) ws e appId ->
  stored (tables (db w)) ws e = Some l -> (Forall (fun p => policy_ok p = true) l -> Forall (fun p => policy_ok p = true) (f l)) ->
  savePolicies ws e appId (f l) env w = (Ret u, w') ->
  (NoDup (policy_ids l) -> (List.length (f l) <= maxPolicies)%nat -> allowed r l (f l) a /\ NoDup (policy_ids (f l))) ->
  served r ws (tables (db w)) (tables (db w')) a /\ elsewhere (collation env) ws e (tables (db w)) (tables (db w')).
Proof.
  intros <- Hok Hl Ho Hst Hf Hs Ha. destruct (saved_list _ _ _ _ _ _ _ _ Hok Hl Ho (Hf (stored_ok _ _ _ _ Hst)) Hs) as (Hlen & Hst' & He).
  split; [|done]. exists l, (f l). auto.
Qed.

Lemma find_typed_ret t id l env w idx w' :
  find_typed t id l env w = (Ret idx, w') -> w' = w /\ exists q, l !! idx = Some q /\ In q l /\ policy_id q = id /\ policy_type q = t.
Proof.
  unfold find_typed. destruct (index_of id l) as [i|] eqn:E; [|done]. case_bool_decide as Ht; [|done]. intros H. apply ret_ret in H as [-> ->].
  split; [done|]. apply index_of_spec in E as (q & Eq & Eid). rewrite Eq in Ht. injection Ht as Ht. exists q. split_and!; [done| |done|done].
  apply list_elem_of_In. by eapply list_elem_of_lookup_2.
Qed.

Section Runs.

Context (c : WCtx) (env : Env) (w w' : World).
Abbreviation ws := (cw_id (c_workspace c)).
Abbreviation d := (tables (db w)).
Abbreviation d' := (tables (db w')).
Hypothesis d_ok : tables_ok (collation env) d.
Hypothesis d_linked : settings_linked d.

Lemma create_policy_run load e p q :
  (forall appId w1, load ws e env w = (Ret appId, w1) -> owned d ws e appId /\ tables (db w1) = d) ->
  policy_ok p = true -> create_after load e p c env w = (Ret q, w') ->
  served (RCreate e p) ws d d' (APolicy q) /\ elsewhere (collation env) ws e d d'.
Proof.
  intros Hload Hp H. unfold create_after in H. apply bind_ret in H as (appId & w1 & H1 & H). apply Hload in H1 as [Ho T1].
  apply bind_ret in H as (u & w2 & H2 & H). apply ret_ret in H as [-> ->]. unfold append_policy in H2. apply transaction_tables in H2 as (w3 & w4 & T3 & H2 & T4).
  apply bind_ret in H2 as (l & w5 & H5 & H2). apply load_ret in H5 as [Hst T5]. destruct (existsb _ l) eqn:Ex; [done|].
  assert (T : tables (db w5) = d) by congruence. rewrite T4, <- T. rewrite T3, T1, <- T in Hst.
  eapply (rewritten (RCreate e p) ws e appId (fun l => l ++ [p]) l); try done; try (by rewrite T).
  - intros Hl. apply Forall_app. split; [done|by repeat constructor].
  - intros Hn Hlen. assert (Hid : policy_id p ∉ policy_ids l).
    { intros (x & Ex' & Hx)%list_elem_of_In%List.in_map_iff. apply not_true_iff_false in Ex. apply Ex, existsb_exists. exists x. split; [done|by apply has_id_eq]. }
    rewrite length_app in Hlen. cbn in Hlen. split; [apply allowed_create; [done|lia]|]. unfold policy_ids. rewrite List.map_app. apply NoDup_app.
    split_and!; [done| |apply NoDup_singleton]. intros x Hx ->%list_elem_of_singleton. done.
Qed.

Lemma update_run load e p q :
  (forall appId w1, load ws e env w = (Ret appId, w1) -> owned d ws e appId /\ tables (db w1) = d) ->
  policy_ok p = true -> update_after load (policy_type p) e p c env w = (Ret q, w') ->
  served (RUpdate e p) ws d d' (APolicy q) /\ elsewhere (collation env) ws e d d'.
Proof.
  intros Hload Hp H. unfold update_after in H. apply bind_ret in H as (appId & w1 & H1 & H). apply Hload in H1 as [Ho T1].
  apply bind_ret in H as (u & w2 & H2 & H). apply ret_ret in H as [-> ->]. unfold replace_policy in H2. apply transaction_tables in H2 as (w3 & w4 & T3 & H2 & T4).
  apply bind_ret in H2 as (l & w5 & H5 & H2). apply load_ret in H5 as [Hst T5]. apply bind_ret in H2 as (idx & w6 & H6 & H2).
  apply find_typed_ret in H6 as [-> (x & Hx & Hin & Eid & Et)].
  assert (T : tables (db w5) = d) by congruence. rewrite T4, <- T. rewrite T3, T1, <- T in Hst.
  eapply (rewritten (RUpdate e p) ws e appId (fun l => <[idx := p]> l) l); try done; try (by rewrite T).
  - intros Hl. by apply Forall_insert.
  - intros Hn _. rewrite (replace_at l idx p x) by done. rewrite replaced_policy_ids. split; [by eapply allowed_update|done].
Qed.

Lemma remove_run t e id q :
  remove_policy t e id c env w = (Ret q, w') -> served (RDelete t e id) ws d d' (AId q) /\ elsewhere (collation env) ws e d d'.
Proof.
  intros H. unfold remove_policy in H. apply bind_ret in H as (appId & w1 & H1 & H). apply own_env_ret in H1 as [Ho T1].
  apply bind_ret in H as (u & w2 & H2 & H). apply ret_ret in H as [-> ->]. apply transaction_tables in H2 as (w3 & w4 & T3 & H2 & T4).
  apply bind_ret in H2 as (l & w5 & H5 & H2). apply load_ret in H5 as [Hst T5]. apply bind_ret in H2 as (idx & w6 & H6 & H2).
  apply find_typed_ret in H6 as [-> (x & _ & Hin & Eid & Et)].
  assert (T : tables (db w5) = d) by congruence. rewrite T4, <- T. rewrite T3, T1, <- T in Hst.
  eapply (rewritten (RDelete t e id) ws e appId (fun l => List.filter (fun p => negb (has_id id p)) l) l); try done; try (by rewrite T).
  - intros Hl. apply Forall_forall. intros y [Hy _]%list_elem_of_In%List.filter_In. apply list_elem_of_In in Hy. by apply (proj1 (Forall_forall _ _) Hl).
  - intros Hn _. split; [by eapply allowed_delete|by apply filter_ids_nodup].
Qed.

Lemma reorder_run e ids q :
  reorderPolicies e ids c env w = (Ret q, w') -> served (RReorder e ids) ws d d' (AIds q) /\ elsewhere (collation env) ws e d d'.
Proof.
  intros H. unfold reorderPolicies in H. apply bind_ret in H as (appId & w1 & H1 & H). apply own_env_ret in H1 as [Ho T1].
  apply transaction_tables in H as (w3 & w4 & T3 & H2 & T4). apply bind_ret in H2 as (l & w5 & H5 & H2). apply load_ret in H5 as [Hst T5].
  cbv zeta in H2. apply bind_ret in H2 as (u & w6 & H6 & H2). apply ret_ret in H2 as [-> ->].
  assert (T : tables (db w5) = d) by congruence. rewrite T4, <- T. rewrite T3, T1, <- T in Hst.
  eapply (rewritten (RReorder e ids) ws e appId (fun l => reconcileOrder l ids) l); try done; try (by rewrite T).
  - intros Hl. unfold reconcileOrder. apply Forall_app. rewrite Forall_forall in Hl. split; apply Forall_forall.
    + intros y (i & _ & Hi)%list_elem_of_omap. apply by_id_spec in Hi as [Hi%list_elem_of_In _]. by apply Hl.
    + intros y [Hy%list_elem_of_In _]%list_elem_of_In%List.filter_In. by apply Hl.
  - intros Hn _. pose proof (reconcile_permutation l ids Hn) as Hperm. split.
    + apply allowed_reorder; [done|by apply reconcile_ids].
    + unfold policy_ids in *. by rewrite <- Hperm.
Qed.

End Runs.

Lemma elsewhere_same fold ws e d d' : tables_ok fold d -> settings_linked d -> d' = d -> elsewhere fold ws e d d'.
Proof. intros Hok Hl ->. split; [done|]. split; [done|]. split; [reflexivity|done]. Qed.

(** The key spaces a request names. *)
Definition request_spaces (r : PolicyRequest) : list string := match r with RCreate _ p | RUpdate _ p => keyspaces p | _ => [] end.

(** How the procedures of a policy's type load the environment. *)
Definition load_for (p : Policy) : string -> string -> M string :=
  match policy_type p with TKeyauth => load_checked p | _ => loadOwnedEnvironment end.

Lemma create_of_load e p : create_of (policy_type p) e p = create_after (load_for p) e p.
Proof. unfold load_for. by destruct (policy_type p). Qed.

Lemma update_of_load e p : update_of (policy_type p) e p = update_after (load_for p) (policy_type p) e p.
Proof. unfold load_for. by destruct (policy_type p). Qed.

Lemma load_for_ret p ws e env w appId w1 :
  load_for p ws e env w = (Ret appId, w1) ->
  owned (tables (db w)) ws e appId /\ spaces_owned (tables (db w)) ws (keyspaces p) /\ tables (db w1) = tables (db w).
Proof.
  unfold load_for, policy_type. intros H. destruct (policy_body p) as [k|k|k| |k] eqn:Eb; cbn [body_type] in H; [by apply load_checked_ret in H| | | |];
    (apply own_env_ret in H as [? ?]; split; [done|]; split; [|done]; unfold keyspaces; rewrite Eb; by intros id []).
Qed.

Lemma serve_run r c env w a w' :
  tables_ok (collation env) (tables (db w)) -> settings_linked (tables (db w)) -> request_ok r = true -> serve_policy r c env w = (Ret a, w') ->
  served r (cw_id (c_workspace c)) (tables (db w)) (tables (db w')) a
  /\ elsewhere (collation env) (cw_id (c_workspace c)) (request_environment r) (tables (db w)) (tables (db w'))
  /\ spaces_owned (tables (db w)) (cw_id (c_workspace c)) (request_spaces r).
Proof.
  intros Hok Hl Hr Hs. destruct r as [e|e ids|e p|e p|t e id]; cbn [serve_policy request_ok request_environment request_spaces] in *;
    apply bind_ret in Hs as (x & w1 & H1 & Hs); apply ret_ret in Hs as [-> ->].
  - unfold listPolicies in H1. apply bind_ret in H1 as (appId & w2 & H2 & H1). apply own_env_ret in H2 as [_ T2]. apply load_ret in H1 as [Hst T1]. rewrite T2 in *.
    split; [|split; [by apply elsewhere_same|intros id []]]. exists x, x. rewrite T1. split; [done|]. split; [done|]. intros Hn. split; [constructor|done].
  - apply reorder_run in H1 as [? ?]; [by split_and!; [..|intros id []]|done..].
  - rewrite create_of_load in H1. assert (Hsp : spaces_owned (tables (db w)) (cw_id (c_workspace c)) (keyspaces p)).
    { unfold create_after in H1. apply bind_ret in H1 as (appId & w2 & H2 & _). by apply load_for_ret in H2 as (_ & ? & _). }
    apply (create_policy_run c env w w1 Hok Hl) in H1 as [? ?]; [done| |done]. intros appId w2 (? & _ & ?)%load_for_ret. done.
  - rewrite update_of_load in H1. assert (Hsp : spaces_owned (tables (db w)) (cw_id (c_workspace c)) (keyspaces p)).
    { unfold update_after in H1. apply bind_ret in H1 as (appId & w2 & H2 & _). by apply load_for_ret in H2 as (_ & ? & _). }
    apply (update_run c env w w1 Hok Hl) in H1 as [? ?]; [done| |done]. intros appId w2 (? & _ & ?)%load_for_ret. done.
  - assert (H2 : remove_policy t e id c env w = (Ret x, w1)) by (by destruct t). apply remove_run in H2 as [? ?]; [by split_and!; [..|intros i []]|done..].
Qed.

End Served.

(** Claim C6. The procedures implement the lists. A request that succeeds did to the list
    of its environment what it says: a listing answers it, a creation appends a policy
    with a new id to fewer than fifty, an update replaces the policy of that id and type
    in its place, a deletion takes out the policy of that id and type, and a reordering
    puts the requested ones first, in the order of the request, and keeps the rest in
    theirs, losing and adding none. Ids stay unique, the key spaces named are the
    workspace's, no other environment's list and no row of another workspace changes, and
    a request that fails changes nothing. This rests on the unique indexes, on runtime
    settings belonging to the app and workspace of their environment, which every request
    preserves, and on JSON being read back. *)
Theorem policies_refine_lists `{J : JsonText} (L : JsonLaws J) (r : PolicyRequest) (c : WCtx) (env : Env) (w w' : World) (o : Outcome PolicyAnswer) :
  tables_ok (collation env) (tables (db w)) -> settings_linked (tables (db w)) -> request_ok r = true -> serve_policy r c env w = (o, w') ->
  let ws := cw_id (c_workspace c) in
  elsewhere (collation env) ws (request_environment r) (tables (db w)) (tables (db w'))
  /\ match o with
     | Throw _ => db w' = db w
     | Ret a => served r ws (tables (db w)) (tables (db w')) a /\ spaces_owned (tables (db w)) ws (request_spaces r)
     end.
Proof.
  intros Hok Hl Hr Hs ws. destruct o as [a|x].
  - destruct (serve_run L r c env w a w' Hok Hl Hr Hs) as (H1 & H2 & H3). done.
  - assert (E : db w' = db w) by (by apply (Atomic_serve_policies r c) in Hs). split; [|done]. rewrite E. by apply elsewhere_same.
Qed.

(** ** A sample environment *)

(** A text for every JSON value: the bits of its code. *)
Section DemoJson.

Abbreviation tree := (gen_tree (bool + Z + string)).

Fixpoint to_tree (j : json) : tree :=
  match j with
  | JsonNull => GenNode 0 []
  | JsonFraction => GenNode 1 []
  | JsonBool b => GenLeaf (inl (inl b))
  | JsonInt n => GenLeaf (inl (inr n))
  | JsonString s => GenLeaf (inr s)
  | JsonArray l => GenNode 2 (List.map to_tree l)
  | JsonObject l => GenNode 3 (List.map (fun '(k, v) => GenNode 4 [GenLeaf (inr k); to_tree v]) l)
  end.

Fixpoint of_tree (t : tree) : json :=
  match t with
  | GenLeaf (inl (inl b)) => JsonBool b
  | GenLeaf (inl (inr n)) => JsonInt n
  | GenLeaf (inr s) => JsonString s
  | GenNode 0 _ => JsonNull
  | GenNode 1 _ => JsonFraction
  | GenNode 2 l => JsonArray (List.map of_tree l)
  | GenNode _ l =>
      JsonObject (List.map (fun t => match t with GenNode _ [GenLeaf (inr k); v] => (k, of_tree v) | _ => (EmptyString, JsonNull) end) l)
  end.

Lemma of_to_tree : forall j, of_tree (to_tree j) = j.
Proof.
  fix IH 1. intros j. destruct j as [|b|n| |s|l|l]; [reflexivity..| |]; cbn; f_equal; induction l as [|x l IHl]; [reflexivity| |reflexivity|].
  - cbn. rewrite IH, IHl. reflexivity.
  - destruct x as [k v]. cbn. rewrite IH, IHl. reflexivity.
Qed.

Fixpoint bits (p : positive) : string :=
  match p with xH => EmptyString | xO p => String "0" (bits p) | xI p => String "1" (bits p) end.

Fixpoint of_bits (s : string) : positive :=
  match s with EmptyString => xH | String c s => if Ascii.eqb c "0" then xO (of_bits s) else xI (of_bits s) end.

Lemma of_bits_bits p : of_bits (bits p) = p.
Proof. induction p as [p IH|p IH|]; cbn; [by rewrite IH..|done]. Qed.

Definition demo_text : JsonText :=
  {| json_text := fun j => String "j" (bits (encode (to_tree j)));
     json_parse := fun s => match s with String _ b => option_map of_tree (decode (of_bits b)) | EmptyString => None end |}.

Lemma demo_laws : JsonLaws demo_text.
Proof.
  split; [|reflexivity]. intros j. unfold json_parse, json_text, demo_text. rewrite of_bits_bits, decode_encode. cbn [option_map].
  by rewrite of_to_tree.
Qed.

End DemoJson.

Definition logging_of (id : string) : Policy :=
  {| policy_id := id; policy_name := "log"; policy_enabled := true; policy_match := None;
     policy_body := PLogging {| log_requestHeaders := Some true; log_responseHeaders := None; log_requestBody := None; log_responseBody := None; log_query := None |} |}.

Definition limit_of (id : string) : Policy :=
  {| policy_id := id; policy_name := "limit"; policy_enabled := true; policy_match := Some [MatchMethod [GET; POST]];
     policy_body := PRatelimit {| rc_limit := 10; rc_windowMs := 1000; rc_identifier := None; rc_identifiers := Some [RemoteIp] |} |}.

(** Two policies are stored for one environment; another workspace has an environment. *)
Definition policy_tables : Tables :=
  put schema_environments
    [{| en_id := "env_1"; en_workspaceId := "ws_1"; en_projectId := "proj_1"; en_appId := "app_1"; en_slug := "production" |};
     {| en_id := "env_2"; en_workspaceId := "ws_2"; en_projectId := "proj_2"; en_appId := "app_2"; en_slug := "production" |}]
  (put schema_appRuntimeSettings
    [{| rs_workspaceId := "ws_2"; rs_appId := "app_2"; rs_environmentId := "env_2"; rs_sentinelConfig := "" |};
     {| rs_workspaceId := "ws_1"; rs_appId := "app_1"; rs_environmentId := "env_1";
        rs_sentinelConfig := json_text (JsonText := demo_text) (config_json toWirePolicy [logging_of "pol_1"; limit_of "pol_2"]) |}] (fun _ => [])).

Definition policy_db : Db :=
  {| workspaces := workspaces free_db; workspace_billing := workspace_billing free_db; billing_subscriptions := []; limits := ∅;
     clickhouse_outbox := []; tables := policy_tables |}.

Lemma policies_refine_lists_witness :
  exists w', serve_policy (J := demo_text) (RReorder "env_1" ["pol_2"; "gone"; "pol_2"]%string) (demo_ctx compute_db) demo_env (world_of policy_db)
    = (Ret (AIds ["pol_2"; "pol_1"]%string), w')
  /\ stored (J := demo_text) (tables (db w')) "ws_1" "env_1" = Some [limit_of "pol_2"; logging_of "pol_1"]
  /\ stored (J := demo_text) (tables (db w')) "ws_2" "env_2" = Some [].
Proof.
  destruct (serve_policy (J := demo_text) (RReorder "env_1" ["pol_2"; "gone"; "pol_2"]%string) (demo_ctx compute_db) demo_env (world_of policy_db)) as [o w'] eqn:E.
  assert (Ho : o = Ret (AIds ["pol_2"; "pol_1"]%string)) by (change o with (fst (o, w')); rewrite <- E; vm_compute; reflexivity). subst o. exists w'. split; [reflexivity|].
  destruct (policies_refine_lists demo_laws (RReorder "env_1" ["pol_2"; "gone"; "pol_2"]%string) (demo_ctx compute_db) demo_env (world_of policy_db) w' _
    ltac:(intros []; vm_compute; reflexivity)
    ltac:(intros e r [<-|[<-|[]]] [<-|[<-|[]]] Er; first [discriminate Er|split; reflexivity]) eq_refl E) as [(_ & _ & _ & Ho) _].
  split.
  - match type of E with ?run = _ => replace w' with (snd run) by (by rewrite E) end. vm_compute. reflexivity.
  - rewrite Ho by discriminate. reflexivity.
Defined.
