(* ===== verification/EnvVars.v ===== *)
(** * Environment variables

    web/apps/dashboard/lib/schemas/env-var.ts (the names), lib/trpc/routers/deploy/env-vars
    (make-sensitive.ts and rename.ts), and the import of a .env text,
    app/(app)/[workspaceSlug]/projects/[projectId]/apps/[appId]/(overview)/env-vars/hooks/use-drop-zone.ts.
    The values in the database are ciphertexts. *)

From Stdlib Require Import ZArith Bool Ascii String Lia.
From stdpp Require Import base list gmap strings.
From S2P Require Import Prelude Tables StripeTypes DeployPlan Effects Fixtures BillingOps Trpc Store.

Local Open Scope Z_scope.

Definition double_quote : ascii := ascii_of_nat 34.

(** ** Names *)

Definition MAX_ENV_VAR_KEY_LENGTH : nat := 256.

Definition name_start (c : ascii) : bool :=
  let n := nat_of_ascii c in ((65 <=? n) && (n <=? 90) || (97 <=? n) && (n <=? 122) || (n =? 95))%nat.

Definition name_char (c : ascii) : bool := name_start c || NumFacts.is_digit c.

(** [/^[A-Za-z_][A-Za-z0-9_]*$/] *)
Definition is_name (s : string) : bool :=
  match s with EmptyString => false | String c r => name_start c && Str.all_chars name_char r end.

(** The name without the space around it; [None] is an issue. *)
Definition envVarKeySchema (s : string) : option string :=
  let t := Str.trim s in
  if Js.truthy_string t && (String.length t <=? MAX_ENV_VAR_KEY_LENGTH)%nat && is_name t then Some t else None.

(** ** The procedures *)

(** An update with its number of affected rows. *)
Definition update_counted (t : table) (where_ : row t -> bool) (set : row t -> row t) : M Z := fun env w =>
  let affectedRows := Z.of_nat (List.length (List.filter where_ (tables (db w) t))) in
  (exec_sql (Update t where_ set) ;; ret affectedRows) env w.

Definition ev_set_type (type : string) (r : EnvironmentVariable) : EnvironmentVariable :=
  {| ev_id := ev_id r; ev_workspaceId := ev_workspaceId r; ev_appId := ev_appId r; ev_environmentId := ev_environmentId r;
     ev_key := ev_key r; ev_value := ev_value r; ev_type := type; ev_description := ev_description r |}.

Definition ev_set_key (key : string) (r : EnvironmentVariable) : EnvironmentVariable :=
  {| ev_id := ev_id r; ev_workspaceId := ev_workspaceId r; ev_appId := ev_appId r; ev_environmentId := ev_environmentId r;
     ev_key := key; ev_value := ev_value r; ev_type := ev_type r; ev_description := ev_description r |}.

(** A [TRPCError] is thrown on, any other error is hidden. *)
Definition hide_errors {A} (message : string) (m : M A) : M A :=
  catch m (fun error => match error with TRPCError _ _ => throw error | _ => throw (internal message) end).

Definition of_app (ws appId : string) (r : EnvironmentVariable) : bool :=
  String.eqb (ev_workspaceId r) ws && String.eqb (ev_appId r) appId.

(** One of the targets, each an environment and a key. *)
Definition targeted (targets : list (string * string)) (r : EnvironmentVariable) : bool :=
  existsb (fun t => String.eqb (ev_environmentId r) (fst t) && String.eqb (ev_key r) (snd t)) targets.

Definition to_relabel (ws appId : string) (targets : list (string * string)) (r : EnvironmentVariable) : bool :=
  of_app ws appId r && String.eqb (ev_type r) "recoverable" && targeted targets r.

Definition makeSensitive (appId : string) (targets : list (string * string)) : WCtx -> M Z := fun c =>
  hide_errors "Failed to mark environment variable(s) as sensitive"
    (update_counted schema_appEnvironmentVariables (to_relabel (cw_id (c_workspace c)) appId targets) (ev_set_type "writeonly")).

(** The variables of a key in some environments of the app. *)
Definition keyed (ws appId key : string) (environmentIds : list string) (r : EnvironmentVariable) : bool :=
  of_app ws appId r && String.eqb (ev_key r) key && Js.includes environmentIds (ev_environmentId r).

Definition renameEnvVars (appId : string) (environmentIds : list string) (key newKey : string) : WCtx -> M Z := fun c =>
  let ws := cw_id (c_workspace c) in
  if String.eqb key newKey then ret 0
  else
    hide_errors "Failed to rename environment variable(s)" (
      targets <- find_many schema_appEnvironmentVariables (fun _ => keyed ws appId key environmentIds) ;;
      match targets with
      | [] => throw (not_found "Environment variable(s) not found")
      | _ =>
          conflicts <- find_many schema_appEnvironmentVariables (fun _ => keyed ws appId newKey environmentIds) ;;
          match conflicts with
          | _ :: _ => throw (conflict ("A variable named " +:+ String double_quote (newKey +:+ String double_quote " already exists in one of these environments")))
          | [] =>
              update_counted schema_appEnvironmentVariables
                (fun r => Js.includes (List.map ev_id targets) (ev_id r) && String.eqb (ev_workspaceId r) ws) (ev_set_key newKey)
          end
      end).

(** ** What the procedures change *)

Inductive EnvVarRequest :=
| RSensitive (appId : string) (targets : list (string * string))
| RRename (appId : string) (environmentIds : list string) (key newKey : string).

Definition serve_env_vars (r : EnvVarRequest) (c : WCtx) : M Z :=
  match r with
  | RSensitive appId targets => makeSensitive appId targets c
  | RRename appId environmentIds key newKey => renameEnvVars appId environmentIds key newKey c
  end.

(** The variables a request of workspace [ws] is about. *)
Definition concerns (ws : string) (r : EnvVarRequest) (x : EnvironmentVariable) : Prop :=
  match r with
  | RSensitive appId targets =>
      ev_workspaceId x = ws /\ ev_appId x = appId /\ ev_type x = "recoverable"%string /\ (ev_environmentId x, ev_key x) ∈ targets
  | RRename appId environmentIds key newKey =>
      key <> newKey /\ ev_workspaceId x = ws /\ ev_appId x = appId /\ ev_key x = key /\ ev_environmentId x ∈ environmentIds
  end.

#[export] Instance concerns_dec ws r x : Decision (concerns ws r x).
Proof. destruct r; apply _. Defined.

(** A variable keeps its place and its ciphertext, and what was write-only stays so. *)
Definition same_secret (a b : EnvironmentVariable) : Prop :=
  ev_id b = ev_id a /\ ev_workspaceId b = ev_workspaceId a /\ ev_appId b = ev_appId a
  /\ ev_environmentId b = ev_environmentId a /\ ev_value b = ev_value a /\ ev_description b = ev_description a
  /\ (ev_type b = ev_type a \/ ev_type a = "recoverable"%string /\ ev_type b = "writeonly"%string).

(** What a request makes of a variable: of those it is about, write-only ones or ones of
    the new name; of the others, nothing. *)
Definition after (ws : string) (r : EnvVarRequest) (a b : EnvironmentVariable) : Prop :=
  if decide (concerns ws r a) then
    same_secret a b
    /\ match r with
       | RSensitive _ _ => ev_type b = "writeonly"%string /\ ev_key b = ev_key a
       | RRename _ _ _ newKey => ev_type b = ev_type a /\ ev_key b = newKey
       end
  else b = a.

(** What a request does to the table: each variable is changed in its place as [after]
    says, and the number of those concerned is answered; a rename found some, and none
    under the new name. *)
Definition env_vars_step (ws : string) (r : EnvVarRequest) (l l' : list EnvironmentVariable) (n : Z) : Prop :=
  Forall2 (after ws r) l l'
  /\ n = Z.of_nat (List.length (List.filter (fun x => bool_decide (concerns ws r x)) l))
  /\ match r with
     | RSensitive _ _ => True
     | RRename appId environmentIds key newKey =>
         key = newKey
         \/ 0 < n /\ forall x, In x l -> ev_workspaceId x = ws -> ev_appId x = appId -> ev_environmentId x ∈ environmentIds -> ev_key x <> newKey
     end.

(** The conditions of the statements, and what they set. *)
Definition selects (ws : string) (r : EnvVarRequest) (x : EnvironmentVariable) : bool :=
  match r with
  | RSensitive appId targets => to_relabel ws appId targets x
  | RRename appId environmentIds key newKey => negb (String.eqb key newKey) && keyed ws appId key environmentIds x
  end.

Definition change (r : EnvVarRequest) : EnvironmentVariable -> EnvironmentVariable :=
  match r with RSensitive _ _ => ev_set_type "writeonly" | RRename _ _ _ newKey => ev_set_key newKey end.

(** The same step in the terms of the statements. *)
Definition statement_step (ws : string) (r : EnvVarRequest) (l l' : list EnvironmentVariable) (n : Z) : Prop :=
  l' = List.map (fun x => if selects ws r x then change r x else x) l
  /\ n = Z.of_nat (List.length (List.filter (selects ws r) l))
  /\ match r with
     | RSensitive _ _ => True
     | RRename appId environmentIds key newKey =>
         key = newKey \/ 0 < n /\ List.filter (keyed ws appId newKey environmentIds) l = []
     end.

Lemma targeted_spec targets x : targeted targets x = true <-> (ev_environmentId x, ev_key x) ∈ targets.
Proof.
  unfold targeted. rewrite existsb_exists, list_elem_of_In. split.
  - intros ([e k] & Hin & H). bool_hyps. cbn in *. by subst.
  - intros Hin. exists (ev_environmentId x, ev_key x). split; [done|]. cbn. by rewrite !String.eqb_refl.
Qed.

Lemma keyed_spec ws appId key ids x :
  keyed ws appId key ids x = true <-> ev_workspaceId x = ws /\ ev_appId x = appId /\ ev_key x = key /\ ev_environmentId x ∈ ids.
Proof. unfold keyed, of_app. rewrite !andb_true_iff, !String.eqb_eq, StrFacts.includes_In, list_elem_of_In. tauto. Qed.

Lemma selects_spec ws r x : selects ws r x = bool_decide (concerns ws r x).
Proof.
  apply eq_true_iff_eq. rewrite bool_decide_eq_true. destruct r as [appId targets|appId ids key newKey]; cbn [selects concerns].
  - unfold to_relabel, of_app. rewrite !andb_true_iff, !String.eqb_eq, targeted_spec. tauto.
  - rewrite andb_true_iff, negb_true_iff, String.eqb_neq, keyed_spec. done.
Qed.

Lemma statement_means ws r l l' n : statement_step ws r l l' n -> env_vars_step ws r l l' n.
Proof.
  intros (-> & -> & H). split; [|split].
  - clear H. induction l as [|x l IH]; [constructor|]. cbn [List.map]. constructor; [|exact IH].
    unfold after. rewrite selects_spec. destruct (decide _) as [Hc|Hc].
    + rewrite bool_decide_eq_true_2 by done. destruct r; cbn in *; [|by repeat split; left].
      destruct Hc as (_ & _ & Ht & _). repeat split. by right.
    + by rewrite bool_decide_eq_false_2.
  - f_equal. f_equal. apply filter_ext_in. intros x _. apply selects_spec.
  - destruct r as [|appId ids key newKey]; [done|]. destruct H as [H|[Hn Hf]]; [by left|right]. split; [done|].
    intros x Hx Hw Ha He Hk. assert (Hin : In x (List.filter (keyed ws appId newKey ids) l)); [|by rewrite Hf in Hin].
    apply filter_In. split; [done|]. by apply keyed_spec.
Qed.

Lemma update_counted_ret t where_ set env w n w' :
  update_counted t where_ set env w = (Ret n, w') ->
  n = Z.of_nat (List.length (List.filter where_ (tables (db w) t)))
  /\ exists d, run_sql (collation env) (Update t where_ set) (tables (db w)) = Some d /\ db w' = with_tables d (db w).
Proof.
  unfold update_counted. intros H. apply bind_ret in H as (u & w1 & H & Hr). apply ret_ret in Hr as [-> ->].
  split; [done|]. by apply exec_sql_ret in H.
Qed.

Lemma Atomic_update_counted t where_ set : Atomic (update_counted t where_ set).
Proof.
  intros env w e w' H. unfold update_counted in H.
  refine (Atomic_bind_last _ _ _ _ env w e w' H); [apply Atomic_exec_sql|]. intros. apply NoThrow_ret.
Qed.

Lemma hide_errors_ret {A} message (m : M A) env w a w' : hide_errors message m env w = (Ret a, w') -> m env w = (Ret a, w').
Proof. intros H. apply catch_ret in H as [H|(e & w1 & _ & H)]; [done|]. by destruct e. Qed.

Lemma Atomic_hide_errors {A} message (m : M A) : Atomic m -> Atomic (hide_errors message m).
Proof. intros Hm. apply Atomic_catch; [done|]. intros []; apply Atomic_ReadOnly, ReadOnly_throw. Qed.

Lemma Atomic_serve_env_vars r c : Atomic (serve_env_vars r c).
Proof.
  destruct r as [appId targets|appId ids key newKey]; cbn [serve_env_vars].
  - apply Atomic_hide_errors, Atomic_update_counted.
  - unfold renameEnvVars. cbv zeta. destruct (String.eqb key newKey); [apply Atomic_ReadOnly, ReadOnly_ret|].
    apply Atomic_hide_errors. apply Atomic_bind_read; [apply ReadOnly_find_many|]. intros [|x l]; [apply Atomic_ReadOnly, ReadOnly_throw|].
    apply Atomic_bind_read; [apply ReadOnly_find_many|]. intros [|y k]; [apply Atomic_update_counted|apply Atomic_ReadOnly, ReadOnly_throw].
Qed.

(** In a list without clashes, the rows with the id of a selected row are the selected
    ones. *)
Lemma selected_by_id fold (l : list EnvironmentVariable) (p : EnvironmentVariable -> bool) x :
  unique (clash fold schema_appEnvironmentVariables) l = true -> In x l ->
  Js.includes (List.map ev_id (List.filter p l)) (ev_id x) = p x.
Proof.
  intros Hu Hx. apply eq_true_iff_eq. rewrite StrFacts.includes_In, in_map_iff. split; [|intros Hp; exists x; split; [done|]; by apply filter_In].
  intros (y & Hy & [Hin Hp]%filter_In). assert (y = x) as <-; [|done].
  apply (unique_same _ _ y x (clash_sym fold schema_appEnvironmentVariables) Hu Hin Hx). cbn. by rewrite Hy, String.eqb_refl.
Qed.

Lemma map_ext_filter {A} (f : A -> A) (p q : A -> bool) l :
  (forall x, In x l -> p x = q x) ->
  List.map (fun x => if p x then f x else x) l = List.map (fun x => if q x then f x else x) l
  /\ List.filter p l = List.filter q l.
Proof. intros H. split; [apply map_ext_in; intros x Hx; by rewrite (H x Hx)|by apply filter_ext_in]. Qed.

(** An update by a condition that holds of the variables of the request. *)
Lemma update_step r c env w n w' where_ :
  (forall x, In x (tables (db w) schema_appEnvironmentVariables) -> where_ x = selects (cw_id (c_workspace c)) r x) ->
  update_counted schema_appEnvironmentVariables where_ (change r) env w = (Ret n, w') ->
  exists d, run_sql (collation env) (Update schema_appEnvironmentVariables where_ (change r)) (tables (db w)) = Some d
  /\ db w' = with_tables d (db w)
  /\ d schema_appEnvironmentVariables
     = List.map (fun x => if selects (cw_id (c_workspace c)) r x then change r x else x) (tables (db w) schema_appEnvironmentVariables)
  /\ n = Z.of_nat (List.length (List.filter (selects (cw_id (c_workspace c)) r) (tables (db w) schema_appEnvironmentVariables))).
Proof.
  intros Hc H. apply update_counted_ret in H as (-> & d & Hd & E).
  destruct (map_ext_filter (change r) where_ (selects (cw_id (c_workspace c)) r) _ Hc) as [Hm Hf].
  exists d. split; [done|]. split; [done|]. split; [rewrite (run_update _ _ _ _ _ _ Hd); exact Hm|].
  exact (f_equal (fun l => Z.of_nat (List.length l)) Hf).
Qed.

(** What a successful request did. *)
Lemma serve_env_vars_ret r c env w n w' :
  tables_ok (collation env) (tables (db w)) -> serve_env_vars r c env w = (Ret n, w') ->
  statement_step (cw_id (c_workspace c)) r (tables (db w) schema_appEnvironmentVariables) (tables (db w') schema_appEnvironmentVariables) n
  /\ exists d, db w' = with_tables d (db w) /\ (forall t, t <> schema_appEnvironmentVariables -> d t = tables (db w) t)
     /\ tables_ok (collation env) d.
Proof.
  intros Hok H.
  assert (Hdone : forall where_ w0, db w0 = db w ->
    (forall x, In x (tables (db w) schema_appEnvironmentVariables) -> where_ x = selects (cw_id (c_workspace c)) r x) ->
    update_counted schema_appEnvironmentVariables where_ (change r) env w0 = (Ret n, w') ->
    (tables (db w') schema_appEnvironmentVariables
       = List.map (fun x => if selects (cw_id (c_workspace c)) r x then change r x else x) (tables (db w) schema_appEnvironmentVariables)
     /\ n = Z.of_nat (List.length (List.filter (selects (cw_id (c_workspace c)) r) (tables (db w) schema_appEnvironmentVariables))))
    /\ exists d, db w' = with_tables d (db w) /\ (forall t, t <> schema_appEnvironmentVariables -> d t = tables (db w) t)
       /\ tables_ok (collation env) d).
  { intros where_ w0 E0 Hw Hu. rewrite <- E0 in *. destruct (update_step r c env w0 n w' where_ Hw Hu) as (d & Hd & E & Hm & Hn).
    split; [by rewrite E|]. exists d. split; [done|]. split; [intros t Ht; by apply (run_other _ _ _ _ t Hd)|by apply (tables_ok_run _ _ _ _ Hd)]. }
  destruct r as [appId targets|appId ids key newKey]; cbn [serve_env_vars] in H.
  - apply hide_errors_ret in H. destruct (Hdone _ w eq_refl (fun x _ => eq_refl) H) as [[? ?] ?]. by split.
  - unfold renameEnvVars in H. cbv zeta in H. destruct (String.eqb_spec key newKey) as [->|Hne].
    { apply ret_ret in H as [-> ->]. split; [|exists (tables (db w)); split; [by destruct (db w)|done]].
      assert (Hf : forall x, selects (cw_id (c_workspace c)) (RRename appId ids newKey newKey) x = false)
        by (intros x; cbn; by rewrite String.eqb_refl).
      split; [|split; [|by left]].
      - clear Hdone. induction (tables (db w) schema_appEnvironmentVariables) as [|x l IH]; [done|]. cbn [List.map].
        by rewrite Hf, <- IH.
      - clear Hdone. induction (tables (db w) schema_appEnvironmentVariables) as [|x l IH]; [done|]. cbn [List.filter]. by rewrite Hf. }
    apply hide_errors_ret in H. apply bind_ret in H as (targets & w1 & H1 & H).
    pose proof (read_ret _ _ _ _ _ (ReadOnly_find_many _ _) H1) as D1. apply find_many_ret in H1 as [E1 _].
    destruct targets as [|x targets]; [done|]. apply bind_ret in H as (conflicts & w2 & H2 & H).
    pose proof (read_ret _ _ _ _ _ (ReadOnly_find_many _ _) H2) as D2. apply find_many_ret in H2 as [E2 _].
    destruct conflicts; [|done]. rewrite D1 in D2, E2.
    assert (Hf : List.filter (keyed (cw_id (c_workspace c)) appId key ids) (tables (db w) schema_appEnvironmentVariables)
                 = List.filter (selects (cw_id (c_workspace c)) (RRename appId ids key newKey)) (tables (db w) schema_appEnvironmentVariables)).
    { apply filter_ext_in. intros y _. cbn [selects]. by rewrite (proj2 (String.eqb_neq _ _) Hne). }
    refine ((fun S => _) (Hdone _ w2 D2 _ H)).
    + destruct S as [[Hl Hn] Hd]. split; [|done]. split; [done|]. split; [done|]. right. split; [|exact E2].
      rewrite Hn, <- Hf. apply (f_equal (@List.length _)) in E1. cbn [row] in E1. rewrite E1. cbn [List.length]. lia.
    + intros y Hy. rewrite <- E1. cbn [selects]. rewrite (proj2 (String.eqb_neq _ _) Hne). cbn [negb andb].
      change (row schema_appEnvironmentVariables) with EnvironmentVariable in *.
      rewrite (selected_by_id (collation env) _ _ y (Hok schema_appEnvironmentVariables) Hy).
      unfold keyed, of_app. destruct (String.eqb (ev_workspaceId y) _); [by rewrite andb_true_r|by rewrite andb_false_r].
Qed.

Lemma step_secrets ws r l l' n : env_vars_step ws r l l' n -> Forall2 same_secret l l'.
Proof.
  intros (H & _ & _). induction H as [|x y l l' H _ IH]; constructor; [|done]. unfold after in H.
  destruct (decide _); [by destruct H|]. subst y. repeat split. by left.
Qed.

(** Claim C37. Renaming and hiding variables never touches a secret. Whatever the
    request, every variable keeps its id, environment and ciphertext, and a write-only
    variable stays write-only; the variables of the caller's own workspace and of the app
    that the request names by environment and key are renamed or, when they are
    recoverable, made write-only, all of them and no others, and their number is answered; a rename succeeds only when a variable has the old name and none the new
    one in these environments, so none is replaced; no other table changes and the unique
    indexes hold; a request that fails changes nothing. *)
Theorem env_vars_keep_secrets (r : EnvVarRequest) (c : WCtx) (env : Env) (w w' : World) (o : Outcome Z) :
  tables_ok (collation env) (tables (db w)) -> serve_env_vars r c env w = (o, w') ->
  match o with
  | Throw _ => db w' = db w
  | Ret n =>
      let l := tables (db w) schema_appEnvironmentVariables in let l' := tables (db w') schema_appEnvironmentVariables in
      env_vars_step (cw_id (c_workspace c)) r l l' n /\ Forall2 same_secret l l'
      /\ exists d, db w' = with_tables d (db w) /\ (forall t, t <> schema_appEnvironmentVariables -> d t = tables (db w) t)
         /\ tables_ok (collation env) d
  end.
Proof.
  intros Hok H. destruct o as [n|e]; [|by apply (Atomic_serve_env_vars r c env w e w')].
  destruct (serve_env_vars_ret r c env w n w' Hok H) as [Hs%statement_means Hd].
  split; [done|]. split; [by eapply step_secrets|done].
Qed.

Definition demo_variable (id ws environment key type : string) : EnvironmentVariable :=
  {| ev_id := id; ev_workspaceId := ws; ev_appId := "app_1"; ev_environmentId := environment; ev_key := key;
     ev_value := "cipher_" +:+ id; ev_type := type; ev_description := None |}.

Definition variables_tables : Tables :=
  put schema_appEnvironmentVariables
    [demo_variable "v1" "ws_1" "prod" "TOKEN" "recoverable"; demo_variable "v2" "ws_1" "preview" "TOKEN" "writeonly";
     demo_variable "v3" "ws_1" "prod" "PORT" "recoverable"; demo_variable "v4" "ws_2" "staging" "TOKEN" "recoverable"] (fun _ => []).

Definition variables_db : Db := with_tables variables_tables free_db.

Definition renames (o : Outcome Z * World) : Outcome Z * list string :=
  (fst o, List.map ev_key (tables (db (snd o)) schema_appEnvironmentVariables)).

(** A rename reaches both environments; one onto a name in use is refused. *)
Example rename_runs :
  renames (serve_env_vars (RRename "app_1" ["prod"; "preview"]%string "TOKEN" "API_TOKEN") (demo_ctx variables_db) demo_env (world_of variables_db))
  = (Ret 2, ["API_TOKEN"; "API_TOKEN"; "PORT"; "TOKEN"]%string)
  /\ snd (renames (serve_env_vars (RRename "app_1" ["prod"; "preview"]%string "TOKEN" "PORT") (demo_ctx variables_db) demo_env (world_of variables_db)))
  = ["TOKEN"; "TOKEN"; "PORT"; "TOKEN"]%string.
Proof. split; vm_compute; reflexivity. Qed.

Lemma env_vars_keep_secrets_witness :
  exists n w', serve_env_vars (RSensitive "app_1" [("prod", "TOKEN"); ("preview", "TOKEN"); ("staging", "TOKEN")]%string) (demo_ctx variables_db) demo_env (world_of variables_db)
    = (Ret n, w') /\ n = 1
  /\ Forall2 same_secret (variables_tables schema_appEnvironmentVariables) (tables (db w') schema_appEnvironmentVariables).
Proof.
  destruct (serve_env_vars (RSensitive "app_1" [("prod", "TOKEN"); ("preview", "TOKEN"); ("staging", "TOKEN")]%string) (demo_ctx variables_db) demo_env (world_of variables_db))
    as [o w'] eqn:E.
  assert (Ho : o = Ret 1) by (apply (f_equal fst) in E; vm_compute in E; by rewrite <- E).
  rewrite Ho in E. exists 1, w'. split; [by rewrite Ho|]. split; [done|].
  refine (proj1 (proj2 (env_vars_keep_secrets _ _ demo_env (world_of variables_db) w' (Ret 1) _ E))).
  intros t. by destruct t.
Defined.
