(* ===== verification/EnvVarSync.v ===== *)
(** * Environment variables through the API

    web/apps/dashboard/lib/collections/deploy/env-vars.ts and the submit handler of
    env-vars/components/list/env-var-edit-row.tsx: the browser lists, writes, removes and
    renames the variables of an app with requests to the API. The API is a class of
    operations on a state; its laws say what its documentation
    (svc/api/openapi/spec/paths/v2/environments) promises: a request writes or removes
    each of at most fifty variables exactly as sent, one that is not well-formed (a name
    that is no shell name or appears twice, an empty or long value) is rejected without
    effect, a listing shows every variable and no sensitive value, and a request that
    fails for another reason may or may not have been applied. [Promise.all] runs its members in order, each to its end, and reports the
    first error. Toasts, refetching and the time of a write are left out. *)

From Stdlib Require Import ZArith Bool Ascii String Lia.
From stdpp Require Import base list gmap strings.
From S2P Require Import Prelude EnvVars.

(** ** The API *)

Record VariableInput := { in_key : string; in_value : string; in_kind : string; in_description : option string }.

(** A variable as it is listed; a sensitive one has no value. *)
Record ListedVariable := { v_key : string; v_value : option string; v_kind : string; v_description : option string }.

Record VarPage := { page_data : list ListedVariable; page_hasMore : bool; page_cursor : option string }.

(** The project, the app and the environment of a request. *)
Abbreviation Scope := (string * string * string)%type.

(** What is stored for a variable. *)
Abbreviation Stored := VariableInput.

Abbreviation VarStore := (gmap (string * string * string * string) Stored).

(** [None] and [false] are a failed request. *)
Class EnvApi := {
  ApiState : Type;
  stored : ApiState -> VarStore;
  list_page : Scope -> option string -> ApiState -> option VarPage;
  set_request : Scope -> list VariableInput -> ApiState -> bool * ApiState;
  remove_request : Scope -> list string -> ApiState -> bool * ApiState;
}.

(** ** Computations *)

(** An exception, a result, or more pages than the fuel allows. *)
Inductive ApiOut (A : Type) := Threw (message : string) | Got (a : A) | Unfinished.
Arguments Threw {A} _.
Arguments Got {A} _.
Arguments Unfinished {A}.

Definition FAILED : string := "request failed".

Record EnvVar := {
  row_id : string;
  row_key : string;
  row_value : string;
  row_type : string;
  row_description : option string;
  row_environmentId : string;
  row_projectId : string;
  row_appId : string;
}.

Definition row_scope (v : EnvVar) : Scope := (row_projectId v, row_appId v, row_environmentId v).

Definition envVarKey (environmentId key : string) : string := environmentId +:+ ":" +:+ key.

Definition toEnvVar (projectId appId environmentId : string) (v : ListedVariable) : EnvVar :=
  {| row_id := envVarKey environmentId (v_key v); row_key := v_key v; row_value := Js.coalesce (v_value v) EmptyString; row_type := v_kind v;
     row_description := v_description v; row_environmentId := environmentId; row_projectId := projectId; row_appId := appId |}.

Definition MAX_VARIABLES_PER_REQUEST : nat := 50.

(** The parts of a list that are sent one by one. *)
Fixpoint parts_from {A} (fuel : nat) (l : list A) : list (list A) :=
  match fuel, l with
  | S n, _ :: _ => take MAX_VARIABLES_PER_REQUEST l :: parts_from n (drop MAX_VARIABLES_PER_REQUEST l)
  | _, _ => []
  end.

Definition parts {A} (l : list A) : list (list A) := parts_from (List.length l) l.

(** [byEnvironment]: a group per environment, in the order of their first variable. *)
Fixpoint add_to_group (v : EnvVar) (groups : list (string * list EnvVar)) : list (string * list EnvVar) :=
  match groups with
  | [] => [(row_environmentId v, [v])]
  | (e, g) :: r => if String.eqb e (row_environmentId v) then (e, g ++ [v]) :: r else (e, g) :: add_to_group v r
  end.

Definition byEnvironment (l : list EnvVar) : list (string * list EnvVar) := fold_left (fun g v => add_to_group v g) l [].

Section Client.

Context `{Api : EnvApi}.

(** The cursor of the next turn of the loop. *)
Definition next_cursor (page : VarPage) : option string :=
  if page_hasMore page then if Js.truthy (page_cursor page) then page_cursor page else None else None.

Fixpoint list_from (fuel : nat) (sc : Scope) (cursor : option string) (s : ApiState) : ApiOut (list ListedVariable) :=
  match fuel with
  | O => Unfinished
  | S n =>
      match list_page sc cursor s with
      | None => Threw FAILED
      | Some page =>
          match next_cursor page with
          | None => Got (page_data page)
          | Some c =>
              match list_from n sc (Some c) s with
              | Got rest => Got (page_data page ++ rest)
              | o => o
              end
          end
      end
  end.

Definition listAllVariables (fuel : nat) (sc : Scope) : ApiState -> ApiOut (list ListedVariable) := list_from fuel sc None.

(** A loop of requests ends at the first that fails. *)
Fixpoint send_all {A} (send : A -> ApiState -> bool * ApiState) (l : list A) (s : ApiState) : ApiOut unit * ApiState :=
  match l with
  | [] => (Got tt, s)
  | x :: r => let '(ok, s') := send x s in if ok : bool then send_all send r s' else (Threw FAILED, s')
  end.

Definition setVariables (sc : Scope) (variables : list VariableInput) : ApiState -> ApiOut unit * ApiState :=
  send_all (set_request sc) (parts variables).

Definition remove_group (g : list EnvVar) : ApiState -> ApiOut unit * ApiState :=
  match g with
  | [] => fun s => (Got tt, s)
  | v :: _ => send_all (remove_request (row_scope v)) (parts (List.map row_key g))
  end.

Definition removeVariables (variables : list EnvVar) (s : ApiState) : ApiOut unit * ApiState :=
  fold_left (fun '(o, s) '(_, g) =>
    let '(o', s') := remove_group g s in (match o with Got _ => o' | _ => o end, s')) (byEnvironment variables) (Got tt, s).

Definition name_in_use (key : string) : string :=
  "A variable named " +:+ String double_quote (key +:+ String double_quote " already exists in this environment.").

(** The value that is written, once the target is listed where that is needed. *)
Definition write_then_remove (original modified : EnvVar) (moved : bool) (value : string) (s : ApiState) : ApiOut unit * ApiState :=
  let '(o, s') := setVariables (row_scope modified)
    [{| in_key := row_key modified; in_value := value; in_kind := row_type modified; in_description := row_description modified |}] s in
  match o with
  | Got _ => if moved then removeVariables [original] s' else (Got tt, s')
  | _ => (o, s')
  end.

Definition renameAwareSet (fuel : nat) (original modified : EnvVar) (s : ApiState) : ApiOut unit * ApiState :=
  let moved := negb (String.eqb (row_key modified) (row_key original))
               || negb (String.eqb (row_environmentId modified) (row_environmentId original)) in
  let keepsLoadedValue := String.eqb (row_type original) "recoverable" && String.eqb (row_value modified) (row_value original) in
  if moved || keepsLoadedValue then
    match listAllVariables fuel (row_scope modified) s with
    | Threw m => (Threw m, s)
    | Unfinished => (Unfinished, s)
    | Got target =>
        if moved && existsb (fun v => String.eqb (v_key v) (row_key modified)) target then (Threw (name_in_use (row_key modified)), s)
        else
          let value :=
            if keepsLoadedValue then
              Js.coalesce (List.find (fun v => String.eqb (v_key v) (row_key original)) target ≫= v_value) (row_value modified)
            else row_value modified in
          write_then_remove original modified moved value s
    end
  else write_then_remove original modified moved (row_value modified) s.

End Client.

(** ** The edit form *)

Record EditValues := { edit_key : string; edit_value : string; edit_description : option string; edit_sensitive : bool }.

Inductive Submitted := ValueError (message : string) | Unchanged | Updated (modified : EnvVar).

Definition onSubmit (row : EnvVar) (values : EditValues) : Submitted :=
  if String.eqb (row_type row) "writeonly" && negb (Js.truthy_string (edit_value values)) then
    if negb (String.eqb (Js.coalesce (edit_description values) EmptyString) (Js.coalesce (row_description row) EmptyString)) then
      ValueError "Type the new value to save a change to a sensitive variable."
    else Unchanged
  else
    Updated {| row_id := row_id row; row_key := edit_key values; row_value := edit_value values;
               row_type := if edit_sensitive values then "writeonly" else "recoverable";
               row_description := if Js.truthy (edit_description values) then edit_description values else None;
               row_environmentId := row_environmentId row; row_projectId := row_projectId row; row_appId := row_appId row |}.

(** ** What the API promises *)

Definition upsert (sc : Scope) (l : list VariableInput) (m : VarStore) : VarStore := fold_left (fun m v => <[(sc, in_key v) := v]> m) l m.

Definition unset (sc : Scope) (keys : list string) (m : VarStore) : VarStore := fold_left (fun m k => delete (sc, k) m) keys m.

(** What a listing shows of a variable. *)
Definition shown (v : Stored) : ListedVariable :=
  {| v_key := in_key v; v_value := if String.eqb (in_kind v) "writeonly" then None else Some (in_value v); v_kind := in_kind v;
     v_description := in_description v |}.

(** The pages from a cursor on, and how many they are. *)
Inductive Pages `{EnvApi} (s : ApiState) (sc : Scope) : option string -> nat -> list ListedVariable -> Prop :=
| pages_last c page : list_page sc c s = Some page -> next_cursor page = None -> Pages s sc c 1 (page_data page)
| pages_more c page c' n l : list_page sc c s = Some page -> next_cursor page = Some c' -> Pages s sc (Some c') n l ->
    Pages s sc c (S n) (page_data page ++ l).

(** What the API takes, in bytes (EnvironmentVariableInput.yaml and the request bodies). *)
Definition valid_name (key : string) : bool := is_name key && (String.length key <=? 256)%nat.

Definition valid_variable (v : VariableInput) : bool :=
  valid_name (in_key v) && Js.truthy_string (in_value v) && (Z.of_nat (String.length (in_value v)) <=? 16384)%Z
  && match in_description v with Some d => (String.length d <=? 255)%nat | None => true end.

Definition valid_write (l : list VariableInput) : bool :=
  (List.length l <=? MAX_VARIABLES_PER_REQUEST)%nat && forallb valid_variable l && bool_decide (NoDup (List.map in_key l)).

Definition valid_removal (keys : list string) : bool :=
  negb (List.length keys =? 0)%nat && (List.length keys <=? MAX_VARIABLES_PER_REQUEST)%nat && forallb valid_name keys.

Class EnvApiLaws (Api : EnvApi) : Prop := {
  stored_key : forall s sc k v, stored s !! (sc, k) = Some v -> in_key v = k;
  set_ok : forall sc l s s', (List.length l <= MAX_VARIABLES_PER_REQUEST)%nat -> set_request sc l s = (true, s') -> stored s' = upsert sc l (stored s);
  set_fails : forall sc l s s', set_request sc l s = (false, s') -> stored s' = stored s \/ stored s' = upsert sc l (stored s);
  set_invalid : forall sc l s s' ok, valid_write l = false -> set_request sc l s = (ok, s') -> ok = false /\ stored s' = stored s;
  remove_ok : forall sc l s s', (List.length l <= MAX_VARIABLES_PER_REQUEST)%nat -> remove_request sc l s = (true, s') -> stored s' = unset sc l (stored s);
  remove_fails : forall sc l s s', remove_request sc l s = (false, s') -> stored s' = stored s \/ stored s' = unset sc l (stored s);
  (* a listing that comes to its end has shown each variable of the environment *)
  pages_shown : forall s sc n l, Pages s sc None n l ->
    forall v, In v l <-> exists x, stored s !! (sc, v_key v) = Some x /\ v = shown x;
}.

(** The API answers the requests that are well-formed. *)
Definition up `{EnvApi} : Prop :=
  (forall sc l s, valid_write l = true -> fst (set_request sc l s) = true)
  /\ (forall sc l s, valid_removal l = true -> fst (remove_request sc l s) = true).

(** ** Parts *)

Lemma parts_from_concat {A} (l : list A) n : (List.length l <= n)%nat -> List.concat (parts_from n l) = l.
Proof.
  revert l. induction n as [|n IH]; intros [|x l] H; try done; [cbn in H; lia|].
  cbn [parts_from List.concat]. rewrite IH; [apply take_drop|]. rewrite length_drop. cbn [List.length] in *. unfold MAX_VARIABLES_PER_REQUEST. lia.
Qed.

Lemma parts_concat {A} (l : list A) : List.concat (parts l) = l.
Proof. by apply parts_from_concat. Qed.

Lemma parts_small {A} (l : list A) : Forall (fun p => (List.length p <= MAX_VARIABLES_PER_REQUEST)%nat) (parts l).
Proof.
  unfold parts. generalize (List.length l) as n. intros n. revert l. induction n as [|n IH]; intros [|x l]; try done.
  cbn [parts_from]. constructor; [|apply IH]. rewrite length_take. lia.
Qed.

(** The parts of a list of well-formed variables with different names are well-formed. *)
Lemma parts_valid l : forallb valid_variable l = true -> NoDup (List.map in_key l) -> Forall (fun p => valid_write p = true) (parts l).
Proof.
  intros Hv Hn. pose proof (parts_small l) as Hs. rewrite <- (parts_concat l) in Hv, Hn. revert Hs Hv Hn.
  induction (parts l) as [|p ps IH]; intros Hs Hv Hn; [done|]. apply Forall_cons in Hs as [Hp Hs].
  cbn [List.concat] in Hv, Hn. rewrite forallb_app in Hv. apply andb_prop in Hv as [Hv1 Hv2].
  rewrite map_app in Hn. apply NoDup_app in Hn as (Hn1 & _ & Hn2). constructor; [|by apply IH].
  unfold valid_write. by rewrite (proj2 (Nat.leb_le _ _) Hp), Hv1, bool_decide_eq_true_2.
Qed.

Lemma parts_one {A} (x : A) : parts [x] = [[x]].
Proof. done. Qed.

Lemma one_small {A} (x : A) : (List.length [x] <= MAX_VARIABLES_PER_REQUEST)%nat.
Proof. unfold MAX_VARIABLES_PER_REQUEST. cbn. lia. Qed.

Lemma upsert_app sc l l' m : upsert sc (l ++ l') m = upsert sc l' (upsert sc l m).
Proof. apply fold_left_app. Qed.

Section Laws.

Context `{Api : EnvApi} {Laws : EnvApiLaws Api}.

Lemma send_sets sc ps s o s' : Forall (fun p => (List.length p <= MAX_VARIABLES_PER_REQUEST)%nat) ps ->
  send_all (set_request sc) ps s = (o, s') ->
  match o with
  | Got _ => stored s' = upsert sc (List.concat ps) (stored s)
  | Threw _ => exists done_ rest, List.concat ps = done_ ++ rest /\ stored s' = upsert sc done_ (stored s)
  | Unfinished => False
  end.
Proof.
  intros Hps. revert s. induction Hps as [|p ps Hp Hps IH]; intros s; cbn [send_all List.concat].
  - by intros [= <- <-].
  - destruct (set_request sc p s) as [[] s1] eqn:E.
    + intros H. specialize (IH _ H). rewrite (set_ok _ _ _ _ Hp E) in IH. destruct o; [| |done].
      * destruct IH as (d & r & -> & ->). exists (p ++ d), r. by rewrite upsert_app, app_assoc.
      * by rewrite upsert_app.
    + intros [= <- <-]. destruct (set_fails _ _ _ _ E) as [->| ->]; [by exists [], (p ++ List.concat ps)|by exists p, (List.concat ps)].
Qed.

Lemma send_up {A} (send : list A -> ApiState -> bool * ApiState) (valid : list A -> bool) ps s :
  (forall l s, valid l = true -> fst (send l s) = true) ->
  Forall (fun p => valid p = true) ps -> fst (send_all send ps s) = Got tt.
Proof.
  intros Hup Hps. revert s. induction Hps as [|p ps Hp _ IH]; intros s; cbn [send_all]; [done|].
  specialize (Hup p s Hp). destruct (send p s) as [[] s1]; [apply IH|done].
Qed.

Lemma pages_fuel s sc c n l fuel : Pages s sc c n l -> (n <= fuel)%nat -> list_from fuel sc c s = Got l.
Proof.
  intros H. revert fuel. induction H as [c page E En|c page c' n l E En _ IH]; intros [|fuel] Hf; try lia; cbn [list_from]; rewrite E, En; [done|].
  rewrite (IH fuel); [done|lia].
Qed.

Lemma list_pages s sc c fuel l : list_from fuel sc c s = Got l -> exists n, Pages s sc c n l.
Proof.
  revert c l. induction fuel as [|fuel IH]; intros c l; cbn [list_from]; [done|].
  destruct (list_page sc c s) as [page|] eqn:E; [|done]. destruct (next_cursor page) as [c'|] eqn:En.
  - destruct (list_from fuel sc (Some c') s) as [|r|] eqn:El; [done| |done]. intros [= <-]. destruct (IH _ _ El) as [n Hn].
    exists (S n). by eapply pages_more.
  - intros [= <-]. exists 1%nat. by apply pages_last.
Qed.

(** A listing finds a key exactly when it is stored, and shows what is stored. *)
Lemma listed_find s sc fuel l k : listAllVariables fuel sc s = Got l ->
  existsb (fun v => String.eqb (v_key v) k) l = bool_decide (is_Some (stored s !! (sc, k)))
  /\ List.find (fun v => String.eqb (v_key v) k) l = shown <$> stored s !! (sc, k).
Proof.
  intros [n Hn]%list_pages. pose proof (pages_shown _ _ _ _ Hn) as Hl. destruct (stored s !! (sc, k)) as [x|] eqn:Ex.
  - rewrite bool_decide_eq_true_2 by done. assert (In (shown x) l) as Hin.
    { apply Hl. exists x. cbn. by rewrite (stored_key _ _ _ _ Ex). }
    assert (String.eqb (v_key (shown x)) k = true) as Hk by (cbn; rewrite (stored_key _ _ _ _ Ex); apply String.eqb_refl).
    split; [apply List.existsb_exists; eauto|]. destruct (List.find _ l) as [v|] eqn:Ef.
    + apply List.find_some in Ef as [Hv <-%String.eqb_eq]. apply Hl in Hv as (y & Hy & ->). cbn in *. by simplify_eq.
    + by rewrite (List.find_none _ _ Ef _ Hin) in Hk.
  - rewrite bool_decide_eq_false_2 by (by intros []). assert (forall v, In v l -> String.eqb (v_key v) k = false) as Hno.
    { intros v Hv. apply Hl in Hv as (y & Hy & ->). destruct (String.eqb_spec (v_key (shown y)) k) as [<-|]; [|done]. cbn in *. by simplify_eq. }
    split.
    + apply not_true_is_false. intros (v & Hv & E)%List.existsb_exists. by rewrite Hno in E.
    + cbn. destruct (List.find _ l) as [v|] eqn:Ef; [|done]. apply List.find_some in Ef as [Hv E]. by rewrite Hno in E.
Qed.

End Laws.

(** ** Writing in parts *)

(** Variables are written as if by one request, however many they are. When
    [setVariables] returns, the store has each of them and is otherwise as before; when it
    throws, it has written the first of them, up to some point, and nothing else. The parts
    of well-formed variables with different names are requests the API takes, so with an
    API that answers those it returns. *)
Theorem variables_written_in_parts `{Api : EnvApi} (Laws : EnvApiLaws Api) (sc : Scope) (l : list VariableInput) (s s' : ApiState) (o : ApiOut unit) :
  setVariables sc l s = (o, s') ->
  match o with
  | Got _ => stored s' = upsert sc l (stored s)
  | Threw _ => exists sent rest, l = sent ++ rest /\ stored s' = upsert sc sent (stored s)
  | Unfinished => False
  end
  /\ (up -> forallb valid_variable l = true -> NoDup (List.map in_key l) -> o = Got tt).
Proof.
  intros H. split.
  - pose proof (send_sets sc _ s o s' (parts_small l) H) as Hs. rewrite parts_concat in Hs. done.
  - intros [Hup _] Hv Hn. unfold setVariables in H.
    pose proof (send_up (set_request sc) valid_write (parts l) s (Hup sc) (parts_valid l Hv Hn)) as E. by rewrite H in E.
Qed.

(** ** An edit *)

(** What an edit stores, given what is stored for the variable when it is saved: a
    value that was not touched is the one stored now, where it can be read. *)
Definition written (row : EnvVar) (values : EditValues) (now : option Stored) : VariableInput :=
  {| in_key := edit_key values;
     in_value := if String.eqb (row_type row) "recoverable" && String.eqb (edit_value values) (row_value row)
                 then Js.coalesce (now ≫= fun x => v_value (shown x)) (edit_value values) else edit_value values;
     in_kind := if edit_sensitive values then "writeonly" else "recoverable";
     in_description := if Js.truthy (edit_description values) then edit_description values else None |}.

Section Edit.

Context `{Api : EnvApi} {Laws : EnvApiLaws Api}.

Lemma set_one sc v s o s' : setVariables sc [v] s = (o, s') ->
  (stored s' = stored s \/ stored s' = <[(sc, in_key v) := v]> (stored s))
  /\ (o = Got tt -> stored s' = <[(sc, in_key v) := v]> (stored s))
  /\ (if valid_write [v] then up -> o = Got tt else o <> Got tt /\ stored s' = stored s).
Proof.
  unfold setVariables. rewrite parts_one. cbn [send_all]. destruct (set_request sc [v] s) as [[] s1] eqn:E; intros [= <- <-].
  - rewrite (set_ok _ _ _ _ (one_small _) E). split; [by right|]. split; [done|].
    destruct (valid_write [v]) eqn:Ev; [done|]. by destruct (set_invalid _ _ _ _ _ Ev E).
  - split; [by destruct (set_fails _ _ _ _ E); [left|right]|]. split; [done|].
    destruct (valid_write [v]) eqn:Ev; [|by destruct (set_invalid _ _ _ _ _ Ev E)].
    intros [Hup _]. specialize (Hup sc [v] s Ev). by rewrite E in Hup.
Qed.

Lemma remove_one v s o s' : removeVariables [v] s = (o, s') ->
  (stored s' = stored s \/ stored s' = delete (row_scope v, row_key v) (stored s))
  /\ (o = Got tt -> stored s' = delete (row_scope v, row_key v) (stored s)) /\ (up -> valid_removal [row_key v] = true -> o = Got tt).
Proof.
  unfold removeVariables. cbn [byEnvironment fold_left add_to_group remove_group List.map]. rewrite parts_one. cbn [send_all].
  destruct (remove_request (row_scope v) [row_key v] s) as [[] s1] eqn:E; intros [= <- <-].
  - rewrite (remove_ok _ _ _ _ (one_small _) E). auto.
  - split; [by destruct (remove_fails _ _ _ _ E); [left|right]|]. split; [done|]. intros [_ Hup] Hv.
    specialize (Hup (row_scope v) [row_key v] s Hv). by rewrite E in Hup.
Qed.

(** The stores an edit may leave: as before, with the new entry, and with the old one
    removed too. *)
Definition edited (row : EnvVar) (values : EditValues) (m : VarStore) : VarStore :=
  <[(row_scope row, edit_key values) := written row values (m !! (row_scope row, row_key row))]> m.

Definition edited_whole (row : EnvVar) (values : EditValues) (m : VarStore) : VarStore :=
  if String.eqb (edit_key values) (row_key row) then edited row values m else delete (row_scope row, row_key row) (edited row values m).

Definition edit_left (row : EnvVar) (values : EditValues) (m m' : VarStore) (o : ApiOut unit) : Prop :=
  (m' = m \/ m' = edited row values m \/ m' = edited_whole row values m) /\ (o = Got tt -> m' = edited_whole row values m).

(** The requests of the edit are well-formed. *)
Definition edit_taken (row : EnvVar) (values : EditValues) (m : VarStore) : Prop :=
  valid_write [written row values (m !! (row_scope row, row_key row))] = true
  /\ (edit_key values = row_key row \/ valid_removal [row_key row] = true).

(** What becomes of an edit whose entry the API does not take, and of one that it takes. *)
Definition edit_ends (row : EnvVar) (values : EditValues) (m m' : VarStore) (o : ApiOut unit) : Prop :=
  (valid_write [written row values (m !! (row_scope row, row_key row))] = false -> o <> Got tt /\ m' = m)
  /\ (up -> edit_taken row values m -> o = Got tt).

Lemma write_left row values modified s o s' w moved :
  onSubmit row values = Updated modified -> moved = negb (String.eqb (row_key modified) (row_key row)) -> w = in_value (written row values (stored s !! (row_scope row, row_key row))) ->
  write_then_remove row modified moved w s = (o, s') ->
  edit_left row values (stored s) (stored s') o /\ edit_ends row values (stored s) (stored s') o.
Proof.
  unfold onSubmit. destruct (_ && _); [by destruct (negb _)|]. intros [= <-] -> ->. unfold write_then_remove, edit_left, edited_whole.
  cbn [row_scope row_projectId row_appId row_environmentId row_key row_type row_description].
  fold (row_scope row). set (v := {| in_key := edit_key values |}).
  assert (v = written row values (stored s !! (row_scope row, row_key row))) as Hv by done. clearbody v. subst v.
  destruct (setVariables _ _ s) as [o1 s1] eqn:E1. apply set_one in E1 as (H1 & H1' & Hu1).
  change (in_key (written row values (stored s !! (row_scope row, row_key row)))) with (edit_key values) in H1, H1'.
  fold (edited row values (stored s)) in H1, H1'.
  unfold edit_ends, edit_taken. set (valid := valid_write _) in *.
  destruct o1 as [e1|[]|].
  1, 3: intros [= <- <-]; split; [split; [tauto|done]|]; destruct valid; [split; [done|]|split; [done|]]; intros Hup [Hv _]; auto; done.
  destruct valid; [|by destruct Hu1].
  rewrite (H1' eq_refl) in *. destruct (String.eqb_spec (edit_key values) (row_key row)) as [Ek|Ek]; cbn [negb].
  - intros [= <- <-]. rewrite (H1' eq_refl). split; [split; [right; by left|done]|done].
  - intros H. apply remove_one in H as (H2 & H2' & Hu2). rewrite (H1' eq_refl) in H2, H2'. split; [split; [tauto|done]|].
    split; [done|]. intros Hup [_ [?|Hv]]; [done|auto].
Qed.

Lemma edit_left_refl row values m o : o <> Got tt -> edit_left row values m m o.
Proof. intros Ho. split; [by left|done]. Qed.

Lemma edit_left_kept row values m m' o x : edit_left row values m m' o -> m !! (row_scope row, row_key row) = Some x ->
  m' !! (row_scope row, edit_key values) = Some (written row values (Some x)) \/ m' !! (row_scope row, row_key row) = Some x.
Proof.
  intros [Hm _] Hx. destruct Hm as [->|[->| ->]]; [by right|left|left]; unfold edited_whole, edited; rewrite Hx.
  - by rewrite lookup_insert_eq.
  - destruct (String.eqb_spec (edit_key values) (row_key row)); [by rewrite lookup_insert_eq|].
    rewrite lookup_delete_ne by congruence. by rewrite lookup_insert_eq.
Qed.

Lemma submitted_row row values modified : onSubmit row values = Updated modified ->
  row_scope modified = row_scope row /\ row_environmentId modified = row_environmentId row /\ row_key modified = edit_key values
  /\ row_value modified = edit_value values.
Proof. unfold onSubmit. destruct (_ && _); [by destruct (negb _)|]. by intros [= <-]. Qed.

Lemma edit_run row values modified fuel s o s' :
  onSubmit row values = Updated modified -> renameAwareSet fuel row modified s = (o, s') ->
  edit_left row values (stored s) (stored s') o
  /\ (edit_key values <> row_key row -> is_Some (stored s !! (row_scope row, edit_key values)) -> stored s' = stored s /\ o <> Got tt)
  /\ (valid_write [written row values (stored s !! (row_scope row, row_key row))] = false -> o <> Got tt /\ stored s' = stored s)
  /\ (forall l, listAllVariables fuel (row_scope row) s = Got l -> up -> edit_taken row values (stored s) ->
       edit_key values = row_key row \/ stored s !! (row_scope row, edit_key values) = None -> o = Got tt).
Proof.
  intros Hsub. destruct (submitted_row _ _ _ Hsub) as (Hsc & Henv & Hkey & Hval). unfold renameAwareSet.
  rewrite Henv, String.eqb_refl, Hsc, Hval. cbn [negb]. rewrite orb_false_r.
  destruct (_ || _) eqn:Elist.
  - destruct (listAllVariables fuel (row_scope row) s) as [m|target|] eqn:El;
      [intros [= <- <-]; split; [by apply edit_left_refl|done]| |intros [= <- <-]; split; [by apply edit_left_refl|done]].
    destruct (listed_find s _ _ _ (row_key modified) El) as [Hused _]. destruct (listed_find s _ _ _ (row_key row) El) as [_ Hnow].
    rewrite Hused, Hnow, Hkey. destruct (String.eqb_spec (edit_key values) (row_key row)) as [Ek|Ek]; cbn [negb andb].
    + intros H. apply (write_left _ _ _ _ _ _ _ _ Hsub) in H as [H1 H2];
        [destruct H2; by split; [|split; [done|split; [done|auto]]]|by rewrite Hkey, Ek, String.eqb_refl|cbn; by destruct (stored s !! (row_scope row, row_key row))].
    + clear Hused. case_bool_decide as Hin; [intros [= <- <-]; split; [by apply edit_left_refl|split; [done|split; [done|]]]|].
      * intros _ _ _ _ [?|E]; [done|]. rewrite E in Hin. by destruct Hin.
      * intros H. apply (write_left _ _ _ _ _ _ _ _ Hsub) in H as [H1 H2];
          [destruct H2; by split; [|split; [intros ? []%Hin|split; [done|auto]]]|rewrite Hkey; by apply String.eqb_neq in Ek as ->|cbn; by destruct (stored s !! (row_scope row, row_key row))].
  - apply orb_false_elim in Elist as [Em Ekeep]. intros H. apply (write_left _ _ _ _ _ _ _ _ Hsub) in H as [H1 H2]; [|done|cbn; by rewrite Ekeep].
    destruct H2. split; [done|split; [|split; [done|auto]]]. intros Hne. rewrite Hkey in Em. apply String.eqb_neq in Hne. by rewrite Hne in Em.
Qed.

End Edit.

(** Claim C34. An edit of a variable cannot lose it. Whatever requests fail, and whether
    or not a failed one was applied, the stored variables are those of before, or have the
    edited entry besides, or have the edited entry in place of the old one; so the old
    variable is there as it was or the new one is there in full, and no other variable
    changes. When the edit returns it is complete. Under a new name that is in use it throws
    and changes nothing. An untouched value is the one stored when the edit is saved,
    not the one the page loaded. An entry the API does not take, as one whose value was
    cleared, throws and changes nothing. With as many turns of the listing as it has
    pages, and an API that answers well-formed requests, an edit to a free name whose
    entry is well-formed returns. *)
Theorem edit_never_loses `{Api : EnvApi} (Laws : EnvApiLaws Api) (row modified : EnvVar) (values : EditValues) (fuel : nat) (s s' : ApiState) (o : ApiOut unit) :
  onSubmit row values = Updated modified -> renameAwareSet fuel row modified s = (o, s') ->
  edit_left row values (stored s) (stored s') o
  /\ (edit_key values <> row_key row -> is_Some (stored s !! (row_scope row, edit_key values)) -> stored s' = stored s /\ o <> Got tt)
  /\ (forall x, stored s !! (row_scope row, row_key row) = Some x ->
       stored s' !! (row_scope row, edit_key values) = Some (written row values (Some x)) \/ stored s' !! (row_scope row, row_key row) = Some x)
  /\ (valid_write [written row values (stored s !! (row_scope row, row_key row))] = false -> o <> Got tt /\ stored s' = stored s)
  /\ (forall n l, Pages s (row_scope row) None n l -> (n <= fuel)%nat -> up -> edit_taken row values (stored s) ->
       edit_key values = row_key row \/ stored s !! (row_scope row, edit_key values) = None -> o = Got tt).
Proof.
  intros Hsub H. destruct (edit_run _ _ _ _ _ _ _ Hsub H) as (Hleft & Hused & Hbad & Hup). split; [done|]. split; [done|]. split; [|split; [done|]].
  - intros x. by apply edit_left_kept with (o := o).
  - intros n l Hp Hn. apply (Hup l). by apply pages_fuel with (n := n).
Qed.

(** ** An API *)

(** Each variable is stored under its key. *)
Definition keys_right (m : VarStore) : Prop := map_Forall (fun k v => in_key v = snd k) m.

Lemma upsert_right sc l m : keys_right m -> keys_right (upsert sc l m).
Proof. revert m. induction l as [|v l IH]; intros m H; [done|]. apply IH. by apply map_Forall_insert_2. Qed.

Lemma unset_right sc l m : keys_right m -> keys_right (unset sc l m).
Proof. revert m. induction l as [|k l IH]; intros m H; [done|]. apply IH. by apply map_Forall_delete. Qed.

Definition listed (m : VarStore) (sc : Scope) : list ListedVariable :=
  omap (fun '(k, v) => if bool_decide (fst k = sc) then Some (shown v) else None) (map_to_list m).

(** It answers each request that is well-formed, with one page. *)
Definition plain_api : EnvApi := {|
  ApiState := { m : VarStore | keys_right m };
  stored s := `s;
  list_page sc _ s := Some {| page_data := listed (`s) sc; page_hasMore := false; page_cursor := None |};
  set_request sc l s := if valid_write l then (true, upsert sc l (`s) ↾ upsert_right sc l _ (proj2_sig s)) else (false, s);
  remove_request sc l s := if valid_removal l then (true, unset sc l (`s) ↾ unset_right sc l _ (proj2_sig s)) else (false, s);
|}.

#[export] Instance plain_laws : EnvApiLaws plain_api.
Proof.
  split; cbn.
  - intros [m Hm] sc k v H. exact (Hm _ _ H).
  - intros sc l s s' _. destruct (valid_write l); [|done]. by intros [= <-].
  - intros sc l s s'. destruct (valid_write l); [done|]. intros [= <-]. by left.
  - intros sc l s s' ok ->. by intros [= <- <-].
  - intros sc l s s' _. destruct (valid_removal l); [|done]. by intros [= <-].
  - intros sc l s s'. destruct (valid_removal l); [done|]. intros [= <-]. by left.
  - intros [m Hm] sc n l H v. assert (l = listed m sc) as -> by (inversion H as [? ? [= <-]|? ? ? ? ? [= <-] [=]]; done).
    rewrite <- list_elem_of_In. unfold listed. rewrite list_elem_of_omap. cbn. split.
    + intros ([[sc' k] x] & Hx%elem_of_map_to_list & E). cbn in E. case_bool_decide; [|done]. injection E as <-. subst sc'. exists x. cbn.
      by rewrite (Hm _ _ Hx).
    + intros (x & Hx & ->). exists ((sc, v_key (shown x)), x). split; [by apply elem_of_map_to_list|]. cbn. by rewrite bool_decide_eq_true_2.
Qed.

Lemma plain_up : @up plain_api.
Proof. split; intros sc l s H; cbn; by rewrite H. Qed.

(** ** Runs *)

Definition demo_scope : Scope := ("proj_1", "app_1", "env_1")%string.

Definition demo_input (key value kind : string) : VariableInput := {| in_key := key; in_value := value; in_kind := kind; in_description := None |}.

Definition no_variables : @ApiState plain_api := ∅ ↾ map_Forall_empty _.

Definition with_variables (l : list VariableInput) : @ApiState plain_api := snd (setVariables demo_scope l no_variables).

(** The row of a variable as the page has loaded it. *)
Definition loaded (v : VariableInput) : EnvVar := toEnvVar "proj_1" "app_1" "env_1" (shown v).

Definition edit (key value : string) (note : option string) : EditValues :=
  {| edit_key := key; edit_value := value; edit_description := note; edit_sensitive := false |}.

(** The outcome of an edit and the variables behind it. *)
Definition edit_outcome (row : EnvVar) (values : EditValues) (s : @ApiState plain_api) : option (ApiOut unit * list (string * (string * string))) :=
  match onSubmit row values with
  | Updated modified =>
      let '(o, s') := renameAwareSet (Api := plain_api) 1 row modified s in
      Some (o, List.map (fun '(k, v) => (snd k, (in_value v, in_kind v))) (map_to_list (stored s')))
  | _ => None
  end.

(** The form lets the value of a recoverable variable be cleared; the API does not take it,
    and the variable stays as it was. *)
Example cleared_value_refused :
  edit_outcome (loaded (demo_input "DB_URL" "mysql" "recoverable")) (edit "DB_URL" EmptyString None) (with_variables [demo_input "DB_URL" "mysql" "recoverable"])
  = Some (Threw FAILED, [("DB_URL", ("mysql", "recoverable"))])%string.
Proof. vm_compute. done. Qed.

(** A variable is renamed; a name in use is refused; a value that was changed by someone
    else meanwhile is not undone by an edit of the note. *)
Example edits_run :
  let db := demo_input "DB_URL" "mysql" "recoverable" in
  edit_outcome (loaded db) (edit "DATABASE" "mysql" None) (with_variables [db]) = Some (Got tt, [("DATABASE", ("mysql", "recoverable"))])%string
  /\ fst <$> edit_outcome (loaded db) (edit "PORT" "mysql" None) (with_variables [db; demo_input "PORT" "80" "recoverable"]) = Some (Threw (name_in_use "PORT"))
  /\ edit_outcome (loaded db) (edit "DB_URL" "mysql" (Some "main")) (with_variables [demo_input "DB_URL" "postgres" "recoverable"])%string
     = Some (Got tt, [("DB_URL", ("postgres", "recoverable"))])%string.
Proof. vm_compute. auto. Qed.

(** Marking a variable as sensitive is meant to be one way (make-sensitive.ts), but an
    edit writes the kind the page has loaded: when a variable was marked as sensitive after
    the page had loaded, saving a note there makes it readable again, with the loaded value. *)
Theorem stale_edit_undoes_sensitive :
  let secret kind := demo_input "API_KEY" "s3cret" kind in
  edit_outcome (loaded (secret "recoverable"%string)) (edit "API_KEY" "s3cret" (Some "rotate in May"%string)) (with_variables [secret "writeonly"%string])
  = Some (Got tt, [("API_KEY", ("s3cret", "recoverable"))])%string.
Proof. vm_compute. done. Qed.

Definition demo_row : EnvVar := loaded (demo_input "DB_URL" "mysql" "recoverable").

Definition demo_renamed : EnvVar := match onSubmit demo_row (edit "DATABASE" "mysql" None) with Updated m => m | _ => demo_row end.

Definition demo_stored : @ApiState plain_api := with_variables [demo_input "DB_URL" "mysql" "recoverable"; demo_input "PORT" "80" "recoverable"].

Lemma edit_never_loses_witness :
  let '(o, s') := renameAwareSet (Api := plain_api) 1 demo_row demo_renamed demo_stored in
  o = Got tt /\ stored s' = edited_whole demo_row (edit "DATABASE" "mysql" None) (stored demo_stored).
Proof.
  destruct (renameAwareSet 1 demo_row demo_renamed demo_stored) as [o s'] eqn:E.
  destruct (edit_never_loses plain_laws demo_row demo_renamed (edit "DATABASE" "mysql" None) 1 demo_stored s' o eq_refl E) as ((_ & H) & _ & _ & _ & Hup).
  assert (o = Got tt) as Ho; [|split; [exact Ho|exact (H Ho)]].
  eapply (Hup 1%nat); [eapply pages_last; reflexivity|lia|exact plain_up|split; [|right]; vm_compute; reflexivity|right; vm_compute; reflexivity].
Defined.

(** A hundred and twenty variables, in three parts. *)
Definition many : list VariableInput := List.map (fun n => demo_input ("V" +:+ Num.print (Z.of_nat n)) "x" "recoverable") (seq 0 120).

Lemma variables_written_in_parts_witness :
  let '(o, s') := setVariables (Api := plain_api) demo_scope many no_variables in
  o = Got tt /\ stored s' = upsert demo_scope many (stored no_variables) /\ List.map (@List.length VariableInput) (parts many) = [50; 50; 20]%nat.
Proof.
  destruct (setVariables demo_scope many no_variables) as [o s'] eqn:E.
  destruct (variables_written_in_parts plain_laws demo_scope many no_variables s' o E) as [H Hup].
  assert (Ho : o = Got tt) by (apply (Hup plain_up); [vm_compute; reflexivity|apply (bool_decide_unpack _); vm_compute; exact I]).
  rewrite Ho in H. split; [exact Ho|]. split; [exact H|]. vm_compute. reflexivity.
Defined.
