(* ===== verification/EnvFile.v ===== *)
(** * Importing a .env text

    web/apps/dashboard/app/(app)/[workspaceSlug]/projects/[projectId]/apps/[appId]/(overview)/env-vars/hooks/use-drop-zone.ts:
    the parser of the text and the rows of the form after an import. *)

From Stdlib Require Import ZArith Bool Ascii String Lia.
From stdpp Require Import base list gmap strings.
From S2P Require Import Prelude Helpers EnvVars.

Local Open Scope string_scope.

(** ** The parser *)

Definition CR : ascii := ascii_of_nat 13.
Definition LF : ascii := ascii_of_nat 10.
Definition single_quote : ascii := ascii_of_nat 39.

(** [text.replace(/\r\n/g, "\n")] *)
Fixpoint fold_crlf (s : string) : string :=
  match s with
  | EmptyString => EmptyString
  | String c r =>
      match r with
      | String d r' => if Ascii.eqb c CR && Ascii.eqb d LF then String LF (fold_crlf r') else String c (fold_crlf r)
      | EmptyString => s
      end
  end.

(** The parts before and behind the first occurrence. *)
Fixpoint cut_at (c : ascii) (s : string) : option (string * string) :=
  match s with
  | EmptyString => None
  | String d r => if Ascii.eqb d c then Some (EmptyString, r) else match cut_at c r with Some (a, b) => Some (String d a, b) | None => None end
  end.

Record EnvEntry := { entry_key : string; entry_value : string }.

Definition is_quote (c : ascii) : bool := Ascii.eqb c double_quote || Ascii.eqb c single_quote.

(** The quote a value opens with and does not close, and the text behind it. *)
Definition unclosed (value : string) : option (ascii * string) :=
  match value with
  | String q r => if is_quote q && negb (Str.has_char q r) then Some (q, r) else None
  | EmptyString => None
  end.

(** The lines up to the closing quote, and the lines behind. *)
Fixpoint collect (quote : ascii) (lines : list string) : list string * list string :=
  match lines with
  | [] => ([], [])
  | line :: rest =>
      match cut_at quote line with
      | Some (a, _) => ([a], rest)
      | None => let '(l, rest') := collect quote rest in (line :: l, rest')
      end
  end.

Fixpoint last_of (s : string) : option ascii :=
  match s with EmptyString => None | String c EmptyString => Some c | String _ r => last_of r end.

Fixpoint init_of (s : string) : string :=
  match s with EmptyString => EmptyString | String c EmptyString => EmptyString | String c r => String c (init_of r) end.

(** A value between two equal quotes loses them. *)
Definition unquote (value : string) : string :=
  match value with
  | String q r => if (2 <=? String.length value)%nat && is_quote q && bool_decide (last_of r = Some q) then init_of r else value
  | EmptyString => value
  end.

(** The loop over the lines: each turn takes one line at least, so the number of lines
    is fuel enough. *)
Fixpoint parse_lines (fuel : nat) (lines : list string) : list EnvEntry :=
  match fuel, lines with
  | S n, line :: rest =>
      let trimmed := Str.trim line in
      if negb (Js.truthy_string trimmed) || String.prefix "#" trimmed then parse_lines n rest
      else
        match cut_at "=" trimmed with
        | None => parse_lines n rest
        | Some (k, v) =>
            let key := Str.trim k in
            let value := Str.trim v in
            match unclosed value with
            | Some (quote, first) =>
                let '(collected, rest') := collect quote rest in
                {| entry_key := key; entry_value := Str.join (String LF EmptyString) (first :: collected) |} :: parse_lines n rest'
            | None => {| entry_key := key; entry_value := unquote value |} :: parse_lines n rest
            end
        end
  | _, _ => []
  end.

Definition parseEnvText (text : string) : list EnvEntry :=
  let lines := Str.split_on LF (Str.trim (fold_crlf text)) in
  parse_lines (List.length lines) lines.

(** ** The import *)

Record EnvVarRow := { er_key : string; er_value : string; er_description : option string }.

(** [map.set(key, row)] keeps the place of a key that is there. *)
Fixpoint map_put (r : EnvEntry) (m : list EnvEntry) : list EnvEntry :=
  match m with
  | [] => [r]
  | x :: m' => if String.eqb (entry_key x) (entry_key r) then r :: m' else x :: map_put r m'
  end.

Definition deduped (parsed : list EnvEntry) : list EnvEntry := fold_left (fun m r => map_put r m) parsed [].

Definition not_blank (r : EnvVarRow) : bool :=
  Js.truthy_string (er_key r) || Js.truthy_string (er_value r) || Js.truthy_string (Js.coalesce (er_description r) EmptyString).

(** The rows of the form after the import; [None] leaves the form as it is. *)
Definition importParsed (parsed : list EnvEntry) (allRows : list EnvVarRow) : option (list EnvVarRow) :=
  let existing := List.filter not_blank allRows in
  let existingKeys := List.map er_key (List.filter (fun r => Js.truthy_string (er_key r)) allRows) in
  match List.filter (fun r => negb (Js.includes existingKeys (entry_key r))) (deduped parsed) with
  | [] => None
  | newRows =>
      Some (existing ++ List.map (fun r => {| er_key := entry_key r; er_value := entry_value r; er_description := Some EmptyString |}) newRows)%list
  end.

Definition importText (text : string) (allRows : list EnvVarRow) : option (list EnvVarRow) :=
  match parseEnvText text with [] => None | entries => importParsed entries allRows end.

Definition dq (s : string) : string := String double_quote (s +:+ String double_quote EmptyString).

Example parse_runs :
  parseEnvText ("# comment" +:+ String LF ("A = 1 " +:+ String LF ("B=" +:+ dq "x y" +:+ String LF ("C='--" +:+ String LF ("key" +:+ String LF "--'")))))
  = [{| entry_key := "A"; entry_value := "1" |}; {| entry_key := "B"; entry_value := "x y" |};
     {| entry_key := "C"; entry_value := "--" +:+ String LF ("key" +:+ String LF "--") |}].
Proof. reflexivity. Qed.

(** ** Reading back what was written *)

(** A variable in quotes, as a .env text has it. *)
Definition print_entry (e : EnvEntry) : string := entry_key e +:+ "=" +:+ dq (entry_value e).

Definition print_env (l : list EnvEntry) : string := Str.join (String LF EmptyString) (List.map print_entry l).

(** A value whose text survives: no double quote and no carriage return, and no space at
    the end of a first line that others follow. *)
Definition value_fits (v : string) : bool :=
  negb (Str.has_char double_quote v) && negb (Str.has_char CR v)
  && match cut_at LF v with Some (first, _) => String.eqb (Str.trim_end first) first | None => true end.

Definition entry_fits (e : EnvEntry) : bool := is_name (entry_key e) && value_fits (entry_value e).

Lemma fold_crlf_id s : Str.has_char CR s = false -> fold_crlf s = s.
Proof.
  induction s as [|c r IH]; [done|]. cbn [Str.has_char]. intros [Hc Hr]%orb_false_elim. cbn [fold_crlf]. rewrite Hc.
  destruct r as [|d r']; [done|]. cbn [andb]. by rewrite IH.
Qed.

Lemma cut_at_none c s : Str.has_char c s = false -> cut_at c s = None.
Proof. induction s as [|d r IH]; [done|]. cbn. intros [-> Hr]%orb_false_elim. by rewrite IH. Qed.

Lemma cut_at_app c a b : Str.has_char c a = false -> cut_at c (a +:+ String c b) = Some (a, b).
Proof.
  induction a as [|d r IH]; [intros _; change (EmptyString +:+ String c b) with (String c b); cbn; by rewrite Ascii.eqb_refl|]. cbn [Str.has_char]. intros [Hd Hr]%orb_false_elim.
  rewrite StrFacts.string_app_cons. cbn. by rewrite Hd, IH.
Qed.

Lemma name_char_plain c : name_char c = true -> Str.is_space c = false /\ Ascii.eqb c "=" = false /\ Ascii.eqb c LF = false
  /\ Ascii.eqb c CR = false /\ Ascii.eqb c "#" = false.
Proof. destruct c as [[] [] [] [] [] [] [] []]; vm_compute; intros H; try discriminate H; done. Qed.

(** A name starts with a character that is no space and no hash, and all of its
    characters are plain. *)
Lemma name_shape k : is_name k = true -> exists c r, k = String c r /\ name_char c = true /\ Str.all_chars name_char k = true.
Proof.
  destruct k as [|c r]; [done|]. cbn. intros [Hc Hr]%andb_prop. exists c, r. unfold name_char at 1 2. rewrite Hc. by split.
Qed.

Lemma trim_end_plain p s : (forall c, p c = true -> Str.is_space c = false) -> Str.all_chars p s = true -> Str.trim_end s = s.
Proof.
  intros Hp. induction s as [|c r IH]; [done|]. cbn [Str.all_chars Str.trim_end]. intros [Hc Hr]%andb_prop.
  rewrite (IH Hr), (Hp c Hc). by destruct r.
Qed.

Lemma trim_name k : is_name k = true -> Str.trim k = k.
Proof.
  intros H. destruct (name_shape k H) as (c & r & -> & Hc & Ha). unfold Str.trim. cbn [Str.trim_start].
  destruct (name_char_plain c Hc) as (-> & _). apply (trim_end_plain name_char); [|done]. intros x Hx. by destruct (name_char_plain x Hx).
Qed.

Lemma has_no_char k (c : ascii) : is_name k = true -> name_char c = false -> Str.has_char c k = false.
Proof. intros H Hc. destruct (name_shape k H) as (_ & _ & _ & _ & Ha). by apply (StrFacts.all_chars_no name_char). Qed.

(** A line that starts with a name and whose end is no space is not trimmed. *)
Lemma trim_line k s : is_name k = true -> s <> EmptyString -> Str.trim_end s = s -> Str.trim (k +:+ s) = k +:+ s.
Proof.
  intros H Hs He. destruct (name_shape k H) as (c & r & -> & Hc & _). unfold Str.trim. rewrite StrFacts.string_app_cons. cbn [Str.trim_start].
  destruct (name_char_plain c Hc) as (-> & _). rewrite <- StrFacts.string_app_cons. by apply Duration.trim_end_app.
Qed.

Lemma last_of_app a c : last_of (a +:+ String c EmptyString) = Some c.
Proof. induction a as [|d r IH]; [done|]. rewrite StrFacts.string_app_cons. cbn. rewrite IH. by destruct r. Qed.

Lemma init_of_app a c : init_of (a +:+ String c EmptyString) = a.
Proof. induction a as [|d r IH]; [done|]. rewrite StrFacts.string_app_cons. cbn. rewrite IH. by destruct r. Qed.

Lemma trim_quote s : Str.trim (dq s) = dq s.
Proof.
  unfold Str.trim, dq. cbn [Str.trim_start]. change (Str.is_space double_quote) with false. cbv iota.
  change (Str.trim_end (String double_quote s +:+ String double_quote "") = String double_quote s +:+ String double_quote "").
  by apply Duration.trim_end_app.
Qed.

(** The turn of the loop for a line that starts with a name and an equals sign. *)
Lemma parse_turn n k v line rest :
  is_name k = true -> line = k +:+ "=" +:+ v -> Str.trim line = line ->
  parse_lines (S n) (line :: rest) =
    match unclosed (Str.trim v) with
    | Some (quote, first) =>
        let '(collected, rest') := collect quote rest in
        {| entry_key := k; entry_value := Str.join (String LF EmptyString) (first :: collected) |} :: parse_lines n rest'
    | None => {| entry_key := k; entry_value := unquote (Str.trim v) |} :: parse_lines n rest
    end.
Proof.
  intros Hk Hl Ht. cbn [parse_lines]. rewrite Ht. destruct (name_shape k Hk) as (c & r & E & Hc & _).
  assert (Hp : negb (Js.truthy_string line) || String.prefix "#" line = false).
  { rewrite Hl, E. destruct (name_char_plain c Hc) as (_ & _ & _ & _ & Hh). rewrite StrFacts.string_app_cons. cbn [Js.truthy_string].
    destruct (ascii_dec "#" c) as [<-|Hne]; [discriminate Hh|]. 
    unfold Js.truthy_string. cbn [String.eqb String.prefix negb orb]. by destruct (ascii_dec "#" c). }
  rewrite Hp, Hl. change ("=" +:+ v) with (String "=" v). rewrite cut_at_app by (by apply has_no_char).
  by rewrite (trim_name k Hk).
Qed.

Lemma unclosed_closed v : unclosed (dq v) = None.
Proof.
  unfold unclosed, dq. rewrite StrFacts.has_char_app. cbn. rewrite orb_true_r. done.
Qed.

Lemma unquote_dq v : unquote (dq v) = v.
Proof.
  unfold unquote, dq. rewrite last_of_app, init_of_app, bool_decide_true by done. cbn [String.length].
  rewrite StrFacts.length_app_string. cbn [String.length]. by rewrite Nat.add_comm.
Qed.

(** The lines of a quoted value are collected up to the line that ends with the quote. *)
Lemma collect_lines (l : list string) last rest :
  Forall (fun s => Str.has_char double_quote s = false) l -> Str.has_char double_quote last = false ->
  collect double_quote (l ++ (last +:+ String double_quote EmptyString) :: rest)%list = ((l ++ [last])%list, rest).
Proof.
  intros Hl Hx. induction Hl as [|s l Hs Hl IH]; cbn [collect app].
  - by rewrite cut_at_app.
  - by rewrite cut_at_none, IH.
Qed.

(** A join is split into the lines of its parts. *)
Lemma split_join_lines sep (l : list string) :
  l <> [] -> Str.split_on sep (Str.join (String sep EmptyString) l) = flat_map (Str.split_on sep) l.
Proof.
  assert (Happ : forall a b, Str.split_on sep (a +:+ String sep b) = (Str.split_on sep a ++ Str.split_on sep b)%list).
  { intros a b. induction a as [|c a IH].
    - change (EmptyString +:+ String sep b) with (String sep b). cbn. by rewrite Ascii.eqb_refl.
    - rewrite StrFacts.string_app_cons. cbn. rewrite IH. destruct (Ascii.eqb c sep); [done|].
      by destruct (Str.split_on sep a) eqn:E; [apply StrFacts.split_on_ne in E|]. }
  induction l as [|x l IH]; [done|]. intros _. destruct l as [|y l]; [cbn; by rewrite app_nil_r|].
  change (Str.join (String sep EmptyString) (x :: y :: l)) with (x +:+ String sep (Str.join (String sep EmptyString) (y :: l))).
  rewrite Happ, IH by done. done.
Qed.

Lemma cut_at_eq c s a b : cut_at c s = Some (a, b) -> s = a +:+ String c b /\ Str.has_char c a = false.
Proof.
  revert a. induction s as [|d r IH]; [done|]. cbn. intros a. destruct (Ascii.eqb_spec d c) as [->|Hd]; [by intros [= <- <-]|].
  destruct (cut_at c r) as [[a' b']|]; [|done]. intros [= <- <-]. destruct (IH a' eq_refl) as [-> Ha]. split; [done|].
  cbn. rewrite Ha. by destruct (Ascii.eqb_spec d c).
Qed.

Lemma cut_at_none_inv c s : cut_at c s = None -> Str.has_char c s = false.
Proof. induction s as [|d r IH]; [done|]. cbn. destruct (Ascii.eqb d c); [done|]. destruct (cut_at c r) as [[]|]; [done|]. auto. Qed.

Lemma has_char_parts c d s : Str.has_char c s = false -> Forall (fun p => Str.has_char c p = false) (Str.split_on d s).
Proof.
  induction s as [|x r IH]; cbn; [by repeat constructor|]. intros [Hx Hr]%orb_false_elim. specialize (IH Hr).
  destruct (Ascii.eqb x d); [by constructor|]. destruct (Str.split_on d r) as [|p ps]; inv IH; constructor; cbn; by rewrite ?Hx.
Qed.

(** The end of the last line. *)
Lemma join_snoc sep (l : list string) last q :
  Str.join sep (l ++ [last])%list +:+ q = Str.join sep (l ++ [last +:+ q])%list.
Proof.
  induction l as [|x l IH]; [done|].
  destruct (l ++ [last])%list as [|y m] eqn:E; [by destruct l|]. destruct (l ++ [last +:+ q])%list as [|y' m'] eqn:E'; [by destruct l|].
  cbn [app]. rewrite E, E'. unfold Str.join in *. cbn [String.concat] in *.
  change (String.append x (String.append sep (String.concat sep (y :: m)))) with (x +:+ (sep +:+ String.concat sep (y :: m))).
  rewrite !StrFacts.string_app_assoc, IH. done.
Qed.

(** The lines of a variable whose value has several. *)
Lemma entry_lines (k first v : string) :
  is_name k = true -> Str.has_char LF first = false ->
  exists l last, Str.split_on LF v = (l ++ [last])%list
    /\ Str.split_on LF (k +:+ "=" +:+ dq (first +:+ String LF v))
       = (k +:+ "=" +:+ String double_quote first) :: (l ++ [last +:+ String double_quote EmptyString])%list.
Proof.
  intros Hk Hf. destruct (exists_last (StrFacts.split_on_ne LF v)) as (l & last & E). exists l, last. split; [done|].
  assert (Hv : v = Str.join (String LF EmptyString) (l ++ [last])%list) by (rewrite <- E; symmetry; apply StrFacts.join_split).
  pose proof (StrFacts.split_on_parts LF v) as Hp. rewrite E in Hp. apply Forall_app in Hp as [Hl Hlast]. apply Forall_cons in Hlast as [H1 _].
  replace (k +:+ "=" +:+ dq (first +:+ String LF v))
    with ((k +:+ "=" +:+ String double_quote first) +:+ String LF (v +:+ String double_quote EmptyString)).
  - change ((k +:+ "=" +:+ String double_quote first) +:+ String LF (v +:+ String double_quote EmptyString))
      with (String.append (k +:+ "=" +:+ String double_quote first) (String LF (v +:+ String double_quote EmptyString))).
    rewrite StrFacts.split_on_app. 2: { rewrite !StrFacts.has_char_app, (has_no_char k LF Hk eq_refl). cbn. exact Hf. }
    f_equal. rewrite Hv, join_snoc. apply StrFacts.split_join; [by destruct l|]. apply Forall_app. split; [done|].
    constructor; [|constructor]. by rewrite StrFacts.has_char_app, H1.
  - unfold dq. rewrite !StrFacts.string_app_assoc. done.
Qed.

(** A variable is read and the lines behind it are left. *)
Lemma parse_entry e n rest :
  entry_fits e = true ->
  parse_lines (S n) (Str.split_on LF (print_entry e) ++ rest)%list = e :: parse_lines n rest.
Proof.
  destruct e as [k v]. unfold entry_fits, value_fits, print_entry. cbn [entry_key entry_value]. intros H. bool_hyps.
  rename H into Hk. destruct (cut_at LF v) as [[first v']|] eqn:Ec.
  - destruct (cut_at_eq _ _ _ _ Ec) as [-> Hf]. destruct (entry_lines k first v' Hk Hf) as (l & last & Ev & ->).
    match goal with Hq : Str.has_char double_quote _ = false |- _ => rewrite StrFacts.has_char_app in Hq; apply orb_false_elim in Hq as [Hq1 Hq2] end.
    cbn [Str.has_char] in Hq2. change (Ascii.eqb LF double_quote) with false in Hq2. cbn [orb] in Hq2.
    pose proof (has_char_parts double_quote LF v' Hq2) as Hp. rewrite Ev in Hp. apply Forall_app in Hp as [Hl Hlast].
    apply Forall_cons in Hlast as [Hlast _].
    assert (Ht : Str.trim_end (String double_quote first) = String double_quote first).
    { cbn [Str.trim_end]. rewrite (proj1 (String.eqb_eq _ _) H1). by destruct first. }
    cbn [app]. rewrite (parse_turn n k (String double_quote first) _ _ Hk eq_refl).
    2: { apply trim_line; [done|done|]. by apply (Duration.trim_end_app "="). }
    assert (Htr : Str.trim (String double_quote first) = String double_quote first) by exact Ht.
    rewrite Htr. unfold unclosed. rewrite Hq1. cbn [is_quote]. change (is_quote double_quote && negb false) with true. cbv iota.
    rewrite <- app_assoc. cbn [app]. rewrite collect_lines by done. f_equal. f_equal.
    rewrite <- Ev. unfold Str.join.
    destruct (Str.split_on LF v') as [|y m] eqn:Es; [by apply StrFacts.split_on_ne in Es|].
    change (String.concat (String LF EmptyString) (first :: y :: m)) with (first +:+ String LF (String.concat (String LF EmptyString) (y :: m))).
    rewrite <- Es. f_equal. f_equal. apply (StrFacts.join_split LF v').
  - apply cut_at_none_inv in Ec. rewrite StrFacts.split_on_none.
    2: { unfold dq. rewrite !StrFacts.has_char_app, (has_no_char k LF Hk eq_refl). cbn. rewrite StrFacts.has_char_app, Ec. done. }
    cbn [app]. rewrite (parse_turn n k (dq v) _ _ Hk eq_refl).
    2: { apply trim_line; [done|done|]. apply (Duration.trim_end_app "="); [done|]. exact (trim_quote v). }
    by rewrite trim_quote, unclosed_closed, unquote_dq.
Qed.

(** More fuel than lines reads the same. *)
Lemma parse_fuel n m lines : (List.length lines <= n)%nat -> (List.length lines <= m)%nat -> parse_lines n lines = parse_lines m lines.
Proof.
  assert (Hc : forall q l, (List.length (snd (collect q l)) <= List.length l)%nat).
  { intros q l. induction l as [|x l IH]; [done|]. cbn. destruct (cut_at q x) as [[]|]; [cbn; lia|]. destruct (collect q l). cbn in *. lia. }
  revert m lines. induction n as [|n IH]; intros m lines Hn Hm.
  - destruct lines; [by destruct m|cbn in Hn; lia].
  - destruct lines as [|line rest]; [by destruct m|]. destruct m as [|m]; [cbn in Hm; lia|]. cbn [List.length] in *. cbn [parse_lines].
    assert (E : parse_lines n rest = parse_lines m rest) by (apply IH; lia). rewrite E.
    destruct (_ || _); [done|]. destruct (cut_at "=" _) as [[k v]|]; [|done]. destruct (unclosed _) as [[q first]|]; [|done].
    specialize (Hc q rest). destruct (collect q rest) as [c rest']. cbn in Hc. rewrite (IH m rest') by lia. done.
Qed.

Lemma parse_entries l n :
  Forall (fun e => entry_fits e = true) l -> (List.length (flat_map (Str.split_on LF) (List.map print_entry l)) <= n)%nat ->
  parse_lines n (flat_map (Str.split_on LF) (List.map print_entry l)) = l.
Proof.
  intros Hl. revert n. induction Hl as [|e l He Hl IH]; intros n Hn; [by destruct n|]. cbn [List.map flat_map] in *.
  rewrite length_app in Hn.
  assert (Hp : (0 < List.length (Str.split_on LF (print_entry e)))%nat).
  { destruct (Str.split_on LF (print_entry e)) eqn:E; [by apply StrFacts.split_on_ne in E|cbn; lia]. }
  destruct n as [|n]; [lia|]. rewrite parse_entry by done. by rewrite IH by lia.
Qed.

Lemma print_env_cons e y l : print_env (e :: y :: l) = entry_key e +:+ ("=" +:+ dq (entry_value e) +:+ String LF (print_env (y :: l))).
Proof.
  unfold print_env. cbn [List.map]. change (Str.join (String LF "") (print_entry e :: print_entry y :: List.map print_entry l))
    with (print_entry e +:+ String LF (Str.join (String LF "") (List.map print_entry (y :: l)))).
  unfold print_entry at 1. by rewrite !StrFacts.string_app_assoc.
Qed.

(** The text ends with a quote. *)
Lemma print_env_end l : l <> [] -> print_env l <> EmptyString /\ Str.trim_end (print_env l) = print_env l.
Proof.
  assert (Hne : forall a b, b <> EmptyString -> a +:+ b <> EmptyString) by (intros [|] b Hb E; [by apply Hb|done]).
  induction l as [|e l IH]; [done|]. intros _. destruct l as [|y l].
  - change (print_env [e]) with (entry_key e +:+ ("=" +:+ dq (entry_value e))). split; [by apply Hne|].
    apply Duration.trim_end_app; [done|]. apply (Duration.trim_end_app "="); [done|]. exact (trim_quote _).
  - rewrite print_env_cons. destruct IH as [Hn He]; [done|]. split; [by apply Hne|].
    apply Duration.trim_end_app; [done|]. apply (Duration.trim_end_app "="); [by apply Hne|]. apply Duration.trim_end_app; [done|].
    by apply (Duration.trim_end_app (String LF EmptyString)).
Qed.

Lemma print_env_cr l : Forall (fun e => entry_fits e = true) l -> Str.has_char CR (print_env l) = false.
Proof.
  assert (Hx : forall e, entry_fits e = true -> Str.has_char CR (print_entry e) = false).
  { intros e He. unfold entry_fits, value_fits in He. unfold print_entry, dq. bool_hyps. rewrite !StrFacts.has_char_app, (has_no_char _ CR H eq_refl).
    cbn. rewrite StrFacts.has_char_app. by rewrite H2. }
  intros Hl. induction Hl as [|e l He Hl IH]; [done|]. destruct l as [|y l]; [exact (Hx e He)|].
  rewrite print_env_cons. specialize (Hx e He). unfold print_entry in Hx. rewrite !StrFacts.has_char_app in *. apply orb_false_elim in Hx as [-> Hx].
  apply orb_false_elim in Hx as [-> ->]. exact IH.
Qed.

(** The text of variables is not trimmed and has no carriage return. *)
Lemma print_env_plain l : l <> [] -> Forall (fun e => entry_fits e = true) l -> Str.trim (fold_crlf (print_env l)) = print_env l.
Proof.
  intros Hne Hl. rewrite fold_crlf_id by (by apply print_env_cr). destruct (print_env_end l Hne) as [_ He].
  destruct l as [|e l]; [done|]. apply Forall_cons in Hl as [Hf _]. unfold entry_fits in Hf. apply andb_prop in Hf as [Hk _].
  destruct (name_shape _ Hk) as (c & r & Ek & Hc & _).
  assert (Es : exists s, print_env (e :: l) = String c s).
  { destruct l as [|y l]; [change (print_env [e]) with (entry_key e +:+ ("=" +:+ dq (entry_value e)))|rewrite print_env_cons];
      rewrite Ek, StrFacts.string_app_cons; by eexists. }
  destruct Es as [s Es]. unfold Str.trim. rewrite Es in *. cbn [Str.trim_start]. by destruct (name_char_plain c Hc) as (-> & _).
Qed.

(** Claim C38. What a .env text says is what is imported. A text with a line [NAME="value"]
    for each variable, values of several lines included, is read as these variables in
    their order, when the names are names of variables and the values hold no double
    quote and no carriage return, and no space ends the first of several lines. *)
Theorem env_text_round_trip (l : list EnvEntry) :
  Forall (fun e => entry_fits e = true) l -> parseEnvText (print_env l) = l.
Proof.
  intros Hl. destruct l as [|e l]; [done|]. unfold parseEnvText. rewrite print_env_plain by done.
  assert (E : Str.split_on LF (print_env (e :: l)) = flat_map (Str.split_on LF) (List.map print_entry (e :: l)))
    by (apply split_join_lines; done).
  rewrite E. by apply parse_entries.
Qed.

Definition pem : EnvEntry := {| entry_key := "PEM"; entry_value := "-----BEGIN" +:+ String LF ("abc=" +:+ String LF ("" +:+ String LF "-----END")) |}.

Lemma env_text_round_trip_witness :
  parseEnvText (print_env [{| entry_key := "A"; entry_value := " # x " |}; pem; {| entry_key := "_b2"; entry_value := "" |}])
  = [{| entry_key := "A"; entry_value := " # x " |}; pem; {| entry_key := "_b2"; entry_value := "" |}].
Proof. apply env_text_round_trip. repeat constructor. Defined.

(** ** The rows after an import *)

Definition row_of (r : EnvEntry) : EnvVarRow := {| er_key := entry_key r; er_value := entry_value r; er_description := Some EmptyString |}.

(** The value of the last variable with the key. *)
Definition last_value (parsed : list EnvEntry) (k : string) : option string :=
  option_map entry_value (List.find (fun r => String.eqb (entry_key r) k) (List.rev parsed)).

Definition lookup_key (m : list EnvEntry) (k : string) : option string :=
  option_map entry_value (List.find (fun r => String.eqb (entry_key r) k) m).

Lemma map_put_lookup r m k :
  lookup_key (map_put r m) k = if String.eqb (entry_key r) k then Some (entry_value r) else lookup_key m k.
Proof.
  unfold lookup_key. induction m as [|x m IH]; cbn [map_put List.find]; [by destruct (String.eqb (entry_key r) k)|].
  destruct (String.eqb_spec (entry_key x) (entry_key r)) as [E|E]; cbn [List.find].
  - rewrite E. by destruct (String.eqb (entry_key r) k).
  - rewrite IH || idtac. destruct (String.eqb_spec (entry_key x) k) as [<-|]; [|done].
    by rewrite (proj2 (String.eqb_neq _ _) (fun H => E (eq_sym H))).
Qed.

Lemma map_put_keys r m : List.map entry_key (map_put r m) = List.map entry_key m \/ ~ In (entry_key r) (List.map entry_key m)
  /\ List.map entry_key (map_put r m) = (List.map entry_key m ++ [entry_key r])%list.
Proof.
  induction m as [|x m IH]; cbn [map_put List.map]; [right; split; [intros []|done]|].
  destruct (String.eqb_spec (entry_key x) (entry_key r)) as [E|E]; cbn [List.map]; [left; by rewrite E|].
  destruct IH as [->|[Hn ->]]; [by left|]. right. split; [|done]. intros [?|?]; [done|by apply Hn].
Qed.

(** A map has each key once, with the value set last. *)
Lemma deduped_spec parsed : NoDup (List.map entry_key (deduped parsed)) /\ forall k, lookup_key (deduped parsed) k = last_value parsed k.
Proof.
  unfold deduped. induction parsed as [|r parsed IH] using rev_ind; [split; [constructor|done]|].
  rewrite fold_left_app. cbn [fold_left]. destruct IH as [Hd Hk]. split.
  - destruct (map_put_keys r (fold_left (fun m r => map_put r m) parsed [])) as [->|[Hn ->]]; [done|].
    apply NoDup_app. split; [done|]. split; [|apply NoDup_singleton]. intros x Hx ->%list_elem_of_singleton. by apply Hn, list_elem_of_In.
  - intros k. rewrite map_put_lookup, Hk. unfold last_value. rewrite rev_app_distr. cbn. by destruct (String.eqb (entry_key r) k).
Qed.

Lemma lookup_In m k v : NoDup (List.map entry_key m) -> lookup_key m k = Some v <-> In {| entry_key := k; entry_value := v |} m.
Proof.
  unfold lookup_key. induction m as [|x m IH]; [done|]. cbn [List.map List.find]. intros [Hx Hd]%NoDup_cons. rewrite list_elem_of_In in Hx.
  destruct (String.eqb_spec (entry_key x) k) as [E|E].
  - cbn. split; [intros [= <-]; left; rewrite <- E; by destruct x|]. intros [->|Hin]; [done|]. destruct Hx. rewrite E.
    by apply (in_map entry_key) in Hin.
  - rewrite (IH Hd). split; [by right|]. intros [->|]; [by destruct E|done].
Qed.

Lemma NoDup_filter_keys (p : EnvEntry -> bool) m : NoDup (List.map entry_key m) -> NoDup (List.map entry_key (List.filter p m)).
Proof.
  induction m as [|x m IH]; [done|]. cbn [List.map List.filter]. intros [Hx Hd]%NoDup_cons. destruct (p x); [|by apply IH].
  cbn [List.map]. apply NoDup_cons. split; [|by apply IH]. rewrite list_elem_of_In in *. intros (y & Ey & [Hy _]%filter_In)%in_map_iff.
  apply Hx. rewrite <- Ey. by apply in_map.
Qed.

(** An import adds variables and replaces none. The rows of the form that are
    not blank stay as they are, and behind them come the variables of the text whose keys
    no row has, each key once, with the value it was given last; without such a variable
    the form stays as it is. *)
Theorem import_adds (parsed : list EnvEntry) (allRows : list EnvVarRow) :
  let existingKeys := List.map er_key (List.filter (fun r => Js.truthy_string (er_key r)) allRows) in
  exists added,
    NoDup (List.map entry_key added)
    /\ (forall k v, In {| entry_key := k; entry_value := v |} added <-> last_value parsed k = Some v /\ ~ In k existingKeys)
    /\ importParsed parsed allRows =
       match added with [] => None | _ => Some (List.filter not_blank allRows ++ List.map row_of added)%list end.
Proof.
  cbv zeta. set (existingKeys := List.map er_key _). destruct (deduped_spec parsed) as [Hd Hk].
  exists (List.filter (fun r => negb (Js.includes existingKeys (entry_key r))) (deduped parsed)).
  split; [by apply NoDup_filter_keys|]. split; [|unfold importParsed; fold existingKeys; by destruct (List.filter _ (deduped parsed))].
  intros k v. rewrite filter_In, <- lookup_In, Hk, negb_true_iff by done. cbn [entry_key].
  rewrite <- not_true_iff_false, StrFacts.includes_In. done.
Qed.
