(* ===== verification/Deployments.v ===== *)
(** * Deployments and custom domains

    web/apps/dashboard/lib/ctrl-client.ts, lib/trpc/routers/deploy/custom-domains (add.ts,
    delete.ts, retry.ts, list.ts) and lib/trpc/routers/deploy/deployment (cancel.ts and
    authorize.ts). The control plane acts for whatever workspace, project or deployment a
    request names; the procedures check who asks before they send it. *)

From Stdlib Require Import ZArith Bool Ascii String Lia.
From stdpp Require Import base list gmap strings.
From S2P Require Import Prelude Tables StripeTypes DeployPlan CtrlTypes Effects Fixtures BillingOps AuthProvider Trpc Store Github Authorization EnvVars.

Local Open Scope Z_scope.

(** ** The client *)

Definition createCtrlClient : M unit :=
  e <- appEnv ;;
  if negb (Js.truthy (CTRL_URL e)) || negb (Js.truthy (CTRL_API_KEY e)) then
    throw (TRPCError "PRECONDITION_FAILED" "ctrl service is not configured")
  else ret tt.

Definition ctrl_actor (c : WCtx) : CtrlActor :=
  {| ca_id := user_id (c_user c); ca_remoteIp := c_location c; ca_userAgent := Js.coalesce (c_userAgent c) EmptyString |}.

(** ** Custom domains *)

Definition owned_project (ws projectId : string) (p : Project) : bool :=
  String.eqb (project_id p) projectId && String.eqb (project_workspaceId p) ws.

Definition find_project (ws projectId : string) : M unit :=
  project <- find_first schema_projects (fun _ => owned_project ws projectId) ;;
  match project with
  | None => throw (not_found "Project not found")
  | Some _ => ret tt
  end.

Definition project_environment (projectId environmentId : string) (e : Environment) : bool :=
  String.eqb (en_id e) environmentId && String.eqb (en_projectId e) projectId.

(** The domain column has the collation of the server. *)
Definition same_domain (fold : string -> string) (domain : string) (d : CustomDomain) : bool :=
  String.eqb (fold (cd_domain d)) (fold domain).

(** [routes.projects.apps.settings] *)
Definition app_settings_route (workspaceSlug projectId appId : string) : string :=
  "/" +:+ workspaceSlug +:+ "/projects/" +:+ projectId +:+ "/apps/" +:+ appId +:+ "/settings".

Record AddedDomain := {
  added_domainId : string;
  added_targetCname : string;
  added_status : string;
  added_domainConnectProvider : option string;
  added_domainConnectUrl : option string;
}.

(** [s || null] *)
Definition or_null (s : string) : option string := if Js.truthy_string s then Some s else None.

Definition add_failed (domain : string) (c : WCtx) (error : Exn) : M AddedDomain :=
  match error with
  | ConnectError code _ =>
      if String.eqb code "already_exists" then
        existing <- find_first schema_customDomains (fun fold d => String.eqb (cd_workspaceId d) (cw_id (c_workspace c)) && same_domain fold domain d) ;;
        throw (conflict (match existing with
                         | Some d => app_settings_route (cw_slug (c_workspace c)) (cd_projectId d) (cd_appId d)
                         | None => "Domain already registered"%string
                         end))
      else throw (internal "Failed to add custom domain")
  | _ => throw (internal "Failed to add custom domain")
  end.

Definition addCustomDomain (projectId environmentId domain : string) : WCtx -> M AddedDomain :=
  withRatelimit "trpc_create" (fun c =>
    let ws := cw_id (c_workspace c) in
    createCtrlClient ;;
    find_project ws projectId ;;
    environment <- find_first schema_environments (fun _ => project_environment projectId environmentId) ;;
    match environment with
    | None => throw (not_found "Environment not found")
    | Some e =>
        catch (
          response <- call (Ctrl (AddCustomDomain {| ad_workspaceId := ws; ad_projectId := projectId; ad_appId := en_appId e;
                                                     ad_environmentId := environmentId; ad_domain := domain; ad_actor := ctrl_actor c |})) ;;
          ret {| added_domainId := dr_domainId response; added_targetCname := dr_targetCname response; added_status := dr_status response;
                 added_domainConnectProvider := or_null (dr_domainConnectProvider response);
                 added_domainConnectUrl := or_null (dr_domainConnectUrl response) |})
          (add_failed domain c)
    end).

Definition owned_domain (fold : string -> string) (ws projectId domain : string) (d : CustomDomain) : bool :=
  same_domain fold domain d && String.eqb (cd_projectId d) projectId && String.eqb (cd_workspaceId d) ws.

(** The checks before a request about a domain. *)
Definition find_domain (ws projectId domain : string) : M unit :=
  find_project ws projectId ;;
  customDomain <- find_first schema_customDomains (fun fold => owned_domain fold ws projectId domain) ;;
  match customDomain with
  | None => throw (not_found "Domain not found for project")
  | Some _ => ret tt
  end.

Definition says_not_found (error : Exn) : bool :=
  match error_message error with Some m => Str.contains "not found" m | None => false end.

Definition domain_failed {A} (message : string) (error : Exn) : M A :=
  if says_not_found error then throw (not_found "Domain not found") else throw (internal message).

Definition domain_request (c : WCtx) (projectId domain : string) : DomainRequest :=
  {| dq_workspaceId := cw_id (c_workspace c); dq_projectId := projectId; dq_domain := domain; dq_actor := ctrl_actor c |}.

Definition deleteCustomDomain (domain projectId : string) : WCtx -> M bool :=
  withRatelimit "trpc_delete" (fun c =>
    createCtrlClient ;;
    find_domain (cw_id (c_workspace c)) projectId domain ;;
    catch (call (Ctrl (DeleteCustomDomain (domain_request c projectId domain))) ;; ret true)
      (domain_failed "Failed to delete custom domain")).

Definition retryVerification (domain projectId : string) : WCtx -> M string :=
  withRatelimit "trpc_create" (fun c =>
    createCtrlClient ;;
    find_domain (cw_id (c_workspace c)) projectId domain ;;
    catch (status <- call (Ctrl (RetryVerification (domain_request c projectId domain))) ;; ret (status : string))
      (domain_failed "Failed to retry verification")).

Definition newer (a b : CustomDomain) : bool := cd_createdAt b <? cd_createdAt a.

Definition listCustomDomains (projectId : string) : WCtx -> M (list CustomDomain) :=
  withRatelimit "trpc_read" (fun c =>
    find_project (cw_id (c_workspace c)) projectId ;;
    catch (domains <- find_many schema_customDomains (fun _ d => String.eqb (cd_projectId d) projectId) ;; ret (sort_by newer domains))
      (fun _ => throw (internal "Failed to list custom domains"))).

(** ** Deployments *)

Definition TERMINAL_STATUSES : list string := ["ready"; "failed"; "skipped"; "stopped"]%string.

Definition owned_deployment (ws deploymentId : string) (d : Deployment) : bool :=
  String.eqb (dep_id d) deploymentId && String.eqb (dep_workspaceId d) ws.

(** The deployment with its project, as the relational query joins it. *)
Definition find_deployment (ws deploymentId : string) : M (Deployment * option Project) :=
  deployment <- select (fun _ d =>
    option_map (fun x => (x, List.find (fun p => String.eqb (project_id p) (dep_projectId x)) (d schema_projects)))
      (List.find (owned_deployment ws deploymentId) (d schema_deployments))) ;;
  match deployment with
  | None => throw (not_found "Deployment not found or access denied")
  | Some x => ret x
  end.

(** [deployment.project.name] *)
Definition project_name_of (p : option Project) : M string :=
  match p with Some p => ret (project_name p) | None => throw (OtherError "TypeError: deployment.project is null") end.

Definition cancelDeployment (deploymentId : string) : WCtx -> M unit :=
  withRatelimit "trpc_update" (fun c =>
    found <- find_deployment (cw_id (c_workspace c)) deploymentId ;;
    let deployment := fst found in
    if Js.includes TERMINAL_STATUSES (dep_status deployment) then
      throw (TRPCError "PRECONDITION_FAILED" ("Deployment is already " +:+ dep_status deployment))
    else
      createCtrlClient ;;
      hide_errors "Failed to cancel deployment" (
        call (Ctrl (CancelDeployment deploymentId)) ;;
        name <- project_name_of (snd found) ;;
        insertAuditLogs [rbac_log c "deployment.cancel" ("Cancelled deployment " +:+ deploymentId +:+ " for " +:+ name)
          [resource "deployment" (dep_id deployment) (Some name)] None])).

Definition authorizeDeployment (deploymentId : string) : WCtx -> M unit :=
  withRatelimit "trpc_update" (fun c =>
    found <- find_deployment (cw_id (c_workspace c)) deploymentId ;;
    let deployment := fst found in
    createCtrlClient ;;
    hide_errors "Failed to authorize deployment" (
      call (Ctrl (AuthorizeDeployment deploymentId)) ;;
      name <- project_name_of (snd found) ;;
      insertAuditLogs [rbac_log c "deployment.authorize" ("Authorized deployment " +:+ deploymentId +:+ " for " +:+ name)
        [resource "project" (dep_projectId deployment) (Some name)] None])).

(** ** What reaches the control plane *)

Inductive CtrlProcedure :=
| RAddDomain (projectId environmentId domain : string)
| RDeleteDomain (domain projectId : string)
| RRetryDomain (domain projectId : string)
| RListDomains (projectId : string)
| RCancel (deploymentId : string)
| RAuthorize (deploymentId : string).

Definition serve_ctrl (r : CtrlProcedure) (c : WCtx) : M unit :=
  match r with
  | RAddDomain p e d => addCustomDomain p e d c ;; ret tt
  | RDeleteDomain d p => deleteCustomDomain d p c ;; ret tt
  | RRetryDomain d p => retryVerification d p c ;; ret tt
  | RListDomains p => listCustomDomains p c ;; ret tt
  | RCancel d => cancelDeployment d c
  | RAuthorize d => authorizeDeployment d c
  end.

(** The actor of a request is the user of the context. *)
Definition acts_for (c : WCtx) (a : CtrlActor) : Prop :=
  ca_id a = user_id (c_user c) /\ ca_remoteIp a = c_location c
  /\ ca_userAgent a = match c_userAgent c with Some agent => agent | None => EmptyString end.

(** A request to the control plane that the procedure [r] may send on the tables [d]; those
    about custom domains carry an actor. *)
Definition entitled (fold : string -> string) (d : Tables) (c : WCtx) (r : CtrlProcedure) (q : CtrlCall) : Prop :=
  let ws := cw_id (c_workspace c) in
  let owns projectId := exists p, In p (d schema_projects) /\ project_id p = projectId /\ project_workspaceId p = ws in
  let has_domain projectId domain :=
    exists x, In x (d schema_customDomains) /\ fold (cd_domain x) = fold domain /\ cd_projectId x = projectId /\ cd_workspaceId x = ws in
  let deployed id ok := exists x, In x (d schema_deployments) /\ dep_id x = id /\ dep_workspaceId x = ws /\ ok (dep_status x) in
  match r, q with
  | RAddDomain projectId environmentId domain, AddCustomDomain a =>
      owns projectId
      /\ exists e, In e (d schema_environments) /\ en_id e = environmentId /\ en_projectId e = projectId
      /\ ad_workspaceId a = ws /\ ad_projectId a = projectId /\ ad_appId a = en_appId e /\ ad_environmentId a = environmentId
      /\ ad_domain a = domain /\ acts_for c (ad_actor a)
  | RDeleteDomain domain projectId, DeleteCustomDomain a | RRetryDomain domain projectId, RetryVerification a =>
      owns projectId /\ has_domain projectId domain /\ dq_workspaceId a = ws /\ dq_projectId a = projectId /\ dq_domain a = domain
      /\ acts_for c (dq_actor a)
  | RCancel id, CancelDeployment id' => id' = id /\ deployed id (fun status => ~ In status ["ready"; "failed"; "skipped"; "stopped"]%string)
  | RAuthorize id, AuthorizeDeployment id' => id' = id /\ deployed id (fun _ => True)
  | _, _ => False
  end.

Definition ctrl_ok (P : CtrlCall -> Prop) (call : Call) : Prop := match call with Ctrl q => P q | _ => True end.

(** Every call that [m] makes on the database [d] satisfies [Q]. *)
Definition EmitsOn {A} (env : Env) (d : Db) (Q : Call -> Prop) (m : M A) : Prop :=
  forall w, db w = d -> exists l, trace (snd (m env w)) = trace w ++ l /\ Forall Q l.

Section EmitsOn.

Context (env : Env) (d : Db) (P : CtrlCall -> Prop).

Lemma silent_run {A} (m : M A) w :
  Emits (ctrl_ok (fun _ => False)) m -> exists l, trace (snd (m env w)) = trace w ++ l /\ Forall (ctrl_ok P) l.
Proof. intros Hm. apply (Emits_weaken (ctrl_ok (fun _ => False)) (ctrl_ok P) m); [|done]. by intros []. Qed.

Lemma EmitsOn_silent {A} (m : M A) : Emits (ctrl_ok (fun _ => False)) m -> EmitsOn env d (ctrl_ok P) m.
Proof. intros Hm w _. by apply silent_run. Qed.

Lemma EmitsOn_bind {A B} (m : M A) (k : A -> M B) Q :
  ReadOnly m -> EmitsOn env d Q m -> (forall w a w1, db w = d -> m env w = (Ret a, w1) -> EmitsOn env d Q (k a)) -> EmitsOn env d Q (bind m k).
Proof.
  intros Hr Hm Hk w Hw. unfold bind. destruct (Hm w Hw) as (l & Hl & Hp). specialize (Hk w). specialize (Hr env w).
  destruct (m env w) as [[a|e] w']; cbn [snd] in *; [|by exists l].
  destruct (Hk a w' Hw eq_refl w') as (l' & Hl' & Hp'); [congruence|]. exists (l ++ l'). rewrite Hl', Hl, app_assoc. split; [done|]. by apply Forall_app.
Qed.

Lemma EmitsOn_catch {A} (m : M A) h :
  EmitsOn env d (ctrl_ok P) m -> (forall e, Emits (ctrl_ok (fun _ => False)) (h e)) -> EmitsOn env d (ctrl_ok P) (catch m h).
Proof.
  intros Hm Hh w Hw. unfold catch. destruct (Hm w Hw) as (l & Hl & Hp).
  destruct (m env w) as [[a|e] w']; cbn [snd] in *; [by exists l|].
  destruct (silent_run (h e) w' (Hh e)) as (l' & Hl' & Hp'). exists (l ++ l'). rewrite Hl', Hl, app_assoc. split; [done|]. by apply Forall_app.
Qed.

Lemma EmitsOn_ctrl q : P q -> EmitsOn env d (ctrl_ok P) (call (Ctrl q)).
Proof. intros HP w _. by apply (Emits_call (ctrl_ok P) (Ctrl q) HP env w). Qed.

End EmitsOn.

(** Silent steps. *)
Lemma silent_client : Emits (ctrl_ok (fun _ => False)) createCtrlClient /\ ReadOnly createCtrlClient.
Proof. unfold createCtrlClient. split; effects. Qed.

Lemma silent_first t p : Emits (ctrl_ok (fun _ => False)) (find_first t p).
Proof. unfold find_first. effects. Qed.

Lemma silent_project ws p : Emits (ctrl_ok (fun _ => False)) (find_project ws p) /\ ReadOnly (find_project ws p).
Proof. unfold find_project, find_first. split; effects. Qed.

Lemma silent_domain ws p n : Emits (ctrl_ok (fun _ => False)) (find_domain ws p n) /\ ReadOnly (find_domain ws p n).
Proof. unfold find_domain, find_project, find_first. split; effects. Qed.

Lemma silent_deployment ws i : Emits (ctrl_ok (fun _ => False)) (find_deployment ws i) /\ ReadOnly (find_deployment ws i).
Proof. unfold find_deployment. split; effects. Qed.

Lemma silent_name p : Emits (ctrl_ok (fun _ => False)) (project_name_of p) /\ ReadOnly (project_name_of p).
Proof. unfold project_name_of. split; effects. Qed.

Lemma silent_limit n u : Emits (ctrl_ok (fun _ => False)) (limit_allows n u) /\ ReadOnly (limit_allows n u).
Proof.
  split; [|apply ReadOnly_limit_allows]. unfold limit_allows.
  apply Emits_bind; [apply Emits_appEnv|intros a]. destruct (Js.truthy _); [|apply Emits_ret].
  apply Emits_catch; [by apply (Emits_call _ (RatelimitLimit n u))|intros; apply Emits_ret].
Qed.

(** What the checks found. *)
Lemma find_project_ret ws p env w u w' :
  find_project ws p env w = (Ret u, w') -> exists x, In x (tables (db w) schema_projects) /\ project_id x = p /\ project_workspaceId x = ws.
Proof.
  unfold find_project. intros H. apply bind_ret in H as (x & w1 & H1 & H). apply find_first_ret in H1 as [Ef _]. destruct x as [x|]; [|done].
  apply List.find_some in Ef as [Hin Hx]. unfold owned_project in Hx. bool_hyps. by exists x.
Qed.

Lemma find_domain_ret ws p n env w u w' :
  find_domain ws p n env w = (Ret u, w') ->
  (exists x, In x (tables (db w) schema_projects) /\ project_id x = p /\ project_workspaceId x = ws)
  /\ exists x, In x (tables (db w) schema_customDomains) /\ collation env (cd_domain x) = collation env n /\ cd_projectId x = p /\ cd_workspaceId x = ws.
Proof.
  unfold find_domain. intros H. apply bind_ret in H as (v & w1 & H1 & H). pose proof (read_ret _ _ _ _ _ (proj2 (silent_project ws p)) H1) as E.
  apply find_project_ret in H1. split; [done|].
  apply bind_ret in H as (x & w2 & H2 & H). apply find_first_ret in H2 as [Ef _]. destruct x as [x|]; [|done]. rewrite E in Ef.
  apply List.find_some in Ef as [Hin Hx]. unfold owned_domain, same_domain in Hx. bool_hyps. by exists x.
Qed.

Lemma find_deployment_ret ws i env w x w' :
  find_deployment ws i env w = (Ret x, w') -> In (fst x) (tables (db w) schema_deployments) /\ dep_id (fst x) = i /\ dep_workspaceId (fst x) = ws.
Proof.
  unfold find_deployment. intros H. apply bind_ret in H as (o & w1 & H1 & H). apply select_tables in H1 as [Ef _].
  destruct o as [z|]; [|done]. apply ret_ret in H as [-> _]. destruct (List.find (owned_deployment ws i) _) as [y|] eqn:Ey; [|done]. injection Ef as <-.
  apply List.find_some in Ey as [Hin Hx]. unfold owned_deployment in Hx. bool_hyps. done.
Qed.

Section Procedures.

Context (env : Env) (d : Db) (c : WCtx).

Abbreviation may r := (ctrl_ok (entitled (collation env) (tables d) c r)).

Lemma on_limited {A} n (h : WCtx -> M A) r : EmitsOn env d (may r) (h c) -> EmitsOn env d (may r) (withRatelimit n h c).
Proof.
  intros Hh. unfold withRatelimit. destruct (silent_limit n (user_id (c_user c))) as [He Hr].
  apply EmitsOn_bind; [done|by apply EmitsOn_silent|]. intros w [] w1 _ _; [done|]. apply EmitsOn_silent, Emits_throw.
Qed.

(** A silent step that reads. *)
Lemma on_read {A B} (m : M A) (k : A -> M B) r :
  Emits (ctrl_ok (fun _ => False)) m /\ ReadOnly m -> (forall w a w1, db w = d -> m env w = (Ret a, w1) -> EmitsOn env d (may r) (k a)) ->
  EmitsOn env d (may r) (bind m k).
Proof. intros [He Hr] Hk. apply EmitsOn_bind; [done|by apply EmitsOn_silent|done]. Qed.

(** A request, and a silent end. *)
Lemma on_ctrl {B} q (k : CtrlResp q -> M B) r :
  entitled (collation env) (tables d) c r q -> (forall a, Emits (ctrl_ok (fun _ => False)) (k a)) ->
  EmitsOn env d (may r) (bind (call (Ctrl q)) k).
Proof.
  intros Hq Hk. apply EmitsOn_bind; [apply ReadOnly_call|by apply EmitsOn_ctrl|]. intros w a w1 _ _. by apply EmitsOn_silent.
Qed.

Lemma on_domain_failed {A} m e : Emits (ctrl_ok (fun _ => False)) (domain_failed (A := A) m e).
Proof. unfold domain_failed. effects. Qed.

Lemma on_add p e n : EmitsOn env d (may (RAddDomain p e n)) (addCustomDomain p e n c).
Proof.
  apply on_limited. apply on_read; [apply silent_client|]. intros w0 _ w1 _ _. apply on_read; [apply silent_project|].
  intros w u w2 Hw Hp. apply find_project_ret in Hp. rewrite Hw in Hp.
  apply on_read; [split; [apply silent_first|apply ReadOnly_find_first]|]. intros w3 environment w4 Hw3 He. apply find_first_ret in He as [Ef _].
  rewrite Hw3 in Ef. destruct environment as [x|]; [|apply EmitsOn_silent, Emits_throw]. apply List.find_some in Ef as [Hin Hx].
  unfold project_environment in Hx. bool_hyps. apply EmitsOn_catch.
  - apply on_ctrl; [|intros; apply Emits_ret]. split; [done|]. by exists x.
  - intros err. unfold add_failed. destruct err; try apply Emits_throw. destruct (String.eqb _ _); [|apply Emits_throw].
    apply Emits_bind; [apply silent_first|intros; apply Emits_throw].
Qed.

Lemma on_delete n p : EmitsOn env d (may (RDeleteDomain n p)) (deleteCustomDomain n p c).
Proof.
  apply on_limited. apply on_read; [apply silent_client|]. intros w0 _ w1 _ _. apply on_read; [apply silent_domain|].
  intros w u w2 Hw Hp. apply find_domain_ret in Hp as [Hp Hd]. rewrite Hw in *.
  apply EmitsOn_catch; [|intros; apply on_domain_failed]. by apply on_ctrl; [|intros; apply Emits_ret].
Qed.

Lemma on_retry n p : EmitsOn env d (may (RRetryDomain n p)) (retryVerification n p c).
Proof.
  apply on_limited. apply on_read; [apply silent_client|]. intros w0 _ w1 _ _. apply on_read; [apply silent_domain|].
  intros w u w2 Hw Hp. apply find_domain_ret in Hp as [Hp Hd]. rewrite Hw in *.
  apply EmitsOn_catch; [|intros; apply on_domain_failed]. by apply (on_ctrl (RetryVerification _)); [|intros; apply Emits_ret].
Qed.

Lemma silent_hide {A} m e : Emits (ctrl_ok (fun _ => False)) (match e with TRPCError _ _ => throw (A := A) e | _ => throw (internal m) end).
Proof. destruct e; apply Emits_throw. Qed.

Lemma silent_log o (log : string -> UnkeyAuditLog) : Emits (ctrl_ok (fun _ => False)) (name <- project_name_of o ;; insertAuditLogs [log name]).
Proof. apply Emits_bind; [apply silent_name|]. intros n. apply Emits_insertAuditLogs; intros; exact I. Qed.

Lemma on_cancel i : EmitsOn env d (may (RCancel i)) (cancelDeployment i c).
Proof.
  apply on_limited. apply on_read; [apply silent_deployment|]. intros w x w1 Hw Hx. apply find_deployment_ret in Hx as (Hin & Hi & Hws). rewrite Hw in Hin.
  cbv zeta. destruct (Js.includes _ _) eqn:Et; [apply EmitsOn_silent, Emits_throw|].
  apply on_read; [apply silent_client|]. intros w0 _ w2 _ _. apply EmitsOn_catch; [|intros; apply silent_hide].
  apply on_ctrl; [|intros; apply silent_log]. split; [done|]. exists (fst x). repeat split; try done.
  intros Hs. apply StrFacts.includes_In in Hs. unfold TERMINAL_STATUSES in Et. congruence.
Qed.

Lemma on_authorize i : EmitsOn env d (may (RAuthorize i)) (authorizeDeployment i c).
Proof.
  apply on_limited. apply on_read; [apply silent_deployment|]. intros w x w1 Hw Hx. apply find_deployment_ret in Hx as (Hin & Hi & Hws). rewrite Hw in Hin.
  cbv zeta. apply on_read; [apply silent_client|]. intros w0 _ w2 _ _. apply EmitsOn_catch; [|intros; apply silent_hide].
  apply on_ctrl; [|intros; apply silent_log]. split; [done|]. by exists (fst x).
Qed.

Lemma on_list p : EmitsOn env d (may (RListDomains p)) (listCustomDomains p c).
Proof.
  apply on_limited. apply EmitsOn_silent. apply Emits_bind; [apply silent_project|intros _]. apply Emits_catch; [|intros; apply Emits_throw].
  unfold find_many. effects.
Qed.

End Procedures.

(** The event of the audit log that a request about a deployment leaves. *)
Definition deployment_event (r : CtrlProcedure) : option string :=
  match r with
  | RCancel _ => Some "deployment.cancel"%string
  | RAuthorize _ => Some "deployment.authorize"%string
  | _ => None
  end.

(** The one new row of the audit log, of the workspace and with the user as its actor. *)
Definition logged_for (c : WCtx) (event : string) (d d' : Db) : Prop :=
  exists row, d' = apply_stmt (InsertOutbox [row]) d /\ outbox_workspaceId row = cw_id (c_workspace c)
    /\ envelope_event (outbox_payload row) = event /\ actor_type (envelope_actor (outbox_payload row)) = "user"%string
    /\ actor_id (envelope_actor (outbox_payload row)) = user_id (c_user c).

(** The end of the two procedures on deployments. *)
Lemma ctrl_then_log q p (log : string -> UnkeyAuditLog) message c event env w u w' :
  (forall name, log_workspaceId (log name) = cw_id (c_workspace c) /\ log_event (log name) = event /\ log_actor (log name) = user_actor c) ->
  hide_errors message (call (Ctrl q) ;; name <- project_name_of p ;; insertAuditLogs [log name]) env w = (Ret u, w') ->
  logged_for c event (db w) (db w').
Proof.
  destruct u. intros Hlog H. apply catch_ret in H as [H|(e & w1 & _ & H)]; [|by destruct e]. apply bind_ret in H as (a & w1 & H1 & H).
  call_in H1 D1. apply bind_ret in H as (name & w2 & H2 & H). apply read_ret in H2 as D2; [|apply silent_name].
  apply insert_log_ret in H as (row & H & H3 & H4 & _ & H5). destruct (Hlog name) as (L1 & L2 & L3). exists row.
  rewrite H, D2, D1, H3, H4, H5, L1, L2, L3. done.
Qed.

Lemma deployment_logged r event c env w w' :
  deployment_event r = Some event -> serve_ctrl r c env w = (Ret tt, w') -> logged_for c event (db w) (db w').
Proof.
  destruct r as [| | | |i|i]; cbn [deployment_event serve_ctrl]; try done; intros [= <-] H; unfold cancelDeployment, authorizeDeployment, withRatelimit in H;
    apply bind_ret in H as ([] & w1 & H1 & H); try done; (apply read_ret in H1; [|apply ReadOnly_limit_allows]); rewrite <- H1;
    apply bind_ret in H as (x & w2 & H2 & H); (apply read_ret in H2; [|apply silent_deployment]); rewrite <- H2; cbv zeta in H;
    try (destruct (Js.includes _ _); [done|]); apply bind_ret in H as (y & w3 & H3 & H); (apply read_ret in H3; [|apply silent_client]); rewrite <- H3;
    (eapply ctrl_then_log; [|exact H]); done.
Qed.

(** Claim C15. The control plane is asked only for what belongs to the caller. Whatever
    the procedure, its input and the answers of the services, a request to the control
    plane is the one that the procedure stands for. A request about a custom domain names
    the workspace of the caller, a project of that workspace, an environment or a recorded
    domain of that project, and carries the caller as actor. A request to cancel or to
    authorize carries only the id of a deployment, which a row of the caller's workspace
    has; a deployment that is ready, failed, skipped or stopped is not cancelled; and when
    such a procedure returns, one audit log of the workspace names the caller. *)
Theorem ctrl_calls_entitled (r : CtrlProcedure) (c : WCtx) (env : Env) (w : World) :
  let '(o, w') := serve_ctrl r c env w in
  (exists l, trace w' = trace w ++ l /\ forall q, In (Ctrl q) l -> entitled (collation env) (tables (db w)) c r q)
  /\ (forall event, deployment_event r = Some event -> o = Ret tt -> logged_for c event (db w) (db w')).
Proof.
  assert (H : EmitsOn env (db w) (ctrl_ok (entitled (collation env) (tables (db w)) c r)) (serve_ctrl r c)).
  { assert (Hr : forall A (m : M A), EmitsOn env (db w) (ctrl_ok (entitled (collation env) (tables (db w)) c r)) m ->
      EmitsOn env (db w) (ctrl_ok (entitled (collation env) (tables (db w)) c r)) (m ;; ret tt)).
    { intros A m Hm w0 Hw. destruct (Hm w0 Hw) as (l & Hl & Hp). exists l. unfold bind. by destruct (m env w0) as [[a|e] w1]. }
    destruct r; cbn [serve_ctrl]; [apply Hr, on_add|apply Hr, on_delete|apply Hr, on_retry|apply Hr, on_list|apply on_cancel|apply on_authorize]. }
  destruct (H w eq_refl) as (l & Hl & Hp). destruct (serve_ctrl r c env w) as [o w'] eqn:E. split.
  - exists l. split; [done|]. intros q Hq. exact (proj1 (List.Forall_forall _ _) Hp (Ctrl q) Hq).
  - intros event He ->. by eapply deployment_logged.
Qed.

(** ** Samples *)

Definition demo_deployment (status : string) : Deployment :=
  {| dep_id := "d_1"; dep_k8sName := "d-1"; dep_workspaceId := "ws_1"; dep_projectId := "proj_1"; dep_status := status |}.

Definition demo_domain (ws : string) : CustomDomain :=
  {| cd_id := "dom_1"; cd_workspaceId := ws; cd_projectId := "proj_1"; cd_appId := "app_1"; cd_environmentId := "env_1";
     cd_domain := "Api.Example.com"; cd_verificationStatus := "verified"; cd_verificationToken := "t"; cd_ownershipVerified := true;
     cd_cnameVerified := true; cd_targetCname := "k3"; cd_checkAttempts := 1; cd_lastCheckedAt := None; cd_verificationError := None;
     cd_domainConnectProvider := None; cd_domainConnectUrl := None; cd_createdAt := 1; cd_updatedAt := None |}.

Definition deploy_db (status ws : string) : Db :=
  with_tables (put schema_deployments [demo_deployment status] (put schema_customDomains [demo_domain ws]
    (put schema_projects [{| project_id := "proj_1"; project_workspaceId := "ws_1"; project_name := "Shop"; project_slug := "shop";
                             project_deleteProtection := None |}] (fun _ => [])))) free_db.

Definition ctrl_run (r : CtrlProcedure) (d : Db) : Outcome unit * list CtrlCall * nat :=
  let '(o, w') := serve_ctrl r (demo_ctx d) demo_env (world_of d) in
  (o, omap (fun c => match c with Ctrl q => Some q | _ => None end) (trace w'), List.length (clickhouse_outbox (db w'))).

(** A domain of another workspace is not deleted, nor is a ready deployment cancelled;
    a domain is found whatever the case of its letters. *)
Example ctrl_runs :
  ctrl_run (RDeleteDomain "api.example.com" "proj_1") (deploy_db "building" "ws_2") = (Throw (not_found "Domain not found for project"), [], O)
  /\ snd (fst (ctrl_run (RDeleteDomain "api.example.com" "proj_1") (deploy_db "building" "ws_1")))
     = [DeleteCustomDomain (domain_request (demo_ctx (deploy_db "building" "ws_1")) "proj_1" "api.example.com")]
  /\ ctrl_run (RCancel "d_1") (deploy_db "ready" "ws_1") = (Throw (TRPCError "PRECONDITION_FAILED" "Deployment is already ready"), [], O).
Proof. repeat split; vm_compute; reflexivity. Qed.

(** A deployment that is cancelled already, or superseded, can be cancelled again, which
    writes another audit log. *)
Theorem cancelled_again :
  ctrl_run (RCancel "d_1") (deploy_db "cancelled" "ws_1") = (Ret tt, [CancelDeployment "d_1"], 1%nat)
  /\ ctrl_run (RCancel "d_1") (deploy_db "superseded" "ws_1") = (Ret tt, [CancelDeployment "d_1"], 1%nat).
Proof. split; vm_compute; reflexivity. Qed.
