(* ===== verification/LeakedKeys.v ===== *)
(** * Leaked keys

    web/apps/dashboard/app/api/v1/github/verify (verify-signature.ts and route.ts): the
    cache of GitHub's public keys, shared by the webhooks that are handled at the same
    time; the check of a signature; the classification of the reported tokens; and the
    notifications. The handlers interleave where the code awaits: a step of the cache is
    the arrival of a webhook, the end of a request to GitHub, or the continuation of a
    webhook that waited for it. *)

From Stdlib Require Import ZArith Bool Ascii String Lia.
From stdpp Require Import base list gmap strings.
From S2P Require Import Prelude Tables.

Local Open Scope Z_scope.

(** ** The public keys *)

Record PublicKey := { pk_identifier : string; pk_key : string; pk_is_current : bool }.
Abbreviation PublicKeys := (list PublicKey).

Definition KEYS_TTL_MS : Z := 60 * 60 * 1000.

(** How a request to GitHub ends: keys, a response that is refused, or a rejection of
    [fetch] or of [response.json()]. *)
Inductive Fetched := FetchedKeys (keys : PublicKeys) | FetchedNull | FetchRejected.

(** What a webhook gets of [getGithubKeys]: keys, null, or an exception. *)
Inductive Keys := GotKeys (keys : PublicKeys) | GotNull | GotThrow.

(** The variables of the module, the webhooks that await the request in flight, and
    those whose request has ended and that have not continued. *)
Record Cache := {
  cachedKeys : option PublicKeys;
  cachedAt : Z;
  inFlight : bool;
  waiting : list nat;
  ready : list (nat * Fetched);
}.

Definition empty_cache : Cache := {| cachedKeys := None; cachedAt := 0; inFlight := false; waiting := []; ready := [] |}.

(** What is observed: a request is sent, ends, and a webhook gets its keys. *)
Inductive Event := SentFetch | EndedFetch (r : Fetched) | Answered (hook : nat) (k : Keys).

Definition fresh_cache (now : Z) (s : Cache) : option PublicKeys :=
  match cachedKeys s with Some keys => if now - cachedAt s <? KEYS_TTL_MS then Some keys else None | None => None end.

(** [getGithubKeys] up to the await. *)
Definition arrive (hook : nat) (now : Z) (s : Cache) : Cache * list Event :=
  match fresh_cache now s with
  | Some keys => (s, [Answered hook (GotKeys keys)])
  | None =>
      ({| cachedKeys := cachedKeys s; cachedAt := cachedAt s; inFlight := true; waiting := waiting s ++ [hook]; ready := ready s |},
       if inFlight s then [] else [SentFetch])
  end.

(** The request ends: [finally] clears the variable, the webhooks can continue. *)
Definition end_fetch (r : Fetched) (s : Cache) : Cache * list Event :=
  ({| cachedKeys := cachedKeys s; cachedAt := cachedAt s; inFlight := false; waiting := [];
      ready := ready s ++ List.map (fun h => (h, r)) (waiting s) |}, [EndedFetch r]).

(** [getGithubKeys] behind the await. *)
Definition resume (hook : nat) (r : Fetched) (now : Z) (rest : list (nat * Fetched)) (s : Cache) : Cache * list Event :=
  match r with
  | FetchedKeys keys =>
      ({| cachedKeys := Some keys; cachedAt := now; inFlight := inFlight s; waiting := waiting s; ready := rest |},
       [Answered hook (GotKeys keys)])
  | FetchedNull =>
      ({| cachedKeys := cachedKeys s; cachedAt := cachedAt s; inFlight := inFlight s; waiting := waiting s; ready := rest |},
       [Answered hook (match cachedKeys s with Some keys => GotKeys keys | None => GotNull end)])
  | FetchRejected =>
      ({| cachedKeys := cachedKeys s; cachedAt := cachedAt s; inFlight := inFlight s; waiting := waiting s; ready := rest |},
       [Answered hook GotThrow])
  end.

(** A state with the events so far. *)
Inductive cache_step : Cache * list Event -> Cache * list Event -> Prop :=
| step_arrive hook now s tr s' ev :
    arrive hook now s = (s', ev) -> cache_step (s, tr) (s', tr ++ ev)
| step_end r s tr s' ev :
    inFlight s = true -> end_fetch r s = (s', ev) -> cache_step (s, tr) (s', tr ++ ev)
| step_resume hook r now before after s tr s' ev :
    ready s = before ++ (hook, r) :: after -> resume hook r now (before ++ after) s = (s', ev) -> cache_step (s, tr) (s', tr ++ ev).

Definition reachable (s : Cache) (tr : list Event) : Prop := rtc cache_step (empty_cache, []) (s, tr).

(** ** The signature *)

(** [crypto.createVerify("SHA256").update(payload).verify(key, signature)] *)
Definition verifyGitSignature (verify : string -> string -> string -> bool) (publicKeys : Keys) (payload signature keyId : string) : option bool :=
  match publicKeys with
  | GotThrow => None
  | GotNull => Some false
  | GotKeys keys =>
      match List.find (fun k => String.eqb (pk_identifier k) keyId) keys with
      | None => Some false
      | Some k => Some (verify (pk_key k) payload signature)
      end
  end.

(** ** The cache only serves what GitHub served *)

Definition served (tr : list Event) (keys : PublicKeys) : Prop := In (EndedFetch (FetchedKeys keys)) tr.

Definition count_sent (tr : list Event) : nat := List.length (List.filter (fun e => match e with SentFetch => true | _ => false end) tr).
Definition count_ended (tr : list Event) : nat := List.length (List.filter (fun e => match e with EndedFetch _ => true | _ => false end) tr).

Record cache_ok (s : Cache) (tr : list Event) : Prop := {
  ok_cached : forall keys, cachedKeys s = Some keys -> served tr keys;
  ok_ready : forall h keys, In (h, FetchedKeys keys) (ready s) -> served tr keys;
  ok_answers : forall h keys, In (Answered h (GotKeys keys)) tr -> served tr keys;
  ok_flight : count_sent tr = (count_ended tr + if inFlight s then 1 else 0)%nat;
  ok_waiting : inFlight s = false -> waiting s = [];
}.

Lemma served_app tr ev keys : served tr keys -> served (tr ++ ev) keys.
Proof. intros H. apply List.in_app_iff. by left. Qed.

Lemma count_app tr ev : count_sent (tr ++ ev) = (count_sent tr + count_sent ev)%nat /\ count_ended (tr ++ ev) = (count_ended tr + count_ended ev)%nat.
Proof. unfold count_sent, count_ended. by rewrite !List.filter_app, !length_app. Qed.

(** New events that answer one webhook. *)
Lemma answers_app tr ev keys h :
  (forall h keys, In (Answered h (GotKeys keys)) tr -> served tr keys) ->
  (forall h keys, In (Answered h (GotKeys keys)) ev -> served tr keys) ->
  In (Answered h (GotKeys keys)) (tr ++ ev) -> served (tr ++ ev) keys.
Proof. intros H1 H2 [H|H]%List.in_app_iff; apply served_app; eauto. Qed.

Lemma cache_step_ok s tr s' tr' : cache_ok s tr -> cache_step (s, tr) (s', tr') -> cache_ok s' tr'.
Proof.
  intros [Hc Hr Ha Hf Hw] Hs. inversion Hs as [hook now s0 tr0 s1 ev E|r s0 tr0 s1 ev Hfl E|hook r now before after s0 tr0 s1 ev Er E]; subst.
  - unfold arrive, fresh_cache in E. destruct (count_app tr ev) as [C1 C2].
    destruct (match cachedKeys s with Some keys => _ | None => _ end) as [keys|] eqn:Ek.
    + assert (Hk : served tr keys).
      { destruct (cachedKeys s) as [k|] eqn:Ec; [|done]. destruct (_ <? _); [|done]. injection Ek as ->. by apply Hc. }
      injection E as <- <-. split; eauto using served_app; [|rewrite C1, C2; cbn; lia].
      intros h k. apply (answers_app _ _ _ h); [done|]. by intros h' k' [[= <- <-]|[]].
    + injection E as <- <-. split; cbn; eauto using served_app; [|rewrite C1, C2; destruct (inFlight s); cbn; lia|done].
      intros h k. apply (answers_app _ _ _ h); [done|]. intros h' k' Hin. by destruct (inFlight s); [destruct Hin|destruct Hin as [Hin|[]]].
  - injection E as <- <-. destruct (count_app tr [EndedFetch r]) as [C1 C2]. split; cbn; eauto using served_app.
    + intros h keys [Hin|Hin]%List.in_app_iff; [eauto using served_app|]. apply List.in_map_iff in Hin as (h' & [= -> ->] & _).
      apply List.in_app_iff. right. by left.
    + intros h k. apply (answers_app _ _ _ h); [done|]. by intros h' k' [Hin|[]].
    + rewrite C1, C2, Hf, Hfl. cbn. lia.
  - assert (Hin : forall x, In x (before ++ after) -> In x (ready s)) by (intros x; rewrite Er, !List.in_app_iff; cbn; tauto).
    assert (Hr' : forall k, r = FetchedKeys k -> served tr k) by (intros k ->; apply (Hr hook); rewrite Er; apply List.in_app_iff; right; by left).
    destruct (count_app tr ev) as [C1 C2]. destruct r as [keys| |]; injection E as <- <-.
    + specialize (Hr' keys eq_refl). split; cbn; eauto using served_app; [intros k [= <-]; by apply served_app| |rewrite C1, C2; cbn; lia].
      intros h k. apply (answers_app _ _ _ h); [done|]. by intros h' k' [[= <- <-]|[]].
    + split; cbn; eauto using served_app; [|rewrite C1, C2; cbn; lia].
      intros h k. apply (answers_app _ _ _ h); [done|]. intros h' k' [Hin'|[]]. destruct (cachedKeys s) as [k0|] eqn:Ec; [|done].
      injection Hin' as <- <-. by apply Hc.
    + split; cbn; eauto using served_app; [|rewrite C1, C2; cbn; lia].
      intros h k. apply (answers_app _ _ _ h); [done|]. by intros h' k' [Hin'|[]].
Qed.

Lemma reachable_ok s tr : reachable s tr -> cache_ok s tr.
Proof.
  intros H. refine (rtc_ind_r (fun p => cache_ok p.1 p.2) (empty_cache, []) _ _ (s, tr) H); [split; cbn; done|].
  intros [s1 tr1] [s2 tr2] _ Hs IH. by eapply cache_step_ok.
Qed.

(** Claim C28. However the webhooks interleave, at most one request for the public keys is
    in flight, and a webhook is accepted only when its signature verifies under a key that
    GitHub served in a response, with the identifier the webhook names. *)
Theorem accepted_under_served_key (verify : string -> string -> string -> bool) (s : Cache) (tr : list Event) :
  reachable s tr ->
  (count_sent tr <= S (count_ended tr))%nat
  /\ forall hook k payload signature keyId, In (Answered hook k) tr ->
     verifyGitSignature verify k payload signature keyId = Some true ->
     exists keys key, served tr keys /\ In key keys /\ pk_identifier key = keyId /\ verify (pk_key key) payload signature = true.
Proof.
  intros [_ _ Ha Hf _]%reachable_ok. split; [destruct (inFlight s); lia|].
  intros hook k payload signature keyId Hin Hv. destruct k as [keys| |]; [|discriminate..]. cbn in Hv.
  destruct (List.find _ keys) as [key|] eqn:Ef; [|discriminate]. injection Hv as Hv. apply List.find_some in Ef as [Hk Ei].
  exists keys, key. split_and!; [by apply (Ha hook)|done|by apply String.eqb_eq|done].
Qed.

Definition demo_key : PublicKey := {| pk_identifier := "k1"; pk_key := "pem"; pk_is_current := true |}.

(** Two webhooks wait for one request; a third arrives when the keys are old, and its
    request is rejected. *)
Definition demo_events : list Event :=
  [SentFetch; EndedFetch (FetchedKeys [demo_key]); Answered 1 (GotKeys [demo_key]); Answered 0 (GotKeys [demo_key]);
   SentFetch; EndedFetch FetchRejected; Answered 2 GotThrow].

Definition demo_cache : Cache := {| cachedKeys := Some [demo_key]; cachedAt := 20; inFlight := false; waiting := []; ready := [] |}.

Lemma demo_reachable : reachable demo_cache demo_events.
Proof.
  eapply rtc_l; [apply (step_arrive 0%nat 0); reflexivity|].
  eapply rtc_l; [apply (step_arrive 1%nat 5); reflexivity|].
  eapply rtc_l; [apply (step_end (FetchedKeys [demo_key])); reflexivity|].
  eapply rtc_l; [apply (step_resume 1%nat (FetchedKeys [demo_key]) 10 [(0%nat, FetchedKeys [demo_key])] []); reflexivity|].
  eapply rtc_l; [apply (step_resume 0%nat (FetchedKeys [demo_key]) 20 [] []); reflexivity|].
  eapply rtc_l; [apply (step_arrive 2%nat 3600020); reflexivity|].
  eapply rtc_l; [apply (step_end FetchRejected); reflexivity|].
  eapply rtc_l; [apply (step_resume 2%nat FetchRejected 3600030 [] []); reflexivity|]. apply rtc_refl.
Qed.

Lemma accepted_under_served_key_witness :
  let verify := fun k _ s => String.eqb k "pem" && String.eqb s "good" in
  verifyGitSignature verify (GotKeys [demo_key]) "payload" "good" "k1" = Some true
  /\ exists keys key, served demo_events keys /\ In key keys /\ pk_identifier key = "k1"%string.
Proof.
  intros verify. split; [reflexivity|].
  destruct (accepted_under_served_key verify demo_cache demo_events demo_reachable) as [_ Ha].
  destruct (Ha 1%nat (GotKeys [demo_key]) "payload"%string "good"%string "k1"%string) as (keys & key & Hs & Hk & Hi & _);
    [right; right; left; reflexivity|reflexivity|]. exists keys, key. split; [exact Hs|]. split; [exact Hk|exact Hi].
Defined.

(** The fallback to the last known keys is for a response that is refused; when the
    request itself is rejected, the webhook gets the exception although keys are known. *)
Theorem rejected_refresh_no_fallback :
  reachable demo_cache demo_events /\ cachedKeys demo_cache = Some [demo_key] /\ In (Answered 2 GotThrow) demo_events
  /\ resume 2 FetchedNull 3600030 [] demo_cache = (demo_cache, [Answered 2 (GotKeys [demo_key])]).
Proof. split; [apply demo_reachable|]. split; [done|]. split; [cbn; tauto|reflexivity]. Qed.

(** ** Classification *)

Record ReportedToken := { rt_token : string; rt_source : string; rt_url : string; rt_type : string }.

(** What the second query returns of a workspace. *)
Record WorkspaceRow := { wr_id : string; wr_name : string; wr_orgId : option string; wr_deleted : bool }.

Record FoundKey := { fk_keyId : string; fk_orgId : string; fk_wsName : string }.

Record ClassifiedToken := {
  ct_rawToken : string;
  ct_hashedToken : string;
  ct_source : string;
  ct_url : string;
  ct_type : string;
  (* [isFound], with the fields of a key that is found *)
  ct_found : option FoundKey;
}.

Section Classify.

Context (sha256 : string -> string) (keys : list Key) (workspaces : list WorkspaceRow).

(** The rows of the two batched queries. *)
Definition keyRows (hashes : list string) : list Key :=
  List.filter (fun k => Js.includes hashes (key_hash k) && bool_decide (key_deletedAtM k = None)) keys.

Definition workspaceRows (rows : list Key) : list WorkspaceRow :=
  List.filter (fun w => Js.includes (List.map (fun k => Js.coalesce (key_forWorkspaceId k) EmptyString) (List.filter (fun k => Js.truthy (key_forWorkspaceId k)) rows)) (wr_id w)
                        && negb (wr_deleted w)) workspaces.

(** Whether the two queries are answered: the first is made for a report with tokens, the
    second when a key that was found names a workspace. *)
Definition queries_answered (query_ok : nat -> bool) (data : list ReportedToken) : bool :=
  let rows := keyRows (List.map (fun i => sha256 (rt_token i)) data) in
  match data with [] => true | _ => query_ok 0%nat end
  && (if existsb (fun k => Js.truthy (key_forWorkspaceId k)) rows then query_ok 1%nat else true).

(** [new Map(rows.map(...)).get(x)]: of equal keys the last one wins. *)
Definition map_get {A} (f : A -> string) (l : list A) (x : string) : option A := List.find (fun a => String.eqb (f a) x) (List.rev l).

Definition classify_token (rows : list Key) (wss : list WorkspaceRow) (item : ReportedToken) : ClassifiedToken :=
  let hashed := sha256 (rt_token item) in
  let base found := {| ct_rawToken := rt_token item; ct_hashedToken := hashed; ct_source := rt_source item; ct_url := rt_url item;
                       ct_type := rt_type item; ct_found := found |} in
  match map_get key_hash rows hashed with
  | None => base None
  | Some k =>
      match (if Js.truthy (key_forWorkspaceId k) then map_get wr_id wss (Js.coalesce (key_forWorkspaceId k) EmptyString) else None) with
      | None => base None
      | Some ws =>
          if Js.truthy (wr_orgId ws)
          then base (Some {| fk_keyId := key_id k; fk_orgId := Js.coalesce (wr_orgId ws) EmptyString; fk_wsName := wr_name ws |})
          else base None
      end
  end.

Definition classified (data : list ReportedToken) : list ClassifiedToken :=
  let rows := keyRows (List.map (fun i => sha256 (rt_token i)) data) in
  List.map (classify_token rows (workspaceRows rows)) data.

(** An item of the answer: the hash of a token that is no key, the token of one that is. *)
Inductive TokenLabel := FalsePositive (token_hash token_type : string) | TruePositive (token_raw token_type : string).

Definition github_label (t : ClassifiedToken) : TokenLabel :=
  match ct_found t with
  | None => FalsePositive (ct_hashedToken t) (ct_type t)
  | Some _ => TruePositive (ct_rawToken t) (ct_type t)
  end.

End Classify.

(** ** Notifications *)

(** The user of the auth provider, as far as it is read. *)
Record LeakUser := { lu_id : string; lu_firstName : option string; lu_email : option string }.

(** An entry of [getUsers]. *)
Record Member := { mb_id : string; mb_name : string; mb_email : string }.

Inductive Notice :=
| LeakEmail (email date source url idempotencyKey : string)
| LeakSlack (fields : list string).

(** The auth provider at the n-th lookup: the ids of an organization's members, and a
    user ([None] when the call throws); the day; whether a Slack webhook is configured,
    and whether it accepts the next message. A mail that fails is only logged. *)
Record NotifyEnv := {
  memberList : nat -> string -> option (list string);
  getUser : nat -> string -> option LeakUser;
  today : string;
  slack_configured : bool;
  slack_ok : list Notice -> bool;
}.

Definition getUsers (env : NotifyEnv) (n : nat) (orgId : string) : option (list Member) :=
  match memberList env n orgId with
  | None => None
  | Some ids =>
      Some (omap (fun id => match getUser env n id with
                            | Some u => Some {| mb_id := lu_id u; mb_name := Js.coalesce (lu_firstName u) EmptyString; mb_email := Js.coalesce (lu_email u) EmptyString |}
                            | None => None
                            end) ids)
  end.

Record NotifyState := { ns_lookups : nat; usersByOrg : list (string * list Member); ns_sent : list Notice }.

(** One entry for each hash, the first one. *)
Fixpoint unique_keys (seen : list string) (found : list ClassifiedToken) : list ClassifiedToken :=
  match found with
  | [] => []
  | t :: r => if Js.includes seen (ct_hashedToken t) then unique_keys seen r else t :: unique_keys (ct_hashedToken t :: seen) r
  end.

(** The users that are mailed: with an address, each address once. *)
Fixpoint recipients (notified : list string) (users : list Member) : list string :=
  match users with
  | [] => []
  | u :: r =>
      if negb (Js.truthy_string (mb_email u)) || Js.includes notified (mb_email u) then recipients notified r
      else mb_email u :: recipients (mb_email u :: notified) r
  end.

Definition leak_email (date : string) (t : ClassifiedToken) (email : string) : Notice :=
  LeakEmail email date (ct_source t) (ct_url t) ("leaked-key:" +:+ ct_hashedToken t +:+ ":" +:+ email).

Definition newline : string := String (ascii_of_nat 10) EmptyString.

(** The two fields of the message [alertSlack] posts. *)
Definition alertSlack (type source date itemUrl keyId wsName orgId email : string) : Notice :=
  LeakSlack ["Type: " +:+ type +:+ " " +:+ newline +:+ " Source: " +:+ source +:+ " " +:+ newline +:+ " Date: " +:+ date +:+ " " +:+ newline +:+ " URL: " +:+ itemUrl;
             "Key: " +:+ keyId +:+ " " +:+ newline +:+ " Workspace: " +:+ wsName +:+ " " +:+ newline +:+ " Tenant: " +:+ orgId +:+ " " +:+ newline +:+ " User: " +:+ email].

Definition leak_slack (date : string) (t : ClassifiedToken) (k : FoundKey) (users : list Member) : Notice :=
  alertSlack (ct_type t) (ct_source t) date (ct_url t) (fk_keyId k) (fk_wsName k) (fk_orgId k)
    (match users with u :: _ => mb_email u | [] => "unknown" end).

(** The body of the loop; what throws ends it for this key. *)
Definition notify_key (env : NotifyEnv) (t : ClassifiedToken) (s : NotifyState) : NotifyState :=
  match ct_found t with
  | None => s
  | Some k =>
      let '(users, s) :=
        match List.find (fun '(o, _) => String.eqb o (fk_orgId k)) (usersByOrg s) with
        | Some (_, users) => (Some users, s)
        | None =>
            match getUsers env (ns_lookups s) (fk_orgId k) with
            | Some users => (Some users, {| ns_lookups := S (ns_lookups s); usersByOrg := (fk_orgId k, users) :: usersByOrg s; ns_sent := ns_sent s |})
            | None => (None, {| ns_lookups := S (ns_lookups s); usersByOrg := usersByOrg s; ns_sent := ns_sent s |})
            end
        end in
      match users with
      | None => s
      | Some users =>
          let sent := ns_sent s ++ List.map (leak_email (today env) t) (recipients [] users) in
          let sent := if slack_configured env && slack_ok env sent then sent ++ [leak_slack (today env) t k users] else sent in
          {| ns_lookups := ns_lookups s; usersByOrg := usersByOrg s; ns_sent := sent |}
      end
  end.

Definition notifyLeakedKeys (env : NotifyEnv) (found : list ClassifiedToken) : list Notice :=
  ns_sent (List.fold_left (fun s t => notify_key env t s) (unique_keys [] found) {| ns_lookups := 0; usersByOrg := []; ns_sent := [] |}).

(** ** The route *)

(** [None] of [signature_valid] is an exception of the check; [query_ok] says which of the
    two queries are answered. *)
Record WebhookRequest := { wq_signature : option string; wq_keyId : option string; wq_body : string; wq_data : option (list ReportedToken) }.

Inductive WebhookReply := ReplyStatus (status : Z) | ReplyLabels (labels : list TokenLabel) | ReplyThrow.

Definition leaked_POST (sha256 : string -> string) (keys : list Key) (workspaces : list WorkspaceRow) (query_ok : nat -> bool) (env : NotifyEnv)
    (configured : bool) (signature_valid : string -> string -> string -> option bool) (q : WebhookRequest) : WebhookReply * list Notice :=
  if negb configured then (ReplyStatus 500, [])
  else if String.eqb (wq_body q) EmptyString then (ReplyStatus 400, [])
  else
    match wq_data q with
    | None => (ReplyStatus 400, [])
    | Some data =>
        if negb (Js.truthy (wq_signature q)) || negb (Js.truthy (wq_keyId q)) then (ReplyStatus 400, [])
        else
          match signature_valid (wq_body q) (Js.coalesce (wq_signature q) EmptyString) (Js.coalesce (wq_keyId q) EmptyString) with
          | None => (ReplyThrow, [])
          | Some false => (ReplyStatus 401, [])
          | Some true =>
              if negb (queries_answered sha256 keys query_ok data) then (ReplyThrow, [])
              else
              let tokens := classified sha256 keys workspaces data in
              (ReplyLabels (List.map github_label tokens), notifyLeakedKeys env (List.filter (fun t => Js.truthy_obj (ct_found t)) tokens))
          end
    end.

(** ** What is answered and sent *)

(** The hash is the one of a key that is not deleted, of a workspace that is not deleted
    and has an organization. *)
Definition live_leak (keys : list Key) (workspaces : list WorkspaceRow) (hash : string) (f : FoundKey) : Prop :=
  exists k w, In k keys /\ key_hash k = hash /\ key_deletedAtM k = None /\ In w workspaces /\ key_forWorkspaceId k = Some (wr_id w)
  /\ wr_deleted w = false /\ wr_orgId w = Some (fk_orgId f) /\ fk_keyId f = key_id k /\ fk_wsName f = wr_name w.

Lemma map_get_in {A} (f : A -> string) l x a : map_get f l x = Some a -> In a l /\ f a = x.
Proof. intros [H E]%List.find_some. split; [by apply List.in_rev|by apply String.eqb_eq]. Qed.

Lemma classify_live sha256 keys workspaces data t f :
  In t (classified sha256 keys workspaces data) -> ct_found t = Some f ->
  ct_hashedToken t = sha256 (ct_rawToken t) /\ live_leak keys workspaces (ct_hashedToken t) f.
Proof.
  unfold classified. intros (i & <- & Hi)%List.in_map_iff. unfold classify_token. set (rows := keyRows keys _).
  destruct (map_get key_hash rows (sha256 (rt_token i))) as [k|] eqn:Ek; [|done].
  destruct (Js.truthy (key_forWorkspaceId k)) eqn:Et; [|done].
  destruct (map_get wr_id _ _) as [w|] eqn:Ew; [|done]. destruct (Js.truthy (wr_orgId w)) eqn:Eo; [|done]. cbn. intros [= <-].
  split; [done|]. apply map_get_in in Ek as [Hk Eh]. apply map_get_in in Ew as [Hw Ei]. unfold rows, keyRows in Hk.
  apply List.filter_In in Hk as [Hk [_ Hd%bool_decide_eq_true]%andb_prop]. apply List.filter_In in Hw as [Hw [_ Hl%negb_true_iff]%andb_prop].
  exists k, w. destruct (key_forWorkspaceId k) as [ws|]; [|done]. destruct (wr_orgId w) as [o|]; [|done]. cbn in *. subst. split_and!; done.
Qed.

(** What is sent for one key: nothing, or the mails to the members of its organization
    and then at most one message to Slack. *)
Inductive notices_for (env : NotifyEnv) (t : ClassifiedToken) : list Notice -> Prop :=
| notices_none : notices_for env t []
| notices_sent f n users slack :
    ct_found t = Some f -> getUsers env n (fk_orgId f) = Some users -> slack = [] \/ slack = [leak_slack (today env) t f users] ->
    notices_for env t (List.map (leak_email (today env) t) (recipients [] users) ++ slack).

Definition looked_up (env : NotifyEnv) (s : NotifyState) : Prop :=
  forall o users, In (o, users) (usersByOrg s) -> exists n, getUsers env n o = Some users.

Lemma notify_key_spec env t s :
  looked_up env s -> looked_up env (notify_key env t s) /\ exists l, ns_sent (notify_key env t s) = ns_sent s ++ l /\ notices_for env t l.
Proof.
  intros Hs. unfold notify_key. destruct (ct_found t) as [f|] eqn:Ef; [|split; [done|exists []; rewrite app_nil_r; split; [done|constructor]]].
  assert (Hsend : forall n users, getUsers env n (fk_orgId f) = Some users -> exists l,
    (if slack_configured env && slack_ok env (ns_sent s ++ List.map (leak_email (today env) t) (recipients [] users))
     then (ns_sent s ++ List.map (leak_email (today env) t) (recipients [] users)) ++ [leak_slack (today env) t f users]
     else ns_sent s ++ List.map (leak_email (today env) t) (recipients [] users)) = ns_sent s ++ l /\ notices_for env t l).
  { intros n users E. destruct (slack_configured env && _); [rewrite <- app_assoc|]; eexists; (split; [reflexivity|]).
    - eapply notices_sent; eauto.
    - rewrite <- (app_nil_r (List.map _ _)). eapply notices_sent; eauto. }
  destruct (List.find _ (usersByOrg s)) as [[o users]|] eqn:Eu.
  - apply List.find_some in Eu as [Hin E]. apply String.eqb_eq in E as ->. destruct (Hs _ _ Hin) as [n En]. split; [exact Hs|cbn; eauto].
  - destruct (getUsers env (ns_lookups s) (fk_orgId f)) as [users|] eqn:E; cbn.
    + split; [|eauto]. intros o us [[= <- <-]|Hin]; [eauto|by apply Hs].
    + split; [exact Hs|]. exists []. rewrite app_nil_r. split; [done|constructor].
Qed.

Lemma notify_fold env l : forall s, looked_up env s ->
  exists ls, ns_sent (List.fold_left (fun s t => notify_key env t s) l s) = ns_sent s ++ concat ls /\ Forall2 (notices_for env) l ls.
Proof.
  induction l as [|t l IH]; intros s Hs; cbn; [exists []; rewrite app_nil_r; by split|].
  destruct (notify_key_spec env t s Hs) as (Hs' & n & En & Hn). destruct (IH _ Hs') as (ls & El & Hl).
  exists (n :: ls). rewrite El, En. cbn. split; [by rewrite app_assoc|by constructor].
Qed.

Lemma unique_keys_spec found : forall seen,
  NoDup (List.map ct_hashedToken (unique_keys seen found))
  /\ forall t, In t (unique_keys seen found) -> In t found /\ ct_hashedToken t ∉ seen.
Proof.
  induction found as [|t r IH]; intros seen; cbn; [split; [constructor|by intros]|]. destruct (Js.includes seen _) eqn:E.
  - destruct (IH seen) as [Hn Hi]. split; [done|]. intros u Hu. destruct (Hi u Hu). auto.
  - assert (Ht : ct_hashedToken t ∉ seen).
    { intros Hin%list_elem_of_In. apply not_true_iff_false in E. apply E, StrFacts.includes_In. done. }
    destruct (IH (ct_hashedToken t :: seen)) as [Hn Hi]. cbn. split.
    + constructor; [|done]. intros (u & Eu & Hu)%list_elem_of_In%List.in_map_iff. destruct (Hi u Hu) as [_ Hns]. apply Hns. rewrite Eu. by left.
    + intros u [<-|Hu]; [auto|]. destruct (Hi u Hu) as [H1 H2]. split; [auto|]. set_solver.
Qed.

Lemma recipients_spec users : forall notified,
  NoDup (recipients notified users)
  /\ forall e, In e (recipients notified users) -> e <> EmptyString /\ (e ∉ notified) /\ (exists u, In u users /\ mb_email u = e).
Proof.
  induction users as [|u r IH]; intros notified; cbn; [split; [constructor|by intros]|].
  destruct (negb (Js.truthy_string (mb_email u)) || Js.includes notified (mb_email u)) eqn:E.
  - destruct (IH notified) as [Hn Hi]. split; [done|]. intros e He. destruct (Hi e He) as (? & ? & u' & ? & ?). eauto 6.
  - apply orb_false_iff in E as [E1 E2]. assert (Hu : mb_email u ∉ notified).
    { intros Hin%list_elem_of_In. apply not_true_iff_false in E2. apply E2, StrFacts.includes_In. done. }
    assert (He : mb_email u <> EmptyString) by (intros Hz; rewrite Hz in E1; discriminate).
    destruct (IH (mb_email u :: notified)) as [Hn Hi]. split.
    + constructor; [|done]. intros Hin%list_elem_of_In. destruct (Hi _ Hin) as (_ & Hns & _). apply Hns. by left.
    + intros e [<-|Hin]; [eauto 6|]. destruct (Hi e Hin) as (? & Hns & u' & ? & ?). split; [done|]. split; [set_solver|eauto].
Qed.

(** The idempotency keys of the mails. *)
Definition mail_keys (l : list Notice) : list string :=
  omap (fun n => match n with LeakEmail _ _ _ _ key => Some key | LeakSlack _ => None end) l.

Definition email_key (hash email : string) : string := "leaked-key:" +:+ hash +:+ ":" +:+ email.

Lemma colon_inj a : forall a' b b', Str.has_char ":" a = false -> Str.has_char ":" a' = false ->
  a +:+ ":" +:+ b = a' +:+ ":" +:+ b' -> a = a' /\ b = b'.
Proof.
  induction a as [|c a IH]; intros [|c' a'] b b' H H' E.
  - injection E as E. done.
  - injection E as <- E. discriminate.
  - injection E as -> E. discriminate.
  - cbn in H, H'. apply orb_false_iff in H as [_ H]. apply orb_false_iff in H' as [_ H'].
    injection E as -> E. destruct (IH _ _ _ H H' E) as [-> ->]. done.
Qed.

Lemma email_key_inj h h' e e' : Str.has_char ":" h = false -> Str.has_char ":" h' = false ->
  email_key h e = email_key h' e' -> h = h' /\ e = e'.
Proof. intros H H' E. apply (inj (String.append "leaked-key:")) in E. by apply colon_inj. Qed.

Lemma mail_keys_for env t l : notices_for env t l ->
  exists emails, mail_keys l = List.map (email_key (ct_hashedToken t)) emails /\ NoDup emails.
Proof.
  intros [|f n users slack _ _ Hs]; [by exists []; split; [|constructor]|]. exists (recipients [] users). split; [|apply recipients_spec].
  unfold mail_keys. rewrite omap_app. replace (omap _ slack) with (@nil string) by (by destruct Hs as [-> | ->]). rewrite app_nil_r.
  induction (recipients [] users) as [|e r IH]; [done|]. cbn. by rewrite <- IH.
Qed.

Lemma mail_keys_nodup env ts ls :
  (forall t, In t ts -> Str.has_char ":" (ct_hashedToken t) = false) -> NoDup (List.map ct_hashedToken ts) ->
  Forall2 (notices_for env) ts ls -> NoDup (mail_keys (concat ls)).
Proof.
  assert (Hin : forall ts ls k, Forall2 (notices_for env) ts ls -> In k (mail_keys (concat ls)) ->
    exists t e, In t ts /\ k = email_key (ct_hashedToken t) e).
  { clear. intros ts ls k H. induction H as [|t l ts ls H1 _ IH]; cbn; [done|]. unfold mail_keys. rewrite omap_app, List.in_app_iff.
    intros [Hk|Hk]; [|destruct (IH Hk) as (t' & e & ? & ?); eauto]. destruct (mail_keys_for _ _ _ H1) as (es & E & _).
    change (In k (mail_keys l)) in Hk. rewrite E in Hk. apply List.in_map_iff in Hk as (e & <- & _). eauto. }
  intros Hc Hn H. induction H as [|t l ts ls H1 H2 IH]; cbn in *; [constructor|]. apply NoDup_cons in Hn as [Hnt Hn].
  unfold mail_keys. rewrite omap_app. apply NoDup_app. split; [|split; [|apply IH; auto]].
  - change (NoDup (mail_keys l)). destruct (mail_keys_for _ _ _ H1) as (es & -> & He). apply NoDup_fmap_2_strong; [|done].
    intros e e' _ _ E. apply email_key_inj in E as [_ ->]; auto.
  - change (forall x, x ∈ mail_keys l -> x ∉ mail_keys (concat ls)). destruct (mail_keys_for _ _ _ H1) as (es & -> & _).
    intros k (e & <- & _)%list_elem_of_In%List.in_map_iff Hk%list_elem_of_In. destruct (Hin _ _ _ H2 Hk) as (u & e' & Hu & E).
    apply email_key_inj in E as [E _]; [|auto..]. apply Hnt. rewrite E. by apply list_elem_of_In, List.in_map.
Qed.

Lemma notices_source env ts ls l : Forall2 (notices_for env) ts ls -> In l ls -> exists t, In t ts /\ notices_for env t l.
Proof. induction 1 as [|t l' ts ls H _ IH]; [done|]. intros [->|Hl]; [exists t; split; [by left|done]|]. destruct (IH Hl) as (u & Hu & Hn). exists u. split; [by right|done]. Qed.

(** The answer and the notices of a webhook whose signature is checked by
    [signature_valid]. *)
Record leak_report (sha256 : string -> string) (keys : list Key) (workspaces : list WorkspaceRow) (env : NotifyEnv)
    (data : list ReportedToken) (labels : list TokenLabel) (notices : list Notice) : Prop := {
  lr_all : List.length labels = List.length data;
  lr_true : forall token type, In (TruePositive token type) labels ->
    exists i f, In i data /\ rt_token i = token /\ live_leak keys workspaces (sha256 token) f;
  lr_false : forall hash type, In (FalsePositive hash type) labels -> exists i, In i data /\ hash = sha256 (rt_token i);
  lr_mail : forall email date source url key, In (LeakEmail email date source url key) notices ->
    exists i f n users u, In i data /\ live_leak keys workspaces (sha256 (rt_token i)) f
    /\ getUsers env n (fk_orgId f) = Some users /\ In u users /\ mb_email u = email /\ email <> EmptyString
    /\ source = rt_source i /\ url = rt_url i /\ date = today env;
  lr_once : NoDup (mail_keys notices);
}.

Lemma classified_in sha256 keys workspaces data t : In t (classified sha256 keys workspaces data) ->
  exists i, In i data /\ ct_rawToken t = rt_token i /\ ct_hashedToken t = sha256 (rt_token i) /\ ct_source t = rt_source i /\ ct_url t = rt_url i.
Proof.
  unfold classified. intros (i & <- & Hi)%List.in_map_iff. exists i. split; [done|]. unfold classify_token.
  repeat (case_match; try done).
Qed.

Lemma classified_report sha256 keys workspaces env data :
  (forall x, Str.has_char ":" (sha256 x) = false) ->
  leak_report sha256 keys workspaces env data (List.map github_label (classified sha256 keys workspaces data))
    (notifyLeakedKeys env (List.filter (fun t => Js.truthy_obj (ct_found t)) (classified sha256 keys workspaces data))).
Proof.
  intros Hc. set (ts := classified sha256 keys workspaces data). unfold notifyLeakedKeys.
  destruct (notify_fold env (unique_keys [] (List.filter (fun t => Js.truthy_obj (ct_found t)) ts)) {| ns_lookups := 0; usersByOrg := []; ns_sent := [] |})
    as (ls & -> & Hls); [by intros o users []|]. cbn [ns_sent app].
  destruct (unique_keys_spec (List.filter (fun t => Js.truthy_obj (ct_found t)) ts) []) as [Hn Hu].
  assert (Hts : forall t, In t (unique_keys [] (List.filter (fun t => Js.truthy_obj (ct_found t)) ts)) -> In t ts)
    by (intros t [[H _]%List.filter_In _]%Hu; exact H).
  split.
  - unfold ts, classified. by rewrite !List.length_map.
  - intros token type (t & E & Ht)%List.in_map_iff. unfold github_label in E. destruct (ct_found t) as [f|] eqn:Ef; [|done].
    injection E as <- <-. destruct (classify_live _ _ _ _ _ _ Ht Ef) as [E Hl]. destruct (classified_in _ _ _ _ _ Ht) as (i & Hi & Ei & _).
    exists i, f. rewrite <- E. auto.
  - intros hash type (t & E & Ht)%List.in_map_iff. unfold github_label in E. destruct (ct_found t) eqn:Ef; [done|].
    injection E as <- <-. destruct (classified_in _ _ _ _ _ Ht) as (i & Hi & _ & Eh & _). eauto.
  - intros email date source url key (l & Hl & Hin)%List.in_concat. destruct (notices_source _ _ _ _ Hls Hl) as (t & Ht%Hts & Hs).
    destruct (classified_in _ _ _ _ _ Ht) as (i & Hi & _ & Eh & Es & Eu).
    destruct Hs as [|f n users slack Ef Hg Hs]; [done|]. destruct (classify_live _ _ _ _ _ _ Ht Ef) as [_ Hlive].
    apply List.in_app_iff in Hin as [(e & [= <- <- <- <- <-] & He)%List.in_map_iff|Hin]; [|by destruct Hs as [-> | ->]; [destruct Hin|destruct Hin as [Hin|[]]]].
    destruct (recipients_spec users []) as [_ Hr]. destruct (Hr e He) as (Hne & _ & u & Hu' & <-).
    exists i, f, n, users, u. rewrite <- Eh. auto 10.
  - refine (mail_keys_nodup env _ _ _ Hn Hls). intros t Ht. destruct (classified_in _ _ _ _ _ (Hts t Ht)) as (i & _ & _ & -> & _). apply Hc.
Qed.

(** Claim C29. A report of leaked keys is only acted on when its signature is verified and
    the database answers; the answer then has a label for each reported token, calls a token a leak (and returns it
    raw) only when a key with its hash is live in a live workspace, returns the hash of
    any other, mails only members of the organization the leaked key works for, about the
    reported place, and sends no two mails under one idempotency key, so a key reported in
    many places is mailed once to an address. (The hash is base64, without a colon.) *)
Theorem leak_report_sound (sha256 : string -> string) (keys : list Key) (workspaces : list WorkspaceRow) (query_ok : nat -> bool) (env : NotifyEnv)
    (configured : bool) (signature_valid : string -> string -> string -> option bool) (q : WebhookRequest) (reply : WebhookReply) (notices : list Notice) :
  (forall x, Str.has_char ":" (sha256 x) = false) ->
  leaked_POST sha256 keys workspaces query_ok env configured signature_valid q = (reply, notices) ->
  match reply with
  | ReplyLabels labels =>
      exists signature keyId data, wq_signature q = Some signature /\ wq_keyId q = Some keyId /\ wq_data q = Some data
      /\ signature_valid (wq_body q) signature keyId = Some true /\ leak_report sha256 keys workspaces env data labels notices
  | _ => notices = []
  end.
Proof.
  intros Hc. unfold leaked_POST. destruct configured; cbn; [|by intros [= <- <-]].
  destruct (String.eqb _ _); [by intros [= <- <-]|]. destruct (wq_data q) as [data|]; [|by intros [= <- <-]].
  destruct (wq_signature q) as [sg|]; [|by intros [= <- <-]]. destruct (wq_keyId q) as [kid|]; [|by rewrite orb_true_r; intros [= <- <-]].
  destruct (_ || _); [by intros [= <- <-]|]. cbn. destruct (signature_valid _ sg kid) as [[]|] eqn:Ev; [|by intros [= <- <-]..].
  destruct (negb (queries_answered _ _ _ _)); [by intros [= <- <-]|]. intros [= <- <-]. exists sg, kid, data. split_and!; auto using classified_report.
Qed.

Definition demo_leaked_key : Key :=
  {| key_id := "key_1"; key_keyAuthId := "ka_1"; key_hash := "h1"; key_start := "unkey_ab"; key_workspaceId := "ws_unkey";
     key_forWorkspaceId := Some "ws_1"%string; key_name := None; key_identityId := None; key_meta := None; key_expires := None;
     key_deletedAtM := None; key_refillDay := None; key_refillAmount := None; key_lastRefillAt := None; key_enabled := true;
     key_remaining := None; key_environment := None |}.

Definition demo_hash (x : string) : string := if String.eqb x "unkey_abc" then "h1" else "h2".

(** Two members share an address, one has none, one cannot be loaded. *)
Definition demo_notify : NotifyEnv :=
  {| memberList := fun _ o => if String.eqb o "org_1" then Some ["u1"; "u2"; "u3"; "u4"]%string else None;
     getUser := fun _ u =>
       if String.eqb u "u4" then None
       else Some {| lu_id := u; lu_firstName := None; lu_email := if String.eqb u "u2" then None else Some "a@x"%string |};
     today := "Mon"; slack_configured := true; slack_ok := fun _ => true |}.

(** One key found at two places, and a token that is no key. *)
Definition demo_report : WebhookRequest :=
  {| wq_signature := Some "good"%string; wq_keyId := Some "k1"%string; wq_body := "[...]";
     wq_data := Some [{| rt_token := "unkey_abc"; rt_source := "content"; rt_url := "u1"; rt_type := "unkey_root_key" |};
                      {| rt_token := "other"; rt_source := "content"; rt_url := "u2"; rt_type := "unkey_root_key" |};
                      {| rt_token := "unkey_abc"; rt_source := "commit"; rt_url := "u3"; rt_type := "unkey_root_key" |}] |}.

Lemma leak_report_sound_witness :
  let ws := {| wr_id := "ws_1"; wr_name := "W"; wr_orgId := Some "org_1"%string; wr_deleted := false |} in
  let '(reply, notices) := leaked_POST demo_hash [demo_leaked_key] [ws] (fun _ => true) demo_notify true (fun _ s _ => Some (String.eqb s "good")) demo_report in
  reply = ReplyLabels [TruePositive "unkey_abc" "unkey_root_key"; FalsePositive "h2" "unkey_root_key"; TruePositive "unkey_abc" "unkey_root_key"]
  /\ notices = [LeakEmail "a@x" "Mon" "content" "u1" "leaked-key:h1:a@x"; alertSlack "unkey_root_key" "content" "Mon" "u1" "key_1" "W" "org_1" "a@x"]
  /\ NoDup (mail_keys notices).
Proof.
  intros ws. destruct (leaked_POST _ _ _ _ _ _ _ _) as [reply notices] eqn:E.
  pose proof (leak_report_sound demo_hash [demo_leaked_key] [ws] (fun _ => true) demo_notify true _ demo_report reply notices
    ltac:(intros x; unfold demo_hash; destruct (String.eqb x "unkey_abc"); reflexivity) E) as H.
  revert E H. vm_compute (leaked_POST _ _ _ _ _ _ _ _). intros [= <- <-] (sg & kid & data & _ & _ & _ & _ & H).
  split; [reflexivity|]. split; [reflexivity|]. exact (lr_once _ _ _ _ _ _ _ H).
Defined.
