(* ===== verification/RootKeys.v ===== *)
(** * Keys and root keys

    web/apps/dashboard/lib/trpc/routers/key (create.ts, createRootKey.ts,
    updateRootKeyPermissions.ts, updateRootKeyName.ts, reroll) and
    lib/trpc/routers/settings/root-keys/delete.ts. A root key is a key of the
    workspace of Unkey itself, bound by [forWorkspaceId] to the workspace of the
    customer. The base58 codec and the digest of Keys are parameters. The value of
    [meta] is its JSON text. *)

From Stdlib Require Import ZArith Bool Ascii String Lia.
From stdpp Require Import base list gmap strings.
From S2P Require Import Prelude Tables Encoding Keys StripeTypes DeployPlan Effects Fixtures BillingOps Trpc Store Authorization.

Local Open Scope Z_scope.

(** ** A transaction around another connection *)

Fixpoint exec_all (l : list Sql) : M unit :=
  match l with [] => ret tt | s :: l' => exec_sql s ;; exec_all l' end.

Fixpoint replay (fold : string -> string) (l : list Sql) (d : Tables) : option Tables :=
  match l with [] => Some d | s :: l' => match run_sql fold s d with Some d' => replay fold l' d' | None => None end end.

(** [db.transaction(async (tx) => { pre; writes; await inner(); post })] where [inner]
    opens its own transaction on [db] instead of using [tx]. It runs on another
    connection: it sees what is committed, and what it commits stays when the
    outer transaction fails. The statements of [tx] before it are then on top of
    what it committed. *)
Definition transaction_around {A B C} (pre : M A) (writes : list Sql) (inner : M B) (post : A -> B -> M C) : M C :=
  fun env w =>
    match (call TxBegin ;; a <- pre ;; exec_all writes ;; ret a) env w with
    | (Throw e, w1) => (Throw e, with_db (db w) w1)
    | (Ret a, w1) =>
        match inner env (with_db (db w) w1) with
        | (Throw e, w2) => (Throw e, w2)
        | (Ret b, w2) =>
            match replay (collation env) writes (tables (db w2)) with
            | None => (Throw DuplicateEntry, w2)
            | Some t =>
                match (c <- post a b ;; call TxCommit ;; ret c) env (with_db (with_tables t (db w2)) w2) with
                | (Ret c, w3) => (Ret c, w3)
                | (Throw e, w3) => (Throw e, with_db (db w2) w3)
                end
            end
        end
    end.

Section WithKeys.

Context (base58_encode : list Z -> string) (digest : list Z -> list Z).

(** [newKey({ prefix, byteLength })]: the key, its hash and its start. *)
Definition new_key (prefix : option string) (byteLength : Z) : M (string * string * string) :=
  if (byteLength <? 16) || (255 <? byteLength) then
    throw (OtherError "v1 keys must be between 16 and 255 bytes long")
  else
    bytes <- call (RandomBytes byteLength) ;;
    match KeyV1.newKey base58_encode digest byteLength prefix bytes with
    | inl _ => throw (OtherError "v1 keys must be between 16 and 255 bytes long")
    | inr r => ret r
    end.

(** ** Keys of an API *)

Record RatelimitItem := { ri_name : string; ri_limit : Z; ri_refillInterval : Z; ri_autoApply : bool }.

Record CreateKeyInput := {
  ck_prefix : option string;
  ck_bytes : Z;
  ck_keyAuthId : string;
  ck_identityId : option string;
  ck_meta : option string;
  ck_remaining : option Z;
  (* refill: the amount and the day *)
  ck_refill : option (Z * option Z);
  ck_expires : option Z;
  ck_name : option string;
  ck_ratelimit : option (list RatelimitItem);
  ck_enabled : bool;
  ck_environment : option string;
}.

Definition ratelimit_row (workspaceId keyId : string) (r : RatelimitItem) : M Ratelimit :=
  id <- new_id "ratelimit" ;;
  ret {| rl_id := id; rl_name := ri_name r; rl_workspaceId := workspaceId; rl_keyId := Some keyId; rl_identityId := None;
         rl_limit := ri_limit r; rl_duration := ri_refillInterval r; rl_autoApply := ri_autoApply r |}.

Fixpoint ratelimit_rows (workspaceId keyId : string) (l : list RatelimitItem) : M (list Ratelimit) :=
  match l with
  | [] => ret []
  | r :: l' => x <- ratelimit_row workspaceId keyId r ;; xs <- ratelimit_rows workspaceId keyId l' ;; ret (x :: xs)
  end.

Definition live_identity (ws id : string) (r : Identity) : bool :=
  String.eqb (identity_id r) id && String.eqb (identity_workspaceId r) ws && negb (identity_deleted r).

(** The id and the text of the new key. *)
Definition createKeyCore (c : WCtx) (input : CreateKeyInput) (keyAuthId : string) (storeEncryptedKeys : bool) :
    M (string * string) :=
  let ws := cw_id (c_workspace c) in
  (if Js.truthy (ck_identityId input) then
     identity <- find_first schema_identities (fun _ => live_identity ws (Js.coalesce (ck_identityId input) EmptyString)) ;;
     match identity with Some _ => ret tt | None => throw (not_found "Identity not found") end
   else ret tt) ;;
  keyId <- new_id "key" ;;
  k <- new_key (ck_prefix input) (ck_bytes input) ;;
  let '(key, hash, start) := k in
  refillAt <- date_now ;;
  exec_sql (Insert schema_keys
    [{| key_id := keyId; key_keyAuthId := keyAuthId; key_hash := hash; key_start := start; key_workspaceId := ws;
        key_forWorkspaceId := None; key_name := ck_name input; key_identityId := ck_identityId input;
        key_meta := Some (Js.coalesce (ck_meta input) "{}"%string);
        key_expires := if Js.truthy_oZ (ck_expires input) then ck_expires input else None;
        key_deletedAtM := None; key_refillDay := ck_refill input ≫= snd; key_refillAmount := option_map fst (ck_refill input);
        key_lastRefillAt := option_map (fun _ => refillAt) (ck_refill input);
        key_enabled := ck_enabled input; key_remaining := ck_remaining input; key_environment := ck_environment input |}]) ;;
  (if storeEncryptedKeys then
     enc <- call (VaultEncrypt ws key) ;;
     exec_sql (Insert schema_encryptedKeys
       [{| ek_workspaceId := ws; ek_keyId := keyId; ek_encrypted := fst enc; ek_encryptionKeyId := snd enc |}])
   else ret tt) ;;
  (match Js.coalesce (ck_ratelimit input) [] with
   | [] => ret tt
   | l => rows <- ratelimit_rows ws keyId l ;; exec_sql (Insert schema_ratelimits rows)
   end) ;;
  insertAuditLogs [rbac_log c "key.create" ("Created " +:+ keyId) [resource "key" keyId (ck_name input)] None] ;;
  ret (keyId, key).

Definition createKey (input : CreateKeyInput) : WCtx -> M (string * string) :=
  withRatelimit "trpc_create" (fun c =>
    let ws := cw_id (c_workspace c) in
    keyAuth <- or_throw (find_first schema_keyAuth (fun _ r =>
      String.eqb (ka_workspaceId r) ws && String.eqb (ka_id r) (ck_keyAuthId input)))
      (internal "We were unable to create a key for this API. Please try again or contact support@unkey.com.") ;;
    match keyAuth with
    | None => throw (not_found "We are unable to find the correct keyAuth. Please try again or contact support@unkey.com")
    | Some keyAuth =>
        or_throw (transaction (createKeyCore c input (ka_id keyAuth) (ka_storeEncryptedKeys keyAuth)))
          (internal "We are unable to create the key. Please contact support using support.unkey.dev")
    end).

(** ** Root keys *)

Definition connect_logs (c : WCtx) (keyId : string) (keyName : option string) (permissions : list Permission) : list UnkeyAuditLog :=
  List.map (fun p => rbac_log c "authorization.connect_permission_and_key" ("Connected " +:+ perm_id p +:+ " and " +:+ keyId)
                       [resource "key" keyId keyName; resource "permission" (perm_id p) (Some (perm_name p))] None) permissions.

Definition key_permissions (ws keyId : string) (permissions : list Permission) : list KeyPermission :=
  List.map (fun p => {| kp_keyId := keyId; kp_permissionId := perm_id p; kp_workspaceId := ws |}) permissions.

(** The row of a new root key. *)
Definition root_key_row (c : WCtx) (unkey keyId keyAuthId hash start : string) (name : option string) : Key :=
  {| key_id := keyId; key_keyAuthId := keyAuthId; key_hash := hash; key_start := start; key_workspaceId := unkey;
     key_forWorkspaceId := Some (cw_id (c_workspace c)); key_name := name; key_identityId := None; key_meta := None;
     key_expires := None; key_deletedAtM := None; key_refillDay := None;
     key_refillAmount := None; key_lastRefillAt := None; key_enabled := true; key_remaining := None;
     key_environment := None |}.

Definition createRootKey (name : option string) (permissions : list string) : WCtx -> M (string * string) := fun c =>
  app <- appEnv ;;
  let unkey := UNKEY_WORKSPACE_ID app in
  unkeyApi <- or_throw (find_first schema_apis (fun _ r =>
    String.eqb (api_workspaceId r) unkey && String.eqb (api_id r) (UNKEY_API_ID app)))
    (internal "We were unable to create a rootkey for this workspace. Please try again or contact support@unkey.com.") ;;
  match unkeyApi with
  | None => throw (not_found ("API " +:+ UNKEY_API_ID app +:+ " was not found"))
  | Some unkeyApi =>
      match api_keyAuthId unkeyApi with
      | None => throw (TRPCError "PRECONDITION_FAILED" ("API " +:+ UNKEY_API_ID app +:+ " is not setup to handle keys"))
      | Some keyAuthId =>
          if negb (Js.truthy_string keyAuthId) then
            throw (TRPCError "PRECONDITION_FAILED" ("API " +:+ UNKEY_API_ID app +:+ " is not setup to handle keys"))
          else
            keyId <- new_id "key" ;;
            k <- new_key (Some "unkey"%string) 16 ;;
            let '(key, hash, start) := k in
            or_throw (transaction_around (ret tt)
              [Insert schema_keys [root_key_row c unkey keyId keyAuthId hash start name]]
              (upsertPermissions c unkey permissions)
              (fun _ upserted =>
                 let '(perms, createPermissionLogs) := upserted in
                 exec_sql (Insert schema_keysPermissions (key_permissions unkey keyId perms)) ;;
                 insertAuditLogs (rbac_log c "key.create" ("Created " +:+ keyId) [resource "key" keyId name] None
                                  :: createPermissionLogs ++ connect_logs c keyId name perms)))
              (internal "We are unable to create the rootkey. Please try again or contact support@unkey.com") ;;
            ret (key, keyId)
      end
  end.

(** [table.forWorkspaceId = ws and table.id = id and table.deletedAtM is null]. *)
Definition live_root_key (ws id : string) (r : Key) : bool :=
  Js.eq_ostring (key_forWorkspaceId r) ws && String.eqb (key_id r) id && bool_decide (key_deletedAtM r = None).

(** The permissions of a key with the name of each, when it still exists. *)
Definition current_permissions (keyId : string) (d : Tables) : list (KeyPermission * option string) :=
  List.map (fun kp => (kp, option_map perm_name
                             (List.find (fun p => String.eqb (perm_id p) (kp_permissionId kp)) (d schema_permissions))))
    (List.filter (fun kp => String.eqb (kp_keyId kp) keyId) (d schema_keysPermissions)).

Definition set_name (name : option string) (k : Key) : Key :=
  {| key_id := key_id k; key_keyAuthId := key_keyAuthId k; key_hash := key_hash k; key_start := key_start k;
     key_workspaceId := key_workspaceId k; key_forWorkspaceId := key_forWorkspaceId k; key_name := name;
     key_identityId := key_identityId k; key_meta := key_meta k; key_expires := key_expires k;
     key_deletedAtM := key_deletedAtM k;
     key_refillDay := key_refillDay k; key_refillAmount := key_refillAmount k; key_lastRefillAt := key_lastRefillAt k;
     key_enabled := key_enabled k; key_remaining := key_remaining k; key_environment := key_environment k |}.

Definition set_deletedAt (now : Z) (k : Key) : Key :=
  {| key_id := key_id k; key_keyAuthId := key_keyAuthId k; key_hash := key_hash k; key_start := key_start k;
     key_workspaceId := key_workspaceId k; key_forWorkspaceId := key_forWorkspaceId k; key_name := key_name k;
     key_identityId := key_identityId k; key_meta := key_meta k; key_expires := key_expires k;
     key_deletedAtM := Some now;
     key_refillDay := key_refillDay k; key_refillAmount := key_refillAmount k; key_lastRefillAt := key_lastRefillAt k;
     key_enabled := key_enabled k; key_remaining := key_remaining k; key_environment := key_environment k |}.

Definition set_expires (at_ : Z) (k : Key) : Key :=
  {| key_id := key_id k; key_keyAuthId := key_keyAuthId k; key_hash := key_hash k; key_start := key_start k;
     key_workspaceId := key_workspaceId k; key_forWorkspaceId := key_forWorkspaceId k; key_name := key_name k;
     key_identityId := key_identityId k; key_meta := key_meta k; key_expires := Some at_;
     key_deletedAtM := key_deletedAtM k;
     key_refillDay := key_refillDay k; key_refillAmount := key_refillAmount k; key_lastRefillAt := key_lastRefillAt k;
     key_enabled := key_enabled k; key_remaining := key_remaining k; key_environment := key_environment k |}.

(** The statements that remove and add permissions of a key. *)
Definition write_permissions (keyId unkey : string) (permissionsToRemove : list (KeyPermission * option string))
    (permissionsToAdd : list Permission) : M unit :=
  (match permissionsToRemove with
   | [] => ret tt
   | _ =>
       or_throw (exec_sql (Delete schema_keysPermissions (fun r =>
         String.eqb (kp_keyId r) keyId
         && Js.includes (List.map (fun kp => kp_permissionId (fst kp)) permissionsToRemove) (kp_permissionId r))))
         (internal "Failed to remove existing permissions")
   end) ;;
  (match permissionsToAdd with
   | [] => ret tt
   | _ => exec_sql (Insert schema_keysPermissions (key_permissions unkey keyId permissionsToAdd))
   end) ;;
  (* updated_at of the key, a column that is left out *)
  match permissionsToRemove, permissionsToAdd with
  | [], [] => ret tt
  | _, _ => exec_sql (Update schema_keys (fun k => String.eqb (key_id k) keyId) (fun k => k))
  end.

Definition updateRootKeyPermissions (keyId : string) (permissions : list string) : WCtx -> M unit := fun c =>
  key <- or_throw (find_first schema_keys (fun _ => live_root_key (cw_id (c_workspace c)) keyId))
    (internal "We were unable to update the root key permissions. Please try again or contact support@unkey.com.") ;;
  match key with
  | None => throw (not_found "Root key not found")
  | Some key =>
      app <- appEnv ;;
      let unkey := UNKEY_WORKSPACE_ID app in
      or_throw (transaction_around
        (or_throw (select (fun _ d => current_permissions keyId d)) (internal "Failed to retrieve current permissions"))
        []
        (upsertPermissions c unkey permissions)
        (fun currentPermissions upserted =>
           let '(upsertedPermissions, createPermissionLogs) := upserted in
           let currentPermissionIds := List.map (fun kp => kp_permissionId (fst kp)) currentPermissions in
           let newPermissionIds := List.map perm_id upsertedPermissions in
           let permissionsToRemove :=
             List.filter (fun kp => negb (Js.includes newPermissionIds (kp_permissionId (fst kp)))) currentPermissions in
           let permissionsToAdd :=
             List.filter (fun p => negb (Js.includes currentPermissionIds (perm_id p))) upsertedPermissions in
           write_permissions keyId unkey permissionsToRemove permissionsToAdd ;;
           insertAuditLogs (createPermissionLogs
             ++ List.map (fun '(kp, name) =>
                  rbac_log c "authorization.disconnect_permission_and_key"
                    ("Disconnected " +:+ kp_permissionId kp +:+ " from " +:+ keyId)
                    [resource "key" keyId (key_name key); resource "permission" (kp_permissionId kp) name] None)
                  permissionsToRemove
             ++ connect_logs c keyId (key_name key) permissionsToAdd)))
        (internal "We are unable to update the root key permissions. Please try again or contact support@unkey.com")
  end.

(** [input_name] is the [name] of the input: [None] when absent, [Some None] when
    null. *)
Definition updateRootKeyName (keyId : string) (input_name : option (option string)) : WCtx -> M unit := fun c =>
  let name := Js.coalesce input_name None in
  let text := match input_name with None => "undefined"%string | Some n => Js.coalesce n "null"%string end in
  let failed := internal "We are unable to update root key name. Please try again or contact support@unkey.com" in
  key <- find_first schema_keys (fun _ => live_root_key (cw_id (c_workspace c)) keyId) ;;
  match key with
  | None => throw MISSING_KEY
  | Some key =>
      or_throw (transaction (
        or_throw (exec_sql (Update schema_keys (fun k => String.eqb (key_id k) (key_id key)) (set_name name))) failed ;;
        insertAuditLogs [rbac_log c "key.update" ("Changed name of " +:+ key_id key +:+ " to " +:+ text)
          [resource "key" (key_id key) name] None]))
        failed
  end.

(** [k.name || k.start || k.id]. *)
Definition key_label (k : Key) : string :=
  Js.or_string (key_name k) (Js.or_string (Some (key_start k)) (key_id k)).

Definition deleteRootKeys (keyIds : list string) : WCtx -> M Z := fun c =>
  let ws := cw_id (c_workspace c) in
  let failed := internal "We are unable to delete the root keys. Please try again or contact support@unkey.com" in
  app <- appEnv ;;
  let unkey := UNKEY_WORKSPACE_ID app in
  transaction (
    rootKeys <- find_many schema_keys (fun _ r =>
      String.eqb (key_workspaceId r) unkey && Js.eq_ostring (key_forWorkspaceId r) ws && Js.includes keyIds (key_id r)
      && bool_decide (key_deletedAtM r = None)) ;;
    match rootKeys with
    | [] => throw (not_found
        "No valid root keys found. They may have already been deleted or you don't have access to them.")
    | _ =>
        if negb (Nat.eqb (List.length rootKeys) (List.length keyIds)) then
          throw (not_found ("Root key(s) not found: " +:+ Str.join ", " (missing_ids (List.map key_id rootKeys) keyIds)
                            +:+ ". They may have already been deleted or you don't have access to them."))
        else
          now <- date_now ;;
          or_throw (exec_sql (Update schema_keys (fun k =>
            Js.includes (List.map key_id rootKeys) (key_id k) && String.eqb (key_workspaceId k) unkey
            && Js.eq_ostring (key_forWorkspaceId k) ws) (set_deletedAt now))) failed ;;
          or_throw (insertAuditLogs [rbac_log c "key.delete"
            ("Deleted " +:+ Num.string_of_Z (Z.of_nat (List.length rootKeys)) +:+ " root key(s): "
             +:+ Str.join ", " (List.map key_label rootKeys))
            (List.map (fun k => resource "key" (key_id k) (Some (key_label k))) rootKeys) None]) failed ;;
          ret (Z.of_nat (List.length rootKeys))
    end).

(** ** Rotation *)

Definition capGracePeriodAtSourceExpiry (sourceExpires : option Z) (gracePeriodEnd : Z) : Z :=
  match sourceExpires with
  | Some e => if e <? gracePeriodEnd then e else gracePeriodEnd
  | None => gracePeriodEnd
  end.

(** [start.slice(0, start.lastIndexOf("_"))], or the empty string. *)
Definition start_prefix (start : string) : string := Str.join "_" (List.removelast (Str.split_on "_" start)).

(** The source key with its relations. *)
Record KeySource := {
  src_key : Key;
  src_keyAuth : option KeyAuth;
  src_api : option Api;
  src_encrypted : bool;
  src_ratelimits : list Ratelimit;
  src_roles : list KeyRole;
  src_permissions : list KeyPermission;
}.

Definition find_source (keyId : string) (d : Tables) : option KeySource :=
  match List.find (fun k => String.eqb (key_id k) keyId) (d schema_keys) with
  | None => None
  | Some k =>
      Some {| src_key := k;
              src_keyAuth := List.find (fun a => String.eqb (ka_id a) (key_keyAuthId k)) (d schema_keyAuth);
              src_api := List.find (fun a => Js.eq_ostring (api_keyAuthId a) (key_keyAuthId k)) (d schema_apis);
              src_encrypted := existsb (fun e => String.eqb (ek_keyId e) (key_id k)) (d schema_encryptedKeys);
              src_ratelimits := List.filter (fun r => Js.eq_ostring (rl_keyId r) (key_id k)) (d schema_ratelimits);
              src_roles := List.filter (fun r => String.eqb (kr_keyId r) (key_id k)) (d schema_keysRoles);
              src_permissions := List.filter (fun r => String.eqb (kp_keyId r) (key_id k)) (d schema_keysPermissions) |}
  end.

(** The row of the rotated key. *)
Definition rotated_key (k : Key) (newKeyId hash start : string) : Key :=
  {| key_id := newKeyId; key_keyAuthId := key_keyAuthId k; key_hash := hash; key_start := start;
     key_workspaceId := key_workspaceId k; key_forWorkspaceId := key_forWorkspaceId k; key_name := key_name k;
     key_identityId := key_identityId k; key_meta := key_meta k; key_expires := key_expires k; key_deletedAtM := None;
     key_refillDay := key_refillDay k; key_refillAmount := key_refillAmount k;
     key_lastRefillAt := match key_refillAmount k with Some _ => key_lastRefillAt k | None => None end;
     key_enabled := key_enabled k; key_remaining := key_remaining k; key_environment := key_environment k |}.

Fixpoint copy_ratelimits (workspaceId keyId : string) (l : list Ratelimit) : M (list Ratelimit) :=
  match l with
  | [] => ret []
  | r :: l' =>
      id <- new_id "ratelimit" ;;
      rest <- copy_ratelimits workspaceId keyId l' ;;
      ret ({| rl_id := id; rl_name := rl_name r; rl_workspaceId := workspaceId; rl_keyId := Some keyId;
              rl_identityId := None; rl_limit := rl_limit r; rl_duration := rl_duration r;
              rl_autoApply := rl_autoApply r |} :: rest)
  end.

(** What the new key takes over. *)
Definition copy_relations (source : KeySource) (newKeyId : string) : M unit :=
  let ws := key_workspaceId (src_key source) in
  (match List.filter (fun rl => Js.truthy (rl_keyId rl) && negb (Js.truthy (rl_identityId rl))) (src_ratelimits source) with
   | [] => ret tt
   | l => rows <- copy_ratelimits ws newKeyId l ;; exec_sql (Insert schema_ratelimits rows)
   end) ;;
  (match src_roles source with
   | [] => ret tt
   | l => exec_sql (Insert schema_keysRoles
            (List.map (fun r => {| kr_keyId := newKeyId; kr_roleId := kr_roleId r; kr_workspaceId := ws |}) l))
   end) ;;
  (match src_permissions source with
   | [] => ret tt
   | l => exec_sql (Insert schema_keysPermissions
            (List.map (fun r => {| kp_keyId := newKeyId; kp_permissionId := kp_permissionId r; kp_workspaceId := ws |}) l))
   end).

Definition reroll_body (c : WCtx) (keyId newKeyId scopedWorkspaceId : string) (forWorkspaceId : option string)
    (gracePeriodEnd : Z) : M (string * string) :=
  locked <- find_first schema_keys (fun _ k =>
    String.eqb (key_workspaceId k) scopedWorkspaceId && String.eqb (key_id k) keyId && bool_decide (key_deletedAtM k = None)
    && (if Js.truthy forWorkspaceId then Js.eq_ostring (key_forWorkspaceId k) (Js.coalesce forWorkspaceId EmptyString) else true)) ;;
  match locked with
  | None => throw (not_found "The specified key was not found.")
  | Some _ =>
      source_ <- select (fun _ d => find_source keyId d) ;;
      match source_ with
      | None => throw (internal "We were unable to rotate this key. Please try again or contact support@unkey.com")
      | Some source =>
          let k := src_key source in
          nowInTx <- date_now ;;
          if (match key_expires k with Some e => e <=? nowInTx | None => false end) then
            throw (TRPCError "PRECONDITION_FAILED" "This key has already expired and cannot be rotated.")
          else
            match src_keyAuth source with
            | None => throw (OtherError "TypeError: source.keyAuth is null")
            | Some keyAuth =>
                if src_encrypted source && negb (ka_storeEncryptedKeys keyAuth) then
                  throw (TRPCError "PRECONDITION_FAILED" "This API does not support key encryption.")
                else
                  generated <- new_key (Some (start_prefix (key_start k))) (Js.coalesce (ka_defaultBytes keyAuth) 16) ;;
                  let '(plaintext, hash, start) := generated in
                  encryptedRecord <- (if src_encrypted source then e <- call (VaultEncrypt (key_workspaceId k) plaintext) ;; ret (Some e)
                                      else ret None) ;;
                  let oldKeyExpiresAt := capGracePeriodAtSourceExpiry (key_expires k) gracePeriodEnd in
                  exec_sql (Insert schema_keys [rotated_key k newKeyId hash start]) ;;
                  (match encryptedRecord with
                   | Some e => exec_sql (Insert schema_encryptedKeys
                       [{| ek_workspaceId := key_workspaceId k; ek_keyId := newKeyId; ek_encrypted := fst e;
                           ek_encryptionKeyId := snd e |}])
                   | None => ret tt
                   end) ;;
                  copy_relations source newKeyId ;;
                  (if bool_decide (key_expires k = Some oldKeyExpiresAt) then ret tt
                   else exec_sql (Update schema_keys (fun r =>
                          String.eqb (key_id r) (key_id k) && String.eqb (key_workspaceId r) (key_workspaceId k))
                          (set_expires oldKeyExpiresAt))) ;;
                  match Dates.toISOString oldKeyExpiresAt with
                  | None => throw (OtherError "RangeError: Invalid time value")
                  | Some date =>
                      insertAuditLogs [rbac_log c "key.reroll"
                        ("Rerolled key (" +:+ key_id k +:+ ") to (" +:+ newKeyId +:+ "); old key expires at " +:+ date)
                        ([resource "key" newKeyId (key_name k);
                          {| resource_type := "key"; resource_id := key_id k; resource_name := key_name k;
                             resource_meta := Some [("expiresAt"%string, JNumber oldKeyExpiresAt)] |}]
                         ++ match src_api source with Some a => [resource "api" (api_id a) (Some (api_name a))] | None => [] end)
                        None] ;;
                      ret (newKeyId, plaintext)
                  end
            end
      end
  end.

(** [rerollKeyCore]: the id and the text of the new key. *)
Definition rerollKeyCore (c : WCtx) (keyId : string) (expiration : Z) (scopedWorkspaceId : string)
    (forWorkspaceId : option string) : M (string * string) :=
  newKeyId <- new_id "key" ;;
  now <- date_now ;;
  let gracePeriodEnd := now + expiration in
  catch (transaction (reroll_body c keyId newKeyId scopedWorkspaceId forWorkspaceId gracePeriodEnd))
    (fun err =>
       match err with
       | TRPCError _ _ => throw err
       | _ => throw (internal "We were unable to rotate this key. Please try again or contact support@unkey.com")
       end).

Definition GRACE_PERIOD_VALUES_MS : list Z := [0; 900000; 3600000; 21600000; 86400000].

Definition rerollRootKey (keyId : string) (expiration : Z) : WCtx -> M (string * string) :=
  withRatelimit "trpc_create" (fun c =>
    app <- appEnv ;;
    rerollKeyCore c keyId expiration (UNKEY_WORKSPACE_ID app) (Some (cw_id (c_workspace c)))).

End WithKeys.

(** ** Inversion *)

Section AroundFacts.

Context {A B C : Type}.

Lemma around_ret (pre : M A) (writes : list Sql) (inner : M B) (post : A -> B -> M C) env w r w' :
  ReadOnly pre ->
  transaction_around pre writes inner post env w = (Ret r, w') ->
  exists a b wp wp' wi w2 t w3,
    db wp = db w /\ pre env wp = (Ret a, wp') /\ db wi = db w /\ inner env wi = (Ret b, w2)
    /\ replay (collation env) writes (tables (db w2)) = Some t
    /\ post a b env (with_db (with_tables t (db w2)) w2) = (Ret r, w3) /\ tables (db w') = tables (db w3).
Proof.
  intros Hp H. unfold transaction_around in H.
  destruct ((call TxBegin ;; a <- pre ;; exec_all writes ;; ret a) env w) as [[a|e] w1] eqn:E1; [|done].
  apply bind_ret in E1 as ([] & wp & Hb & E1). call_in Hb Eb. apply bind_ret in E1 as (a' & wp' & Hpre & E1).
  apply bind_ret in E1 as (u & wx & _ & E1). apply ret_ret in E1 as [-> ->].
  destruct (inner env (with_db (db w) wx)) as [[b|e] w2] eqn:E2; [|done].
  destruct (replay (collation env) writes (tables (db w2))) as [t|] eqn:E3; [|done].
  destruct ((c <- post a' b ;; call TxCommit ;; ret c) env (with_db (with_tables t (db w2)) w2)) as [[c|e] w3] eqn:E4; [|done].
  injection H as <- <-. apply bind_ret in E4 as (c' & w4 & Hpost & E4). apply bind_ret in E4 as (u' & w5 & Hc & E4).
  apply ret_ret in E4 as [-> ->]. call_in Hc Ec.
  exists a', b, wp, wp', (with_db (db w) wx), w2, t, w4. rewrite Ec. done.
Qed.

(** On failure, what the inner connection committed is all that is left. *)
Lemma around_throw (pre : M A) (writes : list Sql) (inner : M B) (post : A -> B -> M C) env w e w' :
  Atomic inner -> transaction_around pre writes inner post env w = (Throw e, w') ->
  db w' = db w \/ exists b wi w2, db wi = db w /\ inner env wi = (Ret b, w2) /\ db w' = db w2.
Proof.
  intros Hi H. unfold transaction_around in H.
  destruct ((call TxBegin ;; a <- pre ;; exec_all writes ;; ret a) env w) as [[a|e1] w1] eqn:E1;
    [|injection H as <- <-; by left].
  destruct (inner env (with_db (db w) w1)) as [[b|e2] w2] eqn:E2; [|injection H as <- <-; left; exact (Hi _ _ _ _ E2)].
  destruct (replay (collation env) writes (tables (db w2))) as [t|];
    [|injection H as <- <-; right; by exists b, (with_db (db w) w1), w2].
  destruct ((c <- post a b ;; call TxCommit ;; ret c) env (with_db (with_tables t (db w2)) w2)) as [[c|e3] w3]; [done|].
  injection H as <- <-. right. by exists b, (with_db (db w) w1), w2.
Qed.

End AroundFacts.

Section UpsertFacts.

Context (c : WCtx).

Lemma plan_permissions_ret ws project existing slugs env w all new logs w' :
  plan_permissions c ws project existing slugs env w = (Ret (all, new, logs), w') ->
  tables (db w') = tables (db w) /\ List.map perm_slug all = slugs
  /\ (forall p, In p all -> In p existing \/ In p new) /\ (forall p, In p new -> perm_workspaceId p = ws).
Proof.
  revert w all new logs w'. induction slugs as [|slug slugs IH]; intros w all new logs w'; cbn [plan_permissions].
  { intros H. apply ret_ret in H as [H ->]. injection H as -> -> ->. done. }
  destruct (List.find _ existing) as [p|] eqn:Ef; intros H.
  - apply bind_ret in H as ([[all' new'] logs'] & w1 & H1 & H). apply ret_ret in H as [H ->]. injection H as -> -> ->.
    apply IH in H1 as (E & Hm & Ha & Hn). apply find_some in Ef as [Hin Hs%String.eqb_eq]. split; [done|].
    cbn. split; [by rewrite Hs, Hm|]. split; [|done]. intros q [<-|Hq]; [by left|auto].
  - apply bind_ret in H as (id & w1 & Hid & H). apply (read_tables _ _ _ _ _ (ReadOnly_new_id _)) in Hid.
    apply bind_ret in H as ([[all' new'] logs'] & w2 & H1 & H). apply ret_ret in H as [H ->]. injection H as -> -> ->.
    apply IH in H1 as (E & Hm & Ha & Hn). split; [congruence|]. cbn. split; [by rewrite Hm|]. split.
    + intros q [<-|Hq]; [right; by left|]. destruct (Ha q Hq); [by left|right; by right].
    + intros q [<-|Hq]; [done|auto].
Qed.

(** One permission of the workspace per slug, in the table. *)
Definition upserted (ws : string) (slugs : list string) (d : Tables) (permissions : list Permission) : Prop :=
  List.map perm_slug permissions = slugs
  /\ forall p, In p permissions -> In p (d schema_permissions) /\ perm_workspaceId p = ws.

Lemma upsertPermissions_ret ws slugs env w permissions logs w' :
  upsertPermissions c ws slugs env w = (Ret (permissions, logs), w') ->
  upserted ws slugs (tables (db w')) permissions
  /\ exists d1, project_step (collation env) ws (tables (db w)) d1
       /\ (tables (db w') = d1 \/ exists new, run_sql (collation env) (Insert schema_permissions new) d1 = Some (tables (db w'))
             /\ forall p, In p new -> perm_workspaceId p = ws).
Proof.
  unfold upsertPermissions. intros H. apply transaction_tables in H as (w1 & w2 & E1 & H & E2).
  apply bind_ret in H as (project & w3 & Hp & H). apply ensure_ret in Hp. rewrite E1 in Hp.
  apply bind_ret in H as (existing & w4 & Hf & H). apply find_many_ret in Hf as [Hf E4].
  apply bind_ret in H as ([[all new] logs'] & w5 & Hpl & H). apply plan_permissions_ret in Hpl as (E5 & Hm & Ha & Hn).
  apply bind_ret in H as (u & w6 & Hi & H). apply ret_ret in H as [H ->]. injection H as -> ->.
  assert (Hex : forall p, In p existing -> In p (tables (db w3) schema_permissions) /\ perm_workspaceId p = ws).
  { intros p Hin. rewrite <- Hf in Hin. apply filter_In in Hin as [Hin Hw]. own Hw. done. }
  rewrite E2. destruct new as [|n new].
  - apply ret_ret in Hi as [_ ->]. rewrite E5, E4. split; [|exists (tables (db w3)); auto].
    split; [done|]. intros p Hin. destruct (Ha p Hin) as [|[]]. auto.
  - apply exec_tables in Hi. rewrite E5, E4 in Hi. split; [|exists (tables (db w3)); split; [done|right; by exists (n :: new)]].
    split; [done|]. intros p Hin. rewrite (run_insert _ _ _ _ _ Hi). destruct (Ha p Hin) as [Hp'|Hp'].
    + destruct (Hex p Hp'). split; [apply in_or_app; by left|done].
    + split; [apply in_or_app; by right|auto].
Qed.

(** Permissions and projects are all that [upsertPermissions] writes. *)
Lemma upsertPermissions_other ws slugs env w r w' t :
  upsertPermissions c ws slugs env w = (Ret r, w') -> t <> schema_projects -> t <> schema_permissions ->
  tables (db w') t = tables (db w) t.
Proof.
  destruct r as [permissions logs]. intros H H1 H2. apply upsertPermissions_ret in H as (_ & d1 & Hp & Hd).
  rewrite <- (project_step_other _ _ _ _ t Hp H1). destruct Hd as [->|(new & Hi & _)]; [done|].
  by rewrite (run_other _ _ _ _ t Hi).
Qed.

End UpsertFacts.

(** ** Rotation *)

Section RotationFacts.

Context (base58_encode : list Z -> string) (digest : list Z -> list Z) (env : Env).

Lemma key_id_unique d a b :
  tables_ok (collation env) d -> In a (d schema_keys) -> In b (d schema_keys) -> key_id a = key_id b -> a = b.
Proof.
  intros Hok Ha Hb E. apply (unique_same _ _ a b (clash_sym _ _) (Hok schema_keys) Ha Hb). cbn. by rewrite E, String.eqb_refl.
Qed.

Lemma ReadOnly_new_key prefix n : ReadOnly (new_key base58_encode digest prefix n).
Proof. unfold new_key. destruct (_ || _); effects. Qed.

Lemma ReadOnly_copy_ratelimits ws id l : ReadOnly (copy_ratelimits ws id l).
Proof. induction l; cbn [copy_ratelimits]; effects. Qed.

(** The rows of a relation with another key. *)
Definition moved_permissions (ws newKeyId : string) (l : list KeyPermission) : list KeyPermission :=
  List.map (fun r => {| kp_keyId := newKeyId; kp_permissionId := kp_permissionId r; kp_workspaceId := ws |}) l.

Definition moved_roles (ws newKeyId : string) (l : list KeyRole) : list KeyRole :=
  List.map (fun r => {| kr_keyId := newKeyId; kr_roleId := kr_roleId r; kr_workspaceId := ws |}) l.

Lemma insert_nonempty t (rows : list (row t)) w u w' :
  (match rows with [] => ret tt | _ => exec_sql (Insert t rows) end) env w = (Ret u, w') ->
  tables (db w') t = tables (db w) t ++ rows /\ (forall t', t <> t' -> tables (db w') t' = tables (db w) t').
Proof.
  destruct rows as [|r rows]; intros H; steps H; [by rewrite app_nil_r|]. split; [by apply run_insert in H|].
  intros t' Ht. exact (run_other _ _ _ _ t' H Ht).
Qed.

(** [r'] is the limit [r] for the key [newKeyId]. *)
Definition limit_copied (ws newKeyId : string) (r r' : Ratelimit) : Prop :=
  rl_name r' = rl_name r /\ rl_limit r' = rl_limit r /\ rl_duration r' = rl_duration r /\ rl_autoApply r' = rl_autoApply r
  /\ rl_workspaceId r' = ws /\ rl_keyId r' = Some newKeyId /\ rl_identityId r' = None.

Lemma copy_ratelimits_ret ws newKeyId l w rows w' :
  copy_ratelimits ws newKeyId l env w = (Ret rows, w') -> Forall2 (limit_copied ws newKeyId) l rows.
Proof.
  revert w rows w'. induction l as [|r l IH]; intros w rows w' H; cbn [copy_ratelimits] in H.
  - apply ret_ret in H as [-> _]. constructor.
  - apply bind_ret in H as (id & w1 & _ & H). apply bind_ret in H as (rest & w2 & H1 & H). apply ret_ret in H as [-> _].
    constructor; [done|]. by eapply IH.
Qed.

(** The limits of the key alone. *)
Definition own_limit (k : Key) (r : Ratelimit) : bool :=
  Js.eq_ostring (rl_keyId r) (key_id k) && Js.truthy (rl_keyId r) && negb (Js.truthy (rl_identityId r)).

Lemma own_limits k l :
  List.filter (fun rl => Js.truthy (rl_keyId rl) && negb (Js.truthy (rl_identityId rl)))
    (List.filter (fun r => Js.eq_ostring (rl_keyId r) (key_id k)) l) = List.filter (own_limit k) l.
Proof.
  induction l as [|r l IH]; cbn; [done|]. unfold own_limit at 1. destruct (Js.eq_ostring _ _); cbn; [|done]. by rewrite IH.
Qed.

Lemma copy_limits_ret ws newKeyId l w u w' :
  (match l with
   | [] => ret tt
   | r :: l' => rows <- copy_ratelimits ws newKeyId (r :: l') ;; exec_sql (Insert schema_ratelimits rows)
   end) env w = (Ret u, w') ->
  (exists rows, tables (db w') schema_ratelimits = tables (db w) schema_ratelimits ++ rows /\ Forall2 (limit_copied ws newKeyId) l rows)
  /\ (forall t, schema_ratelimits <> t -> tables (db w') t = tables (db w) t).
Proof.
  intros H. destruct l as [|r l].
  - steps H. split; [|done]. exists []. by rewrite app_nil_r.
  - apply bind_ret in H as (rows & w1 & H1 & H). pose proof (copy_ratelimits_ret _ _ _ _ _ _ H1) as Hc.
    apply (read_tables _ _ _ _ _ (ReadOnly_copy_ratelimits _ _ _)) in H1. apply exec_tables in H. rewrite H1 in H. split.
    + exists rows. by rewrite (run_insert _ _ _ _ _ H).
    + intros t Ht. exact (run_other _ _ _ _ t H Ht).
Qed.

Lemma copy_relations_ret source newKeyId w u w' :
  copy_relations source newKeyId env w = (Ret u, w') ->
  let ws := key_workspaceId (src_key source) in
  tables (db w') schema_keysPermissions
    = tables (db w) schema_keysPermissions ++ moved_permissions ws newKeyId (src_permissions source)
  /\ tables (db w') schema_keysRoles = tables (db w) schema_keysRoles ++ moved_roles ws newKeyId (src_roles source)
  /\ (exists rows, tables (db w') schema_ratelimits = tables (db w) schema_ratelimits ++ rows
       /\ Forall2 (limit_copied ws newKeyId)
            (List.filter (fun rl => Js.truthy (rl_keyId rl) && negb (Js.truthy (rl_identityId rl))) (src_ratelimits source)) rows)
  /\ (forall t, t ∉ [schema_keysPermissions; schema_keysRoles; schema_ratelimits] -> tables (db w') t = tables (db w) t).
Proof.
  intros H ws. unfold copy_relations in H. fold ws in H. apply bind_ret in H as (u1 & w1 & H1 & H). apply bind_ret in H as (u2 & w2 & H2 & H).
  apply copy_limits_ret in H1 as [(rows & Hrows & Hcopied) E1].
  assert (H2' : (match moved_roles ws newKeyId (src_roles source) with
                 | [] => ret tt | _ => exec_sql (Insert schema_keysRoles (moved_roles ws newKeyId (src_roles source))) end) env w1 = (Ret u2, w2))
    by (by destruct (src_roles source)).
  assert (H' : (match moved_permissions ws newKeyId (src_permissions source) with
                | [] => ret tt | _ => exec_sql (Insert schema_keysPermissions (moved_permissions ws newKeyId (src_permissions source))) end) env w2 = (Ret u, w'))
    by (by destruct (src_permissions source)).
  apply (insert_nonempty schema_keysRoles) in H2' as [Hr Ho2]. apply (insert_nonempty schema_keysPermissions) in H' as [Hp Ho].
  split; [by rewrite Hp, Ho2, E1|]. split; [by rewrite Ho, Hr, E1|]. split.
  - exists rows. by rewrite Ho, Ho2, Hrows.
  - intros t Ht. rewrite !not_elem_of_cons in Ht. destruct Ht as (T1 & T2 & T3 & _). by rewrite Ho, Ho2, E1.
Qed.

(** [k'] has the terms of [k]: where it belongs, what it names, when it expires, and
    what it may still be used for. *)
Record same_terms (k k' : Key) : Prop := {
  st_keyAuthId : key_keyAuthId k' = key_keyAuthId k;
  st_workspaceId : key_workspaceId k' = key_workspaceId k;
  st_forWorkspaceId : key_forWorkspaceId k' = key_forWorkspaceId k;
  st_name : key_name k' = key_name k;
  st_identityId : key_identityId k' = key_identityId k;
  st_meta : key_meta k' = key_meta k;
  st_environment : key_environment k' = key_environment k;
  st_expires : key_expires k' = key_expires k;
  st_enabled : key_enabled k' = key_enabled k;
  st_remaining : key_remaining k' = key_remaining k;
  st_refillDay : key_refillDay k' = key_refillDay k;
  st_refillAmount : key_refillAmount k' = key_refillAmount k;
  st_lastRefillAt : key_refillAmount k <> None -> key_lastRefillAt k' = key_lastRefillAt k;
  st_live : key_deletedAtM k' = None;
}.

(** The rows of the encrypted text of the new key: one when the old key has one. *)
Definition encrypted_again (k : Key) (newKeyId text : string) (l l' : list EncryptedKey) : Prop :=
  if existsb (fun e => String.eqb (ek_keyId e) (key_id k)) l then
    exists tr e, ask env tr (VaultEncrypt (key_workspaceId k) text) = inr e
      /\ l' = l ++ [{| ek_workspaceId := key_workspaceId k; ek_keyId := newKeyId; ek_encrypted := fst e; ek_encryptionKeyId := snd e |}]
  else l' = l.

(** [k] was rotated to the key [newKeyId] of text [text] in workspace [ws]: the old key
    expires at [at_]; the new one is found by the hash of the text and has the terms,
    the limits, the roles and the permissions of the old one, and its text is
    encrypted when that of the old one was; nothing else has changed. *)
Definition rotated (ws : string) (k : Key) (at_ : Z) (newKeyId text : string) (d d' : Tables) : Prop :=
  (exists k', d' schema_keys
     = List.map (fun r => if String.eqb (key_id r) (key_id k) then set_expires at_ r else r) (d schema_keys) ++ [k']
     /\ key_id k' = newKeyId /\ key_hash k' = Hash.sha256 digest (DString text) /\ same_terms k k')
  /\ (forall r, In r (d schema_keys) -> key_id r <> newKeyId)
  /\ d' schema_keysPermissions = d schema_keysPermissions
       ++ moved_permissions ws newKeyId (List.filter (fun r => String.eqb (kp_keyId r) (key_id k)) (d schema_keysPermissions))
  /\ d' schema_keysRoles = d schema_keysRoles
       ++ moved_roles ws newKeyId (List.filter (fun r => String.eqb (kr_keyId r) (key_id k)) (d schema_keysRoles))
  /\ (exists limits, d' schema_ratelimits = d schema_ratelimits ++ limits
       /\ Forall2 (limit_copied ws newKeyId) (List.filter (own_limit k) (d schema_ratelimits)) limits)
  /\ encrypted_again k newKeyId text (d schema_encryptedKeys) (d' schema_encryptedKeys)
  /\ (forall t, t ∉ [schema_keys; schema_keysPermissions; schema_keysRoles; schema_ratelimits; schema_encryptedKeys] -> d' t = d t).

(** A key that already expires at [at_] needs no statement. *)
Lemma set_expires_same k at_ l :
  key_expires k = Some at_ -> (forall r, In r l -> key_id r = key_id k -> r = k) ->
  List.map (fun r => if String.eqb (key_id r) (key_id k) then set_expires at_ r else r) l = l.
Proof.
  intros He. induction l as [|r l IH]; intros Hu; cbn; [done|]. rewrite IH by (intros x Hx; apply Hu; by right). f_equal.
  destruct (String.eqb_spec (key_id r) (key_id k)) as [E|E]; [|done]. rewrite (Hu r) by (done || by left).
  destruct k; cbn in He. subst. done.
Qed.

(** The update of the old key leaves the new one alone. *)
Lemma set_expires_rows k new at_ l :
  (forall r, In r l -> key_id r = key_id k -> r = k) -> key_id new <> key_id k ->
  List.map (fun r => if String.eqb (key_id r) (key_id k) && String.eqb (key_workspaceId r) (key_workspaceId k)
                     then set_expires at_ r else r) (l ++ [new])
  = List.map (fun r => if String.eqb (key_id r) (key_id k) then set_expires at_ r else r) l ++ [new].
Proof.
  intros Hu Hn. rewrite map_app. f_equal.
  - apply map_ext_in. intros r Hr. destruct (String.eqb_spec (key_id r) (key_id k)) as [E|E]; [|done].
    by rewrite (Hu r Hr E), String.eqb_refl.
  - cbn. destruct (String.eqb_spec (key_id new) (key_id k)); [done|]. done.
Qed.

Lemma find_source_id keyId d source k :
  tables_ok (collation env) d -> find_source keyId d = Some source -> In k (d schema_keys) -> key_id k = keyId -> k = src_key source.
Proof.
  intros Hok H Hin Hk. unfold find_source in H. destruct (List.find _ _) as [k'|] eqn:E; [|done].
  apply find_some in E as [Hin' Hk'%String.eqb_eq]. injection H as <-. apply (key_id_unique d); [done..|cbn; by rewrite Hk, Hk'].
Qed.

(** The rows of the source are those of its key. *)
Record source_rows (source : KeySource) (d : Tables) : Prop := {
  sr_permissions : src_permissions source
    = List.filter (fun r => String.eqb (kp_keyId r) (key_id (src_key source))) (d schema_keysPermissions);
  sr_roles : src_roles source = List.filter (fun r => String.eqb (kr_keyId r) (key_id (src_key source))) (d schema_keysRoles);
  sr_ratelimits : src_ratelimits source
    = List.filter (fun r => Js.eq_ostring (rl_keyId r) (key_id (src_key source))) (d schema_ratelimits);
  sr_encrypted : src_encrypted source = existsb (fun e => String.eqb (ek_keyId e) (key_id (src_key source))) (d schema_encryptedKeys);
}.

Lemma find_source_rows keyId d source : find_source keyId d = Some source -> source_rows source d.
Proof. intros H. unfold find_source in H. destruct (List.find _ _) as [k|]; [|done]. by injection H as <-. Qed.

Lemma rotated_key_terms k newKeyId hash start : same_terms k (rotated_key k newKeyId hash start).
Proof. split; try done. cbn. by destruct (key_refillAmount k). Qed.

Lemma new_key_hash prefix n w text hash start w' :
  new_key base58_encode digest prefix n env w = (Ret (text, hash, start), w') -> hash = Hash.sha256 digest (DString text).
Proof.
  unfold new_key. destruct (_ || _); [done|]. intros H. apply bind_ret in H as (bytes & w1 & _ & H).
  unfold KeyV1.newKey in H. destruct (KeyV1.create _ _ _); [done|]. by apply ret_ret in H as [[= -> -> _] _].
Qed.

(** The statements of a rotation after the key was generated. *)
Lemma rotation_writes {R} source newKeyId text start (rec : option (string * string)) at_ (k : unit -> M R) w r w' :
  let key := src_key source in
  tables_ok (collation env) (tables (db w)) -> In key (tables (db w) schema_keys) ->
  (forall u w1 r w2, k u env w1 = (Ret r, w2) -> tables (db w2) = tables (db w1)) ->
  source_rows source (tables (db w)) ->
  (if src_encrypted source then exists tr e, rec = Some e /\ ask env tr (VaultEncrypt (key_workspaceId key) text) = inr e else rec = None) ->
  (exec_sql (Insert schema_keys [rotated_key key newKeyId (Hash.sha256 digest (DString text)) start]) ;;
   (match rec with
    | Some e => exec_sql (Insert schema_encryptedKeys
        [{| ek_workspaceId := key_workspaceId key; ek_keyId := newKeyId; ek_encrypted := fst e;
            ek_encryptionKeyId := snd e |}])
    | None => ret tt
    end) ;;
   copy_relations source newKeyId ;;
   u <- (if bool_decide (key_expires key = Some at_) then ret tt
         else exec_sql (Update schema_keys (fun r =>
                String.eqb (key_id r) (key_id key) && String.eqb (key_workspaceId r) (key_workspaceId key))
                (set_expires at_))) ;;
   k u) env w = (Ret r, w') ->
  rotated (key_workspaceId key) key at_ newKeyId text (tables (db w)) (tables (db w')).
Proof.
  intros key Hok Hin Hk [Hp Hr Hl Henc] Hrec H. apply bind_ret in H as (u1 & w1 & H1 & H). apply exec_tables in H1.
  apply bind_ret in H as (u2 & w2 & H2 & H). apply bind_ret in H as (u3 & w3 & H3 & H).
  apply bind_ret in H as (u4 & w4 & H4 & H). apply Hk in H.
  assert (Ek : forall t, t <> schema_encryptedKeys -> tables (db w2) t = tables (db w1) t).
  { intros t Ht. destruct rec; steps H2; [|done]. exact (run_other _ _ _ _ t H2 (not_eq_sym Ht)). }
  apply copy_relations_ret in H3 as (Ep & Er & (limits & El & Hlimits) & E3). rewrite Hp in Ep. rewrite Hr in Er. rewrite Hl, own_limits in Hlimits.
  assert (Hid : forall x, In x (tables (db w) schema_keys) -> key_id x = key_id key -> x = key)
    by (intros x Hx; by apply (key_id_unique _ _ _ Hok Hx Hin)).
  assert (Hnew : forall x, In x (tables (db w) schema_keys) -> key_id x <> newKeyId).
  { intros x Hx Ex. apply run_put in H1 as [_ Hu]. apply unique_app in Hu as (_ & _ & Hu).
    specialize (Hu x _ Hx (or_introl eq_refl)). cbn in Hu. rewrite Ex, String.eqb_refl in Hu. done. }
  assert (Ekeys : tables (db w3) schema_keys = tables (db w) schema_keys ++ [rotated_key key newKeyId (Hash.sha256 digest (DString text)) start]).
  { rewrite E3, (Ek schema_keys), (run_insert _ _ _ _ _ H1) by (set_solver || done). done. }
  assert (Ho : forall t, t <> schema_keys -> tables (db w') t = tables (db w3) t).
  { intros t Ht. rewrite H. destruct (bool_decide _); steps H4; [done|]. exact (run_other _ _ _ _ t H4 (not_eq_sym Ht)). }
  assert (E1 : forall t, schema_keys <> t -> tables (db w1) t = tables (db w) t) by (intros t Ht; exact (run_other _ _ _ _ t H1 Ht)).
  split; [|split; [done|split; [|split; [|split; [|split]]]]].
  - exists (rotated_key key newKeyId (Hash.sha256 digest (DString text)) start).
    split; [|split; [done|split; [done|apply rotated_key_terms]]]. rewrite H. case_bool_decide as Hb; steps H4.
    + by rewrite Ekeys, (set_expires_same key at_) by done.
    + rewrite (run_update _ _ _ _ _ _ H4), Ekeys. apply set_expires_rows; [done|]. cbn. intros E. by apply (Hnew key).
  - by rewrite Ho, Ep, Ek, E1.
  - by rewrite Ho, Er, Ek, E1.
  - exists limits. by rewrite Ho, El, Ek, E1.
  - unfold encrypted_again. subst key. rewrite <- Henc, Ho, E3, <- (E1 schema_encryptedKeys) by (set_solver || done).
    destruct (src_encrypted source).
    + destruct Hrec as (tr & e & -> & Ha). exists tr, e. split; [done|]. steps H2. exact (run_insert _ _ _ _ _ H2).
    + subst rec. by steps H2.
  - intros t Ht. rewrite !not_elem_of_cons in Ht. destruct Ht as (T1 & T2 & T3 & T4 & T5 & _).
    rewrite Ho, E3, Ek, E1 by (set_solver || done). done.
Qed.

Lemma reroll_body_ret c keyId newKeyId ws forWs gracePeriodEnd w r w' :
  tables_ok (collation env) (tables (db w)) -> Js.truthy (Some forWs) = true ->
  reroll_body base58_encode digest c keyId newKeyId ws (Some forWs) gracePeriodEnd env w = (Ret r, w') ->
  exists k, In k (tables (db w) schema_keys) /\ key_id k = keyId /\ key_workspaceId k = ws /\ key_forWorkspaceId k = Some forWs
    /\ key_deletedAtM k = None /\ fst r = newKeyId
    /\ rotated ws k (capGracePeriodAtSourceExpiry (key_expires k) gracePeriodEnd) newKeyId (snd r) (tables (db w)) (tables (db w')).
Proof.
  intros Hok Hf H. unfold reroll_body in H. rewrite Hf in H.
  apply bind_ret in H as (locked & w1 & H1 & H). apply find_first_ret in H1 as [H1 E1].
  destruct locked as [k|]; [|done]. apply find_some in H1 as [Hin Hk]. own Hk.
  apply bind_ret in H as (so & w2 & Hq2 & H). apply select_tables in Hq2 as [Hq2 E2]. destruct so as [source|]; [|done].
  rewrite E1 in Hq2, E2. assert (k = src_key source) as -> by (by apply (find_source_id keyId (tables (db w)))). apply find_source_rows in Hq2 as Hrows.
  apply bind_ret in H as (n & w3 & Hq3 & H). apply date_now_tables in Hq3 as [_ E3]. rewrite E2 in E3. clear Hq2 E1 E2.
  destruct (match key_expires (src_key source) with Some e => e <=? n | None => false end); [done|]. destruct (src_keyAuth source) as [keyAuth|]; [|done].
  destruct (_ && _); [done|]. apply bind_ret in H as ([[text hash] start] & w4 & Hq4 & H).
  pose proof (new_key_hash _ _ _ _ _ _ _ Hq4) as ->.
  apply (read_tables _ _ _ _ _ (ReadOnly_new_key _ _)) in Hq4. rewrite E3 in Hq4. clear E3.
  apply bind_ret in H as (rec & w5 & Hq5 & H).
  assert (Hrec : if src_encrypted source then exists tr e, rec = Some e /\ ask env tr (VaultEncrypt (key_workspaceId (src_key source)) text) = inr e
                 else rec = None).
  { destruct (src_encrypted source); [|by apply ret_ret in Hq5 as [-> _]]. apply bind_ret in Hq5 as (e & w6 & He & Hq5).
    apply call_ret in He as [He _]. apply ret_ret in Hq5 as [-> _]. by exists (trace w4), e. }
  eapply read_tables in Hq5; [|destruct (src_encrypted source); effects]. rewrite Hq4 in Hq5. clear Hq4.
  assert (Hfw : key_forWorkspaceId (src_key source) = Some forWs)
    by (destruct (key_forWorkspaceId _) as [f|]; [|done]; f_equal; by apply String.eqb_eq).
  exists (src_key source). rewrite <- Hq5 in *. repeat split_and; try done; [by eapply bool_decide_eq_true_1|by steps H|].
  subst. assert (Er : r = (newKeyId, text)) by (steps H; done). rewrite Er in *. cbn [snd].
  refine (rotation_writes _ _ _ _ _ _ (fun _ => _) _ _ _ Hok Hin _ Hrows Hrec H).
  intros _ w6 r' w7 Hf7. destruct (Dates.toISOString _); steps Hf7; done.
Qed.

End RotationFacts.

(** Claim C20. A rotation replaces one root key of the caller and never prolongs it.
    When it succeeds, the key was a live root key bound to the workspace of the
    caller; the new key has a fresh id, the hash of the text that is returned, and the
    name, the expiry, the remaining uses, the refill, the rate limits, the roles and
    the permissions of the old one, enabled when it was and encrypted when it was; the
    old key expires at the end of the grace period or at its own expiry, whichever is
    first; every other key, every other connection and every other table is as it was. *)
Theorem rerollRootKey_rotates base58_encode digest keyId expiration c env w newKeyId text w' :
  tables_ok (collation env) (tables (db w)) -> cw_id (c_workspace c) <> EmptyString ->
  rerollRootKey base58_encode digest keyId expiration c env w = (Ret (newKeyId, text), w') ->
  exists k at_ t,
    In k (tables (db w) schema_keys) /\ key_id k = keyId /\ key_workspaceId k = UNKEY_WORKSPACE_ID (app_env env)
    /\ key_forWorkspaceId k = Some (cw_id (c_workspace c)) /\ key_deletedAtM k = None
    /\ at_ <= clock env t + expiration
    /\ match key_expires k with Some e => at_ = Z.min e (clock env t + expiration) | None => at_ = clock env t + expiration end
    /\ rotated digest env (UNKEY_WORKSPACE_ID (app_env env)) k at_ newKeyId text (tables (db w)) (tables (db w')).
Proof.
  intros Hok Hws H. unfold rerollRootKey in H. apply withRatelimit_ret in H as (w1 & E1 & H). rewrite <- E1 in *. clear w E1.
  apply bind_ret in H as (app & w2 & Ha & H). apply appEnv_ret in Ha as [-> ->]. unfold rerollKeyCore in H.
  apply bind_ret in H as (id & w3 & Hid & H). apply (read_tables _ _ _ _ _ (ReadOnly_new_id _)) in Hid.
  apply bind_ret in H as (now & w4 & Hn & H). apply date_now_tables in Hn as [-> E4]. rewrite Hid in E4. rewrite <- E4 in *.
  apply catch_ret in H as [H|(e & w5 & _ & H)]; [|by destruct e].
  apply transaction_tables in H as (w6 & w7 & E6 & H & E7). rewrite <- E6 in *. rewrite E7.
  apply reroll_body_ret in H as (k & Hin & Hk & Hw & Hf & Hd & E & Hrot); [|done|by apply negb_true_iff, String.eqb_neq].
  cbn in E. subst id. exists k, (capGracePeriodAtSourceExpiry (key_expires k) (clock env (trace w3) + expiration)), (trace w3).
  repeat split_and; try done; unfold capGracePeriodAtSourceExpiry; destruct (key_expires k) as [e|]; try lia;
    destruct (e <? _) eqn:El; lia.
Qed.

(** ** Permissions of a root key *)

Section PermissionFacts.

Context (keyId ws : string) (perms : list Permission).

Definition of_key (l : list KeyPermission) : list KeyPermission := List.filter (fun r => String.eqb (kp_keyId r) keyId) l.
Definition of_others (l : list KeyPermission) : list KeyPermission :=
  List.filter (fun r => negb (String.eqb (kp_keyId r) keyId)) l.

Lemma of_key_rows l : of_key (key_permissions ws keyId l) = key_permissions ws keyId l.
Proof. unfold of_key, key_permissions. induction l as [|p l IH]; cbn; [done|]. by rewrite String.eqb_refl, IH. Qed.

Lemma of_others_rows l : of_others (key_permissions ws keyId l) = [].
Proof. unfold of_others, key_permissions. induction l as [|p l IH]; cbn; [done|]. by rewrite String.eqb_refl, IH. Qed.

Lemma current_ids d :
  List.map (fun kp => kp_permissionId (fst kp)) (current_permissions keyId d)
  = List.map kp_permissionId (of_key (d schema_keysPermissions)).
Proof. unfold current_permissions. by rewrite List.map_map. Qed.

(** The rows of the key after the ones in [gone] were removed and [added] inserted. *)
Definition replaced (gone : list string) (added : list Permission) (l : list KeyPermission) : list KeyPermission :=
  List.filter (fun r => negb (String.eqb (kp_keyId r) keyId && Js.includes gone (kp_permissionId r))) l
  ++ key_permissions ws keyId added.

Lemma replaced_others gone added l : of_others (replaced gone added l) = of_others l.
Proof.
  unfold replaced, of_others. rewrite List.filter_app. fold (of_others (key_permissions ws keyId added)).
  rewrite of_others_rows, app_nil_r. induction l as [|r l IH]; cbn; [done|].
  destruct (String.eqb (kp_keyId r) keyId) eqn:E; cbn; [destruct (Js.includes _ _); cbn; rewrite ?E|rewrite E; cbn; rewrite IH]; done.
Qed.

(** What is left is what is wanted. *)
Lemma replaced_ids l :
  let current := List.map kp_permissionId (of_key l) in
  let wanted := List.map perm_id perms in
  let gone := List.filter (fun id => negb (Js.includes wanted id)) current in
  let added := List.filter (fun p => negb (Js.includes current (perm_id p))) perms in
  forall id, In id (List.map kp_permissionId (of_key (replaced gone added l))) <-> In id wanted.
Proof.
  intros current wanted gone added id. unfold replaced, of_key at 1. rewrite List.filter_app, map_app, in_app_iff.
  fold (of_key (key_permissions ws keyId added)). rewrite of_key_rows. split.
  - intros [H|H]; apply in_map_iff in H as (r & <- & H).
    + apply filter_In in H as [H Hk]. apply filter_In in H as [H Hg].
      destruct (Js.includes wanted (kp_permissionId r)) eqn:E; [by apply StrFacts.includes_In|].
      exfalso. rewrite Hk in Hg. cbn in Hg. apply negb_true_iff in Hg. enough (Js.includes gone (kp_permissionId r) = true) by congruence.
      apply StrFacts.includes_In, filter_In. rewrite E. split; [|done]. apply in_map, filter_In. done.
    + apply in_map_iff in H as (p & <- & H). apply filter_In in H as [H _]. exact (in_map perm_id _ _ H).
  - intros H. destruct (Js.includes current id) eqn:E.
    + left. apply StrFacts.includes_In, in_map_iff in E as (r & <- & Hr). apply filter_In in Hr as [Hr Hk].
      apply in_map, filter_In. split; [|done]. apply filter_In. split; [done|]. rewrite Hk. cbn. apply negb_true_iff.
      destruct (Js.includes gone _) eqn:Eg; [|done]. apply StrFacts.includes_In, filter_In in Eg as [_ Eg].
      apply StrFacts.includes_In in H. rewrite H in Eg. done.
    + right. apply in_map_iff in H as (p & <- & Hp). apply in_map_iff.
      exists {| kp_keyId := keyId; kp_permissionId := perm_id p; kp_workspaceId := ws |}. split; [done|].
      unfold key_permissions. apply (in_map (fun p => {| kp_keyId := keyId; kp_permissionId := perm_id p; kp_workspaceId := ws |})).
      apply filter_In. by rewrite E.
Qed.

Lemma write_permissions_ret gone added env w u w' :
  write_permissions keyId ws gone added env w = (Ret u, w') ->
  tables (db w') schema_keysPermissions
    = replaced (List.map (fun kp => kp_permissionId (fst kp)) gone) added (tables (db w) schema_keysPermissions)
  /\ forall t, t <> schema_keysPermissions -> tables (db w') t = tables (db w) t.
Proof.
  intros H. unfold write_permissions in H. apply bind_ret in H as (u1 & w1 & H1 & H). apply bind_ret in H as (u2 & w2 & H2 & H).
  assert (E1 : tables (db w1) schema_keysPermissions = List.filter (fun r => negb (String.eqb (kp_keyId r) keyId
      && Js.includes (List.map (fun kp => kp_permissionId (fst kp)) gone) (kp_permissionId r))) (tables (db w) schema_keysPermissions)
    /\ forall t, t <> schema_keysPermissions -> tables (db w1) t = tables (db w) t).
  { destruct gone as [|g gone]; steps H1.
    - split; [|done]. symmetry. apply filter_all. intros r _. by rewrite andb_false_r.
    - split; [exact (run_delete _ _ _ _ _ H1)|]. intros t Ht. exact (run_other _ _ _ _ t H1 (not_eq_sym Ht)). }
  assert (E2 : tables (db w2) schema_keysPermissions = tables (db w1) schema_keysPermissions ++ key_permissions ws keyId added
    /\ forall t, t <> schema_keysPermissions -> tables (db w2) t = tables (db w1) t).
  { destruct added as [|a added]; steps H2; [by rewrite app_nil_r|]. split; [exact (run_insert _ _ _ _ _ H2)|].
    intros t Ht. exact (run_other _ _ _ _ t H2 (not_eq_sym Ht)). }
  assert (E3 : forall t, tables (db w') t = tables (db w2) t).
  { destruct gone, added; steps H; [done|..];
      (intros t; destruct (decide (schema_keys = t)) as [<-|Ht]; [|exact (run_other _ _ _ _ t H Ht)];
       rewrite (run_update _ _ _ _ _ _ H); etransitivity; [|apply map_id]; apply map_ext; intros k;
       by destruct (String.eqb _ _)). }
  destruct E1 as [E1 O1], E2 as [E2 O2]. split; [by rewrite E3, E2, E1|]. intros t Ht. by rewrite E3, O2, O1.
Qed.

End PermissionFacts.

(** Updating the permissions of a root key sets them. When
    [updateRootKeyPermissions] succeeds, the key was a live root key of the
    caller's workspace, the permissions connected to it are exactly one per
    requested name, found or created in the workspace of Unkey, and the
    connections of every other key are as they were. *)
Theorem updateRootKeyPermissions_sets keyId permissions c env w u w' :
  updateRootKeyPermissions keyId permissions c env w = (Ret u, w') ->
  let d := tables (db w) in let d' := tables (db w') in
  (exists k, In k (d schema_keys) /\ key_id k = keyId /\ key_forWorkspaceId k = Some (cw_id (c_workspace c)) /\ key_deletedAtM k = None)
  /\ (exists perms, upserted (UNKEY_WORKSPACE_ID (app_env env)) permissions d' perms
       /\ forall id, In id (List.map kp_permissionId (List.filter (fun r => String.eqb (kp_keyId r) keyId) (d' schema_keysPermissions)))
            <-> In id (List.map perm_id perms))
  /\ List.filter (fun r => negb (String.eqb (kp_keyId r) keyId)) (d' schema_keysPermissions)
     = List.filter (fun r => negb (String.eqb (kp_keyId r) keyId)) (d schema_keysPermissions)
  /\ d' schema_keys = d schema_keys.
Proof.
  intros H d d'. unfold updateRootKeyPermissions in H. apply bind_ret in H as (key & w1 & H1 & H).
  apply or_throw_ret, find_first_ret in H1 as [Hkey E1]. destruct key as [key|]; [|done].
  apply bind_ret in H as (app & w2 & Ha & H). apply appEnv_ret in Ha as [-> ->].
  apply or_throw_ret, around_ret in H as (cur & [perms logs] & wp & wp' & wi & w2 & t & w3 & Ep & Hcur & Ei & Hup & Ht & H & Ed); [|effects].
  apply or_throw_ret, select_tables in Hcur as [<- _]. rewrite Ep, E1 in H. fold d in H.
  assert (Hother : forall t', t' <> schema_projects -> t' <> schema_permissions -> tables (db w2) t' = d t')
    by (intros t' Hp Hq; rewrite (upsertPermissions_other _ _ _ _ _ _ _ t' Hup Hp Hq), Ei; by rewrite E1).
  apply upsertPermissions_ret in Hup as [Hups _]. injection Ht as <-.
  apply bind_ret in H as (u1 & w4 & Hwr & H). apply insertAuditLogs_tables in H. rewrite H in Ed. clear H.
  apply write_permissions_ret in Hwr as [Hkp Ho]. cbn [db with_db tables with_tables] in Hkp, Ho.
  rewrite (Hother schema_keysPermissions) in Hkp by done. unfold d'. rewrite Ed, Hkp.
  rewrite current_ids, (map_filter (fun kp => kp_permissionId (fst kp)) (fun id => negb (Js.includes (List.map perm_id perms) id))),
    current_ids. split.
  { exists key. apply find_some in Hkey as [Hin Hk]. cbv beta in Hk. unfold live_root_key in Hk. bool_hyps. split; [done|].
    destruct (key_forWorkspaceId key) as [f|]; [|done]. split; [done|]. split; [f_equal; by apply String.eqb_eq|].
    by eapply bool_decide_eq_true_1. }
  split; [|split; [apply replaced_others|by rewrite Ho, Hother by done]]. exists perms. split.
  - destruct Hups as [Hs Hin]. split; [done|]. intros p Hp. rewrite Ho by done. by apply Hin.
  - apply replaced_ids.
Qed.

(** ** Creation of a root key *)

Lemma upsertPermissions_kept c ws slugs env w r w' :
  upsertPermissions c ws slugs env w = (Ret r, w') -> kept ws (tables (db w)) (tables (db w')).
Proof.
  destruct r as [perms logs]. intros H. apply upsertPermissions_ret in H as (_ & d1 & Hp & Hd).
  transitivity d1; [exact (project_step_kept _ _ _ _ Hp)|]. destruct Hd as [->|(new & Hi & Hn)]; [done|].
  apply (kept_insert _ _ _ _ _ _ Hi). exact Hn.
Qed.

(** The outer transaction of [createRootKey]. *)
Lemma create_around c unkey row permissions keyId name env w o w' :
  transaction_around (ret tt) [Insert schema_keys [row]] (upsertPermissions c unkey permissions)
    (fun _ upserted =>
       let '(perms, createPermissionLogs) := upserted in
       exec_sql (Insert schema_keysPermissions (key_permissions unkey keyId perms)) ;;
       insertAuditLogs (rbac_log c "key.create" ("Created " +:+ keyId) [resource "key" keyId name] None
                        :: createPermissionLogs ++ connect_logs c keyId name perms)) env w = (o, w') ->
  let d := tables (db w) in let d' := tables (db w') in
  match o with
  | Ret _ => exists perms, d' schema_keys = d schema_keys ++ [row] /\ upserted unkey permissions d' perms
      /\ d' schema_keysPermissions = d schema_keysPermissions ++ key_permissions unkey keyId perms
  | Throw _ => (forall t, t <> schema_projects -> t <> schema_permissions -> d' t = d t) /\ kept unkey d d'
  end.
Proof.
  intros H d d'. destruct o as [r|e].
  - apply around_ret in H as (a & [perms logs] & wp & wp' & wi & w2 & t & w3 & _ & _ & Ei & Hup & Ht & H & Ed); [|effects].
    assert (Ho : forall t', t' <> schema_projects -> t' <> schema_permissions -> tables (db w2) t' = d t')
      by (intros t' H1 H2; rewrite (upsertPermissions_other _ _ _ _ _ _ _ t' Hup H1 H2); by rewrite Ei).
    apply upsertPermissions_ret in Hup as [[Hs Hin] _]. cbn [replay] in Ht.
    destruct (run_sql _ _ _) as [t'|] eqn:Hk; [|done]. injection Ht as ->.
    steps H. cbn [db with_db tables with_tables] in Hs0. rewrite H in Ed. exists perms. unfold d'. rewrite Ed.
    rewrite (run_other _ _ _ _ schema_keys Hs0), (run_insert _ _ _ _ _ Hk), (run_insert _ _ _ _ _ Hs0),
      (run_other _ _ _ _ schema_keysPermissions Hk), !Ho by done. split_and!; [done| |done].
    split; [done|]. intros p Hp. rewrite (run_other _ _ _ _ schema_permissions Hs0), (run_other _ _ _ _ schema_permissions Hk) by done.
    by apply Hin.
  - apply around_throw in H as [H|(r & wi & w2 & Ei & Hup & H)]; [|..|apply Atomic_transaction].
    + unfold d', d. rewrite H. split; [done|reflexivity].
    + unfold d', d. rewrite H, <- Ei. split; [|exact (upsertPermissions_kept _ _ _ _ _ _ _ Hup)].
      intros t H1 H2. exact (upsertPermissions_other _ _ _ _ _ _ _ t Hup H1 H2).
Qed.

(** What [createRootKey] leaves, by its outcome. *)
Definition created_whole (c : WCtx) (unkey : string) (name : option string) (permissions : list string)
    (o : Outcome (string * string)) (d d' : Tables) : Prop :=
  match o with
  | Ret (_, keyId) => exists keyAuthId hash start perms,
      d' schema_keys = d schema_keys ++ [root_key_row c unkey keyId keyAuthId hash start name]
      /\ upserted unkey permissions d' perms
      /\ d' schema_keysPermissions = d schema_keysPermissions ++ key_permissions unkey keyId perms
  | Throw _ => (forall t, t <> schema_projects -> t <> schema_permissions -> d' t = d t) /\ kept unkey d d'
  end.

(** A root key is created with exactly the permissions that were asked for, or
    not at all. On success one key is added, bound to the workspace of the caller
    and never expiring, with one connection per requested permission of the
    workspace of Unkey; on failure no key and no connection is added, and nothing
    but permissions and the default project of the workspace of Unkey has changed. *)
Theorem createRootKey_whole base58_encode digest name permissions c env w o w' :
  createRootKey base58_encode digest name permissions c env w = (o, w') ->
  created_whole c (UNKEY_WORKSPACE_ID (app_env env)) name permissions o (tables (db w)) (tables (db w')).
Proof.
  intros H. unfold createRootKey in H.
  assert (Hnone : forall w1, db w1 = db w -> (exists e, o = Throw e /\ db w' = db w1) ->
      created_whole c (UNKEY_WORKSPACE_ID (app_env env)) name permissions o (tables (db w)) (tables (db w')))
    by (intros w1 E1 (e & -> & E); rewrite E, E1; split; [done|reflexivity]).
  assert (Hthrow : forall e w1, db w1 = db w -> throw e env w1 = (o, w') -> exists e, o = Throw e /\ db w' = db w1)
    by (intros e w1 _ [= <- <-]; eauto).
  apply after_read in H as [H|(app & w1 & Ha & E1 & H)]; [by eapply Hnone|..|effects]. apply appEnv_ret in Ha as [-> _].
  apply after_read in H as [H|(api & w2 & _ & E2 & H)]; [by eapply Hnone|..|effects]. rewrite E1 in E2.
  destruct api as [api|]; [|by eapply Hnone, Hthrow]. destruct (api_keyAuthId api) as [keyAuthId|]; [|by eapply Hnone, Hthrow].
  destruct (negb _); [by eapply Hnone, Hthrow|].
  apply after_read in H as [H|(keyId & w3 & _ & E3 & H)]; [by eapply Hnone|..|effects]. rewrite E2 in E3.
  apply after_read in H as [H|([[key hash] start] & w4 & _ & E4 & H)]; [by eapply Hnone|..|apply ReadOnly_new_key]. rewrite E3 in E4.
  unfold bind at 1, or_throw at 1, catch in H. rewrite <- E4.
  destruct (transaction_around _ _ _ _ env w4) as [[u|e] w5] eqn:Ea; apply create_around in Ea; injection H as <- <-; [|done].
  exact (ex_intro _ keyAuthId (ex_intro _ hash (ex_intro _ start Ea))).
Qed.

(** ** Instances *)

(** The tables of Unkey's own workspace with one root key of workspace ws_1. *)
Definition demo_root_key : Key :=
  set_expires 2000000 (root_key_row (demo_ctx compute_db) "ws_unkey" "key_old" "ks_unkey" "hash_old" "unkey_abc" None).

Definition root_tables : Tables := fun t =>
  match t return list (row t) with
  | schema_apis => [{| api_id := "api_unkey"; api_workspaceId := "ws_unkey"; api_name := "unkey"; api_projectId := "proj_1";
                       api_authType := Some "key"%string; api_keyAuthId := Some "ks_unkey"%string; api_deletedAtM := None;
                       api_deleteProtection := None |}]
  | schema_keyAuth => [{| ka_id := "ks_unkey"; ka_workspaceId := "ws_unkey"; ka_projectId := "proj_1"; ka_deletedAtM := None; ka_storeEncryptedKeys := false;
                          ka_defaultPrefix := None; ka_defaultBytes := None |}]
  | schema_keys => [demo_root_key]
  | schema_ratelimits => [{| rl_id := "rl_1"; rl_name := "requests"; rl_workspaceId := "ws_unkey"; rl_keyId := Some "key_old"%string;
                             rl_identityId := None; rl_limit := 10; rl_duration := 60000; rl_autoApply := true |}]
  | schema_keysPermissions => [{| kp_keyId := "key_old"; kp_permissionId := "perm_2"; kp_workspaceId := "ws_unkey" |}]
  | _ => []
  end.

Definition root_db : Db := with_tables root_tables compute_db.

(** Text for bytes, and a digest, at which the theorems are instantiated. *)
Definition demo_base58 (l : list Z) : string := String.concat EmptyString (List.map Num.string_of_Z l).
Definition demo_digest (l : list Z) : list Z := List.firstn 4 l.

Lemma root_ok : tables_ok Str.to_lower root_tables.
Proof. intros []; reflexivity. Qed.

Lemma rerollRootKey_rotates_witness :
  exists r w' k at_, rerollRootKey demo_base58 demo_digest "key_old" 900000 (demo_ctx compute_db) demo_env (world_of root_db) = (Ret r, w')
    /\ rotated demo_digest demo_env "ws_unkey" k at_ (fst r) (snd r) root_tables (tables (db w')) /\ at_ <= 2000000.
Proof.
  destruct (rerollRootKey demo_base58 demo_digest "key_old" 900000 (demo_ctx compute_db) demo_env (world_of root_db))
    as [[[newKeyId text]|e] w'] eqn:E; [|vm_compute in E; discriminate].
  destruct (rerollRootKey_rotates demo_base58 demo_digest "key_old" 900000 (demo_ctx compute_db) demo_env (world_of root_db)
    newKeyId text w' root_ok (fun H => eq_ind "ws_1"%string (fun s => match s with EmptyString => False | _ => True end) I _ H) E)
    as (k & at_ & t & [<-|[]] & _ & _ & _ & _ & _ & Hat & Hrot).
  exists (newKeyId, text), w', demo_root_key, at_. split; [reflexivity|]. split; [exact Hrot|]. cbn in Hat. lia.
Defined.

Lemma updateRootKeyPermissions_sets_witness :
  exists w' perms, updateRootKeyPermissions "key_old" ["api.read"%string] (demo_ctx compute_db) demo_env (world_of root_db) = (Ret tt, w')
    /\ upserted "ws_unkey" ["api.read"%string] (tables (db w')) perms.
Proof.
  destruct (updateRootKeyPermissions "key_old" ["api.read"%string] (demo_ctx compute_db) demo_env (world_of root_db))
    as [[[]|e] w'] eqn:E; [|vm_compute in E; discriminate].
  destruct (updateRootKeyPermissions_sets "key_old" ["api.read"%string] (demo_ctx compute_db) demo_env (world_of root_db) tt w' E)
    as (_ & (perms & Hp & _) & _). exists w', perms. split; [reflexivity|exact Hp].
Defined.

Lemma createRootKey_whole_witness :
  exists r w', createRootKey demo_base58 demo_digest None ["api.read"%string] (demo_ctx compute_db) demo_env (world_of root_db) = (Ret r, w')
    /\ created_whole (demo_ctx compute_db) "ws_unkey" None ["api.read"%string] (Ret r) root_tables (tables (db w')).
Proof.
  destruct (createRootKey demo_base58 demo_digest None ["api.read"%string] (demo_ctx compute_db) demo_env (world_of root_db))
    as [[r|e] w'] eqn:E; [|vm_compute in E; discriminate].
  exists r, w'. split; [reflexivity|].
  exact (createRootKey_whole demo_base58 demo_digest None ["api.read"%string] (demo_ctx compute_db) demo_env (world_of root_db) _ w' E).
Defined.

(** An environment in which the outbox of the audit logs refuses every insert. *)
Definition no_outbox_env : Env :=
  {| stripe_env := stripe_env demo_env; app_env := app_env demo_env; request_headers := fun _ => None; collation := collation demo_env;
     SLACK_WEBHOOK_CUSTOMERS := SLACK_WEBHOOK_CUSTOMERS demo_env; clock := clock demo_env; fresh := fresh demo_env; teardown_done := teardown_done demo_env;
     ask := fun _ c => match c return Exn + Resp c with
                       | DbExec (InsertOutbox _) => inl (OtherError "outbox")
                       | c => demo_answer c
                       end |}.

(** [createRootKey] upserts the permissions on another connection than its
    own transaction. When the transaction fails at the audit log, no key was
    created, but the permission it asked for stays, and no audit log records it. *)
Theorem createRootKey_orphans :
  let run := createRootKey demo_base58 demo_digest None ["api.read"%string] (demo_ctx compute_db) no_outbox_env (world_of root_db) in
  (exists e, fst run = Throw e)
  /\ tables (db (snd run)) schema_keys = root_tables schema_keys
  /\ root_tables schema_permissions = []
  /\ List.map perm_slug (tables (db (snd run)) schema_permissions) = ["api.read"%string]
  /\ clickhouse_outbox (db (snd run)) = [].
Proof. vm_compute. split; [eexists|]; done. Qed.
