(* ===== verification/Secrets.v ===== *)
(** * One-time secrets

    web/apps/dashboard/lib/trpc/routers/share (create.ts, reveal.ts): a secret is
    encrypted by the vault and stored under a random id that only its link carries;
    revealing it deletes the row. The transaction of [revealSharedSecret] is a program
    of statements ([reveal_tx]) that is run in two ways: on its own, as a procedure of
    the server, and step by step as a session of the database, interleaved with other
    sessions, where a row that one of them selected FOR UPDATE or deleted is locked
    until it commits or rolls back. *)

From Stdlib Require Import ZArith Bool Ascii String Lia.
From stdpp Require Import base list gmap strings relations.
From S2P Require Import Prelude Tables Encoding StripeTypes DeployPlan Effects Fixtures BillingOps Trpc Store LinkSubscription.

Local Open Scope Z_scope.

(** [Buffer.toString("base64url")]. *)
Fixpoint base64url_chars (s : string) : string :=
  match s with
  | EmptyString => EmptyString
  | String c r =>
      if Ascii.eqb c "=" then base64url_chars r
      else String (if Ascii.eqb c "+" then "-" else if Ascii.eqb c "/" then "_" else c)%char (base64url_chars r)
  end.

Definition base64url (bytes : list Z) : string := base64url_chars (encode bytes).

Definition TTL_MS : Z := 72 * 60 * 60 * 1000.

Definition LINK_FAILED : Exn := internal "Could not create a secure link. Please try again.".

Definition store_secret (c : WCtx) (id secret : string) : M unit :=
  let ws := cw_id (c_workspace c) in
  enc <- call (VaultEncrypt ws secret) ;;
  now <- date_now ;;
  exec_sql (Delete schema_sharedSecrets (fun r => ss_expiresAt r <? now)) ;;
  transaction (
    exec_sql (Insert schema_sharedSecrets
      [{| ss_id := id; ss_workspaceId := ws; ss_expiresAt := now + TTL_MS; ss_encrypted := fst enc;
          ss_encryptionKeyId := snd enc |}]) ;;
    insertAuditLogs [user_log c ws "secret.create" "Created a one-time share link" [] None]).

Definition share_url (base id : string) : string := base +:+ "/share#" +:+ id.

Definition createSharedSecret (secret : string) : WCtx -> M string :=
  withRatelimit "trpc_create" (fun c =>
    bytes <- call (RandomBytes 16) ;;
    let id := base64url bytes in
    or_throw (
      store_secret c id secret ;;
      app <- appEnv ;;
      ret (share_url (baseUrl app) id))
      LINK_FAILED).

Definition secret_actor : Actor :=
  {| actor_type := "system"; actor_id := "secret-share"; actor_name := None; actor_meta := None |}.

Definition reveal_log (ctx : Context) (workspaceId : string) : UnkeyAuditLog :=
  {| log_workspaceId := workspaceId; log_event := "secret.decrypt"; log_description := "One-time share link was revealed";
     log_actor := secret_actor; log_resources := []; log_location := ctx_location ctx; log_userAgent := ctx_userAgent ctx;
     log_correlationId := None |}.

(** The statements of a transaction on the secrets, each with what follows on its
    result. *)
Inductive Tx (A : Type) :=
| TxReturn (a : A)
(* select ... where id = ..., with FOR UPDATE or without *)
| TxSelect (for_update : bool) (id : string) (k : option SharedSecret -> Tx A)
| TxNow (k : Z -> Tx A)
| TxDecrypt (keyring encrypted : string) (k : string -> Tx A)
| TxDelete (id : string) (k : Tx A)
| TxLog (log : UnkeyAuditLog) (k : Tx A).
Arguments TxReturn {A} a.
Arguments TxSelect {A} for_update id k.
Arguments TxNow {A} k.
Arguments TxDecrypt {A} keyring encrypted k.
Arguments TxDelete {A} id k.
Arguments TxLog {A} log k.

(** The body of the reveal: the secret, or [None] for the single answer to a link that
    is missing, expired or used. *)
Definition reveal_tx (id : string) (ctx : Context) : Tx (option string) :=
  TxSelect true id (fun row =>
    match row with
    | None => TxReturn None
    | Some row =>
        TxNow (fun now =>
          if ss_expiresAt row <=? now then TxReturn None
          else
            TxDecrypt (ss_workspaceId row) (ss_encrypted row) (fun plaintext =>
              TxDelete id (
                TxLog (reveal_log ctx (ss_workspaceId row)) (
                  TxReturn (Some plaintext)))))
    end).

(** A program run on its own. *)
Fixpoint run_tx {A} (t : Tx A) : M A :=
  match t with
  | TxReturn a => ret a
  | TxSelect _ id k =>
      row <- find_first schema_sharedSecrets (fun _ r => String.eqb (ss_id r) id) ;; run_tx (k row)
  | TxNow k => now <- date_now ;; run_tx (k now)
  | TxDecrypt keyring encrypted k => plaintext <- call (VaultDecrypt keyring encrypted) ;; run_tx (k plaintext)
  | TxDelete id k => exec_sql (Delete schema_sharedSecrets (fun r => String.eqb (ss_id r) id)) ;; run_tx k
  | TxLog log k => insertAuditLogs [log] ;; run_tx k
  end.

Definition revealSharedSecret (id : string) (ctx : Context) : M (option string) :=
  transaction (run_tx (reveal_tx id ctx)).

Definition lookup_secret (id : string) (d : Db) : option SharedSecret :=
  List.find (fun r => String.eqb (ss_id r) id) (tables d schema_sharedSecrets).

Definition delete_secret (id : string) (d : Db) : Db :=
  with_tables (put schema_sharedSecrets
    (List.filter (fun r => negb (String.eqb (ss_id r) id)) (tables d schema_sharedSecrets)) (tables d)) d.

(** ** Sessions *)

(** An open transaction that reveals an id: what is left of it, the ids of the rows it has
    locked, and its writes, which nobody else sees before the commit. *)
Record Session := {
  se_id : string;
  se_tx : Tx (option string);
  se_locks : list string;
  se_writes : Db -> Db;
}.

Definition begin_reveal (id : string) (ctx : Context) : Session :=
  {| se_id := id; se_tx := reveal_tx id ctx; se_locks := []; se_writes := fun d => d |}.

Definition holds (id : string) (s : Session) : bool := Js.includes (se_locks s) id.

(** No other session has the row locked. *)
Definition unlocked (id : string) (others : list Session) : Prop := forall s, In s others -> holds id s = false.

Definition lock_found (id : string) (row : option SharedSecret) (locks : list string) : list string :=
  match row with Some _ => id :: locks | None => locks end.

(** The session goes on with [t]. *)
Definition goes_on (s : Session) (t : Tx (option string)) : Session :=
  {| se_id := se_id s; se_tx := t; se_locks := se_locks s; se_writes := se_writes s |}.

(** One statement of a session, over the committed database [d]. A plain select waits for
    nobody; a select FOR UPDATE and a delete wait until nobody else has the row locked,
    read what is committed by then, and lock the row they find. *)
Inductive tx_step (others : list Session) (d : Db) : Session -> Session -> Prop :=
| tx_select s id k :
    se_tx s = TxSelect false id k -> tx_step others d s (goes_on s (k (lookup_secret id (se_writes s d))))
| tx_select_for_update s id k :
    se_tx s = TxSelect true id k -> unlocked id others ->
    tx_step others d s
      {| se_id := se_id s; se_tx := k (lookup_secret id (se_writes s d));
         se_locks := lock_found id (lookup_secret id (se_writes s d)) (se_locks s); se_writes := se_writes s |}
| tx_now s k now : se_tx s = TxNow k -> tx_step others d s (goes_on s (k now))
| tx_decrypt s keyring encrypted k plaintext :
    se_tx s = TxDecrypt keyring encrypted k -> tx_step others d s (goes_on s (k plaintext))
| tx_delete s id k :
    se_tx s = TxDelete id k -> unlocked id others ->
    tx_step others d s
      {| se_id := se_id s; se_tx := k;
         se_locks := lock_found id (lookup_secret id (se_writes s d)) (se_locks s);
         se_writes := fun d => delete_secret id (se_writes s d) |}
| tx_log s log k row :
    se_tx s = TxLog log k -> outbox_workspaceId row = log_workspaceId log ->
    envelope_description (outbox_payload row) = log_description log ->
    tx_step others d s
      {| se_id := se_id s; se_tx := k; se_locks := se_locks s;
         se_writes := fun d => apply_stmt (InsertOutbox [row]) (se_writes s d) |}.

(** ** Histories *)

Inductive SecretEvent :=
| Created (url : string)
| Revealed (id secret : string)
| Nothing.

(** The committed database and the open sessions. *)
Record Server := { sv_db : Db; sv_open : list Session }.

(** One step of the server. A creation runs at once, in any environment, with any outcome;
    a reveal is opened; an open session does its next statement, fails and is rolled
    back, or commits; the answer of a commit can be lost. *)
Inductive server_step (base : string) : Server -> SecretEvent -> Server -> Prop :=
| server_create secret c env w w' o open :
    baseUrl (app_env env) = base -> createSharedSecret secret c env w = (o, w') ->
    server_step base {| sv_db := db w; sv_open := open |}
      (match o with Ret url => Created url | Throw _ => Nothing end) {| sv_db := db w'; sv_open := open |}
| server_open id ctx d open :
    server_step base {| sv_db := d; sv_open := open |} Nothing {| sv_db := d; sv_open := begin_reveal id ctx :: open |}
| server_tx d l1 s s' l2 :
    tx_step (l1 ++ l2) d s s' ->
    server_step base {| sv_db := d; sv_open := l1 ++ s :: l2 |} Nothing {| sv_db := d; sv_open := l1 ++ s' :: l2 |}
| server_rollback d l1 s l2 :
    server_step base {| sv_db := d; sv_open := l1 ++ s :: l2 |} Nothing {| sv_db := d; sv_open := l1 ++ l2 |}
| server_commit d l1 s l2 a :
    se_tx s = TxReturn a ->
    server_step base {| sv_db := d; sv_open := l1 ++ s :: l2 |}
      (match a with Some secret => Revealed (se_id s) secret | None => Nothing end)
      {| sv_db := se_writes s d; sv_open := l1 ++ l2 |}
| server_commit_lost d l1 s l2 a :
    se_tx s = TxReturn a ->
    server_step base {| sv_db := d; sv_open := l1 ++ s :: l2 |} Nothing {| sv_db := se_writes s d; sv_open := l1 ++ l2 |}.

Inductive secret_history (base : string) : Server -> list SecretEvent -> Server -> Prop :=
| history_nil s : secret_history base s [] s
| history_cons s e s1 l s2 : server_step base s e s1 -> secret_history base s1 l s2 -> secret_history base s (e :: l) s2.

Definition stored (id : string) (d : Db) : nat :=
  List.length (List.filter (fun r => String.eqb (ss_id r) id) (tables d schema_sharedSecrets)).

Definition is_reveal (id : string) (e : SecretEvent) : bool := match e with Revealed i _ => String.eqb i id | _ => false end.
Definition is_creation (url : string) (e : SecretEvent) : bool := match e with Created u => String.eqb u url | _ => false end.

(** ** Facts *)

Lemma find_last {A} (p : A -> bool) l x : (forall y, In y l -> p y = false) -> p x = true -> List.find p (l ++ [x]) = Some x.
Proof. intros Hl Hx. induction l as [|y l IH]; cbn; [by rewrite Hx|]. rewrite Hl by (by left). apply IH. intros z Hz. apply Hl. by right. Qed.

Section SecretFacts.

Context (id : string).

(** Rows of [id] among a list. *)
Definition with_id (l : list SharedSecret) : list SharedSecret := List.filter (fun r => String.eqb (ss_id r) id) l.

Lemma with_id_sub (p : SharedSecret -> bool) l : (List.length (with_id (List.filter p l)) <= List.length (with_id l))%nat.
Proof.
  unfold with_id. induction l as [|r l IH]; cbn; [lia|]. destruct (p r); cbn; destruct (String.eqb (ss_id r) id); cbn; lia.
Qed.

Lemma with_id_gone l : with_id (List.filter (fun r => negb (String.eqb (ss_id r) id)) l) = [].
Proof. unfold with_id. induction l as [|r l IH]; cbn; [done|]. destruct (String.eqb (ss_id r) id) eqn:E; cbn; [done|]. by rewrite E. Qed.

(** What storing a secret leaves. *)
Lemma store_secret_run c new secret env w o w' :
  store_secret c new secret env w = (o, w') ->
  match o with
  | Ret _ => exists enc now, ask env (trace w) (VaultEncrypt (cw_id (c_workspace c)) secret) = inr enc
      /\ now = clock env (trace (log_call (VaultEncrypt (cw_id (c_workspace c)) secret) w))
      /\ tables (db w') schema_sharedSecrets
         = List.filter (fun r => negb (ss_expiresAt r <? now)) (tables (db w) schema_sharedSecrets)
           ++ [{| ss_id := new; ss_workspaceId := cw_id (c_workspace c); ss_expiresAt := now + TTL_MS; ss_encrypted := fst enc;
                  ss_encryptionKeyId := snd enc |}]
      /\ lookup_secret new (db w') = Some {| ss_id := new; ss_workspaceId := cw_id (c_workspace c); ss_expiresAt := now + TTL_MS;
                                             ss_encrypted := fst enc; ss_encryptionKeyId := snd enc |}
  | Throw _ => exists p, tables (db w') schema_sharedSecrets = List.filter p (tables (db w) schema_sharedSecrets)
  end.
Proof.
  intros H. unfold store_secret in H. apply after_read in H as [(e & -> & E)|(enc & w1 & He & E1 & H)]; [| |effects].
  { exists (fun _ => true). rewrite E, filter_all; done. }
  assert (Hw1 : w1 = log_call (VaultEncrypt (cw_id (c_workspace c)) secret) w /\ ask env (trace w) (VaultEncrypt (cw_id (c_workspace c)) secret) = inr enc).
  { unfold call in He. destruct (ask env (trace w) _); [done|]. by injection He as -> <-. }
  destruct Hw1 as [-> Hask].
  apply after_read in H as [(e & -> & E)|(now & w2 & Hn & E2 & H)]; [| |effects].
  { exists (fun _ => true). rewrite E, E1, filter_all; done. }
  apply date_now_tables in Hn as [-> _]. set (now := clock env _) in *.
  unfold bind at 1 in H. destruct (exec_sql _ env w2) as [[u|e] w3] eqn:Ed.
  - apply exec_tables, run_delete in Ed. rewrite E2, E1 in Ed.
    destruct o as [r|e].
    + exists enc, now. split; [done|]. split; [done|]. steps H. unfold lookup_secret.
      assert (Hins := run_insert _ _ _ _ _ Hs). apply run_put in Hs as [_ Hu]. cbn [affect projT1 projT2] in Hu.
      apply unique_app in Hu as (_ & _ & Hu). rewrite Et0, H, Hins, Et, Ed in *. split; [done|].
      apply find_last; [|by cbn; rewrite String.eqb_refl]. intros x Hx.
      exact (Hu x _ Hx (or_introl eq_refl)).
    + exists (fun r => negb (ss_expiresAt r <? now)). rewrite (Atomic_transaction _ _ _ _ _ H). exact Ed.
  - injection H as <- <-. exists (fun _ => true). rewrite (Atomic_exec_sql _ _ _ _ _ Ed), E2, E1, filter_all; done.
Qed.

(** What a reveal answers and leaves, on every branch. *)
Definition reveal_outcome (env : Env) (d d' : Db) (o : Outcome (option string)) : Prop :=
  match o with
  | Ret (Some s) => exists row t t',
      lookup_secret id d = Some row
      /\ clock env t < ss_expiresAt row /\ ask env t' (VaultDecrypt (ss_workspaceId row) (ss_encrypted row)) = inr s
      /\ tables d' schema_sharedSecrets
         = List.filter (fun r => negb (String.eqb (ss_id r) id)) (tables d schema_sharedSecrets)
  | Ret None => d' = d /\ match lookup_secret id d with
                         | Some row => exists t, ss_expiresAt row <= clock env t
                         | None => True
                         end
  | Throw _ => d' = d
  end.

Lemma reveal_run ctx env w o w' : revealSharedSecret id ctx env w = (o, w') -> reveal_outcome env (db w) (db w') o.
Proof.
  intros H. destruct o as [r|e]; [|exact (Atomic_transaction _ _ _ _ _ H)].
  unfold revealSharedSecret in H. apply transaction_ret in H as (w1 & w2 & E1 & H & E2). cbn [run_tx reveal_tx] in H.
  apply bind_ret in H as (row & w3 & Hf & H). assert (E3 := read_ret _ _ _ _ _ (ReadOnly_find_first _ _) Hf).
  apply find_first_ret in Hf as [Hf _]. rewrite E1 in Hf, E3. change (lookup_secret id (db w) = row) in Hf. rewrite E2. unfold reveal_outcome.
  destruct row as [row|]; cbn [run_tx] in H.
  - apply bind_ret in H as (now & w4 & Hn & H). assert (E4 := read_ret _ _ _ _ _ ReadOnly_date_now Hn). rewrite E3 in E4.
    apply date_now_tables in Hn as [-> _]. destruct (ss_expiresAt row <=? _) eqn:Ex; cbn [run_tx] in H.
    + apply ret_ret in H as [-> ->]. split; [done|]. rewrite Hf. exists (trace w3). lia.
    + apply bind_ret in H as (s & w5 & Hd & H). apply call_ret in Hd as [Hask E5]. rewrite E4 in E5.
      apply bind_ret in H as (u & w6 & Hdel & H). apply exec_tables, run_delete in Hdel. rewrite E5 in Hdel.
      steps H. exists row, (trace w3), (trace w4). rewrite Hs. repeat split_and; try done. lia.
  - apply ret_ret in H as [-> ->]. split; [done|]. by rewrite Hf.
Qed.

End SecretFacts.

(** What a creation leaves. *)
Lemma create_run secret c env w o w' :
  createSharedSecret secret c env w = (o, w') ->
  match o with
  | Ret url => exists new w1 w2, tables (db w1) = tables (db w) /\ url = share_url (baseUrl (app_env env)) new
      /\ store_secret c new secret env w1 = (Ret tt, w2) /\ db w' = db w2
  | Throw _ => exists p, tables (db w') schema_sharedSecrets = List.filter p (tables (db w) schema_sharedSecrets)
  end.
Proof.
  intros H. unfold createSharedSecret, withRatelimit in H.
  apply after_read in H as [(e & -> & E)|(ok & w1 & _ & E1 & H)]; [| |apply ReadOnly_limit_allows].
  { exists (fun _ => true). rewrite E, filter_all; done. }
  destruct ok; [|injection H as <- <-; exists (fun _ => true); rewrite E1, filter_all; done].
  apply after_read in H as [(e & -> & E)|(bytes & w2 & _ & E2 & H)]; [| |effects].
  { exists (fun _ => true). rewrite E, E1, filter_all; done. }
  unfold or_throw, catch in H. unfold bind in H. destruct (store_secret c _ secret env w2) as [[[]|e] w3] eqn:Es.
  - injection H as <- <-. exists (base64url bytes), w2, w3. by rewrite E2, E1.
  - injection H as <- <-. apply store_secret_run in Es as [p Hp]. exists p. by rewrite Hp, E2, E1.
Qed.

Lemma with_id_app id l l' : with_id id (l ++ l') = with_id id l ++ with_id id l'.
Proof. apply List.filter_app. Qed.

(** ** Interleaved sessions *)

Section SessionFacts.

Context (id base : string).

(** A transaction answers a secret only when it has the row of [i] locked and has deleted
    the rows of [i]. *)
Fixpoint secure (i : string) (held deleted : bool) (t : Tx (option string)) : Prop :=
  match t with
  | TxReturn None => True
  | TxReturn (Some _) => held = true /\ deleted = true
  | TxSelect for_update j k =>
      forall row, secure i (held || (for_update && String.eqb j i && Js.truthy_obj row)) deleted (k row)
  | TxNow k => forall now, secure i held deleted (k now)
  | TxDecrypt _ _ k => forall plaintext, secure i held deleted (k plaintext)
  | TxDelete j k => secure i held (deleted || String.eqb j i) k
  | TxLog _ k => secure i held deleted k
  end.

Lemma secure_reveal i ctx : secure i false false (reveal_tx i ctx).
Proof.
  intros [row|]; [|done]. cbn [secure Js.truthy_obj]. intros now. destruct (ss_expiresAt row <=? now); [done|].
  intros plaintext. cbn. by rewrite !String.eqb_refl.
Qed.

Lemma secure_more i t : forall held held' deleted,
  (held = true -> held' = true) -> secure i held deleted t -> secure i held' deleted t.
Proof.
  induction t as [[p|]|f j k IH|k IH|a b k IH|j k IH|l k IH]; cbn; intros held held' deleted Hh; try done.
  - intros [H1 H2]. auto.
  - intros H row. eapply IH; [|apply H]. destruct held; [by rewrite Hh|]. by destruct held'.
  - intros H now. by eapply IH.
  - intros H p. by eapply IH.
  - by apply IH.
  - by apply IH.
Qed.

Definition session_ok (s : Session) : Prop :=
  (forall d, stored id (se_writes s d) <= stored id d)%nat
  /\ exists deleted, secure (se_id s) (holds (se_id s) s) deleted (se_tx s)
       /\ (deleted = true -> forall d, stored (se_id s) (se_writes s d) = 0%nat).

Definition inflight (open : list Session) : nat := List.length (List.filter (holds id) open).

(** The bookkeeping of a server: its sessions are reveals, at most one has the row of the
    id locked, and what can still be revealed and what has been was handed out. *)
Definition server_ok (s : Server) (revealed created : nat) : Prop :=
  Forall session_ok (sv_open s) /\ (inflight (sv_open s) <= 1)%nat
  /\ (revealed + Nat.max (stored id (sv_db s)) (inflight (sv_open s)) <= created)%nat.

Lemma stored_delete i d : (stored id (delete_secret i d) <= stored id d)%nat.
Proof.
  unfold stored, delete_secret. cbn [tables with_tables]. rewrite put_eq.
  apply (with_id_sub id (fun r => negb (String.eqb (ss_id r) i))).
Qed.

Lemma stored_deleted i d : stored i (delete_secret i d) = 0%nat.
Proof.
  unfold stored, delete_secret. cbn [tables with_tables]. rewrite put_eq.
  fold (with_id i (List.filter (fun r => negb (String.eqb (ss_id r) i)) (tables d schema_sharedSecrets))).
  by rewrite with_id_gone.
Qed.

Lemma lookup_stored i d row : lookup_secret i d = Some row -> (1 <= stored i d)%nat.
Proof.
  intros [Hin Hid]%find_some. unfold stored.
  assert (H : In row (with_id i (tables d schema_sharedSecrets))) by (by apply filter_In).
  fold (with_id i (tables d schema_sharedSecrets)). destruct (with_id i _); cbn in *; [done|lia].
Qed.

Lemma stored_create secret c env w o w' :
  createSharedSecret secret c env w = (o, w') ->
  (stored id (db w') <= stored id (db w)
   + match o with Ret url => if String.eqb url (share_url (baseUrl (app_env env)) id) then 1 else 0 | Throw _ => 0 end)%nat.
Proof.
  intros H. unfold stored. change (List.filter (fun r => String.eqb (ss_id r) id)) with (with_id id).
  apply create_run in H. destruct o as [url|e0].
  - destruct H as (new & w1 & w2 & E1 & -> & Hs & ->). apply store_secret_run in Hs as (enc & now & _ & _ & -> & _).
    rewrite with_id_app, length_app, E1.
    assert (Hsub := with_id_sub id (fun r => negb (ss_expiresAt r <? now)) (tables (db w) schema_sharedSecrets)).
    cbn [with_id List.filter ss_id]. destruct (String.eqb_spec new id) as [->|Hne]; [rewrite String.eqb_refl|]; cbn in *; lia.
  - destruct H as [p ->]. rewrite Nat.add_0_r. apply with_id_sub.
Qed.

Lemma inflight_app l1 l2 : inflight (l1 ++ l2) = (inflight l1 + inflight l2)%nat.
Proof. unfold inflight. by rewrite List.filter_app, length_app. Qed.

Lemma inflight_mid l1 s l2 : inflight (l1 ++ s :: l2) = ((if holds id s then 1 else 0) + inflight (l1 ++ l2))%nat.
Proof. rewrite !inflight_app. unfold inflight. cbn. destruct (holds id s); cbn; lia. Qed.

Lemma inflight_unlocked others : unlocked id others -> inflight others = 0%nat.
Proof.
  intros Hu. unfold inflight. assert (H : List.filter (holds id) others = []); [|by rewrite H].
  induction others as [|s l IH]; cbn; [done|]. rewrite (Hu s) by (by left). apply IH. intros x Hx. apply Hu. by right.
Qed.

Lemma holds_lock i j row s t wr :
  holds i {| se_id := se_id s; se_tx := t; se_locks := lock_found j row (se_locks s); se_writes := wr |}
  = (String.eqb j i && Js.truthy_obj row) || holds i s.
Proof.
  unfold holds, Js.includes. destruct row; cbn; [|by destruct (String.eqb j i)].
  by rewrite (String.eqb_sym i j), andb_true_r.
Qed.

Lemma stored_other i j d : i <> j -> stored i (delete_secret j d) = stored i d.
Proof.
  intros Hne. unfold stored, delete_secret. cbn [tables with_tables]. rewrite put_eq. f_equal.
  induction (tables d schema_sharedSecrets) as [|r l IH]; cbn; [done|].
  destruct (String.eqb_spec (ss_id r) j) as [E|E]; cbn; rewrite IH; [|done].
  destruct (String.eqb_spec (ss_id r) i) as [E'|E']; [congruence|done].
Qed.

(** A statement keeps a session sound, and locks the row of [id] only when nobody else
    has it and it is stored. *)
Lemma tx_step_ok others d s s' :
  tx_step others d s s' -> session_ok s ->
  session_ok s' /\ (holds id s' = true -> holds id s = true \/ inflight others = 0%nat /\ (1 <= stored id d)%nat).
Proof.
  intros Hs [Hw (del & Hsec & Hdel)].
  assert (Hlock : forall j t wr, unlocked j others ->
    holds id {| se_id := se_id s; se_tx := t; se_locks := lock_found j (lookup_secret j (se_writes s d)) (se_locks s);
                se_writes := wr |} = true ->
    holds id s = true \/ inflight others = 0%nat /\ (1 <= stored id d)%nat).
  { intros j t wr Hu. rewrite holds_lock. destruct (String.eqb_spec j id) as [->|Hne]; cbn; [|by left].
    destruct (lookup_secret id (se_writes s d)) as [row|] eqn:El; cbn; [|by left]. intros _. right.
    split; [by apply inflight_unlocked|]. apply lookup_stored in El. specialize (Hw d). lia. }
  destruct Hs as [s j k E|s j k E Hu|s k now E|s a b k p E|s j k E Hu|s log k row E _ _]; rewrite E in Hsec; cbn in Hsec.
  - split; [|by left]. split; [done|]. exists del. split; [|done].
    specialize (Hsec (lookup_secret j (se_writes s d))). by rewrite orb_false_r in Hsec.
  - split; [|by apply Hlock]. split; [done|]. exists del. split; [|done]. cbn [se_id se_tx]. rewrite holds_lock, orb_comm. apply Hsec.
  - split; [|by left]. split; [done|]. exists del. split; [apply Hsec|done].
  - split; [|by left]. split; [done|]. exists del. split; [apply Hsec|done].
  - split; [|by apply Hlock]. split; [intros d0; cbn [se_writes]; etrans; [apply stored_delete|done]|].
    exists (del || String.eqb j (se_id s)). cbn [se_id se_tx se_writes]. split.
    + eapply secure_more; [|exact Hsec]. intros Hh. rewrite holds_lock, Hh. apply orb_true_r.
    + intros Hd d0. destruct (String.eqb_spec j (se_id s)) as [->|Hne]; [apply stored_deleted|].
      rewrite stored_other by done. apply Hdel. by destruct del.
  - split; [|by left]. split; [done|]. by exists del.
Qed.

Lemma server_step_ok s e s' revealed created :
  server_step base s e s' -> server_ok s revealed created ->
  server_ok s' (revealed + if is_reveal id e then 1 else 0)
               (created + if is_creation (share_url base id) e then 1 else 0).
Proof.
  intros Hs (Hall & Hone & Hle).
  assert (Hgone : forall d l1 s l2, Forall session_ok (l1 ++ s :: l2) -> (inflight (l1 ++ s :: l2) <= 1)%nat ->
    Forall session_ok (l1 ++ l2) /\ session_ok s /\ (inflight (l1 ++ l2) <= inflight (l1 ++ s :: l2))%nat
    /\ (holds id s = true -> inflight (l1 ++ s :: l2) = 1%nat /\ inflight (l1 ++ l2) = 0%nat)
    /\ (stored id (se_writes s d) <= stored id d)%nat).
  { intros d l1 s0 l2 Hf Hi. apply Forall_app in Hf as [Hf1 Hf2]. inversion Hf2 as [|? ? Hs0 Hf3]; subst.
    rewrite inflight_mid in *. split; [by apply Forall_app|]. split; [done|].
    split; [destruct (holds id s0); lia|]. split; [intros Hh; rewrite Hh in *; lia|]. apply Hs0. }
  destruct Hs as [secret c env w w' o open Hb H|i ctx d open|d l1 s s' l2 Hs|d l1 s l2|d l1 s l2 a Ha|d l1 s l2 a Ha];
    cbn [sv_db sv_open] in *; unfold server_ok; cbn [sv_db sv_open].
  - apply stored_create in H. rewrite Hb in H. split; [done|]. split; [done|]. destruct o as [url|ex]; cbn [is_reveal is_creation]; lia.
  - cbn [is_reveal is_creation]. assert (Hh : inflight (begin_reveal i ctx :: open) = inflight open) by done.
    rewrite Hh. split; [|lia]. constructor; [|done]. split; [done|]. exists false. split; [apply secure_reveal|done].
  - destruct (Hgone d l1 s l2 Hall Hone) as (Hf & Hok & _ & Hheld & _).
    destruct (tx_step_ok _ _ _ _ Hs Hok) as [Hok' Hl]. cbn [is_reveal is_creation].
    split; [apply Forall_app in Hf as [? ?]; apply Forall_app; by split; [|constructor]|].
    rewrite inflight_mid in *. destruct (holds id s') eqn:Eh; [|destruct (holds id s); lia].
    destruct (Hl eq_refl) as [Hh|[-> Hst]]; [rewrite Hh in *; lia|]. destruct (holds id s); lia.
  - destruct (Hgone d l1 s l2 Hall Hone) as (Hf & _ & Hi & _). cbn [is_reveal is_creation]. split; [done|lia].
  - destruct (Hgone d l1 s l2 Hall Hone) as (Hf & [_ (del & Hsec & Hdel)] & Hi & Hheld & Hst). split; [done|].
    rewrite Ha in Hsec. destruct a as [p|]; cbn [is_reveal is_creation]; [|lia]. destruct Hsec as [Hh Hd].
    destruct (String.eqb_spec (se_id s) id) as [Ei|Hne]; [|lia]. rewrite Ei in Hh, Hdel.
    destruct (Hheld Hh) as [H1 H0]. rewrite (Hdel Hd d). lia.
  - destruct (Hgone d l1 s l2 Hall Hone) as (Hf & _ & Hi & _ & Hst). cbn [is_reveal is_creation]. split; [done|lia].
Qed.

Lemma secret_history_ok s l s' revealed created :
  secret_history base s l s' -> server_ok s revealed created ->
  server_ok s' (revealed + List.length (List.filter (is_reveal id) l))
               (created + List.length (List.filter (is_creation (share_url base id)) l)).
Proof.
  intros H. revert revealed created. induction H as [s|s e s1 l s2 Hs _ IH]; intros revealed created Hok.
  - cbn. by rewrite !Nat.add_0_r.
  - apply (server_step_ok _ _ _ _ _ Hs), IH in Hok. cbn [List.filter].
    destruct (is_reveal id e), (is_creation (share_url base id) e); cbn [List.length] in *; rewrite <- !Nat.add_assoc in Hok; exact Hok.
Qed.

End SessionFacts.

(** The procedure, run on its own, is such a session: alone on the server it goes through
    its statements and commits what the procedure answers and writes. *)
Lemma run_tx_session (t : Tx (option string)) env : forall s d w a w',
  se_tx s = t -> db w = se_writes s d -> run_tx t env w = (Ret a, w') ->
  exists s', rtc (tx_step [] d) s s' /\ se_id s' = se_id s /\ se_tx s' = TxReturn a /\ se_writes s' d = db w'.
Proof.
  induction t as [x|f i k IH|k IH|a b k IH|i k IH|log k IH]; intros s d w r w' Hs Hw H; cbn [run_tx] in H.
  - apply ret_ret in H as [-> ->]. exists s. split; [apply rtc_refl|]. by rewrite Hw.
  - apply bind_ret in H as (row & w1 & H1 & H).
    assert (E1 : db w1 = db w) by (eapply read_ret; [|exact H1]; apply (ReadOnly_find_first schema_sharedSecrets)).
    apply (find_first_ret schema_sharedSecrets) in H1 as [H1 _]. change (lookup_secret i (db w) = row) in H1. rewrite Hw in H1, E1.
    destruct f.
    + eapply (IH row {| se_id := se_id s; se_tx := k row; se_writes := se_writes s; se_locks := lock_found i row (se_locks s) |}) in H as (s' & Hr & H2 & H3 & H4);
        [|done|exact E1]. exists s'. split; [|done]. eapply rtc_l; [|exact Hr]. rewrite <- H1.
      apply tx_select_for_update; [done|by intros ? []].
    + eapply (IH row (goes_on s (k row))) in H as (s' & Hr & H2 & H3 & H4); [|done|exact E1].
      exists s'. split; [|done]. eapply rtc_l; [|exact Hr]. rewrite <- H1. by apply tx_select.
  - apply bind_ret in H as (now & w1 & H1 & H). assert (E1 := read_ret _ _ _ _ _ ReadOnly_date_now H1). rewrite Hw in E1.
    eapply (IH now (goes_on s (k now))) in H as (s' & Hr & H2); [|done|exact E1].
    exists s'. split; [|done]. eapply rtc_l; [|exact Hr]. by apply tx_now.
  - apply bind_ret in H as (p & w1 & H1 & H). apply call_ret in H1 as [_ E1]. rewrite Hw in E1.
    eapply (IH p (goes_on s (k p))) in H as (s' & Hr & H2); [|done|exact E1].
    exists s'. split; [|done]. eapply rtc_l; [|exact Hr]. by eapply tx_decrypt.
  - apply bind_ret in H as (u & w1 & H1 & H). apply exec_sql_ret in H1 as (t1 & H1 & E1). apply run_put in H1 as [-> _].
    eapply (IH {| se_id := se_id s; se_tx := k; se_locks := lock_found i (lookup_secret i (se_writes s d)) (se_locks s);
                  se_writes := fun d => delete_secret i (se_writes s d) |} d) in H as (s' & Hr & H2);
      [|done|rewrite E1, Hw; reflexivity].
    exists s'. split; [|done]. eapply rtc_l; [|exact Hr]. apply tx_delete; [done|by intros ? []].
  - apply bind_ret in H as ([] & w1 & H1 & H). apply insert_one_ret in H1 as (row & E1 & Hx & Hy). rewrite Hw in E1.
    eapply (IH {| se_id := se_id s; se_tx := k; se_locks := se_locks s;
                  se_writes := fun d => apply_stmt (InsertOutbox [row]) (se_writes s d) |} d) in H as (s' & Hr & H2);
      [|done|exact E1].
    exists s'. split; [|done]. eapply rtc_l; [|exact Hr]. by eapply tx_log.
Qed.

Theorem reveal_as_session (id : string) (ctx : Context) (env : Env) (w w' : World) (a : option string) :
  revealSharedSecret id ctx env w = (Ret a, w') ->
  exists s, rtc (tx_step [] (db w)) (begin_reveal id ctx) s /\ se_id s = id /\ se_tx s = TxReturn a
    /\ se_writes s (db w) = db w'.
Proof.
  unfold revealSharedSecret. intros H. apply transaction_ret in H as (w1 & w2 & E1 & H & E2).
  apply (run_tx_session _ _ (begin_reveal id ctx) (db w)) in H as (s & Hr & H1 & H2 & H3); [|done|done].
  exists s. by rewrite E2.
Qed.

(** Claim C4. A link reveals its secret at most once. Reveals are transactions that run
    interleaved, statement by statement, with each other and with creations, by any
    callers; any of them can fail and be rolled back at any point, and a row that one has
    selected FOR UPDATE keeps the others waiting. In every such history an id is revealed
    at most as often as a link with it was handed out; so once a link was used, no further
    attempt with it yields a secret, unless the same sixteen random bytes are drawn
    again. *)
Theorem revealed_once (id base : string) (d : Db) (l : list SecretEvent) (s' : Server) :
  stored id d = 0%nat -> secret_history base {| sv_db := d; sv_open := [] |} l s' ->
  (List.length (List.filter (is_reveal id) l) <= List.length (List.filter (is_creation (share_url base id)) l))%nat.
Proof.
  intros H0 H. apply (secret_history_ok id base _ _ _ 0 0) in H as (_ & _ & H); [lia|].
  split; [constructor|]. cbn. rewrite H0. cbn. lia.
Qed.

(** A shared secret comes back. When a creation returned a link, the link
    names an id with which, on the database it left, a reveal answers the secret
    and nothing else; it refuses only once 72 hours have passed, and when it fails,
    because the vault or the database does, it leaves the database unchanged, so
    the link can be tried again. The vault decrypts what it encrypted for the same
    workspace, or fails. *)
Theorem share_roundtrip (secret url : string) (c : WCtx) (ctx : Context) (env : Env) (w w1 : World) :
  (forall t t' ws s enc s', ask env t (VaultEncrypt ws s) = inr enc -> ask env t' (VaultDecrypt ws (fst enc)) = inr s' -> s' = s) ->
  createSharedSecret secret c env w = (Ret url, w1) ->
  exists id t0, url = share_url (baseUrl (app_env env)) id
    /\ forall w2 o w3, db w2 = db w1 -> revealSharedSecret id ctx env w2 = (o, w3) ->
         match o with
         | Ret (Some s) => s = secret
         | Ret None => exists t, clock env t0 + TTL_MS <= clock env t
         | Throw _ => db w3 = db w1
         end.
Proof.
  intros Hv H. apply create_run in H as (id & wa & wb & _ & -> & Hs & Ed).
  apply store_secret_run in Hs as (enc & now & Henc & -> & _ & Hl). rewrite <- Ed in Hl.
  eexists id, _. split; [done|]. intros w2 o w3 E2 Hr. apply reveal_run in Hr. rewrite E2 in Hr.
  destruct o as [[s|]|e]; cbn in Hr; [| |exact Hr].
  - destruct Hr as (row & t & t' & Hrow & _ & Hask & _). rewrite Hl in Hrow. injection Hrow as <-. exact (Hv _ _ _ _ _ _ Henc Hask).
  - destruct Hr as [_ Hr]. rewrite Hl in Hr. destruct Hr as [t Ht]. exists t. exact Ht.
Qed.

Definition demo_request : Context :=
  {| ctx_user := None; ctx_workspace := None; ctx_tenant := None; ctx_location := "unknown"; ctx_userAgent := None |}.

Definition demo_id : string := base64url (List.repeat 7%Z 16).

Lemma demo_create :
  fst (createSharedSecret "s3cret" (demo_ctx compute_db) demo_env (world_of compute_db))
  = Ret (share_url (baseUrl (app_env demo_env)) demo_id).
Proof. vm_compute. reflexivity. Qed.

Lemma append_inj (a b c : string) : a +:+ b = a +:+ c -> b = c.
Proof. induction a as [|x a IH]; [done|]. rewrite !StrFacts.string_app_cons. intros [= H]. auto. Qed.

Definition demo_created : World := snd (createSharedSecret "s3cret" (demo_ctx compute_db) demo_env (world_of compute_db)).

(** Two browsers open the link that was handed out; the first gets the secret. *)
Definition demo_row : SharedSecret :=
  {| ss_id := demo_id; ss_workspaceId := "ws_1"; ss_expiresAt := 1000003 + TTL_MS; ss_encrypted := "s3cret"; ss_encryptionKeyId := "dek_1" |}.

Definition demo_events : list SecretEvent :=
  [Created (share_url (baseUrl demo_app_env) demo_id); Nothing; Nothing; Nothing; Nothing; Nothing; Nothing; Nothing;
   Revealed demo_id "s3cret"; Nothing; Nothing].

Lemma demo_create_run :
  createSharedSecret "s3cret" (demo_ctx compute_db) demo_env (world_of compute_db)
  = (Ret (share_url (baseUrl demo_app_env) demo_id), demo_created).
Proof. change demo_app_env with (app_env demo_env). rewrite <- demo_create. apply surjective_pairing. Qed.

Lemma demo_lookup : lookup_secret demo_id (db demo_created) = Some demo_row.
Proof. vm_compute. reflexivity. Qed.

Lemma demo_used row : lookup_secret demo_id (apply_stmt (InsertOutbox [row]) (delete_secret demo_id (db demo_created))) = None.
Proof. vm_compute. reflexivity. Qed.

Definition demo_log : OutboxRow :=
  {| outbox_version := "v1"; outbox_workspaceId := "ws_1"; outbox_eventId := "e"; outbox_createdAt := 0;
     outbox_payload := {| envelope_event_id := "e"; envelope_time := 0; envelope_workspace_id := "ws_1"; envelope_bucket := "b";
       envelope_source := "s"; envelope_event := "secret.decrypt"; envelope_description := "One-time share link was revealed";
       envelope_actor := secret_actor; envelope_remote_ip := None; envelope_user_agent := None; envelope_targets := None;
       envelope_correlation_id := None |} |}.

Lemma demo_history :
  exists s', secret_history (baseUrl demo_app_env) {| sv_db := compute_db; sv_open := [] |} demo_events s'.
Proof.
  eexists. unfold demo_events. set (A := begin_reveal demo_id demo_request). set (B := begin_reveal demo_id demo_request).
  assert (Hu : forall s, In s [B] -> holds demo_id s = false) by (by intros s [<-|[]]).
  eapply history_cons; [eapply (server_create _ "s3cret" (demo_ctx compute_db) demo_env (world_of compute_db) demo_created
    (Ret (share_url (baseUrl demo_app_env) demo_id)) []); [done|exact demo_create_run]|].
  eapply history_cons; [apply (server_open _ demo_id demo_request)|].
  eapply history_cons; [apply (server_open _ demo_id demo_request)|]. fold A B.
  eapply history_cons; [eapply server_tx with (l1 := [B]) (s := A) (l2 := []); eapply tx_select_for_update; [done|exact Hu]|].
  cbn [se_writes A begin_reveal]. rewrite demo_lookup. cbn [lock_found].
  eapply history_cons; [eapply server_tx with (l1 := [B]) (l2 := []); by eapply tx_now with (now := 1000004)|].
  eapply history_cons; [eapply server_tx with (l1 := [B]) (l2 := []); by eapply tx_decrypt with (plaintext := "s3cret"%string)|].
  eapply history_cons; [eapply server_tx with (l1 := [B]) (l2 := []); eapply tx_delete; [done|exact Hu]|].
  eapply history_cons; [eapply server_tx with (l1 := [B]) (l2 := []); by eapply tx_log with (row := demo_log)|].
  eapply history_cons; [by eapply server_commit with (l1 := [B]) (l2 := []) (a := Some "s3cret"%string)|].
  eapply history_cons; [eapply server_tx with (l1 := []) (l2 := []); eapply tx_select_for_update; [done|by intros s []]|].
  cbn [se_writes goes_on B begin_reveal]. rewrite demo_used.
  eapply history_cons; [by eapply server_commit with (l1 := []) (l2 := []) (a := None)|]. apply history_nil.
Qed.

Lemma revealed_once_witness :
  (exists s', secret_history (baseUrl demo_app_env) {| sv_db := compute_db; sv_open := [] |} demo_events s')
  /\ List.length (List.filter (is_reveal demo_id) demo_events) = 1%nat
  /\ (1 <= List.length (List.filter (is_creation (share_url (baseUrl demo_app_env) demo_id)) demo_events))%nat.
Proof.
  split; [exact demo_history|]. split; [reflexivity|]. destruct demo_history as [s' H].
  exact (revealed_once demo_id (baseUrl demo_app_env) compute_db demo_events s' eq_refl H).
Defined.

Lemma demo_reveal : exists s, fst (revealSharedSecret demo_id demo_request demo_env demo_created) = Ret (Some s).
Proof. vm_compute. eexists. reflexivity. Qed.

Lemma share_roundtrip_witness : fst (revealSharedSecret demo_id demo_request demo_env demo_created) = Ret (Some "s3cret"%string).
Proof.
  destruct (share_roundtrip "s3cret" (share_url (baseUrl (app_env demo_env)) demo_id) (demo_ctx compute_db) demo_request
    demo_env (world_of compute_db) demo_created) as (id & t0 & Hu & H).
  - intros t t' ws s [e k] s' [= <- <-] [= <-]. reflexivity.
  - unfold demo_created. rewrite <- demo_create. apply surjective_pairing.
  - apply append_inj, append_inj in Hu. rewrite <- Hu in H. destruct demo_reveal as [s Hs]. rewrite Hs.
    specialize (H demo_created (fst (revealSharedSecret demo_id demo_request demo_env demo_created))
      (snd (revealSharedSecret demo_id demo_request demo_env demo_created)) eq_refl (surjective_pairing _)).
    rewrite Hs in H. rewrite H. reflexivity.
Defined.
