(* ===== verification/Resources.v ===== *)
(** * APIs and ratelimits

    web/apps/dashboard/lib/trpc/routers/api (create.ts, delete.ts, setDefaultBytes.ts,
    setDefaultPrefix.ts, updateDeleteProtection.ts, updateName.ts) and
    lib/trpc/routers/ratelimit (createNamespace.ts, deleteNamespace.ts,
    updateNamespaceName.ts, createOverride.ts, updateOverride.ts, deleteOverride.ts).
    Rows are deleted by setting deleted_at; the theorems say what a deletion reaches
    and that no procedure reaches the rows of another workspace. *)

From Stdlib Require Import ZArith Bool Ascii String Lia.
From stdpp Require Import base list gmap strings relations.
From S2P Require Import Prelude Tables StripeTypes DeployPlan Effects Fixtures BillingOps Trpc Store Authorization RootKeys.

Local Open Scope Z_scope.

(** ** Updates of single columns *)

Definition api_set_name (name : string) (a : Api) : Api :=
  {| api_id := api_id a; api_name := name; api_workspaceId := api_workspaceId a; api_projectId := api_projectId a;
     api_authType := api_authType a; api_keyAuthId := api_keyAuthId a; api_deletedAtM := api_deletedAtM a;
     api_deleteProtection := api_deleteProtection a |}.

Definition api_set_protection (enabled : bool) (a : Api) : Api :=
  {| api_id := api_id a; api_name := api_name a; api_workspaceId := api_workspaceId a; api_projectId := api_projectId a;
     api_authType := api_authType a; api_keyAuthId := api_keyAuthId a; api_deletedAtM := api_deletedAtM a;
     api_deleteProtection := Some enabled |}.

Definition api_set_deleted (now : Z) (a : Api) : Api :=
  {| api_id := api_id a; api_name := api_name a; api_workspaceId := api_workspaceId a; api_projectId := api_projectId a;
     api_authType := api_authType a; api_keyAuthId := api_keyAuthId a; api_deletedAtM := Some now;
     api_deleteProtection := api_deleteProtection a |}.

Definition ka_set_bytes (n : Z) (k : KeyAuth) : KeyAuth :=
  {| ka_id := ka_id k; ka_workspaceId := ka_workspaceId k; ka_projectId := ka_projectId k; ka_deletedAtM := ka_deletedAtM k;
     ka_storeEncryptedKeys := ka_storeEncryptedKeys k; ka_defaultPrefix := ka_defaultPrefix k; ka_defaultBytes := Some n |}.

Definition ka_set_prefix (p : string) (k : KeyAuth) : KeyAuth :=
  {| ka_id := ka_id k; ka_workspaceId := ka_workspaceId k; ka_projectId := ka_projectId k; ka_deletedAtM := ka_deletedAtM k;
     ka_storeEncryptedKeys := ka_storeEncryptedKeys k; ka_defaultPrefix := Some p; ka_defaultBytes := ka_defaultBytes k |}.

Definition ka_set_deleted (now : Z) (k : KeyAuth) : KeyAuth :=
  {| ka_id := ka_id k; ka_workspaceId := ka_workspaceId k; ka_projectId := ka_projectId k; ka_deletedAtM := Some now;
     ka_storeEncryptedKeys := ka_storeEncryptedKeys k; ka_defaultPrefix := ka_defaultPrefix k;
     ka_defaultBytes := ka_defaultBytes k |}.

Definition ns_set_name (name : string) (n : Namespace) : Namespace :=
  {| ns_id := ns_id n; ns_workspaceId := ns_workspaceId n; ns_projectId := ns_projectId n; ns_name := name;
     ns_deletedAtM := ns_deletedAtM n |}.

Definition ns_set_deleted (now : Z) (n : Namespace) : Namespace :=
  {| ns_id := ns_id n; ns_workspaceId := ns_workspaceId n; ns_projectId := ns_projectId n; ns_name := ns_name n;
     ns_deletedAtM := Some now |}.

Definition ov_set_limits (limit duration : Z) (deletedAtM : option Z) (o : Override) : Override :=
  {| ov_id := ov_id o; ov_workspaceId := ov_workspaceId o; ov_namespaceId := ov_namespaceId o;
     ov_identifier := ov_identifier o; ov_limit := limit; ov_duration := duration; ov_deletedAtM := deletedAtM |}.

Definition ov_set_deleted (now : Z) (o : Override) : Override :=
  ov_set_limits (ov_limit o) (ov_duration o) (Some now) o.

(** [table.workspaceId = ws and table.id = id and table.deletedAtM is null]. *)
Definition live_api (ws id : string) (r : Api) : bool :=
  String.eqb (api_workspaceId r) ws && String.eqb (api_id r) id && bool_decide (api_deletedAtM r = None).
Definition live_keyAuth (ws id : string) (r : KeyAuth) : bool :=
  String.eqb (ka_workspaceId r) ws && String.eqb (ka_id r) id && bool_decide (ka_deletedAtM r = None).
Definition live_namespace (ws id : string) (r : Namespace) : bool :=
  String.eqb (ns_workspaceId r) ws && String.eqb (ns_id r) id && bool_decide (ns_deletedAtM r = None).
Definition live_override (ws id : string) (r : Override) : bool :=
  String.eqb (ov_workspaceId r) ws && String.eqb (ov_id r) id && bool_decide (ov_deletedAtM r = None).

(** ** APIs *)

(** The ids of the API and of its key space. *)
Definition createApiCore (c : WCtx) (name : string) : M (string * string) :=
  let ws := cw_id (c_workspace c) in
  projectId <- ensureDefaultProjectId ws ;;
  keyAuthId <- new_id "keyAuth" ;;
  apiId <- new_id "api" ;;
  exec_sql (Insert schema_keyAuth
    [{| ka_id := keyAuthId; ka_workspaceId := ws; ka_projectId := projectId; ka_deletedAtM := None;
        ka_storeEncryptedKeys := false; ka_defaultPrefix := None; ka_defaultBytes := Some 16 |}]) ;;
  exec_sql (Insert schema_apis
    [{| api_id := apiId; api_name := name; api_workspaceId := ws; api_projectId := projectId;
        api_authType := Some "key"%string; api_keyAuthId := Some keyAuthId; api_deletedAtM := None;
        api_deleteProtection := Some false |}]) ;;
  insertAuditLogs [rbac_log c "api.create" ("Created " +:+ apiId) [resource "api" apiId (Some name)] None] ;;
  ret (apiId, keyAuthId).

Definition createApi (name : string) : WCtx -> M string := fun c =>
  or_throw (transaction (r <- createApiCore c name ;; ret (fst r)))
    (internal "We are unable to create the keyspace. Please try again or contact support@unkey.com").

Definition delete_api_rows (c : WCtx) (the_api : Api) (apiId keyAuthId correlationId : string) : M unit :=
  now <- date_now ;;
  exec_sql (Update schema_apis (fun r => String.eqb (api_id r) apiId) (api_set_deleted now)) ;;
  exec_sql (Update schema_keyAuth (fun r => String.eqb (ka_id r) keyAuthId) (ka_set_deleted now)) ;;
  insertAuditLogs [user_log c (api_workspaceId the_api) "api.delete" ("Deleted " +:+ api_id the_api)
    [resource "api" (api_id the_api) (Some (api_name the_api))] (Some correlationId)] ;;
  keys <- find_many schema_keys (fun _ k => String.eqb (key_keyAuthId k) keyAuthId) ;;
  match keys with
  | [] => ret tt
  | _ =>
      now2 <- date_now ;;
      exec_sql (Update schema_keys (fun k => String.eqb (key_keyAuthId k) keyAuthId) (set_deletedAt now2)) ;;
      insertAuditLogs (List.map (fun k =>
        rbac_log c "key.delete" ("Deleted " +:+ key_id k +:+ " as part of the " +:+ api_id the_api +:+ " deletion")
          [resource "api" (api_id the_api) (Some (api_name the_api)); resource "key" (key_id k) None] (Some correlationId)) keys)
  end.

Definition deleteApi (apiId : string) : WCtx -> M unit :=
  withRatelimit "trpc_delete" (fun c =>
    the_api <- or_throw (find_first schema_apis (fun _ => live_api (cw_id (c_workspace c)) apiId))
      (internal "We are unable to delete this API. Please try again or contact support@unkey.com") ;;
    match the_api with
    | None => throw (not_found "The API does not exist. Please try again or contact support@unkey.com")
    | Some the_api =>
        if Js.coalesce (api_deleteProtection the_api) false then
          throw (TRPCError "PRECONDITION_FAILED"
            "This API has delete protection enabled. Please disable it before deleting the API.")
        else if negb (Js.truthy (api_keyAuthId the_api)) then
          throw (internal "This API is missing required authentication configuration and cannot be deleted. Please contact support@unkey.com")
        else
          correlationId <- new_id "correlation" ;;
          or_throw (transaction (delete_api_rows c the_api apiId (Js.coalesce (api_keyAuthId the_api) EmptyString) correlationId))
            (internal "We are unable to delete the API. Please try again or contact support@unkey.com")
    end).

(** A nullable number or string in a template. *)
Definition show_oZ (o : option Z) : string := match o with Some n => Num.string_of_Z n | None => "null" end.
Definition show_ostring (o : option string) : string := Js.coalesce o "null"%string.

Definition find_keyAuth (c : WCtx) (keyAuthId : string) : M KeyAuth :=
  keyAuth <- or_throw (find_first schema_keyAuth (fun _ => live_keyAuth (cw_id (c_workspace c)) keyAuthId))
    (internal "We were unable to update the key auth. Please try again or contact support@unkey.com") ;;
  match keyAuth with
  | None => throw (not_found "We are unable to find the correct key auth. Please try again or contact support@unkey.com.")
  | Some keyAuth => ret keyAuth
  end.

Definition setDefaultApiBytes (defaultBytes : Z) (keyAuthId : string) : WCtx -> M unit := fun c =>
  keyAuth <- find_keyAuth c keyAuthId ;;
  or_throw (transaction (
    exec_sql (Update schema_keyAuth (fun r => String.eqb (ka_id r) (ka_id keyAuth)) (ka_set_bytes defaultBytes)) ;;
    insertAuditLogs [rbac_log c "api.update"
      ("Changed " +:+ ka_id keyAuth +:+ " default byte size for keys from " +:+ show_oZ (ka_defaultBytes keyAuth) +:+ " to "
       +:+ Num.string_of_Z defaultBytes)
      [resource "keyAuth" (ka_id keyAuth) None] None]))
    (internal "We were unable to update the default bytes. Please try again or contact support@unkey.com.").

Definition setDefaultApiPrefix (defaultPrefix keyAuthId : string) : WCtx -> M unit := fun c =>
  keyAuth <- find_keyAuth c keyAuthId ;;
  or_throw (transaction (
    or_throw (exec_sql (Update schema_keyAuth (fun r => String.eqb (ka_id r) (ka_id keyAuth)) (ka_set_prefix defaultPrefix)))
      (internal "We were unable to update the API default prefix. Please try again or contact support@unkey.com.") ;;
    insertAuditLogs [rbac_log c "api.update"
      ("Changed " +:+ ka_id keyAuth +:+ " default prefix from " +:+ show_ostring (ka_defaultPrefix keyAuth) +:+ " to "
       +:+ defaultPrefix)
      [resource "keyAuth" (ka_id keyAuth) None] None]))
    (internal "We were unable to update the default prefix. Please try again or contact support@unkey.com.").

Definition updateAPIDeleteProtection (apiId : string) (enabled : bool) : WCtx -> M unit := fun c =>
  let failed := internal "We were unable to update the API. Please try again or contact support@unkey.com" in
  the_api <- or_throw (find_first schema_apis (fun _ => live_api (cw_id (c_workspace c)) apiId)) failed ;;
  match the_api with
  | None => throw (not_found "We are unable to find the correct API. Please try again or contact support@unkey.com.")
  | Some the_api =>
      or_throw (transaction (
        or_throw (exec_sql (Update schema_apis (fun r => String.eqb (api_id r) apiId) (api_set_protection enabled)))
          (internal "We were unable to update the API. Please try again or contact support@unkey.com.") ;;
        insertAuditLogs [rbac_log c "api.update"
          ("API " +:+ api_name the_api +:+ " delete protection is now " +:+ (if enabled then "enabled" else "disabled") +:+ ".}")
          [{| resource_type := "api"; resource_id := api_id the_api; resource_name := Some (api_name the_api);
              resource_meta := Some [("deleteProtection"%string, JBool enabled)] |}] None]))
        failed
  end.

Definition updateApiName (name apiId : string) : WCtx -> M unit := fun c =>
  let failed := internal "We were unable to update the keyspace name. Please try again or contact support@unkey.com." in
  the_api <- or_throw (find_first schema_apis (fun _ => live_api (cw_id (c_workspace c)) apiId)) failed ;;
  match the_api with
  | None => throw (not_found "We are unable to find the correct keyspace. Please try again or contact support@unkey.com.")
  | Some the_api =>
      or_throw (transaction (
        or_throw (exec_sql (Update schema_apis (fun r => String.eqb (api_id r) apiId) (api_set_name name))) failed ;;
        insertAuditLogs [rbac_log c "api.update"
          ("Changed " +:+ api_id the_api +:+ " name from " +:+ api_name the_api +:+ " to " +:+ name)
          [resource "api" (api_id the_api) (Some name)] None]))
        failed
  end.

(** ** Ratelimits *)

(** [e instanceof Error && "code" in e && e.code === "ER_DUP_ENTRY"]: the code on the
    error itself, where the query builder puts it on the cause. *)
Definition has_dup_code (e : Exn) : bool :=
  match e with
  | StripeError _ code _ _ => Js.eq_ostring code "ER_DUP_ENTRY"
  | TRPCError code _ => String.eqb code "ER_DUP_ENTRY"
  | _ => false
  end.

Definition quotation : string := String (ascii_of_nat 34) EmptyString.

Definition createNamespace (name : string) : WCtx -> M string := fun c =>
  let ws := cw_id (c_workspace c) in
  namespaceId <- new_id "ratelimitNamespace" ;;
  catch (transaction (
    projectId <- ensureDefaultProjectId ws ;;
    exec_sql (Insert schema_ratelimitNamespaces
      [{| ns_id := namespaceId; ns_workspaceId := ws; ns_projectId := projectId; ns_name := name; ns_deletedAtM := None |}]) ;;
    insertAuditLogs [rbac_log c "ratelimitNamespace.create" ("Created " +:+ namespaceId)
      [resource "ratelimitNamespace" namespaceId (Some name)] None]))
    (fun e =>
       if has_dup_code e then
         throw (conflict ("A namespace with name " +:+ quotation +:+ name +:+ quotation
                          +:+ " already exists in this workspace. Please choose a different name."))
       else throw (internal "We are unable to create namespace. Please try again or contact support@unkey.com")) ;;
  ret namespaceId.

Definition find_namespace (c : WCtx) (namespaceId : string) (failed missing : Exn) : M Namespace :=
  namespace <- or_throw (find_first schema_ratelimitNamespaces (fun _ => live_namespace (cw_id (c_workspace c)) namespaceId)) failed ;;
  match namespace with None => throw missing | Some n => ret n end.

Definition NAMESPACE_MISSING : Exn :=
  not_found "We are unable to find the correct namespace. Please try again or contact support@unkey.com.".

Definition is_override (namespaceId identifier : string) (r : Override) : bool :=
  String.eqb (ov_namespaceId r) namespaceId && String.eqb (ov_identifier r) identifier.

Definition createOverride (namespaceId identifier : string) (limit duration : Z) : WCtx -> M string := fun c =>
  let ws := cw_id (c_workspace c) in
  namespace <- find_namespace c namespaceId
    (internal "We are unable to create an override for this namespace. Please try again or contact support@unkey.com")
    NAMESPACE_MISSING ;;
  id <- new_id "ratelimitOverride" ;;
  or_throw (transaction (
    existing <- find_first schema_ratelimitOverrides (fun _ => is_override (ns_id namespace) identifier) ;;
    (match existing with
     | Some _ => exec_sql (Update schema_ratelimitOverrides (is_override (ns_id namespace) identifier)
                             (ov_set_limits limit duration None))
     | None => exec_sql (Insert schema_ratelimitOverrides
         [{| ov_id := id; ov_workspaceId := ws; ov_namespaceId := ns_id namespace; ov_identifier := identifier;
             ov_limit := limit; ov_duration := duration; ov_deletedAtM := None |}])
     end) ;;
    insertAuditLogs [rbac_log c (if Js.truthy_obj existing then "ratelimit.update" else "ratelimit.set_override")
      ((if Js.truthy_obj existing then "Updated " else "Created ") +:+ identifier)
      [resource "ratelimitNamespace" namespaceId (Some (ns_name namespace));
       resource "ratelimitOverride" (match existing with Some o => ov_id o | None => id end) (Some identifier)] None]))
    (internal "We are unable to create the override. Please try again or contact support@unkey.com") ;;
  ret id.

Definition delete_namespace_tx (c : WCtx) (namespace : Namespace) (namespaceId correlationId : string) : M unit :=
  let failed := internal "We are unable to delete the namespaces. Please try again or contact support@unkey.com" in
  now <- date_now ;;
  exec_sql (Update schema_ratelimitNamespaces (fun r => String.eqb (ns_id r) namespaceId) (ns_set_deleted now)) ;;
  insertAuditLogs [user_log c (ns_workspaceId namespace) "ratelimitNamespace.delete" ("Deleted " +:+ ns_id namespace)
    [resource "ratelimitNamespace" (ns_id namespace) (Some (ns_name namespace))] (Some correlationId)] ;;
  overrides <- find_many schema_ratelimitOverrides (fun _ r => String.eqb (ov_namespaceId r) (ns_id namespace)) ;;
  match overrides with
  | [] => ret tt
  | _ =>
      now2 <- date_now ;;
      or_throw (exec_sql (Update schema_ratelimitOverrides (fun r => String.eqb (ov_namespaceId r) (ns_id namespace))
        (ov_set_deleted now2))) failed ;;
      or_throw (insertAuditLogs (List.map (fun o =>
        rbac_log c "ratelimit.delete_override"
          ("Deleted " +:+ ov_id o +:+ " as part of the " +:+ ns_id namespace +:+ " deletion")
          [resource "ratelimitNamespace" (ns_id namespace) (Some (ns_name namespace));
           resource "ratelimitOverride" (ov_id o) None] (Some correlationId)) overrides)) failed
  end.

Definition deleteNamespace (namespaceId : string) : WCtx -> M unit := fun c =>
  namespace <- find_namespace c namespaceId
    (internal "We are unable to delete namespace. Please try again or contact support@unkey.com") NAMESPACE_MISSING ;;
  correlationId <- new_id "correlation" ;;
  transaction (delete_namespace_tx c namespace namespaceId correlationId).

Definition updateNamespaceName (name namespaceId : string) : WCtx -> M unit := fun c =>
  let failed := internal "We are unable to update the namespace name. Please try again or contact support@unkey.com" in
  namespace <- find_namespace c namespaceId
    (internal "We are unable to update the name for this namespace. Please try again or contact support@unkey.com")
    (not_found "We are unable to find the correct workspace. Please try again or contact support@unkey.com") ;;
  transaction (
    or_throw (exec_sql (Update schema_ratelimitNamespaces (fun r => String.eqb (ns_id r) namespaceId) (ns_set_name name))) failed ;;
    or_throw (insertAuditLogs [rbac_log c "ratelimitNamespace.update"
      ("Changed " +:+ ns_id namespace +:+ " name from " +:+ ns_name namespace +:+ " to " +:+ name)
      [resource "ratelimitNamespace" (ns_id namespace) (Some name)] None]) failed).

(** The override with its namespace, as the relational query joins it. *)
Definition find_override (c : WCtx) (id : string) (failed : Exn) : M (Override * option Namespace) :=
  override <- or_throw (select (fun _ d =>
    option_map (fun o => (o, List.find (fun n => String.eqb (ns_id n) (ov_namespaceId o)) (d schema_ratelimitNamespaces)))
      (List.find (live_override (cw_id (c_workspace c)) id) (d schema_ratelimitOverrides)))) failed ;;
  match override with
  | None => throw (not_found "We are unable to find the correct override. Please try again or contact support@unkey.com.")
  | Some o => ret o
  end.

(** [override.namespace.id]: a missing namespace is null, which has no fields. *)
Definition override_resources (override : Override) (namespace : option Namespace) : M (list Resource) :=
  match namespace with
  | None => throw (OtherError "TypeError: override.namespace is null")
  | Some n => ret [resource "ratelimitNamespace" (ns_id n) (Some (ns_name n));
                   resource "ratelimitOverride" (ov_id override) (Some (ov_identifier override))]
  end.

Definition deleteOverride (id : string) : WCtx -> M unit := fun c =>
  let failed := internal "We are unable to delete the override. Please try again or contact support@unkey.com" in
  found <- find_override c id
    (internal "We are unable to delete override for this namespace. Please try again or contact support@unkey.com") ;;
  let '(override, namespace) := found in
  transaction (
    now <- date_now ;;
    or_throw (exec_sql (Update schema_ratelimitOverrides (fun r => String.eqb (ov_id r) (ov_id override)) (ov_set_deleted now))) failed ;;
    resources <- override_resources override namespace ;;
    or_throw (insertAuditLogs [rbac_log c "ratelimit.delete_override" ("Deleted " +:+ ov_id override) resources None]) failed).

Definition updateOverride (id : string) (limit duration : Z) : WCtx -> M unit := fun c =>
  found <- find_override c id
    (internal "We are unable to update the override for this namespace. Please try again or contact support@unkey.com") ;;
  let '(override, namespace) := found in
  or_throw (transaction (
    or_throw (exec_sql (Update schema_ratelimitOverrides (fun r => String.eqb (ov_id r) (ov_id override))
      (fun o => ov_set_limits limit duration (ov_deletedAtM o) o)))
      (internal "We are unable to update the override for this namespace. Please try again or contact support@unkey.com.") ;;
    resources <- override_resources override namespace ;;
    or_throw (insertAuditLogs [rbac_log c "ratelimit.set_override"
      ("Changed " +:+ ov_id override +:+ " limits from " +:+ Num.string_of_Z (ov_limit override) +:+ "/"
       +:+ Num.string_of_Z (ov_duration override) +:+ " to " +:+ Num.string_of_Z limit +:+ "/" +:+ Num.string_of_Z duration)
      resources None])
      (internal "We are unable to update the override. Please try again or contact support@unkey.com")))
    (internal "We are unable to update the override for this namespace. Please try again or contact support@unkey.com").

(** ** Shapes *)

(** The columns that tie rows together: the id, the workspace and the id of the row
    it belongs to. *)
Record Shape := { shape_id : string; shape_ws : string; shape_ref : option string }.

Definition shape (t : table) : row t -> Shape :=
  match t return row t -> Shape with
  | schema_apis => fun r => {| shape_id := api_id r; shape_ws := api_workspaceId r; shape_ref := api_keyAuthId r |}
  | schema_keyAuth => fun r => {| shape_id := ka_id r; shape_ws := ka_workspaceId r; shape_ref := None |}
  | schema_keys => fun r => {| shape_id := key_id r; shape_ws := key_workspaceId r; shape_ref := Some (key_keyAuthId r) |}
  | schema_ratelimitNamespaces => fun r => {| shape_id := ns_id r; shape_ws := ns_workspaceId r; shape_ref := None |}
  | schema_ratelimitOverrides => fun r => {| shape_id := ov_id r; shape_ws := ov_workspaceId r; shape_ref := Some (ov_namespaceId r) |}
  | t => fun r => {| shape_id := EmptyString; shape_ws := ws_of t r; shape_ref := None |}
  end.

(** The table a reference points to. *)
Definition parent (t : table) : table :=
  match t with schema_ratelimitOverrides => schema_ratelimitNamespaces | _ => schema_keyAuth end.

Definition shapes (d : Tables) (t : table) : list Shape := List.map (shape t) (d t).

(** Every reference is to a row of the same workspace. *)
Definition nested_in (find_ : table -> list Shape) (t : table) (s : Shape) : Prop :=
  forall k, shape_ref s = Some k -> exists p, In p (find_ (parent t)) /\ shape_id p = k /\ shape_ws p = shape_ws s.

Definition nested (d : Tables) : Prop := forall t s, In s (shapes d t) -> nested_in (shapes d) t s.

Lemma shape_ws_of t r : shape_ws (shape t r) = ws_of t r.
Proof. by destruct t. Qed.

Section ShapeFacts.

Context (fold : string -> string).

(** A row with a reference, and the row it refers to, have an id that is unique. *)
Definition identified (t : table) : bool :=
  match t with
  | schema_apis | schema_keyAuth | schema_keys | schema_ratelimitNamespaces | schema_ratelimitOverrides => true
  | _ => false
  end.

Lemma shape_unique d t a b :
  identified t = true -> tables_ok fold d -> In a (d t) -> In b (d t) -> shape_id (shape t a) = shape_id (shape t b) -> a = b.
Proof.
  intros Ht Hok Ha Hb E. apply (unique_same _ _ a b (clash_sym _ _) (Hok t) Ha Hb).
  destruct t; try discriminate; cbn in *; rewrite E, String.eqb_refl; done.
Qed.

Lemma nested_run_update t w set d d' :
  run_sql fold (Update t w set) d = Some d' -> (forall r, shape t (set r) = shape t r) -> nested d -> nested d'.
Proof.
  intros H Hs Hn. assert (E : forall t', shapes d' t' = shapes d t').
  { intros t'. unfold shapes. destruct (decide (t = t')) as [<-|Hne]; [|by rewrite (run_other _ _ _ _ t' H)].
    rewrite (run_update _ _ _ _ _ _ H), List.map_map. apply map_ext. intros r. destruct (w r); [apply Hs|done]. }
  intros t' s Hin k Hk. rewrite E in Hin. destruct (Hn t' s Hin k Hk) as (p & Hp & Hid). exists p. by rewrite E.
Qed.

Lemma nested_run_insert t rows d d' :
  run_sql fold (Insert t rows) d = Some d' -> (forall r, In r rows -> nested_in (shapes d') t (shape t r)) -> nested d -> nested d'.
Proof.
  intros H Hr Hn. assert (Hsub : forall t' s, In s (shapes d t') -> In s (shapes d' t')).
  { intros t' s Hs. unfold shapes. destruct (decide (t = t')) as [<-|Hne]; [|by rewrite (run_other _ _ _ _ t' H)].
    rewrite (run_insert _ _ _ _ _ H), map_app. apply in_or_app. by left. }
  assert (Hold : forall t' s, In s (shapes d t') -> nested_in (shapes d') t' s).
  { intros t' s Hs k Hk. destruct (Hn t' s Hs k Hk) as (p & Hp & Hid). exists p. auto. }
  intros t' s Hs. destruct (decide (t = t')) as [<-|Hne].
  - unfold shapes in Hs. rewrite (run_insert _ _ _ _ _ H), map_app in Hs. apply in_app_or in Hs as [Hs|Hs]; [by apply Hold|].
    apply in_map_iff in Hs as (r & <- & Hin). by apply Hr.
  - apply Hold. unfold shapes in *. by rewrite (run_other _ _ _ _ t' H) in Hs.
Qed.

Lemma nested_project ws d d' : project_step fold ws d d' -> nested d -> nested d'.
Proof.
  intros [->|(p & Hp & H)]; [done|]. apply (nested_run_insert _ _ _ _ H). intros r [<-|[]] k Hk. discriminate.
Qed.

(** A reference within the workspace of the row it was found from. *)
Lemma nested_same d t r t' r' k :
  tables_ok fold d -> nested d -> In r (d t) -> In r' (d t') -> parent t = parent t' -> identified (parent t) = true ->
  shape_ref (shape t r) = Some k -> shape_ref (shape t' r') = Some k -> ws_of t r = ws_of t' r'.
Proof.
  intros Hok Hn Hr Hr' Hp Hi Hk Hk'. rewrite <- !shape_ws_of.
  destruct (Hn t _ (in_map (shape t) _ _ Hr) k Hk) as (p & Hpin & Hid & <-).
  destruct (Hn t' _ (in_map (shape t') _ _ Hr') k Hk') as (p' & Hpin' & Hid' & <-).
  rewrite <- Hp in Hpin'. apply in_map_iff in Hpin as (x & <- & Hx). apply in_map_iff in Hpin' as (x' & <- & Hx').
  by rewrite (shape_unique d (parent t) x x' Hi Hok Hx Hx') by congruence.
Qed.

(** A row is in the workspace of the row it refers to. *)
Lemma child_ws d t x r :
  tables_ok fold d -> nested d -> identified (parent t) = true -> In x (d t) -> In r (d (parent t)) ->
  shape_ref (shape t x) = Some (shape_id (shape (parent t) r)) -> ws_of t x = ws_of (parent t) r.
Proof.
  intros Hok Hn Hi Hx Hr Hk. rewrite <- !shape_ws_of. destruct (Hn t _ (in_map (shape t) _ _ Hx) _ Hk) as (p & Hp & Hid & <-).
  apply in_map_iff in Hp as (y & <- & Hy). by rewrite (shape_unique d (parent t) y r Hi Hok Hy Hr).
Qed.

(** An update of own rows that keeps their shape. *)
Lemma within_update ws t w set d d' :
  run_sql fold (Update t w set) d = Some d' -> (forall r, shape t (set r) = shape t r) ->
  (forall x, In x (d t) -> w x = true -> ws_of t x = ws) -> nested d -> kept ws d d' /\ nested d'.
Proof.
  intros H Hs Hw Hn. split; [|by apply (nested_run_update _ _ _ _ _ H)]. apply (kept_update _ _ _ _ _ _ _ H).
  intros r Hr E. rewrite <- (shape_ws_of t (set r)), Hs, shape_ws_of. split; by apply Hw.
Qed.

(** The row with the id of an own row is that row. *)
Lemma own_by_id ws t d r0 (w : row t -> bool) :
  tables_ok fold d -> identified t = true -> In r0 (d t) -> ws_of t r0 = ws ->
  (forall x, w x = true -> shape_id (shape t x) = shape_id (shape t r0)) -> forall x, In x (d t) -> w x = true -> ws_of t x = ws.
Proof. intros Hok Hi Hin <- Hw x Hx E. by rewrite (shape_unique d t x r0 Hi Hok Hx Hin) by (by apply Hw). Qed.

End ShapeFacts.

(** The row that a query found, with the conjuncts of its [where]. *)
Ltac found H :=
  let Hin := fresh "Hin" in let Hw := fresh "Hw" in
  apply find_some in H as [Hin Hw]; cbv beta in Hw; unfold live_api, live_keyAuth, live_namespace, live_override, is_override in Hw; bool_hyps.

(** The rows with the id of the row that was found. *)
Ltac by_id :=
  match goal with
  | Hin : In ?r (_ ?t) |- forall x, In x (_ ?t) -> _ -> _ =>
      eapply (own_by_id _ _ t _ r); [eassumption|reflexivity|eassumption|assumption|];
      let x := fresh in let E := fresh in intros x E; apply String.eqb_eq in E; cbn; congruence
  end.

(** ** Requests *)

Inductive ResourceRequest :=
| CreateApi (name : string)
| DeleteApi (apiId : string)
| SetDefaultApiBytes (defaultBytes : Z) (keyAuthId : string)
| SetDefaultApiPrefix (defaultPrefix keyAuthId : string)
| UpdateAPIDeleteProtection (apiId : string) (enabled : bool)
| UpdateApiName (name apiId : string)
| CreateNamespace (name : string)
| CreateOverride (namespaceId identifier : string) (limit duration : Z)
| DeleteNamespace (namespaceId : string)
| UpdateNamespaceName (name namespaceId : string)
| DeleteOverride (id : string)
| UpdateOverride (id : string) (limit duration : Z).

Definition serve_resource (r : ResourceRequest) (c : WCtx) : M unit :=
  match r with
  | CreateApi name => createApi name c ;; ret tt
  | DeleteApi apiId => deleteApi apiId c
  | SetDefaultApiBytes n keyAuthId => setDefaultApiBytes n keyAuthId c
  | SetDefaultApiPrefix p keyAuthId => setDefaultApiPrefix p keyAuthId c
  | UpdateAPIDeleteProtection apiId enabled => updateAPIDeleteProtection apiId enabled c
  | UpdateApiName name apiId => updateApiName name apiId c
  | CreateNamespace name => createNamespace name c ;; ret tt
  | CreateOverride namespaceId identifier limit duration => createOverride namespaceId identifier limit duration c ;; ret tt
  | DeleteNamespace namespaceId => deleteNamespace namespaceId c
  | UpdateNamespaceName name namespaceId => updateNamespaceName name namespaceId c
  | DeleteOverride id => deleteOverride id c
  | UpdateOverride id limit duration => updateOverride id limit duration c
  end.

(** One update of the row that was found. *)
Ltac update_own :=
  match goal with
  | H : run_sql _ (Update _ _ _) _ = Some _ |- _ => apply (within_update _ _ _ _ _ _ _ H); [done|by_id|done]
  end.

Section Respects.

Context (c : WCtx).

Let ws : string := cw_id (c_workspace c).

(** A successful run keeps the rows of other workspaces and the references. *)
Definition within {A} (m : M A) : Prop := forall env w r w',
  tables_ok (collation env) (tables (db w)) -> nested (tables (db w)) -> m env w = (Ret r, w') ->
  kept ws (tables (db w)) (tables (db w')) /\ nested (tables (db w')).

Lemma within_updateApiName name apiId : within (updateApiName name apiId c).
Proof.
  intros env w r w' Hok Hn H. unfold updateApiName in H. steps H. tables_eq. found Ef.
  update_own.
Qed.

Lemma within_updateAPIDeleteProtection apiId enabled : within (updateAPIDeleteProtection apiId enabled c).
Proof.
  intros env w r w' Hok Hn H. unfold updateAPIDeleteProtection in H. steps H. tables_eq. found Ef.
  update_own.
Qed.

Lemma within_setDefaultApiBytes n keyAuthId : within (setDefaultApiBytes n keyAuthId c).
Proof.
  intros env w r w' Hok Hn H. unfold setDefaultApiBytes, find_keyAuth in H. steps H. tables_eq. found Ef.
  update_own.
Qed.

Lemma within_setDefaultApiPrefix p keyAuthId : within (setDefaultApiPrefix p keyAuthId c).
Proof.
  intros env w r w' Hok Hn H. unfold setDefaultApiPrefix, find_keyAuth in H. steps H. tables_eq. found Ef.
  update_own.
Qed.

Lemma within_updateNamespaceName name id : within (updateNamespaceName name id c).
Proof.
  intros env w r w' Hok Hn H. unfold updateNamespaceName, find_namespace in H. steps H. tables_eq. found Ef.
  update_own.
Qed.

Lemma override_found id (d : Tables) o n :
  option_map (fun o => (o, List.find (fun n => String.eqb (ns_id n) (ov_namespaceId o)) (d schema_ratelimitNamespaces)))
    (List.find (live_override ws id) (d schema_ratelimitOverrides)) = Some (o, n) ->
  List.find (live_override ws id) (d schema_ratelimitOverrides) = Some o.
Proof. destruct (List.find (live_override ws id) _); [|done]. by intros [= <- _]. Qed.

Lemma ReadOnly_override_resources o n : ReadOnly (override_resources o n).
Proof. unfold override_resources. effects. Qed.

Lemma within_deleteOverride id : within (deleteOverride id c).
Proof.
  intros env w r w' Hok Hn H. unfold deleteOverride, find_override in H. steps H.
  apply (read_tables _ _ _ _ _ (ReadOnly_override_resources _ _)) in Hs0. tables_eq. apply override_found in Ef. found Ef. update_own.
Qed.

Lemma within_updateOverride id limit duration : within (updateOverride id limit duration c).
Proof.
  intros env w r w' Hok Hn H. unfold updateOverride, find_override in H. steps H.
  apply (read_tables _ _ _ _ _ (ReadOnly_override_resources _ _)) in Hs0. tables_eq. apply override_found in Ef. found Ef. update_own.
Qed.

Lemma within_createApi name : within (createApi name c).
Proof.
  intros env w r w' Hok Hn H. unfold createApi, createApiCore in H. steps H. ensured. tables_eq. split; [kept_chain|].
  apply (nested_run_insert _ _ _ _ _ Hs4).
  - intros r [<-|[]] k [= <-]. exists {| shape_id := a1; shape_ws := ws; shape_ref := None |}. split; [|done].
    unfold shapes. cbn [parent].
    rewrite (run_other _ _ _ _ schema_keyAuth Hs4), (run_insert _ _ _ _ _ Hs3) by done.
    rewrite map_app. apply in_or_app. right. by left.
  - apply (nested_run_insert _ _ _ _ _ Hs3); [by intros r [<-|[]] k|]. by apply (nested_project _ _ _ _ Hs0).
Qed.

Lemma within_createNamespace name : within (createNamespace name c).
Proof.
  intros env w r w' Hok Hn H. unfold createNamespace in H. apply bind_ret in H as (id & w1 & H1 & H).
  apply (read_tables _ _ _ _ _ (ReadOnly_new_id _)) in H1. apply bind_ret in H as (u & w2 & H2 & H). steps H.
  apply catch_ret in H2 as [H2|(e & w3 & _ & H2)]; [|by destruct (has_dup_code e)]. steps H2. ensured. tables_eq. split; [kept_chain|].
  apply (nested_run_insert _ _ _ _ _ Hs0); [by intros r [<-|[]] k|]. by apply (nested_project _ _ _ _ Hs).
Qed.

Lemma within_createOverride namespaceId identifier limit duration : within (createOverride namespaceId identifier limit duration c).
Proof.
  intros env w r w' Hok Hn H. unfold createOverride, find_namespace in H. steps H; tables_eq; found Ef.
  - apply (within_update _ _ _ _ _ _ _ Hs1); [done| |done]. intros x Hx Hw. unfold is_override in Hw. bool_hyps.
    rewrite (child_ws (collation env) _ schema_ratelimitOverrides x r0 Hok Hn eq_refl Hx Hin) by (cbn; congruence). done.
  - split; [kept_chain|]. apply (nested_run_insert _ _ _ _ _ Hs1); [|done]. intros x [<-|[]] k [= <-].
    exists (shape schema_ratelimitNamespaces r0). split; [|done]. unfold shapes. cbn [parent].
    rewrite (run_other _ _ _ _ schema_ratelimitNamespaces Hs1) by done. by apply in_map.
Qed.

Lemma within_then d d1 d2 : kept ws d d1 /\ nested d1 -> (nested d1 -> kept ws d1 d2 /\ nested d2) -> kept ws d d2 /\ nested d2.
Proof. intros [Hk Hn] H. destruct (H Hn) as [Hk2 Hn2]. split; [by transitivity d1|done]. Qed.

Lemma within_deleteNamespace id : within (deleteNamespace id c).
Proof.
  intros env w r w' Hok Hn H. unfold deleteNamespace, delete_namespace_tx, find_namespace in H. steps H; tables_eq; found Ef.
  - update_own.
  - match goal with
    | Ha : run_sql _ (Update schema_ratelimitNamespaces _ _) _ = Some ?d1,
      Hb : run_sql _ (Update schema_ratelimitOverrides _ _) ?d1 = Some _ |- _ =>
        apply (within_then _ d1);
          [apply (within_update _ _ _ _ _ _ _ Ha); [done|by_id|done]
          |apply (within_update _ _ _ _ _ _ _ Hb); [done|]; rewrite (run_other _ _ _ _ schema_ratelimitOverrides Ha) by done]
    end.
    intros x Hx E%String.eqb_eq.
    rewrite (child_ws (collation env) _ schema_ratelimitOverrides x r0 Hok Hn eq_refl Hx Hin) by (cbn; congruence). done.
Qed.

(** The API and its key space are marked as deleted. *)
Lemma within_api_space fold a k now d d1 d2 :
  tables_ok fold d -> nested d -> In a (d schema_apis) -> api_workspaceId a = ws -> api_keyAuthId a = Some k ->
  run_sql fold (Update schema_apis (fun r => String.eqb (api_id r) (api_id a)) (api_set_deleted now)) d = Some d1 ->
  run_sql fold (Update schema_keyAuth (fun r => String.eqb (ka_id r) k) (ka_set_deleted now)) d1 = Some d2 ->
  kept ws d d2 /\ nested d2.
Proof.
  intros Hok Hn Hin Hws Hk Ha Hb. apply (within_then _ d1).
  - apply (within_update _ _ _ _ _ _ _ Ha); [done|by_id|done].
  - apply (within_update _ _ _ _ _ _ _ Hb); [done|]. rewrite (run_other _ _ _ _ schema_keyAuth Ha) by done. intros x Hx E%String.eqb_eq.
    transitivity (ws_of schema_apis a); [symmetry; apply (child_ws fold _ schema_apis a x Hok Hn eq_refl Hin Hx); cbn; congruence|done].
Qed.

Lemma within_deleteApi id : within (deleteApi id c).
Proof.
  intros env w r w' Hok Hn H. unfold deleteApi in H. apply withRatelimit_ret in H as (w0 & E0 & H).
  unfold delete_api_rows in H. steps H; tables_eq; found Ef.
  all: destruct (api_keyAuthId r0) as [k|] eqn:Ek; [|done]; cbn [Js.coalesce] in *; subst id.
  - by apply (within_api_space _ r0 k _ _ _ _ Hok Hn Hin H Ek Hs0).
  - eapply within_then; [exact (within_api_space _ r0 k _ _ _ _ Hok Hn Hin H Ek Hs0 Hs1)|].
    apply (within_update _ _ _ _ _ _ _ Hs3); [done|].
    rewrite (run_other _ _ _ _ schema_keys Hs1), (run_other _ _ _ _ schema_keys Hs0) by done. intros x Hx E%String.eqb_eq.
    rewrite (nested_same (collation env) _ schema_keys x schema_apis r0 k Hok Hn Hx Hin) by (cbn; congruence). done.
Qed.

Lemma within_serve r : within (serve_resource r c).
Proof.
  intros env w u w' Hok Hn H.
  destruct r; cbn [serve_resource] in H;
    try (apply bind_ret in H as (a & w1 & H & Hr); apply ret_ret in Hr as [-> ->]);
    first [ by eapply within_createApi | by eapply within_deleteApi
          | by eapply within_setDefaultApiBytes | by eapply within_setDefaultApiPrefix
          | by eapply within_updateAPIDeleteProtection | by eapply within_updateApiName
          | by eapply within_createNamespace | by eapply within_createOverride
          | by eapply within_deleteNamespace | by eapply within_updateNamespaceName
          | by eapply within_deleteOverride | by eapply within_updateOverride ].
Qed.

End Respects.

Section Atomicity.

Context (c : WCtx).

Lemma Atomic_serve_resource r : Atomic (serve_resource r c).
Proof.
  destruct r; cbn [serve_resource];
    unfold createApi, deleteApi, setDefaultApiBytes, setDefaultApiPrefix, updateAPIDeleteProtection, updateApiName, createNamespace,
      createOverride, deleteNamespace, updateNamespaceName, deleteOverride, updateOverride, find_namespace, find_keyAuth, find_override,
      withRatelimit; atomics.
Qed.

End Atomicity.

(** Claim C21. The procedures on APIs and ratelimits stay inside the workspace of the
    caller. Whatever a user asks for, with ids of any workspace, the rows of other
    workspaces are the same before and after in every table, also where a
    deletion cascades by the id of the parent only; and a call that throws changes
    nothing. This rests on every reference being to a row of the same workspace,
    which every call preserves. *)
Theorem resources_isolation (r : ResourceRequest) (c : WCtx) (env : Env) (w w' : World) (o : Outcome unit) :
  tables_ok (collation env) (tables (db w)) -> nested (tables (db w)) -> serve_resource r c env w = (o, w') ->
  match o with
  | Ret _ => kept (cw_id (c_workspace c)) (tables (db w)) (tables (db w')) /\ nested (tables (db w'))
  | Throw _ => db w' = db w
  end.
Proof.
  intros Hok Hn H. destruct o as [u|e]; [by eapply within_serve|]. exact (Atomic_serve_resource c r env w e w' H).
Qed.

(** ** Deletion of an API *)

(** Deleting an API deletes what is under it, and nothing that is protected.
    When [deleteApi] succeeds, the API was live, of the caller's workspace and not
    protected; afterwards it, its key space and every key in the key space carry a
    deletion time, every other API, key space and key is as it was, and the other
    tables are untouched. *)
Theorem deleteApi_cascade (apiId : string) (c : WCtx) (env : Env) (w w' : World) (u : unit) :
  deleteApi apiId c env w = (Ret u, w') ->
  exists a k now now2, In a (tables (db w) schema_apis) /\ api_id a = apiId /\ api_workspaceId a = cw_id (c_workspace c)
    /\ api_deletedAtM a = None /\ api_deleteProtection a <> Some true /\ api_keyAuthId a = Some k
    /\ tables (db w') schema_apis
       = List.map (fun r => if String.eqb (api_id r) apiId then api_set_deleted now r else r) (tables (db w) schema_apis)
    /\ tables (db w') schema_keyAuth
       = List.map (fun r => if String.eqb (ka_id r) k then ka_set_deleted now r else r) (tables (db w) schema_keyAuth)
    /\ tables (db w') schema_keys
       = List.map (fun r => if String.eqb (key_keyAuthId r) k then set_deletedAt now2 r else r) (tables (db w) schema_keys)
    /\ forall t, t <> schema_apis -> t <> schema_keyAuth -> t <> schema_keys -> tables (db w') t = tables (db w) t.
Proof.
  intros H. unfold deleteApi in H. apply withRatelimit_ret in H as (w0 & E0 & H).
  unfold delete_api_rows in H. steps H; tables_eq; found Ef.
  all: destruct (api_keyAuthId r) as [k|] eqn:Ek; [|done]; cbn [Js.coalesce] in *; exists r, k; eexists.
  - exists 0. assert (Ek2 := run_other _ _ _ _ schema_keys Hs1 ltac:(done)). assert (Ek1 := run_other _ _ _ _ schema_keys Hs0 ltac:(done)).
    rewrite Ek2, Ek1 in Ef0. split_and!; try done; [by eapply bool_decide_eq_true_1|by intros E; rewrite E in Em0|..].
    + rewrite (run_other _ _ _ _ schema_apis Hs1), (run_update _ _ _ _ _ _ Hs0) by done. reflexivity.
    + by rewrite (run_update _ _ _ _ _ _ Hs1), (run_other _ _ _ _ schema_keyAuth Hs0).
    + rewrite Ek2, Ek1. symmetry. by apply map_none.
    + intros t H2 H3 H4. by rewrite (run_other _ _ _ _ t Hs1), (run_other _ _ _ _ t Hs0).
  - eexists. split_and!; try done; [by eapply bool_decide_eq_true_1|by intros E; rewrite E in Em0|..].
    + rewrite (run_other _ _ _ _ schema_apis Hs3), (run_other _ _ _ _ schema_apis Hs1), (run_update _ _ _ _ _ _ Hs0) by done. reflexivity.
    + by rewrite (run_other _ _ _ _ schema_keyAuth Hs3), (run_update _ _ _ _ _ _ Hs1), (run_other _ _ _ _ schema_keyAuth Hs0).
    + rewrite (run_update _ _ _ _ _ _ Hs3), (run_other _ _ _ _ schema_keys Hs1), (run_other _ _ _ _ schema_keys Hs0) by done. reflexivity.
    + intros t H2 H3 H4. by rewrite (run_other _ _ _ _ t Hs3), (run_other _ _ _ _ t Hs1), (run_other _ _ _ _ t Hs0).
Qed.

(** ** Overrides *)

Section OverrideRows.

Context (ns identifier : string).

Definition of_override (l : list Override) : list Override := List.filter (is_override ns identifier) l.
Definition of_other_overrides (l : list Override) : list Override := List.filter (fun r => negb (is_override ns identifier r)) l.

Lemma is_override_set limit duration at_ r : is_override ns identifier (ov_set_limits limit duration at_ r) = is_override ns identifier r.
Proof. done. Qed.

Lemma of_override_map (f : Override -> Override) l :
  (forall r, is_override ns identifier (f r) = is_override ns identifier r) ->
  of_override (List.map (fun r => if is_override ns identifier r then f r else r) l) = List.map f (of_override l)
  /\ of_other_overrides (List.map (fun r => if is_override ns identifier r then f r else r) l) = of_other_overrides l.
Proof.
  intros Hf. unfold of_override, of_other_overrides. induction l as [|r l [IH1 IH2]]; cbn; [done|].
  destruct (is_override ns identifier r) eqn:E; cbn; rewrite ?Hf, ?E; cbn; by rewrite IH1, IH2.
Qed.

(** The unique index leaves at most one. *)
Lemma of_override_single fold l o :
  unique (clash fold schema_ratelimitOverrides) l = true -> List.find (is_override ns identifier) l = Some o -> of_override l = [o].
Proof.
  unfold of_override. induction l as [|r l IH]; cbn [unique List.find List.filter]; [done|]. intros [Hr Hu]%andb_prop H.
  destruct (is_override ns identifier r) eqn:E; [|by apply IH]. injection H as ->. f_equal.
  destruct (List.filter (is_override ns identifier) l) as [|x rest] eqn:Ef; [done|]. exfalso. apply negb_true_iff in Hr.
  assert (Hx : In x (List.filter (is_override ns identifier) l)) by (rewrite Ef; by left).
  apply filter_In in Hx as [Hx Ex]. enough (existsb (clash fold schema_ratelimitOverrides o) l = true) by congruence.
  apply existsb_exists. exists x. split; [done|]. unfold is_override in E, Ex. bool_hyps. cbn. apply orb_true_iff. right.
  apply andb_true_iff. split; apply String.eqb_eq; congruence.
Qed.

Lemma find_none_filter l : List.find (is_override ns identifier) l = None -> of_override l = [].
Proof. unfold of_override. induction l as [|r l IH]; cbn; [done|]. by destruct (is_override ns identifier r). Qed.

End OverrideRows.

(** An override is set, whether or not one existed. When [createOverride]
    succeeds, the namespace was live and the caller's, and there is exactly one
    override of the identifier in it, live, with the requested limit and duration,
    also when it had been deleted before; all other overrides are as they were.
    The id that is returned is the id of that override only when there was none
    before. *)
Theorem createOverride_sets (namespaceId identifier : string) (limit duration : Z) (c : WCtx) (env : Env) (w w' : World) (id : string) :
  tables_ok (collation env) (tables (db w)) -> createOverride namespaceId identifier limit duration c env w = (Ret id, w') ->
  let d := tables (db w) in let d' := tables (db w') in
  (exists n, In n (d schema_ratelimitNamespaces) /\ ns_id n = namespaceId /\ ns_workspaceId n = cw_id (c_workspace c) /\ ns_deletedAtM n = None)
  /\ (exists o, of_override namespaceId identifier (d' schema_ratelimitOverrides) = [o]
        /\ ov_limit o = limit /\ ov_duration o = duration /\ ov_deletedAtM o = None
        /\ ov_id o = match List.find (is_override namespaceId identifier) (d schema_ratelimitOverrides) with Some old => ov_id old | None => id end)
  /\ of_other_overrides namespaceId identifier (d' schema_ratelimitOverrides)
     = of_other_overrides namespaceId identifier (d schema_ratelimitOverrides).
Proof.
  intros Hok H d d'. unfold createOverride, find_namespace in H. steps H; subst d d'; tables_eq; found Ef; subst namespaceId.
  all: split; [eexists; split_and!; try done; by eapply bool_decide_eq_true_1|]; cbn [row] in *.
  - rewrite (run_update _ _ _ _ _ _ Hs1), Ef0.
    destruct (of_override_map (ns_id r) identifier (ov_set_limits limit duration None) (tables (db w) schema_ratelimitOverrides)) as [E1 E2]; [done|].
    rewrite (of_override_single _ _ (collation env) _ _ (Hok schema_ratelimitOverrides) Ef0) in E1.
    split; [|exact E2]. eexists. split; [exact E1|done].
  - rewrite (run_insert _ _ _ _ _ Hs1), Ef0. unfold of_other_overrides, of_override. rewrite !List.filter_app. split.
    + assert (E := find_none_filter _ _ _ Ef0). unfold of_override in E. cbn [row] in *. rewrite E. eexists. cbn. unfold is_override. cbn. rewrite !String.eqb_refl. split; [reflexivity|done].
    + cbn. unfold is_override at 2. cbn. rewrite !String.eqb_refl. by rewrite app_nil_r.
Qed.

(** ** Instances *)

(** Two workspaces; the first has an API with a key and a namespace with an override. *)
Definition resource_tables : Tables := fun t =>
  match t return list (row t) with
  | schema_apis => [{| api_id := "api_1"; api_name := "payments"; api_workspaceId := "ws_1"; api_projectId := "proj_1";
                       api_authType := Some "key"%string; api_keyAuthId := Some "ks_1"%string; api_deletedAtM := None;
                       api_deleteProtection := Some false |}]
  | schema_keyAuth => [{| ka_id := "ks_1"; ka_workspaceId := "ws_1"; ka_projectId := "proj_1"; ka_deletedAtM := None;
                          ka_storeEncryptedKeys := false; ka_defaultPrefix := None; ka_defaultBytes := Some 16 |};
                       {| ka_id := "ks_2"; ka_workspaceId := "ws_2"; ka_projectId := "proj_2"; ka_deletedAtM := None;
                          ka_storeEncryptedKeys := false; ka_defaultPrefix := None; ka_defaultBytes := Some 16 |}]
  | schema_keys => [rotated_key (root_key_row (demo_ctx compute_db) "ws_1" "k" "ks_1" "h" "s" None) "key_1" "hash_1" "abc";
                    rotated_key (root_key_row (demo_ctx compute_db) "ws_2" "k" "ks_2" "h" "s" None) "key_2" "hash_2" "abc"]
  | schema_ratelimitNamespaces => [{| ns_id := "ns_1"; ns_workspaceId := "ws_1"; ns_projectId := "proj_1"; ns_name := "email";
                                      ns_deletedAtM := None |}]
  | schema_ratelimitOverrides => [{| ov_id := "ov_1"; ov_workspaceId := "ws_1"; ov_namespaceId := "ns_1";
                                     ov_identifier := "ada"; ov_limit := 10; ov_duration := 1000; ov_deletedAtM := None |}]
  | _ => []
  end.

Definition resource_db : Db := with_tables resource_tables compute_db.

Lemma resource_ok : tables_ok Str.to_lower resource_tables.
Proof. intros []; reflexivity. Qed.

Lemma resource_nested : nested resource_tables.
Proof.
  intros t s Hs k Hk. destruct t; cbn in Hs; try done; repeat destruct Hs as [<-|Hs]; try done; cbn in Hk; try discriminate;
    injection Hk as <-; first [eexists; split; [left; reflexivity|done] | eexists; split; [right; left; reflexivity|done]].
Qed.

Lemma resources_isolation_witness :
  exists w', serve_resource (DeleteApi "api_1") (demo_ctx compute_db) demo_env (world_of resource_db) = (Ret tt, w')
    /\ kept "ws_1" resource_tables (tables (db w')) /\ nested (tables (db w')).
Proof.
  destruct (serve_resource (DeleteApi "api_1") (demo_ctx compute_db) demo_env (world_of resource_db)) as [[[]|e] w'] eqn:E;
    [|vm_compute in E; discriminate].
  exists w'. split; [reflexivity|].
  exact (resources_isolation (DeleteApi "api_1") (demo_ctx compute_db) demo_env (world_of resource_db) w' (Ret tt) resource_ok resource_nested E).
Defined.

Lemma deleteApi_cascade_witness :
  exists w' a, deleteApi "api_1" (demo_ctx compute_db) demo_env (world_of resource_db) = (Ret tt, w') /\ In a (resource_tables schema_apis)
    /\ api_deleteProtection a <> Some true.
Proof.
  destruct (deleteApi "api_1" (demo_ctx compute_db) demo_env (world_of resource_db)) as [[[]|e] w'] eqn:E; [|vm_compute in E; discriminate].
  destruct (deleteApi_cascade "api_1" (demo_ctx compute_db) demo_env (world_of resource_db) w' tt E)
    as (a & k & now & now2 & Hin & _ & _ & _ & Hp & _). exists w', a. split; [reflexivity|]. split; [exact Hin|exact Hp].
Defined.

Lemma createOverride_sets_witness :
  exists id w' o, createOverride "ns_1" "ada" 99 2000 (demo_ctx compute_db) demo_env (world_of resource_db) = (Ret id, w')
    /\ of_override "ns_1" "ada" (tables (db w') schema_ratelimitOverrides) = [o] /\ ov_limit o = 99.
Proof.
  destruct (createOverride "ns_1" "ada" 99 2000 (demo_ctx compute_db) demo_env (world_of resource_db)) as [[id|e] w'] eqn:E;
    [|vm_compute in E; discriminate].
  destruct (createOverride_sets "ns_1" "ada" 99 2000 (demo_ctx compute_db) demo_env (world_of resource_db) w' id resource_ok E)
    as (_ & (o & Ho & Hl & _) & _). exists id, w', o. split; [reflexivity|]. split; [exact Ho|exact Hl].
Defined.

(** Two departures of the ratelimit procedures. Setting an override that
    exists already returns an id that no override has. And the name of a deleted
    namespace stays taken: creating a namespace of that name fails on the unique
    index, and the failure is reported as an internal error instead of a conflict,
    because the code of the driver is on the cause of the error. *)
Theorem ratelimit_departures :
  let c := demo_ctx compute_db in
  (exists id w', createOverride "ns_1" "ada" 99 2000 c demo_env (world_of resource_db) = (Ret id, w')
     /\ List.map ov_id (tables (db w') schema_ratelimitOverrides) = ["ov_1"%string] /\ id <> "ov_1"%string)
  /\ (exists w1, deleteNamespace "ns_1" c demo_env (world_of resource_db) = (Ret tt, w1)
      /\ exists message, fst (createNamespace "email" c demo_env w1) = Throw (internal message)).
Proof.
  cbv zeta. split.
  - destruct (createOverride "ns_1" "ada" 99 2000 (demo_ctx compute_db) demo_env (world_of resource_db)) as [o w'] eqn:E.
    vm_compute in E. injection E as <- <-. eexists _, _. split; [reflexivity|]. split; [reflexivity|]. discriminate.
  - destruct (deleteNamespace "ns_1" (demo_ctx compute_db) demo_env (world_of resource_db)) as [o w1] eqn:E.
    vm_compute in E. injection E as <- <-. eexists. split; [reflexivity|]. eexists. vm_compute. reflexivity.
Qed.
