(* ===== verification/Match.v ===== *)
(** * Pattern matching

    web/internal/match/src: matchPattern and the pattern helpers of patterns.ts, the
    builder of match.ts and NonExhaustiveError of errors.ts. The types of types.ts
    are checked by the compiler and have no run-time content; what the run-time
    code does is modelled on untyped values. Numbers are a parameter with the
    equality of Object.is, and so are the properties that arrays and objects
    inherit. *)

From Stdlib Require Import ZArith Bool String Lia.
From stdpp Require Import base list strings.
From S2P Require Import Prelude.

Set Warnings "-register-all".

Section Match.

Context {number : Type} `{EqDecision number}.

(** ** Values *)

Inductive primitive :=
| Undefined
| Null
| Boolean (b : bool)
| Number (n : number)
| Text (s : string)
| Function (identity : nat).

Inductive value :=
| Prim (x : primitive)
| Array (elements : list value)
| Object_ (properties : list (string * value)).

(** [Boolean(value && typeof value === "object")]. *)
Definition isObject (v : value) : bool := match v with Prim _ => false | _ => true end.

(** A matcher object, a value that is not an object, an array or an object: an
    object literal is always a pattern over its properties. *)
Inductive pattern :=
| Matcher (run : value -> bool)
| Literal (x : primitive)
| ArrayPattern (l : list pattern)
| ObjectPattern (l : list (string * pattern)).

Definition primitive_is (x y : primitive) : bool :=
  match x, y with
  | Undefined, Undefined | Null, Null => true
  | Boolean a, Boolean b => Bool.eqb a b
  | Number a, Number b => bool_decide (a = b)
  | Text a, Text b => String.eqb a b
  | Function a, Function b => Nat.eqb a b
  | _, _ => false
  end.

(** [Object.is(v, x)] where [x] is not an object. *)
Definition object_is (v : value) (x : primitive) : bool :=
  match v with Prim y => primitive_is y x | _ => false end.

(** The number of a length, and what an array (true) or an object (false) inherits
    under a name. *)
Context (number_of : nat -> number) (inherited : bool -> string -> option value).

Fixpoint indexed (i : nat) (l : list value) : list (string * value) :=
  match l with [] => [] | x :: l' => (Num.string_of_Z (Z.of_nat i), x) :: indexed (S i) l' end.

(** [k in v] and [v[k]]: an own property, or else an inherited one. *)
Definition own_properties (v : value) : list (string * value) :=
  match v with
  | Object_ l => l
  | Array l => indexed 0 l ++ [("length"%string, Prim (Number (number_of (List.length l))))]
  | _ => []
  end.

Definition is_array (v : value) : bool := match v with Array _ => true | _ => false end.

Definition property (v : value) (k : string) : option value :=
  match List.find (fun p => String.eqb (fst p) k) (own_properties v) with
  | Some p => Some (snd p)
  | None => inherited (is_array v) k
  end.

(** ** Patterns *)

Fixpoint matchPattern (p : pattern) (v : value) : bool :=
  match p with
  | Matcher run => run v
  | Literal x => object_is v x
  | ArrayPattern l =>
      match v with
      | Array els =>
          Nat.eqb (List.length l) (List.length els) &&
          (fix every (l : list pattern) (els : list value) : bool :=
             match l, els with
             | sub :: l', x :: els' => matchPattern sub x && every l' els'
             | sub :: l', [] => matchPattern sub (Prim Undefined) && every l' []
             | [], _ => true
             end) l els
      | _ => false
      end
  | ObjectPattern l =>
      isObject v &&
      (fix every (l : list (string * pattern)) : bool :=
         match l with
         | [] => true
         | (k, sub) :: l' =>
             match property v k with Some x => matchPattern sub x && every l' | None => false end
         end) l
  end.

Definition P_any : pattern := Matcher (fun _ => true).
Definition P_string : pattern := Matcher (fun v => match v with Prim (Text _) => true | _ => false end).
Definition P_number : pattern := Matcher (fun v => match v with Prim (Number _) => true | _ => false end).
Definition P_boolean : pattern := Matcher (fun v => match v with Prim (Boolean _) => true | _ => false end).
Definition P_nullish : pattern := Matcher (fun v => match v with Prim (Null | Undefined) => true | _ => false end).
Definition P_nonNullable : pattern := Matcher (fun v => match v with Prim (Null | Undefined) => false | _ => true end).
Definition P_when (predicate : value -> bool) : pattern := Matcher predicate.

(** What a pattern means. *)
Inductive Matches : pattern -> value -> Prop :=
| matches_matcher run v : run v = true -> Matches (Matcher run) v
| matches_literal x : Matches (Literal x) (Prim x)
| matches_array l els : Forall2 Matches l els -> Matches (ArrayPattern l) (Array els)
| matches_object l v :
    isObject v = true -> Forall (fun kp => exists x, property v (fst kp) = Some x /\ Matches (snd kp) x) l ->
    Matches (ObjectPattern l) v.

(** ** The builder *)

Context {out exn : Type}.

(** [with] with its patterns and its guard; [when] is a guard without patterns. *)
Record Arm := {
  arm_patterns : option (list pattern);
  arm_predicate : option (value -> bool);
  arm_handler : value -> exn + out;
}.

(** The arm of [with(first, ...rest, handler)]: a function as the second of three
    arguments is a guard, whatever it was meant to be; [call] runs a function. *)
Context (call : nat -> value -> bool).

Definition with_arm (first : pattern) (rest : list pattern) (handler : value -> exn + out) : Arm :=
  match rest with
  | [Literal (Function f)] => {| arm_patterns := Some [first]; arm_predicate := Some (call f); arm_handler := handler |}
  | _ => {| arm_patterns := Some (first :: rest); arm_predicate := None; arm_handler := handler |}
  end.

Definition when_arm (predicate : value -> bool) (handler : value -> exn + out) : Arm :=
  {| arm_patterns := None; arm_predicate := Some predicate; arm_handler := handler |}.

(** The value a matched arm returned, and the positions of the handlers that ran;
    an exception of a handler ends the expression. *)
Record Builder := { matched : option out; ran : list nat }.

Inductive MatchError := NonExhaustiveError (input : value) | HandlerError (e : exn).

Definition arm_matches (a : Arm) (v : value) : bool :=
  match arm_patterns a with Some l => existsb (fun p => matchPattern p v) l | None => true end
  && match arm_predicate a with Some f => f v | None => true end.

(** [with] and [when], as the arm at position [i]. *)
Definition with_ (v : value) (i : nat) (a : Arm) (b : Builder) : exn + Builder :=
  match matched b with
  | Some _ => inr b
  | None =>
      if arm_matches a v then
        match arm_handler a v with
        | inl e => inl e
        | inr r => inr {| matched := Some r; ran := ran b ++ [i] |}
        end
      else inr {| matched := None; ran := ran b |}
  end.

Fixpoint arms (v : value) (i : nat) (l : list Arm) (b : Builder) : exn + Builder :=
  match l with
  | [] => inr b
  | a :: l' => match with_ v i a b with inl e => inl e | inr b' => arms v (S i) l' b' end
  end.

Definition match_ : Builder := {| matched := None; ran := [] |}.

(** [match(v).with(...)...exhaustive()], with the handlers that ran. *)
Definition exhaustive (v : value) (l : list Arm) : MatchError + (out * list nat) :=
  match arms v 0 l match_ with
  | inl e => inl (HandlerError e)
  | inr b => match matched b with Some r => inr (r, ran b) | None => inl (NonExhaustiveError v) end
  end.

(** [....otherwise(h)]. *)
Definition otherwise (v : value) (l : list Arm) (h : value -> exn + out) : MatchError + (out * list nat) :=
  match arms v 0 l match_ with
  | inl e => inl (HandlerError e)
  | inr b =>
      match matched b with
      | Some r => inr (r, ran b)
      | None => match h v with inl e => inl (HandlerError e) | inr r => inr (r, ran b ++ [List.length l]) end
      end
  end.

(** ** Facts about patterns *)

Section Induction.

Context (Q : pattern -> Prop).
Context (Qm : forall run, Q (Matcher run)) (Ql : forall x, Q (Literal x)).
Context (Qa : forall l, Forall Q l -> Q (ArrayPattern l)) (Qo : forall l, Forall (fun kp => Q (snd kp)) l -> Q (ObjectPattern l)).

Fixpoint pattern_ind2 (p : pattern) : Q p :=
  match p with
  | Matcher run => Qm run
  | Literal x => Ql x
  | ArrayPattern l =>
      Qa l ((fix go (l : list pattern) : Forall Q l :=
               match l with [] => Forall_nil_2 _ | x :: l' => Forall_cons_2 _ _ _ (pattern_ind2 x) (go l') end) l)
  | ObjectPattern l =>
      Qo l ((fix go (l : list (string * pattern)) : Forall (fun kp => Q (snd kp)) l :=
               match l with [] => Forall_nil_2 _ | kp :: l' => Forall_cons_2 _ _ _ (pattern_ind2 (snd kp)) (go l') end) l)
  end.

End Induction.

Lemma object_is_spec v x : object_is v x = true <-> v = Prim x.
Proof.
  split.
  - destruct v as [y| |]; [|done..]. intros E. f_equal. destruct y, x; cbn in *; try done; f_equal.
    + by apply Bool.eqb_prop.
    + by apply bool_decide_eq_true_1 in E.
    + by apply String.eqb_eq.
    + by apply Nat.eqb_eq.
  - intros ->. destruct x; cbn; auto using eqb_reflx, bool_decide_eq_true_2, String.eqb_refl, Nat.eqb_refl.
Qed.

Lemma array_matches l els :
  Forall (fun p => forall v, matchPattern p v = true <-> Matches p v) l ->
  matchPattern (ArrayPattern l) (Array els) = true <-> Forall2 Matches l els.
Proof.
  intros Hl. cbn [matchPattern]. revert els. induction Hl as [|p l Hh Ht IH]; intros [|x els]; cbn.
  - split; [constructor|done].
  - split; [done|intros H; inversion H].
  - split; [done|intros H; inversion H].
  - rewrite Forall2_cons, <- Hh, <- IH, !andb_true_iff. tauto.
Qed.

Lemma object_matches l v :
  isObject v = true -> Forall (fun kp => forall v, matchPattern (snd kp) v = true <-> Matches (snd kp) v) l ->
  matchPattern (ObjectPattern l) v = true <->
  Forall (fun kp => exists x, property v (fst kp) = Some x /\ Matches (snd kp) x) l.
Proof.
  intros Hv Hl. cbn [matchPattern]. rewrite Hv. cbn [andb]. induction Hl as [|[k p] l Hh Ht IH]; [split; constructor|].
  rewrite Forall_cons. cbn [fst snd] in *. destruct (property v k) as [x|].
  - rewrite andb_true_iff, IH, Hh. split; intros [H1 H2]; (split; [|done]); [by exists x|].
    by destruct H1 as (y & [= <-] & H1).
  - split; [done|by intros [(y & ? & _) _]].
Qed.

(** matchPattern decides what a pattern means. *)
Lemma matchPattern_decides p v : matchPattern p v = true <-> Matches p v.
Proof.
  revert v. induction p as [run|x|l IH|l IH] using pattern_ind2; intros v.
  - split; [by constructor|by inversion 1].
  - cbn. rewrite object_is_spec. split; [intros ->; constructor|by inversion 1].
  - destruct v as [y|els|o]; [by (split; [|inversion 1])| |by (split; [|inversion 1])].
    rewrite (array_matches _ _ IH). split; [by constructor|by inversion 1].
  - destruct (isObject v) eqn:Hv.
    + rewrite (object_matches _ _ Hv IH). split; [by constructor|by inversion 1].
    + split; [cbn; by rewrite Hv|inversion 1; congruence].
Qed.

(** ** Facts about the builder *)

(** The first arm that matches, with its position. *)
Fixpoint first_arm (v : value) (i : nat) (l : list Arm) : option (nat * Arm) :=
  match l with
  | [] => None
  | a :: l' => if arm_matches a v then Some (i, a) else first_arm v (S i) l'
  end.

Lemma arms_matched v l : forall i b, matched b <> None -> arms v i l b = inr b.
Proof.
  induction l as [|a l IH]; intros i b Hb; [done|]. cbn. unfold with_. destruct (matched b) eqn:E; [|done].
  apply IH. by rewrite E.
Qed.

Lemma arms_first v l : forall i r,
  arms v i l {| matched := None; ran := r |} =
  match first_arm v i l with
  | None => inr {| matched := None; ran := r |}
  | Some (j, a) => match arm_handler a v with inl e => inl e | inr x => inr {| matched := Some x; ran := r ++ [j] |} end
  end.
Proof.
  induction l as [|a l IH]; intros i r; [done|]. cbn [arms first_arm]. unfold with_. cbn [matched ran].
  destruct (arm_matches a v); [|apply IH]. destruct (arm_handler a v); [done|]. by apply arms_matched.
Qed.

Lemma first_arm_spec v l i j a :
  first_arm v i l = Some (j, a) <->
  exists before after, l = before ++ a :: after /\ j = (i + List.length before)%nat /\ arm_matches a v = true /\
    Forall (fun a' => arm_matches a' v = false) before.
Proof.
  revert i. induction l as [|b l IH]; intros i; cbn [first_arm].
  - split; [done|]. intros (before & after & E & _). by destruct before.
  - destruct (arm_matches b v) eqn:Hb.
    + split.
      * intros [= <- <-]. exists [], l. cbn. rewrite Nat.add_0_r. repeat split; auto.
      * intros ([|b' before] & after & E & -> & Ha & Hf); simplify_eq/=; [by rewrite Nat.add_0_r|].
        apply Forall_cons in Hf as [Hf _]. congruence.
    + rewrite IH. split.
      * intros (before & after & -> & -> & Ha & Hf). exists (b :: before), after. cbn. rewrite Nat.add_succ_r. auto.
      * intros ([|b' before] & after & E & -> & Ha & Hf); simplify_eq/=; [congruence|].
        apply Forall_cons in Hf as [_ Hf]. exists before, after. rewrite Nat.add_succ_r. auto.
Qed.

Lemma first_arm_none v l i : first_arm v i l = None <-> Forall (fun a => arm_matches a v = false) l.
Proof.
  revert i. induction l as [|b l IH]; intros i; cbn [first_arm]; [split; [constructor|done]|].
  rewrite Forall_cons, <- (IH (S i)). destruct (arm_matches b v); intuition congruence.
Qed.

(** An arm of patterns and a guard applies when one of its patterns means the
    value and its guard holds. *)
Lemma arm_matches_spec a v :
  arm_matches a v = true <->
  (forall l, arm_patterns a = Some l -> Exists (fun p => Matches p v) l) /\
  (forall f, arm_predicate a = Some f -> f v = true).
Proof.
  unfold arm_matches. rewrite andb_true_iff.
  assert (Hp : forall l, existsb (fun p => matchPattern p v) l = true <-> Exists (fun p => Matches p v) l).
  { intros l. rewrite existsb_exists, Exists_exists. split; intros (p & Hin & Hp); exists p; split;
      try (by apply list_elem_of_In); try by apply matchPattern_decides. }
  destruct (arm_patterns a) as [l|], (arm_predicate a) as [f|]; rewrite ?Hp;
    clear Hp; (split; [intros [H1 H2]; split; intros ? [= <-]; done|intros [H1 H2]; split; auto]).
Qed.

(** matchPattern decides what a pattern means: a primitive by Object.is, an array by
    its length and elements, an object by the properties the pattern names. *)
Theorem matchPattern_refines (p : pattern) (v : value) : matchPattern p v = true <-> Matches p v.
Proof. apply matchPattern_decides. Qed.

(** The expression is decided by its first arm that applies: that arm's handler
    runs, no other does, and its result or its exception is the expression's. Where
    no arm applies, exhaustive throws the input and otherwise runs its fallback. *)
Theorem first_arm_wins (v : value) (l : list Arm) (h : value -> exn + out) :
  (forall before a after, l = before ++ a :: after -> Forall (fun a' => arm_matches a' v = false) before ->
     arm_matches a v = true ->
     exhaustive v l = match arm_handler a v with inl e => inl (HandlerError e) | inr r => inr (r, [List.length before]) end /\
     otherwise v l h = exhaustive v l) /\
  (exhaustive v l = inl (NonExhaustiveError v) <-> Forall (fun a => arm_matches a v = false) l) /\
  (Forall (fun a => arm_matches a v = false) l ->
     otherwise v l h = match h v with inl e => inl (HandlerError e) | inr r => inr (r, [List.length l]) end).
Proof.
  unfold exhaustive, otherwise, match_. rewrite arms_first. repeat split.
  - rewrite (proj2 (first_arm_spec v l 0 (List.length before) a)) by (exists before, after; auto).
    by destruct (arm_handler a v).
  - rewrite (proj2 (first_arm_spec v l 0 (List.length before) a)) by (exists before, after; auto).
    by destruct (arm_handler a v).
  - intros E. apply (first_arm_none v l 0). destruct (first_arm v 0 l) as [[j a]|]; [|done].
    by destruct (arm_handler a v).
  - intros Hl. by rewrite (proj2 (first_arm_none v l 0) Hl).
  - intros Hl. rewrite (proj2 (first_arm_none v l 0) Hl). cbn. by destruct (h v).
Qed.

End Match.

(** ** A value of a tagged union *)

Module Example.

Definition inherited (array : bool) (k : string) : option (value (number := Z)) :=
  if String.eqb k "toString" then Some (Prim (Function 0)) else None.

Definition result (ok : bool) : value (number := Z) :=
  Object_ [("type"%string, Prim (Text (if ok then "ok" else "error")));
           ("items"%string, Array [Prim (Number 1%Z); Prim Null])].

Definition tagged (t : string) : pattern (number := Z) := ObjectPattern [("type"%string, Literal (Text t))].

Definition run (v : value (number := Z)) : MatchError (number := Z) (exn := string) + (Z * list nat) :=
  exhaustive Z.of_nat inherited v
    [with_arm (fun _ _ => false) (tagged "ok") [Literal (Function 7)] (fun _ => inr 1%Z);
     with_arm (fun _ _ => true) (ObjectPattern [("items"%string, ArrayPattern [P_number; P_nullish])])
       [tagged "other"] (fun _ => inr 2%Z);
     when_arm (fun _ => true) (fun _ => inr 3%Z)].

(** The guard of the first arm fails, the second arm's patterns are alternatives, an
    inherited property counts as present, and a primitive is no object. *)
Lemma runs :
  run (result true) = inr (2%Z, [1]) /\ run (Object_ [("type"%string, Prim (Text "other"))]) = inr (2%Z, [1]) /\
  run (Prim (Text "ok")) = inr (3%Z, [2]) /\
  matchPattern Z.of_nat inherited (ObjectPattern [("toString"%string, P_any)]) (Object_ []) = true.
Proof. vm_compute. auto. Qed.

End Example.
