(* ===== verification/Workspaces.v ===== *)
(** * Workspaces

    The procedures of web/apps/dashboard/lib/trpc/routers/workspace. Creating and
    renaming a workspace writes the database in one transaction and, inside it, calls
    the authentication provider, which the rollback does not reach. The inputs have
    passed their schema. *)

From Stdlib Require Import ZArith Bool Ascii String Lia.
From stdpp Require Import base list gmap strings.
From S2P Require Import Prelude Helpers Tables StripeTypes DeployPlan AuthTypes Effects Fixtures Cookies Sessions AuthProvider Workos.
From S2P Require Import BillingOps Trpc AuthActions AuthSafety Members Store Authorization RootKeys Resources.

Local Open Scope Z_scope.

Section Procedures.

Context {P : AuthProvider}.

(** ** create *)

Definition LOCAL_ONE_WORKSPACE : Exn :=
  TRPCError "METHOD_NOT_SUPPORTED" "You cannot create additional workspaces in local development mode. Use workOS auth provider if you need to test multi-workspace functionality.".

Definition SLUG_TAKEN : Exn := TRPCError "CONFLICT" "A workspace with this slug already exists.".

Definition all_workspaces (d : Db) : list Workspace := List.map snd (map_to_list (workspaces d)).

(** The slug is compared in the collation of the server. *)
Definition slug_taken (slug : string) : M bool :=
  call DbQuery ;;
  fun env w => (Ret (existsb (fun ws => String.eqb (collation env (ws_slug ws)) (collation env slug)) (all_workspaces (db w))), w).

Definition new_workspace (id org name slug k8sNamespace : string) (now : Z) : Workspace :=
  {| ws_id := id; ws_name := name; orgId := org; ws_slug := slug; ws_k8sNamespace := Some k8sNamespace; ws_betaFeatures := [];
     ws_enabled := true; ws_deleteProtection := true; ws_createdAtM := now; ws_updatedAtM := None; deletedAtM := None |}.

Definition free_billing : Billing :=
  {| tier := Some "Free"%string; stripeCustomerId := None; plan := None; planOverride := None; spend := no_spend |}.

Definition create_log (ctx : Context) (userId id name : string) : UnkeyAuditLog :=
  {| log_workspaceId := id; log_event := "workspace.create"; log_description := "Created " +:+ id;
     log_actor := {| actor_type := "user"; actor_id := userId; actor_name := None; actor_meta := None |};
     log_resources := [resource "workspace" id (Some name)]; log_location := ctx_location ctx;
     log_userAgent := ctx_userAgent ctx; log_correlationId := None |}.

(** The writes of the transaction, once the organization exists. *)
Definition insert_workspace (ctx : Context) (userId org name slug : string) : M unit :=
  id <- new_id "workspace" ;;
  now <- date_now ;;
  k8sNamespace <- new_id "dns1035" ;;
  exec_insert (InsertWorkspace (new_workspace id org name slug k8sNamespace now)) ;;
  exec_insert (InsertLimits id limitsByPlan_free) ;;
  exec_insert (InsertBilling id free_billing) ;;
  insertAuditLogs [create_log ctx userId id name].

Definition CREATE_FAILED : Exn :=
  internal_error "We are unable to create the workspace. Please try again or contact support@unkey.com".

(** The organization and the slug. *)
Definition createWorkspace (name slug : string) (ctx : Context) : M (string * string) :=
  protectedProcedure (fun u t =>
    org <- catch (transaction (
        e <- appEnv ;;
        (if String.eqb (AUTH_PROVIDER e) "local" then
           existing <- query (fun d => List.filter (fun ws => String.eqb (orgId ws) (tenant_id t)) (all_workspaces d)) ;;
           match existing with [] => ret tt | _ => throw LOCAL_ONE_WORKSPACE end
         else ret tt) ;;
        duplicateSlug <- slug_taken slug ;;
        (if duplicateSlug : bool then throw SLUG_TAKEN else ret tt) ;;
        org <- createTenant name (user_id u) ;;
        insert_workspace ctx (user_id u) org name slug ;;
        ret org)) (or_trpc None CREATE_FAILED) ;;
    ret (org, slug)) ctx.

(** ** changeName *)

Definition RENAME_FAILED : Exn :=
  internal_error "We are unable to update the workspace name. Please try again or contact support@unkey.com".

Definition changeWorkspaceName (name workspaceId : string) : WCtx -> M unit :=
  requireWorkspaceAdmin (fun c =>
    if negb (String.eqb workspaceId (cw_id (c_workspace c))) then throw (TRPCError "BAD_REQUEST" "Invalid workspace ID")
    else
      catch (transaction (
        catch (exec (RenameWorkspace workspaceId name)) (fun _ => throw RENAME_FAILED) ;;
        insertAuditLogs [user_log c (cw_id (c_workspace c)) "workspace.update"
          ("Changed name from " +:+ cw_name (c_workspace c) +:+ " to " +:+ name)
          [resource "workspace" (cw_id (c_workspace c)) (Some name)] None] ;;
        updateOrg (tenant_id (c_tenant c)) name ;;
        ret tt)) (fun _ => throw RENAME_FAILED)).

(** ** getById and getCurrent *)

Definition getWorkspaceById : WCtx -> M string := fun c =>
  let slug := cw_slug (c_workspace c) in
  if Js.truthy_string slug then ret slug else throw (TRPCError "NOT_FOUND" "Workspace not found").

Definition NO_ORGANIZATION : Exn := TRPCError "NOT_FOUND" "No organization found - workspace setup required".

Definition getCurrentWorkspace (ctx : Context) : M CtxWorkspace :=
  protectedProcedure (fun _ t =>
    match ctx_workspace ctx with
    | Some ws => ret ws
    | None =>
        if negb (Js.truthy_string (tenant_id t)) then throw NO_ORGANIZATION
        else
          ws <- catch (query (fun d => option_map (ctx_of d) (find_by_org (tenant_id t) d)))
                  (fun _ => throw (internal_error "Failed to fetch workspace data")) ;;
          match ws with
          | None => throw (TRPCError "NOT_FOUND" "Workspace not found for organization - workspace setup required")
          | Some ws => ret ws
          end
    end) ctx.

(** ** onboarding *)

(** The API, and the key with its text. *)
Definition onboardingKeyCreation (base58_encode : list Z -> string) (digest : list Z -> list Z) (apiName : string)
    (keyInput : CreateKeyInput) : WCtx -> M (string * string * string) := fun c =>
  catch (transaction (
      api <- createApiCore c apiName ;;
      key <- createKeyCore base58_encode digest c keyInput (snd api) false ;;
      ret (fst api, fst key, snd key)))
    (or_trpc None (internal_error "We are unable to create the API and key. Please try again or contact support@unkey.com")).

End Procedures.

(** ** Facts *)

(** [row] is the row that records [log]. *)
Definition records (log : UnkeyAuditLog) (row : OutboxRow) : Prop :=
  outbox_workspaceId row = log_workspaceId log /\ envelope_event (outbox_payload row) = log_event log
  /\ envelope_description (outbox_payload row) = log_description log /\ envelope_actor (outbox_payload row) = log_actor log.

Lemma audit_one_ret log env w u w' :
  insertAuditLogs [log] env w = (Ret u, w') -> exists row, db w' = apply_stmt (InsertOutbox [row]) (db w) /\ records log row.
Proof.
  intros H. apply bind_ret in H as (cid & w1 & [= <- <-] & H). apply bind_ret in H as (rows & w2 & H1 & H).
  apply bind_ret in H1 as (row & w3 & H2 & H1). apply bind_ret in H1 as (nil & w4 & [= <- <-] & [= <- <-]).
  apply bind_ret in H2 as (id & w5 & [= <- <-] & H2). apply bind_ret in H2 as (now & w6 & [= <- <-] & [= <- <-]).
  apply exec_ret in H. eexists. split; [exact H|]. done.
Qed.

Section WorkosTenant.

Context (env : Env).

(** WorkOS made the organization [org] for [name] with [userId] as its administrator. *)
Definition tenant_made (name userId org : string) : Prop :=
  exists tr o tr' m, ask env tr (WorkOS (CreateOrganization name)) = inr o
    /\ ask env tr' (WorkOS (CreateOrganizationMembership (wo_id o) userId "admin")) = inr m /\ wm_organizationId m = org.

Lemma createTenant_ret name userId w org w' :
  Workos.createTenant name userId env w = (Ret org, w') -> db w' = db w /\ tenant_made name userId org.
Proof.
  unfold Workos.createTenant. destruct (_ || _); [done|]. intros H. apply catch_ret in H as [H|(e & w1 & _ & H)]; [|done].
  apply bind_ret in H as (o & w1 & H1 & H). apply bind_ret in H as (m & w2 & H2 & [= <- <-]).
  unfold Workos.createOrg in H1. destruct (negb _); [done|].
  apply catch_ret in H1 as [H1|(e & w3 & _ & H1)]; [|done].
  apply bind_ret in H1 as (x & w3 & H1 & [= <- <-]). apply call_ret in H1 as [Hx Hd]. apply call_ret in H2 as [Hm Hd']. split; [congruence|].
  by exists (trace w), x, (trace w3), m.
Qed.

Lemma slug_taken_ret slug w b w' :
  slug_taken slug env w = (Ret b, w') ->
  db w' = db w /\ b = existsb (fun ws => String.eqb (collation env (ws_slug ws)) (collation env slug)) (all_workspaces (db w)).
Proof.
  unfold slug_taken, bind, call. cbn [Resp]. destruct (ask env (trace w) DbQuery) as [e|[]]; [done|]. by intros [= <- <-].
Qed.

(** The database with the new workspace, its limits and its billing row. *)
Definition with_workspace (row : Workspace) (log : OutboxRow) (d : Db) : Db :=
  {| workspaces := <[ws_id row := row]> (workspaces d);
     workspace_billing := <[ws_id row := free_billing]> (workspace_billing d);
     billing_subscriptions := billing_subscriptions d; limits := <[ws_id row := limitsByPlan_free]> (limits d);
     clickhouse_outbox := clickhouse_outbox d ++ [log]; tables := tables d |}.

(** Nothing of the new workspace was there before. *)
Definition unused (row : Workspace) (d : Db) : Prop :=
  workspaces d !! ws_id row = None /\ limits d !! ws_id row = None /\ workspace_billing d !! ws_id row = None
  /\ Forall (fun ws => same_workspace (collation env) row ws = false) (all_workspaces d).

Definition created (ctx : Context) (userId name slug org : string) (d d' : Db) : Prop :=
  exists id ns now log, let row := new_workspace id org name slug ns now in
    d' = with_workspace row log d /\ unused row d /\ records (create_log ctx userId id name) log.

Lemma not_some {A} (o : option A) : bool_decide (is_Some o) = false -> o = None.
Proof. intros H. apply bool_decide_eq_false in H. destruct o; [|done]. by destruct H. Qed.

Lemma insert_workspace_ret ctx userId org name slug w u w' :
  insert_workspace ctx userId org name slug env w = (Ret u, w') -> created ctx userId name slug org (db w) (db w').
Proof.
  intros H. apply bind_ret in H as (id & w1 & [= <- <-] & H). apply bind_ret in H as (now & w2 & [= <- <-] & H).
  apply bind_ret in H as (ns & w3 & [= <- <-] & H).
  set (w0 := log_call (NewId "dns1035") (log_call DateNow (log_call (NewId "workspace") w))) in H.
  assert (E0 : db w0 = db w) by done. set (row := new_workspace _ _ _ _ _ _) in H.
  apply bind_ret in H as (u1 & w1 & H1 & H). apply exec_insert_ret in H1 as [R1 E1]. rewrite E0 in R1, E1.
  apply bind_ret in H as (u2 & w2 & H2 & H). apply exec_insert_ret in H2 as [R2 E2].
  apply bind_ret in H as (u3 & w3 & H3 & H). apply exec_insert_ret in H3 as [R3 E3].
  apply audit_one_ret in H as (log & E4 & Hlog). rewrite E1 in R2, E2. rewrite E2 in R3, E3. rewrite E3 in E4.
  exists (ws_id row), (fresh env (trace (log_call DateNow (log_call (NewId "workspace") w))) "dns1035"),
    (ws_createdAtM row), log. split; [exact E4|]. split; [|exact Hlog].
  cbn in R1, R2, R3. apply orb_false_iff in R1 as [R1 R1']. apply not_some in R1, R2, R3. repeat split; try done.
  apply Forall_forall. intros ws Hws. apply list_elem_of_In in Hws. apply not_true_iff_false. intros Es.
  apply not_true_iff_false in R1'. apply R1', existsb_exists. by exists ws.
Qed.

Lemma createWorkspace_throws {P : AuthProvider} name slug ctx w e w' :
  createWorkspace name slug ctx env w = (Throw e, w') -> db w' = db w /\ exists code m, e = TRPCError code m.
Proof.
  unfold createWorkspace, protectedProcedure, requireUser. destruct (ctx_user ctx) as [u|]; [|intros [= <- <-]; eauto].
  destruct (negb _); [intros [= <- <-]; eauto|]. intros H. apply bind_throw in H as [H|(org & w1 & _ & H)]; [|done].
  apply catch_throw in H as (e1 & w1 & H1 & H). apply Atomic_transaction in H1. rewrite <- H1.
  unfold or_trpc in H. repeat case_match; injection H as <- <-; eauto.
Qed.

End WorkosTenant.

(** Claim C33. A workspace is created whole or not at all. Whoever calls, whatever WorkOS
    and the database answer: when [createWorkspace] returns, the only change is a new
    enabled and protected workspace with the given name and slug, in an organization
    WorkOS made for that name with the caller as administrator, with the limits and the
    billing row of the Free plan and one audit log; no workspace had its id, its
    organization, its namespace or, in the server's collation, its slug. When it throws,
    the database is unchanged and the error is one for the client. *)
Theorem workspace_created_whole (parse_state : string -> option (option string * option string))
    (stringify_state : string -> option string -> string) (stringify_challenge : AuthChallenge -> string)
    (authorizationUrl : string -> string -> string -> string) (name slug : string) (ctx : Context) (env : Env) (w : World) :
  match createWorkspace (P := Workos.workos parse_state stringify_state stringify_challenge authorizationUrl) name slug ctx env w with
  | (Ret (org, slug'), w') =>
      slug' = slug /\ exists u, ctx_user ctx = Some u /\ tenant_made env name (user_id u) org
                               /\ created env ctx (user_id u) name slug org (db w) (db w')
  | (Throw e, w') => db w' = db w /\ exists code m, e = TRPCError code m
  end.
Proof.
  destruct (createWorkspace _ _ _ _ _) as [[[org slug']|e] w'] eqn:H; [|by apply createWorkspace_throws in H].
  unfold createWorkspace, protectedProcedure, requireUser in H. destruct (ctx_user ctx) as [u|]; [|done].
  destruct (negb _); [done|]. apply bind_ret in H as (o & w1 & H1 & H). injection H as -> <- <-. split; [done|]. exists u. split; [done|].
  apply catch_ret in H1 as [H1|(e & w2 & _ & H1)]; [|unfold or_trpc in H1; by repeat case_match].
  apply transaction_ret in H1 as (w2 & w3 & E0 & H1 & E3). rewrite E3. clear E3.
  apply bind_ret in H1 as (ae & w4 & [= <- <-] & H1). apply bind_ret in H1 as (x & w5 & Hl & H1).
  assert (E5 : db w5 = db w2).
  { eapply read_ret; [|exact Hl]. effects. }
  apply bind_ret in H1 as (b & w6 & Hb & H1). apply slug_taken_ret in Hb as [E6 _].
  apply bind_ret in H1 as (y & w7 & Hy & H1). assert (E7 : db w7 = db w6) by (destruct b; [done|by injection Hy as _ <-]).
  apply bind_ret in H1 as (org' & w8 & Ht & H1). cbn in Ht. apply createTenant_ret in Ht as [E8 Ht].
  apply bind_ret in H1 as (z & w9 & Hi & H1). injection H1 as <- <-. apply insert_workspace_ret in Hi.
  rewrite E8, E7, E6, E5, E0 in Hi. done.
Qed.

(** The organization is made inside the transaction and nothing removes it: when a
    later write fails, the caller administers an organization without a workspace. *)
Theorem failed_creation_leaves_organization (parse_state : string -> option (option string * option string))
    (stringify_state : string -> option string -> string) (stringify_challenge : AuthChallenge -> string)
    (authorizationUrl : string -> string -> string -> string) (name slug : string) (ctx : Context) (env : Env) (w : World)
    (u : CtxUser) (o : WorkosOrganization) (m : WorkosMembership) (refusal : option string) :
  let P := Workos.workos parse_state stringify_state stringify_challenge authorizationUrl in
  ctx_user ctx = Some u -> user_id u <> EmptyString -> name <> EmptyString -> AUTH_PROVIDER (app_env env) <> "local"%string ->
  existsb (fun ws => String.eqb (collation env (ws_slug ws)) (collation env slug)) (all_workspaces (db w)) = false ->
  (forall tr, ask env tr TxBegin = inr tt /\ ask env tr DbQuery = inr tt
              /\ ask env tr (WorkOS (CreateOrganization name)) = inr o
              /\ ask env tr (WorkOS (CreateOrganizationMembership (wo_id o) (user_id u) "admin")) = inr m
              /\ forall row, ask env tr (DbExec (InsertWorkspace row)) = inl (QueryError refusal)) ->
  exists w', createWorkspace (P := P) name slug ctx env w = (Throw CREATE_FAILED, w') /\ db w' = db w
             /\ In (WorkOS (CreateOrganizationMembership (wo_id o) (user_id u) "admin")) (trace w').
Proof.
  intros P Hu Hid Hn Hl Hs Ha. unfold createWorkspace, protectedProcedure, requireUser. rewrite Hu.
  assert (Ei : Js.truthy_string (user_id u) = true) by (by destruct (user_id u)).
  assert (En : Js.truthy_string name = true) by (by destruct name). rewrite Ei. cbn [negb].
  unfold bind at 1, catch, transaction, bind at 1, call at 1. destruct (Ha (trace w)) as (Ht & _). cbn [Resp]. rewrite Ht.
  unfold bind at 1 2, appEnv. rewrite (proj2 (String.eqb_neq _ _) Hl). unfold bind at 1, ret at 1.
  unfold bind at 1, slug_taken, bind at 1, call at 1. cbn [Resp]. destruct (Ha (trace (log_call TxBegin w))) as (_ & Hq & _). rewrite Hq.
  cbn [log_call db trace]. rewrite Hs. unfold bind at 1, ret at 1.
  unfold bind at 1. cbn [createTenant P Workos.workos]. unfold Workos.createTenant. rewrite Ei, En. cbn [negb orb].
  unfold catch at 1, bind at 1, Workos.createOrg. rewrite En. cbn [negb]. unfold catch at 1, bind at 1, call at 1.
  rewrite (proj1 (proj2 (proj2 (Ha _)))). unfold ret at 1. cbn [org_id Workos.transformOrganizationData]. unfold bind at 1, call at 1.
  rewrite (proj1 (proj2 (proj2 (proj2 (Ha _))))). unfold ret at 1.
  unfold insert_workspace, bind at 1 2 3 4 5, new_id, date_now, exec_insert, bind at 1, call at 1. cbn [Resp].
  rewrite (proj2 (proj2 (proj2 (proj2 (Ha _))))). cbn. eexists. split; [done|]. split; [done|].
  cbn [trace with_db log_call]. rewrite !in_app_iff. cbn. tauto.
Qed.

(** ** Renaming *)

Lemma updateOrg_ret id name env w o w' :
  Workos.updateOrg id name env w = (Ret o, w') ->
  db w' = db w /\ exists tr x, ask env tr (WorkOS (UpdateOrganization id name)) = inr x.
Proof.
  unfold Workos.updateOrg. destruct (_ || _); [done|]. intros H. apply catch_ret in H as [H|(e & w1 & _ & H)]; [|done].
  apply bind_ret in H as (x & w1 & H1 & [= _ <-]). apply call_ret in H1 as [Hx Hd]. split; [done|]. by exists (trace w), x.
Qed.

(** Only an administrator renames a workspace, and only the own one. When
    [changeWorkspaceName] returns, the caller is an administrator, the id is the one of
    the caller's workspace, WorkOS renamed the organization to the same name, and the
    database has the new name and one audit log and is otherwise as before; when it
    throws, the database is unchanged and the error is one for the client. *)
Theorem workspace_renamed (parse_state : string -> option (option string * option string))
    (stringify_state : string -> option string -> string) (stringify_challenge : AuthChallenge -> string)
    (authorizationUrl : string -> string -> string -> string) (name workspaceId : string) (c : WCtx) (env : Env) (w : World) :
  match changeWorkspaceName (P := Workos.workos parse_state stringify_state stringify_challenge authorizationUrl) name workspaceId c env w with
  | (Ret _, w') =>
      is_admin (c_tenant c) = true /\ workspaceId = cw_id (c_workspace c)
      /\ (exists tr x, ask env tr (WorkOS (UpdateOrganization (tenant_id (c_tenant c)) name)) = inr x)
      /\ exists row, db w' = apply_stmt (InsertOutbox [row]) (apply_stmt (RenameWorkspace workspaceId name) (db w))
                     /\ outbox_workspaceId row = workspaceId /\ envelope_actor (outbox_payload row) = user_actor c
  | (Throw e, w') => db w' = db w /\ exists code m, e = TRPCError code m
  end.
Proof.
  unfold changeWorkspaceName, requireWorkspaceAdmin. destruct (is_admin (c_tenant c)); [|cbn; split; [done|]; unfold ADMIN_REQUIRED; eauto].
  destruct (String.eqb_spec workspaceId (cw_id (c_workspace c))) as [->|]; cbn [negb]; [|cbn; eauto].
  destruct (catch _ _ env w) as [[u|e] w'] eqn:H.
  - split; [done|]. split; [done|]. apply catch_ret in H as [H|(e & w2 & _ & H)]; [|done].
    apply transaction_ret in H as (w2 & w3 & E0 & H & E3). apply bind_ret in H as (x & w4 & H1 & H).
    apply catch_ret in H1 as [H1|(e & w5 & _ & H1)]; [|done]. apply exec_ret in H1.
    apply bind_ret in H as (y & w5 & H2 & H). apply audit_one_ret in H2 as (row & E5 & Hw & _ & _ & Hact).
    apply bind_ret in H as (o & w6 & Ho & [= _ <-]). cbn in Ho. apply updateOrg_ret in Ho as [E6 Ho]. split; [done|].
    exists row. split; [|done]. rewrite E3, E6, E5, H1, E0. done.
  - apply catch_throw in H as (e1 & w1 & H1 & [= <- <-]). apply Atomic_transaction in H1. split; [done|]. unfold RENAME_FAILED, internal_error. eauto.
Qed.

(** The organization is renamed before the commit: when the commit fails, WorkOS has
    the new name and the workspace keeps the old one. *)
Theorem failed_commit_leaves_new_name (parse_state : string -> option (option string * option string))
    (stringify_state : string -> option string -> string) (stringify_challenge : AuthChallenge -> string)
    (authorizationUrl : string -> string -> string -> string) (name : string) (c : WCtx) (env : Env) (w : World)
    (o : WorkosOrganization) :
  let P := Workos.workos parse_state stringify_state stringify_challenge authorizationUrl in
  is_admin (c_tenant c) = true -> name <> EmptyString -> tenant_id (c_tenant c) <> EmptyString ->
  (forall tr, ask env tr TxBegin = inr tt /\ (forall s, ask env tr (DbExec s) = inr tt)
              /\ ask env tr (WorkOS (UpdateOrganization (tenant_id (c_tenant c)) name)) = inr o
              /\ ask env tr TxCommit = inl (QueryError None)) ->
  exists w', changeWorkspaceName (P := P) name (cw_id (c_workspace c)) c env w = (Throw RENAME_FAILED, w') /\ db w' = db w
             /\ In (WorkOS (UpdateOrganization (tenant_id (c_tenant c)) name)) (trace w').
Proof.
  intros P Ha Hn Ht He. unfold changeWorkspaceName, requireWorkspaceAdmin. rewrite Ha, String.eqb_refl. cbn [negb].
  assert (Et : Js.truthy_string (tenant_id (c_tenant c)) = true) by (by destruct (tenant_id (c_tenant c))).
  assert (En : Js.truthy_string name = true) by (by destruct name).
  unfold catch at 1, transaction, bind at 1, call at 1. cbn [Resp]. rewrite (proj1 (He _)).
  unfold bind at 1 2, catch at 1, exec at 1, bind at 1, call at 1. cbn [Resp]. rewrite (proj1 (proj2 (He _))).
  unfold bind at 1, insertAuditLogs. cbn [List.length Nat.ltb Nat.leb outbox_rows]. unfold outbox_row, exec.
  unfold bind at 1 2 3 4 5 6 7, ret, new_id, date_now, call at 1. cbn [Resp]. rewrite (proj1 (proj2 (He _))).
  unfold bind at 1. cbn [updateOrg P Workos.workos]. unfold Workos.updateOrg. rewrite Et, En. cbn [negb orb].
  unfold catch at 1, bind at 1, call at 1. rewrite (proj1 (proj2 (proj2 (He _)))). unfold ret at 1, bind at 1, call at 1. cbn [Resp].
  rewrite (proj2 (proj2 (proj2 (He _)))). cbn. eexists. split; [done|]. split; [done|].
  cbn [trace with_db log_call]. rewrite !in_app_iff. cbn. tauto.
Qed.

(** ** The current workspace *)

(** A session without an organization is given its user as tenant, so the answer for a
    session without one is never reached: such a caller is told that the workspace of
    the organization is missing. *)
Theorem no_organization_unreachable (ipSchema : string -> bool) (auth : AuthResult) (headers : string -> option string)
    (ctx : Context) (env : Env) (w w1 w2 : World) :
  createContext ipSchema auth headers env w = (Ret ctx, w1) -> fst (getCurrentWorkspace ctx env w2) <> Throw NO_ORGANIZATION.
Proof.
  intros H. apply bind_ret in H as (ws & w3 & _ & [= <- _]). unfold getCurrentWorkspace, protectedProcedure, requireUser.
  cbn [ctx_user ctx_workspace ctx_tenant]. destruct (auth_userId auth) as [u|]; [|done]. destruct (Js.truthy_string u) eqn:Eu; [|done].
  cbn [user_id]. rewrite Eu. cbn [negb]. destruct ws as [ws|]; [done|].
  assert (Et : forall t, t = Js.coalesce match auth_orgId auth with
      | Some id => if Js.truthy_string id then Some {| tenant_id := id; tenant_role := auth_role auth |} else None
      | None => None end {| tenant_id := u; tenant_role := Some "member"%string |} -> Js.truthy_string (tenant_id t) = true).
  { intros t ->. destruct (auth_orgId auth) as [id|]; [|done]. destruct (Js.truthy_string id) eqn:Ei; done. }
  rewrite (Et _ eq_refl). cbn [negb]. unfold bind at 1. destruct (catch _ _ env w2) as [[[x|]|e] w4] eqn:Hc; [done|done|].
  apply catch_throw in Hc as (e' & w5 & _ & [= <- _]). discriminate.
Qed.

(** Onboarding makes the API and its first key together or neither of them. *)
Lemma onboarding_atomic base58 digest apiName keyInput c env w e w' :
  onboardingKeyCreation base58 digest apiName keyInput c env w = (Throw e, w') ->
  db w' = db w /\ exists code m, e = TRPCError code m.
Proof.
  intros H. apply catch_throw in H as (e1 & w1 & H1 & H). apply Atomic_transaction in H1.
  unfold or_trpc in H. repeat case_match; injection H as <- <-; split; unfold internal_error; eauto.
Qed.
