(* ===== verification/DeployBudget.v ===== *)
(** * The Compute budget

    web/apps/dashboard/lib/trpc/routers/billing/deploy-budget and [formatDollars] of
    lib/fmt.ts: the monthly spend budget of a workspace, with the switch that stops
    workloads at it. *)

From Stdlib Require Import ZArith Bool String Lia.
From stdpp Require Import base list gmap strings.
From S2P Require Import Prelude Tables StripeTypes DeployPlan Effects Fixtures SlackText BillingOps Trpc Store Workspaces.

Local Open Scope Z_scope.

(** [formatDollars(cents)]: US dollars, with decimals where there are cents. *)
Definition formatDollars (cents : Z) : string :=
  if negb (Z.rem cents 100 =? 0) then formatPrice cents
  else (if cents <? 0 then "-" else "") +:+ "$" +:+ group_digits (Num.print (Z.abs cents / 100)).

Definition MAX_BUDGET_CENTS : Z := 1000000000.

(** [z.number().int().positive().max(MAX_BUDGET_CENTS).multipleOf(100).nullable()] *)
Definition budgetSchema (budgetCents : option Z) : bool :=
  match budgetCents with
  | None => true
  | Some c => (0 <? c) && (c <=? MAX_BUDGET_CENTS) && (Z.rem c 100 =? 0)
  end.

Definition getDeployBudget : WCtx -> M SpendCap := withRatelimit "trpc_read" (fun c => ret (cw_spend (c_workspace c))).

Definition budget_description (budgetCents : option Z) (stopAtBudget : bool) : string :=
  match budgetCents with
  | None => "Removed the Compute spend budget."
  | Some c => "Set the Compute spend budget to " +:+ formatDollars c +:+ "/month (stop workloads: " +:+ (if stopAtBudget then "on" else "off") +:+ ")."
  end.

Definition budget_only (budgetCents : option Z) (stopAtBudget : bool) : BillingUpdate :=
  {| set_tier := None; set_stripeCustomerId := None; set_plan := None; set_budget := Some (budgetCents, stopAtBudget) |}.

(** What tRPC throws for an input that its schema refuses; the text is that of zod. *)
Definition INVALID_INPUT : Exn := TRPCError "BAD_REQUEST" "Invalid input".

Definition setDeployBudget (budgetCents : option Z) (stopAtBudget : bool) : WCtx -> M (option Z * bool) :=
  requireWorkspaceAdmin (withRatelimit "trpc_update" (fun c =>
    let ws := cw_id (c_workspace c) in
    if negb (budgetSchema budgetCents) then throw INVALID_INPUT
    else if stopAtBudget && bool_decide (budgetCents = None) then throw (TRPCError "BAD_REQUEST" "Set a budget to stop workloads at.")
    else
      exec (UpdateBilling ws (budget_only budgetCents stopAtBudget)) ;;
      insertAuditLogs [user_log c ws "workspace.update" (budget_description budgetCents stopAtBudget) [] None] ;;
      ret (budgetCents, stopAtBudget))).

Example dollars : List.map formatDollars [100; 123456700; 2550; 0]%Z = ["$1"; "$1,234,567"; "$25.50"; "$0"]%string.
Proof. vm_compute. reflexivity. Qed.

(** ** The budget that is kept *)

(** A budget is a positive number of whole dollars below the bound, and workloads stop
    only at a budget. *)
Definition budget_ok (s : SpendCap) : Prop :=
  match spendBudgetCents s with
  | Some c => 0 < c <= MAX_BUDGET_CENTS /\ (100 | c)
  | None => spendBudgetStop s = false
  end.

(** The database with the new budget of the workspace. *)
Definition with_budget (ws : string) (budgetCents : option Z) (stopAtBudget : bool) (d : Db) : Db :=
  apply_stmt (UpdateBilling ws (budget_only budgetCents stopAtBudget)) d.

Lemma Atomic_audit logs : Atomic (insertAuditLogs logs).
Proof.
  unfold insertAuditLogs. destruct logs as [|log logs]; [by intros env w e w' [=]|]. apply Atomic_bind_read; [effects|intros cid].
  apply Atomic_bind_read; [apply ReadOnly_outbox_rows|intros rows]. apply Atomic_exec.
Qed.

(** What a run leaves: nothing changed, or the budget of the workspace of an
    administrator, with or without its audit log. *)
Lemma setDeployBudget_run cents stop c env w o w' :
  setDeployBudget cents stop c env w = (o, w') ->
  let ws := cw_id (c_workspace c) in
  let log := user_log c ws "workspace.update" (budget_description cents stop) [] None in
  let allowed := is_admin (c_tenant c) = true /\ budgetSchema cents = true /\ (stop = true -> cents <> None) in
  match o with
  | Ret r => allowed /\ r = (cents, stop) /\ exists row, records log row /\ db w' = apply_stmt (InsertOutbox [row]) (with_budget ws cents stop (db w))
  | Throw _ => db w' = db w \/ allowed /\ db w' = with_budget ws cents stop (db w)
  end.
Proof.
  unfold setDeployBudget, requireWorkspaceAdmin. destruct (is_admin (c_tenant c)); [|intros [= <- <-]; by left]. unfold withRatelimit.
  intros H. destruct o as [r|e].
  - apply bind_ret in H as (ok & w1 & H1 & H). apply (read_ret _ _ _ _ _ (ReadOnly_limit_allows _ _)) in H1. rewrite <- H1. clear w H1. destruct ok; [|done].
    cbv zeta in H. destruct (budgetSchema cents) eqn:Eb; cbn [negb] in H; [|done]. destruct (stop && bool_decide (cents = None)) eqn:Es; [done|].
    apply bind_ret in H as ([] & w2 & H2 & H). apply exec_ret in H2. apply bind_ret in H as ([] & w3 & H3 & [= <- <-]).
    apply audit_one_ret in H3 as (row & E3 & Hrow). rewrite H2 in E3. split; [split; [done|split; [done|]]|split; [done|by exists row]].
    intros ->. by destruct (decide (cents = None)); [subst|].
  - apply bind_throw in H as [H|(ok & w1 & H1 & H)]; [left; by apply (read_ret _ _ _ _ _ (ReadOnly_limit_allows _ _)) in H|].
    apply (read_ret _ _ _ _ _ (ReadOnly_limit_allows _ _)) in H1. rewrite <- H1. clear w H1. destruct ok; [|injection H as _ <-; by left].
    cbv zeta in H. destruct (budgetSchema cents) eqn:Eb; cbn [negb] in H; [|injection H as _ <-; by left].
    destruct (stop && bool_decide (cents = None)) eqn:Es; [injection H as _ <-; by left|].
    apply bind_throw in H as [H|([] & w2 & H2 & H)]; [left; by apply Atomic_exec in H|]. apply exec_ret in H2.
    apply bind_throw in H as [H|([] & w3 & H3 & [=])]. apply Atomic_audit in H. right. rewrite H, H2. split; [|done]. split; [done|]. split; [done|].
    intros ->. by destruct (decide (cents = None)); [subst|].
Qed.

Lemma budget_ok_new cents stop s : budgetSchema cents = true -> (stop = true -> cents <> None) ->
  budget_ok {| spendBudgetCents := cents; spendBudgetStop := stop; spendSuspended := s |}.
Proof.
  intros Hs Hstop. unfold budget_ok. cbn. destruct cents as [n|].
  - cbn in Hs. apply andb_true_iff in Hs as [[H1%Z.ltb_lt H2%Z.leb_le]%andb_true_iff H3%Z.eqb_eq].
    split; [lia|]. apply Z.rem_divide; [lia|done].
  - destruct stop; [by destruct Hstop|done].
Qed.

(** Claim C40. The budget of a workspace is sound and only an administrator sets it. If
    every stored budget is a positive number of whole dollars within the bound, and
    workloads stop only at a budget, this is so after any attempt to set one, whatever the
    input, also after a failed one. Only the budget of the administrator's own workspace can change, and of its
    row nothing but the budget and the switch. When the procedure returns, the change is
    recorded once in the audit log, and the next request reads what was set. *)
Theorem budgets_stay_sound (cents : option Z) (stop : bool) (c : WCtx) (env : Env) (w w' : World) (o : Outcome (option Z * bool)) :
  setDeployBudget cents stop c env w = (o, w') ->
  let ws := cw_id (c_workspace c) in
  (map_Forall (fun _ b => budget_ok (spend b)) (workspace_billing (db w)) -> map_Forall (fun _ b => budget_ok (spend b)) (workspace_billing (db w')))
  /\ (forall k, k <> ws -> workspace_billing (db w') !! k = workspace_billing (db w) !! k)
  /\ (workspace_billing (db w') = workspace_billing (db w) \/ is_admin (c_tenant c) = true)
  /\ (forall b b', workspace_billing (db w) !! ws = Some b -> workspace_billing (db w') !! ws = Some b' ->
       tier b' = tier b /\ stripeCustomerId b' = stripeCustomerId b /\ plan b' = plan b /\ planOverride b' = planOverride b
       /\ spendSuspended (spend b') = spendSuspended (spend b))
  /\ (forall r, o = Ret r -> r = (cents, stop)
       /\ (exists row, clickhouse_outbox (db w') = clickhouse_outbox (db w) ++ [row] /\ outbox_workspaceId row = ws)
       /\ forall row, ws_id row = ws -> is_Some (workspace_billing (db w) !! ws) ->
            spendBudgetCents (cw_spend (ctx_of (db w') row)) = cents /\ spendBudgetStop (cw_spend (ctx_of (db w') row)) = stop).
Proof.
  intros H ws. apply setDeployBudget_run in H. fold ws in H. cbv zeta in H.
  assert (workspace_billing (db w') = workspace_billing (db w)
    \/ (is_admin (c_tenant c) = true /\ budgetSchema cents = true /\ (stop = true -> cents <> None))
       /\ workspace_billing (db w') = alter (update_billing (budget_only cents stop)) ws (workspace_billing (db w))) as Hb.
  { destruct o as [r|e]; [destruct H as (Ha & _ & row & _ & ->); by right|]. destruct H as [->|[Ha ->]]; [by left|by right]. }
  split; [|split; [|split; [|split]]].
  - intros Hall. destruct Hb as [->|[(_ & Hs & Ha) ->]]; [done|]. intros k b Hk. apply lookup_alter_Some in Hk as [(-> & b0 & Hb0 & ->)|[_ Hk]].
    + by apply budget_ok_new.
    + by apply (Hall k b).
  - intros k Hk. destruct Hb as [->|[_ ->]]; [done|]. by apply lookup_alter_ne.
  - destruct Hb as [->|[[Ha _] _]]; auto.
  - intros b b' H1 H2. destruct Hb as [E|[_ E]]; rewrite E in H2; [by simplify_eq|]. rewrite lookup_alter_eq, H1 in H2. by injection H2 as <-.
  - intros r ->. destruct H as (_ & -> & row & (Hrow & _) & E). split; [done|]. rewrite E. split; [by exists row|].
    intros wsrow Hid [b Hsome]. unfold ctx_of. cbn [cw_spend]. rewrite Hid. cbn. rewrite lookup_alter_eq, Hsome. done.
Qed.

Lemma budgets_stay_sound_witness :
  let '(o, w') := setDeployBudget (Some 250000) true (demo_ctx compute_db) demo_env (world_of compute_db) in
  o = Ret (Some 250000, true) /\ spendBudgetCents (cw_spend (ctx_of (db w') demo_workspace)) = Some 250000.
Proof.
  destruct (setDeployBudget (Some 250000) true (demo_ctx compute_db) demo_env (world_of compute_db)) as [o w'] eqn:E.
  destruct (budgets_stay_sound (Some 250000) true (demo_ctx compute_db) demo_env (world_of compute_db) w' o E) as (_ & _ & _ & _ & H).
  assert (o = Ret (Some 250000, true)) as Ho by (vm_compute in E; injection E as <- _; reflexivity).
  destruct (H _ Ho) as (_ & _ & Hr). split; [exact Ho|]. destruct (Hr demo_workspace eq_refl) as [Hc _]; [vm_compute; eexists; reflexivity|exact Hc].
Defined.
